(* ===== verification/_CoqProject ===== *)
-Q . S2P
Prelude.v
RustStr.v
Json.v
LwsTypes.v
Errors.v
Db.v
Effects.v
Http.v
Demo.v
TipStatus.v
SocialTips.v
TipLifecycle.v
TipSafety.v
TipPrograms.v
Chains.v
TipFunding.v
Sweep.v
SweepSafety.v
TipGc.v
Pepper.v
Auth.v
Config.v
Overlay.v
TipApi.v
Slatepack.v
Nip98.v
Signatures.v
Challenges.v
Events.v
RelayPolicy.v
Pow.v
Lws.v
WalletCn.v
LwsSafety.v
WalletSafety.v
Electrum.v
ElectrumSafety.v
UtxoApi.v
UtxoSafety.v
ConfigSafety.v
OverlaySafety.v
TipMethods.v
Transactions.v
AuditChain.v
Registration.v
Premium.v
Users.v
AuthApi.v
AuthSafety.v
Paths.v
AuthGates.v
RestoreCheck.v
AdminKeys.v
AdminSafety.v
AdminApi.v
AdminApiSafety.v
Settings.v
SettingsSafety.v
Erasure.v
ErasureSafety.v
UsersApi.v
UsersSafety.v
Website.v
WebsiteSafety.v
Grin.v
GrinApi.v
GrinSafety.v
Verify.v
VerifySafety.v
Prices.v
PricesSafety.v
BtcPay.v
Capabilities.v
Landing.v
Cli.v
CliSafety.v
MigrationSafety.v
Boot.v
BootSafety.v
