(* ===== verification/Prelude.v ===== *)
(** * A verification of the Smirk wallet backend

    The program (a Rust crate) is the server side of a non-custodial wallet.
    It never holds keys or funds: it keeps accounts and sessions, relays
    half-built Grin transactions between users, decides who may publish on the
    first-party Nostr relay, and keeps the books of "social tips": a sender
    funds a one-time address, the server watches the chain, and whoever the tip
    is for may take the encrypted key and sweep the address.  This library
    models those parts as they are written and proves that they keep their
    promises.

    ** The parts of the program and the files that model them

    - [Prelude], [RustStr]: machine integers at their width (wrapping casts,
      checked and saturating operations, sums that panic on overflow: the crate
      builds with overflow checks), SQL's three-valued equality, functional
      record update, the ASCII operations of [str], shared lemmas and tactics.
    - [Errors]: [src/error.rs], and the outcome of a fallible computation: a
      value, an [AppError], or a panic.
    - [Db]: the rows of the tables ([src/models/db.rs], [SocialTipRow]); the
      third-party functions the code calls (UUID, hex, SHA-256, RFC 3339) as
      the class [Ext], with their documented laws in [ExtLaws].
    - [Effects]: async code.  A program is a function of a [World]: database,
      clock, upstream call counter, random identifiers and a schedule.  Before
      each statement the head slot of the schedule lets time pass, runs an
      arbitrary transformer of the database (the other tasks and instances) and
      may make the statement fail before or after its commit.  [triple] is the
      rely/guarantee judgement: under every schedule made of steps of the
      system, what the program does is itself a sequence of steps of the
      system.  [Paths] follows one run: from which point to which it went, by what
      steps, with its clock and its calls.
    - [TipStatus], [SocialTips]: [src/models/tip_status.rs],
      [src/infra/db/social_tips.rs] and the migrations of the table; each
      statement is a [WHERE] clause and a [SET] clause, with the trigger, the
      CHECKs, the VARCHAR lengths and the foreign keys run as Postgres runs
      them.
    - [TipLifecycle], [TipSafety], [TipPrograms]: the state machine of all
      statements that touch tips, the well-formedness of a row, and the safety
      of every method of the store against that machine.
    - [Chains]: what the tip workers read from Electrum, the Monero/Wownero
      light-wallet server and the Grin node ([src/infra/electrum.rs],
      [src/infra/lws/client.rs], [src/infra/grin/api.rs]).  The servers are
      parameters: any answer at any call, or an error.  Amounts of Electrum are
      binary64 numbers, computed with the Standard Library's [SpecFloat].
    - [TipFunding]: [src/tips/confirmation.rs]; [Sweep]:
      [src/tips/sweep_reconciler.rs]; [TipGc]: [src/tips/gc.rs]: the background
      workers, each whole cycle.  [SweepSafety] holds the theorems on the
      decisions of the sweep cycles.
    - [Auth]: [src/core/session.rs], [src/infra/db/sessions.rs],
      [src/api/middleware.rs]; the JWT library is the class [Jwt] with its laws
      [JwtLaws].
    - [TipApi]: every handler of [src/api/tips.rs]; [TipMethods]: the two
      methods of the store that issue more than one statement.
    - [Slatepack]: [src/infra/db/grin_slatepacks.rs] and
      [src/api/wallet/grin_relay.rs].
    - [RelayPolicy]: [src/infra/relay/policy.rs], [mod.rs] and [nauthz.rs].
    - [Transactions]: multi-statement transactions, as one atomic step at one
      [NOW()] that an early return rolls back; [Pepper]:
      [src/core/crypto/pepper.rs], over an HMAC that is the class [Hmac].
    - [Registration]: the single-use gates ([src/core/invite.rs],
      [src/infra/db/invite_codes.rs], [payment_invoices.rs]), the keys
      ([user_keys.rs]) and the creation of users ([users.rs]); [Users]: the rest
      of the users store (lookups, re-keying, linking, renaming).
    - [Nip98]: [src/core/crypto/nip98.rs], signed Nostr events as credentials;
      [Signatures]: [src/core/crypto/signatures.rs], wallet signatures;
      [Challenges]: [src/infra/db/challenges.rs], the nonces behind them.
    - [Pow]: [src/core/pow.rs], [src/core/restore_pow.rs] and the restore policy
      of [src/config.rs]; [Events]: [src/infra/db/login_events.rs],
      [restore_attempts.rs], [audit.rs] and the retention sweep.
    - [AuthApi]: the handlers of [src/api/auth.rs] (wallet registration, Nostr
      login, registration and link, refresh, logout, username checks, restore
      checks) and the gates of [RegistrationConfig].  [AuthSafety], [AuthGates]
      and [RestoreCheck] hold its theorems.
    - [AdminKeys]: the administrators' allowlist, sessions and bootstrap latch
      ([src/core/crypto/admin_mac.rs], [src/infra/db/admin_keys.rs],
      [admin_sessions.rs], [server_config.rs]); [AdminApi]:
      [src/core/admin_session.rs] and the session, allowlist and invite handlers
      of [src/api/admin.rs].  [AdminSafety] and [AdminApiSafety] hold the
      theorems.
    - [Erasure]: [src/infra/db/erasure.rs] and [src/api/erasure.rs], with the
      theorems in [ErasureSafety].
    - [Premium]: [src/api/premium.rs], [src/infra/db/premium_invoices.rs] and the
      choice of a payment rail ([src/infra/payment/mod.rs], [btcpay.rs]); the
      processors are parameters that may answer anything.  [BtcPay]: the BTCPay
      processor itself, down to the requests it sends.
    - [AuditChain]: [src/infra/db/admin_audit.rs].
    - [Json]: the values of [serde_json] and the encoding of a struct of optional
      fields.  [Config]: [src/config.rs], every record, [Config::from_env] in the
      order of its reads and [Config::validate] check by check.  [Overlay]:
      [src/config_overlay.rs], the operator's sparse patch.  [Settings]:
      [src/infra/db/operator_settings.rs], the GET and PUT handlers of the
      console in [src/api/admin.rs] with the hot swap of the running
      configuration, and the configuration [src/main.rs] starts on.
      [ConfigSafety], [OverlaySafety] and [SettingsSafety] hold the theorems.
    - [LwsTypes], [Http], [Lws]: the client of a light-wallet server
      ([src/infra/lws/types.rs], [client.rs]): answers read from JSON field by
      field, requests posted (each logged in [World.w_sent]), provisioning,
      registration and import.  [WalletCn]: the wallet's Monero and Wownero
      handlers ([src/api/wallet/xmr_wow.rs], [heights.rs]).  [LwsSafety] and
      [WalletSafety] hold the theorems and the concrete runs.
    - [Electrum]: [src/infra/electrum.rs]: the script of an address, the server
      list, reply lines and what they are judged to say, the fall-back order and
      its circuit breaker, the queries.  [UtxoApi]: the Bitcoin and Litecoin
      handlers ([src/api/wallet/btc_ltc.rs]) with the batches.  [ElectrumSafety]
      and [UtxoSafety] hold the theorems.
    - [UsersApi]: the profile, lookup, username and NIP-05 handlers
      ([src/api/users.rs], [nip05.rs]); [UsersSafety] holds the theorems.
    - [Website]: signing in to a website with a wallet ([src/api/website.rs],
      [src/infra/legacy_directory.rs], the [WebChallenge] of
      [src/core/session.rs]).  The legacy database is a parameter; the
      challenges the process keeps in memory are a field of [Db], because tasks
      share them.  [WebsiteSafety] holds the theorems.
    - [Grin]: the encrypted owner and foreign API of a Grin wallet
      ([src/infra/grin/]): the session, its nonces, the calls.  [GrinApi]: the
      wallet's Grin handlers and the scan service ([src/api/wallet/grin.rs],
      [src/infra/grin_lws/]).  [GrinSafety] holds the theorems.
    - [Verify]: payments checked on chain for another service
      ([src/api/verify.rs]); [VerifySafety] holds the theorems.
    - [Prices]: the price feed ([src/infra/prices.rs], [src/api/prices.rs]) and
      the task of [src/main.rs] that refreshes it, over the binary64 parser of
      decimal text; [PricesSafety] holds the theorems.
    - [Capabilities]: what an instance advertises
      ([src/api/capabilities.rs], [src/infra/chains.rs]).  [Landing]: the public
      page and its statistics ([src/api/landing.rs]).
    - [Cli]: the operator's tool ([src/bin/smirk-admin.rs]), every command over
      the monad [C]: a shell (output, files) and the [World].  The files, the
      entropy and the environment of the process are the class [Host].
      [CliSafety] holds its theorems and [MigrationSafety] those of the import of
      the legacy directory.
    - [Boot]: the start of the server ([src/main.rs]): the configuration, the
      clients, the latch, the tasks with their periods, the listeners; pools,
      migrations and sockets are the class [Start].  [BootSafety] holds the
      theorems.
    - [Demo]: a concrete instance of the third-party functions; it models no
      code and exists so that every hypothesis is shown to be satisfiable.

    ** What is proved

    - Money safety of tips ([TipSafety]): in every state any interleaving can
      reach, a claimable or settled tip is covered by funding the server has
      observed; a claim succeeds exactly when it should; a tip's terms never
      change; its status follows the lifecycle graph; funded money can always
      be taken back by the sender until the sweep settles.
    - The API and the workers are refinements of that machine ([TipApi],
      [TipFunding], [SweepSafety]): whatever the schedule, the failures and the
      servers' answers, all they do is legal steps; a verdict, a settlement and a
      reversal are legal only on what the servers said.
    - Functional behaviour, alone: the funding verdict and the panic on
      overflow, the effect of a verdict, an outage, the winning spend, settling
      and reverting, the janitors, creating, listing, claiming, attaching,
      recording a sweep.
    - Authentication ([Auth]): token pairs round-trip and are not
      interchangeable; revocation is final under every interleaving.
    - The slatepack relay ([Slatepack]): exchanges only move forward, only the
      party whose turn it is acts, and strangers learn nothing.
    - The Nostr relay ([RelayPolicy]): admission is exactly the configured
      policy, fails closed when lookups fail, and the proof-of-work gate is the
      numeric one.
    - Registration ([Registration]): all or nothing under every interleaving and
      failure; a token buys one account, ever.
    - Accounts ([AuthSafety], [AuthGates], [RestoreCheck], [Users]): nobody
      changes or enters an account, or touches its sessions, without its own key,
      token or signature; a new account paid, during the very run that made it, the
      work and exactly the tokens its instance asks for; a refresh token works once;
      an address learns little from restore checks made one after the other; lookups
      are exact.
    - Credentials ([Nip98], [Pow]): a signed action is accepted exactly when it is
      authentic, fresh and bound to this one request; the proofs of work are the
      numeric comparisons they stand for.
    - The operator's plane ([AdminSafety], [AdminApiSafety]): between one and the
      cap live keys whatever interleaves; the latch never reopens; nobody enters
      without a proof and a live key; a revoked key is out at once.
    - Erasure ([ErasureSafety]): an account disappears only by its own confirmed
      request past the grace, all or nothing, the handlers and
      the sweep making no other step; only its own signer can ask.
    - Retention ([Events]): the sweep terminates with exactly the rows inside the
      windows.
    - Premium ([Premium]): an activation is exact and never half done; in every
      reachable state the premium windows are covered by invoices that a
      processor of the kind that minted them reported settled.
    - The administration's trail ([AuditChain]): appending keeps it verifiable;
      a change in a row that others follow is detected (or is a collision of the
      HMAC), another order or a hole always; a truncated tail is not.
    - Configuration ([ConfigSafety], [OverlaySafety], [SettingsSafety]): validation
      accepts exactly the declared specification; an edit of the operator,
      with none pending, is durable, live exactly when it may be, and whatever the settings table holds
      the server starts on a configuration that validates or refuses to start.
    - The light-wallet server ([LwsSafety], [WalletSafety]): an account it knows is
      never added or rescanned, an import that answers is watched from its
      birthday, the subaddress ceiling is the one scanned without a gap; an
      account that an interrupted import strands is a concrete run.
    - The Electrum client ([ElectrumSafety], [UtxoSafety]): an answer is the first
      one a configured server gave to this very request, the breaker is exactly
      its documented rule, a script names one payee, and a history states no
      amount it does not know.
    - The Grin wallet ([GrinSafety]): no two bodies sealed under one session key
      share a nonce; a scan is answered past its depth gate and from a source that
      can answer it.
    - Names and sites ([UsersSafety], [WebsiteSafety]): a profile is edited by its
      own account only and a lookup names the keys of the account that holds the
      handle at one moment of the request; a site is entered only with a signature by a key of the account over
      a fresh challenge, and a challenge is spent once.
    - What the instance says of the world and of itself ([VerifySafety],
      [PricesSafety], [Capabilities], [Landing]): a payment is verified only as the
      chain showed it; the feed quotes what is configured, at prices; an advertised
      feature is one that is served; the public counts are held for their window
      and coarse.
    - The operator's shell ([CliSafety], [MigrationSafety]): a recovery leaves one
      live key and no session; no command and no failure breaks the books; an
      import run twice adds nothing the second time.
    - The start ([BootSafety]): a server that runs has a valid configuration, an
      untampered latch and a plane bound as configured; the exact conditions under
      which it refuses to start.
    - Errors ([Errors]): internal detail never reaches a client.
    - What the code gets wrong is proved too: the unsigned depth gate
      ([Sweep.lagging_server_settles]), the verification pass one tip can abort
      ([TipFunding.poisoned_tip_aborts_pass]), the recipient who cannot be
      erased ([TipSafety.targeted_recipient_not_deletable]), the targeted Grin
      tip that never settles ([TipMethods.targeted_grin_never_settles]).

    ** Bounds and termination

    No definition uses fuel: the loops of the source run over finite lists
    (rows of a batch, history entries, tags) and are structural recursions, so
    every program returns.  Schedules are finite lists; after the last slot the
    program runs undisturbed.  A theorem "alone" takes the empty schedule.

    ** What is not modelled

    Sockets, TLS, HTTP and JSON framing, logging and metrics; the upstream
    servers and third-party crates (parameters); non-ASCII case folding; the
    connection pool (advisory locks are a set of held keys).  A multi-statement
    transaction is atomic in the model: the rows it spends are locked by its own
    updates, but the other serialization anomalies of READ COMMITTED are not
    represented; transactions that take one advisory lock run one at a time, as
    they do in the code.  The configuration is fixed for the length of a request.
    Upstream calls that the code joins or runs concurrently run one after the
    other, and the breaker's counters are threaded through a call.
    The JWT library, the [altcha] crate, the curves, JSON, base64, IP addresses
    and networks are class parameters with their documented laws.

    Components left out: routing ([src/lib.rs]), the accept loops of the listeners
    and the signals that end them, the loop of the gRPC server in front of the
    relay policy, the health and documentation endpoints and the static files of
    the console.  Of a client that keeps a session (the
    Grin wallet) one task's calls are modelled in their order; two tasks sharing
    it are not interleaved. *)

From Stdlib Require Import ZArith Lia Ascii String.
From stdpp Require Export base tactics list gmap strings sorting.

Set Default Goal Selector "!".

(** * Machine integers

    The Rust integers of the source are kept at their width: a value of type
    [u64] is a [Z] in [[0, 2^64)], and each operation writes out what Rust
    does at the border.  The crate builds with [overflow-checks = true] in the
    release profile, so a plain [+] that overflows panics. *)

Declare Scope rust_scope.
Delimit Scope rust_scope with rust.

Abbreviation u8 := Z (only parsing).
Abbreviation u32 := Z (only parsing).
Abbreviation u64 := Z (only parsing).
Abbreviation i32 := Z (only parsing).
Abbreviation i64 := Z (only parsing).

Definition U64_MAX : Z := 2 ^ 64 - 1.
Definition I64_MAX : Z := 2 ^ 63 - 1.
Definition I64_MIN : Z := - 2 ^ 63.
Definition I32_MAX : Z := 2 ^ 31 - 1.

Definition in_u64 (x : Z) : Prop := (0 <= x <= U64_MAX)%Z.
Definition in_i64 (x : Z) : Prop := (I64_MIN <= x <= I64_MAX)%Z.

(** [x as u64] on a signed value: two's complement reinterpretation. *)
Definition as_u64 (x : Z) : Z := (x mod 2 ^ 64)%Z.

(** [x as i64]: the low 64 bits read as a signed number. *)
Definition as_i64 (x : Z) : Z :=
  let y := (x mod 2 ^ 64)%Z in if (y <? 2 ^ 63)%Z then y else (y - 2 ^ 64)%Z.

(** [x as i32]: the low 32 bits read as a signed number. *)
Definition as_i32 (x : Z) : Z :=
  let y := (x mod 2 ^ 32)%Z in if (y <? 2 ^ 31)%Z then y else (y - 2 ^ 32)%Z.

Definition clamp (lo hi x : Z) : Z := Z.max lo (Z.min hi x).

Definition u64_saturating_add (x y : Z) : Z := clamp 0 U64_MAX (x + y).
Definition u64_saturating_sub (x y : Z) : Z := clamp 0 U64_MAX (x - y).
Definition i64_saturating_add (x y : Z) : Z := clamp I64_MIN I64_MAX (x + y).
Definition i64_saturating_sub (x y : Z) : Z := clamp I64_MIN I64_MAX (x - y).

Definition u64_checked_add (x y : Z) : option Z :=
  if (x + y <=? U64_MAX)%Z then Some (x + y)%Z else None.

(** [iter.sum::<u64>()]: [None] when an intermediate addition overflows. *)
Fixpoint u64_sum_from (acc : Z) (xs : list Z) : option Z :=
  match xs with
  | [] => Some acc
  | x :: xs' =>
      match u64_checked_add acc x with
      | Some acc' => u64_sum_from acc' xs'
      | None => None
      end
  end.

Definition u64_sum (xs : list Z) : option Z := u64_sum_from 0 xs.

Definition Zsum (xs : list Z) : Z := foldr Z.add 0%Z xs.

Ltac unfold_int :=
  unfold in_u64, in_i64, u64_saturating_add, u64_saturating_sub,
    i64_saturating_add, i64_saturating_sub, clamp, U64_MAX, I64_MAX, I64_MIN,
    I32_MAX in *.

Ltac int_lia := unfold_int; lia.

Lemma Zsum_nonneg xs : Forall in_u64 xs -> (0 <= Zsum xs)%Z.
Proof.
  induction 1 as [|x xs Hx _ IH]; simpl; [lia|]. unfold in_u64 in Hx. lia.
Qed.

Lemma u64_sum_from_spec xs acc :
  Forall in_u64 xs ->
  u64_sum_from acc xs =
  if (acc + Zsum xs <=? U64_MAX)%Z then Some (acc + Zsum xs)%Z
  else match xs with [] => Some acc | _ => None end.
Proof.
  revert acc. induction xs as [|x xs IH]; intros acc Hxs; simpl.
  { rewrite Z.add_0_r. by destruct (acc <=? U64_MAX)%Z. }
  apply Forall_cons in Hxs as [Hx Hxs].
  pose proof (Zsum_nonneg xs Hxs) as Hnn.
  unfold u64_checked_add, in_u64 in *.
  destruct (Z.leb_spec (acc + x) U64_MAX).
  - rewrite IH by done. rewrite Z.add_assoc.
    destruct (Z.leb_spec (acc + x + Zsum xs) U64_MAX) as [?|?]; [done|].
    destruct xs; [|done]. change (Zsum []) with 0%Z in *. lia.
  - rewrite Z.add_assoc.
    destruct (Z.leb_spec (acc + x + Zsum xs) U64_MAX); [exfalso; lia|done].
Qed.

(** A checked sum succeeds exactly when the mathematical sum fits the width. *)
Lemma u64_sum_spec xs :
  Forall in_u64 xs ->
  u64_sum xs = if (Zsum xs <=? U64_MAX)%Z then Some (Zsum xs) else None.
Proof.
  intros Hxs. unfold u64_sum. rewrite u64_sum_from_spec, Z.add_0_l by done.
  destruct (Z.leb_spec (Zsum xs) U64_MAX); [done|].
  destruct xs; [|done]. change (Zsum []) with 0%Z in *. int_lia.
Qed.

Lemma as_u64_nonneg x : in_u64 x -> as_u64 x = x.
Proof. intros H. unfold as_u64. apply Z.mod_small. int_lia. Qed.

Lemma as_u64_negative x : (I64_MIN <= x < 0)%Z -> as_u64 x = (2 ^ 64 + x)%Z.
Proof.
  intros H. unfold as_u64. symmetry.
  apply Z.mod_unique with (q := (-1)%Z); int_lia.
Qed.

Lemma as_i64_small x : in_i64 x -> as_i64 x = x.
Proof.
  intros H. unfold as_i64, in_i64, I64_MIN, I64_MAX in *.
  destruct (decide (0 <= x)%Z).
  - rewrite Z.mod_small by lia. destruct (Z.ltb_spec x (2 ^ 63)); lia.
  - replace (x mod 2 ^ 64)%Z with (x + 2 ^ 64)%Z.
    + destruct (Z.ltb_spec (x + 2 ^ 64) (2 ^ 63)); lia.
    + apply Z.mod_unique with (q := (-1)%Z); lia.
Qed.

(** * Record update

    [r <| f := v |>] is [r] with the field [f] set to [v].  A record opts in
    with an [Eta] instance, the eta-expansion of its constructor; the setter
    of a field is computed from it. *)

Class Eta (R : Type) := eta : R -> R.
Class Setter {R T : Type} (proj : R -> T) := set_field : T -> R -> R.
Arguments set_field {R T} proj {_} v r.

Ltac make_setter proj :=
  lazymatch type of proj with
  | ?R -> ?T =>
      let e := constr:(_ : Eta R) in
      exact (fun (new_field : T) (old_record : R) =>
        ltac:(let body := eval hnf in (e old_record) in
              lazymatch eval pattern (proj old_record) in body with
              | ?g _ => let t := eval cbv beta in (g new_field) in exact t
              end))
  end.

#[export] Hint Extern 0 (Setter ?p) => make_setter p : typeclass_instances.

Notation "r <| f := v |>" := (set_field f v r)
  (at level 1, left associativity, f at next level,
   format "r  <| f  :=  v |>") : stdpp_scope.

(** * Options *)

Definition is_none {A} (o : option A) : bool :=
  match o with None => true | Some _ => false end.
Definition is_some {A} (o : option A) : bool :=
  match o with None => false | Some _ => true end.

(** SQL [col = $1] on a nullable column: a NULL never equals anything. *)
Definition sql_eq {A} `{EqDecision A} (col : option A) (v : A) : bool :=
  bool_decide (col = Some v).

(** SQL [col < v] on a nullable timestamp. *)
Definition sql_lt (col : option Z) (v : Z) : bool :=
  match col with Some t => (t <? v)%Z | None => false end.

(** SQL [COALESCE(col, v)]. *)
Definition coalesce {A} (col : option A) (v : A) : option A :=
  match col with Some _ => col | None => Some v end.

Lemma is_some_true {A} (o : option A) : is_some o = true <-> is_Some o.
Proof. destruct o; simpl; split; intros; [eauto|done|done|]. by destruct H. Qed.

Lemma is_none_true {A} (o : option A) : is_none o = true <-> o = None.
Proof. by destruct o. Qed.

(** * Tactics *)

(** Split the boolean guards of the context into propositions. *)
Ltac split_bools :=
  repeat match goal with
  | H : _ && _ = true |- _ => apply andb_true_iff in H as [??]
  | H : _ || _ = false |- _ => apply orb_false_iff in H as [??]
  | H : negb _ = true |- _ => apply negb_true_iff in H
  | H : negb _ = false |- _ => apply negb_false_iff in H
  | H : bool_decide _ = true |- _ => apply bool_decide_eq_true_1 in H
  | H : bool_decide _ = false |- _ => apply bool_decide_eq_false_1 in H
  | H : is_none _ = true |- _ => apply is_none_true in H
  | H : is_some _ = true |- _ => apply is_some_true in H
  | H : sql_eq _ _ = true |- _ => apply bool_decide_eq_true_1 in H
  | H : (_ <=? _)%Z = true |- _ => apply Z.leb_le in H
  | H : (_ <=? _)%Z = false |- _ => apply Z.leb_gt in H
  | H : (_ <? _)%Z = true |- _ => apply Z.ltb_lt in H
  | H : (_ <? _)%Z = false |- _ => apply Z.ltb_ge in H
  | H : (_ =? _)%Z = true |- _ => apply Z.eqb_eq in H
  | H : (_ =? _)%Z = false |- _ => apply Z.eqb_neq in H
  end.

(** Case on the innermost scrutinee of the goal, remembering the equation. *)
Ltac case_goal :=
  match goal with
  | |- context [match ?x with _ => _ end] =>
      lazymatch x with
      | context [match _ with _ => _ end] => fail
      | _ => let E := fresh "E" in destruct x eqn:E
      end
  end.

Ltac case_hyp H :=
  match type of H with
  | context [match ?x with _ => _ end] =>
      lazymatch x with
      | context [match _ with _ => _ end] => fail
      | _ => let E := fresh "E" in destruct x eqn:E
      end
  end.

Create HintDb smirk.
#[export] Hint Resolve is_some_true is_none_true : smirk.

(** Listing a filtered map, and filtering the list of a map. *)
Lemma map_to_list_filter `{Countable K} {A} (P : K * A -> Prop) `{!forall x, Decision (P x)}
    (m : gmap K A) :
  map_to_list (base.filter P m) ≡ₚ base.filter P (map_to_list m).
Proof.
  apply NoDup_Permutation.
  - apply NoDup_map_to_list.
  - apply NoDup_filter, NoDup_map_to_list.
  - intros [k x]. rewrite list_elem_of_filter, !elem_of_map_to_list, map_lookup_filter_Some.
    naive_solver.
Qed.

(** * Counting rows *)

Definition count_where `{Countable K} {A} (p : A -> bool) (m : gmap K A) : nat :=
  length (base.filter (fun a => p a = true) (snd <$> map_to_list m)).

Definition bit (b : bool) : nat := if b then 1 else 0.

Section count.
Context `{Countable K} {A : Type} (p : A -> bool).

Lemma count_where_insert (m : gmap K A) k x :
  m !! k = None -> count_where p (<[k := x]> m) = bit (p x) + count_where p m.
Proof.
  intros Hk. unfold count_where. rewrite (map_to_list_insert _ _ _ Hk).
  cbn [fmap list_fmap snd]. rewrite filter_cons.
  destruct (decide (p x = true)) as [E|E]; [by rewrite E|]. by destruct (p x).
Qed.

Lemma count_where_replace (m : gmap K A) k x y :
  m !! k = Some x -> count_where p (<[k := y]> m) + bit (p x) = count_where p m + bit (p y).
Proof.
  intros Hk. rewrite <- (insert_delete_id m k x Hk) at 2.
  rewrite <- (insert_delete_eq m k y).
  rewrite !count_where_insert by apply lookup_delete_eq. lia.
Qed.

Lemma count_where_mono (q : A -> bool) (m : gmap K A) :
  (forall a, p a = true -> q a = true) -> count_where p m <= count_where q m.
Proof.
  intros Hpq. unfold count_where.
  induction (snd <$> map_to_list m) as [|a l IH]; [done|]. rewrite !filter_cons.
  destruct (decide (p a = true)) as [Hp|]; destruct (decide (q a = true));
    cbn [length]; try lia. by specialize (Hpq a Hp).
Qed.

Lemma count_where_pos (m : gmap K A) :
  0 < count_where p m <-> exists k x, m !! k = Some x /\ p x = true.
Proof.
  unfold count_where. split.
  - intros Hl. destruct (base.filter _ _) as [|a l] eqn:E; [simpl in Hl; lia|].
    assert (Hin : a ∈ a :: l) by left. rewrite <- E in Hin.
    apply list_elem_of_filter in Hin as [Hp Hin].
    apply list_elem_of_fmap in Hin as ([k x] & -> & Hin%elem_of_map_to_list). eauto.
  - intros (k & x & Hk & Hp). assert (Hin : x ∈ base.filter (fun a => p a = true) (snd <$> map_to_list m)).
    { apply list_elem_of_filter. split; [done|]. apply list_elem_of_fmap.
      exists (k, x). by rewrite elem_of_map_to_list. }
    destruct (base.filter _ _); [by apply elem_of_nil in Hin|simpl; lia].
Qed.
End count.
