(* ===== verification/RustStr.v ===== *)
(** Rust's [str] operations, on strings as sequences of UTF-8 bytes.

    A Rust [String] is modelled by a [string], one [ascii] per byte, so
    [String.length] is [str::len] and [String.compare] is [str]'s [Ord].
    [to_lowercase], [to_uppercase] and [trim] are modelled on their ASCII part: a non-ASCII
    byte is left alone. *)

From Stdlib Require Import Ascii String.
From S2P Require Import Prelude.

Local Open Scope string_scope.

Definition code (c : ascii) : nat := nat_of_ascii c.

Definition is_ascii_digit (c : ascii) : bool :=
  (48 <=? code c)%nat && (code c <=? 57)%nat.
Definition is_ascii_upper (c : ascii) : bool :=
  (65 <=? code c)%nat && (code c <=? 90)%nat.
Definition is_ascii_lower (c : ascii) : bool :=
  (97 <=? code c)%nat && (code c <=? 122)%nat.
Definition is_ascii_alphanumeric (c : ascii) : bool :=
  is_ascii_digit c || is_ascii_upper c || is_ascii_lower c.
Definition is_ascii_hexdigit (c : ascii) : bool :=
  is_ascii_digit c || ((65 <=? code c)%nat && (code c <=? 70)%nat)
  || ((97 <=? code c)%nat && (code c <=? 102)%nat).

(** ASCII whitespace of [char::is_whitespace]: tab to carriage return, space. *)
Definition is_whitespace (c : ascii) : bool :=
  ((9 <=? code c)%nat && (code c <=? 13)%nat) || (code c =? 32)%nat.

Definition ascii_lower (c : ascii) : ascii :=
  if is_ascii_upper c then ascii_of_nat (code c + 32) else c.

Definition ascii_upper (c : ascii) : ascii :=
  if is_ascii_lower c then ascii_of_nat (code c - 32) else c.

Fixpoint map_str (f : ascii -> ascii) (s : string) : string :=
  match s with
  | EmptyString => EmptyString
  | String c s' => String (f c) (map_str f s')
  end.

Fixpoint all_chars (p : ascii -> bool) (s : string) : bool :=
  match s with
  | EmptyString => true
  | String c s' => p c && all_chars p s'
  end.

Definition to_lowercase (s : string) : string := map_str ascii_lower s.

Definition to_uppercase (s : string) : string := map_str ascii_upper s.

(** The line feed. *)
Definition LF : string := String (ascii_of_nat 10) EmptyString.

Definition is_empty (s : string) : bool :=
  match s with EmptyString => true | _ => false end.

Definition len (s : string) : nat := String.length s.

Definition eq_ignore_ascii_case (a b : string) : bool :=
  bool_decide (to_lowercase a = to_lowercase b).

(** [trim_start_matches(p)] for a character predicate. *)
Fixpoint trim_start_while (p : ascii -> bool) (s : string) : string :=
  match s with
  | String c s' => if p c then trim_start_while p s' else s
  | EmptyString => EmptyString
  end.

Fixpoint trim_end_while (p : ascii -> bool) (s : string) : string :=
  match s with
  | EmptyString => EmptyString
  | String c s' =>
      match trim_end_while p s' with
      | EmptyString => if p c then EmptyString else String c EmptyString
      | t => String c t
      end
  end.

Definition trim (s : string) : string :=
  trim_end_while is_whitespace (trim_start_while is_whitespace s).

Definition trim_start_char (c : ascii) (s : string) : string :=
  trim_start_while (fun x => bool_decide (x = c)) s.
Definition trim_end_char (c : ascii) (s : string) : string :=
  trim_end_while (fun x => bool_decide (x = c)) s.

(** [s.strip_prefix(p)]. *)
Fixpoint strip_prefix (p s : string) : option string :=
  match p, s with
  | EmptyString, _ => Some s
  | String a p', String b s' =>
      if Ascii.eqb a b then strip_prefix p' s' else None
  | String _ _, EmptyString => None
  end.

(** [opt.filter(|s| !s.is_empty())]. *)
Definition non_empty (o : option string) : option string :=
  match o with Some s => if is_empty s then None else Some s | None => None end.

(** [s.contains(needle)]. *)
Fixpoint contains (needle s : string) : bool :=
  is_some (strip_prefix needle s)
  || match s with EmptyString => false | String _ s' => contains needle s' end.

(** [s.split_once(c)]. *)
Fixpoint split_once (c : ascii) (s : string) : option (string * string) :=
  match s with
  | EmptyString => None
  | String a s' =>
      if Ascii.eqb a c then Some (EmptyString, s')
      else match split_once c s' with
           | Some (l, r) => Some (String a l, r)
           | None => None
           end
  end.

(** [s.split(c)]. *)
Fixpoint split_char (c : ascii) (s : string) : list string :=
  match s with
  | EmptyString => [EmptyString]
  | String a s' =>
      if Ascii.eqb a c then EmptyString :: split_char c s'
      else match split_char c s' with
           | w :: ws => String a w :: ws
           | [] => [String a EmptyString]
           end
  end.

(** [s.splitn(n, c)]. *)
Fixpoint splitn_char (n : nat) (c : ascii) (s : string) : list string :=
  match n with
  | O => []
  | S n' =>
      match n', split_once c s with
      | S _, Some (l, r) => l :: splitn_char n' c r
      | _, _ => [s]
      end
  end.

(** [s.parse()] of an integer: an optional sign, then digits, in the bounds of
    the type.  An unsigned type takes no minus sign. *)
Fixpoint digits_from (acc : Z) (s : string) : option Z :=
  match s with
  | EmptyString => Some acc
  | String c s' =>
      if is_ascii_digit c then digits_from (acc * 10 + (Z.of_nat (code c) - 48))%Z s' else None
  end.

Definition parse_digits (s : string) : option Z := if is_empty s then None else digits_from 0 s.

Definition in_range (lo hi n : Z) : option Z :=
  if (lo <=? n)%Z && (n <=? hi)%Z then Some n else None.

Definition parse_int (lo hi : Z) (s : string) : option Z :=
  match s with
  | String c s' =>
      if Ascii.eqb c "+" then parse_digits s' ≫= in_range lo hi
      else if Ascii.eqb c "-" && (lo <? 0)%Z then
        parse_digits s' ≫= fun n => in_range lo hi (- n)
      else parse_digits s ≫= in_range lo hi
  | EmptyString => None
  end.

(** [{:?}] of a string, for ASCII. *)
Definition QUOTE_CHAR : ascii := ascii_of_nat 34.
Definition BACKSLASH : ascii := ascii_of_nat 92.
Definition hex_nibble (n : nat) : string :=
  String (ascii_of_nat (if (n <? 10)%nat then 48 + n else 87 + n)) EmptyString.
Definition debug_char (c : ascii) : string :=
  let esc x := String BACKSLASH (String x EmptyString) in
  let n := code c in
  if Ascii.eqb c QUOTE_CHAR || Ascii.eqb c BACKSLASH then esc c
  else if (n =? 0)%nat then esc "0"%char
  else if (n =? 9)%nat then esc "t"%char
  else if (n =? 10)%nat then esc "n"%char
  else if (n =? 13)%nat then esc "r"%char
  else if (n <? 32)%nat || (n =? 127)%nat then
    esc "u"%char ++ "{" ++ (if (n <? 16)%nat then hex_nibble n
                            else hex_nibble (n / 16) ++ hex_nibble (n mod 16)) ++ "}"
  else String c EmptyString.
Fixpoint debug_body (s : string) : string :=
  match s with EmptyString => EmptyString | String c s' => debug_char c ++ debug_body s' end.
Definition debug_str (s : string) : string :=
  String QUOTE_CHAR (debug_body s ++ String QUOTE_CHAR EmptyString).

(** The number of [char]s of a UTF-8 string: its non-continuation bytes.
    Postgres counts a VARCHAR in characters, Rust's [len] in bytes. *)
Fixpoint char_count (s : string) : nat :=
  match s with
  | EmptyString => 0
  | String c s' =>
      (if (128 <=? code c)%nat && (code c <? 192)%nat then 0 else 1)
      + char_count s'
  end.

Lemma char_count_le_len s : (char_count s <= len s)%nat.
Proof.
  unfold len. induction s as [|c s IH]; simpl; [lia|].
  destruct (_ && _); simpl; lia.
Qed.

Lemma map_str_compose f g s :
  map_str f (map_str g s) = map_str (fun c => f (g c)) s.
Proof. induction s; simpl; congruence. Qed.

Lemma ascii_lower_idem c : ascii_lower (ascii_lower c) = ascii_lower c.
Proof. destruct c as [[][][][][][][][]]; reflexivity. Qed.

Lemma to_lowercase_idem s : to_lowercase (to_lowercase s) = to_lowercase s.
Proof.
  unfold to_lowercase. rewrite map_str_compose.
  induction s as [|c s IH]; simpl; [done|]. by rewrite ascii_lower_idem, IH.
Qed.

Lemma len_map_str f s : len (map_str f s) = len s.
Proof. unfold len. induction s; simpl; congruence. Qed.

Lemma strip_prefix_spec p s t : strip_prefix p s = Some t <-> s = p ++ t.
Proof.
  revert s. induction p as [|a p IH]; intros s; simpl.
  { split; [by intros [= ->]|by intros ->]. }
  destruct s as [|b s]; [done|].
  destruct (Ascii.eqb_spec a b) as [->|Hne].
  - rewrite IH. split; [by intros ->|by intros [= ->]].
  - split; [done|]. intros [= ->]. done.
Qed.

Lemma trim_start_while_all p s :
  all_chars p s = true <-> trim_start_while p s = EmptyString.
Proof.
  induction s as [|c s IH]; simpl; [done|].
  destruct (p c); simpl; [apply IH|done].
Qed.

Lemma non_empty_Some o s : non_empty o = Some s -> o = Some s /\ s <> EmptyString.
Proof. destruct o as [[|c t]|]; simpl; naive_solver. Qed.

(** * Splitting a string back into its parts *)

Definition no_char (c : ascii) (s : string) : bool :=
  all_chars (fun x => negb (Ascii.eqb x c)) s.

Lemma append_assoc_str (a b c : string) : (a ++ b) ++ c = a ++ (b ++ c).
Proof.
  induction a as [|x a IH]; [done|].
  change (String x ((a ++ b) ++ c) = String x (a ++ b ++ c)). by rewrite IH.
Qed.

Lemma len_append a b : len (a ++ b) = (len a + len b)%nat.
Proof.
  unfold len. induction a as [|x a IH]; [done|].
  change (S (String.length (a ++ b)) = S (String.length a) + String.length b)%nat.
  by rewrite IH.
Qed.

(** At the first occurrence of a separator. *)
Lemma split_at_char c a a' r r' :
  no_char c a = true -> no_char c a' = true ->
  a ++ String c r = a' ++ String c r' -> a = a' /\ r = r'.
Proof.
  unfold no_char.
  revert a'. induction a as [|x a IH]; intros [|y a'] Ha Ha' Heq; cbn [all_chars] in *.
  - by injection Heq as ->.
  - injection Heq as -> _. by rewrite Ascii.eqb_refl in Ha'.
  - injection Heq as <- _. by rewrite Ascii.eqb_refl in Ha.
  - injection Heq as -> Heq. apply andb_true_iff in Ha as [_ Ha], Ha' as [_ Ha'].
    by destruct (IH a' Ha Ha' Heq) as [-> ->].
Qed.

(** At a suffix of known length. *)
Lemma split_at_suffix a a' r r' :
  len r = len r' -> a ++ r = a' ++ r' -> a = a' /\ r = r'.
Proof.
  intros Hl Heq. assert (Ha : len a = len a').
  { pose proof (f_equal len Heq) as Hlen. rewrite !len_append in Hlen. lia. }
  revert a' Ha Heq. induction a as [|x a IH]; intros [|y a'] Ha Heq; try done.
  injection Heq as -> Heq. destruct (IH a') as [-> ->]; [|done..]. unfold len in *. simpl in Ha. lia.
Qed.

Lemma ascii_upper_no_char c x :
  Ascii.eqb (ascii_upper c) c = true -> Ascii.eqb (ascii_upper x) c = true -> is_ascii_upper c = false ->
  Ascii.eqb x c = true.
Proof.
  intros _ Hx Hc. apply Ascii.eqb_eq in Hx as <-. apply Ascii.eqb_eq.
  revert Hc. unfold ascii_upper. destruct (is_ascii_lower x) eqn:E; [|done].
  destruct x as [[][][][][][][][]]; revert E; vm_compute; done.
Qed.

Lemma no_LF_upper s :
  no_char (ascii_of_nat 10) s = true -> no_char (ascii_of_nat 10) (to_uppercase s) = true.
Proof.
  unfold no_char, to_uppercase. induction s as [|c s IH]; cbn [map_str all_chars]; [done|].
  rewrite !andb_true_iff, !negb_true_iff. intros [Hc Hs]. split; [|auto].
  destruct (Ascii.eqb (ascii_upper c) (ascii_of_nat 10)) eqn:E; [|done].
  by rewrite (ascii_upper_no_char (ascii_of_nat 10) c) in Hc.
Qed.
