(* ===== verification/Json.v ===== *)
(** JSON values as [serde_json::Value] has them, and the encoding that
    [#[derive(Serialize, Deserialize)] #[serde(default)]] gives to a struct of
    optional fields.

    [serde_json::Map] is a [BTreeMap]: an object lists its entries in the order of
    their keys, each key once.  A number is an integer of 64 bits or a float, kept
    by its text. *)

From Stdlib Require Import ZArith Lia Ascii String.
From S2P Require Import Prelude RustStr.

Local Open Scope string_scope.

Unset Elimination Schemes.
Inductive Value :=
| VNull
| VBool (b : bool)
| VNumber (n : Z)
| VFloat (text : string)
| VString (s : string)
| VArray (vs : list Value)
| VObject (entries : list (string * Value)).
Set Elimination Schemes.

(** Induction through the arrays and objects. *)
Section value_ind.
Variable P : Value -> Prop.
Hypothesis case_null : P VNull.
Hypothesis case_bool : forall b, P (VBool b).
Hypothesis case_number : forall n, P (VNumber n).
Hypothesis case_float : forall s, P (VFloat s).
Hypothesis case_string : forall s, P (VString s).
Hypothesis case_array : forall vs, Forall P vs -> P (VArray vs).
Hypothesis case_object : forall kvs, Forall (fun kv => P (snd kv)) kvs -> P (VObject kvs).

Fixpoint Value_ind (v : Value) : P v :=
  match v with
  | VNull => case_null
  | VBool b => case_bool b
  | VNumber n => case_number n
  | VFloat s => case_float s
  | VString s => case_string s
  | VArray vs => case_array vs
      ((fix go (vs : list Value) : Forall P vs :=
          match vs with
          | [] => Forall_nil_2 _
          | v :: vs => Forall_cons_2 _ _ _ (Value_ind v) (go vs)
          end) vs)
  | VObject kvs => case_object kvs
      ((fix go (kvs : list (string * Value)) : Forall (fun kv => P (snd kv)) kvs :=
          match kvs with
          | [] => Forall_nil_2 _
          | kv :: kvs => Forall_cons_2 _ _ _ (Value_ind (snd kv)) (go kvs)
          end) kvs)
  end.
End value_ind.

(** * Objects *)

(** [map.get(k)]. *)
Fixpoint obj_get (k : string) (kvs : list (string * Value)) : option Value :=
  match kvs with
  | [] => None
  | (k', v) :: kvs' => if k =? k' then Some v else obj_get k kvs'
  end.

(** [map.insert(k, v)]: the keys stay in order. *)
Fixpoint obj_insert (k : string) (v : Value) (kvs : list (string * Value))
  : list (string * Value) :=
  match kvs with
  | [] => [(k, v)]
  | (k', v') :: kvs' =>
      match String.compare k k' with
      | Lt => (k, v) :: kvs
      | Eq => (k, v) :: kvs'
      | Gt => (k', v') :: obj_insert k v kvs'
      end
  end.

(** The object of a list of entries, inserted in order. *)
Definition to_object (kvs : list (string * Value)) : Value :=
  VObject (foldl (fun o kv => obj_insert kv.1 kv.2 o) [] kvs).

(** [==] on values. *)
Fixpoint value_eqb (v w : Value) : bool :=
  match v, w with
  | VNull, VNull => true
  | VBool a, VBool b => Bool.eqb a b
  | VNumber a, VNumber b => (a =? b)%Z
  | VFloat a, VFloat b => a =? b
  | VString a, VString b => a =? b
  | VArray vs, VArray ws =>
      (fix go vs ws :=
         match vs, ws with
         | [], [] => true
         | v :: vs, w :: ws => value_eqb v w && go vs ws
         | _, _ => false
         end) vs ws
  | VObject kvs, VObject lws =>
      (fix go kvs lws :=
         match kvs, lws with
         | [], [] => true
         | (k, v) :: kvs, (l, w) :: lws => (k =? l) && value_eqb v w && go kvs lws
         | _, _ => false
         end) kvs lws
  | _, _ => false
  end.

Lemma value_eqb_eq v w : value_eqb v w = true <-> v = w.
Proof.
  revert w. induction v as [|b|n|t|s|vs IH|kvs IH] using Value_ind; intros w; destruct w; cbn [value_eqb];
    try (split; [done|intros Heq; (done || discriminate Heq)]).
  - destruct b, b0; simpl; split; done.
  - rewrite Z.eqb_eq. split; [by intros ->|by intros [= ->]].
  - rewrite String.eqb_eq. split; [by intros ->|by intros [= ->]].
  - rewrite String.eqb_eq. split; [by intros ->|by intros [= ->]].
  - match goal with |- ?g vs vs0 = true <-> _ =>
      enough (forall ws, g vs ws = true <-> vs = ws) as -> end; [split; [by intros ->|by intros [= ->]]|].
    clear vs0. induction IH as [|v vs Hv _ IHvs]; intros [|w ws]; try done.
    rewrite andb_true_iff, Hv, IHvs. split; [by intros [-> ->]|by intros [= -> ->]].
  - match goal with |- ?g kvs entries = true <-> _ =>
      enough (forall ws, g kvs ws = true <-> kvs = ws) as -> end; [split; [by intros ->|by intros [= ->]]|].
    clear entries. induction IH as [|[k v] kvs Hv _ IHkvs]; intros [|[l w] ws]; try done.
    simpl in Hv. rewrite !andb_true_iff, String.eqb_eq, (Hv w), IHkvs.
    split; [by intros [[-> ->] ->]|by intros [= -> -> ->]].
Qed.

Definition is_null (v : Value) : bool := match v with VNull => true | _ => false end.

(** * Codecs *)

Record Codec (A : Type) := mkCodec { enc : A -> Value; dec : Value -> option A }.
Arguments mkCodec {A} _ _.
Arguments enc {A} _ _.
Arguments dec {A} _ _.

Definition c_bool : Codec bool :=
  mkCodec VBool (fun v => match v with VBool b => Some b | _ => None end).
Definition c_string : Codec string :=
  mkCodec VString (fun v => match v with VString s => Some s | _ => None end).
(** An integer type with these bounds. *)
Definition c_int (lo hi : Z) : Codec Z :=
  mkCodec VNumber (fun v => match v with VNumber n => in_range lo hi n | _ => None end).
Definition c_u8 : Codec Z := c_int 0 (2 ^ 8 - 1).
Definition c_u32 : Codec Z := c_int 0 (2 ^ 32 - 1).
Definition c_u64 : Codec Z := c_int 0 U64_MAX.
Definition c_i64 : Codec Z := c_int I64_MIN I64_MAX.

(** [Option<T>]: [None] is [null]. *)
Definition c_option {A} (c : Codec A) : Codec (option A) :=
  mkCodec (fun o => match o with Some a => enc c a | None => VNull end)
    (fun v => match v with VNull => Some None | _ => Some <$> dec c v end).

(** The entries of a struct: those of an object, or the elements of an array in
    the order of the declaration, when there are not too many. *)
Definition struct_entries (names : list string) (v : Value) : option (list (string * Value)) :=
  match v with
  | VObject kvs => Some kvs
  | VArray vs => if (length vs <=? length names)%nat then Some (zip names vs) else None
  | _ => None
  end.

(** One optional field: absent is [None]. *)
Definition field {A} (c : Codec A) (name : string) (kvs : list (string * Value))
  : option (option A) :=
  match obj_get name kvs with
  | None => Some None
  | Some v => dec (c_option c) v
  end.

(** What a codec reads back. *)
Definition reads_back {A} (c : Codec A) (a : A) : Prop := dec c (enc c a) = Some a.
Definition option_reads_back {A} (c : Codec A) (o : option A) : Prop :=
  forall a, o = Some a -> reads_back c a /\ is_null (enc c a) = false.

Lemma bool_reads_back b : reads_back c_bool b.
Proof. done. Qed.
Lemma string_reads_back s : reads_back c_string s.
Proof. done. Qed.
Lemma int_reads_back lo hi n : (lo <= n <= hi)%Z -> reads_back (c_int lo hi) n.
Proof.
  intros [H1 H2]. unfold reads_back. simpl. unfold in_range.
  apply Z.leb_le in H1, H2. by rewrite H1, H2.
Qed.

Lemma dec_option {A} (c : Codec A) o :
  option_reads_back c o -> dec (c_option c) (enc (c_option c) o) = Some o.
Proof.
  destruct o as [a|]; [|done]. intros Ho. destruct (Ho a eq_refl) as [Hr Hn]. simpl.
  unfold reads_back in Hr. destruct (enc c a); simpl in *; (done || by rewrite Hr).
Qed.

(** * Objects and their entries *)

Lemma compare_eq_iff k k' : String.compare k k' = Eq <-> k = k'.
Proof.
  split; [apply String.compare_eq_iff|]. intros ->. induction k' as [|c k' IH]; [done|].
  cbn [String.compare]. unfold Ascii.compare. by rewrite N.compare_refl.
Qed.

Lemma obj_get_insert k k' v kvs :
  obj_get k (obj_insert k' v kvs) = if k =? k' then Some v else obj_get k kvs.
Proof.
  induction kvs as [|[k2 v2] kvs IH]; cbn [obj_insert obj_get]; [done|].
  destruct (String.compare k' k2) eqn:Ec; cbn [obj_get].
  - apply compare_eq_iff in Ec as ->. by destruct (k =? k2).
  - done.
  - rewrite IH. destruct (String.eqb_spec k k2) as [->|]; [|done].
    destruct (String.eqb_spec k2 k') as [->|]; [|done].
    assert (String.compare k' k' = Eq) as E by (by apply compare_eq_iff). congruence.
Qed.

Definition object_of (o kvs : list (string * Value)) : list (string * Value) :=
  foldl (fun o kv => obj_insert kv.1 kv.2 o) o kvs.

Lemma obj_get_app k xs ys :
  obj_get k (xs ++ ys)%list = match obj_get k xs with Some v => Some v | None => obj_get k ys end.
Proof. induction xs as [|[k' v] xs IH]; cbn [obj_get app]; [done|]. by destruct (k =? k'). Qed.

(** The last entry of a key is the one kept. *)
Lemma obj_get_object k kvs o :
  obj_get k (object_of o kvs) =
  match obj_get k (rev kvs) with Some v => Some v | None => obj_get k o end.
Proof.
  revert o. induction kvs as [|[k' v] kvs IH]; intros o; [done|].
  change (object_of o ((k', v) :: kvs)) with (object_of (obj_insert k' v o) kvs).
  rewrite IH, obj_get_insert. cbn [rev]. rewrite obj_get_app. cbn [obj_get].
  destruct (obj_get k (rev kvs)); [done|]. by destruct (k =? k').
Qed.

Lemma obj_insert_perm k v kvs :
  k ∉ kvs.*1 -> obj_insert k v kvs ≡ₚ (k, v) :: kvs.
Proof.
  induction kvs as [|[k' v'] kvs IH]; cbn [obj_insert]; intros Hk; [done|].
  rewrite fmap_cons in Hk. apply not_elem_of_cons in Hk as [Hne Hk].
  destruct (String.compare k k') eqn:Ec; [by apply compare_eq_iff in Ec|done|].
  rewrite IH by done. apply perm_swap.
Qed.

(** Distinct keys: an object is its entries, in another order. *)
Lemma object_of_perm kvs o :
  NoDup (kvs ++ o)%list.*1 -> object_of o kvs ≡ₚ (kvs ++ o)%list.
Proof.
  revert o. induction kvs as [|[k v] kvs IH]; intros o Hnd; [done|].
  cbn [app] in *. rewrite fmap_cons in Hnd. apply NoDup_cons in Hnd as [Hk Hnd]. simpl in Hk.
  rewrite fmap_app in Hk, Hnd. apply not_elem_of_app in Hk as [Hk1 Hk2].
  change (object_of o ((k, v) :: kvs)) with (object_of (obj_insert k v o) kvs).
  pose proof (obj_insert_perm k v o Hk2) as Hp.
  rewrite IH.
  - rewrite Hp. symmetry. apply Permutation_middle.
  - rewrite fmap_app, Hp, fmap_cons. simpl. apply NoDup_app.
    apply NoDup_app in Hnd as (H1 & H2 & H3). split_and!; [done| |by apply NoDup_cons].
    intros x Hx [->|Hx']%elem_of_cons; [done|by eapply H2].
Qed.
