(* ===== verification/LwsTypes.v ===== *)
(** [src/infra/lws/types.rs]: the answers of a light-wallet server, read from JSON.

    A reader is what [#[derive(Deserialize)]] and the [deserialize_with] helpers
    make of a value: an error (none) or the value.  An object is read from the text,
    so a key may come twice, which a struct refuses. *)

From Stdlib Require Import ZArith Lia Ascii String.
From stdpp Require Import sorting.
From S2P Require Import Prelude RustStr Json.

Local Open Scope string_scope.

Abbreviation Reader A := (Value -> option A).

(** * Integers that may be strings *)

Definition U32_MAX : Z := (2 ^ 32 - 1)%Z.

(** [mod string_or_u64] and [mod string_or_u32]: a string or an integer. *)
Definition string_or_int (hi : Z) : Reader Z := fun v =>
  match v with
  | VString s => parse_int 0 hi s
  | VNumber n => in_range 0 hi n
  | _ => None
  end.
Definition string_or_u64 : Reader u64 := string_or_int U64_MAX.
Definition string_or_u32 : Reader u32 := string_or_int U32_MAX.

(** [mod string_or_u64_default] and [mod string_or_u8_default]: [null] is 0. *)
Definition string_or_int_default (hi : Z) : Reader Z := fun v =>
  match v with VNull => Some 0%Z | _ => string_or_int hi v end.
Definition string_or_u64_default : Reader u64 := string_or_int_default U64_MAX.
Definition string_or_u8_default : Reader u8 := string_or_int_default 255.

(** [mod string_or_u32_default]: anything else is 0 too. *)
Definition string_or_u32_default : Reader u32 := fun v =>
  Some (default 0%Z (string_or_u32 v)).

(** * Fields *)

Definition r_string : Reader string := dec c_string.
Definition r_bool : Reader bool := dec c_bool.
Definition r_option {A} (r : Reader A) : Reader (option A) := fun v =>
  match v with VNull => Some None | _ => Some <$> r v end.

Fixpoint read_all {A} (r : Reader A) (vs : list Value) : option (list A) :=
  match vs with
  | [] => Some []
  | v :: vs' => a ← r v; l ← read_all r vs'; Some (a :: l)
  end.
Definition r_list {A} (r : Reader A) : Reader (list A) := fun v =>
  match v with VArray vs => read_all r vs | _ => None end.

(** The value of a field under any of its names; twice is an error. *)
Definition the_field (names : list string) (kvs : list (string * Value)) : option (option Value) :=
  match base.filter (fun kv : string * Value => kv.1 ∈ names) kvs with
  | [] => Some None
  | [(_, v)] => Some (Some v)
  | _ => None
  end.

Definition required {A} (r : Reader A) (name : string) (kvs : list (string * Value)) : option A :=
  o ← the_field [name] kvs; match o with Some v => r v | None => None end.

(** [#[serde(default)]], with the aliases of the field if any. *)
Definition defaulted_as {A} (d : A) (r : Reader A) (names : list string)
    (kvs : list (string * Value)) : option A :=
  o ← the_field names kvs; match o with Some v => r v | None => Some d end.
Definition defaulted {A} (d : A) (r : Reader A) (name : string) := defaulted_as d r [name].

Definition u64_field : string -> list (string * Value) -> option u64 :=
  defaulted 0%Z string_or_u64_default.

(** A struct, from an object or from an array of its fields in order. *)
Definition r_struct {A} (names : list string) (read : list (string * Value) -> option A) : Reader A :=
  fun v => struct_entries names v ≫= read.

(** * The network *)

Inductive CryptoNoteNetwork := Monero | Wownero.

Definition network_fmt (n : CryptoNoteNetwork) : string :=
  match n with Monero => "monero" | Wownero => "wownero" end.

(** * Answers *)

Record SubaddrIndex := mkSubaddrIndex { maj_i : u32; min_i : u32 }.

Definition primary : SubaddrIndex := mkSubaddrIndex 0 0.

Definition read_subaddr_index : Reader SubaddrIndex :=
  r_struct ["maj_i"; "min_i"] (fun kvs =>
    a ← defaulted 0%Z string_or_u32_default "maj_i" kvs;
    b ← defaulted 0%Z string_or_u32_default "min_i" kvs;
    Some (mkSubaddrIndex a b)).

(** [[u32; 2]]: exactly two integers. *)
Definition read_pair : Reader (u32 * u32) := fun v =>
  match v with
  | VArray [VNumber a; VNumber b] =>
      a ← in_range 0 U32_MAX a; b ← in_range 0 U32_MAX b; Some (a, b)
  | _ => None
  end.

Record SubaddrRangeEntry := mkSubaddrRangeEntry { re_key : u32; re_value : list (u32 * u32) }.

Definition read_range_entry : Reader SubaddrRangeEntry :=
  r_struct ["key"; "value"] (fun kvs =>
    k ← required string_or_u32 "key" kvs;
    v ← defaulted [] (r_list read_pair) "value" kvs;
    Some (mkSubaddrRangeEntry k v)).

Record ProvisionSubaddrsResponse := mkProvisionSubaddrsResponse {
  new_subaddrs : list SubaddrRangeEntry;
  all_subaddrs : list SubaddrRangeEntry;
}.

Definition read_provision_response : Reader ProvisionSubaddrsResponse :=
  r_struct ["new_subaddrs"; "all_subaddrs"] (fun kvs =>
    n ← defaulted [] (r_list read_range_entry) "new_subaddrs" kvs;
    a ← defaulted [] (r_list read_range_entry) "all_subaddrs" kvs;
    Some (mkProvisionSubaddrsResponse n a)).

Definition u32_saturating_add (x y : Z) : Z := Z.min (x + y) U32_MAX.

(** The order of [[u32; 2]]. *)
Definition pair_le (x y : u32 * u32) : Prop := (x.1 < y.1 \/ x.1 = y.1 /\ x.2 <= y.2)%Z.

#[export] Instance pair_le_dec : RelDecision pair_le.
Proof. unfold pair_le. intros x y. apply _. Defined.

(** The loop over the ranges after the first. *)
Fixpoint extend_run (ceiling : u32) (ranges : list (u32 * u32)) : u32 :=
  match ranges with
  | [] => ceiling
  | r :: rs =>
      if (u32_saturating_add ceiling 1 <? r.1)%Z then ceiling
      else extend_run (Z.max ceiling r.2) rs
  end.

(** [e.value] without the inverted ranges, sorted. *)
Definition sorted_ranges (value : list (u32 * u32)) : list (u32 * u32) :=
  merge_sort pair_le (base.filter (fun r : u32 * u32 => (r.1 <= r.2)%Z) value).

Definition confirmed_minor_max (p : ProvisionSubaddrsResponse) : option u32 :=
  match list_find (fun e => re_key e = 0%Z) (all_subaddrs p) with
  | None => None
  | Some (_, entry) =>
      match sorted_ranges (re_value entry) with
      | [] => None
      | first :: rest => if (first.1 =? 0)%Z then Some (extend_run first.2 rest) else None
      end
  end.

Record LwsVersionResponse := mkLwsVersionResponse { lv_max_subaddresses : u32 }.

Definition read_version : Reader LwsVersionResponse :=
  r_struct ["max_subaddresses"] (fun kvs =>
    n ← required string_or_u32 "max_subaddresses" kvs; Some (mkLwsVersionResponse n)).

Record SpentOutput := mkSpentOutput {
  spo_amount : u64;
  spo_key_image : string;
  spo_tx_pub_key : string;
  spo_out_index : u64;
  spo_mixin : u64;
  spo_sender : SubaddrIndex;
}.

Definition read_spent_output : Reader SpentOutput :=
  r_struct ["amount"; "key_image"; "tx_pub_key"; "out_index"; "mixin"; "sender"] (fun kvs =>
    a ← u64_field "amount" kvs; k ← required r_string "key_image" kvs;
    p ← required r_string "tx_pub_key" kvs; i ← u64_field "out_index" kvs;
    m ← u64_field "mixin" kvs;
    s ← defaulted_as primary read_subaddr_index ["sender"; "recipient"] kvs;
    Some (mkSpentOutput a k p i m s)).

Record AddressTx := mkAddressTx {
  at_hash : string;
  at_height : u64;
  at_timestamp : string;
  at_total_received : u64;
  at_total_sent : u64;
  at_mempool : bool;
  at_unlock_time : u64;
  at_payment_id : option string;
  at_spent_outputs : list SpentOutput;
  at_recipient : SubaddrIndex;
}.

Definition read_address_tx : Reader AddressTx :=
  r_struct ["hash"; "height"; "timestamp"; "total_received"; "total_sent"; "mempool"; "unlock_time";
            "payment_id"; "spent_outputs"; "recipient"] (fun kvs =>
    h ← required r_string "hash" kvs; n ← u64_field "height" kvs;
    t ← defaulted "" r_string "timestamp" kvs; r ← u64_field "total_received" kvs;
    s ← u64_field "total_sent" kvs; m ← defaulted false r_bool "mempool" kvs;
    u ← u64_field "unlock_time" kvs; p ← defaulted None (r_option r_string) "payment_id" kvs;
    o ← defaulted [] (r_list read_spent_output) "spent_outputs" kvs;
    i ← defaulted primary read_subaddr_index "recipient" kvs;
    Some (mkAddressTx h n t r s m u p o i)).

Record AddressTxsResponse := mkAddressTxsResponse {
  ar_transactions : list AddressTx;
  ar_total_received : u64;
  ar_scanned_height : u64;
  ar_blockchain_height : u64;
}.

Definition read_address_txs : Reader AddressTxsResponse :=
  r_struct ["transactions"; "total_received"; "scanned_height"; "blockchain_height"] (fun kvs =>
    t ← defaulted [] (r_list read_address_tx) "transactions" kvs;
    r ← u64_field "total_received" kvs; s ← u64_field "scanned_height" kvs;
    b ← u64_field "blockchain_height" kvs;
    Some (mkAddressTxsResponse t r s b)).

Record AddressInfo := mkAddressInfo {
  ai_locked_funds : u64;
  ai_total_received : u64;
  ai_total_sent : u64;
  ai_scanned_height : u64;
  ai_start_height : u64;
  ai_transaction_count : u64;
  ai_scanned_block_hash : string;
  ai_blockchain_height : u64;
}.

Definition read_address_info : Reader AddressInfo :=
  r_struct ["locked_funds"; "total_received"; "total_sent"; "scanned_height"; "start_height";
            "transaction_count"; "scanned_block_hash"; "blockchain_height"] (fun kvs =>
    l ← u64_field "locked_funds" kvs; r ← u64_field "total_received" kvs;
    s ← u64_field "total_sent" kvs; h ← u64_field "scanned_height" kvs;
    b ← u64_field "start_height" kvs; n ← u64_field "transaction_count" kvs;
    k ← defaulted "" r_string "scanned_block_hash" kvs; c ← u64_field "blockchain_height" kvs;
    Some (mkAddressInfo l r s h b n k c)).

Definition balance_of (i : AddressInfo) : u64 := ai_total_received i.
Definition unlocked_balance (i : AddressInfo) : u64 :=
  u64_saturating_sub (ai_total_received i) (ai_locked_funds i).

Record UnspentOutput := mkUnspentOutput {
  uo_amount : u64;
  uo_public_key : string;
  uo_tx_pub_key : string;
  uo_index : u32;
  uo_global_index : u64;
  uo_height : u64;
  uo_timestamp : string;
  uo_tx_hash : string;
  uo_rct : string;
  uo_spend_key_images : list string;
  uo_recipient : SubaddrIndex;
}.

Definition read_unspent_output : Reader UnspentOutput :=
  r_struct ["amount"; "public_key"; "tx_pub_key"; "index"; "global_index"; "height"; "timestamp";
            "tx_hash"; "rct"; "spend_key_images"; "recipient"] (fun kvs =>
    a ← required string_or_u64 "amount" kvs; p ← required r_string "public_key" kvs;
    t ← required r_string "tx_pub_key" kvs; i ← required string_or_u32 "index" kvs;
    g ← required string_or_u64 "global_index" kvs; h ← required string_or_u64 "height" kvs;
    s ← defaulted "" r_string "timestamp" kvs; x ← defaulted "" r_string "tx_hash" kvs;
    r ← defaulted "" r_string "rct" kvs;
    k ← defaulted [] (r_list r_string) "spend_key_images" kvs;
    d ← defaulted primary read_subaddr_index "recipient" kvs;
    Some (mkUnspentOutput a p t i g h s x r k d)).

Record UnspentOutsResponse := mkUnspentOutsResponse {
  ur_outputs : list UnspentOutput;
  ur_per_byte_fee : u64;
  ur_fee_mask : u64;
  ur_fork_version : u8;
}.

Definition read_unspent_outs : Reader UnspentOutsResponse :=
  r_struct ["outputs"; "per_byte_fee"; "fee_mask"; "fork_version"] (fun kvs =>
    o ← defaulted [] (r_list read_unspent_output) "outputs" kvs;
    f ← u64_field "per_byte_fee" kvs; m ← u64_field "fee_mask" kvs;
    v ← defaulted 0%Z string_or_u8_default "fork_version" kvs;
    Some (mkUnspentOutsResponse o f m v)).

Record RandomOutput := mkRandomOutput {
  no_global_index : u64; no_public_key : string; no_rct : string }.

Definition read_random_output : Reader RandomOutput :=
  r_struct ["global_index"; "public_key"; "rct"] (fun kvs =>
    g ← required string_or_u64 "global_index" kvs; p ← required r_string "public_key" kvs;
    r ← required r_string "rct" kvs; Some (mkRandomOutput g p r)).

Record AmountOuts := mkAmountOuts { ao_amount : string; ao_outputs : list RandomOutput }.

Definition read_amount_outs : Reader AmountOuts :=
  r_struct ["amount"; "outputs"] (fun kvs =>
    a ← required r_string "amount" kvs; o ← required (r_list read_random_output) "outputs" kvs;
    Some (mkAmountOuts a o)).

Record RandomOutsResponse := mkRandomOutsResponse { rr_amount_outs : list AmountOuts }.

Definition read_random_outs : Reader RandomOutsResponse :=
  r_struct ["amount_outs"] (fun kvs =>
    o ← defaulted [] (r_list read_amount_outs) "amount_outs" kvs; Some (mkRandomOutsResponse o)).

Record AccountEntry := mkAccountEntry {
  ae_address : string; ae_scan_height : u64; ae_access_time : u64 }.

Definition read_account_entry : Reader AccountEntry :=
  r_struct ["address"; "scan_height"; "access_time"] (fun kvs =>
    a ← required r_string "address" kvs; h ← u64_field "scan_height" kvs;
    t ← u64_field "access_time" kvs; Some (mkAccountEntry a h t)).

Record ListAccountsResponse := mkListAccountsResponse {
  la_active : list AccountEntry; la_hidden : list AccountEntry; la_inactive : list AccountEntry }.

Definition read_list_accounts : Reader ListAccountsResponse :=
  r_struct ["active"; "hidden"; "inactive"] (fun kvs =>
    a ← defaulted [] (r_list read_account_entry) "active" kvs;
    h ← defaulted [] (r_list read_account_entry) "hidden" kvs;
    i ← defaulted [] (r_list read_account_entry) "inactive" kvs;
    Some (mkListAccountsResponse a h i)).

Inductive AccountStatus := Active | Inactive | Hidden.

(** [#[serde(rename_all = "lowercase")]]. *)
Definition status_json (s : AccountStatus) : Value :=
  VString match s with Active => "active" | Inactive => "inactive" | Hidden => "hidden" end.
