(* ===== verification/Errors.v ===== *)
(** [src/error.rs]: the application error type, its machine-readable codes and
    its HTTP rendering; and the outcome of a fallible Rust computation.

    A computation returns a value, returns [Err(e)], or panics (an arithmetic
    overflow under [overflow-checks], for instance). *)

From Stdlib Require Import Ascii String.
From S2P Require Import Prelude RustStr.

Local Open Scope string_scope.

Inductive AppError : Type :=
| ConfigError (msg : string)
| DatabaseError (msg : string)
| AuthError (msg : string)
| NodeError (msg : string)
| ValidationError (msg : string)
| NotFound (msg : string)
| Forbidden (msg : string)
| Conflict (msg : string)
| PaymentPending (msg : string)
| RateLimited
| Internal (msg : string).

#[export] Instance AppError_eq_dec : EqDecision AppError.
Proof. solve_decision. Defined.

Definition display (e : AppError) : string :=
  match e with
  | ConfigError msg => "Configuration error: " ++ msg
  | DatabaseError msg => "Database error: " ++ msg
  | AuthError msg => "Authentication error: " ++ msg
  | NodeError msg => "Node error: " ++ msg
  | ValidationError msg => "Validation error: " ++ msg
  | NotFound msg => "Not found: " ++ msg
  | Forbidden msg => "Forbidden: " ++ msg
  | Conflict msg => "Conflict: " ++ msg
  | PaymentPending msg => "Payment pending: " ++ msg
  | RateLimited => "Rate limited"
  | Internal msg => "Internal error: " ++ msg
  end.

Definition error_code (e : AppError) : string :=
  match e with
  | ConfigError _ => "INTERNAL_ERROR"
  | DatabaseError _ => "INTERNAL_ERROR"
  | AuthError _ => "AUTH_ERROR"
  | NodeError _ => "NODE_UNAVAILABLE"
  | ValidationError _ => "VALIDATION_ERROR"
  | NotFound _ => "NOT_FOUND"
  | Forbidden _ => "FORBIDDEN"
  | Conflict _ => "CONFLICT"
  | PaymentPending _ => "PAYMENT_PENDING"
  | RateLimited => "RATE_LIMITED"
  | Internal _ => "INTERNAL_ERROR"
  end.

(** An HTTP response to an error: the status, and the two fields of the JSON
    body. *)
Record ErrorResponse := mkErrorResponse {
  er_status : nat;
  er_error : string;
  er_code : string;
}.

Definition into_response (e : AppError) : ErrorResponse :=
  let code := error_code e in
  let '(status, message) :=
    match e with
    | ConfigError _ => (500, "Internal server error")
    | DatabaseError _ => (500, "Internal server error")
    | NodeError _ => (503, "Upstream node unavailable")
    | Internal _ => (500, "Internal server error")
    | AuthError msg => (401, msg)
    | ValidationError msg => (400, msg)
    | NotFound msg => (404, msg)
    | Forbidden msg => (403, msg)
    | Conflict msg => (409, msg)
    | PaymentPending msg => (400, msg)
    | RateLimited => (429, "Rate limited")
    end in
  mkErrorResponse status message code.

(** The error of a Postgres statement, as far as the source tells one from
    another: a constraint by name, or any other failure. *)
Inductive PgError : Type :=
| PgUniqueViolation (constraint : string)
| PgForeignKeyViolation (constraint : string)
| PgCheckViolation (constraint : string)
| PgStringTruncation (column : string)
| PgOther (detail : string).

#[export] Instance PgError_eq_dec : EqDecision PgError.
Proof. solve_decision. Defined.

Inductive outcome (A : Type) : Type :=
| Ok (a : A)
| Err (e : AppError)
| Panic.
Arguments Ok {A} _.
Arguments Err {A} _.
Arguments Panic {A}.

#[export] Instance outcome_ret : MRet outcome := @Ok.
#[export] Instance outcome_bind : MBind outcome := fun A B f m =>
  match m with Ok a => f a | Err e => Err e | Panic => Panic end.
#[export] Instance outcome_fmap : FMap outcome := fun A B f m =>
  match m with Ok a => Ok (f a) | Err e => Err e | Panic => Panic end.

(** [opt.ok_or_else(|| e)]. *)
Definition ok_or {A} (o : option A) (e : AppError) : outcome A :=
  match o with Some a => Ok a | None => Err e end.

(** [opt.unwrap()] of an arithmetic result: [None] is an overflow panic. *)
Definition or_panic {A} (o : option A) : outcome A :=
  match o with Some a => Ok a | None => Panic end.

Definition is_ok {A} (o : outcome A) : bool :=
  match o with Ok _ => true | _ => false end.

(** The variants that carry an internal string, replaced by a fixed message. *)
Definition is_leaky (e : AppError) : bool :=
  match e with
  | ConfigError _ | DatabaseError _ | NodeError _ | Internal _ => true
  | _ => false
  end.

(** The same variant with another inner string. *)
Definition with_msg (e : AppError) (m : string) : AppError :=
  match e with
  | ConfigError _ => ConfigError m
  | DatabaseError _ => DatabaseError m
  | AuthError _ => AuthError m
  | NodeError _ => NodeError m
  | ValidationError _ => ValidationError m
  | NotFound _ => NotFound m
  | Forbidden _ => Forbidden m
  | Conflict _ => Conflict m
  | PaymentPending _ => PaymentPending m
  | RateLimited => RateLimited
  | Internal _ => Internal m
  end.

Lemma ok_or_Ok {A} (o : option A) e a : ok_or o e = Ok a <-> o = Some a.
Proof. destruct o; simpl; naive_solver. Qed.

Lemma bind_Ok {A B} (m : outcome A) (f : A -> outcome B) b :
  (m ≫= f) = Ok b <-> exists a, m = Ok a /\ f a = Ok b.
Proof. destruct m; simpl; naive_solver. Qed.

(** C40: what an internal error says never reaches the client: for the
    variants that carry internal detail (configuration, database, node and
    internal errors) the response is the same whatever the detail, and for the
    others it is the operator's message; every response is an error status and
    carries the code of its variant. *)
Theorem error_response_opaque e m :
  (is_leaky e = true -> into_response (with_msg e m) = into_response e) /\
  (is_leaky e = false -> e <> RateLimited -> er_error (into_response (with_msg e m)) = m) /\
  (400 <= er_status (into_response e) < 600)%nat /\
  er_code (into_response e) = error_code (with_msg e m).
Proof. destruct e; simpl; split_and!; (done || lia). Qed.
