(* ===== verification/Db.v ===== *)
(** The database: the rows of the modelled tables ([src/models/db.rs] and
    [SocialTipRow] of [src/infra/db/social_tips.rs]) and the two statics the
    tasks of the process share, a statement as an atomic
    transformer of the tables, and the effect monad of the async code that
    issues statements.

    Every [await] on the pool is a point where other tasks run.  A [World]
    carries a schedule: before each statement the head slot of the schedule
    runs an arbitrary transformer of the database (the transactions of the
    other tasks and of the other instances), lets time pass, and may make the
    statement fail before or after its commit.  A program is a function of the
    world, so it evaluates on a concrete schedule, and a theorem over all
    schedules is a theorem over all interleavings. *)

From Stdlib Require Import ZArith Lia Ascii String.
From S2P Require Import Prelude RustStr Json Errors.

Abbreviation Uuid := N (only parsing).

(** [DateTime<Utc>] at Postgres' resolution: microseconds since the epoch. *)
Abbreviation Time := Z (only parsing).

Definition SECOND : Z := 1000000.
Definition MINUTE : Z := 60 * SECOND.
Definition HOUR : Z := 60 * MINUTE.
Definition DAY : Z := 24 * HOUR.

(** * Third-party functions

    Functions of crates that are not under [src/], by the name of the crate's
    function: formatting and parsing of UUIDs ([uuid]), RFC 3339 timestamps
    ([chrono]), hexadecimal ([hex]), SHA-256 ([sha2]) and error rendering
    ([sqlx]). *)
Class Ext := {
  uuid_to_string : Uuid -> string;
  uuid_parse_str : string -> option Uuid;
  to_rfc3339 : Time -> string;
  hex_encode : list Byte.byte -> string;
  hex_decode : string -> option (list Byte.byte);
  sha256 : list Byte.byte -> list Byte.byte;
  sqlx_to_string : PgError -> string;
}.

(** Documented behaviour of those crates that properties rely on. *)
Class ExtLaws (E : Ext) := {
  uuid_round_trip : forall u, uuid_parse_str (uuid_to_string u) = Some u;
  hex_round_trip : forall bs, hex_decode (hex_encode bs) = Some bs;
  hex_encode_len : forall bs, len (hex_encode bs) = 2 * length bs;
  sha256_len : forall bs, length (sha256 bs) = 32;
}.

(** [impl From<sqlx::Error> for AppError]. *)
Definition app_error_from_sqlx `{Ext} (e : PgError) : AppError :=
  DatabaseError (sqlx_to_string e).

(** [db::unique_violation_as]: a unique violation is a 409 with [msg], any
    other error passes through. *)
Definition unique_violation_as `{Ext} (msg : string) (e : PgError) : AppError :=
  match e with
  | PgUniqueViolation _ => Conflict msg
  | _ => app_error_from_sqlx e
  end.

(** * Rows *)

Record User := mkUser {
  u_id : Uuid;
  u_username : option string;
  u_pubkey_hash : option string;
  u_nostr_pubkey : option string;
  u_wallet_birthday : option Time;
  u_seed_fingerprint : option string;
  u_xmr_start_height : option i64;
  u_wow_start_height : option i64;
  u_created_at : Time;
  u_updated_at : Time;
  u_last_seen_at : option Time;
  u_premium_until : option Time;
}.

#[export] Instance eta_User : Eta User := fun u =>
  mkUser (u_id u) (u_username u) (u_pubkey_hash u) (u_nostr_pubkey u) (u_wallet_birthday u)
    (u_seed_fingerprint u) (u_xmr_start_height u) (u_wow_start_height u) (u_created_at u)
    (u_updated_at u) (u_last_seen_at u) (u_premium_until u).

Record Session := mkSession {
  s_id : Uuid;
  s_user_id : Uuid;
  s_refresh_token_hash : string;
  s_platform : string;
  s_device_info : option string;
  s_created_at : Time;
  s_expires_at : Time;
  s_revoked_at : option Time;
  s_last_used_at : Time;
}.

Inductive SlatepackStatus :=
| PendingRecipient | PendingSender | Finalized | Expired | SpCancelled.

#[export] Instance SlatepackStatus_eq_dec : EqDecision SlatepackStatus.
Proof. solve_decision. Defined.

Record GrinSlatepack := mkGrinSlatepack {
  g_id : Uuid;
  g_slate_id : string;
  g_sender_user_id : Uuid;
  g_recipient_user_id : option Uuid;
  g_recipient_address : option string;
  g_slatepack_content : string;
  g_amount_nanogrin : i64;
  g_status : SlatepackStatus;
  g_response_slatepack : option string;
  g_created_at : Time;
  g_updated_at : Time;
  g_expires_at : Time;
  g_finalized_at : option Time;
  g_tx_hash : option string;
}.

Record SocialTipRow := mkSocialTipRow {
  id : Uuid;
  sender_user_id : Uuid;
  asset : string;
  amount : i64;
  is_public : bool;
  claim_key_hash : option string;
  encrypted_key : option (list Byte.byte);
  tip_address : option string;
  funding_txid : option string;
  status : string;
  funding_confirmations : i32;
  funding_confirmed_at : option Time;
  last_confirmation_check : option Time;
  confirmations_required : i32;
  funding_amount_verified : bool;
  funding_amount_observed : option i64;
  funding_amount_verified_at : option Time;
  claimed_at : option Time;
  claimed_by_user_id : option Uuid;
  clawed_back_at : option Time;
  sweep_txid : option string;
  sweep_confirmed_at : option Time;
  sweep_block_height : option i32;
  sweep_block_hash : option string;
  sweep_confirmed_dm_sent_at : option Time;
  reorg_notified_at : option Time;
  tip_view_key : option string;
  lws_registered_at : option Time;
  lws_deactivated_at : option Time;
  created_at : Time;
  updated_at : Time;
  grin_commitment : option string;
  recipient_user_id : option Uuid;
}.

#[export] Instance eta_GrinSlatepack : Eta GrinSlatepack := fun r =>
  mkGrinSlatepack (g_id r) (g_slate_id r) (g_sender_user_id r)
    (g_recipient_user_id r) (g_recipient_address r) (g_slatepack_content r)
    (g_amount_nanogrin r) (g_status r) (g_response_slatepack r)
    (g_created_at r) (g_updated_at r) (g_expires_at r) (g_finalized_at r)
    (g_tx_hash r).

#[export] Instance eta_SocialTipRow : Eta SocialTipRow := fun r =>
  mkSocialTipRow (id r) (sender_user_id r) (asset r) (amount r) (is_public r)
    (claim_key_hash r) (encrypted_key r) (tip_address r) (funding_txid r)
    (status r) (funding_confirmations r) (funding_confirmed_at r)
    (last_confirmation_check r) (confirmations_required r)
    (funding_amount_verified r) (funding_amount_observed r)
    (funding_amount_verified_at r) (claimed_at r) (claimed_by_user_id r)
    (clawed_back_at r) (sweep_txid r) (sweep_confirmed_at r)
    (sweep_block_height r) (sweep_block_hash r)
    (sweep_confirmed_dm_sent_at r) (reorg_notified_at r) (tip_view_key r)
    (lws_registered_at r) (lws_deactivated_at r) (created_at r)
    (updated_at r) (grin_commitment r) (recipient_user_id r).

(** * Gates of registration, premium, keys and the admin audit *)

Record InviteCodeRow := mkInviteCodeRow {
  ic_code_hash : string;
  ic_created_at : Time;
  ic_label : option string;
  ic_expires_at : option Time;
  ic_used_at : option Time;
  ic_used_by : option Uuid;
}.

#[export] Instance eta_InviteCodeRow : Eta InviteCodeRow := fun r =>
  mkInviteCodeRow (ic_code_hash r) (ic_created_at r) (ic_label r) (ic_expires_at r)
    (ic_used_at r) (ic_used_by r).

Record PaymentInvoiceRow := mkPaymentInvoiceRow {
  pi_invoice_id : string;
  pi_pubkey_hash : string;
  pi_provider : string;
  pi_amount : string;
  pi_currency : string;
  pi_created_at : Time;
  pi_consumed_at : option Time;
}.

#[export] Instance eta_PaymentInvoiceRow : Eta PaymentInvoiceRow := fun r =>
  mkPaymentInvoiceRow (pi_invoice_id r) (pi_pubkey_hash r) (pi_provider r) (pi_amount r)
    (pi_currency r) (pi_created_at r) (pi_consumed_at r).

Record PremiumInvoiceRow := mkPremiumInvoiceRow {
  pr_invoice_id : string;
  pr_user_id : Uuid;
  pr_provider : string;
  pr_plan_id : string;
  pr_period_days : i32;
  pr_amount : string;
  pr_currency : string;
  pr_created_at : Time;
  pr_consumed_at : option Time;
}.

#[export] Instance eta_PremiumInvoiceRow : Eta PremiumInvoiceRow := fun r =>
  mkPremiumInvoiceRow (pr_invoice_id r) (pr_user_id r) (pr_provider r) (pr_plan_id r)
    (pr_period_days r) (pr_amount r) (pr_currency r) (pr_created_at r) (pr_consumed_at r).

Inductive AssetType := Btc | Ltc | Xmr | Wow | Grin.

#[export] Instance AssetType_eq_dec : EqDecision AssetType.
Proof. solve_decision. Defined.

#[export] Instance AssetType_countable : Countable AssetType.
Proof.
  refine (inj_countable'
    (fun a => match a with Btc => 0 | Ltc => 1 | Xmr => 2 | Wow => 3 | Grin => 4 end)
    (fun n => match n with 0 => Btc | 1 => Ltc | 2 => Xmr | 3 => Wow | _ => Grin end) _).
  by intros [].
Defined.

Record UserKey := mkUserKey {
  uk_id : Uuid;
  uk_user_id : Uuid;
  uk_asset : AssetType;
  uk_public_key : string;
  uk_public_spend_key : option string;
  uk_key_type : string;
  uk_created_at : Time;
  uk_updated_at : Time;
}.

#[export] Instance eta_UserKey : Eta UserKey := fun k =>
  mkUserKey (uk_id k) (uk_user_id k) (uk_asset k) (uk_public_key k)
    (uk_public_spend_key k) (uk_key_type k) (uk_created_at k) (uk_updated_at k).

(** A row of the privileged-action trail.  [details] is a JSON value and
    [ip_address] a network, both in their text form. *)
Record AdminAuditLog := mkAdminAuditLog {
  al_id : Uuid;
  al_seq : i64;
  al_action : string;
  al_actor_kind : string;
  al_actor_pubkey_prefix : option string;
  al_target : option string;
  al_details : option string;
  al_ip_address : option string;
  al_created_at : Time;
  al_prev_hash : string;
  al_row_hash : string;
}.

(** * Challenges, login events, restore attempts, the audit log *)

Record Challenge := mkChallenge {
  ch_nonce : string;
  ch_purpose : string;
  ch_subject : option string;
  ch_created_at : Time;
  ch_expires_at : Time;
}.

Record LoginEvent := mkLoginEvent {
  le_id : Uuid;
  le_user_id : option Uuid;
  le_asset : string;
  le_platform : string;
  le_origin : option string;
  le_ip_hash : option string;
  le_created_at : Time;
}.

#[export] Instance eta_LoginEvent : Eta LoginEvent := fun r =>
  mkLoginEvent (le_id r) (le_user_id r) (le_asset r) (le_platform r) (le_origin r)
    (le_ip_hash r) (le_created_at r).

Record RestoreAttempt := mkRestoreAttempt {
  ra_id : Uuid;
  ra_fingerprint : string;
  ra_ip_hash : option string;
  ra_success : bool;
  ra_created_at : Time;
}.

Inductive AuditAction :=
| UserCreated | UserLogin | WalletCreated | WalletRegistered | TxBroadcast
| SessionCreated | SessionRevoked.

#[export] Instance AuditAction_eq_dec : EqDecision AuditAction.
Proof. solve_decision. Defined.

(** [details] is a JSON value, by its text. *)
Record AuditLog := mkAuditLog {
  au_id : Uuid;
  au_user_id : option Uuid;
  au_action : AuditAction;
  au_resource_type : option string;
  au_resource_id : option Uuid;
  au_details : option string;
  au_user_agent : option string;
  au_created_at : Time;
}.

#[export] Instance eta_AuditLog : Eta AuditLog := fun r =>
  mkAuditLog (au_id r) (au_user_id r) (au_action r) (au_resource_type r)
    (au_resource_id r) (au_details r) (au_user_agent r) (au_created_at r).

(** * Administration and erasure *)

Record AdminKey := mkAdminKey {
  ak_id : Uuid;
  ak_pubkey : string;
  ak_label : option string;
  ak_scope : string;
  ak_created_at : Time;
  ak_created_by_kind : string;
  ak_activated_at : option Time;
  ak_activation_deadline : option Time;
  ak_revoked_at : option Time;
  ak_last_used_at : option Time;
  ak_integrity_mac : string;
}.

#[export] Instance eta_AdminKey : Eta AdminKey := fun k =>
  mkAdminKey (ak_id k) (ak_pubkey k) (ak_label k) (ak_scope k) (ak_created_at k)
    (ak_created_by_kind k) (ak_activated_at k) (ak_activation_deadline k)
    (ak_revoked_at k) (ak_last_used_at k) (ak_integrity_mac k).

(** [ip_address] is a network in its text form. *)
Record AdminSession := mkAdminSession {
  as_id : Uuid;
  as_admin_key_id : Uuid;
  as_pubkey : string;
  as_refresh_token_hash : string;
  as_access_jti : string;
  as_device_info : option string;
  as_ip_address : option string;
  as_created_at : Time;
  as_expires_at : Time;
  as_revoked_at : option Time;
}.

#[export] Instance eta_AdminSession : Eta AdminSession := fun s =>
  mkAdminSession (as_id s) (as_admin_key_id s) (as_pubkey s) (as_refresh_token_hash s)
    (as_access_jti s) (as_device_info s) (as_ip_address s) (as_created_at s)
    (as_expires_at s) (as_revoked_at s).

Record ErasureRequest := mkErasureRequest {
  er_id : Uuid;
  er_user_id : option Uuid;
  er_subject_hash : string;
  er_state : string;                  (* the column [status] *)
  er_requested_at : Time;
  er_scheduled_for : Time;
  er_confirmed_at : option Time;
  er_completed_at : option Time;
  er_cancelled_at : option Time;
}.

#[export] Instance eta_ErasureRequest : Eta ErasureRequest := fun r =>
  mkErasureRequest (er_id r) (er_user_id r) (er_subject_hash r) (er_state r)
    (er_requested_at r) (er_scheduled_for r) (er_confirmed_at r) (er_completed_at r)
    (er_cancelled_at r).

(** The singleton row [id = 1]. *)
Record ServerConfig := mkServerConfig {
  sc_setup_state : string;
  sc_bootstrap_completed_at : option Time;
  sc_locked_at : option Time;
  sc_updated_at : Time;
  sc_integrity_mac : string;
}.

(** [doc] is JSONB. *)
Record OperatorSettingRow := mkOperatorSettingRow {
  os_section : string;
  os_doc : Value;
  os_version : i64;
  os_updated_by : option Uuid;
  os_updated_at : Time;
  os_integrity_mac : string;
}.

(** * The tables *)

(** [WebChallenge] of [src/core/session.rs]: a challenge of website sign-in. *)
Record WebChallenge := mkWebChallenge {
  wc_nonce : string; wc_created_at : Time; wc_origin : string; wc_expires_at : Time }.

Record Db := mkDb {
  users : gmap Uuid User;
  sessions : gmap Uuid Session;
  social_tips : gmap Uuid SocialTipRow;
  grin_slatepacks : gmap Uuid GrinSlatepack;
  invite_codes : gmap string InviteCodeRow;          (* by code_hash *)
  payment_invoices : gmap string PaymentInvoiceRow;  (* by invoice_id *)
  premium_invoices : gmap string PremiumInvoiceRow;  (* by invoice_id *)
  user_keys : gmap (Uuid * AssetType * string) UserKey; (* by user, asset, key type *)
  admin_audit_logs : list AdminAuditLog;             (* ORDER BY seq *)
  advisory_locks : gset Z;    (* pg_try_advisory_lock keys held by a session *)
  challenges : gmap string Challenge;                (* by nonce *)
  login_events : gmap Uuid LoginEvent;
  restore_attempts : gmap Uuid RestoreAttempt;
  audit_logs : gmap Uuid AuditLog;
  admin_keys : gmap Uuid AdminKey;
  admin_sessions : gmap Uuid AdminSession;
  erasure_requests : gmap Uuid ErasureRequest;
  server_config : option ServerConfig;
  operator_settings : gmap string OperatorSettingRow; (* by section *)
  (* not tables: the statics the tasks of the process share *)
  spent_solutions : gmap string Time;   (* [pow.rs], with the [Instant] of the insertion *)
  ip_hash_scrub_done : bool;            (* [login_events.rs] *)
  web_challenges : gmap string WebChallenge;   (* [AppState], by nonce *)
}.

#[export] Instance eta_Db : Eta Db := fun d =>
  mkDb (users d) (sessions d) (social_tips d) (grin_slatepacks d) (invite_codes d)
    (payment_invoices d) (premium_invoices d) (user_keys d) (admin_audit_logs d)
    (advisory_locks d) (challenges d) (login_events d) (restore_attempts d) (audit_logs d)
    (admin_keys d) (admin_sessions d) (erasure_requests d) (server_config d)
    (operator_settings d) (spent_solutions d) (ip_hash_scrub_done d)
    (web_challenges d).

Definition empty_db : Db :=
  mkDb ∅ ∅ ∅ ∅ ∅ ∅ ∅ ∅ [] ∅ ∅ ∅ ∅ ∅ ∅ ∅ ∅ None ∅ ∅ false ∅.

(** A statement, or a transaction: atomic, evaluated at one [NOW()], failing
    without effect. *)
Definition Stmt (R : Type) : Type := Time -> Db -> PgError + (Db * R).
