(* ===== verification/Effects.v ===== *)
(** The effect monad of the async code, and the rely/guarantee triples that
    lift a fact about single statements to whole programs under every
    interleaving. *)

From Stdlib Require Import ZArith Lia.
From stdpp Require Export relations.
From S2P Require Import Prelude RustStr Json Errors Db.

(** * Worlds and programs *)

Inductive Fault :=
| NoFault
| FailBefore (e : PgError)   (* the statement did not run *)
| FailAfter (e : PgError).   (* it committed, but its reply was lost *)

(** What happens just before (and at) one statement of a program. *)
Record Slot := mkSlot {
  sl_env : Time -> Db -> Db;   (* what the other tasks commit meanwhile *)
  sl_dt : N;                   (* microseconds that pass *)
  sl_fault : Fault;
}.

Definition quiet_slot : Slot := mkSlot (fun _ d => d) 0 NoFault.

Record World := mkWorld {
  w_db : Db;
  w_now : Time;            (* Postgres' NOW() *)
  w_skew : Z;              (* the server's own clock minus NOW() *)
  w_sched : list Slot;
  w_calls : nat;           (* upstream calls made so far *)
  w_rand : nat -> Uuid;    (* gen_random_uuid, by call *)
  w_sent : list (string * Value);   (* what was posted upstream: the URL, the body *)
}.

#[export] Instance eta_World : Eta World := fun w =>
  mkWorld (w_db w) (w_now w) (w_skew w) (w_sched w) (w_calls w) (w_rand w)
    (w_sent w).

Definition M (A : Type) : Type := World -> World * outcome A.

#[export] Instance M_ret : MRet M := fun A a w => (w, Ok a).
#[export] Instance M_bind : MBind M := fun A B f m w =>
  match m w with
  | (w', Ok a) => f a w'
  | (w', Err e) => (w', Err e)
  | (w', Panic) => (w', Panic)
  end.
#[export] Instance M_fmap : FMap M := fun A B f m w =>
  match m w with
  | (w', Ok a) => (w', Ok (f a))
  | (w', Err e) => (w', Err e)
  | (w', Panic) => (w', Panic)
  end.

Definition lift {A} (o : outcome A) : M A := fun w => (w, o).
Definition fail {A} (e : AppError) : M A := lift (Err e).

(** [match m.await { Ok(a) => .., Err(e) => .. }]: a panic still unwinds. *)
Definition attempt {A} (m : M A) : M (A + AppError) := fun w =>
  match m w with
  | (w', Ok a) => (w', Ok (inl a))
  | (w', Err e) => (w', Ok (inr e))
  | (w', Panic) => (w', Panic)
  end.

(** [if let Err(e) = m.await { log }]. *)
Definition swallow {A} (m : M A) : M unit :=
  r ← attempt m; mret tt.

Fixpoint for_each {A} (f : A -> M unit) (xs : list A) : M unit :=
  match xs with
  | [] => mret tt
  | x :: xs' => _ ← f x; for_each f xs'
  end.

(** [Utc::now()]. *)
Definition utc_now : M Time := fun w => (w, Ok (w_now w + w_skew w)%Z).

Definition next_slot (w : World) : Slot * World :=
  match w_sched w with
  | [] => (quiet_slot, w)
  | sl :: rest => (sl, w <|w_sched := rest|>)
  end.

(** Run one statement: the interference of the head slot, then the statement,
    then its fault if any. *)
Definition run_stmt {R} (on_err : PgError -> AppError) (s : Stmt R) : M R :=
  fun w =>
    let '(sl, w0) := next_slot w in
    let now := (w_now w0 + Z.of_N (sl_dt sl))%Z in
    let db1 := sl_env sl now (w_db w0) in
    let w1 := w0 <|w_now := now|> <|w_db := db1|> in
    match sl_fault sl with
    | FailBefore e => (w1, Err (on_err e))
    | FailAfter e =>
        match s now db1 with
        | inr (db2, _) => (w1 <|w_db := db2|>, Err (on_err e))
        | inl e' => (w1, Err (on_err e'))
        end
    | NoFault =>
        match s now db1 with
        | inr (db2, r) => (w1 <|w_db := db2|>, Ok r)
        | inl e => (w1, Err (on_err e))
        end
    end.

(** A step on the memory the tasks of the process share, under its mutex: the
    others run before it, and nothing can make it fail. *)
Definition in_memory {R} (f : Time -> Db -> Db * R) : M R := fun w =>
  let '(sl, w0) := next_slot w in
  let now := (w_now w0 + Z.of_N (sl_dt sl))%Z in
  let '(d, r) := f now (sl_env sl now (w_db w0)) in
  (w0 <|w_now := now|> <|w_db := d|>, Ok r).

(** A call to an upstream server: its answer may differ at each call. *)
Definition upstream {A} (f : nat -> outcome A) : M A := fun w =>
  (w <|w_calls := S (w_calls w)|>, f (w_calls w)).

Definition gen_random_uuid : M Uuid := fun w =>
  (w <|w_calls := S (w_calls w)|>, Ok (w_rand w (w_calls w))).

(** * Rely/guarantee *)

Definition Rel : Type := Time -> Db -> Db -> Prop.

(** Any number of steps of the system, at any times. *)
Definition steps (R : Rel) : Db -> Db -> Prop :=
  rtc (fun d d' => exists t, R t d d').

(** The interference of a schedule is made of steps of the system. *)
Definition sched_ok (R : Rel) (sch : list Slot) : Prop :=
  Forall (fun sl => forall t d, steps R d (sl_env sl t d)) sch.

Definition stable (R : Rel) (I : Db -> Prop) : Prop :=
  forall t d d', R t d d' -> I d -> I d'.

(** [triple G R I m Q]: under every schedule of steps of [R], from a database
    satisfying [I], the random identifiers being a stream that satisfies [G], what [m] does to the database is itself a sequence of
    steps of [R], [I] holds at the end, and a value [m] returns satisfies
    [Q]. *)
Definition triple {A} (G : (nat -> Uuid) -> Prop) (R : Rel) (I : Db -> Prop)
    (m : M A) (Q : A -> Prop) : Prop :=
  forall w, G (w_rand w) -> sched_ok R (w_sched w) -> I (w_db w) ->
  let '(w', o) := m w in
  steps R (w_db w) (w_db w') /\ sched_ok R (w_sched w') /\ I (w_db w') /\
  (w_now w <= w_now w')%Z /\ w_rand w' = w_rand w /\ (forall a, o = Ok a -> Q a).

Lemma steps_refl R d : steps R d d.
Proof. apply rtc_refl. Qed.

Lemma steps_once R t d d' : R t d d' -> steps R d d'.
Proof. intros H. apply rtc_once. eauto. Qed.

Lemma steps_trans R d1 d2 d3 : steps R d1 d2 -> steps R d2 d3 -> steps R d1 d3.
Proof. unfold steps. intros. by etrans. Qed.

Lemma steps_stable R I d d' : stable R I -> steps R d d' -> I d -> I d'.
Proof.
  intros Hs H. induction H as [|d1 d2 d3 [t Ht] _ IH]; [done|].
  intros HI. apply IH. by eapply Hs.
Qed.

Lemma steps_mono (R1 R2 : Rel) d d' :
  (forall t x y, R1 t x y -> R2 t x y) -> steps R1 d d' -> steps R2 d d'.
Proof.
  intros HR H. induction H as [|d1 d2 d3 [t Ht] _ IH]; [apply rtc_refl|].
  eapply rtc_l; eauto.
Qed.

(** The others do nothing. *)
Definition idle : Rel := fun _ d d' => d' = d.

Lemma steps_idle d d' : steps idle d d' -> d' = d.
Proof. induction 1 as [|d1 d2 d3 [t Ht] _ IH]; [done|]. by rewrite IH, Ht. Qed.

Lemma idle_stable I : stable idle I.
Proof. by intros t d d' ->. Qed.

(** The steps of one or the other. *)
Definition either (R1 R2 : Rel) : Rel := fun t d d' => R1 t d d' \/ R2 t d d'.

Lemma sched_ok_mono (R1 R2 : Rel) sch :
  (forall t x y, R1 t x y -> R2 t x y) -> sched_ok R1 sch -> sched_ok R2 sch.
Proof.
  intros HR H. eapply Forall_impl; [exact H|]. intros sl Hsl t d. eapply steps_mono; eauto.
Qed.

Create HintDb triple discriminated.
#[export] Hint Constants Opaque : triple.

(** Close the conjuncts of a triple that hold by computation. *)
Ltac triple_conjuncts :=
  split_and!; try done; try apply steps_refl; try (by intros ? [= <-]); eauto.

Section triples.
Context (G : (nat -> Uuid) -> Prop) (R : Rel) (I : Db -> Prop).

Lemma triple_ret {A} (a : A) (Q : A -> Prop) : Q a -> triple G R I (mret a) Q.
Proof.
  intros HQ w HG Hok HI. simpl. triple_conjuncts.
Qed.

Lemma triple_bind {A B} (m : M A) (k : A -> M B) P Q :
  triple G R I m P -> (forall a, P a -> triple G R I (k a) Q) ->
  triple G R I (m ≫= k) Q.
Proof.
  intros Hm Hk w HG Hok HI. unfold mbind, M_bind. specialize (Hm w HG Hok HI).
  destruct (m w) as [w1 [a|e|]]; destruct Hm as (? & ? & ? & ? & Hrnd & HP).
  2,3: by split_and!.
  specialize (Hk a (HP a eq_refl) w1 ltac:(by rewrite Hrnd) ltac:(done) ltac:(done)).
  destruct (k a w1) as [w2 o]. destruct Hk as (?&?&?&?&?&?).
  split_and!; try done; [by eapply steps_trans|lia|congruence].
Qed.

Lemma triple_weaken {A} (m : M A) (P Q : A -> Prop) :
  triple G R I m P -> (forall a, P a -> Q a) -> triple G R I m Q.
Proof.
  intros Hm HPQ w HG Hok HI. specialize (Hm w HG Hok HI).
  destruct (m w). naive_solver.
Qed.

Lemma triple_fmap {A B} (f : A -> B) (m : M A) (P : A -> Prop) Q :
  triple G R I m P -> (forall a, P a -> Q (f a)) -> triple G R I (f <$> m) Q.
Proof.
  intros Hm HQ w HG Hok HI. specialize (Hm w HG Hok HI).
  unfold fmap, M_fmap. destruct (m w) as [? [| |]]; naive_solver.
Qed.

Lemma triple_lift {A} (o : outcome A) (Q : A -> Prop) :
  (forall a, o = Ok a -> Q a) -> triple G R I (lift o) Q.
Proof.
  intros HQ w HG Hok HI. simpl. triple_conjuncts.
Qed.

Lemma triple_attempt {A} (m : M A) (P : A -> Prop) :
  triple G R I m P ->
  triple G R I (attempt m) (fun r => match r with inl a => P a | _ => True end).
Proof.
  intros Hm w HG Hok HI. specialize (Hm w HG Hok HI). unfold attempt.
  destruct (m w) as [? [| |]]; destruct Hm as (?&?&?&?&?&HP);
    split_and!; try done; intros ? [= <-]; [by apply HP|done].
Qed.

Lemma triple_swallow {A} (m : M A) (P : A -> Prop) (Q : unit -> Prop) :
  triple G R I m P -> Q tt -> triple G R I (swallow m) Q.
Proof.
  intros Hm HQ. unfold swallow. eapply triple_bind.
  - by apply triple_attempt.
  - intros. by apply triple_ret.
Qed.

Lemma triple_for_each {A} (f : A -> M unit) (P : A -> Prop) xs :
  Forall P xs -> (forall x, P x -> triple G R I (f x) (fun _ => True)) ->
  triple G R I (for_each f xs) (fun _ => True).
Proof.
  intros Hxs Hf. induction Hxs as [|x xs Hx _ IH]; simpl.
  - by apply triple_ret.
  - eapply triple_bind; [by apply Hf|]. intros. apply IH.
Qed.

Lemma triple_upstream {A} (f : nat -> outcome A) :
  triple G R I (upstream f) (fun a => exists n, f n = Ok a).
Proof.
  intros w HG Hok HI. simpl. triple_conjuncts.
Qed.

Lemma triple_upstream_any {A} (f : nat -> outcome A) :
  triple G R I (upstream f) (fun _ => True).
Proof. eapply triple_weaken; [apply triple_upstream|done]. Qed.

Lemma triple_utc_now : triple G R I utc_now (fun _ => True).
Proof.
  intros w HG Hok HI. simpl. triple_conjuncts.
Qed.

Lemma triple_gen_random_uuid :
  triple G R I gen_random_uuid (fun k => exists f n, G f /\ k = f n).
Proof.
  intros w HG Hok HI. simpl. triple_conjuncts.
  intros ? [= <-]. eauto.
Qed.

(** A statement whose effect is a sequence of steps of the system. *)
Lemma triple_stmt {T} on_err (s : Stmt T) (Q : T -> Prop) :
  stable R I ->
  (forall t d d' r, I d -> s t d = inr (d', r) -> steps R d d' /\ Q r) ->
  triple G R I (run_stmt on_err s) Q.
Proof.
  intros Hst Hs w HG Hok HI. unfold run_stmt, next_slot.
  destruct (w_sched w) as [|sl rest] eqn:Esch; simpl.
  - destruct (s _ _) as [e|[d' r]] eqn:Es; simpl.
    + rewrite Esch. triple_conjuncts; lia.
    + apply Hs in Es as [??]; [|done]. rewrite Esch.
      triple_conjuncts; [by eapply steps_stable|lia].
  - apply Forall_cons in Hok as [Henv Hrest].
    set (now := (w_now w + Z.of_N (sl_dt sl))%Z).
    assert (Hnow : (w_now w <= now)%Z) by (unfold now; lia).
    specialize (Henv now (w_db w)).
    assert (I (sl_env sl now (w_db w))) by (by eapply steps_stable).
    destruct (sl_fault sl); simpl;
      [destruct (s _ _) as [e|[d' r]] eqn:Es; simpl|
       | destruct (s _ _) as [e'|[d' r]] eqn:Es; simpl];
      try (by triple_conjuncts);
      apply Hs in Es as [??]; try done;
      triple_conjuncts; try (by eapply steps_trans); by eapply steps_stable.
Qed.

Lemma triple_in_memory {T} (f : Time -> Db -> Db * T) (Q : T -> Prop) :
  stable R I ->
  (forall t d d' r, I d -> f t d = (d', r) -> steps R d d' /\ Q r) ->
  triple G R I (in_memory f) Q.
Proof.
  intros Hst Hf w HG Hok HI. unfold in_memory, next_slot.
  destruct (w_sched w) as [|sl rest] eqn:Esch; simpl.
  - destruct (f _ _) as [d' r] eqn:Es. apply Hf in Es as [??]; [|done]. simpl. rewrite Esch.
    triple_conjuncts; [by eapply steps_stable|lia].
  - apply Forall_cons in Hok as [Henv Hrest].
    specialize (Henv (w_now w + Z.of_N (sl_dt sl))%Z (w_db w)).
    assert (I (sl_env sl (w_now w + Z.of_N (sl_dt sl))%Z (w_db w))) by (by eapply steps_stable).
    destruct (f _ _) as [d' r] eqn:Es. apply Hf in Es as [??]; [|done]. simpl.
    triple_conjuncts; [by eapply steps_trans|by eapply steps_stable|lia].
Qed.
End triples.

(** The steps that keep a property of the database. *)
Definition keeps (P : Db -> Prop) : Rel := fun _ d d' => P d -> P d'.

Lemma keeps_stable P : stable (keeps P) P.
Proof. intros t d d' Hs. exact Hs. Qed.

(** A statement that keeps [P], the others keeping it too. *)
Lemma triple_keeps {T} G (P : Db -> Prop) on_err (s : Stmt T) (Q : T -> Prop) :
  (forall t d d' r, P d -> s t d = inr (d', r) -> P d' /\ Q r) ->
  triple G (keeps P) P (run_stmt on_err s) Q.
Proof.
  intros Hs. apply triple_stmt; [apply keeps_stable|]. intros t d d' r HP E.
  destruct (Hs t d d' r HP E) as [HP' HQ]. split; [|done].
  apply (steps_once _ t). by intros _.
Qed.

Lemma triple_keeps_memory {T} G (P : Db -> Prop) (f : Time -> Db -> Db * T) (Q : T -> Prop) :
  (forall t d d' r, P d -> f t d = (d', r) -> P d' /\ Q r) ->
  triple G (keeps P) P (in_memory f) Q.
Proof.
  intros Hs. apply triple_in_memory; [apply keeps_stable|]. intros t d d' r HP E.
  destruct (Hs t d d' r HP E) as [HP' HQ]. split; [|done].
  apply (steps_once _ t). by intros _.
Qed.

(** What a triple gives on a concrete world. *)
Lemma triple_run {A} G R I (m : M A) Q w w' o :
  triple G R I m Q -> G (w_rand w) -> sched_ok R (w_sched w) -> I (w_db w) -> m w = (w', o) ->
  steps R (w_db w) (w_db w') /\ I (w_db w') /\ (forall a, o = Ok a -> Q a).
Proof.
  intros Hm HG Hok HI E. specialize (Hm w HG Hok HI). rewrite E in Hm. naive_solver.
Qed.

#[export] Hint Resolve triple_ret triple_lift triple_upstream_any
  triple_utc_now triple_gen_random_uuid : triple.

Lemma sched_ok_nil R : sched_ok R [].
Proof. apply Forall_nil_2. Qed.
#[export] Hint Resolve sched_ok_nil steps_refl : smirk.

Lemma run_stmt_quiet {T} on_err (s : Stmt T) w :
  w_sched w = [] ->
  run_stmt on_err s w =
  match s (w_now w) (w_db w) with
  | inr (d, r) => (w <|w_db := d|>, Ok r)
  | inl e => (w, Err (on_err e))
  end.
Proof.
  intros H. unfold run_stmt, next_slot. rewrite H. simpl.
  rewrite Z.add_0_r. destruct w; simpl in *. subst.
  destruct (s _ _) as [|[??]]; done.
Qed.

Lemma in_memory_quiet {T} (f : Time -> Db -> Db * T) w :
  w_sched w = [] ->
  in_memory f w = (w <|w_db := (f (w_now w) (w_db w)).1|>, Ok (f (w_now w) (w_db w)).2).
Proof.
  intros H. unfold in_memory, next_slot. rewrite H. simpl. rewrite Z.add_0_r.
  destruct w; simpl in *. subst. by destruct (f _ _).
Qed.

(** What the head slot does is steps of the system. *)
Lemma next_slot_env R w :
  sched_ok R (w_sched w) ->
  forall t, steps R (w_db w) (sl_env (next_slot w).1 t (w_db w)).
Proof.
  intros Hok t. unfold next_slot. destruct (w_sched w) as [|sl rest]; simpl; [apply steps_refl|].
  by apply Forall_cons in Hok as [Hsl _].
Qed.

(** A statement that answered: it ran at one instant, on what the others left. *)
Lemma run_stmt_Ok {T} R on_err (s : Stmt T) w w' r :
  sched_ok R (w_sched w) -> run_stmt on_err s w = (w', Ok r) ->
  exists d, steps R (w_db w) d /\ s (w_now w') d = inr (w_db w', r) /\ sched_ok R (w_sched w') /\
    (w_now w <= w_now w')%Z.
Proof.
  intros Hok Hrun. pose proof (next_slot_env R w Hok) as Henv. unfold run_stmt in Hrun.
  destruct (next_slot w) as [sl w0] eqn:En. simpl in Henv.
  assert (w_db w0 = w_db w /\ w_now w0 = w_now w /\ sched_ok R (w_sched w0)) as (Hdb & Hnow & Hok0).
  { revert En Hok. unfold next_slot, sched_ok. destruct (w_sched w) as [|sl' rest] eqn:Es;
      intros [= <- <-] Hok; simpl; [by rewrite Es|]. by apply Forall_cons in Hok as [_ ?]. }
  rewrite Hdb in Hrun. set (now := (w_now w0 + Z.of_N (sl_dt sl))%Z) in *.
  exists (sl_env sl now (w_db w)). split; [done|].
  destruct (sl_fault sl) as [|e1|e1]; [|done|];
    destruct (s now (sl_env sl now (w_db w))) as [e2|[d' x]] eqn:E; try done.
  injection Hrun as <- <-. split_and!; [done|done|]. simpl. unfold now. lia.
Qed.

(** A statement that only reads. *)
Lemma triple_read {T} G R (I : Db -> Prop) on_err (s : Stmt T) (Q : T -> Prop) :
  stable R I ->
  (forall t d d' r, I d -> s t d = inr (d', r) -> d' = d /\ Q r) ->
  triple G R I (run_stmt on_err s) Q.
Proof.
  intros Hst Hs. apply triple_stmt; [done|]. intros t d d' r HI E.
  apply Hs in E as [-> ?]; [|done]. by split; [apply steps_refl|].
Qed.

(** An upstream server that is down. *)
Definition down {A} (f : nat -> outcome A) : Prop := forall n, exists e, f n = Err e.

Lemma triple_down {A} G R I (f : nat -> outcome A) :
  down f -> triple G R I (upstream f) (fun _ => False).
Proof.
  intros Hf. eapply triple_weaken; [apply triple_upstream|].
  intros a [n Hn]. destruct (Hf n) as [e He]. congruence.
Qed.

(** * Programs that do not touch the database *)

Definition db_free {A} (m : M A) : Prop := forall w,
  w_db (m w).1 = w_db w /\ w_sched (m w).1 = w_sched w /\ w_now (m w).1 = w_now w.

Lemma db_free_ret {A} (a : A) : db_free (mret a).
Proof. done. Qed.
Lemma db_free_lift {A} (o : outcome A) : db_free (lift o).
Proof. done. Qed.
Lemma db_free_upstream {A} (f : nat -> outcome A) : db_free (upstream f).
Proof. done. Qed.

Lemma db_free_bind {A B} (m : M A) (k : A -> M B) :
  db_free m -> (forall a, db_free (k a)) -> db_free (m ≫= k).
Proof.
  intros Hm Hk w. specialize (Hm w). unfold mbind, M_bind.
  destruct (m w) as [w' [a|e|]]; [|done..]. specialize (Hk a w').
  simpl in *. destruct_and!. split_and!; congruence.
Qed.

Lemma db_free_attempt {A} (m : M A) : db_free m -> db_free (attempt m).
Proof. intros Hm w. specialize (Hm w). unfold attempt. by destruct (m w) as [? []]. Qed.

Ltac db_free_steps :=
  lazymatch goal with
  | |- db_free (mret _) => apply db_free_ret
  | |- db_free (lift _) => apply db_free_lift
  | |- db_free (fail _) => apply db_free_lift
  | |- db_free (upstream _) => apply db_free_upstream
  | |- db_free (attempt _) => apply db_free_attempt; db_free_steps
  | |- db_free (mbind _ _) =>
      apply db_free_bind; [db_free_steps|intros ?; db_free_steps]
  | |- db_free (match ?x with _ => _ end) => destruct x; db_free_steps
  | |- _ => auto
  end.

(** * Running alone *)

Lemma bind_run_Ok {A B} (m : M A) (k : A -> M B) w w' b :
  (m ≫= k) w = (w', Ok b) <-> exists w1 a, m w = (w1, Ok a) /\ k a w1 = (w', Ok b).
Proof.
  unfold mbind, M_bind. destruct (m w) as [w1 [a|e|]]; naive_solver.
Qed.

(** A program that, alone, leaves the database and the clock as they are. *)
Definition read_only {A} (m : M A) : Prop := forall w,
  w_sched w = [] -> w_db (m w).1 = w_db w /\ w_sched (m w).1 = [] /\
  w_now (m w).1 = w_now w.

Lemma read_only_free {A} (m : M A) : db_free m -> read_only m.
Proof. intros Hm w Hq. destruct (Hm w) as (? & ? & ?). by split_and!; congruence. Qed.

Lemma read_only_bind {A B} (m : M A) (k : A -> M B) :
  read_only m -> (forall a, read_only (k a)) -> read_only (m ≫= k).
Proof.
  intros Hm Hk w Hq. specialize (Hm w Hq). unfold mbind, M_bind.
  destruct (m w) as [w' [a|e|]]; [|done..]. simpl in Hm. destruct_and! Hm.
  destruct (Hk a w') as (? & ? & ?); [done|]. split_and!; congruence.
Qed.

Lemma read_only_fmap {A B} (f : A -> B) (m : M A) : read_only m -> read_only (f <$> m).
Proof.
  intros Hm w Hq. specialize (Hm w Hq). unfold fmap, M_fmap.
  by destruct (m w) as [w' [a|e|]].
Qed.

Lemma read_only_stmt {T} on_err (s : Stmt T) :
  (forall t d d' r, s t d = inr (d', r) -> d' = d) -> read_only (run_stmt on_err s).
Proof.
  intros Hs w Hq. rewrite run_stmt_quiet by done.
  destruct (s (w_now w) (w_db w)) as [e|[d r]] eqn:E; [done|].
  apply Hs in E as ->. by destruct w.
Qed.

Lemma read_only_run {A} (m : M A) w w' o :
  read_only m -> w_sched w = [] -> m w = (w', o) ->
  w_db w' = w_db w /\ w_sched w' = [] /\ w_now w' = w_now w.
Proof. intros Hm Hq E. specialize (Hm w Hq). by rewrite E in Hm. Qed.

Lemma db_free_utc_now : db_free utc_now.
Proof. done. Qed.

Lemma lift_run_Ok {A} (o : outcome A) w w' a :
  lift o w = (w', Ok a) <-> w' = w /\ o = Ok a.
Proof. unfold lift. naive_solver. Qed.

(** Follow a program: its binds, its cases, its loops, its handled errors. *)
Ltac triple_steps :=
  lazymatch goal with
  | |- triple _ _ _ (mret _) _ =>
      first [apply triple_ret; done
            |apply (triple_ret _ _ _ _ (fun _ => True)); done|apply triple_ret]
  | |- triple _ _ _ (lift _) _ => 
      first [apply triple_lift; done
            |apply (triple_lift _ _ _ _ (fun _ => True)); done|idtac]
  | |- triple _ _ _ (fail _) _ => apply triple_lift; done
  | |- triple _ _ _ (swallow _) _ =>
      first [eapply triple_swallow; [|done]
            |eapply (triple_swallow _ _ _ _ _ (fun _ => True)); [|done]];
      triple_steps
  | |- triple _ _ _ (attempt _) _ => eapply triple_attempt; triple_steps
  | |- triple _ _ _ (upstream _) _ => first [apply triple_upstream_any|idtac]
  | |- triple _ _ _ (mbind _ _) _ =>
      eapply triple_bind; [triple_steps|intros ? ?; triple_steps]
  | |- triple _ _ _ (match ?x with _ => _ end) _ =>
      destruct x eqn:?; triple_steps
  | |- triple _ _ _ _ _ => first [solve [eauto with triple]|idtac]
  | |- _ => idtac
  end.
