(* ===== verification/Http.v ===== *)
(** Calls to the servers upstream: what is posted is logged, and what is answered
    is the HTTP client's ([reqwest]). *)

From Stdlib Require Import ZArith Lia Ascii String.
From S2P Require Import Prelude RustStr Json Errors Db Effects.

(** The answer to a request: a failure of the transport with its message, or a
    status and the chunks of the body, of which one may fail to arrive. *)
Inductive HttpReply :=
| HttpFailed (message : string)
| HttpResponse (status : Z) (chunks : list (option (list Byte.byte))).

(** [http.post(url).json(body).send()] at the [n]-th call, and
    [serde_json::from_slice] down to a value. *)
Class Http := {
  http_post : string -> Value -> nat -> HttpReply;
  json_from_slice : list Byte.byte -> option Value;
}.

(** [status.is_success()]. *)
Definition is_success (status : Z) : bool := ((200 <=? status) && (status <=? 299))%Z.

(** The chunks of a body, up to [cap] bytes in memory. *)
Fixpoint read_capped_with (broken too_long : AppError) (cap : Z) (buf : list Byte.byte)
    (chunks : list (option (list Byte.byte))) : outcome (list Byte.byte) :=
  match chunks with
  | [] => Ok buf
  | None :: _ => Err broken
  | Some chunk :: chunks' =>
      if (cap <? Z.of_nat (length buf) + Z.of_nat (length chunk))%Z then Err too_long
      else read_capped_with broken too_long cap (buf ++ chunk) chunks'
  end.

(** What is read is the whole body, and never more than the cap. *)
Lemma read_capped_spec broken too_long cap buf chunks bs :
  (Z.of_nat (length buf) <= cap)%Z ->
  read_capped_with broken too_long cap buf chunks = Ok bs <->
  exists cs, chunks = Some <$> cs /\ bs = (buf ++ concat cs)%list /\ (Z.of_nat (length bs) <= cap)%Z.
Proof.
  revert buf. induction chunks as [|[c|] chunks IH]; intros buf Hb; cbn [read_capped_with].
  - split.
    + intros [= <-]. exists []. by rewrite app_nil_r.
    + intros ([|c cs] & Hc & -> & _); [|done]. by rewrite app_nil_r.
  - case_match eqn:Ec.
    + split; [done|]. intros ([|c' cs] & Hc & -> & Hl); [done|]. injection Hc as -> _. cbn [concat] in Hl.
      rewrite !length_app in Hl. apply Z.ltb_lt in Ec. lia.
    + apply Z.ltb_ge in Ec. rewrite IH by (rewrite length_app; lia). split.
      * intros (cs & -> & -> & Hl). exists (c :: cs). cbn [concat]. by rewrite app_assoc in *.
      * intros ([|c' cs] & Hc & -> & Hl); [done|]. injection Hc as -> ->. exists cs.
        cbn [concat] in *. by rewrite app_assoc in *.
  - split; [done|]. intros ([|c cs] & Hc & _); done.
Qed.

Section http.
Context `{Http}.

Definition send (url : string) (body : Value) : M HttpReply := fun w =>
  (w <|w_calls := S (w_calls w)|> <|w_sent := (w_sent w ++ [(url, body)])%list|>,
   Ok (http_post url body (w_calls w))).
End http.
