(* ===== verification/Demo.v ===== *)
(** A concrete instance of the third-party functions, with their laws, and the
    sample data the concrete runs share.  Nothing here models code: it shows
    that the hypotheses of the properties can be met. *)

From Stdlib Require Import ZArith Lia Ascii String Strings.Byte.
From S2P Require Import Prelude RustStr Errors Db Effects.

Local Open Scope string_scope.

(** Identifiers as binary numerals. *)
Fixpoint pos_to_string (p : positive) : string :=
  match p with
  | xH => "1"
  | xO p => String "0" (pos_to_string p)
  | xI p => String "1" (pos_to_string p)
  end.

Fixpoint pos_of_string (s : string) : option positive :=
  match s with
  | String "1" EmptyString => Some xH
  | String "0" s => xO <$> pos_of_string s
  | String "1" s => xI <$> pos_of_string s
  | _ => None
  end.

Lemma pos_to_string_cons p : exists c s, pos_to_string p = String c s.
Proof. destruct p; simpl; eauto. Qed.

Lemma pos_round_trip p : pos_of_string (pos_to_string p) = Some p.
Proof.
  induction p as [p IH|p IH|]; [| |done].
  - simpl. destruct (pos_to_string_cons p) as (c & s & E). rewrite E in *.
    by rewrite IH.
  - simpl. by rewrite IH.
Qed.

Definition demo_uuid_to_string (u : Uuid) : string :=
  match u with N0 => "0" | Npos p => pos_to_string p end.

Definition demo_uuid_parse (s : string) : option Uuid :=
  if String.eqb s "0" then Some 0%N else N.pos <$> pos_of_string s.

Lemma demo_uuid_round_trip u : demo_uuid_parse (demo_uuid_to_string u) = Some u.
Proof.
  destruct u as [|p]; [done|]. unfold demo_uuid_parse. simpl.
  destruct (String.eqb_spec (pos_to_string p) "0") as [E|_];
    [by destruct p as [[]|[]|]|].
  by rewrite pos_round_trip.
Qed.

(** A byte as two letters, its high and low halves. *)
Definition nibble (n : N) : ascii := ascii_of_N (97 + n).
Definition of_nibble (c : ascii) : N := (N_of_ascii c - 97)%N.

Fixpoint demo_hex_encode (bs : list byte) : string :=
  match bs with
  | [] => ""
  | b :: bs =>
      String (nibble (Byte.to_N b / 16))
        (String (nibble (Byte.to_N b mod 16)) (demo_hex_encode bs))
  end.

Fixpoint demo_hex_decode (s : string) : option (list byte) :=
  match s with
  | EmptyString => Some []
  | String a (String b s) =>
      match Byte.of_N (of_nibble a * 16 + of_nibble b), demo_hex_decode s with
      | Some x, Some xs => Some (x :: xs)
      | _, _ => None
      end
  | _ => None
  end.

Lemma demo_nibbles b :
  Byte.of_N (of_nibble (nibble (Byte.to_N b / 16)) * 16 +
             of_nibble (nibble (Byte.to_N b mod 16))) = Some b.
Proof. by destruct b. Qed.

Lemma demo_hex_round_trip bs : demo_hex_decode (demo_hex_encode bs) = Some bs.
Proof.
  induction bs as [|b bs IH]; [done|].
  cbn [demo_hex_encode demo_hex_decode]. by rewrite demo_nibbles, IH.
Qed.

Lemma demo_hex_len bs : len (demo_hex_encode bs) = 2 * length bs.
Proof.
  unfold len. induction bs as [|b bs IH]; [done|].
  cbn [demo_hex_encode String.length length]. rewrite IH. lia.
Qed.

(** A digest of the right length. *)
Definition demo_sha256 (bs : list byte) : list byte := take 32 (bs ++ replicate 32 x00).

#[export] Instance demo_ext : Ext | 1000 := {
  uuid_to_string := demo_uuid_to_string;
  uuid_parse_str := demo_uuid_parse;
  to_rfc3339 t := "t" ++ demo_uuid_to_string (Z.to_N t);
  hex_encode := demo_hex_encode;
  hex_decode := demo_hex_decode;
  sha256 := demo_sha256;
  sqlx_to_string _ := "database error";
}.

#[export] Instance demo_ext_laws : ExtLaws demo_ext.
Proof.
  split; simpl.
  - apply demo_uuid_round_trip.
  - apply demo_hex_round_trip.
  - apply demo_hex_len.
  - intros bs. unfold demo_sha256. rewrite length_take, length_app, length_replicate. lia.
Qed.

(** A world in which no other task runs. *)
Definition quiet_world (d : Db) (now : Time) : World :=
  mkWorld d now 0 [] 0 (fun n => N.of_nat (100 + n)) [].
