(* ===== verification/TipStatus.v ===== *)
(** [src/models/tip_status.rs]: the status of a tip, its wire form, and the
    confirmation thresholds. *)

From Stdlib Require Import ZArith Ascii String.
From S2P Require Import Prelude RustStr.

Local Open Scope string_scope.

Inductive TipStatus :=
| Draft
| PendingConfirmation
| Pending
| Claiming
| Claimed
| ClawedBack
| Cancelled
| FundingMismatch.

#[export] Instance TipStatus_eq_dec : EqDecision TipStatus.
Proof. solve_decision. Defined.

Definition as_str (s : TipStatus) : string :=
  match s with
  | Draft => "draft"
  | PendingConfirmation => "pending_confirmation"
  | Pending => "pending"
  | Claiming => "claiming"
  | Claimed => "claimed"
  | ClawedBack => "clawed_back"
  | Cancelled => "cancelled"
  | FundingMismatch => "funding_mismatch"
  end.

Definition from_db (s : string) : option TipStatus :=
  if s =? "draft" then Some Draft
  else if s =? "pending_confirmation" then Some PendingConfirmation
  else if s =? "pending" then Some Pending
  else if s =? "claiming" then Some Claiming
  else if s =? "claimed" then Some Claimed
  else if s =? "clawed_back" then Some ClawedBack
  else if s =? "cancelled" then Some Cancelled
  else if s =? "funding_mismatch" then Some FundingMismatch
  else None.

Definition is_terminal (s : TipStatus) : bool :=
  match s with
  | Claimed | ClawedBack | Cancelled => true
  | _ => false
  end.

Definition confirmations_for_asset (asset : string) : i32 :=
  if asset =? "xmr" then 10%Z
  else if asset =? "grin" then 10%Z
  else if asset =? "wow" then 4%Z
  else 0%Z.

Definition all_statuses : list TipStatus :=
  [Draft; PendingConfirmation; Pending; Claiming; Claimed; ClawedBack;
   Cancelled; FundingMismatch].

Lemma from_db_as_str s : from_db (as_str s) = Some s.
Proof. by destruct s. Qed.

Lemma from_db_Some str s : from_db str = Some s <-> str = as_str s.
Proof.
  split; [|intros ->; apply from_db_as_str].
  unfold from_db. intros H.
  repeat (case_hyp H; [apply String.eqb_eq in E; naive_solver|clear E]).
  done.
Qed.

Lemma as_str_inj s1 s2 : as_str s1 = as_str s2 -> s1 = s2.
Proof. by destruct s1, s2. Qed.
