(* ===== verification/SocialTips.v ===== *)
(** [src/infra/db/social_tips.rs]: the statements on [social_tips] and the
    [Database] methods that issue them.

    An [UPDATE] is given by its [WHERE] clause and its [SET] clause; the
    [BEFORE UPDATE] trigger and the table's constraints (the two
    [social_tips] migrations) are part of running it. *)

From Stdlib Require Import ZArith Lia Ascii String.
From S2P Require Import Prelude RustStr Errors Db Effects TipStatus.

Local Open Scope string_scope.

(** * The table's constraints *)

Definition opt_ok {A} (p : A -> bool) (o : option A) : bool :=
  match o with Some a => p a | None => true end.

Definition varchar (n : nat) (s : string) : bool := (char_count s <=? n)%nat.

Definition is_user (d : Db) (u : Uuid) : bool := is_some (users d !! u).

(** Each constraint of the table with the error its violation raises, in the
    order Postgres checks them: column widths, then CHECKs, then foreign
    keys. *)
Definition tip_constraints (d : Db) (r : SocialTipRow) : list (bool * PgError) :=
  [ (varchar 8 (asset r), PgStringTruncation "asset");
    (opt_ok (varchar 64) (claim_key_hash r), PgStringTruncation "claim_key_hash");
    (opt_ok (varchar 255) (tip_address r), PgStringTruncation "tip_address");
    (opt_ok (varchar 128) (funding_txid r), PgStringTruncation "funding_txid");
    (varchar 32 (status r), PgStringTruncation "status");
    (opt_ok (varchar 128) (sweep_txid r), PgStringTruncation "sweep_txid");
    (opt_ok (varchar 64) (tip_view_key r), PgStringTruncation "tip_view_key");
    (opt_ok (varchar 66) (grin_commitment r), PgStringTruncation "grin_commitment");
    (is_some (from_db (status r)), PgCheckViolation "social_tips_status_check");
    (negb (is_public r) || is_some (claim_key_hash r),
     PgCheckViolation "public_tip_has_hash");
    (is_public r || is_some (recipient_user_id r),
     PgCheckViolation "targeted_tip_has_recipient");
    (is_public r || is_some (encrypted_key r),
     PgCheckViolation "targeted_tip_has_encrypted_key");
    (is_user d (sender_user_id r),
     PgForeignKeyViolation "social_tips_sender_user_id_fkey");
    (opt_ok (is_user d) (claimed_by_user_id r),
     PgForeignKeyViolation "social_tips_claimed_by_user_id_fkey");
    (opt_ok (is_user d) (recipient_user_id r),
     PgForeignKeyViolation "social_tips_recipient_user_id_fkey") ].

Definition first_violation (cs : list (bool * PgError)) : option PgError :=
  match filter (fun c => fst c = false) cs with
  | [] => None
  | c :: _ => Some (snd c)
  end.

Definition tip_violation (d : Db) (r : SocialTipRow) : option PgError :=
  first_violation (tip_constraints d r).

(** * Generic statements *)

(** The [social_tips_touch_updated_at] trigger. *)
Definition touch_updated_at (now : Time) (r : SocialTipRow) : SocialTipRow :=
  r <|updated_at := now|>.

(** [UPDATE social_tips SET .. WHERE id = $1 AND .. RETURNING ..]. *)
Definition update_tip (tip_id : Uuid) (where_ : Time -> SocialTipRow -> bool)
    (set_ : Time -> SocialTipRow -> SocialTipRow) : Stmt (option SocialTipRow) :=
  fun now d =>
    match social_tips d !! tip_id with
    | Some r =>
        if where_ now r then
          let r' := touch_updated_at now (set_ now r) in
          match tip_violation d r' with
          | Some e => inl e
          | None => inr (d <|social_tips := <[tip_id := r']> (social_tips d)|>, Some r')
          end
        else inr (d, None)
    | None => inr (d, None)
    end.

(** The order of a [SELECT]: by a nullable timestamp, NULLS LAST, ties broken
    by id (Postgres leaves ties unordered; one order is chosen here). *)
Definition sort_key (key : SocialTipRow -> option Z) (r : SocialTipRow) : Z * Z * N :=
  match key r with
  | Some t => (0, t, id r)
  | None => (1, 0, id r)
  end%Z.

Definition key_le (a b : Z * Z * N) : Prop :=
  let '(a1, a2, a3) := a in let '(b1, b2, b3) := b in
  (a1 < b1 \/ (a1 = b1 /\ (a2 < b2 \/ (a2 = b2 /\ (Z.of_N a3 <= Z.of_N b3)))))%Z.

Definition row_le (key : SocialTipRow -> option Z) (a b : SocialTipRow) : Prop :=
  key_le (sort_key key a) (sort_key key b).

#[export] Instance key_le_dec a b : Decision (key_le a b).
Proof. destruct a as [[??]?], b as [[??]?]. unfold key_le. apply _. Defined.

#[export] Instance row_le_dec key a b : Decision (row_le key a b).
Proof. unfold row_le. apply _. Defined.

Definition tip_rows (d : Db) : list SocialTipRow := snd <$> map_to_list (social_tips d).

(** [SELECT .. FROM social_tips WHERE .. ORDER BY key]. *)
Definition select_tips (where_ : Time -> SocialTipRow -> bool)
    (key : SocialTipRow -> option Z) : Stmt (list SocialTipRow) :=
  fun now d =>
    inr (d, merge_sort (row_le key)
              (filter (fun r => where_ now r = true) (tip_rows d))).

(** The same with [LIMIT n]. *)
Definition select_tips_limit (where_ : Time -> SocialTipRow -> bool)
    (key : SocialTipRow -> option Z) (n : i64) : Stmt (list SocialTipRow) :=
  fun now d =>
    match select_tips where_ key now d with
    | inr (d', rows) => inr (d', take (Z.to_nat n) rows)
    | inl e => inl e
    end.

Definition by_created_asc (r : SocialTipRow) : option Z := Some (created_at r).
Definition by_created_desc (r : SocialTipRow) : option Z := Some (- created_at r)%Z.

(** [status IN (..)]. *)
Definition status_in (names : list string) (r : SocialTipRow) : bool :=
  existsb (String.eqb (status r)) names.

(** [last_confirmation_check IS NULL OR last_confirmation_check < NOW() -
    INTERVAL '30 seconds']. *)
Definition check_is_stale (now : Time) (r : SocialTipRow) : bool :=
  is_none (last_confirmation_check r)
  || sql_lt (last_confirmation_check r) (now - 30 * SECOND)%Z.

(** * Reading and creating *)

Definition sql_get_social_tip (tip_id : Uuid) : Stmt (option SocialTipRow) :=
  fun _ d => inr (d, social_tips d !! tip_id).

Record NewSocialTip := mkNewSocialTip {
  n_sender_user_id : Uuid;
  n_asset : string;
  n_amount : i64;
  n_claim_key_hash : option string;
  n_encrypted_key : option (list Byte.byte);
  n_tip_address : option string;
  n_funding_txid : option string;
  n_tip_view_key : option string;
  n_confirmations_required : i32;
  n_grin_commitment : option string;
  n_recipient_user_id : option Uuid;
}.

(** The row an [INSERT] builds: the values of the statement, the column
    defaults for the rest. *)
Definition new_tip_row (new_id : Uuid) (new : NewSocialTip) (st : TipStatus)
    (now : Time) : SocialTipRow :=
  {| id := new_id;
     sender_user_id := n_sender_user_id new;
     asset := n_asset new;
     amount := n_amount new;
     is_public := is_none (n_recipient_user_id new);
     claim_key_hash := n_claim_key_hash new;
     encrypted_key := n_encrypted_key new;
     tip_address := n_tip_address new;
     funding_txid := n_funding_txid new;
     status := as_str st;
     funding_confirmations := 0;
     funding_confirmed_at := None;
     last_confirmation_check := None;
     confirmations_required := n_confirmations_required new;
     funding_amount_verified := false;
     funding_amount_observed := None;
     funding_amount_verified_at := None;
     claimed_at := None;
     claimed_by_user_id := None;
     clawed_back_at := None;
     sweep_txid := None;
     sweep_confirmed_at := None;
     sweep_block_height := None;
     sweep_block_hash := None;
     sweep_confirmed_dm_sent_at := None;
     reorg_notified_at := None;
     tip_view_key := n_tip_view_key new;
     lws_registered_at := None;
     lws_deactivated_at := None;
     created_at := now;
     updated_at := now;
     grin_commitment := n_grin_commitment new;
     recipient_user_id := n_recipient_user_id new |}.

Definition sql_insert_social_tip (new_id : Uuid) (new : NewSocialTip)
    (st : TipStatus) : Stmt SocialTipRow :=
  fun now d =>
    match social_tips d !! new_id with
    | Some _ => inl (PgUniqueViolation "social_tips_pkey")
    | None =>
        let r := new_tip_row new_id new st now in
        match tip_violation d r with
        | Some e => inl e
        | None => inr (d <|social_tips := <[new_id := r]> (social_tips d)|>, r)
        end
    end.

Definition sent_where (u : Uuid) (_ : Time) (r : SocialTipRow) : bool :=
  bool_decide (sender_user_id r = u).
Definition received_where (u : Uuid) (_ : Time) (r : SocialTipRow) : bool :=
  sql_eq (recipient_user_id r) u.

Definition claimable_where (u : Uuid) (_ : Time) (r : SocialTipRow) : bool :=
  sql_eq (recipient_user_id r) u
  && status_in ["pending"; "claiming"] r
  && (confirmations_required r <=? funding_confirmations r)%Z
  && funding_amount_verified r
  && is_none (sweep_confirmed_at r).

Definition cancel_draft_where (u : Uuid) (_ : Time) (r : SocialTipRow) : bool :=
  bool_decide (sender_user_id r = u) && status_in ["draft"] r.
Definition cancel_draft_set (_ : Time) (r : SocialTipRow) : SocialTipRow :=
  r <|status := "cancelled"|>.

Definition sql_cancel_draft_social_tip (tip_id u : Uuid) :=
  update_tip tip_id (cancel_draft_where u) cancel_draft_set.

(** * Money in: attaching funding, confirmations, amount verification *)

Definition attachable (r : SocialTipRow) : bool :=
  status_in ["draft"] r && is_none (funding_txid r).

Definition attach_funding_where (u : Uuid) (tx : string) (_ : Time)
    (r : SocialTipRow) : bool :=
  bool_decide (sender_user_id r = u)
  && (attachable r || sql_eq (funding_txid r) tx).

Definition attach_funding_set (tx : string) (now : Time) (r : SocialTipRow)
  : SocialTipRow :=
  r <|funding_txid := coalesce (funding_txid r) tx|>
    <|status := if attachable r then as_str PendingConfirmation else status r|>
    <|updated_at := if attachable r then now else updated_at r|>.

Definition sql_attach_funding (tip_id u : Uuid) (tx : string) :=
  update_tip tip_id (attach_funding_where u tx) (attach_funding_set tx).

(** The follow-up [SELECT .. WHERE id = $1 AND sender_user_id = $2]. *)
Definition sql_get_own_tip (tip_id u : Uuid) : Stmt (option SocialTipRow) :=
  fun _ d =>
    inr (d, match social_tips d !! tip_id with
            | Some r => if bool_decide (sender_user_id r = u) then Some r else None
            | None => None
            end).

Definition pending_confirmation_where (a : string) (now : Time)
    (r : SocialTipRow) : bool :=
  status_in ["pending"; "pending_confirmation"] r
  && (asset r =? a)
  && (0 <? confirmations_required r)%Z
  && (funding_confirmations r <? confirmations_required r)%Z
  && is_some (funding_txid r)
  && check_is_stale now r.

Definition update_confirmations_set (n : i32) (now : Time) (r : SocialTipRow)
  : SocialTipRow :=
  r <|funding_confirmations := n|>
    <|last_confirmation_check := Some now|>
    <|funding_confirmed_at :=
        if (confirmations_required r <=? n)%Z && is_none (funding_confirmed_at r)
        then Some now else funding_confirmed_at r|>
    <|updated_at := now|>.

Definition anywhere (_ : Time) (_ : SocialTipRow) : bool := true.

Definition sql_update_tip_confirmations (tip_id : Uuid) (n : i32) :=
  update_tip tip_id anywhere (update_confirmations_set n).

Definition touch_last_check_set (now : Time) (r : SocialTipRow) : SocialTipRow :=
  r <|last_confirmation_check := Some now|>.

Definition sql_touch_tip_last_check (tip_id : Uuid) :=
  update_tip tip_id anywhere touch_last_check_set.

Definition awaiting_verification_where (now : Time) (r : SocialTipRow) : bool :=
  status_in ["pending_confirmation"] r
  && negb (funding_amount_verified r)
  && (confirmations_required r <=? funding_confirmations r)%Z
  && check_is_stale now r.

Definition unverified_where (_ : Time) (r : SocialTipRow) : bool :=
  status_in ["pending_confirmation"] r && negb (funding_amount_verified r).

Definition mark_verified_set (observed : i64) (now : Time) (r : SocialTipRow)
  : SocialTipRow :=
  r <|status := "pending"|>
    <|funding_amount_verified := true|>
    <|funding_amount_observed := Some observed|>
    <|funding_amount_verified_at := Some now|>
    <|updated_at := now|>.

Definition sql_mark_tip_funding_verified (tip_id : Uuid) (observed : i64) :=
  update_tip tip_id unverified_where (mark_verified_set observed).

Definition mark_mismatch_set (observed : i64) (now : Time) (r : SocialTipRow)
  : SocialTipRow :=
  r <|status := "funding_mismatch"|>
    <|funding_amount_verified := true|>
    <|funding_amount_observed := Some observed|>
    <|funding_amount_verified_at := Some now|>
    <|updated_at := now|>.

Definition sql_mark_tip_funding_mismatch (tip_id : Uuid) (observed : i64) :=
  update_tip tip_id unverified_where (mark_mismatch_set observed).

(** * Money out: claim, sweep, clawback, settlement, reorg *)

Definition mark_claiming_where (u : Uuid) (_ : Time) (r : SocialTipRow) : bool :=
  status_in ["pending"; "claiming"] r
  && (confirmations_required r <=? funding_confirmations r)%Z
  && funding_amount_verified r
  && is_none (sweep_confirmed_at r)
  && (is_public r || sql_eq (recipient_user_id r) u).

Definition mark_claiming_set (u : Uuid) (now : Time) (r : SocialTipRow)
  : SocialTipRow :=
  r <|status := "claiming"|>
    <|claimed_at := Some now|>
    <|claimed_by_user_id := Some u|>
    <|updated_at := now|>.

Definition sql_mark_tip_claiming (tip_id u : Uuid) :=
  update_tip tip_id (mark_claiming_where u) (mark_claiming_set u).

Definition record_sweep_where (tx : string) (_ : Time) (r : SocialTipRow) : bool :=
  status_in ["claiming"] r
  && is_none (sweep_confirmed_at r)
  && is_public r
  && (is_none (sweep_txid r) || sql_eq (sweep_txid r) tx).

Definition record_sweep_set (u : Uuid) (tx : string) (now : Time)
    (r : SocialTipRow) : SocialTipRow :=
  r <|sweep_txid := coalesce (sweep_txid r) tx|>
    <|claimed_by_user_id := coalesce (claimed_by_user_id r) u|>
    <|claimed_at := coalesce (claimed_at r) now|>
    <|updated_at := now|>.

Definition sql_record_sweep (tip_id u : Uuid) (tx : string) :=
  update_tip tip_id (record_sweep_where tx) (record_sweep_set u tx).

(** [SELECT .. WHERE id = $1 AND status IN ('claiming', 'claimed')]. *)
Definition sql_get_claimed_or_claiming (tip_id : Uuid)
  : Stmt (option SocialTipRow) :=
  fun _ d =>
    inr (d, match social_tips d !! tip_id with
            | Some r => if status_in ["claiming"; "claimed"] r then Some r else None
            | None => None
            end).

Definition clawback_where (u : Uuid) (_ : Time) (r : SocialTipRow) : bool :=
  bool_decide (sender_user_id r = u)
  && status_in ["pending"; "pending_confirmation"; "claiming";
                "funding_mismatch"; "cancelled"] r
  && is_none (sweep_confirmed_at r).

Definition clawback_set (now : Time) (r : SocialTipRow) : SocialTipRow :=
  r <|status := "clawed_back"|>
    <|clawed_back_at := Some now|>
    <|updated_at := now|>.

Definition sql_clawback_social_tip (tip_id u : Uuid) :=
  update_tip tip_id (clawback_where u) clawback_set.

Definition unsettled_where (_ : Time) (r : SocialTipRow) : bool :=
  status_in ["claiming"] r && is_none (sweep_confirmed_at r).

Definition settle_set (winner_txid : string) (height : i32)
    (hash : option string) (claimed_by : option Uuid) (now : Time)
    (r : SocialTipRow) : SocialTipRow :=
  r <|status := "claimed"|>
    <|sweep_confirmed_at := Some now|>
    <|sweep_txid := Some winner_txid|>
    <|sweep_block_height := Some height|>
    <|sweep_block_hash := hash|>
    <|claimed_by_user_id :=
        match claimed_by with Some u => Some u | None => claimed_by_user_id r end|>
    <|updated_at := now|>.

Definition sql_confirm_sweep_onchain (tip_id : Uuid) (winner_txid : string)
    (height : i32) (hash : option string) (claimed_by : option Uuid) :=
  update_tip tip_id unsettled_where (settle_set winner_txid height hash claimed_by).

Definition settle_clear_set (winner_txid : string) (height : i32)
    (hash : option string) (now : Time) (r : SocialTipRow) : SocialTipRow :=
  r <|status := "claimed"|>
    <|sweep_confirmed_at := Some now|>
    <|sweep_txid := Some winner_txid|>
    <|sweep_block_height := Some height|>
    <|sweep_block_hash := hash|>
    <|claimed_by_user_id := None|>
    <|updated_at := now|>.

Definition sql_clear_claimed_by_on_settle (tip_id : Uuid) (winner_txid : string)
    (height : i32) (hash : option string) :=
  update_tip tip_id unsettled_where (settle_clear_set winner_txid height hash).

Definition settled_where (_ : Time) (r : SocialTipRow) : bool :=
  status_in ["claimed"] r && is_some (sweep_confirmed_at r).

Definition revert_set (now : Time) (r : SocialTipRow) : SocialTipRow :=
  r <|status := "claiming"|>
    <|sweep_confirmed_at := None|>
    <|sweep_block_height := None|>
    <|sweep_block_hash := None|>
    <|sweep_confirmed_dm_sent_at := None|>
    <|updated_at := now|>.

Definition sql_revert_sweep_on_reorg (tip_id : Uuid) :=
  update_tip tip_id settled_where revert_set.

Definition awaiting_sweep_where (now : Time) (r : SocialTipRow) : bool :=
  status_in ["claiming"] r
  && is_none (sweep_confirmed_at r)
  && funding_amount_verified r
  && check_is_stale now r.

Definition reorg_check_where (now : Time) (r : SocialTipRow) : bool :=
  status_in ["claimed"] r
  && is_some (sweep_confirmed_at r)
  && is_some (sweep_block_height r)
  && check_is_stale now r.

Definition dm_unsent_where (_ : Time) (r : SocialTipRow) : bool :=
  is_none (sweep_confirmed_dm_sent_at r).
Definition dm_sent_set (now : Time) (r : SocialTipRow) : SocialTipRow :=
  r <|sweep_confirmed_dm_sent_at := Some now|> <|updated_at := now|>.

Definition sql_stamp_sweep_confirmed_dm_sent (tip_id : Uuid) :=
  update_tip tip_id dm_unsent_where dm_sent_set.

Definition reorg_unnotified_where (_ : Time) (r : SocialTipRow) : bool :=
  is_none (reorg_notified_at r).
Definition reorg_notified_set (now : Time) (r : SocialTipRow) : SocialTipRow :=
  r <|reorg_notified_at := Some now|> <|updated_at := now|>.

Definition sql_stamp_reorg_notified (tip_id : Uuid) :=
  update_tip tip_id reorg_unnotified_where reorg_notified_set.

(** * Garbage collection *)

Record GcCancelledTip := mkGcCancelledTip {
  gc_id : Uuid;
  gc_asset : string;
  gc_tip_address : option string;
  gc_funding_txid : option string;
  gc_created_at : Time;
}.

Record StuckClaimingTip := mkStuckClaimingTip {
  sc_id : Uuid;
  sc_asset : string;
  sc_tip_address : option string;
  sc_claimed_by_user_id : option Uuid;
  sc_claimed_at : option Time;
}.

Definition gc_row (r : SocialTipRow) : GcCancelledTip :=
  mkGcCancelledTip (id r) (asset r) (tip_address r) (funding_txid r) (created_at r).

Definition stuck_row (r : SocialTipRow) : StuckClaimingTip :=
  mkStuckClaimingTip (id r) (asset r) (tip_address r) (claimed_by_user_id r)
    (claimed_at r).

(** [UPDATE social_tips SET .. WHERE .. RETURNING ..] over every row. *)
Definition update_all_tips (where_ : Time -> SocialTipRow -> bool)
    (set_ : Time -> SocialTipRow -> SocialTipRow) : Stmt (list SocialTipRow) :=
  fun now d =>
    let write r := touch_updated_at now (set_ now r) in
    let hit := filter (fun r => where_ now r = true) (tip_rows d) in
    match omap (tip_violation d) (write <$> hit) with
    | e :: _ => inl e
    | [] =>
        inr (d <|social_tips :=
                   (fun r => if where_ now r then write r else r) <$> social_tips d|>,
             write <$> hit)
    end.

Definition old_draft_where (now : Time) (r : SocialTipRow) : bool :=
  status_in ["draft"] r && (created_at r <? now - 7 * DAY)%Z.

Definition stuck_pending_where (now : Time) (r : SocialTipRow) : bool :=
  status_in ["pending_confirmation"] r && (created_at r <? now - 7 * DAY)%Z.

Definition gc_cancel_set (now : Time) (r : SocialTipRow) : SocialTipRow :=
  r <|status := "cancelled"|> <|updated_at := now|>.

Definition sql_cancel_old_drafts : Stmt (list SocialTipRow) :=
  update_all_tips old_draft_where gc_cancel_set.

Definition sql_cancel_stuck_pending : Stmt (list SocialTipRow) :=
  update_all_tips stuck_pending_where gc_cancel_set.

Definition stuck_claiming_where (now : Time) (r : SocialTipRow) : bool :=
  status_in ["claiming"] r
  && is_none (sweep_confirmed_at r)
  && sql_lt (claimed_at r) (now - 15 * MINUTE)%Z.

(** * Deleting a user

    [DELETE FROM users WHERE id = $1]: the tips the user sent go with it (ON
    DELETE CASCADE); the other links to it are set to NULL, which is an update
    of the row, trigger and CHECKs included. *)

Definition unlink_user (u : Uuid) (r : SocialTipRow) : SocialTipRow :=
  r <|claimed_by_user_id :=
        if sql_eq (claimed_by_user_id r) u then None else claimed_by_user_id r|>
    <|recipient_user_id :=
        if sql_eq (recipient_user_id r) u then None else recipient_user_id r|>.

Definition mentions_user (u : Uuid) (r : SocialTipRow) : bool :=
  sql_eq (claimed_by_user_id r) u || sql_eq (recipient_user_id r) u.

Definition delete_user_row (u : Uuid) (now : Time) (r : SocialTipRow)
  : option SocialTipRow :=
  if bool_decide (sender_user_id r = u) then None
  else if mentions_user u r then Some (touch_updated_at now (unlink_user u r))
  else Some r.

Definition sql_delete_user (u : Uuid) : Stmt unit :=
  fun now d =>
    let d' := d <|users := delete u (users d)|> in
    let tips := omap (delete_user_row u now) (social_tips d) in
    match omap (tip_violation d') (snd <$> map_to_list tips) with
    | e :: _ => inl e
    | [] =>
        inr (d' <|social_tips := tips|>
                <|sessions := filter (fun kv => s_user_id (snd kv) <> u) (sessions d)|>
                <|grin_slatepacks :=
                    (fun g => if sql_eq (g_recipient_user_id g) u
                              then g <|g_recipient_user_id := None|> else g)
                    <$> filter (fun kv => g_sender_user_id (snd kv) <> u)
                          (grin_slatepacks d)|>
                <|premium_invoices :=
                    filter (fun kv => pr_user_id (snd kv) <> u) (premium_invoices d)|>
                <|user_keys := filter (fun kv => uk_user_id (snd kv) <> u) (user_keys d)|>
                <|invite_codes :=
                    (fun c => if sql_eq (ic_used_by c) u then c <|ic_used_by := None|> else c)
                    <$> invite_codes d|>
                <|login_events :=
                    (fun e => if sql_eq (le_user_id e) u then e <|le_user_id := None|> else e)
                    <$> login_events d|>
                <|audit_logs :=
                    (fun a => if sql_eq (au_user_id a) u then a <|au_user_id := None|> else a)
                    <$> audit_logs d|>
                <|erasure_requests :=
                    (fun r => if sql_eq (er_user_id r) u then r <|er_user_id := None|> else r)
                    <$> erasure_requests d|>,
             tt)
    end.

(** * The [Database] methods *)

Section methods.
Context `{Ext}.

(** A query whose error is converted by [?]. *)
Definition query {R} (s : Stmt R) : M R := run_stmt app_error_from_sqlx s.

Definition get_social_tip (tip_id : Uuid) : M (option SocialTipRow) :=
  query (sql_get_social_tip tip_id).

Definition insert_social_tip (new : NewSocialTip) (st : TipStatus)
  : M SocialTipRow :=
  new_id ← gen_random_uuid;
  query (sql_insert_social_tip new_id new st).

Definition create_draft_social_tip (new : NewSocialTip) : M SocialTipRow :=
  insert_social_tip new Draft.

Definition create_social_tip (new : NewSocialTip) : M SocialTipRow :=
  insert_social_tip new PendingConfirmation.

Definition get_sent_social_tips (u : Uuid) : M (list SocialTipRow) :=
  query (select_tips (sent_where u) by_created_desc).

Definition get_received_social_tips (u : Uuid) : M (list SocialTipRow) :=
  query (select_tips (received_where u) by_created_desc).

Definition get_claimable_social_tips (u : Uuid) : M (list SocialTipRow) :=
  query (select_tips (claimable_where u) by_created_desc).

Definition cancel_draft_social_tip (tip_id u : Uuid) : M (option Uuid) :=
  r ← query (sql_cancel_draft_social_tip tip_id u);
  mret (id <$> r).

Definition attach_funding_to_tip (tip_id u : Uuid) (tx : string)
  : M SocialTipRow :=
  result ← query (sql_attach_funding tip_id u tx);
  match result with
  | Some tip => mret tip
  | None =>
      found ← query (sql_get_own_tip tip_id u);
      current ← lift (ok_or found
        (NotFound ("Tip " ++ uuid_to_string tip_id ++ " not found or not yours")));
      match funding_txid current with
      | Some existing =>
          if negb (existing =? tx) then
            fail (ValidationError ("Tip " ++ uuid_to_string tip_id ++
                    " already has a different funding_txid attached"))
          else mret current
      | None =>
          fail (ValidationError ("Tip " ++ uuid_to_string tip_id ++
                  " is in status " ++ status current ++
                  " — funding can only be attached to drafts"))
      end
  end.

Definition get_tips_pending_confirmation (a : string) : M (list SocialTipRow) :=
  query (select_tips_limit (pending_confirmation_where a) by_created_asc 50).

Definition update_tip_confirmations (tip_id : Uuid) (n : i32)
  : M (option SocialTipRow) :=
  query (sql_update_tip_confirmations tip_id n).

Definition touch_tip_last_check (tip_id : Uuid) : M unit :=
  _ ← query (sql_touch_tip_last_check tip_id);
  mret tt.

Definition get_tips_awaiting_amount_verification : M (list SocialTipRow) :=
  query (select_tips_limit awaiting_verification_where by_created_asc 50).

Definition mark_tip_funding_verified (tip_id : Uuid) (observed : i64)
  : M (option SocialTipRow) :=
  query (sql_mark_tip_funding_verified tip_id observed).

Definition mark_tip_funding_mismatch (tip_id : Uuid) (observed : i64)
  : M (option SocialTipRow) :=
  query (sql_mark_tip_funding_mismatch tip_id observed).

Definition mark_tip_claiming (tip_id u : Uuid) : M (option SocialTipRow) :=
  query (sql_mark_tip_claiming tip_id u).

Definition confirm_tip_sweep (tip_id u : Uuid) (tx : string)
  : M (option SocialTipRow) :=
  recorded ← query (sql_record_sweep tip_id u tx);
  match recorded with
  | Some tip => mret (Some tip)
  | None => query (sql_get_claimed_or_claiming tip_id)
  end.

Definition clawback_social_tip (tip_id u : Uuid) : M (option SocialTipRow) :=
  query (sql_clawback_social_tip tip_id u).

Definition confirm_sweep_onchain (tip_id : Uuid) (winner_txid : string)
    (height : i32) (hash : option string) (claimed_by : option Uuid)
  : M (option SocialTipRow) :=
  query (sql_confirm_sweep_onchain tip_id winner_txid height hash claimed_by).

Definition clear_claimed_by_on_settle (tip_id : Uuid) (winner_txid : string)
    (height : i32) (hash : option string) : M (option SocialTipRow) :=
  query (sql_clear_claimed_by_on_settle tip_id winner_txid height hash).

Definition revert_sweep_on_reorg (tip_id : Uuid) : M (option SocialTipRow) :=
  query (sql_revert_sweep_on_reorg tip_id).

Definition get_tips_awaiting_sweep_confirmation (n : i64)
  : M (list SocialTipRow) :=
  query (select_tips_limit awaiting_sweep_where claimed_at n).

Definition get_settled_tips_for_reorg_check (n : i64)
  : M (list SocialTipRow) :=
  query (select_tips_limit reorg_check_where sweep_confirmed_at n).

Definition stamp_sweep_confirmed_dm_sent (tip_id : Uuid) : M unit :=
  _ ← query (sql_stamp_sweep_confirmed_dm_sent tip_id);
  mret tt.

Definition stamp_reorg_notified (tip_id : Uuid) : M unit :=
  _ ← query (sql_stamp_reorg_notified tip_id);
  mret tt.

Definition cancel_old_drafts : M (list GcCancelledTip) :=
  rows ← query sql_cancel_old_drafts;
  mret (gc_row <$> rows).

Definition cancel_stuck_pending_confirmation : M (list GcCancelledTip) :=
  rows ← query sql_cancel_stuck_pending;
  mret (gc_row <$> rows).

Definition log_stuck_claiming : M (list StuckClaimingTip) :=
  rows ← query (select_tips stuck_claiming_where (fun _ => None));
  mret (stuck_row <$> rows).
End methods.
