(* ===== verification/TipLifecycle.v ===== *)
(** The lifecycle of a tip as a state machine: the steps the whole system can
    take on [social_tips], the well-formedness of a row they all preserve, and
    the edges of the status graph.

    The step relation has one constructor per kind of statement of
    [SocialTips], so an interleaving of the handlers, the workers, the janitors
    and the account deletion is a sequence of its steps.  [amt] gives each tip
    id the amount it is created with: a UUID is never reused for another
    tip. *)

From Stdlib Require Import ZArith Lia Ascii String.
From S2P Require Import Prelude RustStr Errors Db Effects TipStatus SocialTips.

Local Open Scope string_scope.

(** * Steps *)

(** The [UPDATE]s of the source on the tip [k], by their clauses.  The two
    verdicts of the amount verifier carry what it has observed. *)
Inductive tip_statement (amt : Uuid -> Z) (k : Uuid)
  : (Time -> SocialTipRow -> bool) -> (Time -> SocialTipRow -> SocialTipRow) -> Prop :=
| st_cancel_draft u : tip_statement amt k (cancel_draft_where u) cancel_draft_set
| st_attach u tx :
    tip_statement amt k (attach_funding_where u tx) (attach_funding_set tx)
| st_confirmations n : tip_statement amt k anywhere (update_confirmations_set n)
| st_touch : tip_statement amt k anywhere touch_last_check_set
| st_verified o :
    (amt k <= o)%Z -> tip_statement amt k unverified_where (mark_verified_set o)
| st_mismatch o :
    (0 < o < amt k)%Z ->
    tip_statement amt k unverified_where (mark_mismatch_set o)
| st_claim u : tip_statement amt k (mark_claiming_where u) (mark_claiming_set u)
| st_record u tx :
    tip_statement amt k (record_sweep_where tx) (record_sweep_set u tx)
| st_clawback u : tip_statement amt k (clawback_where u) clawback_set
| st_settle tx h hash :   (* the reconciler never names a claimer *)
    tip_statement amt k unsettled_where (settle_set tx h hash None)
| st_settle_clear tx h hash :
    tip_statement amt k unsettled_where (settle_clear_set tx h hash)
| st_revert : tip_statement amt k settled_where revert_set
| st_dm : tip_statement amt k dm_unsent_where dm_sent_set
| st_reorg_notified : tip_statement amt k reorg_unnotified_where reorg_notified_set
| st_gc_draft : tip_statement amt k old_draft_where gc_cancel_set
| st_gc_pending : tip_statement amt k stuck_pending_where gc_cancel_set.

(** What [insert_social_tip] is called with. *)
Definition insertable (amt : Uuid -> Z) (k : Uuid) (new : NewSocialTip)
    (st : TipStatus) : Prop :=
  n_amount new = amt k /\ (0 < amt k)%Z /\
  ((st = Draft /\ n_funding_txid new = None) \/
   (st = PendingConfirmation /\ is_Some (n_funding_txid new))).

Inductive tip_step (amt : Uuid -> Z) : Rel :=
| step_update k wh set_ t d d' ro :
    tip_statement amt k wh set_ ->
    update_tip k wh set_ t d = inr (d', ro) -> tip_step amt t d d'
| step_update_all wh set_ t d d' rows :
    (forall k, tip_statement amt k wh set_) ->
    update_all_tips wh set_ t d = inr (d', rows) -> tip_step amt t d d'
| step_insert k new st t d d' r :
    insertable amt k new st ->
    sql_insert_social_tip k new st t d = inr (d', r) -> tip_step amt t d d'
| step_delete_user u t d d' :
    sql_delete_user u t d = inr (d', tt) -> tip_step amt t d d'
| step_other t d d' :   (* a statement of another component *)
    social_tips d' = social_tips d ->
    (forall u, is_user d u = true -> is_user d' u = true) ->
    tip_step amt t d d'.

(** * What a step does to one row *)

(** The row [r] of tip [k] rewritten by a statement of the source, or by the
    unlinking of a deleted user; the trigger has run and no constraint is
    violated. *)
Inductive row_edit (amt : Uuid -> Z) (d : Db) (t : Time) (k : Uuid)
    (r : SocialTipRow) : SocialTipRow -> Prop :=
| re_statement wh set_ :
    tip_statement amt k wh set_ -> wh t r = true ->
    tip_violation d (touch_updated_at t (set_ t r)) = None ->
    row_edit amt d t k r (touch_updated_at t (set_ t r))
| re_unlink u :
    sender_user_id r <> u -> mentions_user u r = true ->
    tip_violation d (touch_updated_at t (unlink_user u r)) = None ->
    row_edit amt d t k r (touch_updated_at t (unlink_user u r)).

Inductive row_change (amt : Uuid -> Z) (d' : Db) (t : Time) (k : Uuid)
  : option SocialTipRow -> option SocialTipRow -> Prop :=
| rc_same o : row_change amt d' t k o o
| rc_edit r r' : row_edit amt d' t k r r' -> row_change amt d' t k (Some r) (Some r')
| rc_insert new st :
    insertable amt k new st ->
    tip_violation d' (new_tip_row k new st t) = None ->
    row_change amt d' t k None (Some (new_tip_row k new st t))
| rc_delete r : row_change amt d' t k (Some r) None.

Lemma update_tip_inv k wh set_ t d d' ro :
  update_tip k wh set_ t d = inr (d', ro) ->
  (ro = None /\ d' = d /\
   forall r, social_tips d !! k = Some r -> wh t r = false) \/
  exists r, social_tips d !! k = Some r /\ wh t r = true /\
    ro = Some (touch_updated_at t (set_ t r)) /\
    tip_violation d (touch_updated_at t (set_ t r)) = None /\
    d' = d <|social_tips :=
              <[k := touch_updated_at t (set_ t r)]> (social_tips d)|>.
Proof.
  unfold update_tip. intros H.
  destruct (social_tips d !! k) as [r|] eqn:Er; [|left; naive_solver].
  destruct (wh t r) eqn:Ew; [|left; naive_solver].
  destruct (tip_violation _ _) eqn:Ev; [done|]. right. naive_solver.
Qed.

Lemma tip_violation_users d d' r :
  users d' = users d -> tip_violation d' r = tip_violation d r.
Proof.
  intros H. unfold tip_violation, tip_constraints, is_user. by rewrite H.
Qed.

Lemma omap_nil_Forall {A B} (f : A -> option B) (l : list A) x :
  omap f l = [] -> x ∈ l -> f x = None.
Proof.
  induction l as [|y l IH]; simpl; intros Ho; [by intros ?%elem_of_nil|].
  destruct (f y) eqn:E; [done|]. intros [->|?]%elem_of_cons; [done|by apply IH].
Qed.

Lemma elem_of_tip_rows d r : r ∈ tip_rows d <-> exists k, social_tips d !! k = Some r.
Proof.
  unfold tip_rows. rewrite list_elem_of_fmap. split.
  - intros ([k r'] & -> & Hk). apply elem_of_map_to_list in Hk. eauto.
  - intros [k Hk]. exists (k, r). by rewrite elem_of_map_to_list.
Qed.

Lemma update_all_inv wh set_ t d d' rows :
  update_all_tips wh set_ t d = inr (d', rows) ->
  users d' = users d /\
  forall k, social_tips d' !! k =
    (fun r => if wh t r then touch_updated_at t (set_ t r) else r)
      <$> social_tips d !! k /\
  forall r, social_tips d !! k = Some r -> wh t r = true ->
    tip_violation d (touch_updated_at t (set_ t r)) = None.
Proof.
  unfold update_all_tips. intros H. case_hyp H; [|done].
  injection H as <- <-. split; [done|]. intros k. split.
  - simpl. by rewrite lookup_fmap.
  - intros r Hr Hw. eapply omap_nil_Forall; [exact E|].
    apply list_elem_of_fmap. exists r. split; [done|].
    apply list_elem_of_filter. split; [done|]. apply elem_of_tip_rows. eauto.
Qed.

Lemma delete_user_inv u t d d' :
  sql_delete_user u t d = inr (d', tt) ->
  users d' = delete u (users d) /\
  forall k, social_tips d' !! k = social_tips d !! k ≫= delete_user_row u t /\
  forall r, social_tips d' !! k = Some r -> tip_violation d' r = None.
Proof.
  unfold sql_delete_user. intros H. case_hyp H; [|done].
  injection H as <-. split; [done|]. intros k.
  set (dd := d <|users := delete u (users d)|>) in *.
  split; [simpl; by rewrite lookup_omap|]. simpl. intros r Hr.
  transitivity (tip_violation dd r); [by apply tip_violation_users|].
  eapply omap_nil_Forall; [exact E|]. apply list_elem_of_fmap. exists (k, r).
  split; [done|]. by apply elem_of_map_to_list.
Qed.

(** Every step of the system changes each row in one of the ways above. *)
Lemma tip_step_row amt t d d' k :
  tip_step amt t d d' ->
  row_change amt d' t k (social_tips d !! k) (social_tips d' !! k).
Proof.
  intros H. destruct H as
    [k' wh set_ t d d' ro Hst Hu|wh set_ t d d' rows Hst Hu
    |k' new st t d d' r Hins Hi|u t d d' Hdel|t d d' Hsame _].
  - apply update_tip_inv in Hu as [(_ & -> & _)|(r & Hr & Hw & _ & Hv & ->)];
      [constructor|].
    simpl. destruct (decide (k' = k)) as [->|Hne].
    + rewrite Hr, lookup_insert_eq. do 2 econstructor; eauto.
    + rewrite lookup_insert_ne by done. constructor.
  - apply update_all_inv in Hu as [Hus Hall]. destruct (Hall k) as [-> Hv].
    destruct (social_tips d !! k) as [r|] eqn:Hr; simpl; [|constructor].
    destruct (wh t r) eqn:Hw; [|constructor].
    do 2 econstructor; eauto. rewrite (tip_violation_users d d') by done. eauto.
  - unfold sql_insert_social_tip in Hi.
    destruct (social_tips d !! k') eqn:Hk'; [done|].
    destruct (tip_violation _ _) eqn:Hv; [done|]. injection Hi as <- <-. simpl.
    destruct (decide (k' = k)) as [->|Hne].
    + rewrite Hk', lookup_insert_eq. by constructor.
    + rewrite lookup_insert_ne by done. constructor.
  - apply delete_user_inv in Hdel as [_ Hall]. destruct (Hall k) as [E Hv].
    destruct (social_tips d !! k) as [r|] eqn:Hr; simpl in E;
      [|rewrite E; constructor].
    unfold delete_user_row in E. case_bool_decide as Hs; [rewrite E; constructor|].
    destruct (mentions_user u r) eqn:Hm; rewrite E; [|constructor].
    do 2 econstructor; eauto.
  - rewrite Hsame. constructor.
Qed.

(** * Reading the constraints *)

Lemma first_violation_None cs :
  first_violation cs = None <-> Forall (fun c => fst c = true) cs.
Proof.
  unfold first_violation. induction cs as [|c cs IH]; [by split|].
  rewrite filter_cons, Forall_cons. case_decide as Hc.
  - split; [done|]. intros [? _]. congruence.
  - rewrite IH. apply not_false_is_true in Hc. naive_solver.
Qed.

(** No violation, constraint by constraint. *)
Lemma tip_violation_iff d r :
  tip_violation d r = None <->
  varchar 8 (asset r) = true /\
  opt_ok (varchar 64) (claim_key_hash r) = true /\
  opt_ok (varchar 255) (tip_address r) = true /\
  opt_ok (varchar 128) (funding_txid r) = true /\
  varchar 32 (status r) = true /\
  opt_ok (varchar 128) (sweep_txid r) = true /\
  opt_ok (varchar 64) (tip_view_key r) = true /\
  opt_ok (varchar 66) (grin_commitment r) = true /\
  is_some (from_db (status r)) = true /\
  negb (is_public r) || is_some (claim_key_hash r) = true /\
  is_public r || is_some (recipient_user_id r) = true /\
  is_public r || is_some (encrypted_key r) = true /\
  is_user d (sender_user_id r) = true /\
  opt_ok (is_user d) (claimed_by_user_id r) = true /\
  opt_ok (is_user d) (recipient_user_id r) = true.
Proof.
  unfold tip_violation. rewrite first_violation_None. unfold tip_constraints.
  rewrite !Forall_cons, Forall_nil. simpl. tauto.
Qed.

(** The constraints the lifecycle relies on. *)
Lemma tip_violation_None d r :
  tip_violation d r = None ->
  is_Some (from_db (status r)) /\
  (is_public r = true -> is_Some (claim_key_hash r)) /\
  (is_public r = false ->
     is_Some (recipient_user_id r) /\ is_Some (encrypted_key r)) /\
  is_user d (sender_user_id r) = true /\
  opt_ok (is_user d) (claimed_by_user_id r) = true /\
  opt_ok (is_user d) (recipient_user_id r) = true.
Proof.
  rewrite tip_violation_iff.
  intros (_ & _ & _ & _ & _ & _ & _ & _ & H1 & H2 & H3 & H4 & H5 & H6 & H7).
  apply is_some_true in H1.
  split_and!; try done; intros Hp; rewrite Hp in *; simpl in *;
    repeat split; by apply is_some_true.
Qed.

Lemma status_in_true names r :
  status_in names r = true -> status r ∈ names.
Proof.
  unfold status_in. rewrite existsb_exists. intros (x & Hx & He).
  apply String.eqb_eq in He as ->. by apply list_elem_of_In.
Qed.

(** Turn the boolean clauses of a statement into facts on the row. *)
Ltac split_where :=
  unfold cancel_draft_where, attach_funding_where, attachable, anywhere,
    unverified_where, mark_claiming_where, record_sweep_where, clawback_where,
    unsettled_where, settled_where, dm_unsent_where, reorg_unnotified_where,
    old_draft_where, stuck_pending_where, sent_where, claimable_where in *;
  split_bools;
  repeat match goal with
  | H : status_in _ _ = true |- _ =>
      apply status_in_true in H;
      repeat (apply elem_of_cons in H as [H|H]); [..|by apply elem_of_nil in H]
  end.

(** * Well-formed rows *)

(** The verifier saw the whole declared amount. *)
Definition covered (amount : Z) (r : SocialTipRow) : Prop :=
  funding_amount_verified r = true /\
  exists o, funding_amount_observed r = Some o /\ (amount <= o)%Z.

(** The verifier saw some, but less than the declared amount. *)
Definition short (amount : Z) (r : SocialTipRow) : Prop :=
  funding_amount_verified r = true /\
  exists o, funding_amount_observed r = Some o /\ (0 < o < amount)%Z.

Definition status_inv (amount : Z) (st : TipStatus) (r : SocialTipRow) : Prop :=
  match st with
  | Draft => funding_txid r = None /\ funding_amount_verified r = false /\
             sweep_txid r = None
  | PendingConfirmation =>
      is_Some (funding_txid r) /\ funding_amount_verified r = false /\
      sweep_txid r = None
  | Pending => is_Some (funding_txid r) /\ covered amount r /\ sweep_txid r = None
  | Claiming => is_Some (funding_txid r) /\ covered amount r /\ is_Some (claimed_at r)
  | Claimed =>
      is_Some (funding_txid r) /\ covered amount r /\ is_Some (claimed_at r) /\
      is_Some (sweep_txid r) /\ is_Some (sweep_block_height r)
  | ClawedBack => True
  | Cancelled => funding_amount_verified r = false /\ sweep_txid r = None
  | FundingMismatch => is_Some (funding_txid r) /\ short amount r /\ sweep_txid r = None
  end.

(** A well-formed row of tip [k]: its status is legal and what the row records
    agrees with it; exactly the settled rows carry a confirmed sweep, exactly
    the clawed-back rows a clawback time; public means no recipient; the
    recorded claimer of a targeted tip is its recipient. *)
Record tip_wf (amt : Uuid -> Z) (k : Uuid) (r : SocialTipRow) : Prop := {
  wf_id : id r = k;
  wf_amount : amount r = amt k;
  wf_positive : (0 < amt k)%Z;
  wf_public : is_public r = true <-> recipient_user_id r = None;
  wf_confirmed : is_Some (sweep_confirmed_at r) <-> status r = "claimed";
  wf_clawed : is_Some (clawed_back_at r) <-> status r = "clawed_back";
  wf_claimer : is_public r = false -> forall u,
    claimed_by_user_id r = Some u -> recipient_user_id r = Some u;
  wf_status : exists st, status r = as_str st /\ status_inv (amt k) st r;
}.

Definition tips_wf (amt : Uuid -> Z) (d : Db) : Prop :=
  forall k r, social_tips d !! k = Some r -> tip_wf amt k r.

Lemma wf_status_is amt k r st :
  tip_wf amt k r -> status r = as_str st -> status_inv (amt k) st r.
Proof.
  intros [???????(st' & Hs & Hi)] Hst. rewrite Hst in Hs.
  by apply as_str_inj in Hs as ->.
Qed.

(** Project the invariant of the status the row is in. *)
Ltac use_status Hwf :=
  match goal with
  | H : status ?r = ?s |- _ =>
      let st := lazymatch s with
        | "draft" => Draft | "pending_confirmation" => PendingConfirmation
        | "pending" => Pending | "claiming" => Claiming | "claimed" => Claimed
        | "clawed_back" => ClawedBack | "cancelled" => Cancelled
        | "funding_mismatch" => FundingMismatch end in
      pose proof (wf_status_is _ _ _ st Hwf H); simpl in *
  end.

(** A statement that leaves the status and what it depends on alone. *)
Lemma tip_wf_frame amt k r r' :
  tip_wf amt k r ->
  id r' = id r -> amount r' = amount r -> is_public r' = is_public r ->
  (recipient_user_id r' = None <-> recipient_user_id r = None) ->
  status r' = status r ->
  sweep_confirmed_at r' = sweep_confirmed_at r ->
  clawed_back_at r' = clawed_back_at r ->
  funding_txid r' = funding_txid r ->
  funding_amount_verified r' = funding_amount_verified r ->
  funding_amount_observed r' = funding_amount_observed r ->
  sweep_txid r' = sweep_txid r ->
  sweep_block_height r' = sweep_block_height r ->
  claimed_at r' = claimed_at r ->
  (is_public r = false -> forall u,
     claimed_by_user_id r' = Some u -> recipient_user_id r' = Some u) ->
  tip_wf amt k r'.
Proof.
  intros [H1 H2 H3 H4 H5 H6 _ (st & Hs & Hi)] E1 E2 E3 E4 E5 E6 E7 E8 E9 E10 E11 E12 E13 E14.
  constructor;
    [congruence|congruence|done|by rewrite E3, E4|by rewrite E6, E5
    |by rewrite E7, E5|by rewrite E3|].
  exists st. split; [congruence|].
  destruct st; unfold status_inv, covered, short in *;
    by rewrite ?E8, ?E9, ?E10, ?E11, ?E12, ?E13.
Qed.

Ltac frame Hwf :=
  eapply tip_wf_frame; [exact Hwf|done..|exact (wf_claimer _ _ _ Hwf)].

(** A statement that moves a row to the status [st]. *)
Lemma tip_wf_move amt k r r' st :
  tip_wf amt k r ->
  id r' = id r -> amount r' = amount r -> is_public r' = is_public r ->
  recipient_user_id r' = recipient_user_id r -> status r' = as_str st ->
  (is_public r = false -> forall u,
     claimed_by_user_id r' = Some u -> recipient_user_id r = Some u) ->
  (is_Some (sweep_confirmed_at r') <-> st = Claimed) ->
  (is_Some (clawed_back_at r') <-> st = ClawedBack) ->
  status_inv (amt k) st r' -> tip_wf amt k r'.
Proof.
  intros [H1 H2 H3 H4 _ _ _ _] E1 E2 E3 E4 E5 Eu E6 E7 E8.
  constructor;
    [congruence|congruence|done|by rewrite E3, E4
    |rewrite E6, E5; by destruct st|rewrite E7, E5; by destruct st
    |by rewrite E3, E4|eauto].
Qed.

(** A row outside a status does not carry that status' timestamp. *)
Lemma wf_not_confirmed amt k r :
  tip_wf amt k r -> status r <> "claimed" -> sweep_confirmed_at r = None.
Proof.
  intros Hwf Hs. apply eq_None_not_Some. by rewrite (wf_confirmed _ _ _ Hwf).
Qed.

Lemma wf_not_clawed amt k r :
  tip_wf amt k r -> status r <> "clawed_back" -> clawed_back_at r = None.
Proof.
  intros Hwf Hs. apply eq_None_not_Some. by rewrite (wf_clawed _ _ _ Hwf).
Qed.

(** Close the timestamp conditions of [tip_wf_move]. *)
Ltac stamp_iff Hwf :=
  simpl;
  rewrite ?(wf_not_confirmed _ _ _ Hwf), ?(wf_not_clawed _ _ _ Hwf) by congruence;
  split; [by intros [? ?]|try done; by eauto].

(** The claimer is kept, cleared, or the one the statement has checked. *)
Ltac keep_claimer Hwf :=
  let Hp := fresh "Hp" in let v := fresh "v" in
  intros Hp v; simpl; intros; simplify_eq;
  first
    [ congruence
    | by apply (wf_claimer _ _ _ Hwf)
    | match goal with H : is_public _ || _ = true |- _ =>
        rewrite Hp in H; by apply bool_decide_eq_true_1 in H
      end ].

Ltac move_to Hwf st :=
  eapply (tip_wf_move _ _ _ _ st Hwf);
    [done|done|done|done|done|keep_claimer Hwf|stamp_iff Hwf|stamp_iff Hwf
    |unfold status_inv, covered, short in *; simpl in *;
     destruct_and?; split_and?; eauto].

Lemma wf_attach amt k r u tx t :
  attach_funding_where u tx t r = true -> tip_wf amt k r ->
  tip_wf amt k (attach_funding_set tx t r).
Proof.
  unfold attach_funding_where, attach_funding_set. intros Hw Hwf. split_bools.
  destruct (attachable r) eqn:Ha; simpl in *.
  - split_where. use_status Hwf.
    eapply (tip_wf_move _ _ _ _ PendingConfirmation Hwf);
      [done|done|done|done|done|keep_claimer Hwf|stamp_iff Hwf|stamp_iff Hwf|].
    simpl. destruct_and?. split_and?; try done. destruct (funding_txid r); simpl; eauto.
  - split_bools. eapply tip_wf_frame;
      [exact Hwf|try done..|exact (wf_claimer _ _ _ Hwf)].
    simpl. by destruct (funding_txid r).
Qed.

Lemma wf_record_sweep amt k r u tx t :
  record_sweep_where tx t r = true -> tip_wf amt k r ->
  tip_wf amt k (record_sweep_set u tx t r).
Proof.
  intros Hw Hwf. split_where.
  all: pose proof (wf_status_is _ _ _ Claiming Hwf ltac:(done)) as (? & ? & [ca Hca]).
  eapply (tip_wf_move _ _ _ _ Claiming Hwf);
    [done|done|done|done|done|keep_claimer Hwf|stamp_iff Hwf|stamp_iff Hwf|].
  unfold status_inv, covered in *. simpl. rewrite Hca. simpl. eauto.
Qed.

(** Every statement of the source keeps a row well formed. *)
Lemma wf_statement amt k r wh set_ t :
  tip_statement amt k wh set_ -> wh t r = true -> tip_wf amt k r ->
  tip_wf amt k (set_ t r).
Proof.
  intros Hst Hw Hwf.
  destruct Hst;
    lazymatch goal with
    | |- context [attach_funding_set] => by eapply wf_attach
    | |- context [record_sweep_set] => by eapply wf_record_sweep
    | |- _ => split_where; try (frame Hwf); use_status Hwf
    end.
  all: lazymatch goal with
    | |- context [cancel_draft_set] => move_to Hwf Cancelled
    | |- context [gc_cancel_set] => move_to Hwf Cancelled
    | |- context [mark_verified_set] => move_to Hwf Pending
    | |- context [mark_mismatch_set] => move_to Hwf FundingMismatch
    | |- context [mark_claiming_set] => move_to Hwf Claiming
    | |- context [clawback_set] => move_to Hwf ClawedBack
    | |- context [settle_set] => move_to Hwf Claimed
    | |- context [settle_clear_set] => move_to Hwf Claimed
    | |- context [revert_set] => move_to Hwf Claiming
    end.
Qed.

Lemma wf_touch_updated_at amt k r t :
  tip_wf amt k r -> tip_wf amt k (touch_updated_at t r).
Proof. intros Hwf. frame Hwf. Qed.

Lemma wf_unlink amt k d r u t :
  tip_wf amt k r ->
  tip_violation d (touch_updated_at t (unlink_user u r)) = None ->
  tip_wf amt k (touch_updated_at t (unlink_user u r)).
Proof.
  intros Hwf Hv. apply tip_violation_None in Hv as (_ & _ & Hp & _). simpl in *.
  assert (Hr : is_public r = false -> sql_eq (recipient_user_id r) u = false).
  { intros E. destruct (Hp E) as [[? ?] _]. by destruct (sql_eq _ _). }
  eapply tip_wf_frame; [exact Hwf|try done..]; simpl.
  - destruct (sql_eq (recipient_user_id r) u) eqn:E; [|done].
    split; [|done]. intros _.
    destruct (is_public r) eqn:Ep; [by apply (wf_public _ _ _ Hwf)|].
    by specialize (Hr eq_refl).
  - intros Ep v. simpl. rewrite (Hr Ep).
    destruct (sql_eq (claimed_by_user_id r) u); [by intros [=]|].
    by apply (wf_claimer _ _ _ Hwf).
Qed.

Lemma wf_insert amt k new st t :
  insertable amt k new st -> tip_wf amt k (new_tip_row k new st t).
Proof.
  intros (Ha & Hpos & Hst).
  constructor; simpl; try done.
  - by rewrite is_none_true.
  - split; [by intros [??]|]. by destruct Hst as [[-> _]|[-> _]].
  - split; [by intros [??]|]. by destruct Hst as [[-> _]|[-> _]].
  - exists st. split; [done|].
    by destruct Hst as [[-> ?]|[-> ?]]; simpl; split_and?.
Qed.

Lemma row_change_wf amt d' t k o r' :
  row_change amt d' t k o (Some r') ->
  (forall r, o = Some r -> tip_wf amt k r) -> tip_wf amt k r'.
Proof.
  intros Hc Hwf. inversion Hc as [|r ? Hed| |]; subst; eauto using wf_insert.
  specialize (Hwf r eq_refl). destruct Hed; subst.
  - apply wf_touch_updated_at. by eapply wf_statement.
  - by eapply wf_unlink.
Qed.

Lemma tips_wf_stable amt : stable (tip_step amt) (tips_wf amt).
Proof.
  intros t d d' Hstep Hwf k r' Hr'.
  pose proof (tip_step_row amt t d d' k Hstep) as Hc. rewrite Hr' in Hc.
  eapply row_change_wf; [exact Hc|]. intros r Hr. by apply Hwf.
Qed.

Lemma tips_wf_empty amt : tips_wf amt empty_db.
Proof. intros k r Hr. simpl in Hr. by rewrite lookup_empty in Hr. Qed.

(** * The status graph *)

Definition lifecycle_edge (a b : TipStatus) : bool :=
  match a, b with
  | Draft, (PendingConfirmation | Cancelled)
  | PendingConfirmation, (Pending | FundingMismatch | Cancelled | ClawedBack)
  | Pending, (Claiming | ClawedBack)
  | Claiming, (Claimed | ClawedBack)
  | Claimed, Claiming          (* a reorg orphaned the sweep *)
  | FundingMismatch, ClawedBack
  | Cancelled, ClawedBack => true
  | _, _ => false
  end.

Definition lifecycle_moves (s s' : string) : Prop :=
  s' = s \/
  exists a b, s = as_str a /\ s' = as_str b /\ lifecycle_edge a b = true.

Lemma lifecycle_move a b s s' :
  s = as_str a -> s' = as_str b -> lifecycle_edge a b = true ->
  lifecycle_moves s s'.
Proof. right. eauto. Qed.

(** Try every edge out of the status the row is known to be in. *)
Ltac find_edge :=
  first
    [ by left
    | match goal with H : status ?r = _ |- lifecycle_moves (status ?r) _ =>
        rewrite H; first
          [ by left
          | by apply (lifecycle_move Draft PendingConfirmation)
          | by apply (lifecycle_move Draft Cancelled)
          | by apply (lifecycle_move PendingConfirmation Pending)
          | by apply (lifecycle_move PendingConfirmation FundingMismatch)
          | by apply (lifecycle_move PendingConfirmation Cancelled)
          | by apply (lifecycle_move PendingConfirmation ClawedBack)
          | by apply (lifecycle_move Pending Claiming)
          | by apply (lifecycle_move Pending ClawedBack)
          | by apply (lifecycle_move Claiming Claimed)
          | by apply (lifecycle_move Claiming ClawedBack)
          | by apply (lifecycle_move Claimed Claiming)
          | by apply (lifecycle_move FundingMismatch ClawedBack)
          | by apply (lifecycle_move Cancelled ClawedBack) ]
      end ].

Lemma statement_moves amt k wh set_ t r :
  tip_statement amt k wh set_ -> wh t r = true ->
  lifecycle_moves (status r) (status (set_ t r)).
Proof.
  intros Hst Hw.
  destruct Hst;
    lazymatch goal with
    | |- context [attach_funding_set] =>
        unfold attach_funding_set; simpl; destruct (attachable r) eqn:Ha;
        [split_where|]
    | |- _ => split_where; simpl
    end; find_edge.
Qed.

Lemma edit_moves amt d t k r r' :
  row_edit amt d t k r r' -> lifecycle_moves (status r) (status r').
Proof.
  destruct 1 as [wh set_ Hst Hw _|]; [|by left].
  exact (statement_moves _ _ _ _ t r Hst Hw).
Qed.

Lemma step_moves amt t d d' k r r' :
  tip_step amt t d d' -> social_tips d !! k = Some r ->
  social_tips d' !! k = Some r' -> lifecycle_moves (status r) (status r').
Proof.
  intros Hs Hr Hr'. apply (tip_step_row _ _ _ _ k) in Hs. rewrite Hr, Hr' in Hs.
  inversion Hs; subst; [by left|by eapply edit_moves].
Qed.

(** What no statement ever rewrites. *)
Definition same_terms (r r' : SocialTipRow) : Prop :=
  id r' = id r /\ sender_user_id r' = sender_user_id r /\ asset r' = asset r /\
  amount r' = amount r /\ is_public r' = is_public r /\
  claim_key_hash r' = claim_key_hash r /\ encrypted_key r' = encrypted_key r /\
  tip_address r' = tip_address r /\ tip_view_key r' = tip_view_key r /\
  confirmations_required r' = confirmations_required r /\
  grin_commitment r' = grin_commitment r /\ created_at r' = created_at r.

(** The funding transaction is written once. *)
Definition funding_kept (r r' : SocialTipRow) : Prop :=
  forall tx, funding_txid r = Some tx -> funding_txid r' = Some tx.

Lemma statement_terms amt k wh set_ t r :
  tip_statement amt k wh set_ -> wh t r = true ->
  same_terms r (set_ t r) /\ funding_kept r (set_ t r).
Proof.
  intros Hst _. unfold same_terms, funding_kept.
  destruct Hst; simpl; split_and!; try done.
  intros tx0 Htx. by rewrite Htx.
Qed.

Lemma step_terms amt t d d' k r r' :
  tip_step amt t d d' -> social_tips d !! k = Some r ->
  social_tips d' !! k = Some r' -> same_terms r r' /\ funding_kept r r'.
Proof.
  intros Hs Hr Hr'. apply (tip_step_row _ _ _ _ k) in Hs. rewrite Hr, Hr' in Hs.
  inversion Hs as [|? ? Hed| |]; subst;
    [by unfold same_terms, funding_kept|].
  destruct Hed as [wh set_ Hst Hw _|]; [|by unfold same_terms, funding_kept].
  by destruct (statement_terms _ _ _ _ t r Hst Hw).
Qed.
