(* ===== verification/TipSafety.v ===== *)
(** What the state machine of [TipLifecycle] guarantees to the people whose
    money is in a tip: in every state the system can reach, whatever the
    interleaving, a claimable tip is covered, a funded tip is recoverable by
    its sender, the terms of a tip are those it was created with, and a
    targeted tip is claimed by its recipient only. *)

From Stdlib Require Import ZArith Lia Ascii String.
From S2P Require Import Prelude RustStr Errors Db Effects TipStatus SocialTips TipLifecycle.

Local Open Scope string_scope.

(** * Stored rows satisfy the constraints of the table *)

Definition tips_checked (d : Db) : Prop :=
  forall k r, social_tips d !! k = Some r -> tip_violation d r = None.

Lemma opt_ok_mono {A} (p q : A -> bool) o :
  (forall a, p a = true -> q a = true) -> opt_ok p o = true -> opt_ok q o = true.
Proof. destruct o; simpl; eauto. Qed.

(** Every constraint of [r], one hypothesis each. *)
Ltac constraints_of H :=
  apply tip_violation_iff in H; simpl in H;
  destruct H as (?C & ?C & ?C & ?C & ?C & ?C & ?C & ?C & ?C & ?C & ?C & ?C &
                 ?C & ?C & ?C).

Ltac check_constraints := apply tip_violation_iff; simpl.

Ltac each_constraint := split_and!; try assumption.

Lemma tip_violation_mono d d' r :
  (forall u, is_user d u = true -> is_user d' u = true) ->
  tip_violation d r = None -> tip_violation d' r = None.
Proof.
  intros Hu Hv. constraints_of Hv. check_constraints.
  each_constraint; [by apply Hu|by eapply opt_ok_mono..].
Qed.

(** Rewriting the status to a legal one, and the claimer to a user. *)
Lemma tip_violation_status d r r' st :
  tip_violation d r = None -> status r' = as_str st ->
  asset r' = asset r -> claim_key_hash r' = claim_key_hash r ->
  tip_address r' = tip_address r -> funding_txid r' = funding_txid r ->
  sweep_txid r' = sweep_txid r -> tip_view_key r' = tip_view_key r ->
  grin_commitment r' = grin_commitment r -> is_public r' = is_public r ->
  recipient_user_id r' = recipient_user_id r ->
  encrypted_key r' = encrypted_key r -> sender_user_id r' = sender_user_id r ->
  opt_ok (is_user d) (claimed_by_user_id r') = true ->
  tip_violation d r' = None.
Proof.
  intros Hv Hst E1 E2 E3 E4 E5 E6 E7 E8 E9 E10 E11 Hc. check_constraints.
  rewrite Hst, E1, E2, E3, E4, E5, E6, E7, E8, E9, E10, E11.
  constraints_of Hv. each_constraint; by destruct st.
Qed.

Lemma tips_checked_users d d' :
  social_tips d' = social_tips d ->
  (forall u, is_user d u = true -> is_user d' u = true) ->
  tips_checked d -> tips_checked d'.
Proof.
  intros Ht Hu Hc k r Hr. rewrite Ht in Hr.
  eapply tip_violation_mono; [exact Hu|by eapply Hc].
Qed.

Lemma tips_checked_insert d k r :
  tips_checked d -> tip_violation d r = None ->
  tips_checked (d <|social_tips := <[k := r]> (social_tips d)|>).
Proof.
  intros Hc Hv k' r' Hr'. simpl in Hr'.
  erewrite tip_violation_users; [|reflexivity].
  apply lookup_insert_Some in Hr' as [[_ <-]|[_ Hr']]; [done|by eapply Hc].
Qed.

Lemma tips_checked_stable amt : stable (tip_step amt) tips_checked.
Proof.
  intros t d d' Hs Hc.
  destruct Hs as [k wh set_ t d d' ro _ Hu|wh set_ t d d' rows _ Hu
    |k new st t d d' r _ Hi|v t d d' Hd|t d d' Ht Hm].
  - apply update_tip_inv in Hu as [(_ & -> & _)|(r & _ & _ & _ & Hv & ->)];
      [done|by apply tips_checked_insert].
  - apply update_all_inv in Hu as [Hus Hall]. intros k r' Hr'.
    destruct (Hall k) as [E Hv]. rewrite E in Hr'.
    rewrite (tip_violation_users d) by done.
    apply fmap_Some in Hr' as (r & Hr & ->). destruct (wh t r) eqn:Hw; eauto.
  - unfold sql_insert_social_tip in Hi. case_hyp Hi; [done|].
    case_hyp Hi; [done|]. injection Hi as <- _. by apply tips_checked_insert.
  - apply delete_user_inv in Hd as [_ Hd]. intros k r' Hr'. by apply (Hd k).
  - by eapply tips_checked_users.
Qed.

(** * The invariant of the tip store *)

Definition tips_inv (amt : Uuid -> Z) (d : Db) : Prop :=
  tips_wf amt d /\ tips_checked d.

Lemma tips_inv_stable amt : stable (tip_step amt) (tips_inv amt).
Proof.
  intros t d d' Hs [Hw Hc]. split;
    [by eapply tips_wf_stable|by eapply tips_checked_stable].
Qed.

Lemma tips_inv_empty amt d : social_tips d = ∅ -> tips_inv amt d.
Proof. intros He. split; intros k r Hr; rewrite He in Hr; by apply lookup_empty_Some in Hr. Qed.

#[export] Hint Resolve tips_inv_stable : triple.

(** One step that leaves the tip [k] in the table. *)
Definition live_step (amt : Uuid -> Z) (k : Uuid) (d d' : Db) : Prop :=
  (exists t, tip_step amt t d d') /\ is_Some (social_tips d' !! k).

(** Any property of a row that a step on a surviving row transports, a whole
    run transports. *)
Lemma live_run_ind amt k (P : SocialTipRow -> SocialTipRow -> Prop) d d' r r' :
  (forall x, P x x) ->
  (forall t d1 d2 x y z, tip_step amt t d1 d2 -> social_tips d1 !! k = Some x ->
     social_tips d2 !! k = Some y -> P y z -> P x z) ->
  rtc (live_step amt k) d d' ->
  social_tips d !! k = Some r -> social_tips d' !! k = Some r' -> P r r'.
Proof.
  intros Hrefl Hstep Hrun. revert r.
  induction Hrun as [d|d1 d2 d3 [[t Ht] [y Hy]] _ IH]; intros r Hr Hr'.
  - rewrite Hr in Hr'. by injection Hr' as <-.
  - eapply Hstep; eauto.
Qed.

Definition edge (a b : TipStatus) : Prop := lifecycle_edge a b = true.

(** The statuses that a path of the lifecycle can lead to. *)
Definition can_reach (a b : TipStatus) : bool :=
  match a with
  | Draft => true
  | PendingConfirmation => negb (bool_decide (b = Draft))
  | Pending => bool_decide (b ∈ [Pending; Claiming; Claimed; ClawedBack])
  | Claiming | Claimed => bool_decide (b ∈ [Claiming; Claimed; ClawedBack])
  | Cancelled | FundingMismatch => bool_decide (b = a \/ b = ClawedBack)
  | ClawedBack => bool_decide (b = ClawedBack)
  end.

Lemma can_reach_step a b c : edge a b -> can_reach b c = true -> can_reach a c = true.
Proof. unfold edge. by destruct a, b, c. Qed.

Lemma path_can_reach a b : rtc edge a b -> can_reach a b = true.
Proof.
  induction 1 as [a|a b c Hab _ IH]; [by destruct a|]. by eapply can_reach_step.
Qed.

(** Whether the sender can take the money back, as a condition on a row. *)
Definition recoverable_status (st : TipStatus) : bool :=
  match st with
  | PendingConfirmation | Pending | Claiming | FundingMismatch | Cancelled => true
  | Draft | Claimed | ClawedBack => false
  end.

Lemma unsettled_sweep amt k r st :
  tip_wf amt k r -> status r = as_str st -> st <> Claimed ->
  sweep_confirmed_at r = None.
Proof.
  intros Hw Hst Hne. destruct (sweep_confirmed_at r) eqn:E; [|done].
  exfalso. apply Hne. apply (as_str_inj st Claimed). rewrite <- Hst.
  apply (wf_confirmed _ _ _ Hw). by rewrite E.
Qed.

Lemma update_tip_hit k wh set_ t d r :
  social_tips d !! k = Some r -> wh t r = true ->
  tip_violation d (touch_updated_at t (set_ t r)) = None ->
  update_tip k wh set_ t d =
  inr (d <|social_tips := <[k := touch_updated_at t (set_ t r)]> (social_tips d)|>,
       Some (touch_updated_at t (set_ t r))).
Proof. intros Hr Hw Hv. unfold update_tip. by rewrite Hr, Hw, Hv. Qed.

Lemma update_tip_miss k wh set_ t d :
  (forall r, social_tips d !! k = Some r -> wh t r = false) ->
  update_tip k wh set_ t d = inr (d, None).
Proof.
  intros Hw. unfold update_tip. destruct (_ !! k) as [r|]; [|done].
  by rewrite Hw.
Qed.

(** What makes a funded, unsettled tip claimable by [u]. *)
Definition claim_ready (u : Uuid) (r : SocialTipRow) : Prop :=
  (status r = "pending" \/ status r = "claiming") /\
  (confirmations_required r <= funding_confirmations r)%Z /\
  (is_public r = false -> recipient_user_id r = Some u).

Lemma claim_ready_where amt k u t r :
  tip_wf amt k r -> claim_ready u r -> mark_claiming_where u t r = true.
Proof.
  intros Hw (Hst & Hc & Hrec). unfold mark_claiming_where.
  assert (Hv : funding_amount_verified r = true /\ sweep_confirmed_at r = None).
  { destruct Hst as [Hst|Hst].
    - use_status Hw. split; [unfold covered in *; tauto|].
      by eapply (unsettled_sweep _ _ _ Pending).
    - use_status Hw. split; [unfold covered in *; tauto|].
      by eapply (unsettled_sweep _ _ _ Claiming). }
  destruct Hv as [-> ->].
  assert (status_in ["pending"; "claiming"] r = true) as ->.
  { unfold status_in. by destruct Hst as [-> | ->]. }
  rewrite (proj2 (Z.leb_le _ _) Hc). simpl.
  destruct (is_public r) eqn:Ep; [done|].
  rewrite Hrec by done. simpl. unfold sql_eq. by rewrite bool_decide_true.
Qed.

Lemma claim_where_ready u t r :
  mark_claiming_where u t r = true -> claim_ready u r.
Proof.
  intros Hw. unfold claim_ready.
  assert (is_public r = false -> recipient_user_id r = Some u).
  { intros Ep. unfold mark_claiming_where in Hw. rewrite Ep in Hw.
    simpl in Hw. by split_bools. }
  split_where; auto.
Qed.

Lemma claim_checked d u t r :
  is_user d u = true -> tip_violation d r = None ->
  tip_violation d (touch_updated_at t (mark_claiming_set u t r)) = None.
Proof. intros Hu Hv. by apply (tip_violation_status d r _ Claiming). Qed.

(** * A concrete run

    Alice (1) sends a public Grin tip of 500 nanogrin, it is funded, verified
    and claimed by Bob (2); a second tip of hers targets Bob. *)

Definition exec {R} (s : Stmt R) (t : Time) (d : Db) : Db :=
  match s t d with inr (d', _) => d' | inl _ => d end.

Definition succeeds {R} (s : Stmt R) (t : Time) (d : Db) : bool :=
  match s t d with inr _ => true | inl _ => false end.

Lemma exec_update amt k wh set_ t d :
  tip_statement amt k wh set_ -> succeeds (update_tip k wh set_) t d = true ->
  tip_step amt t d (exec (update_tip k wh set_) t d).
Proof.
  unfold succeeds, exec. intros Hst. destruct (update_tip _ _ _ _ _) as [|[d' ro]] eqn:E;
    [done|]. intros _. by eapply step_update.
Qed.

Lemma exec_insert amt k new st t d :
  insertable amt k new st -> succeeds (sql_insert_social_tip k new st) t d = true ->
  tip_step amt t d (exec (sql_insert_social_tip k new st) t d).
Proof.
  unfold succeeds, exec. intros Hi.
  destruct (sql_insert_social_tip _ _ _ _ _) as [|[d' r]] eqn:E; [done|].
  intros _. by eapply step_insert.
Qed.

Definition demo_user (u : Uuid) : User :=
  mkUser u None None None None None None None 0 0 None None.

Definition demo_users_db : Db :=
  empty_db <|users := {[ 1%N := demo_user 1; 2%N := demo_user 2 ]}|>.

Definition demo_amount (k : Uuid) : Z := 500.

Definition demo_public : NewSocialTip :=
  mkNewSocialTip 1 "grin" 500 (Some "c0ffee") None None None None 10
    (Some "08aa") None.

Definition demo_targeted : NewSocialTip :=
  mkNewSocialTip 1 "grin" 500 None (Some [Byte.x01]) None None None 10
    (Some "08bb") (Some 2%N).

Definition demo_created : Db :=
  exec (sql_insert_social_tip 11 demo_targeted Draft) 2
    (exec (sql_insert_social_tip 10 demo_public Draft) 1 demo_users_db).
Definition demo_funded : Db := exec (sql_attach_funding 10 1 "aa") 3 demo_created.
Definition demo_confirmed : Db :=
  exec (sql_update_tip_confirmations 10 10) 4 demo_funded.
Definition demo_claimable : Db :=
  exec (sql_mark_tip_funding_verified 10 500) 5 demo_confirmed.
Definition demo_claiming : Db := exec (sql_mark_tip_claiming 10 2) 6 demo_claimable.

Ltac live_demo := apply is_some_true; by vm_compute.

Ltac demo_update c :=
  eexists; apply exec_update; [apply c; unfold demo_amount; lia|by vm_compute].

Lemma demo_step_funded : exists t, tip_step demo_amount t demo_created demo_funded.
Proof. demo_update st_attach. Qed.
Lemma demo_step_confirmed : exists t, tip_step demo_amount t demo_funded demo_confirmed.
Proof. demo_update st_confirmations. Qed.
Lemma demo_step_claimable :
  exists t, tip_step demo_amount t demo_confirmed demo_claimable.
Proof. demo_update st_verified. Qed.
Lemma demo_step_claiming :
  exists t, tip_step demo_amount t demo_claimable demo_claiming.
Proof. demo_update st_claim. Qed.

Lemma demo_insertable k new st :
  n_amount new = 500%Z -> st = Draft -> n_funding_txid new = None ->
  insertable demo_amount k new st.
Proof. intros. subst. unfold insertable, demo_amount. split_and!; [done|lia|auto]. Qed.

Lemma demo_run_created : steps (tip_step demo_amount) demo_users_db demo_created.
Proof.
  eapply steps_trans; eapply steps_once; apply exec_insert;
    try (by apply demo_insertable); by vm_compute.
Qed.

Lemma demo_run_claimable : steps (tip_step demo_amount) demo_users_db demo_claimable.
Proof.
  eapply steps_trans; [apply demo_run_created|].
  eapply rtc_l; [apply demo_step_funded|]. eapply rtc_l; [apply demo_step_confirmed|].
  apply rtc_once, demo_step_claimable.
Qed.

Lemma demo_live_claiming :
  rtc (live_step demo_amount 10) demo_created demo_claiming.
Proof.
  eapply rtc_l; [split; [apply demo_step_funded|live_demo]|].
  eapply rtc_l; [split; [apply demo_step_confirmed|live_demo]|].
  eapply rtc_l; [split; [apply demo_step_claimable|live_demo]|].
  apply rtc_once. split; [apply demo_step_claiming|live_demo].
Qed.

Lemma demo_inv d : steps (tip_step demo_amount) demo_users_db d ->
  tips_inv demo_amount d.
Proof.
  intros H. eapply steps_stable; [apply tips_inv_stable|exact H|].
  by apply tips_inv_empty.
Qed.

Definition demo_row (d : Db) (k : Uuid) : SocialTipRow :=
  default (new_tip_row k demo_public Draft 0) (social_tips d !! k).

(** * Properties *)

(** C1: from a database without tips, every interleaving of the
    system's statements on [social_tips] keeps every row well formed (a
    claimable or settled row is covered by an observed funding of at least the
    declared amount, a settled row has a confirmed sweep, only settled rows do,
    the claimer of a targeted tip is its recipient) and within the constraints
    of the table. *)
Theorem reachable_tips_inv amt d d' (H0 : social_tips d = ∅)
    (Hrun : steps (tip_step amt) d d') :
  tips_inv amt d'.
Proof.
  eapply steps_stable; [apply tips_inv_stable|exact Hrun|by apply tips_inv_empty].
Qed.

(** C17: along any run in which a tip survives, its status follows a path
    of the lifecycle graph; hence a clawed-back tip stays clawed back, a
    cancelled or mismatched one can only be clawed back, and a tip that was
    ever claimable never waits for funding again. *)
Theorem lifecycle_path amt k d d' r r' a b
    (Hrun : rtc (live_step amt k) d d')
    (Hr : social_tips d !! k = Some r) (Hr' : social_tips d' !! k = Some r')
    (Ha : status r = as_str a) (Hb : status r' = as_str b) :
  rtc edge a b /\ can_reach a b = true.
Proof.
  assert (rtc edge a b) as Hp; [|split; [done|by apply path_can_reach]].
  revert a b Ha Hb.
  apply (live_run_ind amt k (fun x y => forall a b,
    status x = as_str a -> status y = as_str b -> rtc edge a b) d d'); try done.
  - intros x a b -> E. apply as_str_inj in E as ->. apply rtc_refl.
  - intros t d1 d2 x y z Hs Hx Hy IH a b Ha Hb.
    destruct (step_moves _ _ _ _ _ _ _ Hs Hx Hy) as [E|(a' & c & Ea & Ec & He)].
    + apply IH; congruence.
    + rewrite Ha in Ea. apply as_str_inj in Ea as <-.
      eapply rtc_l; [exact He|]. by apply IH.
Qed.

(** Along any run in which a tip survives, its terms (sender, asset,
    amount, address, view key, commitment, required confirmations, encrypted
    key, visibility) are those it was created with, and once a funding
    transaction is attached it is never replaced. *)
Theorem terms_fixed amt k d d' r r'
    (Hrun : rtc (live_step amt k) d d')
    (Hr : social_tips d !! k = Some r) (Hr' : social_tips d' !! k = Some r') :
  same_terms r r' /\ funding_kept r r'.
Proof.
  apply (live_run_ind amt k (fun x y => same_terms x y /\ funding_kept x y) d d');
    try done.
  { by unfold same_terms, funding_kept. }
  intros t d1 d2 x y z Hs Hx Hy [Ht Hf].
  destruct (step_terms _ _ _ _ _ _ _ Hs Hx Hy) as [Ht' Hf'].
  split; [|unfold funding_kept in *; eauto].
  unfold same_terms in *. destruct_and!. split_and!; congruence.
Qed.

(** C2: on a reachable state a user can claim a tip exactly when it is
    pending or being claimed, its funding has the required confirmations, and
    the tip is public or the user is its recipient; nothing else is needed,
    because such a tip is always covered: the verifier observed at least the
    declared, positive amount on it. *)
Theorem claim_exactly_when_ready amt k u t d r (Hinv : tips_inv amt d)
    (Hr : social_tips d !! k = Some r) (Hu : is_user d u = true) :
  ((exists d' r', sql_mark_tip_claiming k u t d = inr (d', Some r')) <->
   claim_ready u r) /\
  (claim_ready u r -> covered (amount r) r /\ (0 < amount r)%Z).
Proof.
  destruct Hinv as [Hwf Hc]. specialize (Hwf _ _ Hr). specialize (Hc _ _ Hr).
  split; [split|].
  - intros (d' & r' & E). apply update_tip_inv in E as [(? & _)|(r0 & E0 & Hw & _)];
      [done|]. rewrite Hr in E0. injection E0 as <-. by eapply claim_where_ready.
  - intros Hrd. do 2 eexists. apply update_tip_hit; [done| |].
    + by eapply claim_ready_where.
    + by apply claim_checked.
  - intros (Hst & _). rewrite (wf_amount _ _ _ Hwf).
    split; [|by apply (wf_positive _ _ _ Hwf)].
    destruct Hst; use_status Hwf; tauto.
Qed.

(** C18: no funded money is stuck on the server's side: whenever a tip of
    a reachable state is in a status that follows funding and its sweep has not
    settled, its sender's clawback succeeds and moves it to [clawed_back];
    in [draft], [claimed] and [clawed_back] it changes nothing, and for a user
    who is not the sender it never changes anything. *)
Theorem funded_tip_recoverable amt k u t d r st (Hinv : tips_inv amt d)
    (Hr : social_tips d !! k = Some r) (Hst : status r = as_str st) :
  if bool_decide (sender_user_id r = u) && recoverable_status st then
    exists d' r', sql_clawback_social_tip k u t d = inr (d', Some r') /\
      social_tips d' !! k = Some r' /\ status r' = as_str ClawedBack /\
      clawed_back_at r' = Some t
  else sql_clawback_social_tip k u t d = inr (d, None).
Proof.
  destruct Hinv as [Hwf Hc]. specialize (Hwf _ _ Hr). specialize (Hc _ _ Hr).
  destruct (_ && _) eqn:Hb.
  - apply andb_true_iff in Hb as [Hs Hrec].
    assert (Hw : clawback_where u t r = true).
    { unfold clawback_where. rewrite Hs.
      rewrite (unsettled_sweep _ _ _ _ Hwf Hst) by (by intros ->).
      unfold status_in. rewrite Hst. by destruct st. }
    do 2 eexists. split; [apply update_tip_hit; [done..|]|].
    + apply (tip_violation_status d r _ ClawedBack); try done. simpl.
      constraints_of Hc. done.
    + simpl. by rewrite lookup_insert_eq.
  - apply update_tip_miss. intros r0 E. rewrite Hr in E. injection E as <-.
    unfold clawback_where. apply andb_false_iff in Hb as [->|Hrec]; [done|].
    unfold status_in. rewrite Hst. apply andb_false_iff. left.
    apply andb_false_iff. right. by destruct st.
Qed.

(** A user who is the recipient of a targeted tip sent by somebody else
    cannot be deleted: the [ON DELETE SET NULL] of the recipient violates
    [targeted_tip_has_recipient], so the deletion fails at every attempt. *)
Theorem targeted_recipient_not_deletable amt k t d r v (Hinv : tips_inv amt d)
    (Hr : social_tips d !! k = Some r) (Htgt : is_public r = false)
    (Hv : recipient_user_id r = Some v) (Hs : sender_user_id r <> v) :
  exists e, sql_delete_user v t d = inl e.
Proof.
  destruct (sql_delete_user v t d) as [e|[d' []]] eqn:E; [by exists e|exfalso].
  apply delete_user_inv in E as [_ Hall]. destruct (Hall k) as [Hk Hok].
  rewrite Hr in Hk. simpl in Hk. unfold delete_user_row, mentions_user in Hk.
  rewrite bool_decide_false in Hk by done. rewrite Hv in Hk.
  assert (sql_eq (Some v) v = true) as Heq by (by apply bool_decide_true).
  rewrite Heq, orb_true_r in Hk.
  specialize (Hok _ Hk). apply tip_violation_None in Hok as (_ & _ & Hp & _).
  simpl in Hp. rewrite Hv, Heq in Hp. by destruct (Hp Htgt) as [[??] _].
Qed.

(** * The properties at the concrete run *)

Lemma reachable_tips_inv_witness :
  steps (tip_step demo_amount) demo_users_db demo_claimable /\
  is_Some (social_tips demo_claimable !! 10%N) /\
  tips_inv demo_amount demo_claimable.
Proof.
  split; [apply demo_run_claimable|]. split; [live_demo|].
  apply (reachable_tips_inv demo_amount demo_users_db);
    [reflexivity|apply demo_run_claimable].
Defined.

Lemma lifecycle_path_witness :
  status (demo_row demo_claiming 10) = "claiming" /\ rtc edge Draft Claiming.
Proof.
  split; [by vm_compute|].
  apply (lifecycle_path demo_amount 10 demo_created demo_claiming
    (demo_row demo_created 10) (demo_row demo_claiming 10));
    [apply demo_live_claiming|by vm_compute..].
Defined.

Lemma terms_fixed_witness :
  funding_txid (demo_row demo_claiming 10) = Some "aa" /\
  same_terms (demo_row demo_created 10) (demo_row demo_claiming 10).
Proof.
  split; [by vm_compute|].
  apply (terms_fixed demo_amount 10 demo_created demo_claiming);
    [apply demo_live_claiming|by vm_compute..].
Defined.

Lemma claim_exactly_when_ready_witness :
  exists d' r', sql_mark_tip_claiming 10 2 7%Z demo_claimable = inr (d', Some r').
Proof.
  apply (claim_exactly_when_ready demo_amount 10 2 7 demo_claimable
    (demo_row demo_claimable 10));
    [apply demo_inv, demo_run_claimable|by vm_compute|by vm_compute|].
  split; [left; by vm_compute|].
  split; [apply Z.leb_le; by vm_compute|intros Hp; by vm_compute in Hp].
Defined.

Lemma funded_tip_recoverable_witness :
  exists d' r', sql_clawback_social_tip 10 1 7%Z demo_claimable = inr (d', Some r') /\
    social_tips d' !! 10%N = Some r' /\ status r' = as_str ClawedBack /\
    clawed_back_at r' = Some 7%Z.
Proof.
  apply (funded_tip_recoverable demo_amount 10 1 7 demo_claimable
    (demo_row demo_claimable 10) Pending);
    [apply demo_inv, demo_run_claimable|by vm_compute|by vm_compute].
Defined.

Lemma targeted_recipient_not_deletable_witness :
  exists e, sql_delete_user 2 7%Z demo_created = inl e.
Proof.
  apply (targeted_recipient_not_deletable demo_amount 11 7 demo_created
    (demo_row demo_created 11));
    [apply demo_inv, demo_run_created|by vm_compute|by vm_compute
    |by vm_compute|by vm_compute].
Defined.
