(* ===== verification/TipPrograms.v ===== *)
(** The [Database] methods on tips as programs: each is, under every
    interleaving, a sequence of steps of [TipLifecycle], so a worker or a
    handler built from them is one too. *)

From Stdlib Require Import ZArith Lia.
From S2P Require Import Prelude RustStr Errors Db Effects TipStatus SocialTips TipLifecycle TipSafety.

(** A row some method returned: it was well formed when it was read. *)
Definition row_ok (amt : Uuid -> Z) (r : SocialTipRow) : Prop :=
  tip_wf amt (id r) r.

Definition opt_row_ok (amt : Uuid -> Z) (o : option SocialTipRow) : Prop :=
  forall r, o = Some r -> row_ok amt r.

(** [m] is safe: whatever it does is made of steps of the system.  [G]
    constrains the identifiers it draws. *)
Abbreviation tip_safe G amt := (triple G (tip_step amt) (tips_inv amt)).

Lemma elem_of_select wh key t d d' rows r :
  select_tips wh key t d = inr (d', rows) -> r ∈ rows ->
  d' = d /\ wh t r = true /\ r ∈ tip_rows d.
Proof.
  unfold select_tips. intros [= <- <-] Hr. split; [done|].
  rewrite merge_sort_Permutation in Hr. by apply list_elem_of_filter in Hr.
Qed.

Lemma elem_of_select_limit wh key n t d d' rows r :
  select_tips_limit wh key n t d = inr (d', rows) -> r ∈ rows ->
  d' = d /\ wh t r = true /\ r ∈ tip_rows d.
Proof.
  unfold select_tips_limit. intros H Hr.
  destruct (select_tips _ _ _ _) as [|[d1 rows1]] eqn:E; [done|].
  injection H as <- <-. apply elem_of_take in Hr as (i & Hi & _).
  eapply elem_of_select; [exact E|]. by eapply list_elem_of_lookup_2.
Qed.

Lemma row_ok_lookup amt d k r :
  tips_inv amt d -> social_tips d !! k = Some r -> row_ok amt r.
Proof.
  intros [Hwf _] Hr. specialize (Hwf _ _ Hr). unfold row_ok.
  by rewrite (wf_id _ _ _ Hwf).
Qed.

Lemma row_ok_rows amt d r : tips_inv amt d -> r ∈ tip_rows d -> row_ok amt r.
Proof. intros Hi [k Hk]%elem_of_tip_rows. by eapply row_ok_lookup. Qed.

Section programs.
Context `{Ext} (G : (nat -> Uuid) -> Prop) (amt : Uuid -> Z).

Lemma query_update k wh set_ :
  tip_statement amt k wh set_ ->
  tip_safe G amt (query (update_tip k wh set_)) (opt_row_ok amt).
Proof.
  intros Hst. apply triple_stmt; [apply tips_inv_stable|].
  intros t d d' ro Hi E.
  assert (Hs : tip_step amt t d d') by (by eapply step_update).
  split; [by eapply steps_once|]. intros r ->.
  apply update_tip_inv in E as [(? & _)|(r0 & Hr & _ & [= ->] & _ & ->)]; [done|].
  eapply row_ok_lookup; [by eapply tips_inv_stable|]. simpl.
  by rewrite lookup_insert_eq.
Qed.

Lemma query_update_all wh set_ :
  (forall k, tip_statement amt k wh set_) ->
  tip_safe G amt (query (update_all_tips wh set_)) (fun _ => True).
Proof.
  intros Hst. apply triple_stmt; [apply tips_inv_stable|].
  intros t d d' ro Hi E. split; [|done].
  by eapply steps_once, step_update_all.
Qed.

Lemma query_read {R} (s : Stmt R) (Q : R -> Prop) :
  (forall t d d' r, tips_inv amt d -> s t d = inr (d', r) -> d' = d /\ Q r) ->
  tip_safe G amt (query s) Q.
Proof.
  intros Hs. apply triple_stmt; [apply tips_inv_stable|].
  intros t d d' r Hi E. apply Hs in E as [-> ?]; [|done].
  by split; [apply steps_refl|].
Qed.

(** A statement on the other tables that removes no user. *)
Lemma query_other {R} (s : Stmt R) (Q : R -> Prop) :
  (forall t d d' r, s t d = inr (d', r) ->
     social_tips d' = social_tips d /\
     (forall u, is_user d u = true -> is_user d' u = true) /\ Q r) ->
  tip_safe G amt (query s) Q.
Proof.
  intros Hs. apply triple_stmt; [apply tips_inv_stable|].
  intros t d d' r Hi E. apply Hs in E as (? & ? & ?).
  by split; [apply (steps_once _ t), step_other|].
Qed.

Lemma query_select wh key :
  tip_safe G amt (query (select_tips wh key)) (Forall (row_ok amt)).
Proof.
  apply query_read. intros t d d' rows Hi E. split.
  - unfold select_tips in E. by injection E as <- _.
  - apply Forall_forall. intros r Hr.
    eapply elem_of_select in Hr as (_ & _ & Hr); [|exact E].
    by eapply row_ok_rows.
Qed.

Lemma query_select_limit wh key n :
  tip_safe G amt (query (select_tips_limit wh key n)) (Forall (row_ok amt)).
Proof.
  apply query_read. intros t d d' rows Hi E. split.
  - unfold select_tips_limit, select_tips in E. by injection E as <- _.
  - apply Forall_forall. intros r Hr.
    eapply elem_of_select_limit in Hr as (_ & _ & Hr); [|exact E].
    by eapply row_ok_rows.
Qed.

Lemma safe_drop {A} (m : M A) P :
  tip_safe G amt m P -> tip_safe G amt (_ ← m; mret tt) (fun _ => True).
Proof. intros Hm. eapply triple_bind; [exact Hm|]. intros. by apply triple_ret. Qed.

Lemma safe_get_social_tip k : tip_safe G amt (get_social_tip k) (opt_row_ok amt).
Proof.
  apply query_read. intros t d d' r Hi [= <- <-]. split; [done|].
  intros r Hr. by eapply row_ok_lookup.
Qed.

Lemma safe_update_confirmations k n :
  tip_safe G amt (update_tip_confirmations k n) (opt_row_ok amt).
Proof. apply query_update. apply st_confirmations. Qed.

Lemma safe_touch k : tip_safe G amt (touch_tip_last_check k) (fun _ => True).
Proof. eapply safe_drop, query_update. apply st_touch. Qed.

Lemma safe_mark_verified k o :
  (amt k <= o)%Z -> tip_safe G amt (mark_tip_funding_verified k o) (opt_row_ok amt).
Proof. intros. apply query_update. by apply st_verified. Qed.

Lemma safe_mark_mismatch k o :
  (0 < o < amt k)%Z ->
  tip_safe G amt (mark_tip_funding_mismatch k o) (opt_row_ok amt).
Proof. intros. apply query_update. by apply st_mismatch. Qed.

Lemma safe_cancel_draft k u :
  tip_safe G amt (cancel_draft_social_tip k u) (fun _ => True).
Proof.
  eapply triple_bind; [apply query_update; apply st_cancel_draft|].
  intros. by apply triple_ret.
Qed.

Lemma safe_get_own k u : tip_safe G amt (query (sql_get_own_tip k u)) (opt_row_ok amt).
Proof.
  apply query_read. intros t d d' ro Hi [= <- <-]. split; [done|]. intros r E.
  destruct (social_tips d !! k) as [r0|] eqn:Hr; [|done].
  case_bool_decide; [|done]. injection E as <-. by eapply row_ok_lookup.
Qed.

Lemma safe_get_claimed k :
  tip_safe G amt (query (sql_get_claimed_or_claiming k)) (opt_row_ok amt).
Proof.
  apply query_read. intros t d d' ro Hi [= <- <-]. split; [done|]. intros r E.
  destruct (social_tips d !! k) as [r0|] eqn:Hr; [|done].
  case_hyp E; [|done]. injection E as <-. by eapply row_ok_lookup.
Qed.

Lemma safe_attach k u tx : tip_safe G amt (attach_funding_to_tip k u tx) (row_ok amt).
Proof.
  eapply triple_bind; [apply query_update; apply st_attach|].
  intros [r|] Hr; [apply triple_ret; by apply Hr|].
  eapply triple_bind; [apply safe_get_own|]. intros o Ho.
  eapply (triple_bind _ _ _ _ _ (row_ok amt)).
  - apply triple_lift. intros r Er%ok_or_Ok. by apply Ho.
  - intros r Hok. destruct (funding_txid r); [|by apply triple_lift].
    destruct (negb _); [by apply triple_lift|by apply triple_ret].
Qed.

Lemma safe_mark_claiming k u :
  tip_safe G amt (mark_tip_claiming k u) (opt_row_ok amt).
Proof. apply query_update. apply st_claim. Qed.

Lemma safe_confirm_sweep k u tx :
  tip_safe G amt (confirm_tip_sweep k u tx) (opt_row_ok amt).
Proof.
  eapply triple_bind; [apply query_update; apply st_record|].
  intros [r|] Hr; [by apply triple_ret|apply safe_get_claimed].
Qed.

Lemma safe_clawback k u :
  tip_safe G amt (clawback_social_tip k u) (opt_row_ok amt).
Proof. apply query_update. apply st_clawback. Qed.

Lemma safe_settle k tx h hash :
  tip_safe G amt (confirm_sweep_onchain k tx h hash None) (opt_row_ok amt).
Proof. apply query_update. apply st_settle. Qed.

Lemma safe_settle_clear k tx h hash :
  tip_safe G amt (clear_claimed_by_on_settle k tx h hash) (opt_row_ok amt).
Proof. apply query_update. apply st_settle_clear. Qed.

Lemma safe_revert k : tip_safe G amt (revert_sweep_on_reorg k) (opt_row_ok amt).
Proof. apply query_update. apply st_revert. Qed.

Lemma safe_stamp_dm k :
  tip_safe G amt (stamp_sweep_confirmed_dm_sent k) (fun _ => True).
Proof. eapply safe_drop, query_update. apply st_dm. Qed.

Lemma safe_stamp_reorg k : tip_safe G amt (stamp_reorg_notified k) (fun _ => True).
Proof. eapply safe_drop, query_update. apply st_reorg_notified. Qed.

Lemma safe_gc_drafts : tip_safe G amt cancel_old_drafts (fun _ => True).
Proof.
  eapply triple_bind; [apply query_update_all; apply st_gc_draft|].
  intros. by apply triple_ret.
Qed.

Lemma safe_gc_pending :
  tip_safe G amt cancel_stuck_pending_confirmation (fun _ => True).
Proof.
  eapply triple_bind; [apply query_update_all; apply st_gc_pending|].
  intros. by apply triple_ret.
Qed.

Lemma safe_log_stuck : tip_safe G amt log_stuck_claiming (fun _ => True).
Proof.
  eapply triple_bind; [apply query_select|]. intros. by apply triple_ret.
Qed.

(** The id of a new tip is one that [amt] gives the declared amount. *)
Lemma safe_insert new st :
  (forall f n, G f -> insertable amt (f n) new st) ->
  tip_safe G amt (insert_social_tip new st) (row_ok amt).
Proof.
  intros Hins. eapply triple_bind; [apply triple_gen_random_uuid|].
  intros k (f & n & Hf & ->). apply triple_stmt; [apply tips_inv_stable|].
  intros t d d' r Hi E.
  assert (Hs : tip_step amt t d d') by (eapply step_insert; [by apply Hins|exact E]).
  split; [by eapply steps_once|].
  eapply row_ok_lookup; [by eapply tips_inv_stable|].
  unfold sql_insert_social_tip in E. case_hyp E; [done|]. case_hyp E; [done|].
  injection E as <- <-. simpl. by rewrite lookup_insert_eq.
Qed.
End programs.

#[export] Hint Resolve safe_get_social_tip safe_update_confirmations safe_touch
  safe_mark_verified safe_mark_mismatch safe_cancel_draft safe_attach
  safe_mark_claiming safe_confirm_sweep safe_clawback safe_settle
  safe_settle_clear safe_revert safe_stamp_dm safe_stamp_reorg safe_gc_drafts
  safe_gc_pending safe_log_stuck : triple.
