(* ===== verification/Chains.v ===== *)
(** The chain clients ([src/infra/electrum.rs], [src/infra/lws/],
    [src/infra/grin/]) as far as the tip workers depend on them: the answers
    they decode, the arithmetic on amounts and heights, and the clients as
    records of upstream calls.  An upstream call takes the index of the call,
    so a server may answer differently each time. *)

From Stdlib Require Import ZArith Lia Ascii String.
From Stdlib Require Import SpecFloat.
From S2P Require Import Prelude RustStr Errors Db Effects LwsTypes.

Local Open Scope string_scope.

(** * [f64] amounts *)

(** An IEEE binary64 value, by the Standard Library's executable
    specification. *)
Definition f64 : Type := spec_float.
Definition f64_mul : f64 -> f64 -> f64 := SFmul 53 1024.

Definition f64_is_finite (x : f64) : bool :=
  match x with S754_zero _ | S754_finite _ _ _ => true | _ => false end.

(** [x < 0.0]: false of both zeros and of NaN. *)
Definition f64_is_negative (x : f64) : bool := SFltb x (S754_zero false).

(** [n as f64] for an integer below [2^53]. *)
Definition f64_of_pos (n : positive) : f64 := binary_normalize 53 1024 (Zpos n) 0 false.

(** [m * 2^e] rounded to an integer, half away from zero. *)
Definition round_magnitude (m : positive) (e : Z) : Z :=
  if (0 <=? e)%Z then Z.shiftl (Zpos m) e
  else Z.shiftr (Zpos m + Z.shiftl 1 (- e - 1)) (- e).

(** [x.round()] of a finite value; the result is an integer below the exact
    range, or [x] itself, so it is an [f64]. *)
Definition f64_round (s : bool) (m : positive) (e : Z) : Z :=
  let r := round_magnitude m e in if s then (- r)%Z else r.

Definition MAX_EXACT_SAT : Z := 9007199254740992.

Definition out_of_range : AppError :=
  NodeError "amount out of range from Electrum server".

(** [sats >= MAX_EXACT_SAT] is false of a NaN, and [sats as u64] saturates. *)
Definition checked_btc_to_sat (value : f64) : outcome u64 :=
  if negb (f64_is_finite value) || f64_is_negative value then
    Err (NodeError "non-finite or negative amount from Electrum server")
  else
    match f64_mul value (f64_of_pos 100000000) with
    | S754_nan | S754_zero _ | S754_infinity true => Ok 0%Z
    | S754_infinity false => Err out_of_range
    | S754_finite s m e =>
        let sats := f64_round s m e in
        if (MAX_EXACT_SAT <=? sats)%Z then Err out_of_range
        else Ok (Z.max 0 sats)
    end.

(** * Verbose transactions *)

Record ScriptPubKeyInfo := mkScriptPubKeyInfo {
  spk_address : option string;
  spk_addresses : option (list string);
}.

Definition get_address (i : ScriptPubKeyInfo) : option string :=
  match spk_address i with
  | Some a => Some a
  | None => match spk_addresses i with Some (a :: _) => Some a | _ => None end
  end.

Record Prevout := mkPrevout { pv_value : f64; pv_script : ScriptPubKeyInfo }.
Record VerboseVin := mkVerboseVin {
  vin_txid : option string; vin_vout : option u32; vin_prevout : option Prevout }.
Record VerboseVout := mkVerboseVout {
  vout_value : f64; vout_n : u32; vout_script : ScriptPubKeyInfo }.
Record VerboseTransaction := mkVerboseTransaction {
  tx_id : string; tx_vin : list VerboseVin; tx_vout : list VerboseVout }.

Definition pays (i : ScriptPubKeyInfo) (address : string) : bool :=
  bool_decide (get_address i = Some address).

(** [total = total.checked_add(checked_btc_to_sat(v)?).ok_or(e)?]. *)
Definition add_sats (e : string) (total : u64) (v : f64) : outcome u64 :=
  sats ← checked_btc_to_sat v;
  ok_or (u64_checked_add total sats) (NodeError e).

Fixpoint received_from (address : string) (total : u64) (vs : list VerboseVout)
  : outcome u64 :=
  match vs with
  | [] => Ok total
  | v :: vs' =>
      if pays (vout_script v) address then
        total' ← add_sats "output amount sum overflow" total (vout_value v);
        received_from address total' vs'
      else received_from address total vs'
  end.

Definition total_received_at (tx : VerboseTransaction) (address : string)
  : outcome u64 :=
  received_from address 0 (tx_vout tx).

Fixpoint sent_from (address : string) (total : u64) (vs : list VerboseVin)
  : outcome u64 :=
  match vs with
  | [] => Ok total
  | v :: vs' =>
      match vin_prevout v with
      | Some p =>
          if pays (pv_script p) address then
            total' ← add_sats "input amount sum overflow" total (pv_value p);
            sent_from address total' vs'
          else sent_from address total vs'
      | None => sent_from address total vs'
      end
  end.

Definition total_sent_from (tx : VerboseTransaction) (address : string)
  : outcome (option u64) :=
  if existsb (fun v => is_none (vin_prevout v)) (tx_vin tx) then Ok None
  else Some <$> sent_from address 0 (tx_vin tx).

Record ElectrumHistoryEntry := mkElectrumHistoryEntry {
  he_tx_hash : string; he_height : i64; he_fee : option u64 }.

Record ElectrumBalance := mkElectrumBalance {
  eb_confirmed : u64; eb_unconfirmed : i64 }.

Definition i64_checked_add (x y : Z) : option Z :=
  if ((I64_MIN <=? x + y) && (x + y <=? I64_MAX))%Z then Some (x + y)%Z else None.

Fixpoint sum_balances_from (acc : ElectrumBalance) (bs : list ElectrumBalance)
  : outcome ElectrumBalance :=
  match bs with
  | [] => Ok acc
  | b :: bs' =>
      confirmed ← ok_or (u64_checked_add (eb_confirmed acc) (eb_confirmed b))
        (NodeError "confirmed balance sum overflow");
      unconfirmed ← ok_or (i64_checked_add (eb_unconfirmed acc) (eb_unconfirmed b))
        (NodeError "unconfirmed balance sum overflow");
      sum_balances_from (mkElectrumBalance confirmed unconfirmed) bs'
  end.

Definition sum_balances (bs : list ElectrumBalance) : outcome ElectrumBalance :=
  sum_balances_from (mkElectrumBalance 0 0) bs.

(** * Light-wallet-server and daemon answers *)

Definition MAX_PARSED_VEC : Z := 100000.

Definition confirmations_from (block_height : option u64) (in_pool : option bool)
    (current_height : u64) : option u64 :=
  if bool_decide (in_pool = Some true) then Some 0%Z
  else match block_height with
       | Some h =>
           if (current_height <? h)%Z then Some 0%Z
           else Some (u64_saturating_add (u64_saturating_sub current_height h) 1)
       | None => None
       end.

(** The daemon's answers to [get_info] and [/get_transactions]. *)
Record DaemonInfo := mkDaemonInfo { di_error : bool; di_height : option u64 }.
Record DaemonTxInfo := mkDaemonTxInfo {
  dt_block_height : option u64; dt_in_pool : option bool }.
Record DaemonTxs := mkDaemonTxs {
  dx_txs : option (list DaemonTxInfo); dx_status : string }.

(** * Grin *)

Record ViewWalletOutputResult := mkViewWalletOutputResult {
  vo_value : u64; vo_height : u64 }.

Definition view_output_confirmations (o : ViewWalletOutputResult) (tip_height : u64)
  : u64 :=
  if (vo_height o =? 0)%Z || (tip_height <? vo_height o)%Z then 0%Z
  else u64_saturating_add (u64_saturating_sub tip_height (vo_height o)) 1.

Record GrinOutputInfo := mkGrinOutputInfo {
  go_commit : string; go_block_height : option u64; go_mmr_index : u64 }.

Definition output_confirmations (o : GrinOutputInfo) (tip_height : u64) : u64 :=
  match go_block_height o with
  | Some h =>
      if (0 <? h)%Z && (h <=? tip_height)%Z
      then u64_saturating_add (u64_saturating_sub tip_height h) 1 else 0%Z
  | None => 0%Z
  end.

(** * Clients

    The fields are the network round trips (transport and JSON decoding); the
    methods below are the code around them. *)

Record ElectrumClient := mkElectrumClient {
  el_get_history : string -> nat -> outcome (list ElectrumHistoryEntry);
  el_get_transaction_verbose : string -> nat -> outcome VerboseTransaction;
  el_get_tip_height : nat -> outcome i64;
}.

Record LwsClient := mkLwsClient {
  lws_network : string;
  lws_daemon_url : string;
  lws_post_address_txs : string -> string -> nat -> outcome AddressTxsResponse;
  lws_post_get_info : nat -> outcome DaemonInfo;
  lws_post_get_transactions : string -> nat -> outcome DaemonTxs;
}.

Record GrinClient := mkGrinClient {
  gr_get_status : nat -> outcome u64;    (* [get_status().tip.height] *)
  gr_rpc_get_outputs : list string -> nat -> outcome (list GrinOutputInfo);
  gr_get_kernel : string -> nat -> outcome (option u64);
}.

Definition node_err (c : LwsClient) (label detail : string) : AppError :=
  NodeError (lws_network c ++ " LWS " ++ label ++ ": " ++ detail).

Definition get_address_txs (c : LwsClient) (address view_key : string)
  : M AddressTxsResponse :=
  resp ← upstream (lws_post_address_txs c address view_key);
  if (MAX_PARSED_VEC <? Z.of_nat (length (ar_transactions resp)))%Z
  then fail (node_err c "get_address_txs" "response too large")
  else mret resp.

Definition get_blockchain_height (c : LwsClient) : M u64 :=
  if is_empty (lws_daemon_url c)
  then fail (node_err c "daemon" "daemon URL not configured")
  else
    resp ← upstream (lws_post_get_info c);
    if di_error resp
    then fail (node_err c "daemon get_info" "daemon returned an error")
    else lift (ok_or (di_height resp) (node_err c "daemon get_info" "no result")).

Definition get_transaction_confirmations (c : LwsClient) (txid : string)
  : M (option u64) :=
  if is_empty (lws_daemon_url c)
  then fail (node_err c "daemon" "daemon URL not configured")
  else
    current_height ← get_blockchain_height c;
    resp ← upstream (lws_post_get_transactions c txid);
    if negb (dx_status resp =? "OK") then mret None
    else match dx_txs resp with
         | Some (tx :: _) =>
             mret (confirmations_from (dt_block_height tx) (dt_in_pool tx)
                     current_height)
         | _ => mret None
         end.

Definition get_height (c : GrinClient) : M u64 := upstream (gr_get_status c).

Definition get_outputs (c : GrinClient) (commits : list string)
  : M (list GrinOutputInfo) :=
  match commits with
  | [] => mret []
  | _ => upstream (gr_rpc_get_outputs c commits)
  end.

(** The chains enabled on this instance. *)
Record ChainClients := mkChainClients {
  btc : option ElectrumClient;
  ltc : option ElectrumClient;
  xmr : option LwsClient;
  wow : option LwsClient;
  grin : option GrinClient;
}.

(** * Amounts *)

Lemma checked_btc_to_sat_bound v s :
  checked_btc_to_sat v = Ok s -> (0 <= s < MAX_EXACT_SAT)%Z.
Proof.
  unfold checked_btc_to_sat, MAX_EXACT_SAT. intros H. case_hyp H; [done|].
  destruct (f64_mul _ _) as [|[]| |sg m e]; try done; [injection H as <-; lia..|].
  case_hyp H; [done|]. injection H as <-. split_bools. lia.
Qed.

Lemma Zsum_app xs ys : Zsum (xs ++ ys) = (Zsum xs + Zsum ys)%Z.
Proof. induction xs as [|x xs IH]; simpl; [done|rewrite IH; lia]. Qed.

Definition sats_of (v : f64) (s : u64) : Prop := checked_btc_to_sat v = Ok s.

Lemma sats_of_nonneg vs ss : Forall2 sats_of vs ss -> (0 <= Zsum ss)%Z.
Proof.
  induction 1 as [|v s vs ss Hs _ IH]; simpl; [lia|].
  apply checked_btc_to_sat_bound in Hs. lia.
Qed.

Lemma add_sats_Ok e total v r :
  add_sats e total v = Ok r <->
  exists s, sats_of v s /\ r = (total + s)%Z /\ (r <= U64_MAX)%Z.
Proof.
  unfold add_sats, sats_of, u64_checked_add. rewrite bind_Ok.
  setoid_rewrite ok_or_Ok. split.
  - intros (s & Hs & H). case_hyp H; [|done]. injection H as <-.
    split_bools. eauto.
  - intros (s & Hs & -> & Hle). exists s. split; [done|].
    by rewrite (proj2 (Z.leb_le _ _) Hle).
Qed.

(** The values a transaction pays to an address. *)
Definition paid_to (address : string) (vs : list VerboseVout) : list f64 :=
  vout_value <$> filter (fun v => pays (vout_script v) address = true) vs.

Lemma received_from_spec address vs total r :
  (0 <= total <= U64_MAX)%Z ->
  received_from address total vs = Ok r <->
  exists ss, Forall2 sats_of (paid_to address vs) ss /\
    r = (total + Zsum ss)%Z /\ (r <= U64_MAX)%Z.
Proof.
  unfold paid_to. revert total.
  induction vs as [|v vs IH]; intros total Ht; simpl.
  - split.
    + intros [= <-]. exists []. simpl. split_and!; [constructor|lia|lia].
    + intros (ss & Hss & -> & _). inversion Hss; subst.
      simpl. f_equal. lia.
  - rewrite filter_cons. destruct (pays _ _) eqn:Ep;
      [rewrite decide_True by done|rewrite decide_False by done; by apply IH].
    rewrite bind_Ok. setoid_rewrite add_sats_Ok. simpl. split.
    + intros (t & (s & Hs & -> & Hle) & H).
      pose proof (checked_btc_to_sat_bound _ _ Hs).
      apply IH in H as (ss & Hss & -> & Hr); [|lia].
      exists (s :: ss). simpl. split_and!; [by constructor|lia|lia].
    + intros (ss & Hss & -> & Hle).
      inversion Hss as [|? s ? ss' Hs Hss']; subst.
      pose proof (checked_btc_to_sat_bound _ _ Hs).
      pose proof (sats_of_nonneg _ _ Hss'). simpl in *.
      exists (total + s)%Z. split; [exists s; split_and!; [done|done|lia]|].
      apply IH; [lia|]. exists ss'. split_and!; [done|lia|lia].
Qed.

Lemma total_received_at_bound tx address r :
  total_received_at tx address = Ok r -> in_u64 r.
Proof.
  intros (ss & Hss & -> & Hle)%received_from_spec; [|int_lia].
  apply sats_of_nonneg in Hss. unfold in_u64. lia.
Qed.

(** The amount a verbose transaction pays to an address is exact: it
    is the sum of the converted amounts of the outputs to that address, each
    in [[0, 2^53)], and the answer is an error, never a wrapped or coerced
    number, exactly when one of them does not convert or the sum exceeds
    [u64]. *)
Theorem total_received_exact tx address r :
  total_received_at tx address = Ok r <->
  exists ss, Forall2 sats_of (paid_to address (tx_vout tx)) ss /\
    Forall (fun s => 0 <= s < MAX_EXACT_SAT)%Z ss /\
    r = Zsum ss /\ (Zsum ss <= U64_MAX)%Z.
Proof.
  unfold total_received_at. rewrite received_from_spec by int_lia.
  split; intros (ss & Hss & H); exists ss; (split; [done|]).
  - destruct H as [-> Hle]. split_and!; [|lia|lia].
    clear Hle. induction Hss; constructor; eauto using checked_btc_to_sat_bound.
  - destruct H as (_ & -> & Hle). lia.
Qed.
