(* ===== verification/TipFunding.v ===== *)
(** [src/tips/confirmation.rs] and [grin_commitment] of [src/tips/mod.rs]: the
    funding worker, which counts the confirmations of a tip's funding and
    checks the received amount before the tip becomes claimable. *)

From Stdlib Require Import ZArith Lia Ascii String.
From S2P Require Import Prelude RustStr Errors Db Effects TipStatus SocialTips TipLifecycle TipSafety TipPrograms LwsTypes Chains Demo.

Local Open Scope string_scope.

Definition grin_commitment_of (tip : SocialTipRow) : option string :=
  let raw := match grin_commitment tip with
             | Some c => Some c
             | None => tip_address tip
             end in
  non_empty (trim <$> raw).

Inductive FundingVerification :=
| Verified (observed : u64)
| Short (observed : u64)
| Unfunded
| Drained (net total_sent : u64)
| LwsError.

#[export] Instance FundingVerification_eq_dec : EqDecision FundingVerification.
Proof. solve_decision. Defined.

(** * Classification *)

(** [if expected < 0 { 0 } else { expected as u64 }]. *)
Definition expected_u64 (expected : i64) : u64 :=
  if (expected <? 0)%Z then 0%Z else expected.

(** The verdict on the two totals. *)
Definition classify_totals (total_received total_sent : u64) (expected : i64)
  : FundingVerification :=
  let net := u64_saturating_sub total_received total_sent in
  let want := expected_u64 expected in
  if (net <? want)%Z && (0 <? total_sent)%Z then Drained net total_sent
  else if (net =? 0)%Z then Unfunded
  else if (want <=? net)%Z then Verified net
  else Short net.

Definition is_confirmed_tx (tx : AddressTx) : bool :=
  negb (at_mempool tx) && (0 <? at_height tx)%Z.

Definition confirmed_txs (txs : AddressTxsResponse) : list AddressTx :=
  filter (fun tx => is_confirmed_tx tx = true) (ar_transactions txs).

Definition classify_funding_amount (txs : AddressTxsResponse) (expected : i64)
  : outcome FundingVerification :=
  total_received ← or_panic (u64_sum (at_total_received <$> confirmed_txs txs));
  total_sent ← or_panic (u64_sum (at_total_sent <$> confirmed_txs txs));
  Ok (classify_totals total_received total_sent expected).

Definition grin_amount_from_presence (present : bool) (declared : i64)
  : FundingVerification :=
  if present then Verified (expected_u64 declared) else Unfunded.

(** [confs.min(i32::MAX as u64) as i32]. *)
Definition confs_i32 (confs : u64) : i32 := Z.min confs I32_MAX.

(** [i64::try_from(observed).unwrap_or(i64::MAX)]. *)
Definition i64_or_max (observed : u64) : i64 :=
  if (observed <=? I64_MAX)%Z then observed else I64_MAX.

Section worker.
Context `{Ext} (chains : ChainClients).

(** * Confirmation counting *)

Definition count_one (lws : LwsClient) (tip : SocialTipRow) : M unit :=
  match non_empty (funding_txid tip) with
  | None => mret tt
  | Some txid =>
      r ← attempt (get_transaction_confirmations lws txid);
      match r with
      | inl (Some confs) =>
          swallow (update_tip_confirmations (id tip) (confs_i32 confs))
      | inl None => swallow (update_tip_confirmations (id tip) 0)
      | inr _ => mret tt
      end
  end.

Definition check_asset_confirmations (a : string) : M unit :=
  let lws := if a =? "xmr" then xmr chains
             else if a =? "wow" then wow chains else None in
  match lws with
  | None => mret tt
  | Some lws =>
      tips ← get_tips_pending_confirmation a;
      for_each (count_one lws) tips
  end.

Definition grin_confs (commit : string) (tip_height : u64)
    (outputs : list GrinOutputInfo) : u64 :=
  match list_find (fun o => go_commit o = commit) outputs with
  | Some (_, o) => output_confirmations o tip_height
  | None => 0%Z
  end.

Definition count_grin (g : GrinClient) (tip_height : u64) (tip : SocialTipRow)
  : M unit :=
  match grin_commitment_of tip with
  | None => mret tt
  | Some commit =>
      r ← attempt (get_outputs g [commit]);
      match r with
      | inl outputs =>
          swallow (update_tip_confirmations (id tip)
            (confs_i32 (grin_confs commit tip_height outputs)))
      | inr _ => mret tt
      end
  end.

Definition check_grin_confirmations : M unit :=
  match grin chains with
  | None => mret tt
  | Some g =>
      tips ← get_tips_pending_confirmation "grin";
      match tips with
      | [] => mret tt
      | _ =>
          tip_height ← get_height g;
          for_each (count_grin g tip_height) tips
      end
  end.

(** * Amount verification *)

Definition verify_lws (lws : option LwsClient) (tip : SocialTipRow)
  : M FundingVerification :=
  match lws, tip_address tip, tip_view_key tip with
  | Some lws, Some address, Some view_key =>
      r ← attempt (get_address_txs lws address view_key);
      match r with
      | inl txs => lift (classify_funding_amount txs (amount tip))
      | inr _ => mret LwsError
      end
  | _, _, _ => mret LwsError
  end.

(** What one confirmed transaction adds to the two totals; [None] is a
    rejected amount. *)
Definition electrum_totals (address : string) (tx : VerboseTransaction)
    (tot : u64 * u64) : option (u64 * u64) :=
  match total_received_at tx address with
  | Ok recv =>
      let total_received := u64_saturating_add tot.1 recv in
      if (recv =? 0)%Z then
        match total_sent_from tx address with
        | Ok (Some sent) => Some (total_received, u64_saturating_add tot.2 sent)
        | Ok None => Some (total_received, tot.2)
        | _ => None
        end
      else Some (total_received, tot.2)
  | _ => None
  end.

(** The loop over the confirmed history: [None] bails out of the tick. *)
Fixpoint electrum_loop (c : ElectrumClient) (address : string)
    (tot : u64 * u64) (entries : list ElectrumHistoryEntry)
  : M (option (u64 * u64)) :=
  match entries with
  | [] => mret (Some tot)
  | entry :: rest =>
      r ← attempt (upstream (el_get_transaction_verbose c (he_tx_hash entry)));
      match r with
      | inl tx =>
          match electrum_totals address tx tot with
          | Some tot' => electrum_loop c address tot' rest
          | None => mret None
          end
      | inr _ => mret None
      end
  end.

Definition confirmed_entries (history : list ElectrumHistoryEntry)
  : list ElectrumHistoryEntry :=
  filter (fun e => (0 <? he_height e)%Z = true) history.

Definition verify_electrum (c : option ElectrumClient) (tip : SocialTipRow)
  : M FundingVerification :=
  match c, tip_address tip with
  | Some c, Some address =>
      r ← attempt (upstream (el_get_history c address));
      match r with
      | inl history =>
          let entries := confirmed_entries history in
          tot ← electrum_loop c address (0%Z, 0%Z) entries;
          match tot with
          | None => mret LwsError
          | Some (total_received, total_sent) =>
              match entries with
              | [] => mret Unfunded
              | _ => mret (classify_totals total_received total_sent (amount tip))
              end
          end
      | inr _ => mret LwsError
      end
  | _, _ => mret LwsError
  end.

Definition verify_grin (g : option GrinClient) (tip : SocialTipRow)
  : M FundingVerification :=
  match g, grin_commitment_of tip with
  | Some g, Some commit =>
      r ← attempt (get_outputs g [commit]);
      match r with
      | inl outputs =>
          let present := existsb (fun o => go_commit o =? commit) outputs in
          mret (grin_amount_from_presence present (amount tip))
      | inr _ => mret LwsError
      end
  | _, _ => mret LwsError
  end.

Definition verify_funding_amount (tip : SocialTipRow) : M FundingVerification :=
  let a := to_lowercase (asset tip) in
  if a =? "xmr" then verify_lws (xmr chains) tip
  else if a =? "wow" then verify_lws (wow chains) tip
  else if a =? "btc" then verify_electrum (btc chains) tip
  else if a =? "ltc" then verify_electrum (ltc chains) tip
  else if a =? "grin" then verify_grin (grin chains) tip
  else mret LwsError.

Definition act_on_verification (tip : SocialTipRow) (v : FundingVerification)
  : M unit :=
  match v with
  | Verified observed =>
      swallow (mark_tip_funding_verified (id tip) (i64_or_max observed))
  | Short observed =>
      swallow (mark_tip_funding_mismatch (id tip) (i64_or_max observed))
  | Unfunded | Drained _ _ | LwsError => swallow (touch_tip_last_check (id tip))
  end.

Definition verify_one (tip : SocialTipRow) : M unit :=
  v ← verify_funding_amount tip;
  act_on_verification tip v.

Definition process_pending_verifications : M unit :=
  tips ← get_tips_awaiting_amount_verification;
  for_each verify_one tips.

Definition CONFIRMATION_ASSETS : list string := ["xmr"; "wow"].

Definition run_tip_confirmation_cycle : M unit :=
  _ ← for_each (fun a => swallow (check_asset_confirmations a)) CONFIRMATION_ASSETS;
  _ ← swallow check_grin_confirmations;
  swallow process_pending_verifications.
End worker.

(** * Verdicts *)

(** A verdict the verifier may act on: it accepts the tip only on the whole
    declared amount, and rejects it only on a positive part of it. *)
Definition verdict_ok (declared : i64) (v : FundingVerification) : Prop :=
  match v with
  | Verified o => (declared <= i64_or_max o)%Z
  | Short o => (0 < i64_or_max o < declared)%Z
  | _ => True
  end.

Lemma expected_u64_cases declared :
  (declared < 0 /\ expected_u64 declared = 0)%Z \/
  (0 <= declared /\ expected_u64 declared = declared)%Z.
Proof. unfold expected_u64. destruct (Z.ltb_spec declared 0); auto. Qed.

Lemma i64_or_max_min o : i64_or_max o = Z.min o I64_MAX.
Proof. unfold i64_or_max. destruct (Z.leb_spec o I64_MAX); lia. Qed.

Lemma classify_totals_ok received sent declared :
  (declared <= I64_MAX)%Z ->
  verdict_ok declared (classify_totals received sent declared).
Proof.
  intros Hd. unfold classify_totals.
  pose proof (expected_u64_cases declared) as Hw.
  set (want := expected_u64 declared) in *. clearbody want.
  repeat case_goal; simpl; try done; rewrite i64_or_max_min; split_bools;
    unfold_int; lia.
Qed.

Lemma classify_funding_ok txs declared v :
  (declared <= I64_MAX)%Z -> classify_funding_amount txs declared = Ok v ->
  verdict_ok declared v.
Proof.
  intros Hd H. unfold classify_funding_amount in H.
  apply bind_Ok in H as (r & _ & H). apply bind_Ok in H as (s & _ & [= <-]).
  by apply classify_totals_ok.
Qed.

Lemma grin_verdict_ok present declared :
  (declared <= I64_MAX)%Z -> verdict_ok declared (grin_amount_from_presence present declared).
Proof.
  intros Hd. destruct present; simpl; [|done].
  pose proof (expected_u64_cases declared). rewrite i64_or_max_min. unfold_int. lia.
Qed.

(** * The worker is made of steps of the system *)

Section safety.
Context `{Ext} (chains : ChainClients) (G : (nat -> Uuid) -> Prop).
Context (amt : Uuid -> Z).

Lemma safe_address_txs c address view_key :
  tip_safe G amt (get_address_txs c address view_key) (fun _ => True).
Proof. unfold get_address_txs. triple_steps. Qed.

Lemma safe_blockchain_height c :
  tip_safe G amt (get_blockchain_height c) (fun _ => True).
Proof. unfold get_blockchain_height. triple_steps. Qed.

Lemma safe_tx_confirmations c txid :
  tip_safe G amt (get_transaction_confirmations c txid) (fun _ => True).
Proof.
  unfold get_transaction_confirmations. pose proof safe_blockchain_height.
  triple_steps.
Qed.

Lemma safe_get_outputs c commits :
  tip_safe G amt (get_outputs c commits) (fun _ => True).
Proof. unfold get_outputs. triple_steps. Qed.

Lemma safe_electrum_loop c address tot entries :
  tip_safe G amt (electrum_loop c address tot entries) (fun _ => True).
Proof.
  revert tot. induction entries as [|e es IH]; intros tot; simpl; triple_steps.
Qed.

#[local] Hint Resolve safe_address_txs safe_tx_confirmations safe_get_outputs
  safe_electrum_loop : triple.

Lemma safe_count_one lws tip : tip_safe G amt (count_one lws tip) (fun _ => True).
Proof. unfold count_one. triple_steps. Qed.

Lemma safe_count_grin g h tip : tip_safe G amt (count_grin g h tip) (fun _ => True).
Proof. unfold count_grin. triple_steps. Qed.

Lemma safe_pending_confirmation a :
  tip_safe G amt (get_tips_pending_confirmation a) (Forall (row_ok amt)).
Proof. apply query_select_limit. Qed.

Lemma safe_awaiting_verification :
  tip_safe G amt get_tips_awaiting_amount_verification (Forall (row_ok amt)).
Proof. apply query_select_limit. Qed.

Lemma safe_check_asset a :
  tip_safe G amt (check_asset_confirmations chains a) (fun _ => True).
Proof.
  unfold check_asset_confirmations.
  destruct (if a =? "xmr" then _ else _) as [lws|]; [|by apply triple_ret].
  eapply triple_bind; [apply safe_pending_confirmation|]. intros tips Htips.
  eapply triple_for_each; [exact Htips|]. intros. apply safe_count_one.
Qed.

Lemma safe_check_grin :
  tip_safe G amt (check_grin_confirmations chains) (fun _ => True).
Proof.
  unfold check_grin_confirmations. case_goal; [|by apply triple_ret].
  eapply triple_bind; [apply safe_pending_confirmation|]. intros tips Htips.
  case_goal; [by apply triple_ret|].
  eapply triple_bind; [apply triple_upstream_any|]. intros h _.
  eapply triple_for_each; [exact Htips|]. intros. apply safe_count_grin.
Qed.

Context (amt_i64 : forall k, (amt k <= I64_MAX)%Z).

Lemma row_amount r : row_ok amt r -> amount r = amt (id r).
Proof. apply wf_amount. Qed.

Section verdicts.
Context (tip : SocialTipRow) (amount_i64 : (amount tip <= I64_MAX)%Z).

Lemma safe_verify_lws c :
  tip_safe G amt (verify_lws c tip) (verdict_ok (amount tip)).
Proof.
  unfold verify_lws. triple_steps.
  apply triple_lift. intros v. by apply classify_funding_ok.
Qed.

Lemma safe_verify_electrum c :
  tip_safe G amt (verify_electrum c tip) (verdict_ok (amount tip)).
Proof. unfold verify_electrum. triple_steps. by apply classify_totals_ok. Qed.

Lemma safe_verify_grin c :
  tip_safe G amt (verify_grin c tip) (verdict_ok (amount tip)).
Proof. unfold verify_grin. triple_steps. by apply grin_verdict_ok. Qed.

Lemma safe_verify :
  tip_safe G amt (verify_funding_amount chains tip) (verdict_ok (amount tip)).
Proof.
  unfold verify_funding_amount.
  repeat match goal with
  | |- triple _ _ _ (if ?b then _ else _) _ => destruct b
  end;
    first [apply safe_verify_lws|apply safe_verify_electrum
          |apply safe_verify_grin|by apply triple_ret].
Qed.
End verdicts.

Lemma safe_verify_one tip :
  row_ok amt tip -> tip_safe G amt (verify_one chains tip) (fun _ => True).
Proof.
  intros Hr. eapply triple_bind.
  { apply safe_verify. rewrite (row_amount tip) by done. apply amt_i64. }
  intros v Hv.
  rewrite (row_amount tip) in Hv by done.
  destruct v; simpl in *; triple_steps.
Qed.

Lemma safe_process_pending :
  tip_safe G amt (process_pending_verifications chains) (fun _ => True).
Proof.
  eapply triple_bind; [apply safe_awaiting_verification|]. intros tips Htips.
  eapply triple_for_each; [exact Htips|]. apply safe_verify_one.
Qed.

(** C5: the funding worker is safe under every interleaving and every
    behaviour of the upstream servers: whatever the other tasks do between its
    statements and whichever of its statements fail, all it does to the
    database is a sequence of legal steps of the tips' state machine, and the
    invariant of the tip store holds throughout. *)
Theorem confirmation_cycle_safe :
  tip_safe G amt (run_tip_confirmation_cycle chains) (fun _ => True).
Proof.
  unfold run_tip_confirmation_cycle.
  eapply triple_bind.
  { apply (triple_for_each _ _ _ _ (fun _ => True)); [by repeat constructor|].
    intros a _. eapply triple_swallow; [apply safe_check_asset|done]. }
  intros _ _. eapply triple_bind.
  { eapply (triple_swallow _ _ _ _ _ (fun _ => True)); [apply safe_check_grin|done]. }
  intros _ _. eapply triple_swallow; [apply safe_process_pending|done].
Qed.
End safety.

(** * Which verdict *)

(** C19: the verdict on a light-wallet-server response is exact: over the
    confirmed transactions, with [R] received and [S] sent in total, the tip is
    verified exactly when [R - S] covers the declared amount, drained when it
    does not and anything was sent, short when something but too little was
    received, unfunded when nothing was; and the worker panics exactly when one
    of the totals does not fit a [u64]. *)
Theorem classify_exact txs declared
    (Hu : Forall (fun tx => in_u64 (at_total_received tx) /\ in_u64 (at_total_sent tx))
            (confirmed_txs txs))
    (Hd : (0 < declared)%Z) :
  let R := Zsum (at_total_received <$> confirmed_txs txs) in
  let S := Zsum (at_total_sent <$> confirmed_txs txs) in
  classify_funding_amount txs declared =
  if (U64_MAX <? R)%Z || (U64_MAX <? S)%Z then Panic
  else if (declared <=? R - S)%Z then Ok (Verified (R - S))
  else if (0 <? S)%Z then Ok (Drained (Z.max 0 (R - S)) S)
  else if (R =? 0)%Z then Ok Unfunded
  else Ok (Short R).
Proof.
  intros R S. unfold classify_funding_amount.
  assert (HR : Forall in_u64 (at_total_received <$> confirmed_txs txs))
    by (apply Forall_fmap; eapply Forall_impl; [exact Hu|]; by intros ? []).
  assert (HS : Forall in_u64 (at_total_sent <$> confirmed_txs txs))
    by (apply Forall_fmap; eapply Forall_impl; [exact Hu|]; by intros ? []).
  pose proof (Zsum_nonneg _ HR) as HR0. pose proof (Zsum_nonneg _ HS) as HS0.
  rewrite (u64_sum_spec _ HR), (u64_sum_spec _ HS). fold R S in HR0, HS0 |- *.
  clearbody R S. clear HR HS Hu.
  destruct (Z.ltb_spec U64_MAX R), (Z.leb_spec R U64_MAX); try lia; [done|].
  destruct (Z.ltb_spec U64_MAX S), (Z.leb_spec S U64_MAX); try lia; [done|].
  simpl. unfold classify_totals, expected_u64, u64_saturating_sub, clamp.
  destruct (Z.ltb_spec declared 0); [lia|].
  replace (Z.max 0 (Z.min U64_MAX (R - S))) with (Z.max 0 (R - S))%Z by lia.
  repeat case_goal; split_bools; try lia; do 2 f_equal; lia.
Qed.

(** * Outages *)

Definition electrum_down (c : ElectrumClient) : Prop :=
  forall a, down (el_get_history c a).
Definition lws_down (c : LwsClient) : Prop :=
  (forall a v, down (lws_post_address_txs c a v)) /\ down (lws_post_get_info c).
Definition grin_down (c : GrinClient) : Prop :=
  down (gr_get_status c) /\ forall cs, down (gr_rpc_get_outputs c cs).

(** Every enabled chain's server is down. *)
Definition all_down (chains : ChainClients) : Prop :=
  (forall c, btc chains = Some c \/ ltc chains = Some c -> electrum_down c) /\
  (forall c, xmr chains = Some c \/ wow chains = Some c -> lws_down c) /\
  (forall c, grin chains = Some c -> grin_down c).

(** The only statement issued during an outage. *)
Definition stamp_step : Rel := fun t d d' =>
  exists k ro, sql_touch_tip_last_check k t d = inr (d', ro).

(** Equal up to the time stamps of the last check. *)
Definition only_stamped (r r' : SocialTipRow) : Prop :=
  exists c u, r' = r <|last_confirmation_check := c|> <|updated_at := u|>.

Lemma only_stamped_refl r : only_stamped r r.
Proof. exists (last_confirmation_check r), (updated_at r). by destruct r. Qed.

Lemma only_stamped_trans r1 r2 r3 :
  only_stamped r1 r2 -> only_stamped r2 r3 -> only_stamped r1 r3.
Proof. intros (c & u & ->) (c' & u' & ->). exists c', u'. by destruct r1. Qed.

Definition db_stamped (d d' : Db) : Prop :=
  users d' = users d /\ sessions d' = sessions d /\
  grin_slatepacks d' = grin_slatepacks d /\
  forall k, option_Forall2 only_stamped (social_tips d !! k) (social_tips d' !! k).

Lemma stamp_steps d d' : steps stamp_step d d' -> db_stamped d d'.
Proof.
  induction 1 as [d|d1 d2 d3 (t & k & ro & Hu) _ (E1 & E2 & E3 & IH)].
  - split_and!; try done. intros k. destruct (_ !! k); constructor.
    apply only_stamped_refl.
  - assert (Hs : users d2 = users d1 /\ sessions d2 = sessions d1 /\
        grin_slatepacks d2 = grin_slatepacks d1 /\
        forall j, option_Forall2 only_stamped (social_tips d1 !! j) (social_tips d2 !! j)).
    { apply update_tip_inv in Hu as [(_ & -> & _)|(r & Hr & _ & _ & _ & ->)].
      - split_and!; try done. intros j. destruct (_ !! j); constructor.
        apply only_stamped_refl.
      - split_and!; try done. intros j. simpl.
        destruct (decide (k = j)) as [->|Hne].
        + rewrite Hr, lookup_insert_eq. constructor. exists (Some t), t.
          by destruct r.
        + rewrite lookup_insert_ne by done. destruct (_ !! j); constructor.
          apply only_stamped_refl. }
    destruct Hs as (F1 & F2 & F3 & Hs). split_and!; try congruence.
    intros j. specialize (Hs j). specialize (IH j).
    destruct Hs; inversion IH; subst; constructor. by eapply only_stamped_trans.
Qed.

Section outage.
Context `{Ext} (chains : ChainClients) (Hdown : all_down chains).

Abbreviation stamps_only m Q := (triple (fun _ => True) stamp_step (fun _ => True) m Q).

Lemma stamps_query_read {R} (s : Stmt R) :
  (forall t d d' r, s t d = inr (d', r) -> d' = d) ->
  stamps_only (query s) (fun _ => True).
Proof.
  intros Hs. apply triple_read; [done|]. intros t d d' r _ E. by apply Hs in E.
Qed.

Lemma stamps_select wh key n :
  stamps_only (query (select_tips_limit wh key n)) (fun _ => True).
Proof. apply stamps_query_read. by intros ? ? ? ? [= <- _]. Qed.

Lemma stamps_touch k : stamps_only (touch_tip_last_check k) (fun _ => True).
Proof.
  eapply triple_bind; [|intros; by apply triple_ret]. apply triple_stmt; [done|].
  intros t d d' r _ E. split; [|exact Logic.I]. apply (steps_once _ t). by exists k, r.
Qed.

Lemma stamps_attempt {A B} (m : M A) (k : A + AppError -> M B) Q :
  stamps_only m (fun _ => False) -> (forall e, stamps_only (k (inr e)) Q) ->
  stamps_only (attempt m ≫= k) Q.
Proof.
  intros Hm Hk. eapply triple_bind; [by apply triple_attempt|].
  intros [a|e] Ha; [done|apply Hk].
Qed.

Lemma stamps_bind_down {A B} (f : nat -> outcome A) (k : A -> M B) Q :
  down f -> stamps_only (upstream f ≫= k) Q.
Proof. intros Hf. eapply triple_bind; [by apply triple_down|]. by intros ? []. Qed.

Lemma stamps_verify tip :
  stamps_only (verify_funding_amount chains tip) (fun v => v = LwsError).
Proof.
  destruct Hdown as (He & Hl & Hg).
  assert (Hlws : forall c, xmr chains = c \/ wow chains = c ->
    stamps_only (verify_lws c tip) (fun v => v = LwsError)).
  { intros [c|] Hc; [|by apply triple_ret]. unfold verify_lws.
    destruct (tip_address tip) as [a|], (tip_view_key tip) as [v|];
      try by apply triple_ret.
    apply stamps_attempt; [|intros; by apply triple_ret].
    apply stamps_bind_down. by apply Hl. }
  assert (Hel : forall c, btc chains = c \/ ltc chains = c ->
    stamps_only (verify_electrum c tip) (fun v => v = LwsError)).
  { intros [c|] Hc; [|by apply triple_ret]. unfold verify_electrum.
    destruct (tip_address tip) as [a|]; [|by apply triple_ret].
    apply stamps_attempt; [|intros; by apply triple_ret].
    apply triple_down. by apply He. }
  assert (Hgr : stamps_only (verify_grin (grin chains) tip) (fun v => v = LwsError)).
  { destruct (grin chains) as [g|] eqn:E; [|by apply triple_ret]. unfold verify_grin.
    destruct (grin_commitment_of tip) as [a|]; [|by apply triple_ret].
    apply stamps_attempt; [|intros; by apply triple_ret].
    apply triple_down. by apply Hg. }
  unfold verify_funding_amount. repeat case_goal; auto. by apply triple_ret.
Qed.

Lemma stamps_verify_one tip : stamps_only (verify_one chains tip) (fun _ => True).
Proof.
  eapply triple_bind; [apply stamps_verify|]. intros v ->.
  eapply triple_swallow; [apply stamps_touch|done].
Qed.

Lemma stamps_batch (m : M (list SocialTipRow)) (f : SocialTipRow -> M unit) :
  stamps_only m (fun _ => True) ->
  (forall r, stamps_only (f r) (fun _ => True)) ->
  stamps_only (rows ← m; for_each f rows) (fun _ => True).
Proof.
  intros Hm Hf. eapply triple_bind; [exact Hm|]. intros rows _.
  apply (triple_for_each _ _ _ _ (fun _ => True)); [by apply Forall_true|auto].
Qed.

Lemma stamps_count_one c tip :
  lws_down c -> stamps_only (count_one c tip) (fun _ => True).
Proof.
  intros [_ Hi]. unfold count_one. case_goal; [|by apply triple_ret].
  apply stamps_attempt; [|intros; by apply triple_ret].
  unfold get_transaction_confirmations, get_blockchain_height.
  destruct (is_empty _); [by apply triple_lift|].
  eapply (triple_bind _ _ _ _ _ (fun _ => False)); [by apply stamps_bind_down|].
  by intros ? [].
Qed.

Lemma stamps_check_asset a :
  stamps_only (check_asset_confirmations chains a) (fun _ => True).
Proof.
  unfold check_asset_confirmations.
  destruct (if a =? "xmr" then _ else _) as [c|] eqn:E; [|by apply triple_ret].
  apply stamps_batch; [apply stamps_select|]. intros r.
  apply stamps_count_one. apply Hdown. repeat case_hyp E; auto; done.
Qed.

Lemma stamps_check_grin :
  stamps_only (check_grin_confirmations chains) (fun _ => True).
Proof.
  unfold check_grin_confirmations.
  destruct (grin chains) as [g|] eqn:E; [|by apply triple_ret].
  eapply triple_bind; [apply stamps_select|]. intros [|r rows] _;
    [by apply triple_ret|]. apply stamps_bind_down. by apply Hdown.
Qed.

Lemma stamps_cycle : stamps_only (run_tip_confirmation_cycle chains) (fun _ => True).
Proof.
  unfold run_tip_confirmation_cycle. eapply triple_bind.
  { apply (triple_for_each _ _ _ _ (fun _ => True)); [by apply Forall_true|].
    intros a _. eapply triple_swallow; [apply stamps_check_asset|done]. }
  intros _ _. eapply triple_bind.
  { eapply (triple_swallow _ _ _ _ _ (fun _ => True)); [apply stamps_check_grin|done]. }
  intros _ _. eapply triple_swallow; [|done].
  apply stamps_batch; [apply stamps_select|apply stamps_verify_one].
Qed.
End outage.

(** While the upstream servers are down a pass of the funding worker
    moves nothing: whatever statements of its own fail, every tip keeps its
    status, its counters and its verification state, only the time of its last
    check may change; no other table is touched. *)
Theorem outage_changes_nothing `{Ext} chains w w' o
    (Hdown : all_down chains)
    (Halone : Forall (fun sl => forall t d, sl_env sl t d = d) (w_sched w))
    (Hrun : run_tip_confirmation_cycle chains w = (w', o)) :
  db_stamped (w_db w) (w_db w').
Proof.
  assert (Hok : sched_ok stamp_step (w_sched w)).
  { eapply Forall_impl; [exact Halone|]. intros sl Hsl t d. simpl. rewrite Hsl.
    apply steps_refl. }
  destruct (triple_run _ _ _ _ _ w w' o (stamps_cycle chains Hdown)
    Logic.I Hok Logic.I Hrun) as (Hs & _). by apply stamp_steps.
Qed.

(** * Progress *)

(** [m] runs to a value from every quiet world and changes no row but [j]. *)
Definition writes_only (j : Uuid) {A} (m : M A) : Prop := forall w,
  w_sched w = [] -> exists w' a, m w = (w', Ok a) /\ w_sched w' = [] /\
  w_now w' = w_now w /\ (tips_checked (w_db w) -> tips_checked (w_db w')) /\
  forall k, k <> j -> social_tips (w_db w') !! k = social_tips (w_db w) !! k.

Lemma swallow_writes_only `{Ext} {A} j wh set_ (f : option SocialTipRow -> M A) :
  (forall o, exists a, f o = mret a) ->
  writes_only j (swallow (o ← query (update_tip j wh set_); f o)).
Proof.
  intros Hf w Hq. unfold swallow, attempt, query, mbind, M_bind.
  rewrite (run_stmt_quiet _ _ _ Hq).
  destruct (update_tip _ _ _ _ _) as [e|[d ro]] eqn:E; simpl.
  - exists w, tt. by split_and!.
  - destruct (Hf ro) as [a ->]. simpl. do 2 eexists. split; [reflexivity|].
    simpl. apply update_tip_inv in E as [(_ & -> & _)|(r & _ & _ & _ & Hv & ->)];
      [by destruct w|].
    split_and!; try done; [intros; by apply tips_checked_insert|].
    intros k Hk. simpl. by rewrite lookup_insert_ne by done.
Qed.

Lemma swallow_update_eq `{Ext} j wh set_ w :
  swallow (query (update_tip j wh set_)) w =
  swallow (o ← query (update_tip j wh set_); mret o) w.
Proof.
  unfold swallow, attempt, query, mbind, M_bind.
  by destruct (run_stmt _ _ w) as [? []].
Qed.

Lemma act_writes_only `{Ext} tip v : writes_only (id tip) (act_on_verification tip v).
Proof.
  assert (Hup : forall wh set_,
    writes_only (id tip) (swallow (query (update_tip (id tip) wh set_)))).
  { intros wh set_ w Hq. rewrite swallow_update_eq.
    by apply (swallow_writes_only _ _ _ mret ltac:(eauto)). }
  destruct v; simpl; try apply Hup; apply swallow_writes_only; eauto.
Qed.

Section progress.
Context `{Ext} (chains : ChainClients).

Lemma db_free_electrum_loop c a tot es : db_free (electrum_loop c a tot es).
Proof. revert tot. induction es as [|e es IH]; intros tot; simpl; db_free_steps. Qed.
#[local] Hint Resolve db_free_electrum_loop : core.

Lemma db_free_verify tip : db_free (verify_funding_amount chains tip).
Proof.
  unfold verify_funding_amount, verify_lws, verify_electrum, verify_grin,
    get_address_txs, get_outputs.
  repeat match goal with |- db_free (if ?b then _ else _) => destruct b end;
    db_free_steps.
Qed.

(** No verdict is an error. *)
Lemma verify_no_error tip w e : (verify_funding_amount chains tip w).2 <> Err e.
Proof.
  assert (Hatt : forall {A B} (m : M A) (k : A + AppError -> M B),
    (forall x w, (k x w).2 <> Err e) -> forall w, ((attempt m ≫= k) w).2 <> Err e).
  { intros A B m k Hk w0. unfold mbind, M_bind, attempt.
    destruct (m w0) as [w1 []]; simpl; auto. }
  assert (Hl : forall c w, (verify_lws c tip w).2 <> Err e).
  { intros c w0. unfold verify_lws.
    destruct c as [c|], (tip_address tip) as [a|], (tip_view_key tip); try done.
    apply Hatt. intros [txs|] w1; [|done]. simpl. unfold classify_funding_amount.
    by destruct (u64_sum _), (u64_sum _). }
  assert (Hloop : forall c a es tot w,
    (electrum_loop c a tot es w).2 <> Err e).
  { intros c a es. induction es as [|en es IH]; intros tot w0; simpl; [done|].
    apply Hatt. intros [tx|] w1; [|done]. destruct (electrum_totals _ _ _); auto. }
  assert (He : forall c w, (verify_electrum c tip w).2 <> Err e).
  { intros c w0. unfold verify_electrum.
    destruct c as [c|], (tip_address tip) as [a|]; try done.
    apply Hatt. intros [h|] w1; [|done]. unfold mbind, M_bind.
    specialize (Hloop c a (confirmed_entries h) (0%Z, 0%Z) w1).
    destruct (electrum_loop _ _ _ _ _) as [w2 [[[tr ts]|]| |]]; simpl in *;
      try congruence. by destruct (confirmed_entries h). }
  assert (Hg : forall c w, (verify_grin c tip w).2 <> Err e).
  { intros c w0. unfold verify_grin.
    destruct c as [c|], (grin_commitment_of tip) as [a|]; try done.
    apply Hatt. by intros [h|] w1. }
  unfold verify_funding_amount. by repeat case_goal.
Qed.

Lemma verify_writes_only tip :
  (forall w, (verify_funding_amount chains tip w).2 <> Panic) ->
  writes_only (id tip) (verify_one chains tip).
Proof.
  intros Hp w Hq. unfold verify_one. unfold mbind at 1, M_bind at 1.
  pose proof (db_free_verify tip w) as (E1 & E2 & E3).
  specialize (Hp w). pose proof (verify_no_error tip w) as He.
  destruct (verify_funding_amount chains tip w) as [w1 [v|e|]]; simpl in *;
    [|by destruct (He e)|done].
  destruct (act_writes_only tip v w1) as (w2 & [] & Ew & H2 & H3 & H4 & H5);
    [congruence|].
  exists w2, tt. split; [exact Ew|]. rewrite E1 in *. by rewrite E3 in *.
Qed.

(** The tip [k] after a pass that verified it. *)
Definition now_claimable (o : u64) (r r' : SocialTipRow) : Prop :=
  status r' = as_str Pending /\ funding_amount_verified r' = true /\
  funding_amount_observed r' = Some (i64_or_max o) /\
  confirmations_required r' = confirmations_required r /\
  funding_confirmations r' = funding_confirmations r /\
  is_public r' = is_public r /\ recipient_user_id r' = recipient_user_id r.

Lemma verify_one_hit tip o w :
  w_sched w = [] -> tips_checked (w_db w) ->
  social_tips (w_db w) !! id tip = Some tip ->
  unverified_where 0 tip = true ->
  (forall w, (verify_funding_amount chains tip w).2 = Ok (Verified o)) ->
  exists r', social_tips (w_db (verify_one chains tip w).1) !! id tip = Some r' /\
    now_claimable o tip r'.
Proof.
  intros Hq Hc Hr Hw Hv. unfold verify_one. unfold mbind, M_bind.
  pose proof (db_free_verify tip w) as (E1 & E2 & E3). specialize (Hv w).
  destruct (verify_funding_amount chains tip w) as [w1 [v|e|]]; simpl in *;
    [|done..]. injection Hv as ->. simpl.
  assert (Hq1 : w_sched w1 = []) by congruence.
  unfold swallow, attempt, mark_tip_funding_verified, query.
  unfold mbind, M_bind. rewrite (run_stmt_quiet _ _ _ Hq1), E1, E3.
  unfold sql_mark_tip_funding_verified.
  rewrite (update_tip_hit _ _ _ _ _ tip); [|done|exact Hw|].
  - simpl. rewrite lookup_insert_eq. eexists. split; [reflexivity|]. done.
  - specialize (Hc _ _ Hr). apply (tip_violation_status _ tip _ Pending); try done.
    simpl. constraints_of Hc. done.
Qed.

Lemma now_claimable_not_unverified o r r' t :
  now_claimable o r r' -> unverified_where t r' = false.
Proof. intros (Hs & _). unfold unverified_where, status_in. by rewrite Hs. Qed.

(** Once accepted, a second look at the same stale row changes nothing. *)
Lemma verify_one_again tip o w r' :
  w_sched w = [] -> social_tips (w_db w) !! id tip = Some r' ->
  now_claimable o tip r' ->
  (forall w, (verify_funding_amount chains tip w).2 = Ok (Verified o)) ->
  w_db (verify_one chains tip w).1 = w_db w.
Proof.
  intros Hq Hr Hn Hv. unfold verify_one. unfold mbind, M_bind.
  pose proof (db_free_verify tip w) as (E1 & E2 & E3). specialize (Hv w).
  destruct (verify_funding_amount chains tip w) as [w1 [v|e|]]; simpl in *;
    [|done..]. injection Hv as ->. simpl.
  assert (Hq1 : w_sched w1 = []) by congruence.
  unfold swallow, attempt, mark_tip_funding_verified, query.
  unfold mbind, M_bind. rewrite (run_stmt_quiet _ _ _ Hq1), E1, E3.
  unfold sql_mark_tip_funding_verified.
  rewrite update_tip_miss; [done|]. intros r0 E. rewrite Hr in E.
  injection E as <-. by eapply now_claimable_not_unverified.
Qed.

Section batch.
Context (r : SocialTipRow) (o : u64).
Context (accepted : forall w, (verify_funding_amount chains r w).2 = Ok (Verified o)).
Context (no_panic : forall tip w, (verify_funding_amount chains tip w).2 <> Panic).

Lemma batch_settled rows w r' :
  w_sched w = [] -> tips_checked (w_db w) ->
  (forall x, x ∈ rows -> id x = id r -> x = r) ->
  social_tips (w_db w) !! id r = Some r' -> now_claimable o r r' ->
  (for_each (verify_one chains) rows w).2 = Ok tt /\
  social_tips (w_db (for_each (verify_one chains) rows w).1) !! id r = Some r'.
Proof.
  revert w. induction rows as [|x rows IH]; intros w Hq Hc Hids Hr Hn; simpl; [done|].
  unfold mbind, M_bind.
  destruct (verify_writes_only x (no_panic x) w Hq)
    as (w1 & [] & Ew & Hq1 & _ & Hc1 & Hk).
  rewrite Ew. apply IH; auto; [intros; apply Hids; [by constructor|done]|].
  destruct (decide (id x = id r)) as [E|]; [|by rewrite Hk].
  rewrite (Hids x) in Ew by (by constructor || done).
  pose proof (verify_one_again r o w r' Hq Hr Hn accepted) as Hdb.
  rewrite Ew in Hdb. simpl in Hdb. by rewrite Hdb.
Qed.

Lemma batch_accepts rows w :
  w_sched w = [] -> tips_checked (w_db w) ->
  (forall x, x ∈ rows -> id x = id r -> x = r) -> r ∈ rows ->
  social_tips (w_db w) !! id r = Some r -> unverified_where 0 r = true ->
  (for_each (verify_one chains) rows w).2 = Ok tt /\
  exists r', social_tips (w_db (for_each (verify_one chains) rows w).1) !! id r
    = Some r' /\ now_claimable o r r'.
Proof.
  revert w. induction rows as [|x rows IH]; intros w Hq Hc Hids Hin Hr Hw;
    [by apply elem_of_nil in Hin|]. simpl. unfold mbind, M_bind.
  destruct (verify_writes_only x (no_panic x) w Hq)
    as (w1 & [] & Ew & Hq1 & _ & Hc1 & Hk).
  assert (Hids' : forall y, y ∈ rows -> id y = id r -> y = r)
    by (intros; apply Hids; [by constructor|done]).
  rewrite Ew. destruct (decide (id x = id r)) as [E|Hne].
  - assert (x = r) as -> by (apply Hids; [by constructor|done]).
    destruct (verify_one_hit r o w) as (r' & Hr' & Hn); try done.
    rewrite Ew in Hr'. simpl in Hr'.
    destruct (batch_settled rows w1 r') as [? ?]; eauto.
  - apply IH; auto; [|by rewrite Hk].
    apply elem_of_cons in Hin as [->|]; done.
Qed.
End batch.
End progress.

(** The tips the amount verifier looks at in this pass. *)
Definition awaiting_batch (w : World) : list SocialTipRow :=
  take 50 (merge_sort (row_le by_created_asc)
    (filter (fun r => awaiting_verification_where (w_now w) r = true)
       (tip_rows (w_db w)))).

Lemma process_pending_quiet `{Ext} chains w :
  w_sched w = [] ->
  process_pending_verifications chains w =
  for_each (verify_one chains) (awaiting_batch w) w.
Proof.
  intros Hq. unfold process_pending_verifications, get_tips_awaiting_amount_verification,
    query, awaiting_batch. unfold mbind, M_bind. rewrite (run_stmt_quiet _ _ _ Hq).
  unfold select_tips_limit, select_tips. by destruct w.
Qed.

Lemma elem_of_awaiting w r :
  r ∈ awaiting_batch w ->
  awaiting_verification_where (w_now w) r = true /\ r ∈ tip_rows (w_db w).
Proof.
  intros (i & Hi & _)%elem_of_take. apply list_elem_of_lookup_2 in Hi.
  rewrite merge_sort_Permutation in Hi. by apply list_elem_of_filter in Hi.
Qed.

(** Money that arrived becomes claimable: when a tip is in the batch of
    a pass of the verifier and its verdict is [Verified], then, unless the
    verdict on some tip panics, the pass ends with the tip [pending] and
    verified, and everybody the tip is for can claim it, however many other
    tips the batch holds and whatever their verdicts. *)
Theorem verified_tip_becomes_claimable `{Ext} chains amt w r o
    (Hinv : tips_inv amt (w_db w)) (Hq : w_sched w = [])
    (Hin : r ∈ awaiting_batch w)
    (Hok : forall w, (verify_funding_amount chains r w).2 = Ok (Verified o))
    (Hnp : forall tip w, (verify_funding_amount chains tip w).2 <> Panic) :
  let '(w', res) := process_pending_verifications chains w in
  res = Ok tt /\ exists r', social_tips (w_db w') !! id r = Some r' /\
    status r' = as_str Pending /\
    funding_amount_observed r' = Some (i64_or_max o) /\
    forall u, (is_public r = true \/ recipient_user_id r = Some u) -> claim_ready u r'.
Proof.
  rewrite process_pending_quiet by done.
  destruct (elem_of_awaiting _ _ Hin) as [Hw [k Hk]%elem_of_tip_rows].
  assert (Hids : forall j x, social_tips (w_db w) !! j = Some x -> id x = j).
  { intros j x Hx. by apply (wf_id _ _ _ (proj1 Hinv _ _ Hx)). }
  pose proof (Hids _ _ Hk) as Hid. subst k.
  destruct (batch_accepts chains r o Hok Hnp (awaiting_batch w) w)
    as (Hres & r' & Hr' & Hn); try done.
  - apply Hinv.
  - intros x [_ [j Hj]%elem_of_tip_rows]%elem_of_awaiting E.
    rewrite <- (Hids _ _ Hj) in Hj. rewrite E in Hj. congruence.
  - unfold awaiting_verification_where in Hw.
    apply andb_true_iff in Hw as [[Hw _]%andb_true_iff _]. exact Hw.
  - destruct (for_each _ _ _) as [w' res]. simpl in *. split; [done|].
    destruct Hn as (Hs & Hv & Hob & Hcr & Hfc & Hp & Hrec).
    exists r'. split_and!; try done. intros u Hu. unfold claim_ready.
    rewrite Hcr, Hfc, Hp, Hrec. split_and!; [by left| |].
    + unfold awaiting_verification_where in Hw. by split_bools.
    + destruct Hu as [->|]; done.
Qed.

(** One tip whose totals overflow aborts the verification pass: the pass
    panics at it, so the tips behind it in the batch are not looked at, at this
    and at every later pass. *)
Theorem poisoned_tip_aborts_pass `{Ext} chains w r
    (Hq : w_sched w = []) (Hin : r ∈ awaiting_batch w)
    (Hp : forall w, (verify_funding_amount chains r w).2 = Panic) :
  (process_pending_verifications chains w).2 = Panic.
Proof.
  rewrite process_pending_quiet by done.
  revert Hin Hq. generalize (awaiting_batch w) as rows. intros rows. revert w.
  induction rows as [|x rows IH]; intros w Hin Hq; [by apply elem_of_nil in Hin|].
  simpl. unfold mbind, M_bind, verify_one at 1.
  pose proof (verify_no_error chains x w) as He.
  pose proof (db_free_verify chains x w) as (_ & Es & _). specialize (Hp w) as Hpw.
  apply elem_of_cons in Hin as [<-|Hin].
  { unfold mbind, M_bind. by destruct (verify_funding_amount _ r w) as [? []]. }
  unfold mbind, M_bind.
  destruct (verify_funding_amount _ x w) as [w1 [v|e|]]; simpl in *;
    [|by destruct (He e)|done].
  destruct (act_writes_only x v w1) as (w2 & [] & -> & H2 & _); [congruence|].
  by apply IH.
Qed.

(** * Concrete runs *)

(** Only Grin is enabled, and the node has the voucher of tip 10. *)
Definition demo_grin : GrinClient :=
  mkGrinClient (fun _ => Ok 20%Z)
    (fun _ _ => Ok [mkGrinOutputInfo "08aa" (Some 11%Z) 0]) (fun _ _ => Ok None).
Definition demo_chains : ChainClients :=
  mkChainClients None None None None (Some demo_grin).

Definition demo_w : World := quiet_world demo_confirmed (100 * SECOND).

Lemma demo_no_panic tip w :
  (verify_funding_amount demo_chains tip w).2 <> Panic.
Proof.
  unfold verify_funding_amount. simpl. by repeat case_goal.
Qed.

Lemma demo_run_confirmed : steps (tip_step demo_amount) demo_users_db demo_confirmed.
Proof.
  eapply steps_trans; [apply demo_run_created|].
  eapply rtc_l; [apply demo_step_funded|]. apply rtc_once, demo_step_confirmed.
Qed.

Lemma verified_tip_becomes_claimable_witness :
  claim_ready 2 (demo_row (w_db (process_pending_verifications demo_chains demo_w).1) 10).
Proof.
  assert (H := verified_tip_becomes_claimable demo_chains demo_amount demo_w
    (demo_row demo_confirmed 10) 500 (demo_inv _ demo_run_confirmed) eq_refl).
  destruct (process_pending_verifications demo_chains demo_w) as [w' res].
  destruct H as (_ & r' & Hr' & _ & _ & Hc).
  - apply (list_elem_of_lookup_2 _ 0). by vm_compute.
  - intros w. reflexivity.
  - apply demo_no_panic.
  - unfold demo_row. simpl. change (id (demo_row demo_confirmed 10)) with 10%N in Hr'.
    rewrite Hr'. apply Hc. left. by vm_compute.
Defined.

Lemma confirmation_cycle_safe_witness :
  tip_safe (fun _ => True) demo_amount (run_tip_confirmation_cycle demo_chains)
    (fun _ => True).
Proof.
  apply (confirmation_cycle_safe demo_chains (fun _ => True) demo_amount).
  intros k. unfold demo_amount. int_lia.
Defined.

(** A row of an address' history, and the answer it is in. *)
Definition demo_tx (hash : string) (height received sent : Z) (mempool : bool) : AddressTx :=
  mkAddressTx hash height "" received sent mempool 0 None [] primary.
Definition demo_txs_response (txs : list AddressTx) (height : Z) : AddressTxsResponse :=
  mkAddressTxsResponse txs 0 height height.

Definition demo_txs : AddressTxsResponse :=
  demo_txs_response
    [demo_tx "a" 5 700 0 false; demo_tx "b" 6 0 100 false; demo_tx "c" 0 900 0 true] 9.

Lemma classify_exact_witness :
  classify_funding_amount demo_txs 500 = Ok (Verified 600).
Proof.
  rewrite (classify_exact demo_txs 500); [reflexivity| |lia].
  repeat constructor; simpl; int_lia.
Defined.

Definition down_client : GrinClient :=
  mkGrinClient (fun _ => Err (NodeError "down")) (fun _ _ => Err (NodeError "down"))
    (fun _ _ => Err (NodeError "down")).
Definition down_chains : ChainClients :=
  mkChainClients None None None None (Some down_client).

Lemma outage_changes_nothing_witness :
  db_stamped demo_confirmed (w_db (run_tip_confirmation_cycle down_chains demo_w).1).
Proof.
  destruct (run_tip_confirmation_cycle down_chains demo_w) as [w' o] eqn:E.
  apply (outage_changes_nothing down_chains demo_w w' o); [|by constructor|exact E].
  split; [by intros c [?|?]|]. split; [by intros c [?|?]|].
  intros c [= <-]. split; [|intros cs]; intros n; by eexists.
Defined.

(** An XMR tip whose address received twice [2^63] atomic units. *)
Definition demo_xmr : NewSocialTip :=
  mkNewSocialTip 1 "xmr" 500 (Some "c0ffee") None (Some "4A") (Some "aa") (Some "vk") 0
    None None.
Definition demo_xmr_db : Db :=
  exec (sql_insert_social_tip 12 demo_xmr PendingConfirmation) 1 demo_users_db.
Definition poisoned_lws : LwsClient :=
  mkLwsClient "XMR" "http://d"
    (fun _ _ _ => Ok (demo_txs_response
       [demo_tx "a" 5 (2 ^ 63) 0 false; demo_tx "b" 6 (2 ^ 63) 0 false] 9))
    (fun _ => Err (NodeError "down")) (fun _ _ => Err (NodeError "down")).
Definition poisoned_chains : ChainClients :=
  mkChainClients None None (Some poisoned_lws) None None.

Lemma poisoned_tip_aborts_pass_witness :
  (process_pending_verifications poisoned_chains
     (quiet_world demo_xmr_db (100 * SECOND))).2 = Panic.
Proof.
  apply (poisoned_tip_aborts_pass poisoned_chains _ (demo_row demo_xmr_db 12));
    [reflexivity|apply (list_elem_of_lookup_2 _ 0); by vm_compute|].
  intros w. reflexivity.
Defined.
