(* ===== verification/Sweep.v ===== *)
(** [src/tips/sweep_reconciler.rs]: the reconciler that settles a tip once the
    sweep of its address is deep enough on chain, and reverts it when a
    reorganisation orphaned the sweep. *)

From Stdlib Require Import ZArith Lia Ascii String.
From S2P Require Import Prelude RustStr Errors Db Effects TipStatus SocialTips TipLifecycle TipSafety TipPrograms LwsTypes Chains TipFunding Demo.

Local Open Scope string_scope.

Definition BATCH_SIZE : i64 := 50.
Definition SWEEP_CONFIRM_ADVISORY_LOCK_KEY : i64 := 1408159937.   (* 0x53EE_D0C1 *)
Definition SWEEP_REORG_ADVISORY_LOCK_KEY : i64 := 1408159938.     (* 0x53EE_D0C2 *)

Record ConfirmedSpend := mkConfirmedSpend {
  cs_txid : string;
  cs_block_height : i64;
  cs_block_hash : option string;
}.

Definition sweep_confirm_threshold (asset : string) : u64 :=
  let a := to_lowercase asset in
  if (a =? "btc") || (a =? "ltc") then 1%Z
  else if a =? "wow" then 4%Z
  else if a =? "xmr" then 10%Z
  else if a =? "grin" then 10%Z
  else 10%Z.

(** [a.block_height.cmp(&b.block_height).then_with(|| a.txid.cmp(&b.txid))]. *)
Definition spend_cmp (a b : ConfirmedSpend) : comparison :=
  match (cs_block_height a ?= cs_block_height b)%Z with
  | Eq => String.compare (cs_txid a) (cs_txid b)
  | c => c
  end.

(** [iter.min_by(cmp)]: the first of the least elements. *)
Definition min_spend (a b : ConfirmedSpend) : ConfirmedSpend :=
  match spend_cmp a b with Gt => b | _ => a end.

Definition pick_winner (spends : list ConfirmedSpend) : option ConfirmedSpend :=
  match spends with
  | [] => None
  | s :: rest => Some (foldl min_spend s rest)
  end.

Definition is_verbose_tx_spend_of (tx : VerboseTransaction) (address : string)
  : outcome bool :=
  recv ← total_received_at tx address;
  Ok (recv =? 0)%Z.

(** * The single-instance guard *)

Definition sql_try_advisory_lock (key : i64) : Stmt bool := fun _ d =>
  if bool_decide (key ∈ advisory_locks d) then inr (d, false)
  else inr (d <|advisory_locks := {[ key ]} ∪ advisory_locks d|>, true).

Definition sql_advisory_unlock (key : i64) : Stmt bool := fun _ d =>
  inr (d <|advisory_locks := advisory_locks d ∖ {[ key ]}|>,
       bool_decide (key ∈ advisory_locks d)).

Section reconciler.
Context `{Ext} (chains : ChainClients).

Definition acquire_advisory_lock (key : i64) : M bool :=
  query (sql_try_advisory_lock key).

Definition release_advisory_lock (key : i64) : M unit :=
  swallow (query (sql_advisory_unlock key)).

(** Run [inner] under the lock, and release it whatever [inner] returns. *)
Definition under_lock (key : i64) (inner : M unit) : M unit :=
  acquired ← acquire_advisory_lock key;
  if acquired : bool then
    result ← attempt inner;
    _ ← release_advisory_lock key;
    match result with inl a => mret a | inr e => fail e end
  else mret tt.

(** * Probes *)

Definition probe_grin_spends (tip : SocialTipRow)
  : M (list ConfirmedSpend * i64) :=
  g ← lift (ok_or (grin chains) (NodeError "grin client disabled"));
  commit ← lift (ok_or (grin_commitment_of tip)
    (ValidationError "grin commitment missing for sweep probe"));
  h ← get_height g;
  let tip_height := as_i64 h in
  outputs ← get_outputs g [commit];
  if existsb (fun o => go_commit o =? commit) outputs then mret ([], tip_height)
  else
    match non_empty (sweep_txid tip) with
    | None => mret ([], tip_height)
    | Some excess =>
        k ← upstream (gr_get_kernel g excess);
        match k with
        | Some height =>
            mret ([mkConfirmedSpend excess (as_i64 height) None], tip_height)
        | None => mret ([], tip_height)
        end
    end.

Fixpoint electrum_spends (c : ElectrumClient) (address : string)
    (entries : list ElectrumHistoryEntry) : M (list ConfirmedSpend) :=
  match entries with
  | [] => mret []
  | entry :: rest =>
      tx ← upstream (el_get_transaction_verbose c (he_tx_hash entry));
      is_spend ← lift (is_verbose_tx_spend_of tx address);
      spends ← electrum_spends c address rest;
      mret (if is_spend : bool
            then mkConfirmedSpend (he_tx_hash entry) (he_height entry) None :: spends
            else spends)
  end.

Definition probe_electrum_spends (tip : SocialTipRow) (a : string)
  : M (list ConfirmedSpend * i64) :=
  c ← lift (ok_or (if a =? "btc" then btc chains else ltc chains)
    (NodeError (a ++ " Electrum client disabled")));
  address ← lift (ok_or (tip_address tip)
    (ValidationError "tip_address missing for Electrum probe"));
  history ← upstream (el_get_history c address);
  tip_height ← upstream (el_get_tip_height c);
  spends ← electrum_spends c address (confirmed_entries history);
  mret (spends, tip_height).

Definition is_lws_spend (t : AddressTx) : bool :=
  negb (at_mempool t) && (0 <? at_height t)%Z && (0 <? at_total_sent t)%Z
  && (at_total_received t =? 0)%Z.

Definition lws_spends (txs : list AddressTx) : list ConfirmedSpend :=
  (fun t => mkConfirmedSpend (at_hash t) (as_i64 (at_height t)) None)
    <$> filter (fun t => is_lws_spend t = true) txs.

Definition probe_lws_spends (tip : SocialTipRow) (a : string)
  : M (list ConfirmedSpend * i64) :=
  c ← lift (ok_or (if a =? "xmr" then xmr chains else wow chains)
    (NodeError (a ++ " LWS client disabled")));
  address ← lift (ok_or (tip_address tip)
    (ValidationError "tip_address missing for LWS probe"));
  view_key ← lift (ok_or (tip_view_key tip)
    (ValidationError "tip_view_key missing for LWS probe"));
  txs ← get_address_txs c address view_key;
  tip_height ← (if (0 <? ar_blockchain_height txs)%Z
                then mret (as_i64 (ar_blockchain_height txs))
                else h ← get_blockchain_height c; mret (as_i64 h));
  mret (lws_spends (ar_transactions txs), tip_height).

Definition probe_confirmed_spends (tip : SocialTipRow)
  : M (list ConfirmedSpend * i64) :=
  let a := to_lowercase (asset tip) in
  if (a =? "btc") || (a =? "ltc") then probe_electrum_spends tip a
  else if (a =? "xmr") || (a =? "wow") then probe_lws_spends tip a
  else if a =? "grin" then probe_grin_spends tip
  else fail (ValidationError ("sweep probe: unsupported asset " ++ a)).

(** * Settling *)

Definition send_sweep_confirmed_dm_if_needed (tip : SocialTipRow) : M unit :=
  if is_some (sweep_confirmed_dm_sent_at tip) then mret tt
  else swallow (stamp_sweep_confirmed_dm_sent (id tip)).

Definition sweep_confirmations (tip_height block_height : i64) : i64 :=
  i64_saturating_add (i64_saturating_sub tip_height block_height) 1.

Definition settle (tip : SocialTipRow) (winner : ConfirmedSpend)
  : M (option SocialTipRow) :=
  if sql_eq (sweep_txid tip) (cs_txid winner)
  then confirm_sweep_onchain (id tip) (cs_txid winner)
         (as_i32 (cs_block_height winner)) (cs_block_hash winner) None
  else clear_claimed_by_on_settle (id tip) (cs_txid winner)
         (as_i32 (cs_block_height winner)) (cs_block_hash winner).

Definition process_awaiting_tip (tip : SocialTipRow) : M unit :=
  let a := to_lowercase (asset tip) in
  probe ← attempt (probe_confirmed_spends tip);
  match probe with
  | inr _ => swallow (touch_tip_last_check (id tip))
  | inl (spends, tip_height) =>
      match pick_winner spends with
      | None => swallow (touch_tip_last_check (id tip))
      | Some winner =>
          let confirmations :=
            sweep_confirmations tip_height (cs_block_height winner) in
          let needed := sweep_confirm_threshold a in
          if (as_u64 confirmations <? needed)%Z
          then swallow (touch_tip_last_check (id tip))
          else
            settled ← settle tip winner;
            match settled with
            | None => mret tt
            | Some row => send_sweep_confirmed_dm_if_needed row
            end
      end
  end.

Definition confirm_cycle_inner : M unit :=
  tips ← get_tips_awaiting_sweep_confirmation BATCH_SIZE;
  for_each (fun tip => swallow (process_awaiting_tip tip)) tips.

Definition run_confirm_cycle : M unit :=
  under_lock SWEEP_CONFIRM_ADVISORY_LOCK_KEY confirm_cycle_inner.

Definition run_sweep_reconcile_cycle : M unit := swallow run_confirm_cycle.

(** * Reorganisations *)

Definition send_reorg_dm_if_needed (tip : SocialTipRow) : M unit :=
  if is_some (reorg_notified_at tip) then mret tt
  else swallow (stamp_reorg_notified (id tip)).

Definition process_settled_tip (tip : SocialTipRow) : M unit :=
  match sweep_txid tip with
  | None => swallow (touch_tip_last_check (id tip))
  | Some recorded_txid =>
      probe ← attempt (probe_confirmed_spends tip);
      match probe with
      | inr _ => swallow (touch_tip_last_check (id tip))
      | inl (spends, _) =>
          if existsb (fun s => cs_txid s =? recorded_txid) spends
          then swallow (touch_tip_last_check (id tip))
          else
            reverted ← revert_sweep_on_reorg (id tip);
            match reverted with
            | Some row => send_reorg_dm_if_needed row
            | None => mret tt
            end
      end
  end.

Definition reorg_cycle_inner : M unit :=
  tips ← get_settled_tips_for_reorg_check BATCH_SIZE;
  for_each (fun tip => swallow (process_settled_tip tip)) tips.

Definition run_reorg_cycle : M unit :=
  under_lock SWEEP_REORG_ADVISORY_LOCK_KEY reorg_cycle_inner.

Definition run_sweep_reorg_cycle : M unit := swallow run_reorg_cycle.
End reconciler.

(** * The winner *)

Definition spend_le (a b : ConfirmedSpend) : Prop := spend_cmp a b <> Gt.

Lemma string_le_trans a b c :
  String.compare a b <> Gt -> String.compare b c <> Gt -> String.compare a c <> Gt.
Proof.
  revert b c. induction a as [|x a IH]; intros [|y b] [|z c]; simpl; try done.
  unfold Ascii.compare.
  destruct (N.compare_spec (N_of_ascii x) (N_of_ascii y)) as [E1|E1|E1],
    (N.compare_spec (N_of_ascii y) (N_of_ascii z)) as [E2|E2|E2]; try done;
    destruct (N.compare_spec (N_of_ascii x) (N_of_ascii z)); try done; try lia.
  apply IH.
Qed.

Lemma spend_cmp_antisym a b : spend_cmp a b = CompOpp (spend_cmp b a).
Proof.
  unfold spend_cmp. rewrite Z.compare_antisym.
  destruct (cs_block_height b ?= cs_block_height a)%Z; simpl; [|done..].
  apply String.compare_antisym.
Qed.

Lemma spend_le_refl a : spend_le a a.
Proof. unfold spend_le. pose proof (spend_cmp_antisym a a). by destruct (spend_cmp a a). Qed.

Lemma spend_le_trans a b c : spend_le a b -> spend_le b c -> spend_le a c.
Proof.
  unfold spend_le, spend_cmp.
  destruct (Z.compare_spec (cs_block_height a) (cs_block_height b)),
    (Z.compare_spec (cs_block_height b) (cs_block_height c)); try done;
    destruct (Z.compare_spec (cs_block_height a) (cs_block_height c)); try done; try lia.
  apply string_le_trans.
Qed.

Lemma spend_le_total a b : spend_cmp a b = Gt -> spend_le b a.
Proof. unfold spend_le. rewrite (spend_cmp_antisym a b). by destruct (spend_cmp b a). Qed.

(** What tells one spend from another. *)
Definition spend_key (s : ConfirmedSpend) : Z * string := (cs_block_height s, cs_txid s).

Lemma spend_le_antisym a b : spend_le a b -> spend_le b a -> spend_key a = spend_key b.
Proof.
  unfold spend_le. rewrite (spend_cmp_antisym b a). intros H1 H2.
  assert (E : spend_cmp a b = Eq) by (by destruct (spend_cmp a b)).
  unfold spend_cmp in E. unfold spend_key.
  destruct (Z.compare_spec (cs_block_height a) (cs_block_height b)); try done.
  apply String.compare_eq_iff in E. congruence.
Qed.

Lemma min_spend_le a b :
  spend_le (min_spend a b) a /\ spend_le (min_spend a b) b /\
  (min_spend a b = a \/ min_spend a b = b).
Proof.
  unfold min_spend. destruct (spend_cmp a b) eqn:E;
    split_and!; auto using spend_le_refl, spend_le_total; unfold spend_le; congruence.
Qed.

Lemma fold_min_spec l s :
  let w := foldl min_spend s l in
  w ∈ s :: l /\ forall x, x ∈ s :: l -> spend_le w x.
Proof.
  revert s. induction l as [|y l IH]; intros s; simpl.
  - split; [by constructor|].
    intros x [->|?%elem_of_nil]%elem_of_cons; [apply spend_le_refl|done].
  - destruct (IH (min_spend s y)) as [Hin Hle].
    destruct (min_spend_le s y) as (H1 & H2 & Hor).
    pose proof (Hle (min_spend s y) ltac:(by constructor)) as Hm.
    split.
    + apply elem_of_cons in Hin as [->|Hin]; [|by do 2 right].
      destruct Hor as [->| ->]; [by left|by right; left].
    + intros x [->|[->|Hx]%elem_of_cons]%elem_of_cons;
        eauto using spend_le_trans. apply Hle. by right.
Qed.

Lemma pick_winner_spec spends w :
  pick_winner spends = Some w ->
  w ∈ spends /\ forall x, x ∈ spends -> spend_le w x.
Proof. destruct spends; [done|]. intros [= <-]. apply fold_min_spec. Qed.

(** The winning spend is one of the confirmed spends, none of them is
    earlier (by height, then by transaction id), one is found as soon as there
    is any, and it does not depend on the order in which the server lists
    them. *)
Theorem winner_canonical spends spends' (Hp : Permutation spends spends') :
  (pick_winner spends = None <-> spends = []) /\
  (forall w, pick_winner spends = Some w ->
     w ∈ spends /\ forall x, x ∈ spends -> spend_le w x) /\
  spend_key <$> pick_winner spends = spend_key <$> pick_winner spends'.
Proof.
  split; [by destruct spends|]. split; [apply pick_winner_spec|].
  destruct (pick_winner spends) as [a|] eqn:E1, (pick_winner spends') as [b|] eqn:E2;
    simpl.
  - apply pick_winner_spec in E1 as [Ha1 Ha2], E2 as [Hb1 Hb2]. f_equal.
    apply spend_le_antisym; [apply Ha2|apply Hb2];
      by rewrite Hp || by rewrite <- Hp.
  - apply Permutation_length in Hp. by destruct spends', spends.
  - apply Permutation_length in Hp. by destruct spends', spends.
  - done.
Qed.

(** * One tip of a cycle, alone *)

Section alone.
Context `{Ext} (chains : ChainClients).

Lemma db_free_electrum_spends c a es : db_free (electrum_spends c a es).
Proof. induction es as [|e es IH]; simpl; db_free_steps. Qed.
#[local] Hint Resolve db_free_electrum_spends : core.

Lemma db_free_probe tip : db_free (probe_confirmed_spends chains tip).
Proof.
  unfold probe_confirmed_spends, probe_electrum_spends, probe_lws_spends,
    probe_grin_spends, get_height, get_outputs, get_address_txs, get_blockchain_height.
  repeat match goal with |- db_free (if ?b then _ else _) => destruct b end;
    db_free_steps.
Qed.

(** The rows of a quiet run of a swallowed update. *)
Lemma swallow_touch_row w tip :
  w_sched w = [] -> tips_checked (w_db w) ->
  social_tips (w_db w) !! id tip = Some tip ->
  exists r', social_tips (w_db (swallow (touch_tip_last_check (id tip)) w).1) !! id tip
    = Some r' /\ only_stamped tip r'.
Proof.
  intros Hq Hc Hr. unfold swallow, attempt, touch_tip_last_check, query.
  unfold mbind, M_bind. rewrite (run_stmt_quiet _ _ _ Hq).
  unfold sql_touch_tip_last_check. rewrite (update_tip_hit _ _ _ _ _ tip); [|done..|].
  - simpl. rewrite lookup_insert_eq. eexists. split; [reflexivity|].
    exists (Some (w_now w)), (w_now w). by destruct tip.
  - specialize (Hc _ _ Hr). constraints_of Hc. check_constraints. each_constraint.
Qed.

(** The row of a tip settled by the spend [win]. *)
Definition settled_by (win : ConfirmedSpend) (r r' : SocialTipRow) : Prop :=
  same_terms r r' /\ status r' = as_str Claimed /\ is_Some (sweep_confirmed_at r') /\
  sweep_txid r' = Some (cs_txid win) /\
  sweep_block_height r' = Some (as_i32 (cs_block_height win)) /\
  claimed_by_user_id r' =
    (if sql_eq (sweep_txid r) (cs_txid win) then claimed_by_user_id r else None).

Lemma settle_row w tip win :
  w_sched w = [] -> tips_checked (w_db w) ->
  social_tips (w_db w) !! id tip = Some tip ->
  unsettled_where 0 tip = true -> varchar 128 (cs_txid win) = true ->
  exists w' r', settle tip win w = (w', Ok (Some r')) /\ w_sched w' = [] /\
    tips_checked (w_db w') /\ id r' = id tip /\
    social_tips (w_db w') !! id tip = Some r' /\ settled_by win tip r'.
Proof.
  intros Hq Hc Hr Hw Hlen. specialize (Hc _ _ Hr) as Hv. constraints_of Hv.
  unfold settle, confirm_sweep_onchain, clear_claimed_by_on_settle, query.
  destruct (sql_eq _ _) eqn:Etx; rewrite (run_stmt_quiet _ _ _ Hq);
    unfold sql_confirm_sweep_onchain, sql_clear_claimed_by_on_settle;
    (rewrite (update_tip_hit _ _ _ _ _ tip); [|done..|by check_constraints; each_constraint]);
    (do 2 eexists; split; [reflexivity|]); simpl;
    (split_and!; [done| |done|by rewrite lookup_insert_eq|]);
    try (apply tips_checked_insert; [done|check_constraints; each_constraint]; done);
    unfold settled_by; rewrite Etx; by split_and!.
Qed.

(** The notification stamp of a settled row keeps what settled it. *)
Lemma dm_row w r :
  w_sched w = [] -> tips_checked (w_db w) ->
  social_tips (w_db w) !! id r = Some r ->
  exists w' r', send_sweep_confirmed_dm_if_needed r w = (w', Ok tt) /\
    social_tips (w_db w') !! id r = Some r' /\
    exists s u, r' = r <|sweep_confirmed_dm_sent_at := s|> <|updated_at := u|>.
Proof.
  intros Hq Hc Hr. unfold send_sweep_confirmed_dm_if_needed.
  destruct (is_some (sweep_confirmed_dm_sent_at r)) eqn:E.
  { exists w, r. split_and!; try done.
    exists (sweep_confirmed_dm_sent_at r), (updated_at r). by destruct r. }
  unfold swallow, attempt, stamp_sweep_confirmed_dm_sent, query.
  unfold mbind, M_bind. rewrite (run_stmt_quiet _ _ _ Hq).
  unfold sql_stamp_sweep_confirmed_dm_sent. rewrite (update_tip_hit _ _ _ _ _ r).
  - simpl. do 2 eexists. split; [reflexivity|]. simpl. rewrite lookup_insert_eq.
    split; [reflexivity|]. exists (Some (w_now w)), (w_now w). by destruct r.
  - done.
  - unfold dm_unsent_where. by destruct (sweep_confirmed_dm_sent_at r).
  - specialize (Hc _ _ Hr). constraints_of Hc. check_constraints. each_constraint.
Qed.

Lemma settled_by_stamped win r r' s u :
  settled_by win r r' ->
  settled_by win r (r' <|sweep_confirmed_dm_sent_at := s|> <|updated_at := u|>).
Proof. by unfold settled_by, same_terms. Qed.

(** What becomes of a tip on one answer of the probe. *)
Definition awaiting_verdict (tip : SocialTipRow)
    (res : outcome (list ConfirmedSpend * i64)) : option ConfirmedSpend :=
  match res with
  | Ok (spends, tip_height) =>
      win ← pick_winner spends;
      if (as_u64 (sweep_confirmations tip_height (cs_block_height win))
          <? sweep_confirm_threshold (to_lowercase (asset tip)))%Z
      then None else Some win
  | _ => None
  end.

Lemma process_awaiting_row amt w tip w1 res :
  tips_inv amt (w_db w) -> w_sched w = [] ->
  social_tips (w_db w) !! id tip = Some tip -> status tip = "claiming" ->
  probe_confirmed_spends chains tip w = (w1, res) -> res <> Panic ->
  (forall win, awaiting_verdict tip res = Some win -> varchar 128 (cs_txid win) = true) ->
  exists r', social_tips (w_db (process_awaiting_tip chains tip w).1) !! id tip = Some r' /\
    match awaiting_verdict tip res with
    | Some win => settled_by win tip r'
    | None => only_stamped tip r'
    end.
Proof.
  intros [Hwf Hc] Hq Hr Hst Hp Hnp Hlen.
  pose proof (db_free_probe tip w) as (E1 & E2 & E3). rewrite Hp in E1, E2, E3.
  simpl in E1, E2, E3.
  assert (Hq1 : w_sched w1 = []) by congruence.
  rewrite <- E1 in Hc, Hr.
  assert (Hw : unsettled_where 0 tip = true).
  { unfold unsettled_where, status_in. rewrite Hst. simpl.
    rewrite E1 in Hr. by rewrite (unsettled_sweep _ _ _ Claiming (Hwf _ _ Hr) Hst). }
  unfold process_awaiting_tip, attempt at 1. unfold mbind at 1, M_bind at 1.
  rewrite Hp. destruct res as [[spends h]|e|]; [|by apply swallow_touch_row|done].
  simpl in *. destruct (pick_winner spends) as [win|]; simpl in *;
    [|by apply swallow_touch_row].
  destruct (as_u64 _ <? _)%Z; [by apply swallow_touch_row|].
  destruct (settle_row w1 tip win) as (w2 & r2 & Es & Hq2 & Hc2 & Hid & Hr2 & Hs);
    try done; [by apply Hlen|].
  unfold mbind, M_bind. rewrite Es. rewrite <- Hid in Hr2.
  destruct (dm_row w2 r2) as (w3 & r3 & Ed & Hr3 & s & u & ->); try done.
  rewrite Ed. simpl. rewrite <- Hid. eexists. split; [exact Hr3|].
  by apply settled_by_stamped.
Qed.
End alone.

(** The depth gate compares [confirmations as u64], so a server that
    reports a height two or more blocks below the block of the spend gives a
    negative count, which is read as a huge one: the tip settles although the
    spend has no confirmation. *)
Theorem lagging_server_settles `{Ext} chains amt w tip w1 spends h win
    (Hinv : tips_inv amt (w_db w)) (Hq : w_sched w = [])
    (Hr : social_tips (w_db w) !! id tip = Some tip) (Hst : status tip = "claiming")
    (Hp : probe_confirmed_spends chains tip w = (w1, Ok (spends, h)))
    (Hw : pick_winner spends = Some win) (Hlen : varchar 128 (cs_txid win) = true)
    (Hlag : (0 <= h /\ h + 2 <= cs_block_height win <= I64_MAX)%Z) :
  exists r', social_tips (w_db (process_awaiting_tip chains tip w).1) !! id tip = Some r' /\
    settled_by win tip r'.
Proof.
  assert (Hv : awaiting_verdict tip (Ok (spends, h)) = Some win).
  { simpl. rewrite Hw. simpl. unfold sweep_confirmations.
    assert (Hneg : (I64_MIN <= i64_saturating_add
        (i64_saturating_sub h (cs_block_height win)) 1 < 0)%Z) by int_lia.
    rewrite (as_u64_negative _ Hneg).
    assert (Ht : (sweep_confirm_threshold (to_lowercase (asset tip)) <= 10)%Z).
    { unfold sweep_confirm_threshold. by repeat case_goal. }
    destruct (Z.ltb_spec (2 ^ 64 + i64_saturating_add
      (i64_saturating_sub h (cs_block_height win)) 1)
      (sweep_confirm_threshold (to_lowercase (asset tip)))); [|done].
    exfalso. unfold_int. lia. }
  destruct (process_awaiting_row chains amt w tip w1 (Ok (spends, h)))
    as (r' & Hr' & Hs); try done.
  - rewrite Hv. by intros ? [= <-].
  - rewrite Hv in Hs. eauto.
Qed.

(** The row of a settled tip whose sweep was orphaned. *)
Definition reverted_to (r r' : SocialTipRow) : Prop :=
  same_terms r r' /\ status r' = as_str Claiming /\ sweep_confirmed_at r' = None /\
  sweep_block_height r' = None /\ sweep_txid r' = sweep_txid r /\
  claimed_by_user_id r' = claimed_by_user_id r.

Lemma revert_row `{Ext} w r :
  w_sched w = [] -> tips_checked (w_db w) ->
  social_tips (w_db w) !! id r = Some r -> settled_where 0 r = true ->
  exists w' r', revert_sweep_on_reorg (id r) w = (w', Ok (Some r')) /\
    w_sched w' = [] /\ tips_checked (w_db w') /\ id r' = id r /\
    social_tips (w_db w') !! id r = Some r' /\ reverted_to r r'.
Proof.
  intros Hq Hc Hr Hw. specialize (Hc _ _ Hr) as Hv. constraints_of Hv.
  unfold revert_sweep_on_reorg, query. rewrite (run_stmt_quiet _ _ _ Hq).
  unfold sql_revert_sweep_on_reorg.
  assert (Hv' : tip_violation (w_db w)
    (touch_updated_at (w_now w) (revert_set (w_now w) r)) = None)
    by (by check_constraints; each_constraint).
  rewrite (update_tip_hit _ _ _ _ _ r) by done.
  do 2 eexists. split; [reflexivity|]. simpl.
  split_and!; try done; [by apply tips_checked_insert|by rewrite lookup_insert_eq].
Qed.

Lemma reorg_dm_row `{Ext} w r :
  w_sched w = [] -> tips_checked (w_db w) ->
  social_tips (w_db w) !! id r = Some r ->
  exists w' r', send_reorg_dm_if_needed r w = (w', Ok tt) /\
    social_tips (w_db w') !! id r = Some r' /\
    exists s u, r' = r <|reorg_notified_at := s|> <|updated_at := u|>.
Proof.
  intros Hq Hc Hr. unfold send_reorg_dm_if_needed.
  destruct (is_some (reorg_notified_at r)) eqn:E.
  { exists w, r. split_and!; try done.
    exists (reorg_notified_at r), (updated_at r). by destruct r. }
  unfold swallow, attempt, stamp_reorg_notified, query.
  unfold mbind, M_bind. rewrite (run_stmt_quiet _ _ _ Hq).
  unfold sql_stamp_reorg_notified. rewrite (update_tip_hit _ _ _ _ _ r).
  - simpl. do 2 eexists. split; [reflexivity|]. simpl. rewrite lookup_insert_eq.
    split; [reflexivity|]. exists (Some (w_now w)), (w_now w). by destruct r.
  - done.
  - unfold reorg_unnotified_where. by destruct (reorg_notified_at r).
  - specialize (Hc _ _ Hr). constraints_of Hc. check_constraints. each_constraint.
Qed.

(** A settled tip, seen alone, goes back to being claimed exactly when a
    probe that succeeded no longer lists its recorded sweep among the spends of
    its address; the recorded sweep and claimer survive, the confirmation does
    not.  A probe error, or the sweep still listed, changes nothing but the
    time of the check. *)
Theorem reverts_exactly_on_reorg `{Ext} chains amt w tip w1 res tx
    (Hinv : tips_inv amt (w_db w)) (Hq : w_sched w = [])
    (Hr : social_tips (w_db w) !! id tip = Some tip) (Hst : status tip = "claimed")
    (Htx : sweep_txid tip = Some tx)
    (Hp : probe_confirmed_spends chains tip w = (w1, res)) (Hnp : res <> Panic) :
  exists r', social_tips (w_db (process_settled_tip chains tip w).1) !! id tip = Some r' /\
    match res with
    | Ok (spends, _) =>
        if existsb (fun s => cs_txid s =? tx) spends
        then only_stamped tip r' else reverted_to tip r'
    | _ => only_stamped tip r'
    end.
Proof.
  destruct Hinv as [Hwf Hc].
  pose proof (db_free_probe chains tip w) as (E1 & E2 & E3). rewrite Hp in E1, E2, E3.
  simpl in E1, E2, E3. assert (Hq1 : w_sched w1 = []) by congruence.
  assert (Hw : settled_where 0 tip = true).
  { unfold settled_where, status_in. rewrite Hst. simpl.
    by apply is_some_true, (wf_confirmed _ _ _ (Hwf _ _ Hr)). }
  rewrite <- E1 in Hc, Hr. unfold process_settled_tip. rewrite Htx.
  unfold attempt at 1. unfold mbind at 1, M_bind at 1. rewrite Hp.
  destruct res as [[spends h]|e|]; [|by apply swallow_touch_row|done].
  destruct (existsb _ spends); [by apply swallow_touch_row|].
  destruct (revert_row w1 tip) as (w2 & r2 & Es & Hq2 & Hc2 & Hid & Hr2 & Hs);
    try done.
  unfold mbind, M_bind. rewrite Es. rewrite <- Hid in Hr2.
  destruct (reorg_dm_row w2 r2) as (w3 & r3 & Ed & Hr3 & s & u & ->); try done.
  rewrite Ed. simpl. rewrite <- Hid. eexists. split; [exact Hr3|]. done.
Qed.

(** * Concrete runs *)

Lemma winner_canonical_witness :
  spend_key <$> pick_winner
    [mkConfirmedSpend "bb" 7 None; mkConfirmedSpend "aa" 7 None] = Some (7%Z, "aa").
Proof.
  rewrite (proj2 (proj2 (winner_canonical
    [mkConfirmedSpend "bb" 7 None; mkConfirmedSpend "aa" 7 None]
    [mkConfirmedSpend "aa" 7 None; mkConfirmedSpend "bb" 7 None]
    (perm_swap _ _ _)))). reflexivity.
Defined.

(** Bob reported the sweep "ee" of the Grin voucher, its kernel is at height 11. *)
Definition demo_swept : Db := exec (sql_record_sweep 10 2 "ee") 7 demo_claiming.

Lemma demo_run_swept : steps (tip_step demo_amount) demo_users_db demo_swept.
Proof.
  eapply steps_trans; [apply demo_run_claimable|].
  eapply rtc_l; [apply demo_step_claiming|]. apply rtc_once.
  demo_update st_record.
Qed.

Definition demo_swept_row : SocialTipRow := Eval vm_compute in demo_row demo_swept 10.

Definition grin_at (tip_height : Z) : ChainClients :=
  mkChainClients None None None None (Some (mkGrinClient (fun _ => Ok tip_height)
    (fun _ _ => Ok []) (fun _ _ => Ok (Some 11%Z)))).

Definition demo_swept_w : World := quiet_world demo_swept (100 * SECOND).

Definition spend_ee : ConfirmedSpend := mkConfirmedSpend "ee" 11 None.

Ltac demo_eval := by vm_compute.

Lemma lagging_server_settles_witness :
  exists r', social_tips (w_db (process_awaiting_tip (grin_at 9)
      demo_swept_row demo_swept_w).1) !! 10%N = Some r' /\
    settled_by spend_ee demo_swept_row r'.
Proof.
  apply (lagging_server_settles (grin_at 9) demo_amount demo_swept_w
    demo_swept_row (demo_swept_w <|w_calls := 3|>) [spend_ee] 9 spend_ee
    (demo_inv _ demo_run_swept)); [demo_eval|demo_eval|demo_eval|demo_eval|done|done|].
  simpl. int_lia.
Defined.

Definition demo_settled : Db :=
  exec (sql_confirm_sweep_onchain 10 "ee" 11 None None) 8 demo_swept.

Lemma demo_run_settled : steps (tip_step demo_amount) demo_users_db demo_settled.
Proof.
  eapply steps_trans; [apply demo_run_swept|]. apply rtc_once.
  demo_update st_settle.
Qed.

Definition demo_settled_w : World := quiet_world demo_settled (100 * SECOND).

Definition demo_settled_row : SocialTipRow :=
  Eval vm_compute in demo_row demo_settled 10.

(** The voucher is in the UTXO set again. *)
Lemma reverts_exactly_on_reorg_witness :
  exists r', social_tips (w_db (process_settled_tip demo_chains
      demo_settled_row demo_settled_w).1)
      !! 10%N = Some r' /\
    reverted_to demo_settled_row r'.
Proof.
  apply (reverts_exactly_on_reorg demo_chains demo_amount
    demo_settled_w demo_settled_row
    (demo_settled_w <|w_calls := 2|>) (Ok ([], 20%Z)) "ee"
    (demo_inv _ demo_run_settled)); [demo_eval|demo_eval|demo_eval|demo_eval|demo_eval|done].
Defined.
