(* ===== verification/SweepSafety.v ===== *)
(** What the sweep reconciler of [Sweep.v] may do to the tips, under every interleaving: it
    settles a tip and takes a settlement back only on what the chain servers said.

    What they can say is stated here server by server, apart from the probes of the code. *)

From Stdlib Require Import ZArith Lia Ascii String.
From S2P Require Import Prelude RustStr Errors Db Effects TipStatus SocialTips TipLifecycle TipSafety TipPrograms LwsTypes Chains TipFunding Demo Sweep.

Local Open Scope string_scope.

(** * What the servers say *)

(** The depth an asset's sweep settles at. *)
Definition required_depth (asset : string) : Z :=
  let a := to_lowercase asset in
  if bool_decide (a ∈ ["btc"; "ltc"]) then 1 else if bool_decide (a = "wow") then 4 else 10.

(** A spend in block [height], seen from a tip of the chain at [h], is deep enough; a server whose
    tip lies two or more blocks below a spend it lists is believed too. *)
Definition deep_enough (asset : string) (h height : Z) : Prop :=
  (required_depth asset <= h - height + 1 \/ h - height + 1 < 0)%Z.

(** A spend than which no other is earlier. *)
Definition earliest (win : ConfirmedSpend) (spends : list ConfirmedSpend) : Prop :=
  win ∈ spends /\ forall s, s ∈ spends -> spend_le win s.

(** Mined entries of an address that pay nothing to it. *)
Definition electrum_spent (address : string) (l : list (ElectrumHistoryEntry * VerboseTransaction))
  : list ConfirmedSpend :=
  omap (fun '(e, tx) => match total_received_at tx address with
                        | Ok 0%Z => Some (mkConfirmedSpend (he_tx_hash e) (he_height e) None)
                        | _ => None
                        end) l.

(** Mined transactions of an account that send and do not receive. *)
Definition lws_spent (txs : list AddressTx) : list ConfirmedSpend :=
  (fun t => mkConfirmedSpend (at_hash t) (as_i64 (at_height t)) None) <$>
  filter (fun t => at_mempool t = false /\ (0 < at_height t)%Z /\ (0 < at_total_sent t)%Z /\
                   at_total_received t = 0%Z) txs.

Section evidence.
Context (chains : ChainClients).

(** The servers of the tip's chain, asked about the tip as the row has it, answered with these
    spends and this height of the chain. *)
Inductive servers_say (tip : SocialTipRow) : list ConfirmedSpend -> Z -> Prop :=
| say_electrum c address history txs h n m :
    (to_lowercase (asset tip) = "btc" /\ btc chains = Some c \/
     to_lowercase (asset tip) = "ltc" /\ ltc chains = Some c) ->
    tip_address tip = Some address ->
    el_get_history c address n = Ok history -> el_get_tip_height c m = Ok h ->
    let mined := filter (fun e => 0 < he_height e)%Z history in
    Forall2 (fun e tx => exists i, el_get_transaction_verbose c (he_tx_hash e) i = Ok tx) mined txs ->
    servers_say tip (electrum_spent address (zip mined txs)) h
| say_lws c address view_key resp h n :
    (to_lowercase (asset tip) = "xmr" /\ xmr chains = Some c \/
     to_lowercase (asset tip) = "wow" /\ wow chains = Some c) ->
    tip_address tip = Some address -> tip_view_key tip = Some view_key ->
    lws_post_address_txs c address view_key n = Ok resp ->
    (if (0 <? ar_blockchain_height resp)%Z then h = as_i64 (ar_blockchain_height resp)
     else exists m info b, lws_post_get_info c m = Ok info /\ di_height info = Some b /\ h = as_i64 b) ->
    servers_say tip (lws_spent (ar_transactions resp)) h
| say_grin g commit outputs spends h n m :
    to_lowercase (asset tip) = "grin" -> grin chains = Some g ->
    grin_commitment_of tip = Some commit ->
    gr_get_status g n = Ok h -> gr_rpc_get_outputs g [commit] m = Ok outputs ->
    (if bool_decide (commit ∈ go_commit <$> outputs) then spends = []
     else match sweep_txid tip with
     | None | Some "" => spends = []
     | Some excess => exists i k, gr_get_kernel g excess i = Ok k /\
         spends = match k with Some b => [mkConfirmedSpend excess (as_i64 b) None] | None => [] end
     end) ->
    servers_say tip spends (as_i64 h).

(** * What the reconciler may do to a row *)

Context (tms : Uuid -> SocialTipRow).

(** The tip [k] becomes settled by the earliest spend the servers listed for it, deep enough; its
    claimer stays exactly when that spend is the sweep that was recorded. *)
Definition settlement (k : Uuid) (r r' : SocialTipRow) : Prop :=
  exists tip spends h win, same_terms (tms k) tip /\ servers_say tip spends h /\
    earliest win spends /\ deep_enough (asset tip) h (cs_block_height win) /\
    sweep_txid r' = Some (cs_txid win) /\
    sweep_block_height r' = Some (as_i32 (cs_block_height win)) /\
    claimed_by_user_id r' =
      (if bool_decide (sweep_txid tip = Some (cs_txid win)) then claimed_by_user_id r else None).

(** The servers no longer list the sweep that settled the tip [k]. *)
Definition orphaned (k : Uuid) : Prop :=
  exists tip spends h, same_terms (tms k) tip /\ servers_say tip spends h /\
    is_Some (sweep_txid tip) /\ forall s, s ∈ spends -> sweep_txid tip <> Some (cs_txid s).

Definition sweep_row (k : Uuid) (o o' : option SocialTipRow) : Prop :=
  match o, o' with
  | Some r, Some r' =>
      (status r <> "claimed" -> status r' = "claimed" -> settlement k r r') /\
      (status r = "claimed" -> status r' <> "claimed" -> orphaned k)
  | None, Some r' => same_terms (tms k) r'
  | _, None => True
  end.

(** A step of the tips' state machine that settles, and takes a settlement back, only so.  The
    terms of a tip are those of [tms], as its id is never another tip's. *)
Definition sweep_step (amt : Uuid -> Z) : Rel := fun t d d' =>
  tip_step amt t d d' /\ forall k, sweep_row k (social_tips d !! k) (social_tips d' !! k).

Definition sweep_inv (amt : Uuid -> Z) (d : Db) : Prop :=
  tips_inv amt d /\ forall k r, social_tips d !! k = Some r -> same_terms (tms k) r.

Lemma same_terms_trans a b c : same_terms a b -> same_terms b c -> same_terms a c.
Proof. unfold same_terms. intros. destruct_and!. split_and!; congruence. Qed.

Lemma sweep_inv_stable amt : stable (sweep_step amt) (sweep_inv amt).
Proof.
  intros t d d' [Hs Hrow] [Hi Ht]. split; [by eapply tips_inv_stable|]. intros k r' Hr'.
  specialize (Hrow k). rewrite Hr' in Hrow. destruct (social_tips d !! k) as [r|] eqn:Hr; [|done].
  destruct (step_terms _ _ _ _ _ _ _ Hs Hr Hr') as [Hst _].
  eapply same_terms_trans; [by eapply Ht|done].
Qed.

(** A row that a step does not settle or take back. *)
Lemma sweep_row_same k o o' :
  (forall r', o' = Some r' -> exists r, o = Some r /\ status r' = status r) ->
  sweep_row k o o'.
Proof.
  intros Hs. destruct o as [r|], o' as [r'|]; try done; destruct (Hs r' eq_refl) as (? & [= <-] & Es).
  simpl. rewrite Es. by split.
Qed.
End evidence.

(** * The gate *)

Lemma threshold_required a : sweep_confirm_threshold (to_lowercase a) = required_depth a.
Proof.
  unfold sweep_confirm_threshold, required_depth. rewrite to_lowercase_idem.
  destruct (String.eqb_spec (to_lowercase a) "btc") as [->|N1]; [done|].
  destruct (String.eqb_spec (to_lowercase a) "ltc") as [->|N2]; [done|].
  rewrite bool_decide_false by (rewrite !list_elem_of_In; simpl; naive_solver).
  destruct (String.eqb_spec (to_lowercase a) "wow") as [->|N3]; [done|].
  rewrite bool_decide_false by done. simpl. by repeat case_goal.
Qed.

Lemma depth_gate a h height :
  (as_u64 (sweep_confirmations h height) <? sweep_confirm_threshold (to_lowercase a))%Z = false <->
  deep_enough a h height.
Proof.
  rewrite threshold_required, Z.ltb_ge. unfold deep_enough, sweep_confirmations.
  assert (1 <= required_depth a <= 10)%Z.
  { unfold required_depth. repeat case_bool_decide; lia. }
  destruct (Z.ltb_spec (h - height + 1) 0) as [Hneg|Hpos].
  - rewrite as_u64_negative by int_lia. split; [by right|]. intros _. int_lia.
  - rewrite as_u64_nonneg by int_lia. int_lia.
Qed.

(** * The programs *)

Section safety.
Context `{Ext} (chains : ChainClients) (tms : Uuid -> SocialTipRow).
Context (G : (nat -> Uuid) -> Prop) (amt : Uuid -> Z).

Abbreviation I := (sweep_inv tms amt).
Abbreviation R := (sweep_step chains tms amt).
Abbreviation T := (triple G R I).

(** A row some statement returned. *)
Definition row_known (r : SocialTipRow) : Prop := same_terms (tms (id r)) r.

Lemma row_known_lookup d k r : I d -> social_tips d !! k = Some r -> row_known r.
Proof.
  intros [[Hwf _] Ht] Hr. unfold row_known. rewrite (wf_id _ _ _ (Hwf _ _ Hr)). by apply Ht.
Qed.

Lemma T_update k wh set_ :
  tip_statement amt k wh set_ ->
  (forall t r, wh t r = true -> sweep_row chains tms k (Some r) (Some (touch_updated_at t (set_ t r)))) ->
  T (query (update_tip k wh set_)) (fun o => forall r, o = Some r -> row_known r).
Proof.
  intros Hst Hrow. apply triple_stmt; [apply sweep_inv_stable|]. intros t d d' ro Hi E.
  assert (Hs : R t d d').
  { split; [by eapply step_update|]. intros j.
    pose proof E as [(_ & -> & _)|(r & Hr & Hw & _ & _ & ->)]%update_tip_inv.
    { apply sweep_row_same. intros r' Hr'. by exists r'. }
    simpl. destruct (decide (k = j)) as [<-|Hne].
    - rewrite lookup_insert_eq, Hr. by apply Hrow.
    - rewrite lookup_insert_ne by done. apply sweep_row_same. intros r' Hr'. by exists r'. }
  split; [by eapply steps_once|]. intros r ->.
  pose proof E as [(? & _)|(r0 & Hr & _ & [= ->] & _ & ->)]%update_tip_inv; [done|].
  eapply row_known_lookup; [by eapply sweep_inv_stable|]. simpl. by rewrite lookup_insert_eq.
Qed.

(** A statement that leaves the status alone. *)
Lemma T_update_plain k wh set_ :
  tip_statement amt k wh set_ -> (forall t r, status (set_ t r) = status r) ->
  T (query (update_tip k wh set_)) (fun o => forall r, o = Some r -> row_known r).
Proof.
  intros Hst Hs. apply T_update; [done|]. intros t r _. apply sweep_row_same.
  intros ? [= <-]. exists r. split; [done|]. apply Hs.
Qed.

Lemma T_other {A} (s : Stmt A) (Q : A -> Prop) :
  (forall t d d' r, I d -> s t d = inr (d', r) ->
     social_tips d' = social_tips d /\ users d' = users d /\ Q r) -> T (query s) Q.
Proof.
  intros Hs. apply triple_stmt; [apply sweep_inv_stable|]. intros t d d' r Hi E.
  apply Hs in E as (Et & Eu & HQ); [|done]. split; [|done]. apply (steps_once _ t). split.
  - apply step_other; [done|]. unfold is_user. by rewrite Eu.
  - intros k. rewrite Et. apply sweep_row_same. intros r' Hr'. by exists r'.
Qed.

Lemma T_select wh key n :
  T (query (select_tips_limit wh key n)) (Forall row_known).
Proof.
  apply T_other. intros t d d' rows Hi E.
  assert (d' = d) as -> by (unfold select_tips_limit, select_tips in E; by injection E as <- _).
  split_and!; [done..|]. apply Forall_forall. intros r Hr.
  eapply elem_of_select_limit in Hr as (_ & _ & [k Hk]%elem_of_tip_rows); [|exact E].
  by eapply row_known_lookup.
Qed.

Lemma T_touch k : T (touch_tip_last_check k) (fun _ => True).
Proof.
  eapply triple_bind; [apply T_update_plain; [apply st_touch|done]|]. intros. by apply triple_ret.
Qed.
Lemma T_stamp_dm k : T (stamp_sweep_confirmed_dm_sent k) (fun _ => True).
Proof.
  eapply triple_bind; [apply T_update_plain; [apply st_dm|done]|]. intros. by apply triple_ret.
Qed.
Lemma T_stamp_reorg k : T (stamp_reorg_notified k) (fun _ => True).
Proof.
  eapply triple_bind; [apply T_update_plain; [apply st_reorg_notified|done]|].
  intros. by apply triple_ret.
Qed.

(** ** Probes *)

Lemma T_verbose c address es :
  T (electrum_spends c address es) (fun spends => exists txs,
    Forall2 (fun e tx => exists i, el_get_transaction_verbose c (he_tx_hash e) i = Ok tx) es txs /\
    spends = electrum_spent address (zip es txs)).
Proof.
  induction es as [|e es IH]; simpl.
  { apply triple_ret. exists []. by split; [constructor|]. }
  eapply triple_bind; [apply triple_upstream|]. intros tx Htx.
  eapply (triple_bind _ _ _ _ _ (fun b => is_verbose_tx_spend_of tx address = Ok b));
    [by apply triple_lift|]. intros b Hb.
  eapply triple_bind; [exact IH|]. intros rest (txs & Htxs & ->). apply triple_ret.
  exists (tx :: txs). split; [by constructor|]. simpl. unfold is_verbose_tx_spend_of in Hb.
  apply bind_Ok in Hb as (v & Hv & [= <-]). rewrite Hv. by destruct v.
Qed.

Lemma T_electrum tip a :
  (a = "btc" \/ a = "ltc") -> to_lowercase (asset tip) = a ->
  T (probe_electrum_spends chains tip a) (fun r => servers_say chains tip r.1 r.2).
Proof.
  intros Ha Ea. unfold probe_electrum_spends.
  eapply (triple_bind _ _ _ _ _ (fun c => (if a =? "btc" then btc chains else ltc chains) = Some c)).
  { apply triple_lift. by intros c ?%ok_or_Ok. }
  intros c Hc. eapply (triple_bind _ _ _ _ _ (fun x => tip_address tip = Some x)).
  { apply triple_lift. by intros x ?%ok_or_Ok. }
  intros address Haddr. eapply triple_bind; [apply triple_upstream|]. intros history [n Hn].
  eapply triple_bind; [apply triple_upstream|]. intros h [m Hm].
  eapply triple_bind; [apply T_verbose|]. intros spends (txs & Htxs & ->). apply triple_ret. simpl.
  assert (Emined : confirmed_entries history = filter (fun e => 0 < he_height e)%Z history).
  { unfold confirmed_entries. apply list_filter_iff. intros e. apply Z.ltb_lt. }
  rewrite Emined in *. eapply say_electrum; try done. subst a. destruct Ha as [Ha|Ha]; rewrite Ha in *; auto.
Qed.

Lemma lws_spends_said txs : lws_spends txs = lws_spent txs.
Proof.
  unfold lws_spends, lws_spent. f_equal. apply list_filter_iff. intros t. unfold is_lws_spend.
  rewrite !andb_true_iff, !Z.ltb_lt, Z.eqb_eq, negb_true_iff. tauto.
Qed.

Lemma T_lws tip a :
  (a = "xmr" \/ a = "wow") -> to_lowercase (asset tip) = a ->
  T (probe_lws_spends chains tip a) (fun r => servers_say chains tip r.1 r.2).
Proof.
  intros Ha Ea. unfold probe_lws_spends.
  eapply (triple_bind _ _ _ _ _ (fun c => (if a =? "xmr" then xmr chains else wow chains) = Some c)).
  { apply triple_lift. by intros c ?%ok_or_Ok. }
  intros c Hc. eapply (triple_bind _ _ _ _ _ (fun x => tip_address tip = Some x)).
  { apply triple_lift. by intros x ?%ok_or_Ok. }
  intros address Haddr. eapply (triple_bind _ _ _ _ _ (fun x => tip_view_key tip = Some x)).
  { apply triple_lift. by intros x ?%ok_or_Ok. }
  intros vk Hvk. unfold get_address_txs.
  eapply (triple_bind _ _ _ _ _ (fun r => exists n, lws_post_address_txs c address vk n = Ok r)).
  { eapply triple_bind; [apply triple_upstream|]. intros r Hr. case_goal; [by apply triple_lift|by apply triple_ret]. }
  intros resp [n Hn].
  eapply (triple_bind _ _ _ _ _ (fun h => if (0 <? ar_blockchain_height resp)%Z
    then h = as_i64 (ar_blockchain_height resp)
    else exists m info b, lws_post_get_info c m = Ok info /\ di_height info = Some b /\ h = as_i64 b)).
  { destruct (0 <? _)%Z; [by apply triple_ret|]. unfold get_blockchain_height.
    eapply (triple_bind _ _ _ _ _ (fun b => exists m info, lws_post_get_info c m = Ok info /\ di_height info = Some b)).
    - case_goal; [by apply triple_lift|]. eapply triple_bind; [apply triple_upstream|]. intros info [m Hm].
      case_goal; [by apply triple_lift|]. apply triple_lift. intros b Hb%ok_or_Ok. by exists m, info.
    - intros b (m & info & Hm & Hb). apply triple_ret. by exists m, info, b. }
  intros h Hh. apply triple_ret. simpl. rewrite lws_spends_said.
  eapply say_lws; try done. subst a. destruct Ha as [Ha|Ha]; rewrite Ha in *; auto.
Qed.

Lemma T_grin tip :
  to_lowercase (asset tip) = "grin" ->
  T (probe_grin_spends chains tip) (fun r => servers_say chains tip r.1 r.2).
Proof.
  intros Ea. unfold probe_grin_spends.
  eapply (triple_bind _ _ _ _ _ (fun g => grin chains = Some g)).
  { apply triple_lift. by intros c ?%ok_or_Ok. }
  intros g Hg. eapply (triple_bind _ _ _ _ _ (fun x => grin_commitment_of tip = Some x)).
  { apply triple_lift. by intros x ?%ok_or_Ok. }
  intros commit Hc. eapply triple_bind; [apply triple_upstream|]. intros h [n Hn].
  eapply triple_bind; [apply triple_upstream|]. intros outputs [m Hm].
  assert (Hex : existsb (fun o => go_commit o =? commit) outputs = bool_decide (commit ∈ go_commit <$> outputs)).
  { apply eq_true_iff_eq. rewrite bool_decide_eq_true, list_elem_of_fmap, existsb_exists. split.
    - intros (o & Ho & Eo%String.eqb_eq). exists o. by rewrite list_elem_of_In.
    - intros (o & -> & Ho). exists o. by rewrite <- list_elem_of_In, String.eqb_refl. }
  rewrite Hex.
  assert (Hsay : forall spends, (if bool_decide (commit ∈ go_commit <$> outputs) then spends = []
     else match sweep_txid tip with
     | None | Some "" => spends = []
     | Some excess => exists i k, gr_get_kernel g excess i = Ok k /\
         spends = match k with Some b => [mkConfirmedSpend excess (as_i64 b) None] | None => [] end
     end) -> servers_say chains tip spends (as_i64 h)) by (intros; by eapply say_grin).
  destruct (bool_decide _); [by apply triple_ret, Hsay|].
  destruct (sweep_txid tip) as [[|c0 x]|]; simpl; try by apply triple_ret, Hsay.
  eapply triple_bind; [apply triple_upstream|]. intros k [i Hi].
  destruct k as [b|]; apply triple_ret, Hsay; simpl; by do 2 eexists.
Qed.

Lemma T_probe tip :
  T (probe_confirmed_spends chains tip) (fun r => servers_say chains tip r.1 r.2).
Proof.
  unfold probe_confirmed_spends.
  set (a := to_lowercase (asset tip)).
  destruct ((a =? "btc") || (a =? "ltc")) eqn:E1; [|destruct ((a =? "xmr") || (a =? "wow")) eqn:E2;
    [|destruct (a =? "grin") eqn:E3]].
  - apply T_electrum; [|done]. apply orb_true_iff in E1 as [E|E]; apply String.eqb_eq in E; auto.
  - apply T_lws; [|done]. apply orb_true_iff in E2 as [E|E]; apply String.eqb_eq in E; auto.
  - apply T_grin. by apply String.eqb_eq in E3.
  - by apply triple_lift.
Qed.

(** ** Settling and taking back *)

Lemma T_settle tip spends h win :
  row_known tip -> servers_say chains tip spends h -> earliest win spends ->
  deep_enough (asset tip) h (cs_block_height win) ->
  T (settle tip win) (fun o => forall r, o = Some r -> row_known r).
Proof.
  intros Hk Hsay Hwin Hdeep.
  assert (Hset : forall t r r', status r' = "claimed" -> sweep_txid r' = Some (cs_txid win) ->
    sweep_block_height r' = Some (as_i32 (cs_block_height win)) ->
    claimed_by_user_id r' =
      (if bool_decide (sweep_txid tip = Some (cs_txid win)) then claimed_by_user_id r else None) ->
    unsettled_where t r = true -> sweep_row chains tms (id tip) (Some r) (Some r')).
  { intros t r r' Es Etx Eh Ec Hw. split; [|].
    - intros _ _. by exists tip, spends, h, win.
    - by rewrite Es. }
  unfold settle. destruct (sql_eq _ _) eqn:Etx.
  - apply T_update; [apply st_settle|]. intros t r Hw. apply (Hset t); try done. simpl.
    rewrite bool_decide_true; [done|]. destruct (sweep_txid tip); [|done].
    unfold sql_eq in Etx. apply bool_decide_eq_true in Etx. congruence.
  - apply T_update; [apply st_settle_clear|]. intros t r Hw. apply (Hset t); try done. simpl.
    rewrite bool_decide_false; [done|]. intros Eq. rewrite Eq in Etx.
    unfold sql_eq in Etx. by apply bool_decide_eq_false in Etx.
Qed.

Lemma T_revert tip spends h :
  row_known tip -> servers_say chains tip spends h -> is_Some (sweep_txid tip) ->
  (forall s, s ∈ spends -> sweep_txid tip <> Some (cs_txid s)) ->
  T (revert_sweep_on_reorg (id tip)) (fun o => forall r, o = Some r -> row_known r).
Proof.
  intros Hk Hsay Htx Hno. apply T_update; [apply st_revert|]. intros t r _. split; [done|].
  intros _ _. by exists tip, spends, h.
Qed.

Lemma T_awaiting tip : row_known tip -> T (process_awaiting_tip chains tip) (fun _ => True).
Proof.
  intros Hk. unfold process_awaiting_tip.
  assert (Ht : T (swallow (touch_tip_last_check (id tip))) (fun _ => True)).
  { by eapply triple_swallow; [apply T_touch|]. }
  eapply triple_bind; [eapply triple_attempt, T_probe|]. intros [[spends h]|e] Hsay; [|done].
  destruct (pick_winner spends) as [win|] eqn:Ewin; [|done].
  destruct (as_u64 _ <? _)%Z eqn:Ed; [done|].
  eapply triple_bind; [eapply T_settle; [done|exact Hsay|by apply pick_winner_spec|by apply depth_gate]|].
  intros [r|] _; [|by apply triple_ret].
  unfold send_sweep_confirmed_dm_if_needed. case_goal; [by apply triple_ret|].
  by eapply triple_swallow; [apply T_stamp_dm|].
Qed.

Lemma T_settled tip : row_known tip -> T (process_settled_tip chains tip) (fun _ => True).
Proof.
  intros Hk. unfold process_settled_tip.
  assert (Ht : T (swallow (touch_tip_last_check (id tip))) (fun _ => True)).
  { by eapply triple_swallow; [apply T_touch|]. }
  destruct (sweep_txid tip) as [tx|] eqn:Etx; [|done].
  eapply triple_bind; [eapply triple_attempt, T_probe|]. intros [[spends h]|e] Hsay; [|done].
  destruct (existsb _ spends) eqn:Ex; [done|].
  eapply triple_bind.
  { eapply T_revert; [done|exact Hsay|by rewrite Etx|]. intros s Hs Eq. rewrite Etx in Eq.
    injection Eq as ->. apply not_true_iff_false in Ex. apply Ex, existsb_exists.
    exists s. by rewrite <- list_elem_of_In, String.eqb_refl. }
  intros [r|] _; [|by apply triple_ret].
  unfold send_reorg_dm_if_needed. case_goal; [by apply triple_ret|].
  by eapply triple_swallow; [apply T_stamp_reorg|].
Qed.

(** ** The cycles *)

Lemma T_locked key m : T m (fun _ => True) -> T (under_lock key m) (fun _ => True).
Proof.
  intros Hm. unfold under_lock. eapply (triple_bind _ _ _ _ _ (fun _ => True)).
  { apply T_other. intros t d d' r _. unfold sql_try_advisory_lock. case_bool_decide; by intros [= <- _]. }
  intros [] _; [|by apply triple_ret].
  eapply triple_bind; [by apply triple_attempt|]. intros o _.
  eapply (triple_bind _ _ _ _ _ (fun _ => True)).
  { eapply (triple_swallow _ _ _ _ (fun _ => True)); [|done]. apply T_other. by intros t d d' r _ [= <- _]. }
  intros _ _. destruct o; [by apply triple_ret|by apply triple_lift].
Qed.

Lemma T_batch wh key n (f : SocialTipRow -> M unit) :
  (forall r, row_known r -> T (f r) (fun _ => True)) ->
  T (rows ← query (select_tips_limit wh key n); for_each (fun r => swallow (f r)) rows) (fun _ => True).
Proof.
  intros Hf. eapply triple_bind; [apply T_select|]. intros rows Hrows.
  eapply triple_for_each; [exact Hrows|]. intros r Hr. by eapply triple_swallow; [apply Hf|].
Qed.

End safety.

(** * One tip of a cycle, alone *)

Section alone.
Context `{Ext} (chains : ChainClients).

(** The column of the transaction id is too short for it. *)
Lemma settle_long w tip win :
  w_sched w = [] -> social_tips (w_db w) !! id tip = Some tip ->
  unsettled_where 0 tip = true -> varchar 128 (cs_txid win) = false ->
  exists e, settle tip win w = (w, Err e).
Proof.
  intros Hq Hr Hw Hlen. unfold settle, confirm_sweep_onchain, clear_claimed_by_on_settle, query.
  assert (Hlong : forall r, sweep_txid r = Some (cs_txid win) -> exists e, tip_violation (w_db w) r = Some e).
  { intros r Er. destruct (tip_violation (w_db w) r) as [e|] eqn:E; [by exists e|].
    apply tip_violation_iff in E as (_ & _ & _ & _ & _ & E & _). rewrite Er in E. simpl in E. congruence. }
  destruct (sql_eq _ _); rewrite (run_stmt_quiet _ _ _ Hq);
    unfold sql_confirm_sweep_onchain, sql_clear_claimed_by_on_settle, update_tip; rewrite Hr, (Hw : unsettled_where (w_now w) tip = true);
    match goal with |- context [tip_violation _ ?r] => destruct (Hlong r eq_refl) as [e ->] end;
    by eexists.
Qed.

Lemma settled_by_key a b r r' : spend_key a = spend_key b -> settled_by a r r' -> settled_by b r r'.
Proof. unfold spend_key, settled_by. intros [= <- <-]. done. Qed.

End alone.

(** * Concrete runs *)

