(* ===== verification/TipGc.v ===== *)
(** [src/tips/gc.rs]: the two janitors of the tip store. *)

From Stdlib Require Import ZArith Lia Ascii String.
From S2P Require Import Prelude RustStr Errors Db Effects TipStatus SocialTips TipLifecycle TipSafety TipPrograms Demo.

Local Open Scope string_scope.

Section janitors.
Context `{Ext}.

Definition run_tip_draft_gc_cycle : M unit := swallow cancel_old_drafts.

Definition run_tip_lifecycle_gc_cycle : M unit :=
  _ ← swallow cancel_stuck_pending_confirmation;
  swallow log_stuck_claiming.
End janitors.

(** The table after a janitor: the rows in status [st] created more than seven
    days ago are cancelled, and stamped; every other row is as it was. *)
Definition gc_after (st : TipStatus) (now : Time) (tips : gmap Uuid SocialTipRow)
  : gmap Uuid SocialTipRow :=
  (fun r => if bool_decide (status r = as_str st) && (created_at r <? now - 7 * DAY)%Z
            then r <|status := as_str Cancelled|> <|updated_at := now|> else r) <$> tips.

Lemma gc_cancel_checked d t r :
  tip_violation d r = None ->
  tip_violation d (touch_updated_at t (gc_cancel_set t r)) = None.
Proof.
  intros Hv. apply (tip_violation_status d r _ Cancelled); try done. simpl.
  constraints_of Hv. done.
Qed.

Lemma omap_nil {A B} (f : A -> option B) l :
  Forall (fun x => f x = None) l -> omap f l = [].
Proof. induction 1 as [|x l Hx _ IH]; simpl; [done|]. by rewrite Hx. Qed.

Lemma status_in_one name r :
  status_in [name] r = bool_decide (status r = name).
Proof.
  unfold status_in. simpl. rewrite orb_false_r.
  destruct (String.eqb_spec (status r) name);
    [by rewrite bool_decide_true|by rewrite bool_decide_false].
Qed.

Lemma update_all_gc wh st t d :
  tips_checked d ->
  (forall r, wh t r = bool_decide (status r = as_str st) && (created_at r <? t - 7 * DAY)%Z) ->
  exists rows, update_all_tips wh gc_cancel_set t d =
    inr (d <|social_tips := gc_after st t (social_tips d)|>, rows).
Proof.
  intros Hc Hwh. unfold update_all_tips. rewrite omap_nil.
  - eexists. do 3 f_equal. unfold set_field. f_equal. apply map_fmap_ext.
    intros k r _. by rewrite Hwh.
  - apply Forall_fmap, Forall_forall. intros r [_ Hr]%list_elem_of_filter.
    apply elem_of_tip_rows in Hr as [k Hk]. simpl. apply gc_cancel_checked. by eapply Hc.
Qed.

(** On a store within its constraints the janitors do exactly what they are
    for: the draft janitor cancels the drafts older than seven days, the
    lifecycle janitor the tips still waiting for funding after seven days, and
    no other row, in particular no pending or claiming one, changes. *)
Theorem gc_cancels_exactly `{Ext} w (Hq : w_sched w = [])
    (Hc : tips_checked (w_db w)) :
  run_tip_draft_gc_cycle w =
    (w <|w_db := (w_db w) <|social_tips := gc_after Draft (w_now w) (social_tips (w_db w))|>|>,
     Ok tt) /\
  run_tip_lifecycle_gc_cycle w =
    (w <|w_db := (w_db w) <|social_tips :=
       gc_after PendingConfirmation (w_now w) (social_tips (w_db w))|>|>, Ok tt).
Proof.
  destruct (update_all_gc old_draft_where Draft (w_now w) (w_db w) Hc) as [rows1 E1].
  { intros r. unfold old_draft_where. by rewrite status_in_one. }
  destruct (update_all_gc stuck_pending_where PendingConfirmation (w_now w) (w_db w) Hc)
    as [rows2 E2].
  { intros r. unfold stuck_pending_where. by rewrite status_in_one. }
  split.
  - unfold run_tip_draft_gc_cycle, cancel_old_drafts, sql_cancel_old_drafts, swallow,
      attempt, query, mbind, M_bind.
    by rewrite (run_stmt_quiet _ _ _ Hq), E1.
  - unfold run_tip_lifecycle_gc_cycle, cancel_stuck_pending_confirmation,
      sql_cancel_stuck_pending, swallow, attempt, query, mbind, M_bind.
    rewrite (run_stmt_quiet _ _ _ Hq), E2. simpl.
    unfold log_stuck_claiming, query, mbind, M_bind.
    by rewrite run_stmt_quiet by done.
Qed.

Lemma safe_gc `{Ext} G amt :
  tip_safe G amt run_tip_draft_gc_cycle (fun _ => True) /\
  tip_safe G amt run_tip_lifecycle_gc_cycle (fun _ => True).
Proof. unfold run_tip_draft_gc_cycle, run_tip_lifecycle_gc_cycle. split; triple_steps. Qed.

Lemma gc_cancels_exactly_witness :
  status (demo_row (w_db (run_tip_draft_gc_cycle
    (quiet_world demo_created (8 * DAY))).1) 10) = "cancelled".
Proof.
  rewrite (proj1 (gc_cancels_exactly (quiet_world demo_created (8 * DAY)) eq_refl
    (proj2 (demo_inv _ demo_run_created)))).
  by vm_compute.
Defined.
