(* ===== verification/Pepper.v ===== *)
(** [src/core/crypto/pepper.rs]: domain-separated HMAC peppering.  HMAC-SHA256
    itself is the [hmac] crate's. *)

From Stdlib Require Import Ascii String.
From S2P Require Import Prelude RustStr Errors Db.

Local Open Scope string_scope.

(** [Hmac::<Sha256>]: the tag of a message under a key. *)
Class Hmac := { hmac_sha256 : string -> string -> list Byte.byte }.

(** The unit separator, 0x1f. *)
Definition UNIT_SEP : ascii := ascii_of_nat 31.
Definition unit_sep : string := String UNIT_SEP EmptyString.

Definition peppered_hex `{Ext} `{Hmac} (pepper domain value : string) : string :=
  hex_encode (hmac_sha256 pepper (domain ++ unit_sep ++ value)).

(** Two given messages with the same tag: an attack on the HMAC itself. *)
Definition hmac_clash `{Hmac} (key a b : string) : Prop :=
  a <> b /\ hmac_sha256 key a = hmac_sha256 key b.

Lemma append_inj_l (p a b : string) : p ++ a = p ++ b -> a = b.
Proof. induction p as [|c p IH]; simpl; [done|]. intros [= H]. auto. Qed.

Definition no_sep (s : string) : bool := all_chars (fun c => negb (Ascii.eqb c UNIT_SEP)) s.

(** A separator that the second parts do not contain splits unambiguously. *)
Lemma sep_split a a' b b' :
  no_sep b = true -> no_sep b' = true ->
  a ++ unit_sep ++ b = a' ++ unit_sep ++ b' -> a = a' /\ b = b'.
Proof.
  intros Hb Hb'.
  assert (Hno : forall a c s, no_sep s = true -> a ++ String UNIT_SEP c <> s).
  { intros x c. induction x as [|y x IH]; intros s Hs; simpl.
    - intros <-. done.
    - intros <-. simpl in Hs. apply andb_true_iff in Hs as [_ Hs]. by eapply IH. }
  assert (Hcons : forall x s, x ++ unit_sep ++ s = x ++ String UNIT_SEP s) by done.
  rewrite !Hcons. revert a'. induction a as [|c a IH]; intros [|c' a']; cbn [String.append].
  - intros Heq. injection Heq as ->. done.
  - intros Heq. injection Heq as _ Heq. exfalso. symmetry in Heq. by eapply (Hno a' b' b).
  - intros Heq. injection Heq as _ Heq. exfalso. by eapply (Hno a b b').
  - intros Heq. injection Heq as -> Heq. apply IH in Heq as [-> ->]; done.
Qed.

(** What is tagged for a value. *)
Definition pepper_text (domain value : string) : string := domain ++ unit_sep ++ value.

(** One domain: equal tags mean equal values, or the two texts clash. *)
Lemma peppered_hex_inj {E : Ext} {EL : ExtLaws E} `{Hmac} pepper domain v v' :
  peppered_hex pepper domain v = peppered_hex pepper domain v' ->
  v = v' \/ hmac_clash pepper (pepper_text domain v) (pepper_text domain v').
Proof.
  unfold peppered_hex. intros Heq.
  assert (Ht : hmac_sha256 pepper (domain ++ unit_sep ++ v) =
               hmac_sha256 pepper (domain ++ unit_sep ++ v')).
  { apply (f_equal hex_decode) in Heq as Hd. rewrite !hex_round_trip in Hd. by injection Hd. }
  destruct (decide (v = v')) as [|Hne]; [by left|right].
  split; [|done]. intros Hm. by apply append_inj_l, append_inj_l in Hm.
Qed.
