(* ===== verification/Auth.v ===== *)
(** Sessions and bearer tokens: [src/core/session.rs],
    [src/infra/db/sessions.rs], [src/api/middleware.rs].

    The JWT library is a parameter: [jwt_decode_*] is [jsonwebtoken::decode]
    under a [Validation], at a time, and [jwt_encode_*] is
    [jsonwebtoken::encode]. *)

From Stdlib Require Import ZArith Lia Ascii String.
From S2P Require Import Prelude RustStr Errors Db Effects TipStatus SocialTips Pepper Demo.

Local Open Scope string_scope.

Definition ACCESS_AUD : string := "smirk:access".
Definition REFRESH_AUD : string := "smirk:refresh".

Record AccessTokenClaims := mkAccessTokenClaims {
  ac_sub : string; ac_aud : string; ac_iat : i64; ac_exp : i64;
  ac_platform : string; ac_sid : option string }.

Record RefreshTokenClaims := mkRefreshTokenClaims {
  rc_sub : string; rc_aud : string; rc_sid : string; rc_iat : i64; rc_exp : i64 }.

Record TokenInfo := mkTokenInfo {
  ti_user_id : Uuid; ti_platform : string; ti_session_id : option Uuid }.

Record TokenPair := mkTokenPair {
  access_token : string; refresh_token : string; expires_in : i64 }.

Inductive Platform := Extension | Web | Nostr.

Definition platform_as_str (p : Platform) : string :=
  match p with Extension => "extension" | Web => "web" | Nostr => "nostr" end.

Definition platform_from_str (s : string) : outcome Platform :=
  let l := to_lowercase s in
  if l =? "extension" then Ok Extension
  else if l =? "web" then Ok Web
  else if l =? "nostr" then Ok Nostr
  else Err (ValidationError ("Invalid platform: " ++ s)).

(** The settings of [jsonwebtoken::Validation] the source fixes. *)
Record Validation := mkValidation {
  v_algorithm : string;
  v_leeway : u64;
  v_validate_exp : bool;
  v_required : list string;
  v_audience : list string;
}.

Definition strict_validation (audience : string) : Validation :=
  mkValidation "HS256" 0 true ["exp"; "sub"; "aud"] [audience].

Class Jwt := {
  jwt_encode_access : string -> AccessTokenClaims -> string + string;  (* [inl]: an error *)
  jwt_encode_refresh : string -> RefreshTokenClaims -> string + string;
  jwt_decode_access : string -> Validation -> i64 -> string -> option AccessTokenClaims;
  jwt_decode_refresh : string -> Validation -> i64 -> string -> option RefreshTokenClaims;
}.

(** Documented behaviour of [jsonwebtoken] under a strict validation: a token
    is accepted only with the audience asked for and before its expiry; one
    that was encoded is accepted back unchanged in that case; a token decodes
    with the audience it was encoded with. *)
Class JwtLaws (J : Jwt) := {
  decode_access_sound : forall k aud now t c,
    jwt_decode_access k (strict_validation aud) now t = Some c ->
    ac_aud c = aud /\ (now <= ac_exp c)%Z;
  decode_encode_access : forall k c t now,
    jwt_encode_access k c = inr t -> (now <= ac_exp c)%Z ->
    jwt_decode_access k (strict_validation (ac_aud c)) now t = Some c;
  decode_encode_refresh : forall k c t now,
    jwt_encode_refresh k c = inr t -> (now <= rc_exp c)%Z ->
    jwt_decode_refresh k (strict_validation (rc_aud c)) now t = Some c;
  decode_access_of_refresh : forall k c t aud now c',
    jwt_encode_refresh k c = inr t ->
    jwt_decode_access k (strict_validation aud) now t = Some c' -> ac_aud c' = rc_aud c;
  decode_refresh_of_access : forall k c t aud now c',
    jwt_encode_access k c = inr t ->
    jwt_decode_refresh k (strict_validation aud) now t = Some c' -> aud = ac_aud c;
}.

Record SessionManager := mkSessionManager {
  sm_secret : string;
  sm_access_validation : Validation;
  sm_refresh_validation : Validation;
  sm_access_token_expiry_hours : i64;
  sm_refresh_token_expiry_days : i64;
}.

Definition session_manager_new (jwt_secret : string) (access_token_expiry_hours : u64)
  : SessionManager :=
  mkSessionManager jwt_secret (strict_validation ACCESS_AUD)
    (strict_validation REFRESH_AUD) (as_i64 access_token_expiry_hours) 30.

(** [DateTime::timestamp]: whole seconds. *)
Definition timestamp (t : Time) : i64 := (t / SECOND)%Z.

Definition invalid_token : AppError := AuthError "Invalid or expired token".

Section tokens.
Context `{Ext} `{Jwt}.

(** [.map_err(|e| AppError::Internal(format!("..: {e}")))]. *)
Definition encoded (what : string) (r : string + string) : outcome string :=
  match r with inr t => Ok t | inl e => Err (Internal (what ++ e)) end.

(** [now] is [Utc::now()]. *)
Definition create_token_pair (m : SessionManager) (now : Time) (user_id : Uuid)
    (p : Platform) (session_id : Uuid) : outcome TokenPair :=
  let access_exp := (now + sm_access_token_expiry_hours m * HOUR)%Z in
  let refresh_exp := (now + sm_refresh_token_expiry_days m * DAY)%Z in
  access ← encoded "Failed to create access token: " (jwt_encode_access (sm_secret m)
    (mkAccessTokenClaims (uuid_to_string user_id) ACCESS_AUD (timestamp now)
       (timestamp access_exp) (platform_as_str p) (Some (uuid_to_string session_id))));
  refresh ← encoded "Failed to create refresh token: " (jwt_encode_refresh (sm_secret m)
    (mkRefreshTokenClaims (uuid_to_string user_id) REFRESH_AUD
       (uuid_to_string session_id) (timestamp now) (timestamp refresh_exp)));
  Ok (mkTokenPair access refresh (sm_access_token_expiry_hours m * 3600)%Z).

Definition verify_access_token (m : SessionManager) (now : Time) (token : string)
  : outcome TokenInfo :=
  claims ← ok_or (jwt_decode_access (sm_secret m) (sm_access_validation m)
                    (timestamp now) token) invalid_token;
  user_id ← ok_or (uuid_parse_str (ac_sub claims)) invalid_token;
  Ok (mkTokenInfo user_id (ac_platform claims)
        (ac_sid claims ≫= uuid_parse_str)).

Definition verify_refresh_token (m : SessionManager) (now : Time) (token : string)
  : outcome (Uuid * Uuid) :=
  claims ← ok_or (jwt_decode_refresh (sm_secret m) (sm_refresh_validation m)
                    (timestamp now) token) invalid_token;
  user_id ← ok_or (uuid_parse_str (rc_sub claims)) invalid_token;
  session_id ← ok_or (uuid_parse_str (rc_sid claims)) invalid_token;
  Ok (user_id, session_id).

Definition hash_refresh_token `{Hmac} (token pepper : string) : string :=
  hex_encode (hmac_sha256 pepper token).
End tokens.

(** * The sessions table *)

Record NewSession := mkNewSession {
  ns_id : Uuid; ns_user_id : Uuid; ns_refresh_token_hash : string;
  ns_platform : string; ns_device_info : option string; ns_expires_at : Time }.

Definition sql_create_session (n : NewSession) : Stmt Session := fun now d =>
  match sessions d !! ns_id n with
  | Some _ => inl (PgUniqueViolation "sessions_pkey")
  | None =>
      if is_user d (ns_user_id n) then
        let s := mkSession (ns_id n) (ns_user_id n) (ns_refresh_token_hash n)
                   (ns_platform n) (ns_device_info n) now (ns_expires_at n) None now in
        inr (d <|sessions := <[ns_id n := s]> (sessions d)|>, s)
      else inl (PgForeignKeyViolation "sessions_user_id_fkey")
  end.

Definition live_session (now : Time) (s : Session) : bool :=
  is_none (s_revoked_at s) && (now <? s_expires_at s)%Z.

Definition sql_get_session_by_token_hash (h : string) : Stmt (option Session) :=
  fun now d =>
    inr (d, snd <$> head (filter (fun kv => (s_refresh_token_hash (snd kv) =? h)
                                            && live_session now (snd kv) = true)
                            (map_to_list (sessions d)))).

Definition sql_is_session_live (sid : Uuid) : Stmt bool := fun now d =>
  inr (d, match sessions d !! sid with Some s => live_session now s | None => false end).

#[export] Instance eta_Session : Eta Session := fun s =>
  mkSession (s_id s) (s_user_id s) (s_refresh_token_hash s) (s_platform s)
    (s_device_info s) (s_created_at s) (s_expires_at s) (s_revoked_at s) (s_last_used_at s).

Definition sql_touch_session (sid : Uuid) : Stmt unit := fun now d =>
  inr (d <|sessions := alter (fun s => s <|s_last_used_at := now|>) sid (sessions d)|>, tt).

(** The number of rows affected. *)
Definition sql_revoke_session (sid : Uuid) : Stmt Z := fun now d =>
  match sessions d !! sid with
  | Some s =>
      if is_none (s_revoked_at s)
      then inr (d <|sessions := <[sid := s <|s_revoked_at := Some now|>]> (sessions d)|>, 1%Z)
      else inr (d, 0%Z)
  | None => inr (d, 0%Z)
  end.

Definition revocable (u : Uuid) (s : Session) : bool :=
  bool_decide (s_user_id s = u) && is_none (s_revoked_at s).

Definition sql_revoke_all_user_sessions (u : Uuid) : Stmt Z := fun now d =>
  inr (d <|sessions :=
             (fun s => if revocable u s then s <|s_revoked_at := Some now|> else s)
             <$> sessions d|>,
       Z.of_nat (length (filter (fun kv => revocable u (snd kv) = true)
                           (map_to_list (sessions d))))).

Definition sql_cleanup_expired_sessions : Stmt Z := fun now d =>
  inr (d <|sessions := filter (fun kv => ~ (s_expires_at (snd kv) < now)%Z) (sessions d)|>,
       Z.of_nat (length (filter (fun kv => (s_expires_at (snd kv) < now)%Z)
                           (map_to_list (sessions d))))).

Section session_methods.
Context `{Ext}.
Definition create_session (n : NewSession) : M Session := query (sql_create_session n).
Definition get_session_by_token_hash (h : string) : M (option Session) :=
  query (sql_get_session_by_token_hash h).
Definition is_session_live (sid : Uuid) : M bool := query (sql_is_session_live sid).
Definition touch_session (sid : Uuid) : M unit := query (sql_touch_session sid).
Definition revoke_session (sid : Uuid) : M bool :=
  n ← query (sql_revoke_session sid); mret (0 <? n)%Z.
Definition revoke_all_user_sessions (u : Uuid) : M Z :=
  query (sql_revoke_all_user_sessions u).
Definition cleanup_expired_sessions : M Z := query sql_cleanup_expired_sessions.
End session_methods.

(** * Request headers *)

(** Header names are lower case; a name may repeat, [get] takes the first. *)
Definition HeaderMap : Type := list (string * string).

Definition header_get (h : HeaderMap) (name : string) : option string :=
  snd <$> head (filter (fun kv => fst kv = name) h).

(** [HeaderValue::to_str]: visible ASCII and tab only. *)
Definition header_char (c : ascii) : bool :=
  ((32 <=? code c)%nat && (code c <? 127)%nat) || (code c =? 9)%nat.
Definition to_str (v : string) : option string :=
  if all_chars header_char v then Some v else None.

Definition bearer_token (h : HeaderMap) : outcome string :=
  auth ← ok_or (header_get h "authorization" ≫= to_str)
    (AuthError "Missing authorization header");
  ok_or (non_empty (trim <$> RustStr.strip_prefix "Bearer " auth))
    (AuthError "Invalid authorization format").

(** [s.split(c).next()]. *)
Fixpoint before_char (c : ascii) (s : string) : string :=
  match s with
  | EmptyString => EmptyString
  | String a s' => if Ascii.eqb a c then EmptyString else String a (before_char c s')
  end.

(** IP addresses and networks, of [std::net] and [ipnetwork]. *)
Class Net := {
  IpAddr : Type;
  IpNetwork : Type;
  parse_ip : string -> option IpAddr;
  ip_to_string : IpAddr -> string;
  net_contains : IpNetwork -> IpAddr -> bool;
}.

Definition client_ip `{Net} (trusted_proxies : list IpNetwork) (h : HeaderMap)
    (peer_ip : IpAddr) : IpAddr :=
  if negb (existsb (fun net => net_contains net peer_ip) trusted_proxies) then peer_ip
  else
    default peer_ip
      (xff ← header_get h "x-forwarded-for" ≫= to_str;
       parse_ip (trim (before_char ","%char xff))).

Section bearer.
Context `{Ext} `{Jwt} (m : SessionManager).

Definition extract_user_id_from_token (h : HeaderMap) : M Uuid :=
  token ← lift (bearer_token h);
  now ← utc_now;
  info ← lift (verify_access_token m now token);
  match ti_session_id info with
  | Some sid =>
      live ← is_session_live sid;
      if negb live then fail invalid_token else mret (ti_user_id info)
  | None => mret (ti_user_id info)
  end.

Lemma read_only_bearer h : read_only (extract_user_id_from_token h).
Proof.
  unfold extract_user_id_from_token.
  repeat (apply read_only_bind; [|intros ?]);
    try (by apply read_only_free); try (apply read_only_free; apply db_free_lift).
  destruct (ti_session_id _); [|by apply read_only_free].
  apply read_only_bind; [apply read_only_stmt; by intros ? ? ? ? [= <- _]|].
  intros live. by destruct (negb live); apply read_only_free.
Qed.
End bearer.

(** * Properties of tokens *)

Lemma platform_round_trip p : platform_from_str (platform_as_str p) = Ok p.
Proof. by destruct p. Qed.

Lemma encoded_Ok what r t : encoded what r = Ok t <-> r = inr t.
Proof. destruct r; simpl; naive_solver. Qed.

(** The tokens of a login are the ones the server recognises, each for what
    it is: until they expire the access token gives back the user, the platform
    and the session it was minted for, the refresh token the user and the
    session; and neither is ever accepted in the other's place. *)
Theorem token_pair_round_trip {E : Ext} {EL : ExtLaws E} {J : Jwt} {JL : JwtLaws J} secret hours now u p sid pair now1 now2
    (Hpair : create_token_pair (session_manager_new secret hours) now u p sid = Ok pair)
    (Hacc : (timestamp now1 <= timestamp (now + as_i64 hours * HOUR))%Z)
    (Href : (timestamp now2 <= timestamp (now + 30 * DAY))%Z) :
  let m := session_manager_new secret hours in
  verify_access_token m now1 (access_token pair) =
    Ok (mkTokenInfo u (platform_as_str p) (Some sid)) /\
  verify_refresh_token m now2 (refresh_token pair) = Ok (u, sid) /\
  (forall t, verify_access_token m t (refresh_token pair) = Err invalid_token) /\
  (forall t, verify_refresh_token m t (access_token pair) = Err invalid_token).
Proof.
  intros m. unfold create_token_pair in Hpair.
  apply bind_Ok in Hpair as (ta & Ha%encoded_Ok & Hpair).
  apply bind_Ok in Hpair as (tr & Hr%encoded_Ok & [= <-]). simpl in *.
  split_and!.
  - unfold verify_access_token. simpl.
    pose proof (decode_encode_access _ _ _ (timestamp now1) Ha Hacc) as Hdec.
    simpl in Hdec. rewrite Hdec. simpl.
    by rewrite !uuid_round_trip.
  - unfold verify_refresh_token. simpl.
    pose proof (decode_encode_refresh _ _ _ (timestamp now2) Hr Href) as Hdec.
    simpl in Hdec. rewrite Hdec. simpl.
    by rewrite !uuid_round_trip.
  - intros t. unfold verify_access_token. simpl.
    destruct (jwt_decode_access _ _ _ _) as [c|] eqn:Ed; [|done]. exfalso.
    pose proof (decode_access_of_refresh _ _ _ _ _ _ Hr Ed) as E1.
    apply decode_access_sound in Ed as [E2 _]. simpl in E1. rewrite E2 in E1. discriminate.
  - intros t. unfold verify_refresh_token. simpl.
    destruct (jwt_decode_refresh _ _ _ _) as [c|] eqn:Ed; [|done]. exfalso.
    by pose proof (decode_refresh_of_access _ _ _ _ _ _ Ha Ed).
Qed.

(** * Revocation *)

(** The session [sid] is revoked or gone. *)
Definition session_dead (sid : Uuid) (d : Db) : Prop :=
  forall s, sessions d !! sid = Some s -> is_Some (s_revoked_at s).

(** What the system does to the sessions table, [sid] not being given to a new
    session (session ids are fresh UUIDs). *)
Inductive session_step (sid : Uuid) : Rel :=
| ss_create n t d d' s :
    ns_id n <> sid -> sql_create_session n t d = inr (d', s) -> session_step sid t d d'
| ss_touch j t d d' :
    sql_touch_session j t d = inr (d', tt) -> session_step sid t d d'
| ss_revoke j t d d' n :
    sql_revoke_session j t d = inr (d', n) -> session_step sid t d d'
| ss_revoke_all u t d d' n :
    sql_revoke_all_user_sessions u t d = inr (d', n) -> session_step sid t d d'
| ss_cleanup t d d' n :
    sql_cleanup_expired_sessions t d = inr (d', n) -> session_step sid t d d'
| ss_delete_user u t d d' :
    sql_delete_user u t d = inr (d', tt) -> session_step sid t d d'
| ss_other t d d' : sessions d' = sessions d -> session_step sid t d d'.

Lemma revoke_session_dead sid t d d' n :
  sql_revoke_session sid t d = inr (d', n) -> session_dead sid d'.
Proof.
  unfold sql_revoke_session, session_dead. intros E s Hs.
  destruct (sessions d !! sid) as [s0|] eqn:Hs0.
  - destruct (is_none (s_revoked_at s0)) eqn:En; injection E as <- <-; simpl in Hs.
    + rewrite lookup_insert_eq in Hs. injection Hs as <-. simpl. eauto.
    + rewrite Hs0 in Hs. injection Hs as <-. destruct (s_revoked_at s0); [eauto|done].
  - injection E as <- <-. by rewrite Hs0 in Hs.
Qed.

Lemma session_dead_stable sid : stable (session_step sid) (session_dead sid).
Proof.
  intros t d d' Hs Hd s Hl. destruct Hs as
    [n t d d' s' Hne E|j t d d' E|j t d d' n E|u t d d' n E|t d d' n E|u t d d' E|t d d' E].
  - unfold sql_create_session in E. repeat case_hyp E; try done.
    injection E as <- _. simpl in Hl. rewrite lookup_insert_ne in Hl by done. eauto.
  - injection E as <-. simpl in Hl. apply lookup_alter_Some in Hl as [(-> & s0 & H0 & ->)|[_ H0]];
      simpl; eauto.
  - destruct (decide (j = sid)) as [->|Hne]; [by eapply revoke_session_dead|].
    unfold sql_revoke_session in E. repeat case_hyp E; injection E as <- _; eauto.
    simpl in Hl. rewrite lookup_insert_ne in Hl by done. eauto.
  - injection E as <- _. simpl in Hl. rewrite lookup_fmap in Hl.
    apply fmap_Some in Hl as (s0 & H0 & ->). destruct (revocable u s0); simpl; eauto.
  - injection E as <- _. simpl in Hl. apply map_lookup_filter_Some in Hl as [H0 _]. eauto.
  - unfold sql_delete_user in E. case_hyp E; [|done]. injection E as <-. simpl in Hl.
    apply map_lookup_filter_Some in Hl as [H0 _]. eauto.
  - rewrite E in Hl. eauto.
Qed.

Lemma dead_rejected `{Ext} `{Jwt} m h tok sid :
  bearer_token h = Ok tok ->
  (forall now info, verify_access_token m now tok = Ok info -> ti_session_id info = Some sid) ->
  triple (fun _ => True) (session_step sid) (session_dead sid)
    (extract_user_id_from_token m h) (fun _ => False).
Proof.
  intros Hb Hsid. unfold extract_user_id_from_token. rewrite Hb.
  eapply (triple_bind _ _ _ _ _ (fun t => t = tok)); [by apply triple_lift; intros ? [= <-]|].
  intros ? ->. eapply triple_bind; [apply triple_utc_now|]. intros now _.
  eapply (triple_bind _ _ _ _ _ (fun i => ti_session_id i = Some sid)).
  { apply triple_lift. apply Hsid. }
  intros info ->. eapply (triple_bind _ _ _ _ _ (fun b => b = false)).
  - apply triple_read; [apply session_dead_stable|]. intros t d d' b Hd [= <- <-].
    split; [done|]. destruct (sessions d !! sid) as [s|] eqn:E; [|done].
    destruct (Hd s E) as [r Hr]. unfold live_session. by rewrite Hr.
  - intros ? ->. by apply triple_lift.
Qed.

(** Revocation is final and immediate: once [revoke_session] has returned,
    no request bearing an access token of that session is authenticated again,
    whatever the other tasks do to the sessions before, between and during the
    requests, and however the tokens' own expiry stands. *)
Theorem revocation_is_final `{Ext} `{Jwt} m h tok sid w w1 b w2 w3 o
    (Hs : sched_ok (session_step sid) (w_sched w))
    (Hrev : revoke_session sid w = (w1, Ok b))
    (Hlater : steps (session_step sid) (w_db w1) (w_db w2))
    (Hs2 : sched_ok (session_step sid) (w_sched w2))
    (Htok : bearer_token h = Ok tok)
    (Hsid : forall now info,
       verify_access_token m now tok = Ok info -> ti_session_id info = Some sid)
    (Hreq : extract_user_id_from_token m h w2 = (w3, o)) :
  forall u, o <> Ok u.
Proof.
  assert (Hd : session_dead sid (w_db w1)).
  { revert Hrev. unfold revoke_session, query, mbind, M_bind, run_stmt.
    destruct (next_slot w) as [sl w0].
    destruct (sql_revoke_session sid (w_now w0 + Z.of_N (sl_dt sl))%Z
      (sl_env sl (w_now w0 + Z.of_N (sl_dt sl))%Z (w_db w0))) as [e|[d' n]] eqn:E;
      destruct (sl_fault sl); try done; simpl.
    intros [= <- _]. simpl. by eapply revoke_session_dead. }
  apply (steps_stable _ _ _ _ (session_dead_stable sid) Hlater) in Hd.
  destruct (triple_run _ _ _ _ _ _ _ _ (dead_rejected m h tok sid Htok Hsid)
    Logic.I Hs2 Hd Hreq) as (_ & _ & Hno).
  intros u ->. by apply (Hno u).
Qed.

(** * A concrete token format

    A token is the numeral of its key and claims. *)

Definition access_tuple (c : AccessTokenClaims) :=
  (ac_sub c, ac_aud c, ac_iat c, ac_exp c, ac_platform c, ac_sid c).
Definition refresh_tuple (c : RefreshTokenClaims) :=
  (rc_sub c, rc_aud c, rc_sid c, rc_iat c, rc_exp c).

Definition demo_claims : Type :=
  string * ((string * string * Z * Z * string * option string) +
            (string * string * string * Z * Z)).

Definition demo_token (x : demo_claims) : string := pos_to_string (countable.encode x).
Definition demo_parse (t : string) : option demo_claims :=
  pos_of_string t ≫= countable.decode.

Lemma demo_parse_token x : demo_parse (demo_token x) = Some x.
Proof. unfold demo_parse, demo_token. rewrite pos_round_trip. simpl. apply decode_encode. Qed.

Definition accepts (v : Validation) (now : Z) (aud : string) (exp : Z) : bool :=
  existsb (String.eqb aud) (v_audience v) && (now <=? exp)%Z.

#[export] Instance demo_jwt : Jwt | 1000 := {
  jwt_encode_access k c := inr (demo_token (k, inl (access_tuple c)));
  jwt_encode_refresh k c := inr (demo_token (k, inr (refresh_tuple c)));
  jwt_decode_access k v now t :=
    match demo_parse t with
    | Some (k', inl (sub, aud, iat, exp, pl, sid)) =>
        if (k =? k') && accepts v now aud exp
        then Some (mkAccessTokenClaims sub aud iat exp pl sid) else None
    | _ => None
    end;
  jwt_decode_refresh k v now t :=
    match demo_parse t with
    | Some (k', inr (sub, aud, sid, iat, exp)) =>
        if (k =? k') && accepts v now aud exp
        then Some (mkRefreshTokenClaims sub aud sid iat exp) else None
    | _ => None
    end;
}.

Lemma accepts_own aud now exp :
  (now <= exp)%Z -> accepts (strict_validation aud) now aud exp = true.
Proof.
  intros Hle. unfold accepts. simpl. rewrite String.eqb_refl.
  by rewrite (proj2 (Z.leb_le _ _) Hle).
Qed.

#[export] Instance demo_jwt_laws : JwtLaws demo_jwt.
Proof.
  split; cbn [jwt_encode_access jwt_encode_refresh jwt_decode_access jwt_decode_refresh
    demo_jwt].
  - intros k aud now t c Hd. destruct (demo_parse t) as [[k' [[[[[[]]]]]|]]|]; try done.
    case_hyp Hd; [|done]. injection Hd as <-. unfold accepts in E. simpl in *.
    rewrite orb_false_r in E. apply andb_true_iff in E as [_ E].
    apply andb_true_iff in E as [E1%String.eqb_eq E2%Z.leb_le]. done.
  - intros k [sub aud iat exp pl sid] t now [= <-] Hle. rewrite demo_parse_token.
    simpl in *. by rewrite String.eqb_refl, accepts_own.
  - intros k [sub aud sid iat exp] t now [= <-] Hle. rewrite demo_parse_token.
    simpl in *. by rewrite String.eqb_refl, accepts_own.
  - intros k c t aud now c' [= <-]. by rewrite demo_parse_token.
  - intros k c t aud now c' [= <-]. by rewrite demo_parse_token.
Qed.

Definition demo_sm : SessionManager := session_manager_new "secret" 24.
Definition demo_pair : TokenPair :=
  match create_token_pair demo_sm 0 1%N Web 7%N with
  | Ok p => p | _ => mkTokenPair "" "" 0
  end.

Lemma token_pair_round_trip_witness :
  verify_access_token demo_sm HOUR (access_token demo_pair) =
  Ok (mkTokenInfo 1 "web" (Some 7%N)).
Proof.
  apply (token_pair_round_trip "secret" 24 0 1 Web 7 demo_pair HOUR HOUR);
    [reflexivity|by vm_compute|by vm_compute].
Defined.

Definition demo_session_db : Db :=
  empty_db <|users := {[ 1%N := mkUser 1 None None None None None None None 0 0 None None ]}|>
    <|sessions := {[ 7%N := mkSession 7 1 "h" "web" None 0 DAY None 0 ]}|>.

Definition demo_headers : HeaderMap :=
  [("authorization", "Bearer " ++ access_token demo_pair)].

Lemma demo_access_token now info :
  verify_access_token demo_sm now (access_token demo_pair) = Ok info ->
  ti_session_id info = Some 7%N.
Proof.
  assert (Et : access_token demo_pair = demo_token ("secret",
    inl (uuid_to_string 1%N, ACCESS_AUD, 0%Z, timestamp (24 * HOUR), "web",
         Some (uuid_to_string 7%N)))) by reflexivity.
  unfold verify_access_token. cbn [jwt_decode_access demo_jwt]. rewrite Et, demo_parse_token.
  destruct (_ && _); [|done]. vm_compute. by intros [= <-].
Qed.

Lemma revocation_is_final_witness :
  (extract_user_id_from_token demo_sm demo_headers (quiet_world demo_session_db HOUR)).2
    = Ok 1%N /\
  (extract_user_id_from_token demo_sm demo_headers
    (revoke_session 7 (quiet_world demo_session_db HOUR)).1).2 <> Ok 1%N.
Proof.
  split; [by vm_compute|].
  apply (revocation_is_final demo_sm demo_headers (access_token demo_pair) 7
    (quiet_world demo_session_db HOUR)
    (revoke_session 7 (quiet_world demo_session_db HOUR)).1 true
    (revoke_session 7 (quiet_world demo_session_db HOUR)).1
    (extract_user_id_from_token demo_sm demo_headers
      (revoke_session 7 (quiet_world demo_session_db HOUR)).1).1).
  - apply sched_ok_nil.
  - reflexivity.
  - apply steps_refl.
  - apply sched_ok_nil.
  - by vm_compute.
  - apply demo_access_token.
  - by destruct (extract_user_id_from_token _ _ _).
Defined.
