(* ===== verification/Config.v ===== *)
(** [src/config.rs]: the configuration, read from the environment and validated
    before the server starts.

    URLs, addresses and name resolution are the [url] and [ipnetwork] crates' and
    the operating system's. *)

From Stdlib Require Import ZArith Lia Ascii String.
From stdpp Require Import pretty.
From S2P Require Import Prelude RustStr Errors Db Effects Auth.

Local Open Scope string_scope.

(** * The tree *)

Inductive DeploymentMode := Single | Fleet.

Inductive RestartApplyMode := Manual | Auto.

#[export] Instance RestartApplyMode_eq_dec : EqDecision RestartApplyMode.
Proof. solve_decision. Defined.

Definition restart_apply_mode_as_str (m : RestartApplyMode) : string :=
  match m with Manual => "manual" | Auto => "auto" end.

Record ConsoleConfig := mkConsoleConfig { co_restart_apply_mode : RestartApplyMode }.

Record AuthConfig := mkAuthConfig { ac_jwt_secret : string; ac_jwt_expiry_hours : u64 }.

Record IdentityConfig := mkIdentityConfig {
  id_public_api_url : option string;
  id_nip05_domain : option string;
}.

Record SecretConfig := mkSecretConfig {
  se_seed_fingerprint_pepper : string;
  se_refresh_token_pepper : string;
  se_ip_salt : string;
}.

Record RateLimitConfig := mkRateLimitConfig {
  li_strict_period_ms : u64;
  li_strict_burst : u32;
  li_normal_period_ms : u64;
  li_normal_burst : u32;
}.

Definition SUPPORTED_PRICE_ASSETS : list string := ["btc"; "ltc"; "xmr"; "wow"; "grin"].

Definition SUPPORTED_PRICE_CURRENCIES : list string :=
  ["usd"; "eur"; "gbp"; "jpy"; "cny"; "aud"; "cad"; "chf"; "btc"].

Record ChainFlags := mkChainFlags {
  cg_btc : bool; cg_ltc : bool; cg_xmr : bool; cg_wow : bool; cg_grin : bool }.

Record FeatureFlags := mkFeatureFlags {
  ff_chains : ChainFlags;
  ff_prices : bool;
  ff_prices_provider : string;
  ff_prices_interval_secs : u64;
  ff_prices_assets : list string;
  ff_prices_currency : string;
  ff_tips : bool;
  ff_targeted_tips : bool;
  ff_nostr_identity : bool;
  ff_grin_relay : bool;
}.

Record UtxoConfig := mkUtxoConfig {
  ux_network : string;
  ux_electrum_primary : option string;
  ux_electrum_fallbacks : list string;
  ux_electrum_strict_tls : bool;
}.

Record LwsConfig := mkLwsConfig {
  lw_lws_url : string; lw_lws_admin_url : string; lw_lws_admin_key : string;
  lw_daemon_url : string }.

Record GrinConfig := mkGrinConfig {
  gn_owner_api_url : string; gn_owner_api_secret : string; gn_wallet_password : string;
  gn_foreign_api_url : string; gn_node_api_url : string; gn_node_api_user : string;
  gn_node_api_pass : string; gn_node_foreign_api_url : string;
  gn_node_foreign_api_secret : string }.

Record GrinLwsConfig := mkGrinLwsConfig {
  gl_url : string; gl_admin_url : option string; gl_admin_key : string }.

Record ChainConfig := mkChainConfig {
  ch_btc : UtxoConfig; ch_ltc : UtxoConfig; ch_xmr : LwsConfig; ch_wow : LwsConfig;
  ch_grin : GrinConfig; ch_grin_lws : GrinLwsConfig }.

Record PowConfig := mkPowConfig {
  pow_enabled : bool;
  pow_hmac_key : string;
  pow_required : bool;
  pow_cost : u64;
  pow_required_for_pubkeys : list string;
}.

Record AdminConfig := mkAdminConfig {
  dm_enabled : bool;
  dm_bind : string;
  dm_public_url : string;
  dm_jwt_secret : string;
  dm_key_integrity_secret : string;
  dm_pubkeys : list string;
  dm_max_keys : u32;
  dm_pending_key_ttl_days : u32;
  dm_allow_public_bind : bool;
  dm_onion : option string;
}.

Record LandingConfig := mkLandingConfig {
  ld_enabled : bool;
  ld_title : option string;
  ld_expose_version : bool;
  ld_expose_chains : bool;
  ld_expose_price_feed : bool;
  ld_expose_uptime : bool;
  ld_stats_enabled : bool;
  ld_stats_cache_hours : u64;
  ld_stats_min_users : i64;
}.

Record RetentionConfig := mkRetentionConfig {
  rt_login_events_days : u64;
  rt_audit_days : u64;
  rt_erasure_enabled : bool;
  rt_purge_login_events : bool;
  rt_export_per_day : u32;
  rt_grace_period_hours : u64;
}.

Inductive RestorePolicy := CreateOnly | Bounded | Unlimited.

#[export] Instance RestorePolicy_eq_dec : EqDecision RestorePolicy.
Proof. solve_decision. Defined.

Definition restore_policy_as_str (p : RestorePolicy) : string :=
  match p with
  | CreateOnly => "create-only" | Bounded => "bounded" | Unlimited => "unlimited"
  end.

Record RestoreConfig := mkRestoreConfig {
  rc_policy : RestorePolicy;
  rc_max_depth_days : u32;
  rc_pow_free_days : u32;
  rc_pow_days_per_bit : u32;
  rc_pow_max_bits : u32;
}.

Inductive GateMode := GateAll | GateAny.

Definition gate_mode_as_str (m : GateMode) : string :=
  match m with GateAll => "all" | GateAny => "any" end.
Definition gate_mode_from_env_str (s : string) : GateMode :=
  if eq_ignore_ascii_case s "any" then GateAny else GateAll.

Record PaymentConfig := mkPaymentConfig {
  pc_require_payment : bool;
  pc_provider : string;
  pc_provider_url : string;
  pc_store_id : string;
  pc_api_key : string;
  pc_amount : string;
  pc_currency : string;
  pc_confirmations : u32;
  pc_expires_minutes : u32;
}.

Record RegistrationConfig := mkRegistrationConfig {
  rg_require_invite : bool;
  rg_payment : PaymentConfig;
  rg_gate_mode : GateMode;
}.

Record PremiumPlan := mkPremiumPlan { plan_id : string; plan_days : i32; plan_amount : string }.

Record PaymentRailConfig := mkPaymentRailConfig {
  ra_kind : string; ra_asset : string; ra_provider_url : string; ra_store_id : string;
  ra_api_key : string }.

Record PremiumConfig := mkPremiumConfig {
  pm_enabled : bool;
  pm_currency : string;
  pm_plans : list PremiumPlan;
  pm_primary_assets : list string;
  pm_rails : list PaymentRailConfig;
}.

Record RelayConfig := mkRelayConfig {
  rl_enabled : bool;
  rl_mode : string;
  rl_advertised_url : string;
  rl_write_policy : string;
  rl_inbound_pow_bits : u8;
  rl_admission_bind : string;
  rl_admission_allow_public : bool;
  rl_max_event_bytes : Z;
  rl_retention_days : u32;
  rl_write_allowlist : list string;
}.

Record MessagingConfig := mkMessagingConfig {
  ms_relay : RelayConfig;
  ms_nip05_interop_hints : bool;
  ms_nip05_extra_relay_hints : list string;
}.

Record FeedConfig := mkFeedConfig {
  fd_enabled : bool; fd_show_owner : bool; fd_show_premium : bool; fd_owner_npub : string;
  fd_allowlist_npubs : list string; fd_extra_relays : list string }.

Record Config `{Net} := mkConfig {
  cf_server_host : string;
  cf_server_port : Z;
  cf_deployment_mode : DeploymentMode;
  cf_environment : string;
  cf_database_url : string;
  cf_legacy_database_url : option string;
  cf_tip_share_base : option string;
  cf_auth : AuthConfig;
  cf_identity : IdentityConfig;
  cf_secrets : SecretConfig;
  cf_trusted_proxies : list IpNetwork;
  cf_rate_limit : RateLimitConfig;
  cf_cors_allowed_origins : list string;
  cf_features : FeatureFlags;
  cf_chains : ChainConfig;
  cf_pow : PowConfig;
  cf_admin : AdminConfig;
  cf_landing : LandingConfig;
  cf_retention : RetentionConfig;
  cf_restore : RestoreConfig;
  cf_registration : RegistrationConfig;
  cf_messaging : MessagingConfig;
  cf_premium : PremiumConfig;
  cf_feed : FeedConfig;
  cf_console : ConsoleConfig;
}.

Arguments mkConfig {_}.

(** * Third parties *)

Inductive UrlHost `{Net} := HostIp (ip : IpAddr) | HostDomain (d : string).

(** [url::Url], [IpNetwork::from_str] and [From<IpAddr>], [is_loopback], and
    [to_socket_addrs] (the addresses of a [host:port]; [None] is an error). *)
Class Urls `{Net} := {
  Url : Type;
  url_parse : string -> option Url;
  url_scheme : Url -> string;
  url_host : Url -> option UrlHost;
  network_from_str : string -> option IpNetwork;
  network_from_ip : IpAddr -> IpNetwork;
  ip_is_loopback : IpAddr -> bool;
  to_socket_addrs : string -> option (list IpAddr);
}.

(** [std::env]: the variables that are set (to Unicode). *)
Definition Env : Type := gmap string string.

(** * Checks of single values *)

Definition cfg_err (msg : string) : AppError := ConfigError msg.

Definition PLACEHOLDERS : list string :=
  ["change_me"; "changeme"; "your-"; "example"; "placeholder"; "dev-"; "xxxx"; "0000000000"].

Definition looks_placeholder (s : string) : bool :=
  let l := to_lowercase s in existsb (fun p => contains p l) PLACEHOLDERS.

Definition is_loopback_url `{Urls} (s : string) : bool :=
  match url_parse s ≫= url_host with
  | Some (HostIp ip) => ip_is_loopback ip
  | Some (HostDomain d) => eq_ignore_ascii_case d "localhost"
  | None => false
  end.

Fixpoint positive_decimal_from (seen_dot seen_digit seen_nonzero : bool) (s : string) : bool :=
  match s with
  | EmptyString => seen_digit && seen_nonzero
  | String c s' =>
      if is_ascii_digit c then
        positive_decimal_from seen_dot true (seen_nonzero || negb (Ascii.eqb c "0")) s'
      else if Ascii.eqb c "." && negb seen_dot then
        positive_decimal_from true seen_digit seen_nonzero s'
      else false
  end.

Definition is_positive_decimal (s : string) : bool := positive_decimal_from false false false s.

(** * Reading the environment *)

Section env.
Context (env : Env).

Definition env_opt (key : string) : option string := non_empty (env !! key).

Definition env_or (key dflt : string) : string := default dflt (env_opt key).

Definition env_bool (key : string) (dflt : bool) : bool :=
  match env !! key with
  | Some v => bool_decide (to_lowercase v ∈ ["1"; "true"; "yes"; "on"])
  | None => dflt
  end.

(** [env_parse::<T>], given the parser of [T]. *)
Definition env_parse (parse : string -> option Z) (key : string) (dflt : Z) : outcome Z :=
  match env_opt key with
  | Some v => ok_or (parse v) (cfg_err (key ++ " is set but not a valid value"))
  | None => Ok dflt
  end.

Definition parse_u8 : string -> option Z := parse_int 0 (2 ^ 8 - 1).
Definition parse_u16 : string -> option Z := parse_int 0 (2 ^ 16 - 1).
Definition parse_u32 : string -> option Z := parse_int 0 (2 ^ 32 - 1).
Definition parse_u64 : string -> option Z := parse_int 0 U64_MAX.
Definition parse_usize : string -> option Z := parse_u64.
Definition parse_i32 : string -> option Z := parse_int (- 2 ^ 31) I32_MAX.
Definition parse_i64 : string -> option Z := parse_int I64_MIN I64_MAX.

(** [s.split(',').map(|x| x.trim()).filter(|x| !x.is_empty())]. *)
Definition comma_list (s : string) : list string :=
  base.filter (fun x => is_empty x = false) (trim <$> split_char "," s).

Definition env_list (key : string) : list string :=
  match env_opt key with Some s => comma_list s | None => [] end.

Fixpoint networks_of `{Urls} (key : string) (toks : list string) : outcome (list IpNetwork) :=
  match toks with
  | [] => Ok []
  | tok :: toks' =>
      net ← ok_or (match network_from_str tok with
                   | Some n => Some n
                   | None => network_from_ip <$> parse_ip tok
                   end) (cfg_err (key ++ " contains an invalid CIDR/IP: " ++ tok));
      nets ← networks_of key toks';
      Ok (net :: nets)
  end.

Definition parse_networks `{Urls} (key : string) : outcome (list IpNetwork) :=
  networks_of key (env_list key).

(** (kind, asset, env prefix). *)
Definition CHECKOUT_RAILS : list (string * string * string) :=
  [("xmrcheckout", "XMR", "PAYMENT_XMRCHECKOUT"); ("wowcheckout", "WOW", "PAYMENT_WOWCHECKOUT")].

Definition checkout_rail_of (r : string * string * string) : option PaymentRailConfig :=
  let '(kind, asset, prefix) := r in
  let url := env_or (prefix ++ "_URL") "" in
  let store := env_or (prefix ++ "_STORE_ID") "" in
  let key := env_or (prefix ++ "_API_KEY") "" in
  if negb (is_empty url) || negb (is_empty store) || negb (is_empty key)
  then Some (mkPaymentRailConfig kind asset url store key)
  else None.

Definition parse_checkout_rails : list PaymentRailConfig := omap checkout_rail_of CHECKOUT_RAILS.
End env.

(** One [id:days:amount] entry. *)
Definition parse_plan (entry : string) : option PremiumPlan :=
  match splitn_char 3 ":" (trim entry) with
  | id :: days :: amount :: _ =>
      let id := trim id in
      let amount := trim amount in
      match parse_i32 (trim days) with
      | Some days =>
          if negb (is_empty id) && negb (is_empty amount) && (0 <? days)%Z
          then Some (mkPremiumPlan id days amount)
          else None
      | None => None
      end
  | _ => None
  end.

Definition parse_premium_plans (s : string) : list PremiumPlan :=
  omap parse_plan (split_char "," s).

(** * [Config::from_env] *)

Section from_env.
Context `{Urls} (env : Env).

Local Abbreviation str := (env_or env).
Local Abbreviation flag := (env_bool env).
Local Abbreviation u32_of := (env_parse env parse_u32).
Local Abbreviation u64_of := (env_parse env parse_u64).

Definition deployment_mode_from (s : string) : outcome DeploymentMode :=
  let l := to_lowercase s in
  if l =? "fleet" then Ok Fleet
  else if l =? "single" then Ok Single
  else Err (cfg_err ("DEPLOYMENT_MODE must be single|fleet, got " ++ l)).

Definition restore_policy_from (s : string) : outcome RestorePolicy :=
  let l := to_lowercase s in
  if bool_decide (l ∈ ["create-only"; "create_only"; "createonly"]) then Ok CreateOnly
  else if l =? "bounded" then Ok Bounded
  else if l =? "unlimited" then Ok Unlimited
  else Err (cfg_err ("WALLET_RESTORE_POLICY must be create-only|bounded|unlimited, got " ++ l)).

Definition restart_apply_mode_from (s : string) : RestartApplyMode :=
  if s =? "auto" then Auto else Manual.

Definition auth_from_env : outcome AuthConfig :=
  hours ← u64_of "JWT_EXPIRY_HOURS" 24;
  Ok (mkAuthConfig (str "JWT_SECRET" "") hours).

Definition rate_limit_from_env : outcome RateLimitConfig :=
  sp ← u64_of "RATE_LIMIT_STRICT_PERIOD_MS" 500;
  sb ← u32_of "RATE_LIMIT_STRICT_BURST" 20;
  np ← u64_of "RATE_LIMIT_NORMAL_PERIOD_MS" 100;
  nb ← u32_of "RATE_LIMIT_NORMAL_BURST" 60;
  Ok (mkRateLimitConfig sp sb np nb).

(** Unset means all; set, even to nothing, means exactly what it lists. *)
Definition prices_assets_from_env : list string :=
  match env !! "PRICES_ASSETS" with
  | None => SUPPORTED_PRICE_ASSETS
  | Some s => base.filter (fun x => is_empty x = false)
                ((fun x => to_lowercase (trim x)) <$> split_char "," s)
  end.

Definition features_from_env : outcome FeatureFlags :=
  secs ← u64_of "PRICES_FETCH_INTERVAL_SECS" 300;
  Ok (mkFeatureFlags
    (mkChainFlags (flag "FEATURE_BTC" true) (flag "FEATURE_LTC" true) (flag "FEATURE_XMR" true)
       (flag "FEATURE_WOW" true) (flag "FEATURE_GRIN" true))
    (flag "FEATURE_PRICES" true) (to_lowercase (str "PRICES_PROVIDER" "neroswap")) secs
    prices_assets_from_env (to_lowercase (str "PRICES_CURRENCY" "usd"))
    (flag "FEATURE_TIPS" false) (flag "FEATURE_TARGETED_TIPS" false)
    (flag "FEATURE_NOSTR_IDENTITY" true) (flag "FEATURE_GRIN_RELAY" true)).

Definition utxo_from_env (coin : string) : UtxoConfig :=
  mkUtxoConfig (str (coin ++ "_NETWORK") "mainnet") (env_opt env (coin ++ "_ELECTRUM_URL"))
    (env_list env (coin ++ "_ELECTRUM_FALLBACKS")) (flag "ELECTRUM_STRICT_TLS" false).

Definition chains_from_env : ChainConfig :=
  mkChainConfig (utxo_from_env "BTC") (utxo_from_env "LTC")
    (mkLwsConfig (str "XMR_LWS_URL" "http://127.0.0.1:8443")
       (str "XMR_LWS_ADMIN_URL" "http://127.0.0.1:9443") (str "XMR_LWS_ADMIN_KEY" "")
       (str "XMR_DAEMON_URL" "http://127.0.0.1:18081"))
    (mkLwsConfig (str "WOW_LWS_URL" "http://127.0.0.1:18443")
       (str "WOW_LWS_ADMIN_URL" "http://127.0.0.1:19443") (str "WOW_LWS_ADMIN_KEY" "")
       (str "WOW_DAEMON_URL" "http://127.0.0.1:34568"))
    (mkGrinConfig (str "GRIN_OWNER_API_URL" "http://127.0.0.1:3420/v3/owner")
       (str "GRIN_OWNER_API_SECRET" "") (str "GRIN_WALLET_PASSWORD" "")
       (str "GRIN_FOREIGN_API_URL" "http://127.0.0.1:3415/v2/foreign")
       (str "GRIN_NODE_API_URL" "http://127.0.0.1:3413/v2/owner")
       (str "GRIN_NODE_API_USER" "grin") (str "GRIN_NODE_API_PASS" "")
       (str "GRIN_NODE_FOREIGN_API_URL" "http://127.0.0.1:3413/v2/foreign")
       (str "GRIN_NODE_FOREIGN_API_SECRET" ""))
    (mkGrinLwsConfig (str "GRIN_LWS_URL" "") (env_opt env "GRIN_LWS_ADMIN_URL")
       (str "GRIN_LWS_ADMIN_KEY" "")).

Definition pow_from_env : outcome PowConfig :=
  cost ← u64_of "ALTCHA_COST" 100000;
  Ok (mkPowConfig (flag "FEATURE_POW" false) (str "ALTCHA_HMAC_KEY" "") (flag "POW_REQUIRED" false)
    cost (to_lowercase <$> env_list env "TEST_POW_REQUIRED_FOR_PUBKEYS")).

Definition admin_from_env : outcome AdminConfig :=
  max_keys ← u32_of "ADMIN_MAX_KEYS" 8;
  ttl ← u32_of "ADMIN_PENDING_KEY_TTL_DAYS" 7;
  Ok (mkAdminConfig (flag "ADMIN_ENABLED" false) (str "ADMIN_BIND" "127.0.0.1:8081")
    (str "ADMIN_PUBLIC_URL" "http://127.0.0.1:8081") (str "ADMIN_JWT_SECRET" "")
    (str "ADMIN_KEY_INTEGRITY_SECRET" "") (env_list env "ADMIN_PUBKEYS") max_keys ttl
    (flag "ADMIN_ALLOW_PUBLIC_BIND" false) (env_opt env "TOR_ADMIN_ONION")).

Definition landing_from_env : outcome LandingConfig :=
  hours ← u64_of "PUBLIC_STATS_CACHE_HOURS" 24;
  min_users ← env_parse env parse_i64 "PUBLIC_STATS_MIN_USERS" 20;
  Ok (mkLandingConfig (flag "PUBLIC_LANDING_ENABLED" false) (env_opt env "PUBLIC_LANDING_TITLE")
    (flag "PUBLIC_EXPOSE_VERSION" false) (flag "PUBLIC_EXPOSE_CHAINS" false)
    (flag "PUBLIC_EXPOSE_PRICE_FEED" false) (flag "PUBLIC_EXPOSE_UPTIME" false)
    (flag "PUBLIC_STATS_ENABLED" false) hours min_users).

Definition retention_from_env : outcome RetentionConfig :=
  login ← u64_of "RETENTION_LOGIN_EVENTS_DAYS" 90;
  audit ← u64_of "RETENTION_AUDIT_DAYS" 365;
  export ← u32_of "ERASURE_EXPORT_PER_DAY" 3;
  grace ← u64_of "ERASURE_GRACE_PERIOD_HOURS" 72;
  Ok (mkRetentionConfig login audit (flag "ERASURE_ENABLED" false)
    (flag "ERASURE_PURGE_LOGIN_EVENTS" true) export grace).

Definition restore_from_env : outcome RestoreConfig :=
  policy ← restore_policy_from (str "WALLET_RESTORE_POLICY" "create-only");
  depth ← u32_of "WALLET_MAX_RESTORE_DEPTH_DAYS" 365;
  free ← u32_of "WALLET_RESTORE_POW_FREE_DAYS" 90;
  per_bit ← u32_of "WALLET_RESTORE_POW_DAYS_PER_BIT" 0;
  max_bits ← u32_of "WALLET_RESTORE_POW_MAX_BITS" 24;
  Ok (mkRestoreConfig policy depth free per_bit max_bits).

Definition registration_from_env : outcome RegistrationConfig :=
  conf ← u32_of "PAYMENT_CONFIRMATIONS" 1;
  exp ← u32_of "PAYMENT_EXPIRES_MINUTES" 60;
  Ok (mkRegistrationConfig (flag "REGISTRATION_REQUIRE_INVITE" false)
    (mkPaymentConfig (flag "REGISTRATION_REQUIRE_PAYMENT" false)
       (to_lowercase (str "PAYMENT_PROVIDER" "btcpay")) (str "PAYMENT_PROVIDER_URL" "")
       (str "PAYMENT_STORE_ID" "") (str "PAYMENT_API_KEY" "") (str "PAYMENT_AMOUNT" "")
       (to_uppercase (str "PAYMENT_CURRENCY" "")) conf exp)
    (gate_mode_from_env_str (str "REGISTRATION_GATE_MODE" "all"))).

Definition messaging_from_env : outcome MessagingConfig :=
  bits ← env_parse env parse_u8 "RELAY_INBOUND_POW_BITS" 0;
  bytes ← env_parse env parse_usize "RELAY_MAX_EVENT_BYTES" 65536;
  days ← u32_of "RELAY_RETENTION_DAYS" 30;
  Ok (mkMessagingConfig
    (mkRelayConfig (flag "RELAY_ENABLED" false) (to_lowercase (str "RELAY_MODE" "bundled"))
       (str "RELAY_URL" "") (to_lowercase (str "RELAY_WRITE_POLICY" "inbox-outbox")) bits
       (str "RELAY_ADMISSION_BIND" "127.0.0.1:8090") (flag "RELAY_ADMISSION_ALLOW_PUBLIC" false)
       bytes days (env_list env "RELAY_WRITE_ALLOWLIST_NPUBS"))
    (flag "NIP05_INTEROP_HINTS" false) (env_list env "NIP05_EXTRA_RELAY_HINTS")).

Definition premium_from_env : PremiumConfig :=
  mkPremiumConfig (flag "PREMIUM_ENABLED" false) (to_uppercase (str "PREMIUM_CURRENCY" ""))
    (parse_premium_plans (str "PREMIUM_PLANS" "")) (to_uppercase <$> env_list env "PAYMENT_ASSETS")
    (parse_checkout_rails env).

Definition feed_from_env : FeedConfig :=
  mkFeedConfig (flag "FEED_ENABLED" false) (flag "FEED_SHOW_OWNER" true)
    (flag "FEED_SHOW_PREMIUM" true) (trim (str "FEED_OWNER_NPUB" ""))
    (env_list env "FEED_ALLOWLIST_NPUBS") (env_list env "FEED_EXTRA_RELAYS").

(** The struct literal of [from_env]; its field expressions run in order. *)
Definition read_env : outcome Config :=
  port ← env_parse env parse_u16 "SERVER_PORT" 8080;
  mode ← deployment_mode_from (str "DEPLOYMENT_MODE" "single");
  url ← ok_or (env_opt env "DATABASE_URL") (cfg_err "DATABASE_URL is required");
  auth ← auth_from_env;
  proxies ← parse_networks env "TRUSTED_PROXIES";
  rates ← rate_limit_from_env;
  features ← features_from_env;
  pow ← pow_from_env;
  admin ← admin_from_env;
  landing ← landing_from_env;
  retention ← retention_from_env;
  restore ← restore_from_env;
  registration ← registration_from_env;
  messaging ← messaging_from_env;
  Ok (mkConfig (str "SERVER_HOST" "0.0.0.0") port mode (str "ENVIRONMENT" "development") url
    (env_opt env "LEGACY_DATABASE_URL") (env_opt env "TIP_SHARE_BASE_URL") auth
    (mkIdentityConfig (env_opt env "PUBLIC_API_URL") (env_opt env "NIP05_DOMAIN"))
    (mkSecretConfig (str "SEED_FINGERPRINT_PEPPER" "") (str "REFRESH_TOKEN_PEPPER" "")
       (str "IP_SALT" ""))
    proxies rates (env_list env "CORS_ALLOWED_ORIGINS") features chains_from_env pow admin landing
    retention restore registration messaging premium_from_env feed_from_env
    (mkConsoleConfig (restart_apply_mode_from (str "RESTART_APPLY_MODE" "manual")))).
End from_env.

(** * [Config::validate] *)

(** [if b { return Err(cfg_err(msg)) }]. *)
Definition refuse (b : bool) (msg : string) : outcome unit := if b then Err (cfg_err msg) else Ok tt.

(** [for x in xs { check(x)? }]. *)
Fixpoint check_all {A} (check : A -> outcome unit) (xs : list A) : outcome unit :=
  match xs with [] => Ok tt | x :: xs' => _ ← check x; check_all check xs' end.

Definition starts_with (p s : string) : bool := is_some (RustStr.strip_prefix p s).

(** The closure [require_secret] of [validate]. *)
Definition require_secret (prod : bool) (name val : string) (min : nat) : outcome unit :=
  _ ← refuse (len val <? min)%nat (name ++ " must be set and at least " ++ pretty min ++ " bytes");
  refuse (prod && looks_placeholder val) (name ++ " looks like a placeholder; set a real value").

(** One plan: the ids seen so far, then the ids seen after it. *)
Definition check_plan (seen : list string) (plan : PremiumPlan) : outcome (list string) :=
  _ ← refuse (bool_decide (plan_id plan ∈ seen))
    ("duplicate PREMIUM_PLANS id " ++ debug_str (plan_id plan));
  _ ← refuse (negb (is_positive_decimal (plan_amount plan)))
    ("PREMIUM_PLANS[" ++ plan_id plan ++ "] amount " ++ debug_str (plan_amount plan)
     ++ " must be a positive decimal");
  _ ← refuse (3660 <? plan_days plan)%Z
    ("PREMIUM_PLANS[" ++ plan_id plan ++ "] days " ++ pretty (plan_days plan)
     ++ " exceeds the 3660-day (10-year) maximum");
  Ok (plan_id plan :: seen).

Fixpoint check_plans (seen : list string) (plans : list PremiumPlan) : outcome unit :=
  match plans with
  | [] => Ok tt
  | plan :: plans' => seen ← check_plan seen plan; check_plans seen plans'
  end.

Definition rail_prefix (kind : string) : string :=
  match list_find (fun r : string * string * string => r.1.1 = kind) CHECKOUT_RAILS with
  | Some (_, (_, _, p)) => p
  | None => "PAYMENT_RAIL"
  end.

Section validate.
Context `{Urls}.

Definition validate_rail (prod : bool) (rail : PaymentRailConfig) : outcome unit :=
  let prefix := rail_prefix (ra_kind rail) in
  _ ← refuse (is_empty (trim (ra_provider_url rail)) || is_empty (trim (ra_store_id rail)))
    (prefix ++ "_URL and " ++ prefix ++ "_STORE_ID must both be set to enable the "
     ++ ra_kind rail ++ " rail, or " ++ prefix ++ "_* left entirely unset");
  _ ← refuse (prod && negb (starts_with "https://" (ra_provider_url rail))
              && negb (is_loopback_url (ra_provider_url rail)))
    (prefix ++ "_URL must be https:// in production (loopback exempt)");
  _ ← refuse (len (ra_api_key rail) <? 8)%nat
    (prefix ++ "_API_KEY must be set and at least 8 bytes");
  refuse (prod && looks_placeholder (ra_api_key rail))
    (prefix ++ "_API_KEY looks like a placeholder; set a real value").

Definition is_production (c : Config) : bool := cf_environment c =? "production".

Definition validate_rate_limit (li : RateLimitConfig) : outcome unit :=
  _ ← refuse ((li_strict_period_ms li =? 0) || (li_normal_period_ms li =? 0))%Z
    "RATE_LIMIT_*_PERIOD_MS must be >= 1 (milliseconds per replenished token)";
  refuse ((li_strict_burst li =? 0) || (li_normal_burst li =? 0))%Z
    "RATE_LIMIT_*_BURST must be >= 1".

Definition validate_core_secrets (prod : bool) (c : Config) : outcome unit :=
  _ ← require_secret prod "JWT_SECRET" (ac_jwt_secret (cf_auth c)) 32;
  _ ← require_secret prod "SEED_FINGERPRINT_PEPPER"
        (se_seed_fingerprint_pepper (cf_secrets c)) 32;
  _ ← require_secret prod "REFRESH_TOKEN_PEPPER" (se_refresh_token_pepper (cf_secrets c)) 32;
  require_secret prod "IP_SALT" (se_ip_salt (cf_secrets c)) 16.

Definition validate_restore (r : RestoreConfig) : outcome unit :=
  refuse (bool_decide (rc_policy r = Bounded) && (rc_max_depth_days r =? 0)%Z)
    "WALLET_MAX_RESTORE_DEPTH_DAYS must be > 0 when WALLET_RESTORE_POLICY=bounded".

Definition validate_nostr (prod nostr_identity : bool) (public_api_url : option string)
  : outcome unit :=
  if nostr_identity then
    url ← ok_or public_api_url
      (cfg_err "PUBLIC_API_URL is required when FEATURE_NOSTR_IDENTITY is on");
    parsed ← ok_or (url_parse url) (cfg_err "PUBLIC_API_URL must be an absolute URL");
    _ ← refuse (prod && negb (url_scheme parsed =? "https"))
      "PUBLIC_API_URL must be https in production";
    refuse (prod && looks_placeholder url)
      "PUBLIC_API_URL looks like a placeholder; set your own domain"
  else Ok tt.

Definition validate_pow (prod : bool) (p : PowConfig) : outcome unit :=
  _ ← (if pow_enabled p then require_secret prod "ALTCHA_HMAC_KEY" (pow_hmac_key p) 32 else Ok tt);
  refuse (negb (pow_enabled p)
          && (pow_required p || negb (bool_decide (pow_required_for_pubkeys p = []))))
    "POW_REQUIRED (or TEST_POW_REQUIRED_FOR_PUBKEYS) is set but FEATURE_POW is off — the PoW gate would never apply; set FEATURE_POW=true".

Definition validate_admin (prod : bool) (a : AdminConfig) : outcome unit :=
  if dm_enabled a then
    _ ← require_secret prod "ADMIN_JWT_SECRET" (dm_jwt_secret a) 32;
    _ ← require_secret prod "ADMIN_KEY_INTEGRITY_SECRET" (dm_key_integrity_secret a) 32;
    _ ← ok_or (url_parse (dm_public_url a)) (cfg_err "ADMIN_PUBLIC_URL must be an absolute URL");
    Ok tt
  else Ok tt.

Definition validate_prices (f : FeatureFlags) : outcome unit :=
  if ff_prices f then
    _ ← refuse (negb (bool_decide (ff_prices_provider f ∈ ["neroswap"; "coingecko"; "kraken"])))
      ("PRICES_PROVIDER " ++ debug_str (ff_prices_provider f)
       ++ " is not supported; supported: neroswap, coingecko, kraken");
    _ ← check_all (fun asset =>
          refuse (negb (bool_decide (asset ∈ SUPPORTED_PRICE_ASSETS)))
            ("PRICES_ASSETS contains unsupported asset " ++ debug_str asset ++ "; supported: "
             ++ String.concat ", " SUPPORTED_PRICE_ASSETS)) (ff_prices_assets f);
    refuse (negb (bool_decide (ff_prices_currency f ∈ SUPPORTED_PRICE_CURRENCIES)))
      ("PRICES_CURRENCY " ++ debug_str (ff_prices_currency f) ++ " is not supported; supported: "
       ++ String.concat ", " SUPPORTED_PRICE_CURRENCIES)
  else Ok tt.

Definition validate_erasure (prod : bool) (c : Config) : outcome unit :=
  if rt_erasure_enabled (cf_retention c) then
    _ ← require_secret prod "ADMIN_KEY_INTEGRITY_SECRET"
          (dm_key_integrity_secret (cf_admin c)) 32;
    _ ← refuse (is_none (id_public_api_url (cf_identity c)))
      "PUBLIC_API_URL is required when ERASURE_ENABLED is on (it binds the signed-action proof)";
    refuse (24 * 365 * 10 <? rt_grace_period_hours (cf_retention c))%Z
      "ERASURE_GRACE_PERIOD_HOURS must be <= 87600 (10 years)"
  else Ok tt.

Definition no_electrum (u : UtxoConfig) : bool :=
  is_none (ux_electrum_primary u) && bool_decide (ux_electrum_fallbacks u = []).

Definition chain_warnings (f : ChainFlags) (c : ChainConfig) : list string :=
  ((if cg_btc f && no_electrum (ch_btc c) then ["BTC_ELECTRUM_URL"] else [])
   ++ (if cg_ltc f && no_electrum (ch_ltc c) then ["LTC_ELECTRUM_URL"] else [])
   ++ (if cg_xmr f && is_empty (lw_lws_admin_key (ch_xmr c)) then ["XMR_LWS_ADMIN_KEY"] else [])
   ++ (if cg_wow f && is_empty (lw_lws_admin_key (ch_wow c)) then ["WOW_LWS_ADMIN_KEY"] else [])
   ++ (if cg_grin f && is_empty (gn_owner_api_secret (ch_grin c))
       then ["GRIN_OWNER_API_SECRET"] else []))%list.

Definition validate_chains (prod : bool) (f : ChainFlags) (c : ChainConfig) : outcome unit :=
  let w := chain_warnings f c in
  refuse (negb (bool_decide (w = [])) && prod)
    ("missing required config for enabled chains: " ++ String.concat ", " w).

Definition validate_tips (f : FeatureFlags) (tip_share_base : option string) : outcome unit :=
  if ff_tips f then
    let c := ff_chains f in
    _ ← refuse (negb (cg_btc c || cg_ltc c || cg_xmr c || cg_wow c || cg_grin c))
      "FEATURE_TIPS is on but no supported tip chain is enabled: enable at least one of FEATURE_BTC / FEATURE_LTC / FEATURE_XMR / FEATURE_WOW / FEATURE_GRIN";
    refuse (is_none tip_share_base)
      "FEATURE_TIPS is on but TIP_SHARE_BASE_URL is unset — it is required to build public tip share links"
  else Ok tt.

Definition validate_payment (prod : bool) (p : PaymentConfig) : outcome unit :=
  if pc_require_payment p then
    _ ← refuse (negb (pc_provider p =? "btcpay"))
      ("PAYMENT_PROVIDER " ++ debug_str (pc_provider p) ++ " is not supported; supported: btcpay");
    _ ← refuse (is_empty (pc_provider_url p))
      "PAYMENT_PROVIDER_URL is required when REGISTRATION_REQUIRE_PAYMENT is on";
    url ← ok_or (url_parse (pc_provider_url p))
      (cfg_err "PAYMENT_PROVIDER_URL must be an absolute URL");
    _ ← refuse (prod && negb (url_scheme url =? "https") && negb (is_loopback_url (pc_provider_url p)))
      "PAYMENT_PROVIDER_URL must be https in production (loopback exempt)";
    _ ← refuse (is_empty (pc_store_id p))
      "PAYMENT_STORE_ID is required when REGISTRATION_REQUIRE_PAYMENT is on";
    _ ← require_secret prod "PAYMENT_API_KEY" (pc_api_key p) 8;
    _ ← refuse (negb (is_positive_decimal (pc_amount p)))
      "PAYMENT_AMOUNT must be a positive decimal (e.g. 0.01) when REGISTRATION_REQUIRE_PAYMENT is on";
    _ ← refuse (is_empty (pc_currency p))
      "PAYMENT_CURRENCY is required when REGISTRATION_REQUIRE_PAYMENT is on";
    _ ← refuse (pc_confirmations p =? 0)%Z
      "PAYMENT_CONFIRMATIONS must be >= 1 (0-conf lets a settled payment be double-spent after registration)";
    refuse ((pc_expires_minutes p =? 0) || (10080 <? pc_expires_minutes p))%Z
      "PAYMENT_EXPIRES_MINUTES must be between 1 and 10080 (7 days)"
  else Ok tt.

(** [to_socket_addrs()] answers, with loopback addresses only. *)
Definition binds_loopback (bind : string) : bool :=
  match to_socket_addrs bind with
  | Some addrs => negb (bool_decide (length addrs = 0)) && forallb ip_is_loopback addrs
  | None => false
  end.

Definition validate_relay (prod : bool) (r : RelayConfig) : outcome unit :=
  if rl_enabled r then
    let gated := negb (rl_write_policy r =? "open") in
    _ ← refuse (negb (bool_decide (rl_mode r ∈ ["bundled"; "external"])))
      ("RELAY_MODE " ++ debug_str (rl_mode r) ++ " is not supported; use bundled|external");
    _ ← refuse (is_empty (trim (rl_advertised_url r)))
      "RELAY_URL is required when RELAY_ENABLED (the ws(s):// URL clients connect to)";
    _ ← refuse (negb (starts_with "wss://" (rl_advertised_url r)
                      || starts_with "ws://" (rl_advertised_url r)))
      "RELAY_URL must be a ws:// or wss:// URL";
    _ ← refuse (prod && starts_with "ws://" (rl_advertised_url r))
      "RELAY_URL must be wss:// in production";
    _ ← refuse (negb (bool_decide (rl_write_policy r ∈
                        ["inbox-outbox"; "author-allowlist"; "open"; "premium-post"])))
      ("RELAY_WRITE_POLICY " ++ debug_str (rl_write_policy r)
       ++ " is not supported; use inbox-outbox|author-allowlist|open|premium-post");
    _ ← refuse (40 <? rl_inbound_pow_bits r)%Z
      "RELAY_INBOUND_POW_BITS must be <= 40 (0 disables)";
    _ ← refuse (gated && is_empty (trim (rl_admission_bind r)))
      "RELAY_ADMISSION_BIND is required for a non-open RELAY_WRITE_POLICY";
    refuse (gated && negb (rl_admission_allow_public r) && negb (binds_loopback (rl_admission_bind r)))
      "RELAY_ADMISSION_BIND must be loopback (it is a registration oracle); set RELAY_ADMISSION_ALLOW_PUBLIC=true to override + firewall it"
  else Ok tt.

Definition validate_feed (f : FeedConfig) (r : RelayConfig) : outcome unit :=
  refuse (fd_enabled f && negb (rl_enabled r))
    "FEED_ENABLED needs RELAY_ENABLED=true (the feed reads posts from the relay)".

Definition validate_premium (prod : bool) (pm : PremiumConfig) (p : PaymentConfig)
    (r : RelayConfig) : outcome unit :=
  if pm_enabled pm then
    _ ← refuse (negb (pc_provider p =? "btcpay"))
      ("PREMIUM_ENABLED needs a supported PAYMENT_PROVIDER (btcpay); got "
       ++ debug_str (pc_provider p));
    _ ← refuse (is_empty (trim (pc_provider_url p))) "PREMIUM_ENABLED needs PAYMENT_PROVIDER_URL";
    _ ← refuse (prod && negb (starts_with "https://" (pc_provider_url p))
                && negb (is_loopback_url (pc_provider_url p)))
      "PAYMENT_PROVIDER_URL must be https:// in production (loopback exempt)";
    _ ← refuse (is_empty (trim (pc_store_id p))) "PREMIUM_ENABLED needs PAYMENT_STORE_ID";
    _ ← require_secret prod "PAYMENT_API_KEY" (pc_api_key p) 8;
    _ ← refuse (pc_confirmations p =? 0)%Z
      "PAYMENT_CONFIRMATIONS must be >= 1 when PREMIUM_ENABLED is on (0-conf lets a settled premium payment be double-spent after activation)";
    _ ← refuse ((pc_expires_minutes p =? 0) || (10080 <? pc_expires_minutes p))%Z
      "PAYMENT_EXPIRES_MINUTES must be between 1 and 10080 (7 days)";
    _ ← refuse (is_empty (trim (pm_currency pm))) "PREMIUM_ENABLED needs PREMIUM_CURRENCY";
    _ ← refuse (negb (rl_enabled r)) "PREMIUM_ENABLED needs RELAY_ENABLED=true";
    _ ← refuse (negb (rl_write_policy r =? "premium-post"))
      "PREMIUM_ENABLED needs RELAY_WRITE_POLICY=premium-post";
    _ ← refuse (bool_decide (length (pm_plans pm) = 0))
      "PREMIUM_ENABLED needs at least one PREMIUM_PLANS entry (id:days:amount)";
    _ ← check_plans [] (pm_plans pm);
    check_all (validate_rail prod) (pm_rails pm)
  else Ok tt.

Definition validate (c : Config) : outcome unit :=
  let prod := is_production c in
  let f := cf_features c in
  let relay := ms_relay (cf_messaging c) in
  let payment := rg_payment (cf_registration c) in
  _ ← validate_rate_limit (cf_rate_limit c);
  _ ← validate_core_secrets prod c;
  _ ← validate_restore (cf_restore c);
  _ ← validate_nostr prod (ff_nostr_identity f) (id_public_api_url (cf_identity c));
  _ ← validate_pow prod (cf_pow c);
  _ ← validate_admin prod (cf_admin c);
  _ ← validate_prices f;
  _ ← validate_erasure prod c;
  _ ← validate_chains prod (ff_chains f) (cf_chains c);
  _ ← validate_tips f (cf_tip_share_base c);
  _ ← validate_payment prod payment;
  _ ← validate_relay prod relay;
  _ ← validate_feed (cf_feed c) relay;
  validate_premium prod (cf_premium c) payment relay.

Definition from_env (env : Env) : outcome Config :=
  c ← read_env env;
  _ ← validate c;
  Ok c.
End validate.
