(* ===== verification/Overlay.v ===== *)
(** [src/config_overlay.rs]: the operator's settings, a sparse patch over the
    configuration of the environment. *)

From Stdlib Require Import ZArith Lia Ascii String.
From S2P Require Import Prelude RustStr Json Errors Db Effects Auth Config.

Local Open Scope string_scope.

(** * The sections *)

Record LandingOverlay := mkLandingOverlay {
  lo_enabled : option bool;
  lo_title : option string;
  lo_expose_version : option bool;
  lo_expose_chains : option bool;
  lo_expose_price_feed : option bool;
  lo_expose_uptime : option bool;
  lo_stats_enabled : option bool;
  lo_stats_cache_hours : option u64;
  lo_stats_min_users : option i64;
}.

Record RetentionOverlay := mkRetentionOverlay {
  ro_login_events_days : option u64;
  ro_audit_days : option u64;
  ro_erasure_enabled : option bool;
  ro_purge_login_events : option bool;
  ro_export_per_day : option u32;
  ro_grace_period_hours : option u64;
}.

Record RestoreOverlay := mkRestoreOverlay {
  so_policy : option string;
  so_max_depth_days : option u32;
  so_pow_free_days : option u32;
  so_pow_days_per_bit : option u32;
  so_pow_max_bits : option u32;
}.

Record ConsoleOverlay := mkConsoleOverlay { no_restart_apply_mode : option string }.

Record RegistrationOverlay := mkRegistrationOverlay {
  go_require_invite : option bool;
  go_gate_mode : option string;
  go_require_payment : option bool;
  go_payment_amount : option string;
  go_payment_currency : option string;
  go_payment_confirmations : option u32;
  go_payment_expires_minutes : option u32;
}.

Record PowOverlay := mkPowOverlay {
  po_enabled : option bool;
  po_required : option bool;
  po_cost : option u64;
}.

Record FeaturesOverlay := mkFeaturesOverlay {
  fo_prices : option bool;
  fo_prices_provider : option string;
  fo_prices_interval_secs : option u64;
  fo_prices_currency : option string;
  fo_tips : option bool;
  fo_nostr_identity : option bool;
  fo_grin_relay : option bool;
  fo_chain_btc : option bool;
  fo_chain_ltc : option bool;
  fo_chain_xmr : option bool;
  fo_chain_wow : option bool;
  fo_chain_grin : option bool;
}.

Record RelayOverlay := mkRelayOverlay {
  yo_enabled : option bool;
  yo_mode : option string;
  yo_advertised_url : option string;
  yo_write_policy : option string;
  yo_inbound_pow_bits : option u8;
  yo_max_event_bytes : option Z;
  yo_retention_days : option u32;
}.

Record PremiumOverlay := mkPremiumOverlay {
  mo_enabled : option bool;
  mo_currency : option string;
}.

Record SettingsOverlay := mkSettingsOverlay {
  ov_landing : option LandingOverlay;
  ov_retention : option RetentionOverlay;
  ov_restore : option RestoreOverlay;
  ov_console : option ConsoleOverlay;
  ov_registration : option RegistrationOverlay;
  ov_pow : option PowOverlay;
  ov_features : option FeaturesOverlay;
  ov_relay : option RelayOverlay;
  ov_premium : option PremiumOverlay;
}.

Definition empty_overlay : SettingsOverlay :=
  mkSettingsOverlay None None None None None None None None None.

(** * Their JSON *)

(** A field that is given, as an entry. *)
Definition entry {A} (c : Codec A) (name : string) (o : option A) : string * Value :=
  (name, enc (c_option c) o).

Definition landing_entries (l : LandingOverlay) : list (string * Value) :=
  [entry c_bool "enabled" (lo_enabled l); entry c_string "title" (lo_title l);
   entry c_bool "expose_version" (lo_expose_version l);
   entry c_bool "expose_chains" (lo_expose_chains l);
   entry c_bool "expose_price_feed" (lo_expose_price_feed l);
   entry c_bool "expose_uptime" (lo_expose_uptime l);
   entry c_bool "stats_enabled" (lo_stats_enabled l);
   entry c_u64 "stats_cache_hours" (lo_stats_cache_hours l);
   entry c_i64 "stats_min_users" (lo_stats_min_users l)].

Definition retention_entries (r : RetentionOverlay) : list (string * Value) :=
  [entry c_u64 "login_events_days" (ro_login_events_days r);
   entry c_u64 "audit_days" (ro_audit_days r);
   entry c_bool "erasure_enabled" (ro_erasure_enabled r);
   entry c_bool "purge_login_events" (ro_purge_login_events r);
   entry c_u32 "export_per_day" (ro_export_per_day r);
   entry c_u64 "grace_period_hours" (ro_grace_period_hours r)].

Definition restore_entries (r : RestoreOverlay) : list (string * Value) :=
  [entry c_string "policy" (so_policy r); entry c_u32 "max_depth_days" (so_max_depth_days r);
   entry c_u32 "pow_free_days" (so_pow_free_days r);
   entry c_u32 "pow_days_per_bit" (so_pow_days_per_bit r);
   entry c_u32 "pow_max_bits" (so_pow_max_bits r)].

Definition console_entries (c : ConsoleOverlay) : list (string * Value) :=
  [entry c_string "restart_apply_mode" (no_restart_apply_mode c)].

Definition registration_entries (r : RegistrationOverlay) : list (string * Value) :=
  [entry c_bool "require_invite" (go_require_invite r);
   entry c_string "gate_mode" (go_gate_mode r);
   entry c_bool "require_payment" (go_require_payment r);
   entry c_string "payment_amount" (go_payment_amount r);
   entry c_string "payment_currency" (go_payment_currency r);
   entry c_u32 "payment_confirmations" (go_payment_confirmations r);
   entry c_u32 "payment_expires_minutes" (go_payment_expires_minutes r)].

Definition pow_entries (p : PowOverlay) : list (string * Value) :=
  [entry c_bool "enabled" (po_enabled p); entry c_bool "required" (po_required p);
   entry c_u64 "cost" (po_cost p)].

Definition features_entries (f : FeaturesOverlay) : list (string * Value) :=
  [entry c_bool "prices" (fo_prices f); entry c_string "prices_provider" (fo_prices_provider f);
   entry c_u64 "prices_interval_secs" (fo_prices_interval_secs f);
   entry c_string "prices_currency" (fo_prices_currency f);
   entry c_bool "tips" (fo_tips f); entry c_bool "nostr_identity" (fo_nostr_identity f);
   entry c_bool "grin_relay" (fo_grin_relay f); entry c_bool "chain_btc" (fo_chain_btc f);
   entry c_bool "chain_ltc" (fo_chain_ltc f); entry c_bool "chain_xmr" (fo_chain_xmr f);
   entry c_bool "chain_wow" (fo_chain_wow f); entry c_bool "chain_grin" (fo_chain_grin f)].

Definition relay_entries (r : RelayOverlay) : list (string * Value) :=
  [entry c_bool "enabled" (yo_enabled r); entry c_string "mode" (yo_mode r);
   entry c_string "advertised_url" (yo_advertised_url r);
   entry c_string "write_policy" (yo_write_policy r);
   entry c_u8 "inbound_pow_bits" (yo_inbound_pow_bits r);
   entry c_u64 "max_event_bytes" (yo_max_event_bytes r);
   entry c_u32 "retention_days" (yo_retention_days r)].

Definition premium_entries (p : PremiumOverlay) : list (string * Value) :=
  [entry c_bool "enabled" (mo_enabled p); entry c_string "currency" (mo_currency p)].

(** The reader of a struct: its entries, then its fields. *)
Definition struct_of {A} (names : list string) (read : list (string * Value) -> option A)
    (v : Value) : option A :=
  struct_entries names v ≫= read.

Definition landing_names : list string :=
  ["enabled"; "title"; "expose_version"; "expose_chains"; "expose_price_feed"; "expose_uptime";
   "stats_enabled"; "stats_cache_hours"; "stats_min_users"].
Definition landing_read (o : list (string * Value)) : option LandingOverlay :=
  a ← field c_bool "enabled" o; b ← field c_string "title" o;
  c ← field c_bool "expose_version" o; d ← field c_bool "expose_chains" o;
  e ← field c_bool "expose_price_feed" o; f ← field c_bool "expose_uptime" o;
  g ← field c_bool "stats_enabled" o; h ← field c_u64 "stats_cache_hours" o;
  i ← field c_i64 "stats_min_users" o;
  Some (mkLandingOverlay a b c d e f g h i).

Definition retention_names : list string :=
  ["login_events_days"; "audit_days"; "erasure_enabled"; "purge_login_events"; "export_per_day";
   "grace_period_hours"].
Definition retention_read (o : list (string * Value)) : option RetentionOverlay :=
  a ← field c_u64 "login_events_days" o; b ← field c_u64 "audit_days" o;
  c ← field c_bool "erasure_enabled" o; d ← field c_bool "purge_login_events" o;
  e ← field c_u32 "export_per_day" o; f ← field c_u64 "grace_period_hours" o;
  Some (mkRetentionOverlay a b c d e f).

Definition restore_names : list string :=
  ["policy"; "max_depth_days"; "pow_free_days"; "pow_days_per_bit"; "pow_max_bits"].
Definition restore_read (o : list (string * Value)) : option RestoreOverlay :=
  a ← field c_string "policy" o; b ← field c_u32 "max_depth_days" o;
  c ← field c_u32 "pow_free_days" o; d ← field c_u32 "pow_days_per_bit" o;
  e ← field c_u32 "pow_max_bits" o;
  Some (mkRestoreOverlay a b c d e).

Definition console_names : list string := ["restart_apply_mode"].
Definition console_read (o : list (string * Value)) : option ConsoleOverlay :=
  a ← field c_string "restart_apply_mode" o; Some (mkConsoleOverlay a).

Definition registration_names : list string :=
  ["require_invite"; "gate_mode"; "require_payment"; "payment_amount"; "payment_currency";
   "payment_confirmations"; "payment_expires_minutes"].
Definition registration_read (o : list (string * Value)) : option RegistrationOverlay :=
  a ← field c_bool "require_invite" o; b ← field c_string "gate_mode" o;
  c ← field c_bool "require_payment" o; d ← field c_string "payment_amount" o;
  e ← field c_string "payment_currency" o; f ← field c_u32 "payment_confirmations" o;
  g ← field c_u32 "payment_expires_minutes" o;
  Some (mkRegistrationOverlay a b c d e f g).

Definition pow_names : list string := ["enabled"; "required"; "cost"].
Definition pow_read (o : list (string * Value)) : option PowOverlay :=
  a ← field c_bool "enabled" o; b ← field c_bool "required" o; c ← field c_u64 "cost" o;
  Some (mkPowOverlay a b c).

Definition features_names : list string :=
  ["prices"; "prices_provider"; "prices_interval_secs"; "prices_currency"; "tips";
   "nostr_identity"; "grin_relay"; "chain_btc"; "chain_ltc"; "chain_xmr"; "chain_wow";
   "chain_grin"].
Definition features_read (o : list (string * Value)) : option FeaturesOverlay :=
  a ← field c_bool "prices" o; b ← field c_string "prices_provider" o;
  c ← field c_u64 "prices_interval_secs" o; d ← field c_string "prices_currency" o;
  e ← field c_bool "tips" o; f ← field c_bool "nostr_identity" o;
  g ← field c_bool "grin_relay" o; h ← field c_bool "chain_btc" o;
  i ← field c_bool "chain_ltc" o; j ← field c_bool "chain_xmr" o;
  k ← field c_bool "chain_wow" o; l ← field c_bool "chain_grin" o;
  Some (mkFeaturesOverlay a b c d e f g h i j k l).

Definition relay_names : list string :=
  ["enabled"; "mode"; "advertised_url"; "write_policy"; "inbound_pow_bits"; "max_event_bytes";
   "retention_days"].
Definition relay_read (o : list (string * Value)) : option RelayOverlay :=
  a ← field c_bool "enabled" o; b ← field c_string "mode" o;
  c ← field c_string "advertised_url" o; d ← field c_string "write_policy" o;
  e ← field c_u8 "inbound_pow_bits" o; f ← field c_u64 "max_event_bytes" o;
  g ← field c_u32 "retention_days" o;
  Some (mkRelayOverlay a b c d e f g).

Definition premium_names : list string := ["enabled"; "currency"].
Definition premium_read (o : list (string * Value)) : option PremiumOverlay :=
  a ← field c_bool "enabled" o; b ← field c_string "currency" o; Some (mkPremiumOverlay a b).

Definition c_struct {A} (names : list string) (entries : A -> list (string * Value))
    (read : list (string * Value) -> option A) : Codec A :=
  mkCodec (fun a => to_object (entries a)) (struct_of names read).

Definition c_landing := c_struct landing_names landing_entries landing_read.
Definition c_retention := c_struct retention_names retention_entries retention_read.
Definition c_restore := c_struct restore_names restore_entries restore_read.
Definition c_console := c_struct console_names console_entries console_read.
Definition c_registration := c_struct registration_names registration_entries registration_read.
Definition c_pow := c_struct pow_names pow_entries pow_read.
Definition c_features := c_struct features_names features_entries features_read.
Definition c_relay := c_struct relay_names relay_entries relay_read.
Definition c_premium := c_struct premium_names premium_entries premium_read.

Definition overlay_entries (ov : SettingsOverlay) : list (string * Value) :=
  [entry c_landing "landing" (ov_landing ov); entry c_retention "retention" (ov_retention ov);
   entry c_restore "restore" (ov_restore ov); entry c_console "console" (ov_console ov);
   entry c_registration "registration" (ov_registration ov); entry c_pow "pow" (ov_pow ov);
   entry c_features "features" (ov_features ov); entry c_relay "relay" (ov_relay ov);
   entry c_premium "premium" (ov_premium ov)].

Definition overlay_names : list string :=
  ["landing"; "retention"; "restore"; "console"; "registration"; "pow"; "features"; "relay";
   "premium"].

Definition overlay_read (o : list (string * Value)) : option SettingsOverlay :=
  a ← field c_landing "landing" o; b ← field c_retention "retention" o;
  c ← field c_restore "restore" o; d ← field c_console "console" o;
  e ← field c_registration "registration" o; f ← field c_pow "pow" o;
  g ← field c_features "features" o; h ← field c_relay "relay" o;
  i ← field c_premium "premium" o;
  Some (mkSettingsOverlay a b c d e f g h i).

(** [serde_json::to_value(&overlay)] and [from_value]. *)
Definition c_overlay : Codec SettingsOverlay := c_struct overlay_names overlay_entries overlay_read.

(** * [Config::apply_overlay] *)

(** [if let Some(v) = o { x = f(v) }]. *)
Definition over {A B} (o : option A) (f : A -> B) (x : B) : B :=
  match o with Some a => f a | None => x end.
Definition put {A} (o : option A) (x : A) : A := over o (fun a => a) x.

Definition apply_landing (l : LandingOverlay) (c : LandingConfig) : LandingConfig :=
  mkLandingConfig (put (lo_enabled l) (ld_enabled c))
    (over (lo_title l) (fun v => if is_empty v then None else Some v) (ld_title c))
    (put (lo_expose_version l) (ld_expose_version c))
    (put (lo_expose_chains l) (ld_expose_chains c))
    (put (lo_expose_price_feed l) (ld_expose_price_feed c))
    (put (lo_expose_uptime l) (ld_expose_uptime c))
    (put (lo_stats_enabled l) (ld_stats_enabled c))
    (put (lo_stats_cache_hours l) (ld_stats_cache_hours c))
    (put (lo_stats_min_users l) (ld_stats_min_users c)).

Definition apply_retention (r : RetentionOverlay) (c : RetentionConfig) : RetentionConfig :=
  mkRetentionConfig (put (ro_login_events_days r) (rt_login_events_days c))
    (put (ro_audit_days r) (rt_audit_days c))
    (put (ro_erasure_enabled r) (rt_erasure_enabled c))
    (put (ro_purge_login_events r) (rt_purge_login_events c))
    (put (ro_export_per_day r) (rt_export_per_day c))
    (put (ro_grace_period_hours r) (rt_grace_period_hours c)).

Definition restore_policy_of (p : string) : outcome RestorePolicy :=
  if p =? "create-only" then Ok CreateOnly
  else if p =? "bounded" then Ok Bounded
  else if p =? "unlimited" then Ok Unlimited
  else Err (ValidationError ("invalid restore.policy " ++ debug_str p
         ++ " (want create-only|bounded|unlimited)")).

(** The parse of an optional field, or the value there is. *)
Definition parse_over {A B} (o : option A) (f : A -> outcome B) (x : B) : outcome B :=
  match o with Some a => f a | None => Ok x end.

Definition apply_restore (r : RestoreOverlay) (c : RestoreConfig) : outcome RestoreConfig :=
  policy ← parse_over (so_policy r) restore_policy_of (rc_policy c);
  Ok (mkRestoreConfig policy (put (so_max_depth_days r) (rc_max_depth_days c))
    (put (so_pow_free_days r) (rc_pow_free_days c))
    (put (so_pow_days_per_bit r) (rc_pow_days_per_bit c))
    (put (so_pow_max_bits r) (rc_pow_max_bits c))).

Definition restart_apply_mode_of (m : string) : outcome RestartApplyMode :=
  if m =? "manual" then Ok Manual
  else if m =? "auto" then Ok Auto
  else Err (ValidationError ("invalid console.restart_apply_mode " ++ debug_str m
         ++ " (want manual|auto)")).

Definition apply_console (cs : ConsoleOverlay) (c : ConsoleConfig) : outcome ConsoleConfig :=
  mode ← parse_over (no_restart_apply_mode cs) restart_apply_mode_of (co_restart_apply_mode c);
  Ok (mkConsoleConfig mode).

Definition gate_mode_of (m : string) : outcome GateMode :=
  let l := to_lowercase m in
  if l =? "all" then Ok GateAll
  else if l =? "any" then Ok GateAny
  else Err (ValidationError ("invalid registration.gate_mode " ++ debug_str l
         ++ " (want all|any)")).

Definition apply_registration (rg : RegistrationOverlay) (c : RegistrationConfig)
  : outcome RegistrationConfig :=
  mode ← parse_over (go_gate_mode rg) gate_mode_of (rg_gate_mode c);
  let p := rg_payment c in
  Ok (mkRegistrationConfig (put (go_require_invite rg) (rg_require_invite c))
    (mkPaymentConfig (put (go_require_payment rg) (pc_require_payment p)) (pc_provider p)
       (pc_provider_url p) (pc_store_id p) (pc_api_key p)
       (put (go_payment_amount rg) (pc_amount p))
       (over (go_payment_currency rg) to_uppercase (pc_currency p))
       (put (go_payment_confirmations rg) (pc_confirmations p))
       (put (go_payment_expires_minutes rg) (pc_expires_minutes p)))
    mode).

Definition apply_pow (p : PowOverlay) (c : PowConfig) : PowConfig :=
  mkPowConfig (put (po_enabled p) (pow_enabled c)) (pow_hmac_key c)
    (put (po_required p) (pow_required c)) (put (po_cost p) (pow_cost c))
    (pow_required_for_pubkeys c).

Definition apply_features (f : FeaturesOverlay) (c : FeatureFlags) : FeatureFlags :=
  let g := ff_chains c in
  mkFeatureFlags
    (mkChainFlags (put (fo_chain_btc f) (cg_btc g)) (put (fo_chain_ltc f) (cg_ltc g))
       (put (fo_chain_xmr f) (cg_xmr g)) (put (fo_chain_wow f) (cg_wow g))
       (put (fo_chain_grin f) (cg_grin g)))
    (put (fo_prices f) (ff_prices c))
    (over (fo_prices_provider f) to_lowercase (ff_prices_provider c))
    (put (fo_prices_interval_secs f) (ff_prices_interval_secs c)) (ff_prices_assets c)
    (over (fo_prices_currency f) to_lowercase (ff_prices_currency c))
    (put (fo_tips f) (ff_tips c)) (ff_targeted_tips c)
    (put (fo_nostr_identity f) (ff_nostr_identity c)) (put (fo_grin_relay f) (ff_grin_relay c)).

Definition apply_relay (r : RelayOverlay) (c : RelayConfig) : RelayConfig :=
  mkRelayConfig (put (yo_enabled r) (rl_enabled c)) (over (yo_mode r) to_lowercase (rl_mode c))
    (put (yo_advertised_url r) (rl_advertised_url c))
    (over (yo_write_policy r) to_lowercase (rl_write_policy c))
    (put (yo_inbound_pow_bits r) (rl_inbound_pow_bits c)) (rl_admission_bind c)
    (rl_admission_allow_public c) (put (yo_max_event_bytes r) (rl_max_event_bytes c))
    (put (yo_retention_days r) (rl_retention_days c)) (rl_write_allowlist c).

Definition apply_premium (pr : PremiumOverlay) (c : PremiumConfig) : PremiumConfig :=
  mkPremiumConfig (put (mo_enabled pr) (pm_enabled c))
    (over (mo_currency pr) to_uppercase (pm_currency c)) (pm_plans c) (pm_primary_assets c)
    (pm_rails c).

(** [if let Some(section) = &ov.section { .. }]. *)
Definition section {A B} (o : option A) (f : A -> B -> B) (x : B) : B := over o (fun a => f a x) x.
Definition section_try {A B} (o : option A) (f : A -> B -> outcome B) (x : B) : outcome B :=
  over o (fun a => f a x) (Ok x).

Section apply.
Context `{Urls}.

(** The merge, before the validation. *)
Definition merge_overlay (c : Config) (ov : SettingsOverlay) : outcome Config :=
  restore ← section_try (ov_restore ov) apply_restore (cf_restore c);
  console ← section_try (ov_console ov) apply_console (cf_console c);
  registration ← section_try (ov_registration ov) apply_registration (cf_registration c);
  Ok (mkConfig (cf_server_host c) (cf_server_port c) (cf_deployment_mode c) (cf_environment c)
    (cf_database_url c) (cf_legacy_database_url c) (cf_tip_share_base c) (cf_auth c)
    (cf_identity c) (cf_secrets c) (cf_trusted_proxies c) (cf_rate_limit c)
    (cf_cors_allowed_origins c)
    (section (ov_features ov) apply_features (cf_features c)) (cf_chains c)
    (section (ov_pow ov) apply_pow (cf_pow c)) (cf_admin c)
    (section (ov_landing ov) apply_landing (cf_landing c))
    (section (ov_retention ov) apply_retention (cf_retention c)) restore registration
    (mkMessagingConfig (section (ov_relay ov) apply_relay (ms_relay (cf_messaging c)))
       (ms_nip05_interop_hints (cf_messaging c)) (ms_nip05_extra_relay_hints (cf_messaging c)))
    (section (ov_premium ov) apply_premium (cf_premium c)) (cf_feed c) console).

Definition apply_overlay (c : Config) (ov : SettingsOverlay) : outcome Config :=
  c' ← merge_overlay c ov;
  _ ← validate c';
  Ok c'.

(** * [Config::editable_overlay] *)

Definition editable_overlay (c : Config) : SettingsOverlay :=
  let l := cf_landing c in
  let r := cf_retention c in
  let s := cf_restore c in
  let g := cf_registration c in
  let p := cf_pow c in
  let f := cf_features c in
  let h := ff_chains f in
  let y := ms_relay (cf_messaging c) in
  mkSettingsOverlay
    (Some (mkLandingOverlay (Some (ld_enabled l)) (Some (default "" (ld_title l)))
       (Some (ld_expose_version l)) (Some (ld_expose_chains l)) (Some (ld_expose_price_feed l))
       (Some (ld_expose_uptime l)) (Some (ld_stats_enabled l)) (Some (ld_stats_cache_hours l))
       (Some (ld_stats_min_users l))))
    (Some (mkRetentionOverlay (Some (rt_login_events_days r)) (Some (rt_audit_days r))
       (Some (rt_erasure_enabled r)) (Some (rt_purge_login_events r)) (Some (rt_export_per_day r))
       (Some (rt_grace_period_hours r))))
    (Some (mkRestoreOverlay (Some (restore_policy_as_str (rc_policy s)))
       (Some (rc_max_depth_days s)) (Some (rc_pow_free_days s)) (Some (rc_pow_days_per_bit s))
       (Some (rc_pow_max_bits s))))
    (Some (mkConsoleOverlay (Some (restart_apply_mode_as_str (co_restart_apply_mode (cf_console c))))))
    (Some (mkRegistrationOverlay (Some (rg_require_invite g))
       (Some (gate_mode_as_str (rg_gate_mode g))) (Some (pc_require_payment (rg_payment g)))
       (Some (pc_amount (rg_payment g))) (Some (pc_currency (rg_payment g)))
       (Some (pc_confirmations (rg_payment g))) (Some (pc_expires_minutes (rg_payment g)))))
    (Some (mkPowOverlay (Some (pow_enabled p)) (Some (pow_required p)) (Some (pow_cost p))))
    (Some (mkFeaturesOverlay (Some (ff_prices f)) (Some (ff_prices_provider f))
       (Some (ff_prices_interval_secs f)) (Some (ff_prices_currency f)) (Some (ff_tips f))
       (Some (ff_nostr_identity f)) (Some (ff_grin_relay f)) (Some (cg_btc h)) (Some (cg_ltc h))
       (Some (cg_xmr h)) (Some (cg_wow h)) (Some (cg_grin h))))
    (Some (mkRelayOverlay (Some (rl_enabled y)) (Some (rl_mode y)) (Some (rl_advertised_url y))
       (Some (rl_write_policy y)) (Some (rl_inbound_pow_bits y)) (Some (rl_max_event_bytes y))
       (Some (rl_retention_days y))))
    (Some (mkPremiumOverlay (Some (pm_enabled (cf_premium c))) (Some (pm_currency (cf_premium c))))).
End apply.

(** * Which edits are live *)

Inductive RuntimeClass := RuntimeSafe | RestartRequired.

#[export] Instance RuntimeClass_eq_dec : EqDecision RuntimeClass.
Proof. solve_decision. Defined.

Definition runtime_class (section field : string) : RuntimeClass :=
  if (section =? "retention") && (field =? "erasure_enabled") then RestartRequired
  else if section =? "landing" then RuntimeSafe
  else if section =? "retention" then RuntimeSafe
  else if section =? "restore" then RuntimeSafe
  else if section =? "console" then RuntimeSafe
  else if (section =? "registration") && (field =? "require_payment") then RestartRequired
  else if section =? "registration" then RuntimeSafe
  else if section =? "pow" then RuntimeSafe
  else RestartRequired.

Definition EDITABLE_FIELDS : list (string * string) :=
  [("landing", "enabled"); ("landing", "title"); ("landing", "expose_version");
   ("landing", "expose_chains"); ("landing", "expose_price_feed"); ("landing", "expose_uptime");
   ("landing", "stats_enabled"); ("landing", "stats_cache_hours"); ("landing", "stats_min_users");
   ("retention", "login_events_days"); ("retention", "audit_days");
   ("retention", "erasure_enabled"); ("retention", "purge_login_events");
   ("retention", "export_per_day"); ("retention", "grace_period_hours"); ("restore", "policy");
   ("restore", "max_depth_days"); ("restore", "pow_free_days"); ("restore", "pow_days_per_bit");
   ("restore", "pow_max_bits"); ("console", "restart_apply_mode");
   ("registration", "require_invite"); ("registration", "gate_mode");
   ("registration", "require_payment"); ("registration", "payment_amount");
   ("registration", "payment_currency"); ("registration", "payment_confirmations");
   ("registration", "payment_expires_minutes"); ("pow", "enabled"); ("pow", "required");
   ("pow", "cost"); ("features", "prices"); ("features", "prices_provider");
   ("features", "prices_interval_secs"); ("features", "prices_currency"); ("features", "tips");
   ("features", "nostr_identity"); ("features", "grin_relay"); ("features", "chain_btc");
   ("features", "chain_ltc"); ("features", "chain_xmr"); ("features", "chain_wow");
   ("features", "chain_grin"); ("relay", "enabled"); ("relay", "mode");
   ("relay", "advertised_url"); ("relay", "write_policy"); ("relay", "inbound_pow_bits");
   ("relay", "max_event_bytes"); ("relay", "retention_days"); ("premium", "enabled");
   ("premium", "currency")].
