(* ===== verification/TipApi.v ===== *)
(** [src/api/tips.rs]: the HTTP handlers of the tips, from the decoded request
    to the response, with [validate_cn_address] of [src/api/wallet/mod.rs] and
    [get_user_by_username] of [src/infra/db/users.rs]. *)

From Stdlib Require Import ZArith Lia Ascii String.
From S2P Require Import Prelude RustStr Errors Db Effects TipStatus SocialTips TipLifecycle TipSafety TipPrograms Auth Demo.

Local Open Scope string_scope.

Definition MAX_ENCRYPTED_KEY_HEX : nat := 4096.

(** What the handlers read of [AppState]. *)
Record AppState := mkAppState {
  st_sessions : SessionManager;
  st_feature_tips : bool;
  st_targeted_tips : bool;
  st_btc : bool; st_ltc : bool; st_xmr : bool; st_wow : bool; st_grin : bool;
  st_tip_share_base : option string;
}.

(** * Requests and responses *)

Record CreateSocialTipRequest := mkCreateSocialTipRequest {
  rq_platform : option string;
  rq_username : option string;
  rq_asset : string;
  rq_amount : i64;
  rq_encrypted_key : option string;
  rq_is_public : bool;
  rq_claim_key_hash : option string;
  rq_tip_address : option string;
  rq_funding_txid : option string;
  rq_tip_view_key : option string;
  rq_grin_commitment : option string;
  rq_sender_anonymous : bool;
}.

Record CreateSocialTipResponse := mkCreateSocialTipResponse {
  rs_tip_id : string; rs_status : string; rs_share_url : option string }.

Record SentTip := mkSentTip {
  sp_id : string;
  sp_sender_user_id : string;
  sp_recipient_platform : option string;
  sp_recipient_username : option string;
  sp_asset : string;
  sp_amount : i64;
  sp_is_public : bool;
  sp_status : string;
  sp_created_at : string;
  sp_claimed_at : option string;
  sp_clawed_back_at : option string;
  sp_funding_confirmations : i32;
  sp_confirmations_required : i32;
  sp_is_claimable : bool;
}.

Record PublicTipInfo := mkPublicTipInfo {
  pi_id : string;
  pi_asset : string;
  pi_amount : i64;
  pi_status : string;
  pi_created_at : string;
  pi_is_public : bool;
  pi_encrypted_key : option string;
  pi_tip_address : option string;
  pi_funding_confirmations : i32;
  pi_confirmations_required : i32;
  pi_is_claimable : bool;
}.

Record ClaimTipResponse := mkClaimTipResponse {
  cl_success : bool; cl_encrypted_key : option string; cl_tip_address : option string }.

Record ConfirmSweepResponse := mkConfirmSweepResponse {
  sw_sweep_txid : option string; sw_status : string }.

(** * Helpers *)

Definition validate_cn_address (address : string) : outcome unit :=
  if is_empty address || (256 <? len address)%nat
  then Err (ValidationError "address has invalid length") else Ok tt.

Definition bad_tip_address : outcome unit := Err (ValidationError "tip_address is invalid.").

Definition validate_tip_address (a address : string) : outcome unit :=
  if is_empty address || (255 <? len address)%nat then bad_tip_address
  else if (a =? "xmr") || (a =? "wow") then validate_cn_address address
  else if (a =? "btc") || (a =? "ltc") then
    if (14 <=? len address)%nat && all_chars is_ascii_alphanumeric address
    then Ok tt else bad_tip_address
  else if a =? "grin" then
    if (len address =? 66)%nat && all_chars is_ascii_hexdigit address
    then Ok tt else bad_tip_address
  else Err (ValidationError "unsupported tip asset.").

Definition is_claimable (row : SocialTipRow) : bool :=
  match from_db (status row) with Some Pending | Some Claiming => true | _ => false end
  && (confirmations_required row <=? funding_confirmations row)%Z
  && funding_amount_verified row.

Definition sql_get_user_by_username (name : string) : Stmt (option User) := fun _ d =>
  inr (d, snd <$> head (filter (fun kv => u_username (snd kv) = Some name)
                          (map_to_list (users d)))).

Section handlers.
Context `{Ext} `{Jwt} (state : AppState).

Definition get_user_by_username (name : string) : M (option User) :=
  query (sql_get_user_by_username name).

Definition ensure_tips_enabled : outcome unit :=
  if st_feature_tips state then Ok tt
  else Err (ValidationError "Tips are not available on this instance.").

Definition supported_tip_asset (a : string) : bool :=
  if a =? "btc" then st_btc state
  else if a =? "ltc" then st_ltc state
  else if a =? "xmr" then st_xmr state
  else if a =? "wow" then st_wow state
  else if a =? "grin" then st_grin state
  else false.

Definition resolve_tip_recipient (req : CreateSocialTipRequest) : M Uuid :=
  if negb (st_targeted_tips state) then
    fail (ValidationError
      "Targeted tips are not enabled on this instance; set is_public = true.")
  else
    let platform := to_lowercase (default "smirk" (rq_platform req)) in
    if negb (platform =? "smirk") then
      fail (ValidationError
        ("This instance resolves Smirk handles only, not '" ++ platform ++ "'."))
    else
      username ← lift (ok_or
        (non_empty ((fun u => to_lowercase (trim_start_char "@"%char (trim u)))
           <$> rq_username req))
        (ValidationError "username is required for a targeted tip."));
      found ← get_user_by_username username;
      user ← lift (ok_or found
        (ValidationError ("No Smirk user owns the handle '" ++ username ++ "'.")));
      mret (u_id user).

Definition to_sent_tip (row : SocialTipRow) : SentTip :=
  mkSentTip (uuid_to_string (id row)) (uuid_to_string (sender_user_id row)) None None
    (asset row) (amount row) (is_public row) (status row) (to_rfc3339 (created_at row))
    (to_rfc3339 <$> claimed_at row) (to_rfc3339 <$> clawed_back_at row)
    (funding_confirmations row) (confirmations_required row) (is_claimable row).

Definition to_public_info (row : SocialTipRow) : PublicTipInfo :=
  mkPublicTipInfo (uuid_to_string (id row)) (asset row) (amount row) (status row)
    (to_rfc3339 (created_at row)) (is_public row) (hex_encode <$> encrypted_key row)
    (tip_address row) (funding_confirmations row) (confirmations_required row)
    (is_claimable row).

Definition share_url (tip_id : Uuid) : option string :=
  (fun base => trim_end_char "/"%char base ++ "/" ++ uuid_to_string tip_id)
    <$> st_tip_share_base state.

(** The caller of an authenticated handler, once the tips are known to be on. *)
Definition caller (h : HeaderMap) : M Uuid :=
  user_id ← extract_user_id_from_token (st_sessions state) h;
  _ ← lift ensure_tips_enabled;
  mret user_id.

(** * The request of [create_social_tip] *)

Definition check_claim_key_hash (recipient : option Uuid)
    (req : CreateSocialTipRequest) : outcome (option string) :=
  match recipient with
  | None =>
      h ← ok_or (non_empty (rq_claim_key_hash req))
        (ValidationError "claim_key_hash is required for a public tip.");
      if negb (len h =? 64)%nat || is_none (hex_decode h)
      then Err (ValidationError "claim_key_hash must be a 64-character hex SHA256.")
      else Ok (Some h)
  | Some _ => Ok None
  end.

Definition check_encrypted_key (req : CreateSocialTipRequest)
  : outcome (option (list Byte.byte)) :=
  match non_empty (rq_encrypted_key req) with
  | Some h =>
      if (MAX_ENCRYPTED_KEY_HEX <? len h)%nat
      then Err (ValidationError "encrypted_key is too large.")
      else Some <$> ok_or (hex_decode h) (ValidationError "encrypted_key must be hex.")
  | None => Ok None
  end.

Definition check_grin_commitment (a : string) (tip_addr : option string)
    (req : CreateSocialTipRequest) : outcome (option string) :=
  if a =? "grin" then
    let commit := match non_empty (rq_grin_commitment req) with
                  | Some c => Some c
                  | None => tip_addr
                  end in
    match commit with
    | Some c => _ ← validate_tip_address "grin" c; Ok commit
    | None => Ok commit
    end
  else Ok None.

(** Everything between the resolution of the recipient and the insertion. *)
Definition check_request (user_id : Uuid) (recipient : option Uuid)
    (req : CreateSocialTipRequest) : outcome (NewSocialTip * bool) :=
  if (rq_amount req <=? 0)%Z then Err (ValidationError "amount must be positive.") else
  let a := to_lowercase (rq_asset req) in
  if negb (supported_tip_asset a) then
    Err (ValidationError ("asset '" ++ a ++ "' is not enabled for tips on this instance."))
  else
  key_hash ← check_claim_key_hash recipient req;
  enc ← check_encrypted_key req;
  let tip_addr := non_empty (rq_tip_address req) in
  let funding := non_empty (rq_funding_txid req) in
  let is_draft := is_none funding in
  if is_draft && is_none tip_addr then
    Err (ValidationError "tip_address is required to create a tip draft.")
  else
  _ ← match tip_addr with Some addr => validate_tip_address a addr | None => Ok tt end;
  commit ← check_grin_commitment a tip_addr req;
  Ok (mkNewSocialTip user_id a (rq_amount req) key_hash enc tip_addr funding
        (non_empty (rq_tip_view_key req)) (confirmations_for_asset a) commit recipient,
      is_draft).

(** * Handlers *)

Definition api_create_social_tip (h : HeaderMap) (req : CreateSocialTipRequest)
  : M CreateSocialTipResponse :=
  user_id ← caller h;
  recipient ← (if rq_is_public req then mret None
               else Some <$> resolve_tip_recipient req);
  checked ← lift (check_request user_id recipient req);
  let '(new, is_draft) := checked in
  tip ← (if is_draft : bool then create_draft_social_tip new else create_social_tip new);
  mret (mkCreateSocialTipResponse (uuid_to_string (id tip)) (status tip)
          (share_url (id tip))).

Definition api_get_sent_social_tips (h : HeaderMap) : M (list SentTip) :=
  user_id ← caller h;
  rows ← get_sent_social_tips user_id;
  mret (to_sent_tip <$> rows).

Definition api_get_received_social_tips (h : HeaderMap) : M (list SentTip) :=
  user_id ← caller h;
  if negb (st_targeted_tips state) then mret []
  else rows ← get_received_social_tips user_id; mret (to_sent_tip <$> rows).

Definition api_get_claimable_social_tips (h : HeaderMap) : M (list SentTip) :=
  user_id ← caller h;
  if negb (st_targeted_tips state) then mret []
  else rows ← get_claimable_social_tips user_id; mret (to_sent_tip <$> rows).

Definition api_get_public_social_tip (tip_id : Uuid) : M PublicTipInfo :=
  _ ← lift ensure_tips_enabled;
  found ← get_social_tip tip_id;
  row ← lift (ok_or
    (match found with Some r => if is_public r then Some r else None | None => None end)
    (NotFound "tip not found"));
  mret (to_public_info row).

Definition api_cancel_social_tip (h : HeaderMap) (tip_id : Uuid) : M bool :=
  user_id ← caller h;
  r ← cancel_draft_social_tip tip_id user_id;
  match r with
  | Some _ => mret true
  | None => fail (NotFound "no cancellable draft tip")
  end.

(** [req.txid.trim()], non-empty and at most 128 bytes. *)
Definition check_txid (field txid : string) : outcome string :=
  let t := trim txid in
  if is_empty t then Err (ValidationError (field ++ " is required."))
  else if (128 <? len t)%nat then Err (ValidationError (field ++ " is too long."))
  else Ok t.

Definition api_attach_funding (h : HeaderMap) (tip_id : Uuid) (txid : string)
  : M CreateSocialTipResponse :=
  user_id ← caller h;
  funding_txid ← lift (check_txid "funding_txid" txid);
  tip ← attach_funding_to_tip tip_id user_id funding_txid;
  mret (mkCreateSocialTipResponse (uuid_to_string (id tip)) (status tip)
          (share_url (id tip))).

Definition api_claim_social_tip (h : HeaderMap) (tip_id : Uuid) : M ClaimTipResponse :=
  user_id ← caller h;
  found ← mark_tip_claiming tip_id user_id;
  row ← lift (ok_or found (ValidationError "tip not claimable"));
  mret (mkClaimTipResponse true (hex_encode <$> encrypted_key row) (tip_address row)).

Definition api_confirm_sweep (h : HeaderMap) (tip_id : Uuid) (txid : string)
  : M ConfirmSweepResponse :=
  user_id ← caller h;
  sweep ← lift (check_txid "sweep_txid" txid);
  found ← confirm_tip_sweep tip_id user_id sweep;
  row ← lift (ok_or found (ValidationError "tip not claiming"));
  mret (mkConfirmSweepResponse (sweep_txid row) (status row)).

Definition api_clawback_social_tip (h : HeaderMap) (tip_id : Uuid) : M bool :=
  user_id ← caller h;
  found ← clawback_social_tip tip_id user_id;
  _ ← lift (ok_or found (ValidationError "tip not clawable"));
  mret true.
End handlers.

(** * Checked requests *)

Lemma check_request_Ok `{Ext} state u recipient req new is_draft :
  check_request state u recipient req = Ok (new, is_draft) ->
  (0 < rq_amount req)%Z /\ n_amount new = rq_amount req /\ n_sender_user_id new = u /\
  n_asset new = to_lowercase (rq_asset req) /\
  supported_tip_asset state (n_asset new) = true /\
  n_recipient_user_id new = recipient /\
  n_confirmations_required new = confirmations_for_asset (n_asset new) /\
  is_draft = is_none (n_funding_txid new) /\
  n_funding_txid new = non_empty (rq_funding_txid req) /\
  n_tip_address new = non_empty (rq_tip_address req) /\
  (recipient = None -> exists hs, n_claim_key_hash new = Some hs /\ len hs = 64%nat).
Proof.
  unfold check_request. destruct (Z.leb_spec (rq_amount req) 0); [done|].
  destruct (supported_tip_asset _ _) eqn:Es; [|done]. simpl. intros Hc.
  apply bind_Ok in Hc as (kh & Hkh & Hc). apply bind_Ok in Hc as (enc & _ & Hc).
  case_hyp Hc; [done|]. apply bind_Ok in Hc as (? & _ & Hc).
  apply bind_Ok in Hc as (commit & _ & Hc). injection Hc as <- <-. simpl.
  split_and!; try done. intros ->. simpl in Hkh.
  apply bind_Ok in Hkh as (hs & _ & Hkh). case_hyp Hkh; [done|]. injection Hkh as <-.
  exists hs. split; [done|]. split_bools. by apply Nat.eqb_eq.
Qed.

Definition initial_status (req : CreateSocialTipRequest) : TipStatus :=
  if is_none (non_empty (rq_funding_txid req)) then Draft else PendingConfirmation.

Lemma check_request_insertable `{Ext} state u recipient req new is_draft amt k :
  check_request state u recipient req = Ok (new, is_draft) -> amt k = rq_amount req ->
  insertable amt k new (initial_status req).
Proof.
  intros (Hpos & Ha & _ & _ & _ & _ & _ & _ & Hf & _)%check_request_Ok Hk.
  unfold insertable, initial_status. rewrite Ha, Hk, Hf.
  split_and!; [done..|]. destruct (non_empty (rq_funding_txid req)); simpl; eauto.
Qed.

Lemma create_eq `{Ext} state u recipient req new is_draft :
  check_request state u recipient req = Ok (new, is_draft) ->
  (if is_draft : bool then create_draft_social_tip new else create_social_tip new) =
  insert_social_tip new (initial_status req).
Proof.
  intros (_ & _ & _ & _ & _ & _ & _ & -> & Hf & _)%check_request_Ok.
  unfold initial_status. rewrite Hf. by destruct (non_empty _).
Qed.

(** * The handlers are made of steps of the system *)

Section safety.
Context `{Ext} `{Jwt} (state : AppState) (amt : Uuid -> Z).

Lemma safe_session_live G sid : tip_safe G amt (is_session_live sid) (fun _ => True).
Proof. apply query_read. by intros t d d' b _ [= <- _]. Qed.
#[local] Hint Resolve safe_session_live : triple.

Lemma safe_caller G h : tip_safe G amt (caller state h) (fun _ => True).
Proof. unfold caller, extract_user_id_from_token. triple_steps. Qed.

Lemma safe_resolve G req :
  tip_safe G amt (resolve_tip_recipient state req) (fun _ => True).
Proof.
  assert (Hu : forall name, tip_safe G amt (get_user_by_username name) (fun _ => True)).
  { intros name. apply query_read. by intros t d d' r _ [= <- _]. }
  unfold resolve_tip_recipient. triple_steps.
Qed.
#[local] Hint Resolve safe_caller safe_resolve : triple.

Lemma safe_create G h req :
  (forall f n, G f -> amt (f n) = rq_amount req) ->
  tip_safe G amt (api_create_social_tip state h req) (fun _ => True).
Proof.
  intros HG. unfold api_create_social_tip.
  eapply triple_bind; [apply safe_caller|]. intros u _.
  eapply (triple_bind _ _ _ _ _ (fun _ => True)).
  { destruct (rq_is_public req); [by apply triple_ret|].
    eapply triple_fmap; [apply safe_resolve|done]. }
  intros recipient _.
  eapply (triple_bind _ _ _ _ _
    (fun c => check_request state u recipient req = Ok c)); [by apply triple_lift|].
  intros [new is_draft] Hc. rewrite (create_eq _ _ _ _ _ _ Hc).
  eapply triple_bind; [|intros; by apply triple_ret].
  apply safe_insert. intros f n Hf. eapply check_request_insertable; eauto.
Qed.

(** C3: every handler of the tips API is safe under every interleaving and
    every failure of its statements: all it does to the database is a sequence
    of legal steps of the tips' state machine, for whatever request and
    whatever caller. *)
Theorem tip_api_safe h tip_id txid req :
  (forall G, (forall f n, G f -> amt (f n) = rq_amount req) ->
     tip_safe G amt (api_create_social_tip state h req) (fun _ => True)) /\
  forall G,
  tip_safe G amt (api_get_sent_social_tips state h) (fun _ => True) /\
  tip_safe G amt (api_get_received_social_tips state h) (fun _ => True) /\
  tip_safe G amt (api_get_claimable_social_tips state h) (fun _ => True) /\
  tip_safe G amt (api_get_public_social_tip state tip_id) (fun _ => True) /\
  tip_safe G amt (api_cancel_social_tip state h tip_id) (fun _ => True) /\
  tip_safe G amt (api_attach_funding state h tip_id txid) (fun _ => True) /\
  tip_safe G amt (api_claim_social_tip state h tip_id) (fun _ => True) /\
  tip_safe G amt (api_confirm_sweep state h tip_id txid) (fun _ => True) /\
  tip_safe G amt (api_clawback_social_tip state h tip_id) (fun _ => True).
Proof.
  split; [intros G; apply safe_create|]. intros G.
  assert (Hsel : forall wh key, tip_safe G amt (query (select_tips wh key)) (fun _ => True)).
  { intros. eapply triple_weaken; [apply query_select|done]. }
  unfold api_get_sent_social_tips, api_get_received_social_tips,
    api_get_claimable_social_tips, api_get_public_social_tip, api_cancel_social_tip,
    api_attach_funding, api_claim_social_tip, api_confirm_sweep, api_clawback_social_tip,
    get_sent_social_tips, get_received_social_tips, get_claimable_social_tips.
  split_and!; triple_steps.
Qed.
End safety.

(** * What the handlers do, alone *)

Section alone.
Context `{Ext} `{Jwt} (state : AppState).

Lemma read_only_caller h : read_only (caller state h).
Proof.
  unfold caller. apply read_only_bind; [apply read_only_bearer|]. intros u.
  by apply read_only_bind; intros; apply read_only_free; [apply db_free_lift|].
Qed.

Lemma read_only_resolve req : read_only (resolve_tip_recipient state req).
Proof.
  unfold resolve_tip_recipient.
  destruct (negb _); [by apply read_only_free|].
  destruct (negb _); [by apply read_only_free|].
  apply read_only_bind; [by apply read_only_free|]. intros name.
  apply read_only_bind; [apply read_only_stmt; by intros ? ? ? ? [= <- _]|]. intros found.
  apply read_only_bind; by intros; apply read_only_free.
Qed.

(** The handle a targeted request names. *)
Definition named_handle (req : CreateSocialTipRequest) : option string :=
  non_empty ((fun u => to_lowercase (trim_start_char "@"%char (trim u)))
    <$> rq_username req).

Lemma resolve_Ok req w w' v :
  w_sched w = [] -> resolve_tip_recipient state req w = (w', Ok v) ->
  st_targeted_tips state = true /\
  exists name k user, named_handle req = Some name /\
    users (w_db w) !! k = Some user /\ u_username user = Some name /\ u_id user = v.
Proof.
  intros Hq. unfold resolve_tip_recipient.
  destruct (st_targeted_tips state) eqn:Et; [|done]. simpl.
  destruct (negb _); [done|].
  intros (w1 & name & [-> Hn]%lift_run_Ok & Hr)%bind_run_Ok.
  apply bind_run_Ok in Hr as (w2 & found & Hf & Hr).
  apply bind_run_Ok in Hr as (w3 & user & [-> Hu]%lift_run_Ok & [= <- <-]).
  apply ok_or_Ok in Hn, Hu. split; [done|]. unfold get_user_by_username, query in Hf.
  rewrite (run_stmt_quiet _ _ _ Hq) in Hf. simpl in Hf. injection Hf as <- Hf.
  rewrite <- Hf in Hu. apply fmap_Some in Hu as ([k u] & Hk & ->).
  apply head_Some_elem_of, list_elem_of_filter in Hk as [Hname Hk].
  exists name, k, u. split_and!; try done. by apply elem_of_map_to_list in Hk.
Qed.

(** What a successful creation stores. *)
Definition created_row (u : Uuid) (req : CreateSocialTipRequest) (d : Db)
    (r : SocialTipRow) : Prop :=
  sender_user_id r = u /\ amount r = rq_amount req /\ (0 < amount r)%Z /\
  asset r = to_lowercase (rq_asset req) /\ supported_tip_asset state (asset r) = true /\
  confirmations_required r = confirmations_for_asset (asset r) /\
  status r = as_str (initial_status req) /\
  funding_txid r = non_empty (rq_funding_txid req) /\
  is_public r = rq_is_public req /\
  (rq_is_public req = true -> recipient_user_id r = None /\ is_Some (claim_key_hash r)) /\
  (rq_is_public req = false -> st_targeted_tips state = true /\
     exists name k user, named_handle req = Some name /\ users d !! k = Some user /\
       u_username user = Some name /\ recipient_user_id r = Some (u_id user)).

Lemma insert_Ok w w' new st r :
  w_sched w = [] -> insert_social_tip new st w = (w', Ok r) ->
  exists k, social_tips (w_db w) !! k = None /\ r = new_tip_row k new st (w_now w) /\
    w_db w' = (w_db w) <|social_tips := <[k := r]> (social_tips (w_db w))|>.
Proof.
  intros Hq (w1 & k & [= <- <-] & Hi)%bind_run_Ok. unfold query in Hi.
  rewrite run_stmt_quiet in Hi by done. simpl in Hi.
  unfold sql_insert_social_tip in Hi.
  destruct (social_tips (w_db w) !! _) eqn:Ek; [done|].
  destruct (tip_violation _ _); [done|]. injection Hi as <- <-.
  eexists. split; [exact Ek|]. by split.
Qed.
End alone.

(** A creation that succeeds, alone, stores exactly one new row, which says
    what the request and its bearer said: the authenticated user is the sender,
    the amount is the (positive) amount asked for, the asset is enabled, the
    row waits for funding; a public request gives a public tip with a claim-key
    hash and no recipient, and a targeted one is never turned into a public
    tip: it is addressed to the user who owns the handle it names. *)
Theorem create_stores_the_request `{Ext} `{Jwt} state h req w w' resp
    (Hq : w_sched w = [])
    (Hrun : api_create_social_tip state h req w = (w', Ok resp)) :
  exists u w1 k r, caller state h w = (w1, Ok u) /\
    social_tips (w_db w) !! k = None /\
    w_db w' = (w_db w) <|social_tips := <[k := r]> (social_tips (w_db w))|> /\
    rs_tip_id resp = uuid_to_string k /\ rs_status resp = status r /\
    created_row state u req (w_db w) r.
Proof.
  unfold api_create_social_tip in Hrun.
  apply bind_run_Ok in Hrun as (w1 & u & Hc & Hrun).
  apply bind_run_Ok in Hrun as (w2 & recipient & Hrec & Hrun).
  apply bind_run_Ok in Hrun as (w3 & [new is_draft] & [-> Hchk]%lift_run_Ok & Hrun).
  apply bind_run_Ok in Hrun as (w4 & r & Hins & [= <- <-]).
  destruct (read_only_run _ _ _ _ (read_only_caller state h) Hq Hc) as (D1 & Q1 & N1).
  assert (Hrec' : w_db w2 = w_db w1 /\ w_sched w2 = [] /\
    (rq_is_public req = true -> recipient = None) /\
    (rq_is_public req = false -> exists v, recipient = Some v /\ st_targeted_tips state = true /\
       exists name k user, named_handle req = Some name /\ users (w_db w1) !! k = Some user /\
         u_username user = Some name /\ u_id user = v)).
  { destruct (rq_is_public req); [by injection Hrec as <- <-|].
    revert Hrec. unfold fmap, M_fmap.
    destruct (resolve_tip_recipient state req w1) as [w2' [v|e|]] eqn:E; [|done..].
    intros [= <- <-].
    destruct (read_only_run _ _ _ _ (read_only_resolve state req) Q1 E) as (? & ? & _).
    destruct (resolve_Ok _ _ _ _ _ Q1 E). split_and!; try done. eauto. }
  destruct Hrec' as (D2 & Q2 & Hpub & Htgt).
  rewrite (create_eq _ _ _ _ _ _ Hchk) in Hins.
  destruct (insert_Ok _ _ _ _ _ Q2 Hins) as (k & Hk & Hr & D4).
  apply check_request_Ok in Hchk as
    (Hpos & Ha & Hs & Has & Hsup & Hrc & Hcf & _ & Hf & _ & Hkh).
  rewrite D2, D1 in Hk, D4. rewrite D1 in Htgt.
  exists u, w1, k, r. split_and!; try done; [by rewrite Hr|].
  unfold created_row. rewrite Hr. simpl. rewrite Hrc, Ha, Has.
  rewrite <- Has. split_and!; try done.
  - destruct (rq_is_public req); [by rewrite Hpub|]. by destruct Htgt as (v & -> & _).
  - intros Hp. specialize (Hpub Hp) as ->. destruct Hkh as (hs & -> & _); eauto.
  - intros Hp. destruct (Htgt Hp) as (v & -> & Ht & name & k' & user & ? & ? & ? & <-).
    eauto 8.
Qed.

(** The server would accept a claim of the tip [k], of row [r], by its
    recipient [u], at [now]. *)
Definition claim_accepted (u k : Uuid) (r : SocialTipRow) (now : Time) (d : Db) : Prop :=
  recipient_user_id r = Some u /\
  exists d' r', sql_mark_tip_claiming k u now d = inr (d', Some r').

(** The inbox offers exactly the claims the server would accept: a stored
    tip is in the list of tips claimable by a user, alone, exactly when the user
    is its recipient and claiming it now would succeed. *)
Theorem claimable_list_exact `{Ext} amt u w w' rows k r
    (Hinv : tips_inv amt (w_db w)) (Hq : w_sched w = [])
    (Hu : is_user (w_db w) u = true)
    (Hrun : get_claimable_social_tips u w = (w', Ok rows))
    (Hr : social_tips (w_db w) !! k = Some r) :
  r ∈ rows <-> claim_accepted u k r (w_now w) (w_db w).
Proof.
  unfold get_claimable_social_tips, query in Hrun.
  rewrite (run_stmt_quiet _ _ _ Hq) in Hrun. simpl in Hrun. injection Hrun as _ <-.
  rewrite merge_sort_Permutation, list_elem_of_filter, elem_of_tip_rows.
  destruct Hinv as [Hwf Hc]. specialize (Hwf _ _ Hr). specialize (Hc _ _ Hr).
  assert (Hiff : claimable_where u (w_now w) r = true <->
    recipient_user_id r = Some u /\ mark_claiming_where u (w_now w) r = true).
  { unfold claimable_where, mark_claiming_where, sql_eq.
    destruct (decide (recipient_user_id r = Some u)) as [E|E];
      [rewrite bool_decide_true by done|rewrite bool_decide_false by done].
    - rewrite orb_true_r, andb_true_r. simpl. tauto.
    - simpl. by split; [|intros []]. }
  rewrite Hiff. split.
  - intros [[Hrec Hw] _]. split; [done|]. do 2 eexists.
    apply update_tip_hit; [done|exact Hw|by apply claim_checked].
  - intros [Hrec (d' & r' & E)]. split; [|eauto]. split; [done|].
    apply update_tip_inv in E as [(? & _)|(r0 & E0 & Hw & _)]; [done|].
    rewrite Hr in E0. by injection E0 as <-.
Qed.

(** C21: to whom the encrypted key of a tip goes, run alone.  A claim that succeeds
    answers with the key and the address of a tip that is covered and public or addressed
    to the caller, and locks it to the caller.  The unauthenticated endpoint
    gives the key and the address of every public tip, in any status, covered or
    not, and locks nothing; of a tip that is not public it says what it says of one
    that does not exist.  So the key of a targeted tip goes to its recipient
    alone, by a claim, while that of a public tip is public from its creation. *)
Theorem claim_key_disclosure `{Ext} `{Jwt} state amt h tip_id w
    (Hinv : tips_inv amt (w_db w)) (Hq : w_sched w = []) :
  (forall w' resp, api_claim_social_tip state h tip_id w = (w', Ok resp) ->
     exists u w1 r r', caller state h w = (w1, Ok u) /\
       social_tips (w_db w) !! tip_id = Some r /\ claim_ready u r /\
       covered (amount r) r /\
       social_tips (w_db w') !! tip_id = Some r' /\ status r' = as_str Claiming /\
       claimed_by_user_id r' = Some u /\
       cl_encrypted_key resp = hex_encode <$> encrypted_key r /\
       cl_tip_address resp = tip_address r) /\
  (st_feature_tips state = true -> forall w' o, api_get_public_social_tip state tip_id w = (w', o) ->
     w_db w' = w_db w /\
     ((exists r info, social_tips (w_db w) !! tip_id = Some r /\ is_public r = true /\ o = Ok info /\
         pi_encrypted_key info = hex_encode <$> encrypted_key r /\
         pi_tip_address info = tip_address r /\ pi_status info = status r) \/
      ((forall r, social_tips (w_db w) !! tip_id = Some r -> is_public r = false) /\
         o = Err (NotFound "tip not found")))) /\
  (st_feature_tips state = false ->
     exists e, api_get_public_social_tip state tip_id w = (w, Err e)).
Proof.
  split_and!.
  - intros w' resp Hrun. unfold api_claim_social_tip in Hrun.
    apply bind_run_Ok in Hrun as (w1 & u & Hc & Hrun).
    apply bind_run_Ok in Hrun as (w2 & found & Hm & Hrun).
    apply bind_run_Ok in Hrun as (w3 & r' & [-> Hf%ok_or_Ok]%lift_run_Ok & [= <- <-]).
    destruct (read_only_run _ _ _ _ (read_only_caller state h) Hq Hc) as (D1 & Q1 & _).
    unfold mark_tip_claiming, query in Hm. rewrite (run_stmt_quiet _ _ _ Q1), D1 in Hm.
    destruct (sql_mark_tip_claiming _ _ _ _) as [|[d ro]] eqn:E; [done|].
    injection Hm as <- Hro. subst.
    apply update_tip_inv in E as [(? & _)|(r & Hr & Hw & [= ->] & _ & ->)]; [done|].
    apply claim_where_ready in Hw.
    exists u, w1, r, (touch_updated_at (w_now w1) (mark_claiming_set u (w_now w1) r)).
    split_and!; try done; simpl; [|by rewrite lookup_insert_eq].
    rewrite (wf_amount _ _ _ (proj1 Hinv _ _ Hr)). pose proof (proj1 Hinv _ _ Hr) as Hwf.
    destruct Hw as [[Hst|Hst] _]; use_status Hwf; tauto.
  - intros Hon w' o Hrun. unfold api_get_public_social_tip, ensure_tips_enabled in Hrun.
    rewrite Hon in Hrun. unfold get_social_tip, query in Hrun. unfold mbind, M_bind, lift in Hrun.
    rewrite (run_stmt_quiet _ _ _ Hq) in Hrun. simpl in Hrun.
    destruct (social_tips (w_db w) !! tip_id) as [r|] eqn:Hr.
    + destruct (is_public r) eqn:Ep; injection Hrun as <- <-; (split; [done|]).
      * left. by exists r, (to_public_info r).
      * right. split; [|done]. intros r' [= <-]. done.
    + injection Hrun as <- <-. split; [done|]. right. by split.
  - intros Hoff. unfold api_get_public_social_tip, ensure_tips_enabled. rewrite Hoff.
    by eexists.
Qed.

(** * Concrete requests *)

Definition demo_state : AppState :=
  mkAppState demo_sm true true true true true true true (Some "https://tips.example/").

(** Alice (1) and Bob (2) are logged in; Bob's handle is bob. *)
Definition api_db (d : Db) : Db :=
  d <|users := {[ 1%N := demo_user 1;
                  2%N := mkUser 2 (Some "bob") None None None None None None 0 0 None None ]}|>
    <|sessions := {[ 7%N := mkSession 7 1 "h" "web" None 0 DAY None 0;
                     8%N := mkSession 8 2 "h" "web" None 0 DAY None 0 ]}|>.

Definition bob_pair : TokenPair :=
  match create_token_pair demo_sm 0 2%N Web 8%N with
  | Ok p => p | _ => mkTokenPair "" "" 0
  end.
Definition bob_headers : HeaderMap := [("authorization", "Bearer " ++ access_token bob_pair)].

Definition demo_commit : string :=
  "08aaaaaaaaaaaaaaaaaaaaaaaaaaaaaaaaaaaaaaaaaaaaaaaaaaaaaaaaaaaaaaaa".

Definition demo_request : CreateSocialTipRequest :=
  mkCreateSocialTipRequest None (Some "@Bob") "GRIN" 500 (Some "abcd") false None
    (Some demo_commit) None None None false.

Definition api_world (d : Db) : World := quiet_world (api_db d) HOUR.

Lemma create_stores_the_request_witness :
  exists r, created_row demo_state 1 demo_request (api_db empty_db) r.
Proof.
  destruct (api_create_social_tip demo_state demo_headers demo_request (api_world empty_db))
    as [w' o] eqn:E.
  assert (Ho : exists resp, o = Ok resp) by (vm_compute in E; injection E as _ <-; eauto).
  destruct Ho as [resp ->].
  destruct (create_stores_the_request demo_state demo_headers demo_request
    (api_world empty_db) w' resp eq_refl E) as (u & w1 & k & r & Hc & _ & _ & _ & _ & Hr).
  assert (Hu : u = 1%N) by (vm_compute in Hc; by injection Hc).
  subst u. exists r. exact Hr.
Defined.

(** Alice's tip 11 for Bob, funded and verified. *)
Definition inbox_created : Db :=
  exec (sql_insert_social_tip 11 demo_targeted Draft) 2 (api_db empty_db).
Definition inbox_funded : Db := exec (sql_attach_funding 11 1 "aa") 3 inbox_created.
Definition inbox_confirmed : Db :=
  exec (sql_update_tip_confirmations 11 10) 4 inbox_funded.
Definition inbox_db : Db := exec (sql_mark_tip_funding_verified 11 500) 5 inbox_confirmed.

Lemma inbox_inv : tips_inv demo_amount inbox_db.
Proof.
  apply (steps_stable (tip_step demo_amount) _ (api_db empty_db));
    [apply tips_inv_stable| |by apply tips_inv_empty].
  apply (rtc_l _ _ inbox_created).
  { eexists. apply exec_insert; [by apply demo_insertable|by vm_compute]. }
  apply (rtc_l _ _ inbox_funded); [demo_update st_attach|].
  apply (rtc_l _ _ inbox_confirmed); [demo_update st_confirmations|].
  apply rtc_once. demo_update st_verified.
Qed.

Definition inbox_w : World := quiet_world inbox_db HOUR.
Definition inbox_row : SocialTipRow := Eval vm_compute in demo_row inbox_db 11.

Lemma claimable_list_exact_witness :
  exists rows, (get_claimable_social_tips 2 inbox_w).2 = Ok rows /\ inbox_row ∈ rows.
Proof.
  destruct (get_claimable_social_tips 2 inbox_w) as [w' o] eqn:E.
  assert (Ho : exists rows, o = Ok rows) by (vm_compute in E; injection E as _ <-; eauto).
  destruct Ho as [rows ->]. exists rows. split; [done|].
  apply (claimable_list_exact demo_amount 2 inbox_w w' rows 11 inbox_row);
    [apply inbox_inv|done|by vm_compute|exact E|by vm_compute|].
  split; [done|]. vm_compute. eauto.
Defined.

Lemma claim_key_disclosure_witness :
  exists w' resp, api_claim_social_tip demo_state bob_headers 11 inbox_w = (w', Ok resp) /\
    exists r', social_tips (w_db w') !! 11%N = Some r' /\ claimed_by_user_id r' = Some 2%N.
Proof.
  destruct (api_claim_social_tip demo_state bob_headers 11 inbox_w) as [w' o] eqn:E.
  assert (Ho : exists resp, o = Ok resp) by (vm_compute in E; injection E as _ <-; eauto).
  destruct Ho as [resp ->]. exists w', resp. split; [done|].
  destruct (proj1 (claim_key_disclosure demo_state demo_amount bob_headers 11 inbox_w
    inbox_inv eq_refl) w' resp E) as (u & w1 & r & r' & Hc & _ & _ & _ & Hr' & _ & Hu & _).
  assert (Eu : u = 2%N) by (vm_compute in Hc; by injection Hc). subst u. eauto.
Defined.

(** The funding transaction of a creation is not checked for its length, so a
    long one is refused by the column, as an internal error. *)
Definition long_txid : string := Eval vm_compute in
  demo_commit ++ demo_commit.

Example create_long_txid_is_500 :
  (into_response <$> match (api_create_social_tip demo_state demo_headers
      (mkCreateSocialTipRequest None (Some "bob") "grin" 500 (Some "abcd") false None
         (Some demo_commit) (Some long_txid) None None false) (api_world empty_db)).2 with
    | Err e => Some e | _ => None end) =
  Some (mkErrorResponse 500 "Internal server error" "INTERNAL_ERROR").
Proof. by vm_compute. Qed.

(** A targeted request without an encrypted key is refused by a CHECK of the
    table, as an internal error. *)
Example create_keyless_targeted_is_500 :
  (into_response <$> match (api_create_social_tip demo_state demo_headers
      (mkCreateSocialTipRequest None (Some "bob") "grin" 500 None false None
         (Some demo_commit) None None None false) (api_world empty_db)).2 with
    | Err e => Some e | _ => None end) =
  Some (mkErrorResponse 500 "Internal server error" "INTERNAL_ERROR").
Proof. by vm_compute. Qed.
