(* ===== verification/Slatepack.v ===== *)
(** The Grin slatepack relay: [src/infra/db/grin_slatepacks.rs] (its statements)
    and [src/api/wallet/grin_relay.rs] (its handlers), with [get_user_by_id] of
    [src/infra/db/users.rs]. *)

From Stdlib Require Import ZArith Lia Ascii String.
From S2P Require Import Prelude RustStr Errors Db Effects TipStatus SocialTips Auth Demo.

Local Open Scope string_scope.

Definition MAX_SLATEPACK_LEN : Z := 64 * 1024.
Definition RELAY_TTL_DAYS : i64 := 7.

(** * Statements *)

Record NewGrinSlatepack := mkNewGrinSlatepack {
  ng_slate_id : string;
  ng_sender_user_id : Uuid;
  ng_recipient_user_id : option Uuid;
  ng_recipient_address : option string;
  ng_slatepack_content : string;
  ng_amount_nanogrin : i64;
  ng_expires_at : Time;
}.

Definition new_slatepack_row (k : Uuid) (n : NewGrinSlatepack) (now : Time)
  : GrinSlatepack :=
  mkGrinSlatepack k (ng_slate_id n) (ng_sender_user_id n) (ng_recipient_user_id n)
    (ng_recipient_address n) (ng_slatepack_content n) (ng_amount_nanogrin n)
    PendingRecipient None now now (ng_expires_at n) None None.

Definition slate_rows (d : Db) : list GrinSlatepack :=
  snd <$> map_to_list (grin_slatepacks d).

Definition sql_create_grin_slatepack (k : Uuid) (n : NewGrinSlatepack)
  : Stmt GrinSlatepack := fun now d =>
  match grin_slatepacks d !! k with
  | Some _ => inl (PgUniqueViolation "grin_slatepacks_pkey")
  | None =>
      if existsb (fun g => g_slate_id g =? ng_slate_id n) (slate_rows d)
      then inl (PgUniqueViolation "grin_slatepacks_slate_id_key")
      else if negb (is_user d (ng_sender_user_id n))
      then inl (PgForeignKeyViolation "grin_slatepacks_sender_user_id_fkey")
      else if negb (opt_ok (is_user d) (ng_recipient_user_id n))
      then inl (PgForeignKeyViolation "grin_slatepacks_recipient_user_id_fkey")
      else
        let g := new_slatepack_row k n now in
        inr (d <|grin_slatepacks := <[k := g]> (grin_slatepacks d)|>, g)
  end.

Definition sql_get_slatepack_by_slate_id (slate_id : string)
  : Stmt (option GrinSlatepack) := fun _ d =>
  inr (d, head (filter (fun g => g_slate_id g = slate_id) (slate_rows d))).

Definition sql_get_slatepack_by_id (k : Uuid) : Stmt (option GrinSlatepack) :=
  fun _ d => inr (d, grin_slatepacks d !! k).

Definition pending_for_where (u : Uuid) (now : Time) (g : GrinSlatepack) : bool :=
  sql_eq (g_recipient_user_id g) u
  && bool_decide (g_status g = PendingRecipient) && (now <? g_expires_at g)%Z.

(** Newest first, ties by id. *)
Definition newer (a b : GrinSlatepack) : Prop :=
  (g_created_at b < g_created_at a \/
   (g_created_at a = g_created_at b /\ Z.of_N (g_id a) <= Z.of_N (g_id b)))%Z.
#[export] Instance newer_dec a b : Decision (newer a b).
Proof. unfold newer. apply _. Defined.

Definition sql_get_pending_slatepacks_for_user (u : Uuid) : Stmt (list GrinSlatepack) :=
  fun now d =>
    inr (d, merge_sort newer
              (filter (fun g => pending_for_where u now g = true) (slate_rows d))).

(** [UPDATE grin_slatepacks SET .. WHERE id = $1 AND .. RETURNING ..]. *)
Definition update_slate (k : Uuid) (wh : Time -> GrinSlatepack -> bool)
    (set_ : Time -> GrinSlatepack -> GrinSlatepack) : Stmt (option GrinSlatepack) :=
  fun now d =>
    match grin_slatepacks d !! k with
    | Some g =>
        if wh now g then
          inr (d <|grin_slatepacks := <[k := set_ now g]> (grin_slatepacks d)|>,
               Some (set_ now g))
        else inr (d, None)
    | None => inr (d, None)
    end.

Definition respond_where (now : Time) (g : GrinSlatepack) : bool :=
  bool_decide (g_status g = PendingRecipient) && (now <? g_expires_at g)%Z.
Definition respond_set (response : string) (now : Time) (g : GrinSlatepack)
  : GrinSlatepack :=
  g <|g_response_slatepack := Some response|> <|g_status := PendingSender|>
    <|g_updated_at := now|>.
Definition sql_add_slatepack_response (k : Uuid) (response : string) :=
  update_slate k respond_where (respond_set response).

Definition finalize_where (now : Time) (g : GrinSlatepack) : bool :=
  bool_decide (g_status g = PendingSender) && (now <? g_expires_at g)%Z.
Definition finalize_set (tx : string) (now : Time) (g : GrinSlatepack) : GrinSlatepack :=
  g <|g_status := Finalized|> <|g_tx_hash := Some tx|>
    <|g_finalized_at := Some now|> <|g_updated_at := now|>.
Definition sql_finalize_slatepack (k : Uuid) (tx : string) :=
  update_slate k finalize_where (finalize_set tx).

Definition is_active (g : GrinSlatepack) : bool :=
  bool_decide (g_status g = PendingRecipient) || bool_decide (g_status g = PendingSender).

Definition cancel_set (now : Time) (g : GrinSlatepack) : GrinSlatepack :=
  g <|g_status := SpCancelled|> <|g_updated_at := now|>.
Definition sql_cancel_slatepack (k : Uuid) := update_slate k (fun _ => is_active) cancel_set.

Definition expirable (now : Time) (g : GrinSlatepack) : bool :=
  is_active g && (g_expires_at g <? now)%Z.
Definition expire_set (now : Time) (g : GrinSlatepack) : GrinSlatepack :=
  g <|g_status := Expired|> <|g_updated_at := now|>.
Definition sql_expire_old_slatepacks : Stmt Z := fun now d =>
  inr (d <|grin_slatepacks :=
             (fun g => if expirable now g then expire_set now g else g)
             <$> grin_slatepacks d|>,
       Z.of_nat (length (filter (fun g => expirable now g = true) (slate_rows d)))).

(** * Requests and responses *)

Record CreateRelayRequest := mkCreateRelayRequest {
  cq_recipient_user_id : Uuid; cq_slate_id : string; cq_slatepack : string;
  cq_amount_nanogrin : i64 }.

Record RelayEntry := mkRelayEntry {
  re_slate_id : string;
  re_sender_user_id : string;
  re_recipient_user_id : option string;
  re_slatepack_content : string;
  re_response_slatepack : option string;
  re_amount_nanogrin : i64;
  re_status : string;
  re_created_at : string;
  re_expires_at : string;
  re_finalized_at : option string;
  re_tx_hash : option string;
}.

Definition status_str (s : SlatepackStatus) : string :=
  match s with
  | PendingRecipient => "pending_recipient"
  | PendingSender => "pending_sender"
  | Finalized => "finalized"
  | Expired => "expired"
  | SpCancelled => "cancelled"
  end.

Inductive Party := PSender | PRecipient | PEither.

Definition validate_slatepack (value field : string) : outcome unit :=
  if is_empty value || (MAX_SLATEPACK_LEN <? Z.of_nat (len value))%Z
  then Err (ValidationError (field ++ " has invalid length")) else Ok tt.

Definition sql_get_user_by_id (u : Uuid) : Stmt (option User) :=
  fun _ d => inr (d, users d !! u).

Definition relay_not_found : AppError := NotFound "relay not found".

Definition is_party (p : Party) (u : Uuid) (g : GrinSlatepack) : bool :=
  let is_sender := bool_decide (g_sender_user_id g = u) in
  let is_recipient := bool_decide (g_recipient_user_id g = Some u) in
  match p with
  | PSender => is_sender
  | PRecipient => is_recipient
  | PEither => is_sender || is_recipient
  end.

Section relay.
Context `{Ext} `{Jwt} (sm : SessionManager) (grin_relay : bool).

Definition create_grin_slatepack (n : NewGrinSlatepack) : M GrinSlatepack :=
  k ← gen_random_uuid;
  run_stmt (unique_violation_as "a relay for this slate_id already exists")
    (sql_create_grin_slatepack k n).
Definition get_slatepack_by_slate_id (s : string) : M (option GrinSlatepack) :=
  query (sql_get_slatepack_by_slate_id s).
Definition get_slatepack_by_id (k : Uuid) : M (option GrinSlatepack) :=
  query (sql_get_slatepack_by_id k).
Definition get_pending_slatepacks_for_user (u : Uuid) : M (list GrinSlatepack) :=
  query (sql_get_pending_slatepacks_for_user u).
Definition add_slatepack_response (k : Uuid) (r : string) : M (option GrinSlatepack) :=
  query (sql_add_slatepack_response k r).
Definition finalize_slatepack (k : Uuid) (tx : string) : M (option GrinSlatepack) :=
  query (sql_finalize_slatepack k tx).
Definition cancel_slatepack (k : Uuid) : M (option GrinSlatepack) :=
  query (sql_cancel_slatepack k).
Definition expire_old_slatepacks : M Z := query sql_expire_old_slatepacks.
Definition get_user_by_id (u : Uuid) : M (option User) := query (sql_get_user_by_id u).

Definition ensure_enabled : outcome unit :=
  if grin_relay then Ok tt
  else Err (NotFound "grin relay is not enabled on this server").

Definition fetch_authorized (slate_id : string) (user_id : Uuid) (p : Party)
  : M GrinSlatepack :=
  found ← get_slatepack_by_slate_id slate_id;
  row ← lift (ok_or found relay_not_found);
  if is_party p user_id row then mret row else fail relay_not_found.

Definition relay_entry (s : GrinSlatepack) : RelayEntry :=
  mkRelayEntry (g_slate_id s) (uuid_to_string (g_sender_user_id s))
    (uuid_to_string <$> g_recipient_user_id s) (g_slatepack_content s)
    (g_response_slatepack s) (g_amount_nanogrin s) (status_str (g_status s))
    (to_rfc3339 (g_created_at s)) (to_rfc3339 (g_expires_at s))
    (to_rfc3339 <$> g_finalized_at s) (g_tx_hash s).

Definition validate_slate_id (s : string) : outcome unit :=
  _ ← ok_or (uuid_parse_str s) (ValidationError "slate_id must be a valid UUID");
  Ok tt.

Definition relay_caller (h : HeaderMap) : M Uuid :=
  user_id ← extract_user_id_from_token sm h;
  _ ← lift ensure_enabled;
  mret user_id.

Definition relay_create (h : HeaderMap) (req : CreateRelayRequest) : M RelayEntry :=
  user_id ← relay_caller h;
  _ ← lift (validate_slate_id (cq_slate_id req));
  _ ← lift (validate_slatepack (cq_slatepack req) "slatepack");
  if (cq_amount_nanogrin req <? 0)%Z
  then fail (ValidationError "amount_nanogrin must be non-negative")
  else
    found ← get_user_by_id (cq_recipient_user_id req);
    recipient ← lift (ok_or found
      (ValidationError "recipient is not a registered user"));
    now ← utc_now;
    row ← create_grin_slatepack
      (mkNewGrinSlatepack (cq_slate_id req) user_id (Some (u_id recipient)) None
         (cq_slatepack req) (cq_amount_nanogrin req) (now + RELAY_TTL_DAYS * DAY)%Z);
    mret (relay_entry row).

Definition relay_pending (h : HeaderMap) : M (list RelayEntry) :=
  user_id ← relay_caller h;
  rows ← get_pending_slatepacks_for_user user_id;
  mret (relay_entry <$> rows).

Definition relay_get (h : HeaderMap) (slate_id : string) : M RelayEntry :=
  user_id ← relay_caller h;
  row ← fetch_authorized slate_id user_id PEither;
  mret (relay_entry row).

Definition relay_respond (h : HeaderMap) (slate_id response : string) : M RelayEntry :=
  user_id ← relay_caller h;
  _ ← lift (validate_slatepack response "response_slatepack");
  row ← fetch_authorized slate_id user_id PRecipient;
  r ← add_slatepack_response (g_id row) response;
  updated ← lift (ok_or r (Conflict
    "relay is not awaiting a recipient response (or has expired)"));
  mret (relay_entry updated).

Definition relay_finalize (h : HeaderMap) (slate_id tx_hash : string) : M RelayEntry :=
  user_id ← relay_caller h;
  if is_empty tx_hash || (128 <? len tx_hash)%nat
  then fail (ValidationError "tx_hash has invalid length")
  else
    row ← fetch_authorized slate_id user_id PSender;
    r ← finalize_slatepack (g_id row) tx_hash;
    updated ← lift (ok_or r (Conflict
      "relay is not awaiting finalization (or has expired)"));
    mret (relay_entry updated).

Definition relay_cancel (h : HeaderMap) (slate_id : string) : M RelayEntry :=
  user_id ← relay_caller h;
  row ← fetch_authorized slate_id user_id PEither;
  r ← cancel_slatepack (g_id row);
  updated ← lift (ok_or r (Conflict
    "relay can no longer be cancelled (already finalized or cancelled)"));
  mret (relay_entry updated).
End relay.

(** * The relay as a state machine *)

Inductive slate_statement
  : (Time -> GrinSlatepack -> bool) -> (Time -> GrinSlatepack -> GrinSlatepack) -> Prop :=
| sl_respond r : slate_statement respond_where (respond_set r)
| sl_finalize tx : slate_statement finalize_where (finalize_set tx)
| sl_cancel : slate_statement (fun _ => is_active) cancel_set.

Inductive slate_step : Rel :=
| sl_create k n t d d' g :
    sql_create_grin_slatepack k n t d = inr (d', g) -> slate_step t d d'
| sl_update k wh set_ t d d' o :
    slate_statement wh set_ -> update_slate k wh set_ t d = inr (d', o) ->
    slate_step t d d'
| sl_expire t d d' n :
    sql_expire_old_slatepacks t d = inr (d', n) -> slate_step t d d'
| sl_delete_user u t d d' : sql_delete_user u t d = inr (d', tt) -> slate_step t d d'
| sl_other t d d' : grin_slatepacks d' = grin_slatepacks d -> slate_step t d d'.

Definition slate_edge (a b : SlatepackStatus) : bool :=
  match a, b with
  | PendingRecipient, (PendingSender | SpCancelled | Expired)
  | PendingSender, (Finalized | SpCancelled | Expired) => true
  | _, _ => false
  end.

(** What the row says agrees with how far the exchange got. *)
Definition slate_wf (k : Uuid) (g : GrinSlatepack) : Prop :=
  g_id g = k /\
  (is_Some (g_tx_hash g) <-> g_status g = Finalized) /\
  (is_Some (g_finalized_at g) <-> g_status g = Finalized) /\
  (g_status g = PendingRecipient -> g_response_slatepack g = None) /\
  (g_status g = PendingSender \/ g_status g = Finalized ->
   is_Some (g_response_slatepack g)).

Definition slates_inv (d : Db) : Prop :=
  (forall k g, grin_slatepacks d !! k = Some g -> slate_wf k g) /\
  (forall k1 k2 g1 g2, grin_slatepacks d !! k1 = Some g1 ->
     grin_slatepacks d !! k2 = Some g2 -> g_slate_id g1 = g_slate_id g2 -> k1 = k2).

(** What a step may do to a surviving row: the exchange moves forward or not at
    all, and its parties and payload stay (a deleted recipient is unlinked). *)
Definition slate_moves (g g' : GrinSlatepack) : Prop :=
  (g_status g' = g_status g \/ slate_edge (g_status g) (g_status g') = true) /\
  g_slate_id g' = g_slate_id g /\ g_sender_user_id g' = g_sender_user_id g /\
  g_slatepack_content g' = g_slatepack_content g /\
  g_amount_nanogrin g' = g_amount_nanogrin g /\ g_expires_at g' = g_expires_at g /\
  (g_recipient_user_id g' = g_recipient_user_id g \/ g_recipient_user_id g' = None) /\
  (forall r, g_response_slatepack g = Some r -> g_response_slatepack g' = Some r).

(** A row after a step, from the row before it. *)
Inductive slate_change (t : Time) (g : GrinSlatepack) : GrinSlatepack -> Prop :=
| sc_same : slate_change t g g
| sc_statement wh set_ :
    slate_statement wh set_ -> wh t g = true -> slate_change t g (set_ t g)
| sc_expire : expirable t g = true -> slate_change t g (expire_set t g)
| sc_unlink : slate_change t g (g <|g_recipient_user_id := None|>).

Lemma update_slate_inv k wh set_ t d d' o :
  update_slate k wh set_ t d = inr (d', o) ->
  (d' = d /\ o = None) \/
  exists g, grin_slatepacks d !! k = Some g /\ wh t g = true /\
    o = Some (set_ t g) /\
    d' = d <|grin_slatepacks := <[k := set_ t g]> (grin_slatepacks d)|>.
Proof.
  unfold update_slate. destruct (_ !! k) as [g|] eqn:E; [|intros [= <- <-]; auto].
  destruct (wh t g) eqn:Ew; intros [= <- <-]; eauto 8.
Qed.

Lemma slate_step_row t d d' k g' :
  slate_step t d d' -> grin_slatepacks d' !! k = Some g' ->
  (exists g, grin_slatepacks d !! k = Some g /\ slate_change t g g') \/
  (grin_slatepacks d !! k = None /\ exists n, g' = new_slatepack_row k n t /\
     (forall j g, grin_slatepacks d !! j = Some g -> g_slate_id g <> ng_slate_id n) /\
     forall j, j <> k -> grin_slatepacks d' !! j = grin_slatepacks d !! j).
Proof.
  intros Hs Hg'. destruct Hs as
    [j n t d d' g E|j wh set_ t d d' o Hst E|t d d' n E|u t d d' E|t d d' E].
  - unfold sql_create_grin_slatepack in E.
    destruct (grin_slatepacks d !! j) eqn:Ej; [done|].
    destruct (existsb _ _) eqn:Ex; [done|]. repeat case_hyp E; try done.
    injection E as <- <-. simpl in Hg'.
    apply lookup_insert_Some in Hg' as [[<- <-]|[Hne Hg']]; [right|left; eauto using sc_same].
    split; [done|]. exists n. split; [done|].
    split; [|intros i Hi; simpl; by rewrite lookup_insert_ne]. intros i g Hg Eq.
    assert (Ht : existsb (fun g0 => g_slate_id g0 =? ng_slate_id n) (slate_rows d) = true).
    { apply existsb_exists. exists g. split; [|by apply String.eqb_eq].
      apply list_elem_of_In, list_elem_of_fmap. exists (i, g). split; [done|].
      by apply elem_of_map_to_list. }
    congruence.
  - left. apply update_slate_inv in E as [[-> _]|(g & Hg & Hw & _ & ->)];
      [eauto using sc_same|]. simpl in Hg'.
    apply lookup_insert_Some in Hg' as [[<- <-]|[Hne Hg']]; eauto using sc_same, sc_statement.
  - left. injection E as <- _. simpl in Hg'. rewrite lookup_fmap in Hg'.
    apply fmap_Some in Hg' as (g & Hg & ->). exists g. split; [done|].
    destruct (expirable t g) eqn:Ex; [by apply sc_expire|apply sc_same].
  - left. unfold sql_delete_user in E. case_hyp E; [|done]. injection E as <-. simpl in Hg'.
    rewrite lookup_fmap in Hg'. apply fmap_Some in Hg' as (g & Hg & ->).
    apply map_lookup_filter_Some in Hg as [Hg _]. exists g. split; [done|].
    destruct (sql_eq _ _); [apply sc_unlink|apply sc_same].
  - left. rewrite E in Hg'. eauto using sc_same.
Qed.

Lemma is_active_cases g :
  is_active g = true -> g_status g = PendingRecipient \/ g_status g = PendingSender.
Proof. unfold is_active. intros [?|?]%orb_true_iff; split_bools; auto. Qed.

Lemma pending_unsent k g :
  slate_wf k g -> g_status g = PendingRecipient \/ g_status g = PendingSender ->
  g_tx_hash g = None /\ g_finalized_at g = None.
Proof.
  intros (_ & H2 & H3 & _) Hp. split.
  - destruct (g_tx_hash g); [|done]. 
    assert (g_status g = Finalized) by (apply H2; eauto). destruct Hp; congruence.
  - destruct (g_finalized_at g); [|done]. 
    assert (g_status g = Finalized) by (apply H3; eauto). destruct Hp; congruence.
Qed.

Lemma wf_stopped k g s t :
  slate_wf k g -> g_status g = PendingRecipient \/ g_status g = PendingSender ->
  s = Expired \/ s = SpCancelled ->
  slate_wf k (g <|g_status := s|> <|g_updated_at := t|>).
Proof.
  intros Hw Hp Hs. destruct (pending_unsent _ _ Hw Hp) as [E1 E2].
  destruct Hw as (H1 & _). unfold slate_wf. simpl. rewrite E1, E2.
  split_and!; try done; destruct Hs as [-> | ->]; try done;
    try (by intros [? [=]]); by intros [].
Qed.

Lemma change_wf t k g g' : slate_wf k g -> slate_change t g g' -> slate_wf k g'.
Proof.
  intros Hw Hc. destruct Hc as [|wh set_ Hst Hwh|Hx|]; [done| | |done].
  - destruct Hst; simpl in *; unfold respond_where, finalize_where in *; split_bools.
    + destruct (pending_unsent _ _ Hw ltac:(auto)) as [E1 E2].
      destruct Hw as (H1 & _). unfold slate_wf. simpl. rewrite E1, E2.
      split_and!; try done; eauto; by intros [? [=]].
    + destruct Hw as (H1 & _ & _ & _ & H5). unfold slate_wf. simpl.
      split_and!; try done; eauto.
    + apply wf_stopped; auto using is_active_cases.
  - apply andb_true_iff in Hx as [Hx _]. apply wf_stopped; auto using is_active_cases.
Qed.

Lemma change_moves t k g g' : slate_wf k g -> slate_change t g g' -> slate_moves g g'.
Proof.
  intros (_ & _ & _ & H4 & _) Hc. unfold slate_moves.
  destruct Hc as [|wh set_ Hst Hwh|Hx|]; [split_and!; auto| | |split_and!; auto].
  - destruct Hst; simpl in *; unfold respond_where, finalize_where in *; split_bools.
    + rewrite H in *. rewrite H4 by done. split_and!; auto; done.
    + rewrite H in *. split_and!; auto.
    + apply is_active_cases in Hwh as [-> | ->]; split_and!; auto.
  - apply andb_true_iff in Hx as [Hx _]. simpl.
    apply is_active_cases in Hx as [-> | ->]; split_and!; auto.
Qed.

Lemma change_slate_id t g g' : slate_change t g g' -> g_slate_id g' = g_slate_id g.
Proof. by destruct 1 as [|? ? []| |]. Qed.

Lemma slates_inv_stable : stable slate_step slates_inv.
Proof.
  intros t d d' Hs [Hwf Huniq]. split.
  - intros k g' Hg'. destruct (slate_step_row _ _ _ _ _ Hs Hg') as
      [(g & Hg & Hc)|(_ & n & -> & _)].
    + by eapply change_wf; [apply Hwf|].
    + unfold slate_wf. simpl. split_and!; try done; by intros [].
  - intros k1 k2 g1 g2 H1 H2 Eq.
    destruct (slate_step_row _ _ _ _ _ Hs H1) as [(h1 & L1 & C1)|(L1 & n1 & -> & F1 & _)],
      (slate_step_row _ _ _ _ _ Hs H2) as [(h2 & L2 & C2)|(L2 & n2 & -> & F2 & K2)].
    + apply change_slate_id in C1, C2. eapply Huniq; eauto. congruence.
    + apply change_slate_id in C1. exfalso. apply (F2 _ _ L1). simpl in Eq. congruence.
    + apply change_slate_id in C2. exfalso. apply (F1 _ _ L2). simpl in Eq. congruence.
    + destruct (decide (k1 = k2)) as [|Hne]; [done|]. rewrite (K2 _ Hne) in H1. congruence.
Qed.

(** One step that leaves the relay entry [k] in the table. *)
Definition live_slate_step (k : Uuid) (d d' : Db) : Prop :=
  (exists t, slate_step t d d') /\ is_Some (grin_slatepacks d' !! k).

Definition slate_done (s : SlatepackStatus) : bool :=
  match s with Finalized | Expired | SpCancelled => true | _ => false end.

Lemma slate_run_moves k d d' :
  slates_inv d -> rtc (live_slate_step k) d d' ->
  slates_inv d' /\ forall g g', grin_slatepacks d !! k = Some g ->
    grin_slatepacks d' !! k = Some g' ->
    rtc (fun a b => slate_edge a b = true) (g_status g) (g_status g') /\
    g_slate_id g' = g_slate_id g /\ g_sender_user_id g' = g_sender_user_id g /\
    g_slatepack_content g' = g_slatepack_content g /\
    (g_recipient_user_id g' = g_recipient_user_id g \/ g_recipient_user_id g' = None) /\
    (forall r, g_response_slatepack g = Some r -> g_response_slatepack g' = Some r).
Proof.
  intros Hi Hrun. induction Hrun as [d|d1 d2 d3 [[t Ht] [y Hy]] _ IH].
  - split; [done|]. intros g g' Hg Hg'. rewrite Hg in Hg'. injection Hg' as <-.
    split_and!; auto. apply rtc_refl.
  - destruct IH as [Hi3 IH]; [by eapply slates_inv_stable|]. split; [done|].
    intros g g' Hg Hg'. destruct (IH y g' Hy Hg') as (P1 & P2 & P3 & P4 & P5 & P6).
    destruct (slate_step_row _ _ _ _ _ Ht Hy) as [(g0 & Hg0 & Hc)|(Hn & _)];
      [|congruence].
    rewrite Hg in Hg0. injection Hg0 as <-.
    destruct (change_moves t k g y (proj1 Hi _ _ Hg) Hc)
      as (Q1 & Q2 & Q3 & Q4 & _ & _ & Q5 & Q6).
    split_and!; try congruence; eauto.
    + destruct Q1 as [E|He]; [by rewrite <- E|]. by eapply rtc_l.
    + destruct P5 as [E|E]; rewrite E; auto.
Qed.

Lemma done_absorbing a b :
  rtc (fun a b => slate_edge a b = true) a b -> slate_done a = true -> b = a.
Proof. induction 1 as [|a b c He _ IH]; [done|]. by destruct a, b. Qed.

(** Along any run in which a relay entry survives, the exchange only moves
    forward (recipient, then sender, then finalised, or stopped), a finished
    exchange never changes status again, the sender, the slate and the payload
    are those it was created with, and a response once given is never
    replaced. *)
Theorem relay_moves_forward k d d' g g' (Hinv : slates_inv d)
    (Hrun : rtc (live_slate_step k) d d')
    (Hg : grin_slatepacks d !! k = Some g) (Hg' : grin_slatepacks d' !! k = Some g') :
  rtc (fun a b => slate_edge a b = true) (g_status g) (g_status g') /\
  (slate_done (g_status g) = true -> g_status g' = g_status g) /\
  slate_wf k g' /\
  g_slate_id g' = g_slate_id g /\ g_sender_user_id g' = g_sender_user_id g /\
  g_slatepack_content g' = g_slatepack_content g /\
  (g_recipient_user_id g' = g_recipient_user_id g \/ g_recipient_user_id g' = None) /\
  (forall r, g_response_slatepack g = Some r -> g_response_slatepack g' = Some r).
Proof.
  destruct (slate_run_moves k d d' Hinv Hrun) as [Hi' Hm].
  destruct (Hm g g' Hg Hg') as (P1 & P2 & P3 & P4 & P5 & P6).
  split_and!; auto; [by apply done_absorbing|by apply Hi'].
Qed.

(** * The handlers are made of steps of the relay *)

Section safety.
Context `{Ext} `{Jwt} (sm : SessionManager) (grin_relay : bool).
Context (G : (nat -> Uuid) -> Prop).

Abbreviation slate_safe m Q := (triple G slate_step slates_inv m Q).

Lemma slate_read {R} on_err (s : Stmt R) (Q : R -> Prop) :
  (forall t d d' r, slates_inv d -> s t d = inr (d', r) -> d' = d /\ Q r) ->
  slate_safe (run_stmt on_err s) Q.
Proof. apply triple_read, slates_inv_stable. Qed.

Lemma slate_query_update k wh set_ :
  slate_statement wh set_ -> slate_safe (query (update_slate k wh set_)) (fun _ => True).
Proof.
  intros Hst. apply triple_stmt; [apply slates_inv_stable|]. intros t d d' o _ E.
  split; [|done]. eapply steps_once. by eapply sl_update.
Qed.

Lemma slate_session_live sid : slate_safe (is_session_live sid) (fun _ => True).
Proof. apply slate_read. by intros ? ? ? ? _ [= <- _]. Qed.
Lemma slate_get_by_slate_id s : slate_safe (get_slatepack_by_slate_id s) (fun _ => True).
Proof. apply slate_read. by intros ? ? ? ? _ [= <- _]. Qed.
Lemma slate_get_pending u : slate_safe (get_pending_slatepacks_for_user u) (fun _ => True).
Proof. apply slate_read. by intros ? ? ? ? _ [= <- _]. Qed.
Lemma slate_get_user u : slate_safe (get_user_by_id u) (fun _ => True).
Proof. apply slate_read. by intros ? ? ? ? _ [= <- _]. Qed.

Lemma slate_insert n : slate_safe (create_grin_slatepack n) (fun _ => True).
Proof.
  eapply triple_bind; [apply triple_gen_random_uuid|]. intros k _.
  apply triple_stmt; [apply slates_inv_stable|]. intros t d d' g _ E.
  split; [|done]. eapply steps_once. by eapply sl_create.
Qed.

Lemma slate_respond k r : slate_safe (add_slatepack_response k r) (fun _ => True).
Proof. apply slate_query_update. constructor. Qed.
Lemma slate_finalize k tx : slate_safe (finalize_slatepack k tx) (fun _ => True).
Proof. apply slate_query_update. constructor. Qed.
Lemma slate_cancel k : slate_safe (cancel_slatepack k) (fun _ => True).
Proof. apply slate_query_update. constructor. Qed.

#[local] Hint Resolve slate_session_live slate_get_by_slate_id slate_get_pending
  slate_get_user slate_insert slate_respond slate_finalize slate_cancel : triple.

(** Every handler of the relay, and the expiry task, is safe under
    every interleaving: all it does is a sequence of legal steps of the relay,
    and the uniqueness of slate ids and the agreement of each entry with its
    status hold throughout. *)
Theorem relay_handlers_safe h req slate_id s :
  slate_safe (relay_create sm grin_relay h req) (fun _ => True) /\
  slate_safe (relay_pending sm grin_relay h) (fun _ => True) /\
  slate_safe (relay_get sm grin_relay h slate_id) (fun _ => True) /\
  slate_safe (relay_respond sm grin_relay h slate_id s) (fun _ => True) /\
  slate_safe (relay_finalize sm grin_relay h slate_id s) (fun _ => True) /\
  slate_safe (relay_cancel sm grin_relay h slate_id) (fun _ => True) /\
  slate_safe expire_old_slatepacks (fun _ => True).
Proof.
  unfold relay_create, relay_pending, relay_get, relay_respond, relay_finalize,
    relay_cancel, relay_caller, fetch_authorized, extract_user_id_from_token.
  split_and!; [triple_steps..|].
  apply triple_stmt; [apply slates_inv_stable|]. intros t d d' n _ E.
  split; [|done]. eapply steps_once. by eapply sl_expire.
Qed.
End safety.

(** * Who may do what *)

Section alone.
Context `{Ext} `{Jwt} (sm : SessionManager) (grin_relay : bool).

Lemma read_only_relay_caller h : read_only (relay_caller sm grin_relay h).
Proof.
  unfold relay_caller. apply read_only_bind; [apply read_only_bearer|]. intros u.
  by apply read_only_bind; intros; apply read_only_free; [apply db_free_lift|].
Qed.

(** The caller is found without looking at the relay. *)
Lemma relay_caller_frame h w d :
  w_sched w = [] -> sessions d = sessions (w_db w) ->
  relay_caller sm grin_relay h (w <|w_db := d|>) =
  (w <|w_db := d|>, (relay_caller sm grin_relay h w).2).
Proof.
  intros Hq Hd. unfold relay_caller, extract_user_id_from_token, is_session_live, query.
  unfold mbind, M_bind, lift, utc_now, fail, mret, M_ret. simpl.
  destruct (bearer_token h) as [tok|e|]; try done.
  destruct (verify_access_token sm _ tok) as [info|e|]; try done.
  destruct (ti_session_id info) as [sid|]; [|by destruct (ensure_enabled _)].
  rewrite !run_stmt_quiet by done. simpl. rewrite Hd.
  destruct (sessions (w_db w) !! sid) as [s|]; simpl; [|done].
  destruct (live_session _ s); simpl; [|done]. by destruct (ensure_enabled _).
Qed.

Lemma find_slate d k g :
  slates_inv d -> grin_slatepacks d !! k = Some g ->
  head (filter (fun g' => g_slate_id g' = g_slate_id g) (slate_rows d)) = Some g.
Proof.
  intros [Hwf Huniq] Hg.
  assert (Hall : forall x, x ∈ filter (fun g' => g_slate_id g' = g_slate_id g)
    (slate_rows d) -> x = g).
  { intros x [Hx Hin]%list_elem_of_filter.
    apply list_elem_of_fmap in Hin as ([j y] & -> & Hj%elem_of_map_to_list). simpl in *.
    assert (j = k) as -> by (by eapply Huniq). congruence. }
  destruct (filter _ (slate_rows d)) as [|x l] eqn:E.
  - exfalso. apply (filter_nil_not_elem_of _ _ g E); [done|].
    apply list_elem_of_fmap. exists (k, g). split; [done|]. by apply elem_of_map_to_list.
  - simpl. f_equal. apply Hall. by left.
Qed.

Lemma find_no_slate d k g :
  slates_inv d -> grin_slatepacks d !! k = Some g ->
  head (filter (fun g' => g_slate_id g' = g_slate_id g)
    (slate_rows (d <|grin_slatepacks := delete k (grin_slatepacks d)|>))) = None.
Proof.
  intros [_ Huniq] Hg. destruct (filter _ _) as [|x l] eqn:E; [done|]. exfalso.
  assert (Hx : x ∈ filter (fun g' => g_slate_id g' = g_slate_id g)
    (slate_rows (d <|grin_slatepacks := delete k (grin_slatepacks d)|>)))
    by (rewrite E; by left).
  apply list_elem_of_filter in Hx as [Hs Hin].
  apply list_elem_of_fmap in Hin as ([j y] & -> & Hj%elem_of_map_to_list). simpl in *.
  apply lookup_delete_Some in Hj as [Hne Hj]. apply Hne. symmetry. by eapply Huniq.
Qed.

(** A stranger to the relay entry [g] of key [k]. *)
Definition stranger (u : Uuid) (g : GrinSlatepack) : Prop :=
  g_sender_user_id g <> u /\ g_recipient_user_id g <> Some u.

Lemma stranger_not_party p u g : stranger u g -> is_party p u g = false.
Proof.
  intros [H1 H2]. unfold is_party.
  rewrite (bool_decide_false _ H1), (bool_decide_false _ H2). by destruct p.
Qed.

Lemma fetch_stranger w k g u p :
  slates_inv (w_db w) -> w_sched w = [] ->
  grin_slatepacks (w_db w) !! k = Some g -> stranger u g ->
  fetch_authorized (g_slate_id g) u p w = (w, Err relay_not_found) /\
  let w0 := w <|w_db := (w_db w)
               <|grin_slatepacks := delete k (grin_slatepacks (w_db w))|>|> in
  fetch_authorized (g_slate_id g) u p w0 = (w0, Err relay_not_found).
Proof.
  intros Hi Hq Hg Hs. split.
  - unfold fetch_authorized, get_slatepack_by_slate_id, query. unfold mbind, M_bind.
    rewrite run_stmt_quiet by done. unfold sql_get_slatepack_by_slate_id.
    rewrite (find_slate _ k g Hi Hg). simpl.
    rewrite stranger_not_party by done. by destruct w.
  - intros w0. unfold fetch_authorized, get_slatepack_by_slate_id, query.
    unfold mbind, M_bind. rewrite run_stmt_quiet by done.
    unfold sql_get_slatepack_by_slate_id. subst w0. simpl.
    rewrite (find_no_slate _ k g Hi Hg). by destruct w.
Qed.

Lemma bind_not_found {A B} (m : M A) (k : A -> M B) w :
  m w = (w, Err relay_not_found) -> (m ≫= k) w = (w, Err relay_not_found).
Proof. intros E. unfold mbind, M_bind. by rewrite E. Qed.
End alone.

(** The relay is no existence oracle: to a user who is neither the sender
    nor the recipient of an entry, every endpoint answers, alone, exactly what
    it would answer if the entry did not exist, and changes nothing. *)
Theorem relay_not_an_oracle `{Ext} `{Jwt} sm grin_relay h k g u response w
    (Hinv : slates_inv (w_db w)) (Hq : w_sched w = [])
    (Hg : grin_slatepacks (w_db w) !! k = Some g) (Hs : stranger u g)
    (Hu : (relay_caller sm grin_relay h w).2 = Ok u) :
  let w0 := w <|w_db := (w_db w)
               <|grin_slatepacks := delete k (grin_slatepacks (w_db w))|>|> in
  let blind {A} (m : M A) := w_db (m w).1 = w_db w /\ (m w).2 = (m w0).2 in
  blind (relay_get sm grin_relay h (g_slate_id g)) /\
  blind (relay_respond sm grin_relay h (g_slate_id g) response) /\
  blind (relay_finalize sm grin_relay h (g_slate_id g) response) /\
  blind (relay_cancel sm grin_relay h (g_slate_id g)).
Proof.
  intros w0 blind.
  assert (E1 : relay_caller sm grin_relay h w = (w, Ok u)).
  { pose proof (relay_caller_frame sm grin_relay h w (w_db w) Hq eq_refl) as E.
    rewrite Hu in E. by destruct w. }
  assert (E2 : relay_caller sm grin_relay h w0 = (w0, Ok u)).
  { unfold w0. rewrite relay_caller_frame by done. by rewrite Hu. }
  assert (Hf := fun p => fetch_stranger w k g u p Hinv Hq Hg Hs). fold w0 in Hf.
  unfold blind, relay_get, relay_respond, relay_finalize, relay_cancel.
  unfold mbind at 1 3 5, M_bind at 1 3 5.
  split_and!; unfold mbind, M_bind; rewrite ?E1, ?E2;
    try destruct (validate_slatepack response _); simpl;
    try (destruct (is_empty response || (128 <? len response)%nat)); simpl;
    try rewrite (proj1 (Hf _)); try rewrite (proj2 (Hf _)); done.
Qed.

(** ** Whose turn it is *)

Section authorized.
Context `{Ext} `{Jwt} (sm : SessionManager) (grin_relay : bool).
Context (R : Rel) (Hstable : stable R slates_inv).

(** The relay is on and the request bears an access token of [u]. *)
Definition token_of (h : HeaderMap) (u : Uuid) : Prop :=
  grin_relay = true /\ exists tok now info, bearer_token h = Ok tok /\
    verify_access_token sm now tok = Ok info /\ ti_user_id info = u.

(** A request of somebody who may act on the entry of that slate, found at a moment of the run,
    changed it at a later moment at which it was awaited; nothing else changed then. *)
Definition acted (h : HeaderMap) (slate_id : string) (may : Uuid -> GrinSlatepack -> Prop)
    (awaited : Time -> GrinSlatepack -> Prop) (upd : Time -> GrinSlatepack -> GrinSlatepack)
    (w w' : World) : Prop :=
  exists u d0 d k g0 g, token_of h u /\ steps R (w_db w) d0 /\ steps R d0 d /\
    grin_slatepacks d0 !! k = Some g0 /\ g_slate_id g0 = slate_id /\ may u g0 /\
    grin_slatepacks d !! k = Some g /\ awaited (w_now w') g /\
    w_db w' = d <|grin_slatepacks := <[k := upd (w_now w') g]> (grin_slatepacks d)|>.

Lemma triple_token G h : triple G R slates_inv (relay_caller sm grin_relay h) (token_of h).
Proof.
  unfold relay_caller, extract_user_id_from_token, ensure_enabled.
  eapply (triple_bind _ _ _ _ _ (fun u => exists tok now info, bearer_token h = Ok tok /\
    verify_access_token sm now tok = Ok info /\ ti_user_id info = u)).
  - eapply (triple_bind _ _ _ _ _ (fun tok => bearer_token h = Ok tok)); [by apply triple_lift|].
    intros tok Htok. eapply triple_bind; [apply triple_utc_now|]. intros now _.
    eapply (triple_bind _ _ _ _ _ (fun i => verify_access_token sm now tok = Ok i)); [by apply triple_lift|].
    intros info Hinfo. destruct (ti_session_id info) as [sid|]; [|apply triple_ret; by exists tok, now, info].
    eapply (triple_bind _ _ _ _ _ (fun _ => True)).
    { apply triple_read; [done|]. by intros ? ? ? ? _ [= <- _]. }
    intros live _. case_goal; [by apply triple_lift|]. apply triple_ret. by exists tok, now, info.
  - intros u Hu. eapply (triple_bind _ _ _ _ _ (fun _ => grin_relay = true)).
    { apply triple_lift. intros a. by case_match. }
    intros _ Hon. by apply triple_ret.
Qed.

Lemma acted_run h slate_id p wh set_ e (may : Uuid -> GrinSlatepack -> Prop)
    (awaited : Time -> GrinSlatepack -> Prop) w w' u w1 entry :
  (forall v g, is_party p v g = true -> may v g) ->
  (forall t g, wh t g = true -> awaited t g) ->
  slates_inv (w_db w) -> sched_ok R (w_sched w) ->
  relay_caller sm grin_relay h w = (w1, Ok u) ->
  (row ← fetch_authorized slate_id u p;
   r ← query (update_slate (g_id row) wh set_);
   updated ← lift (ok_or r e); mret (relay_entry updated)) w1 = (w', Ok entry) ->
  acted h slate_id may awaited set_ w w'.
Proof.
  intros Hmay Haw Hi Hok Hu Hrun.
  pose proof (triple_token (fun _ => True) h w I Hok Hi) as Hc. rewrite Hu in Hc.
  destruct Hc as (Hs1 & Hok1 & Hi1 & _ & _ & Htok). specialize (Htok u eq_refl).
  apply bind_run_Ok in Hrun as (w2 & row & Hf & Hr).
  apply bind_run_Ok in Hr as (w3 & o & Hup & Hr).
  apply bind_run_Ok in Hr as (w4 & g' & [-> ->%ok_or_Ok]%lift_run_Ok & [= <- _]).
  apply bind_run_Ok in Hf as (w5 & found & Hg & Hf).
  eapply run_stmt_Ok in Hg as (d0 & Hs2 & E & Hok2 & _); [|exact Hok1].
  injection E as Ed0 <-.
  apply bind_run_Ok in Hf as (w6 & g0 & [-> Hgr%ok_or_Ok]%lift_run_Ok & Hf).
  destruct (is_party p u g0) eqn:Ep; [|done]. injection Hf as <- <-.
  apply head_Some_elem_of, list_elem_of_filter in Hgr as [Hs Hin].
  apply list_elem_of_fmap in Hin as ([k y] & -> & Hk%elem_of_map_to_list). simpl in *.
  assert (Hi2 : slates_inv d0) by (by eapply steps_stable).
  destruct (proj1 Hi2 _ _ Hk) as [Hid _]. rewrite Hid in Hup.
  eapply run_stmt_Ok in Hup as (d & Hs3 & E & _); [|exact Hok2].
  apply update_slate_inv in E as [[_ [=]]|(g & Hg & Hw & _ & Hd)].
  exists u, d0, d, k, y, g. split_and!; auto.
  - by etrans.
  - by rewrite Ed0.
Qed.

(** C37: only the party an action is for can take it, and only in its turn.  Whatever steps [R]
    the others take meanwhile, a response that succeeds bears the token of the one who was the
    recipient of the entry of that slate, and is written to the entry while it waits for the
    recipient and before it expires; a finalisation, that of its sender, while it waits for the
    sender and before it expires; a cancellation, that of one of the two, while it waits for
    either.  Each rewrites that entry, as it says, and nothing else. *)
Theorem relay_actions_authorized h slate_id s w
    (Hinv : slates_inv (w_db w)) (Hothers : sched_ok R (w_sched w)) :
  (forall w' e, relay_respond sm grin_relay h slate_id s w = (w', Ok e) ->
     acted h slate_id (fun u g => g_recipient_user_id g = Some u)
       (fun now g => g_status g = PendingRecipient /\ (now < g_expires_at g)%Z)
       (fun now g => g <|g_response_slatepack := Some s|> <|g_status := PendingSender|>
                       <|g_updated_at := now|>) w w') /\
  (forall w' e, relay_finalize sm grin_relay h slate_id s w = (w', Ok e) ->
     acted h slate_id (fun u g => g_sender_user_id g = u)
       (fun now g => g_status g = PendingSender /\ (now < g_expires_at g)%Z)
       (fun now g => g <|g_status := Finalized|> <|g_tx_hash := Some s|>
                       <|g_finalized_at := Some now|> <|g_updated_at := now|>) w w') /\
  (forall w' e, relay_cancel sm grin_relay h slate_id w = (w', Ok e) ->
     acted h slate_id (fun u g => g_sender_user_id g = u \/ g_recipient_user_id g = Some u)
       (fun _ g => g_status g = PendingRecipient \/ g_status g = PendingSender)
       (fun now g => g <|g_status := SpCancelled|> <|g_updated_at := now|>) w w').
Proof.
  split_and!; intros w' e Hrun; unfold relay_respond, relay_finalize, relay_cancel in Hrun;
    apply bind_run_Ok in Hrun as (w1 & u & Hu & Hrun).
  - apply bind_run_Ok in Hrun as (w2 & ? & [-> _]%lift_run_Ok & Hrun).
    eapply acted_run; [| |done|done|exact Hu|exact Hrun].
    + by intros v g ?%bool_decide_eq_true.
    + intros t g [?%bool_decide_eq_true ?%Z.ltb_lt]%andb_true_iff. by split.
  - case_hyp Hrun; [done|]. eapply acted_run; [| |done|done|exact Hu|exact Hrun].
    + by intros v g ?%bool_decide_eq_true.
    + intros t g [?%bool_decide_eq_true ?%Z.ltb_lt]%andb_true_iff. by split.
  - eapply acted_run; [| |done|done|exact Hu|exact Hrun].
    + intros v g [?%bool_decide_eq_true|?%bool_decide_eq_true]%orb_true_iff; auto.
    + intros t g [?%bool_decide_eq_true|?%bool_decide_eq_true]%orb_true_iff; auto.
Qed.
End authorized.

(** * Concrete exchanges *)

(** Alice (1, session 7) is about to send to Bob (2); Carol (3) is a stranger. *)
Definition relay_user (u : Uuid) : User :=
  mkUser u None None None None None None None 0 0 None None.
Definition relay_db : Db :=
  empty_db <|users := {[ 1%N := relay_user 1; 2%N := relay_user 2; 3%N := relay_user 3 ]}|>
    <|sessions := {[ 7%N := mkSession 7 1 "h" "web" None 0 DAY None 0;
                     8%N := mkSession 8 2 "h" "web" None 0 DAY None 0;
                     9%N := mkSession 9 3 "h" "web" None 0 DAY None 0 ]}|>
    <|grin_slatepacks := {[ 20%N := mkGrinSlatepack 20 "1" 1 (Some 2%N) None "slate" 5
         PendingRecipient None 0 0 DAY None None ]}|>.

Definition relay_w : World := quiet_world relay_db HOUR.

Definition headers_of (u sid : Uuid) : HeaderMap :=
  match create_token_pair demo_sm 0 u Web sid with
  | Ok p => [("authorization", "Bearer " ++ access_token p)]
  | _ => []
  end.

Lemma relay_db_inv : slates_inv relay_db.
Proof.
  assert (Hall : forall k g, grin_slatepacks relay_db !! k = Some g ->
    k = 20%N /\ g = mkGrinSlatepack 20 "1" 1 (Some 2%N) None "slate" 5
         PendingRecipient None 0 0 DAY None None).
  { intros k g Hk. unfold relay_db in Hk. cbn [grin_slatepacks set_field] in Hk.
    by apply lookup_singleton_Some in Hk as [<- <-]. }
  split.
  - intros k g [-> ->]%Hall. unfold slate_wf. simpl.
    split_and!; try done; try (by intros [? [=]]); by intros [].
  - by intros k1 k2 g1 g2 [-> _]%Hall [-> _]%Hall.
Qed.

Definition relay_responded : Db :=
  match sql_add_slatepack_response 20 "reply" HOUR relay_db with
  | inr (d, _) => d | inl _ => relay_db
  end.

Lemma relay_moves_forward_witness :
  exists g', grin_slatepacks relay_responded !! 20%N = Some g' /\ slate_wf 20 g' /\
    g_status g' = PendingSender.
Proof.
  eexists. split; [by vm_compute|]. split; [|by vm_compute].
  eapply (relay_moves_forward 20 relay_db relay_responded);
    [apply relay_db_inv| |by vm_compute|by vm_compute].
  apply rtc_once. split; [|apply is_some_true; by vm_compute]. exists HOUR.
  eapply (sl_update 20 respond_where (respond_set "reply")); [constructor|].
  by vm_compute.
Defined.

Lemma relay_not_an_oracle_witness :
  (relay_get demo_sm true (headers_of 3 9) "1" relay_w).2 = Err relay_not_found.
Proof.
  assert (Hb := proj1 (relay_not_an_oracle demo_sm true (headers_of 3 9) 20
    (mkGrinSlatepack 20 "1" 1 (Some 2%N) None "slate" 5
         PendingRecipient None 0 0 DAY None None) 3 "x" relay_w relay_db_inv
    eq_refl ltac:(by vm_compute) ltac:(by split) ltac:(by vm_compute))).
  cbn [g_slate_id] in Hb. destruct Hb as [_ Hb]. rewrite Hb. by vm_compute.
Defined.

Lemma relay_actions_authorized_witness :
  exists w' e, relay_respond demo_sm true (headers_of 2 8) "1" "reply" relay_w = (w', Ok e) /\
    exists u k g, token_of demo_sm true (headers_of 2 8) u /\ grin_slatepacks relay_db !! k = Some g /\
      g_recipient_user_id g = Some u /\ g_status g = PendingRecipient /\ (w_now w' < g_expires_at g)%Z.
Proof.
  destruct (relay_respond demo_sm true (headers_of 2 8) "1" "reply" relay_w)
    as [w' o] eqn:E.
  assert (Ho : exists e, o = Ok e) by (vm_compute in E; injection E as _ <-; eauto).
  destruct Ho as [e ->]. exists w', e. split; [done|].
  destruct (proj1 (relay_actions_authorized demo_sm true idle (idle_stable _) (headers_of 2 8) "1" "reply"
    relay_w relay_db_inv (sched_ok_nil _)) w' e E)
    as (u & d0 & d & k & g0 & g & Hu & ->%steps_idle & ->%steps_idle & Hk0 & _ & Hr & Hk & [Hs Hx] & _).
  exists u, k, g0. rewrite Hk0 in Hk. injection Hk as <-. split_and!; done.
Defined.
