(* ===== verification/Nip98.v ===== *)
(** [src/core/crypto/nip98.rs]: signed Nostr events as HTTP credentials, at
    login grade and at state-change grade.

    Base64, JSON and BIP-340 are the [base64], [serde_json] and [k256] crates';
    the two [k256] constructors panic on a slice of the wrong length. *)

From Stdlib Require Import ZArith Lia Ascii String Strings.Byte.
From S2P Require Import Prelude RustStr Errors Db Demo.

Local Open Scope string_scope.

Definition NIP98_KIND : u32 := 27235.

Record Nip98Event := mkNip98Event {
  ne_id : string;
  ne_pubkey : string;
  ne_created_at : i64;
  ne_kind : u32;
  ne_tags : list (list string);
  ne_content : string;
  ne_sig : string;
}.

Inductive Nip98Error :=
| Malformed | WrongKind | UrlMismatch | MethodMismatch | Expired98 | BadId | BadSignature
| MissingTag | DuplicateTag | BindingMismatch.

#[export] Instance Nip98Error_eq_dec : EqDecision Nip98Error.
Proof. solve_decision. Defined.

(** [Result<A, Nip98Error>], or a panic. *)
Inductive verdict (A : Type) := Accepted (a : A) | Rejected (e : Nip98Error) | Panicked.
Arguments Accepted {A} _.
Arguments Rejected {A} _.
Arguments Panicked {A}.

#[export] Instance verdict_ret : MRet verdict := @Accepted.
#[export] Instance verdict_bind : MBind verdict := fun A B f m =>
  match m with Accepted a => f a | Rejected e => Rejected e | Panicked => Panicked end.

Definition or_reject {A} (o : option A) (e : Nip98Error) : verdict A :=
  match o with Some a => Accepted a | None => Rejected e end.

(** [if bad { return Err(e) }]. *)
Definition reject_if (bad : bool) (e : Nip98Error) : verdict unit :=
  if bad then Rejected e else Accepted tt.

Lemma or_reject_Accepted {A} (o : option A) e a : or_reject o e = Accepted a <-> o = Some a.
Proof. destruct o; simpl; naive_solver. Qed.

Lemma reject_if_Accepted b e u : reject_if b e = Accepted u <-> b = false.
Proof. destruct b, u; simpl; naive_solver. Qed.

Lemma bind_Accepted {A B} (m : verdict A) (f : A -> verdict B) b :
  (m ≫= f) = Accepted b <-> exists a, m = Accepted a /\ f a = Accepted b.
Proof. destruct m; simpl; naive_solver. Qed.

(** What a fallible constructor of a crate does. *)
Inductive built (A : Type) := Built (a : A) | Refused | BuildPanic.
Arguments Built {A} _.
Arguments Refused {A}.
Arguments BuildPanic {A}.

(** [.map_err(|_| e)?]. *)
Definition built_or {A} (b : built A) (e : Nip98Error) : verdict A :=
  match b with Built a => Accepted a | Refused => Rejected e | BuildPanic => Panicked end.

Lemma built_or_Accepted {A} (b : built A) e a : built_or b e = Accepted a <-> b = Built a.
Proof. destruct b; simpl; naive_solver. Qed.

Class Nostr := {
  base64_decode : string -> option (list byte);
  event_from_slice : list byte -> option Nip98Event;
  (* [serde_json::to_string(&json!([0, pubkey, created_at, kind, tags, content]))] *)
  event_json : string -> i64 -> u32 -> list (list string) -> string -> string;
  SchnorrKey : Type;
  SchnorrSig : Type;
  schnorr_key : list byte -> built SchnorrKey;
  schnorr_sig : list byte -> built SchnorrSig;
  verify_raw : SchnorrKey -> list byte -> SchnorrSig -> bool;
}.

(** [k256] panics only on a wrong length; the text of a JSON array determines
    its values. *)
Class NostrLaws (C : Nostr) := {
  schnorr_key_32 : forall bs, length bs = 32%nat -> schnorr_key bs <> BuildPanic;
  schnorr_sig_64 : forall bs, length bs = 64%nat -> schnorr_sig bs <> BuildPanic;
  event_json_inj : forall p c k t b p' c' k' t' b',
    event_json p c k t b = event_json p' c' k' t' b' ->
    p = p' /\ c = c' /\ k = k' /\ t = t' /\ b = b';
}.

(** [subtle]'s comparison of the bytes. *)
Definition ct_eq (a b : string) : bool := String.eqb a b.

Fixpoint find_one (tags : list (list string)) (name : string) (found : option string)
  : verdict string :=
  match tags with
  | [] => or_reject found MissingTag
  | (n :: v :: _) :: ts =>
      if String.eqb n name
      then match found with
           | Some _ => Rejected DuplicateTag
           | None => find_one ts name (Some v)
           end
      else find_one ts name found
  | _ :: ts => find_one ts name found
  end.

Definition exactly_one (ev : Nip98Event) (name : string) : verdict string :=
  find_one (ne_tags ev) name None.

Section verify.
Context `{Ext} `{Nostr}.

Definition event_id (ev : Nip98Event) : string :=
  hex_encode (sha256 (list_byte_of_string (event_json (ne_pubkey ev) (ne_created_at ev)
    (ne_kind ev) (ne_tags ev) (ne_content ev)))).

(** The BIP-340 check, with the guard on the lengths. *)
Definition check_signature (ev : Nip98Event) : verdict unit :=
  pubkey ← or_reject (hex_decode (ne_pubkey ev)) BadSignature;
  id_bytes ← or_reject (hex_decode (ne_id ev)) BadSignature;
  sig_bytes ← or_reject (hex_decode (ne_sig ev)) BadSignature;
  if negb (length pubkey =? 32)%nat || negb (length id_bytes =? 32)%nat
     || negb (length sig_bytes =? 64)%nat
  then Rejected BadSignature
  else
    vk ← built_or (schnorr_key pubkey) BadSignature;
    sig ← built_or (schnorr_sig sig_bytes) BadSignature;
    reject_if (negb (verify_raw vk id_bytes sig)) BadSignature.

Definition stale (ev : Nip98Event) (now max_age_secs : i64) : bool :=
  (i64_saturating_add now max_age_secs <? ne_created_at ev)%Z
  || (ne_created_at ev <? i64_saturating_sub now max_age_secs)%Z.

Definition parse_authenticated (header : string) (now max_age_secs : i64)
  : verdict Nip98Event :=
  b64 ← or_reject (RustStr.strip_prefix "Nostr " header) Malformed;
  raw ← or_reject (base64_decode (trim b64)) Malformed;
  ev ← or_reject (event_from_slice raw) Malformed;
  _ ← reject_if (negb (ne_kind ev =? NIP98_KIND)%Z) WrongKind;
  _ ← reject_if (stale ev now max_age_secs) Expired98;
  _ ← reject_if (negb (event_id ev =? ne_id ev)) BadId;
  _ ← check_signature ev;
  Accepted ev.

Definition verify_nip98 (header expected_url expected_method : string)
    (now max_age_secs : i64) : verdict string :=
  ev ← parse_authenticated header now max_age_secs;
  u ← exactly_one ev "u";
  _ ← reject_if (negb (u =? expected_url)) UrlMismatch;
  m ← exactly_one ev "method";
  _ ← reject_if (negb (eq_ignore_ascii_case m expected_method)) MethodMismatch;
  Accepted (to_lowercase (ne_pubkey ev)).

Definition request_descriptor (method path canonical_query : string) (body : list byte)
  : string :=
  let body_hash := hex_encode (sha256 body) in
  to_uppercase method ++ LF ++ path ++ LF ++ canonical_query ++ LF ++ body_hash.

Definition descriptor_sha256 (descriptor : string) : string :=
  hex_encode (sha256 (list_byte_of_string descriptor)).

(** One bound tag: exactly one occurrence, of the expected value. *)
Definition bound_tag (ev : Nip98Event) (name expected : string) : verdict unit :=
  v ← exactly_one ev name; reject_if (negb (ct_eq v expected)) BindingMismatch.

Definition bound_method (ev : Nip98Event) (expected : string) : verdict unit :=
  v ← exactly_one ev "method";
  reject_if (negb (eq_ignore_ascii_case v expected)) BindingMismatch.

Definition verify_signed_action (header expected_url expected_method expected_purpose
    expected_nonce expected_payload_sha256 : string)
    (expected_target : option (string * string)) (expected_instance_id : option string)
    (now max_age_secs : i64) : verdict string :=
  ev ← parse_authenticated header now max_age_secs;
  _ ← bound_tag ev "u" expected_url;
  _ ← bound_method ev expected_method;
  _ ← bound_tag ev "purpose" expected_purpose;
  _ ← bound_tag ev "challenge" expected_nonce;
  _ ← bound_tag ev "payload" expected_payload_sha256;
  _ ← match expected_target with
      | Some (tag_name, tag_value) => bound_tag ev tag_name tag_value
      | None => Accepted tt
      end;
  _ ← match expected_instance_id with
      | Some instance_id => bound_tag ev "instance_id" instance_id
      | None => Accepted tt
      end;
  Accepted (to_lowercase (ne_pubkey ev)).
End verify.

(** * What is accepted *)

(** The values of the tags of that name. *)
Definition tag_values (tags : list (list string)) (name : string) : list string :=
  omap (fun t => match t with
                 | n :: v :: _ => if String.eqb n name then Some v else None
                 | _ => None
                 end) tags.

Lemma find_one_spec tags name found v :
  find_one tags name found = Accepted v <->
  match found with Some x => tag_values tags name = [] /\ v = x | None => tag_values tags name = [v] end.
Proof.
  revert found. induction tags as [|t tags IH]; intros found; simpl.
  - rewrite or_reject_Accepted. destruct found; naive_solver.
  - destruct t as [|n [|w t]]; [apply IH..|]. destruct (String.eqb n name); [|apply IH].
    destruct found as [x|]; [by split; [|intros [? _]]|]. rewrite IH. fold (tag_values tags name).
    split; [by intros [-> ->]|by intros [= -> ->]].
Qed.

Lemma exactly_one_spec ev name v :
  exactly_one ev name = Accepted v <-> tag_values (ne_tags ev) name = [v].
Proof. apply (find_one_spec _ _ None). Qed.

Section spec.
Context {E : Ext} {C : Nostr}.

(** The event says it with a valid signature of its key, of the right kind and
    fresh. *)
Definition authentic (header : string) (now max_age : i64) (ev : Nip98Event) : Prop :=
  (exists b64 raw, header = "Nostr " ++ b64 /\ base64_decode (trim b64) = Some raw /\
     event_from_slice raw = Some ev) /\
  ne_kind ev = NIP98_KIND /\
  (i64_saturating_sub now max_age <= ne_created_at ev <= i64_saturating_add now max_age)%Z /\
  ne_id ev = event_id ev /\
  exists key id_bytes sig_bytes vk sig,
    hex_decode (ne_pubkey ev) = Some key /\ hex_decode (ne_id ev) = Some id_bytes /\
    hex_decode (ne_sig ev) = Some sig_bytes /\
    length key = 32%nat /\ length id_bytes = 32%nat /\ length sig_bytes = 64%nat /\
    schnorr_key key = Built vk /\ schnorr_sig sig_bytes = Built sig /\
    verify_raw vk id_bytes sig = true.

Ltac refuse :=
  split; [done|intros (? & ? & ? & ? & ? & ?); destruct_and!; simplify_eq; congruence].

Lemma check_signature_spec ev :
  check_signature ev = Accepted tt <->
  exists key id_bytes sig_bytes vk sig,
    hex_decode (ne_pubkey ev) = Some key /\ hex_decode (ne_id ev) = Some id_bytes /\
    hex_decode (ne_sig ev) = Some sig_bytes /\
    length key = 32%nat /\ length id_bytes = 32%nat /\ length sig_bytes = 64%nat /\
    schnorr_key key = Built vk /\ schnorr_sig sig_bytes = Built sig /\
    verify_raw vk id_bytes sig = true.
Proof.
  unfold check_signature.
  destruct (hex_decode (ne_pubkey ev)) as [key|] eqn:?; simpl; [|refuse].
  destruct (hex_decode (ne_id ev)) as [i|]; simpl; [|refuse].
  destruct (hex_decode (ne_sig ev)) as [s|]; simpl; [|refuse].
  destruct (Nat.eqb_spec (length key) 32); simpl; [|refuse].
  destruct (Nat.eqb_spec (length i) 32); simpl; [|refuse].
  destruct (Nat.eqb_spec (length s) 64); simpl; [|refuse].
  destruct (schnorr_key key) as [vk| |] eqn:?; simpl; [|refuse..].
  destruct (schnorr_sig s) as [sg| |] eqn:?; simpl; [|refuse..].
  rewrite reject_if_Accepted, negb_false_iff. split; [by eauto 15|].
  intros (? & ? & ? & ? & ? & ?). destruct_and!. congruence.
Qed.

Lemma parse_authenticated_spec header now max_age ev :
  parse_authenticated header now max_age = Accepted ev <-> authentic header now max_age ev.
Proof.
  unfold parse_authenticated, authentic. rewrite bind_Accepted.
  setoid_rewrite bind_Accepted. setoid_rewrite bind_Accepted. setoid_rewrite bind_Accepted.
  setoid_rewrite bind_Accepted. setoid_rewrite bind_Accepted. setoid_rewrite bind_Accepted.
  setoid_rewrite or_reject_Accepted. setoid_rewrite reject_if_Accepted.
  setoid_rewrite strip_prefix_spec. setoid_rewrite negb_false_iff.
  setoid_rewrite Z.eqb_eq. setoid_rewrite String.eqb_eq. unfold stale.
  setoid_rewrite orb_false_iff. setoid_rewrite Z.ltb_ge. split.
  - intros (b64 & -> & raw & Hraw & ev' & Hev & [] & Hk & [] & [Hlo Hhi] & [] & Hid & [] & Hsig & [= ->]).
    split; [by eauto|]. split_and!; [done..|]. by apply check_signature_spec.
  - intros ((b64 & raw & -> & Hraw & Hev) & Hk & [Hlo Hhi] & Hid & Hsig).
    exists b64. split; [done|]. exists raw. split; [done|]. exists ev. split; [done|].
    exists tt. split; [done|]. exists tt. split; [done|]. exists tt. split; [done|].
    exists tt. split; [|done]. by apply check_signature_spec.
Qed.

Definition bound (ev : Nip98Event) (name v : string) : Prop := tag_values (ne_tags ev) name = [v].

Lemma bound_tag_spec ev name v : bound_tag ev name v = Accepted tt <-> bound ev name v.
Proof.
  unfold bound_tag, bound. rewrite bind_Accepted. setoid_rewrite exactly_one_spec.
  setoid_rewrite reject_if_Accepted. setoid_rewrite negb_false_iff. unfold ct_eq.
  setoid_rewrite String.eqb_eq. naive_solver.
Qed.

Definition bound_ci (ev : Nip98Event) (name v : string) : Prop :=
  exists m, bound ev name m /\ eq_ignore_ascii_case m v = true.

Lemma bound_method_spec ev v : bound_method ev v = Accepted tt <-> bound_ci ev "method" v.
Proof.
  unfold bound_method, bound_ci, bound. rewrite bind_Accepted. setoid_rewrite exactly_one_spec.
  setoid_rewrite reject_if_Accepted. by setoid_rewrite negb_false_iff.
Qed.

(** An optional binding. *)
Definition bound_opt (ev : Nip98Event) (o : option (string * string)) : Prop :=
  match o with Some (n, v) => bound ev n v | None => True end.

End spec.

(** * Properties *)

#[export] Instance byte_eq_decision : EqDecision byte := Byte.byte_eq_dec.

(** Two given texts with the same digest: an attack on SHA-256 itself. *)
Definition sha_clash `{Ext} (a b : list byte) : Prop := a <> b /\ sha256 a = sha256 b.

Lemma same_digest {E : Ext} {EL : ExtLaws E} a b :
  hex_encode (sha256 a) = hex_encode (sha256 b) -> a = b \/ sha_clash a b.
Proof.
  intros Heq. apply (f_equal hex_decode) in Heq. rewrite !hex_round_trip in Heq.
  injection Heq as Heq. destruct (decide (a = b)); [by left|by right].
Qed.

(** A signed action is accepted exactly when it is an authentic event (of the
    right kind, fresh within the window on both sides, its id the digest of its
    contents, signed by its key) that carries each bound tag exactly once, with
    the expected value; the answer is then the canonical form of the key that
    signed. *)
Theorem signed_action_exact {E : Ext} {C : Nostr} header url method purpose nonce payload
    target instance_id now max_age pk :
  verify_signed_action header url method purpose nonce payload target instance_id now max_age
    = Accepted pk <->
  exists ev, authentic header now max_age ev /\ pk = to_lowercase (ne_pubkey ev) /\
    bound ev "u" url /\ bound_ci ev "method" method /\ bound ev "purpose" purpose /\
    bound ev "challenge" nonce /\ bound ev "payload" payload /\ bound_opt ev target /\
    bound_opt ev (pair "instance_id" <$> instance_id).
Proof.
  unfold verify_signed_action. rewrite bind_Accepted. setoid_rewrite parse_authenticated_spec.
  assert (Hopt : forall ev (o : option (string * string)) u,
    match o with Some (n, v) => bound_tag ev n v | None => Accepted tt end = Accepted u
    <-> bound_opt ev o).
  { intros ev [[n v]|] []; simpl; [apply bound_tag_spec|done]. }
  assert (Hi : forall ev u,
    match instance_id with Some i => bound_tag ev "instance_id" i | None => Accepted tt end
      = Accepted u <-> bound_opt ev (pair "instance_id" <$> instance_id)).
  { intros ev []. destruct instance_id; simpl; [apply bound_tag_spec|done]. }
  split.
  - intros (ev & Hev & Hb). exists ev. split; [done|].
    apply bind_Accepted in Hb as ([] & H1%bound_tag_spec & Hb).
    apply bind_Accepted in Hb as ([] & H2%bound_method_spec & Hb).
    apply bind_Accepted in Hb as ([] & H3%bound_tag_spec & Hb).
    apply bind_Accepted in Hb as ([] & H4%bound_tag_spec & Hb).
    apply bind_Accepted in Hb as ([] & H5%bound_tag_spec & Hb).
    apply bind_Accepted in Hb as ([] & H6%Hopt & Hb).
    apply bind_Accepted in Hb as ([] & H7%Hi & [= <-]). by split_and!.
  - intros (ev & Hev & -> & H1 & H2 & H3 & H4 & H5 & H6 & H7). exists ev. split; [done|].
    apply bind_Accepted. exists tt. split; [by apply bound_tag_spec|].
    apply bind_Accepted. exists tt. split; [by apply bound_method_spec|].
    do 3 (apply bind_Accepted; exists tt; split; [by apply bound_tag_spec|]).
    apply bind_Accepted. exists tt. split; [by apply Hopt|].
    apply bind_Accepted. exists tt. split; [by apply Hi|done].
Qed.

(** The payload tag of a request. *)
Definition request_payload `{Ext} (method path query : string) (body : list byte) : string :=
  descriptor_sha256 (request_descriptor method path query body).

(** The requests of two equal payloads. *)
Lemma request_payload_inj {E : Ext} {EL : ExtLaws E} m p q b m' p' q' b' :
  no_char (ascii_of_nat 10) m = true -> no_char (ascii_of_nat 10) p = true ->
  no_char (ascii_of_nat 10) m' = true -> no_char (ascii_of_nat 10) p' = true ->
  request_payload m p q b = request_payload m' p' q' b' ->
  (to_uppercase m = to_uppercase m' /\ p = p' /\ q = q' /\ (b = b' \/ sha_clash b b')) \/
  sha_clash (list_byte_of_string (request_descriptor m p q b))
            (list_byte_of_string (request_descriptor m' p' q' b')).
Proof.
  intros Hm Hp Hm' Hp' Heq. apply same_digest in Heq as [Heq|]; [left|by right].
  apply (f_equal string_of_list_byte) in Heq. rewrite !string_of_list_byte_of_string in Heq.
  unfold request_descriptor, LF in Heq.
  apply split_at_char in Heq as [Hme Heq]; [|by apply no_LF_upper..].
  apply split_at_char in Heq as [Hpe Heq]; [|done..].
  rewrite <- !append_assoc_str in Heq.
  apply split_at_suffix in Heq as [Hq Hb]; [|by rewrite !hex_encode_len, !sha256_len].
  apply split_at_suffix in Hq as [Hq _]; [|done].
  split_and!; [done..|]. by apply same_digest.
Qed.

(** A signed action is good for one request only.  If one credential is
    accepted for two requests (at whatever times), the two have the same url,
    the same method up to case, purpose, nonce, instance and signer; and their
    method, path, query and body are equal, or the two descriptors, or the two
    bodies, are distinct texts with the same SHA-256. *)
Theorem action_binds_one_request {E : Ext} {EL : ExtLaws E} {C : Nostr} header
    url m purpose nonce method path query body t i now age pk
    url' m' purpose' nonce' method' path' query' body' t' i' now' age' pk'
    (Hm : no_char (ascii_of_nat 10) method = true) (Hp : no_char (ascii_of_nat 10) path = true)
    (Hm' : no_char (ascii_of_nat 10) method' = true)
    (Hp' : no_char (ascii_of_nat 10) path' = true)
    (Hacc : verify_signed_action header url m purpose nonce
       (request_payload method path query body) t (Some i) now age = Accepted pk)
    (Hacc' : verify_signed_action header url' m' purpose' nonce'
       (request_payload method' path' query' body') t' (Some i') now' age' = Accepted pk') :
  (url = url' /\ eq_ignore_ascii_case m m' = true /\ purpose = purpose' /\ nonce = nonce' /\
   i = i' /\ pk = pk' /\
   (forall n v v', t = Some (n, v) -> t' = Some (n, v') -> v = v')) /\
  ((to_uppercase method = to_uppercase method' /\ path = path' /\ query = query' /\
    (body = body' \/ sha_clash body body')) \/
   sha_clash (list_byte_of_string (request_descriptor method path query body))
             (list_byte_of_string (request_descriptor method' path' query' body'))).
Proof.
  apply signed_action_exact in Hacc as (ev & Hev & -> & H1 & (mv & H2 & H2') & H3 & H4 & H5 & H6 & H7).
  apply signed_action_exact in Hacc' as (ev' & Hev' & -> & K1 & (mv' & K2 & K2') & K3 & K4 & K5 & K6 & K7).
  destruct Hev as ((b & raw & Hh & Hb & Hev) & _), Hev' as ((b' & raw' & Hh' & Hb' & Hev') & _).
  assert (b' = b) as -> by (apply (inj (String.append "Nostr ")); congruence).
  assert (ev' = ev) as -> by congruence. unfold bound in *. simpl in H7, K7. unfold bound in H7, K7.
  assert (mv' = mv) as -> by congruence.
  split; [split_and!; try congruence|].
  - unfold eq_ignore_ascii_case in *. apply bool_decide_eq_true in H2', K2'.
    apply bool_decide_eq_true. congruence.
  - intros n v v' -> ->. simpl in *. unfold bound in *. congruence.
  - apply request_payload_inj; [done..|congruence].
Qed.

(** Follow the binds of a goal [m <> Panicked]. *)
Ltac no_panic_steps Hbind :=
  lazymatch goal with
  | |- mbind _ _ <> Panicked => apply Hbind; [no_panic_steps Hbind|intros ?; no_panic_steps Hbind]
  | |- _ => auto; try done
  end.

(** No credential makes the server panic: whatever the header says, both
    verifiers answer, although the two constructors they call on the attacker's
    bytes panic on a wrong length. *)
Theorem nip98_never_panics {E : Ext} {C : Nostr} {CL : NostrLaws C} header url m purpose nonce
    payload t i now age :
  verify_nip98 header url m now age <> Panicked /\
  verify_signed_action header url m purpose nonce payload t i now age <> Panicked.
Proof.
  assert (Hor : forall A (o : option A) e, or_reject o e <> Panicked) by (by intros A []).
  assert (Hif : forall b e, reject_if b e <> Panicked) by (by intros []).
  assert (Hbind : forall A B (a : verdict A) (f : A -> verdict B),
    a <> Panicked -> (forall x, f x <> Panicked) -> (a ≫= f) <> Panicked).
  { intros A B [] f Ha Hf; simpl; [apply Hf|done..]. }
  assert (Hone : forall ev n, exactly_one ev n <> Panicked).
  { intros ev n. unfold exactly_one. generalize (@None string).
    induction (ne_tags ev) as [|[|a [|b tg]] tags IH]; intros o; simpl; auto.
    destruct (String.eqb a n); [|auto]. by destruct o. }
  assert (Hsig : forall ev, check_signature ev <> Panicked).
  { intros ev. unfold check_signature. apply Hbind; [auto|]. intros key.
    apply Hbind; [auto|]. intros idb. apply Hbind; [auto|]. intros sg.
    destruct (Nat.eqb_spec (length key) 32); simpl; [|done].
    destruct (Nat.eqb_spec (length idb) 32); simpl; [|done].
    destruct (Nat.eqb_spec (length sg) 64); simpl; [|done].
    apply Hbind.
    - pose proof (schnorr_key_32 key). destruct (schnorr_key key); simpl; naive_solver.
    - intros vk. apply Hbind; [|auto].
      pose proof (schnorr_sig_64 sg). destruct (schnorr_sig sg); simpl; naive_solver. }
  assert (Hparse : parse_authenticated header now age <> Panicked).
  { unfold parse_authenticated. no_panic_steps Hbind. }
  assert (Htag : forall ev n v, bound_tag ev n v <> Panicked)
    by (intros ev n v; unfold bound_tag; auto).
  split.
  - unfold verify_nip98. no_panic_steps Hbind.
  - unfold verify_signed_action, bound_method. no_panic_steps Hbind.
    + destruct t as [[]|]; [apply Htag|done].
    + destruct i; [apply Htag|done].
Qed.

(** * Concrete credentials

    The text of an event is the numeral of its fields; a signature is the key
    followed by the id. *)

Definition event_tuple (ev : Nip98Event) :=
  (ne_id ev, ne_pubkey ev, ne_created_at ev, ne_kind ev, ne_tags ev, ne_content ev, ne_sig ev).

Definition demo_event_text (ev : Nip98Event) : string :=
  pos_to_string (countable.encode (event_tuple ev)).

Definition demo_event_parse (s : string) : option Nip98Event :=
  '(i, p, c, k, t, b, sg) ← pos_of_string s ≫= countable.decode;
  Some (mkNip98Event i p c k t b sg).

#[export] Instance demo_nostr : Nostr | 1000 := {
  base64_decode s := Some (list_byte_of_string s);
  event_from_slice bs := demo_event_parse (string_of_list_byte bs);
  event_json p c k t b := pos_to_string (countable.encode (p, c, k, t, b));
  SchnorrKey := list byte;
  SchnorrSig := list byte;
  schnorr_key bs := if (length bs =? 32)%nat then Built bs else BuildPanic;
  schnorr_sig bs := if (length bs =? 64)%nat then Built bs else BuildPanic;
  verify_raw vk id sg := bool_decide (sg = (vk ++ id)%list);
}.

#[export] Instance demo_nostr_laws : NostrLaws demo_nostr.
Proof.
  split; simpl.
  - intros bs ->. done.
  - intros bs ->. done.
  - intros p c k t b p' c' k' t' b' Heq.
    apply (f_equal pos_of_string) in Heq. rewrite !pos_round_trip in Heq.
    injection Heq as Heq. apply (inj countable.encode) in Heq. by injection Heq.
Qed.

Definition demo_key : list byte := replicate 32 "k"%byte.

(** The credential of [demo_key] with those tags. *)
Definition demo_credential (tags : list (list string)) (created_at : i64) : string :=
  let ev := mkNip98Event "" (hex_encode demo_key) created_at NIP98_KIND tags "" "" in
  let id := sha256 (list_byte_of_string
    (event_json (ne_pubkey ev) created_at NIP98_KIND tags "")) in
  "Nostr " ++ demo_event_text
    (mkNip98Event (hex_encode id) (ne_pubkey ev) created_at NIP98_KIND tags ""
       (hex_encode (demo_key ++ id)%list)).

Definition demo_action_tags (url m purpose nonce payload : string) : list (list string) :=
  [["u"; url]; ["method"; m]; ["purpose"; purpose]; ["challenge"; nonce];
   ["payload"; payload]; ["instance_id"; "i"]].

Definition demo_header : string :=
  demo_credential (demo_action_tags "https://x" "POST" "admin_login" "n"
    (request_payload "POST" "/p" "" [])) 1000.

(** Acceptance as a boolean, which evaluates without comparing terms. *)
Definition accepted_as (v : verdict string) (pk : string) : bool :=
  match v with Accepted k => k =? pk | _ => false end.

Lemma accepted_as_eq v pk : accepted_as v pk = true -> v = Accepted pk.
Proof. destruct v; [|done..]. simpl. by intros ->%String.eqb_eq. Qed.

Lemma demo_accepted m now :
  accepted_as (verify_signed_action demo_header "https://x" m "admin_login" "n"
    (request_payload m "/p" "" []) None (Some "i") now 60) (hex_encode demo_key) = true ->
  verify_signed_action demo_header "https://x" m "admin_login" "n"
    (request_payload m "/p" "" []) None (Some "i") now 60 = Accepted (hex_encode demo_key).
Proof. apply accepted_as_eq. Qed.

Lemma action_binds_one_request_witness :
  verify_signed_action demo_header "https://x" "post" "admin_login" "n"
    (request_payload "post" "/p" "" []) None (Some "i") 1010 60
  = Accepted (hex_encode demo_key) /\
  eq_ignore_ascii_case "post" "POST" = true.
Proof.
  pose proof (demo_accepted "post" 1010 ltac:(vm_compute; reflexivity)) as H1.
  pose proof (demo_accepted "POST" 990 ltac:(vm_compute; reflexivity)) as H2.
  split; [exact H1|].
  destruct (action_binds_one_request demo_header "https://x" "post" "admin_login" "n" "post" "/p"
    "" [] None "i" 1010 60 _ "https://x" "POST" "admin_login" "n" "POST" "/p" "" [] None "i"
    990 60 _ eq_refl eq_refl eq_refl eq_refl H1 H2) as ((_ & Hm & _) & _). exact Hm.
Defined.

(** Stale, early, doubly bound or for another nonce: refused. *)
Example demo_header_refused :
  verify_signed_action demo_header "https://x" "POST" "admin_login" "n"
    (request_payload "POST" "/p" "" []) None (Some "i") 1061 60 = Rejected Expired98 /\
  verify_signed_action demo_header "https://x" "POST" "admin_login" "n"
    (request_payload "POST" "/p" "" []) None (Some "i") 939 60 = Rejected Expired98 /\
  verify_signed_action demo_header "https://x" "POST" "admin_login" "m"
    (request_payload "POST" "/p" "" []) None (Some "i") 1000 60 = Rejected BindingMismatch /\
  verify_nip98 (demo_credential [["u"; "a"]; ["u"; "a"]; ["method"; "GET"]] 0) "a" "GET" 0 60
    = Rejected DuplicateTag /\
  verify_nip98 (demo_credential [["u"; "a"]; ["u"]; ["method"; "GET"]] 0) "a" "get" 0 60
    = Accepted (hex_encode demo_key).
Proof. split_and!; by vm_compute. Qed.
