(* ===== verification/Signatures.v ===== *)
(** [src/core/crypto/signatures.rs]: the signatures of "sign in with your
    wallet", and little-endian bytes ([to_le_bytes]).  The curves are the [k256]
    and [ed25519_dalek] crates'. *)

From Stdlib Require Import ZArith Lia Ascii String Strings.Byte.
From S2P Require Import Prelude RustStr Errors Db Demo Nip98.

Local Open Scope string_scope.

(** * Little-endian bytes *)

(** The low byte of a number. *)
Definition low_byte (x : Z) : byte := default x00 (Byte.of_N (Z.to_N (x mod 256))).

(** [x.to_le_bytes()] of a [k]-byte integer. *)
Fixpoint le_bytes (k : nat) (x : Z) : list byte :=
  match k with
  | O => []
  | S k => low_byte x :: le_bytes k (x / 256)
  end.

(** The number little-endian bytes spell. *)
Fixpoint le_value (bs : list byte) : Z :=
  match bs with
  | [] => 0
  | b :: bs => Z.of_N (Byte.to_N b) + 256 * le_value bs
  end%Z.

Lemma low_byte_value x : Z.of_N (Byte.to_N (low_byte x)) = (x mod 256)%Z.
Proof.
  pose proof (Z.mod_pos_bound x 256 ltac:(lia)) as Hb. unfold low_byte.
  destruct (Byte.of_N (Z.to_N (x mod 256))) as [b|] eqn:E.
  - apply Byte.to_of_N in E. simpl. rewrite E. lia.
  - apply Byte.of_N_None_iff in E. lia.
Qed.

Lemma length_le_bytes k x : length (le_bytes k x) = k.
Proof. revert x. induction k; intros x; simpl; [done|]. by rewrite IHk. Qed.

Lemma le_value_bytes k x : le_value (le_bytes k x) = (x mod 256 ^ Z.of_nat k)%Z.
Proof.
  revert x. induction k as [|k IH]; intros x; cbn [le_bytes le_value].
  - by rewrite Z.mod_1_r.
  - rewrite low_byte_value, IH, Nat2Z.inj_succ, Z.pow_succ_r by lia.
    rewrite Z.rem_mul_r by lia. done.
Qed.

Lemma le_bytes_small k x :
  (0 <= x < 256 ^ Z.of_nat k)%Z -> le_value (le_bytes k x) = x.
Proof. intros Hx. rewrite le_value_bytes. by apply Z.mod_small. Qed.

Lemma le_bytes_inj k x y :
  (0 <= x < 256 ^ Z.of_nat k)%Z -> (0 <= y < 256 ^ Z.of_nat k)%Z ->
  le_bytes k x = le_bytes k y -> x = y.
Proof. intros Hx Hy Heq. by rewrite <- (le_bytes_small k x), <- (le_bytes_small k y), Heq. Qed.

(** * Bitcoin's signed message *)

(** [n] is a [usize]; the casts keep the low bytes. *)
Definition encode_varint (n : u64) : list byte :=
  if (n <? 253)%Z then [low_byte n]
  else if (n <=? 0xFFFF)%Z then xfd :: le_bytes 2 n
  else if (n <=? 0xFFFFFFFF)%Z then xfe :: le_bytes 4 n
  else xff :: le_bytes 8 n.

(** ["\x18Bitcoin Signed Message:\n"]. *)
Definition btc_prefix : list byte :=
  list_byte_of_string (String (ascii_of_nat 24) ("Bitcoin Signed Message:" ++ LF)).

Definition invalid (msg : string) : AppError := ValidationError msg.
Definition unverified : AppError := AuthError "signature verification failed".

Class Curves := {
  EcdsaKey : Type;
  EcdsaSig : Type;
  key_from_sec1 : list byte -> option EcdsaKey;
  ecdsa_sig_from_slice : list byte -> option EcdsaSig;
  verify_prehash : EcdsaKey -> list byte -> EcdsaSig -> bool;
  Ed25519Key : Type;
  ed25519_key : list byte -> option Ed25519Key;   (* from 32 bytes *)
  ed25519_verify : Ed25519Key -> list byte -> list byte -> bool;  (* message, 64 bytes *)
}.

Section verify.
Context `{Ext} `{Nostr} `{Curves}.

(** What is hashed, twice. *)
Definition bitcoin_message (message : string) : list byte :=
  let message_bytes := list_byte_of_string message in
  (btc_prefix ++ encode_varint (Z.of_nat (length message_bytes)) ++ message_bytes)%list.

Definition bitcoin_message_hash (message : string) : list byte :=
  sha256 (sha256 (bitcoin_message message)).

Definition verify_bitcoin_signature (message signature_str pubkey_hex : string)
  : outcome unit :=
  pubkey_bytes ← ok_or (hex_decode pubkey_hex) (invalid "Invalid public key hex");
  verifying_key ← ok_or (key_from_sec1 pubkey_bytes) (invalid "Invalid secp256k1 public key");
  let msg_hash := bitcoin_message_hash message in
  decoded ← ok_or (base64_decode signature_str)
    (invalid "Invalid signature encoding (expected base64)");
  if negb (length decoded =? 65)%nat then Err (invalid "BIP-137 signature must be 65 bytes")
  else
    signature ← ok_or (ecdsa_sig_from_slice (drop 1 decoded)) (invalid "Invalid ECDSA signature");
    if verify_prehash verifying_key msg_hash signature then Ok tt else Err unverified.

Definition verify_ed25519_signature (message signature_hex pubkey_hex : string)
  : outcome unit :=
  pubkey_bytes ← ok_or (hex_decode pubkey_hex) (invalid "Invalid public key hex");
  pubkey_array ← ok_or (if (length pubkey_bytes =? 32)%nat then Some pubkey_bytes else None)
    (invalid "Ed25519 public key must be 32 bytes");
  verifying_key ← ok_or (ed25519_key pubkey_array) (invalid "Invalid Ed25519 public key");
  sig_bytes ← ok_or (hex_decode signature_hex) (invalid "Invalid signature hex");
  signature ← ok_or (if (length sig_bytes =? 64)%nat then Some sig_bytes else None)
    (invalid "Ed25519 signature must be 64 bytes");
  if ed25519_verify verifying_key (list_byte_of_string message) signature
  then Ok tt else Err unverified.
End verify.

(** * The framing of a message *)

(** Reading a varint back. *)
Definition decode_varint (bs : list byte) : option (Z * list byte) :=
  match bs with
  | [] => None
  | b :: rest =>
      let wide k := Some (le_value (take k rest), drop k rest) in
      if Byte.eqb b xfd then wide 2%nat
      else if Byte.eqb b xfe then wide 4%nat
      else if Byte.eqb b xff then wide 8%nat
      else Some (Z.of_N (Byte.to_N b), rest)
  end.

Lemma take_drop_le_bytes k x rest :
  take k (le_bytes k x ++ rest) = le_bytes k x /\ drop k (le_bytes k x ++ rest) = rest.
Proof.
  split.
  - rewrite take_app_length'; [done|by rewrite length_le_bytes].
  - rewrite drop_app_length'; [done|by rewrite length_le_bytes].
Qed.

Lemma low_byte_small_eqb n b :
  (0 <= n < 253)%Z -> (253 <= Z.of_N (Byte.to_N b))%Z -> Byte.eqb (low_byte n) b = false.
Proof.
  intros Hn Hb. apply not_true_iff_false. intros E. apply Byte.byte_dec_bl in E.
  pose proof (low_byte_value n) as Hv. rewrite E, Z.mod_small in Hv by lia. lia.
Qed.

(** Bitcoin's length prefix reads back: for every length a message can
    have, the encoding is a prefix code that gives the length and leaves what
    follows, and it is as short as the format allows. *)
Lemma varint_prefix n rest (Hn : in_u64 n) :
  decode_varint (encode_varint n ++ rest) = Some (n, rest) /\
  length (encode_varint n) =
    (if (n <? 253)%Z then 1 else if (n <=? 0xFFFF)%Z then 3
     else if (n <=? 0xFFFFFFFF)%Z then 5 else 9)%nat.
Proof.
  unfold in_u64, U64_MAX in Hn. unfold encode_varint.
  destruct (Z.ltb_spec n 253).
  { split; [|done]. cbn [app decode_varint].
    rewrite !low_byte_small_eqb by first [lia|by vm_compute].
    by rewrite low_byte_value, Z.mod_small by lia. }
  destruct (Z.leb_spec n 0xFFFF); [|destruct (Z.leb_spec n 0xFFFFFFFF)];
    (split; [|cbn [length]; by rewrite length_le_bytes]).
  - destruct (take_drop_le_bytes 2 n rest) as [Ht Hd].
    cbn [app]. unfold decode_varint. simpl Byte.eqb. cbv iota. rewrite Ht, Hd, le_bytes_small; [done|].
    change (256 ^ Z.of_nat 2)%Z with 65536%Z. lia.
  - destruct (take_drop_le_bytes 4 n rest) as [Ht Hd].
    cbn [app]. unfold decode_varint. simpl Byte.eqb. cbv iota. rewrite Ht, Hd, le_bytes_small; [done|].
    change (256 ^ Z.of_nat 4)%Z with 4294967296%Z. lia.
  - destruct (take_drop_le_bytes 8 n rest) as [Ht Hd].
    cbn [app]. unfold decode_varint. simpl Byte.eqb. cbv iota. rewrite Ht, Hd, le_bytes_small; [done|].
    change (256 ^ Z.of_nat 8)%Z with (2 ^ 64)%Z. lia.
Qed.

(** Distinct messages are framed differently, so they are never signed as one. *)
Lemma bitcoin_message_inj m m' :
  in_u64 (Z.of_nat (length (list_byte_of_string m))) ->
  in_u64 (Z.of_nat (length (list_byte_of_string m'))) ->
  bitcoin_message m = bitcoin_message m' -> m = m'.
Proof.
  intros Hm Hm' Heq. unfold bitcoin_message in Heq. apply (inj (app btc_prefix)) in Heq.
  destruct (varint_prefix _ (list_byte_of_string m) Hm) as [H1 _].
  destruct (varint_prefix _ (list_byte_of_string m') Hm') as [H2 _].
  rewrite Heq, H2 in H1. injection H1 as _ Hb.
  apply (f_equal string_of_list_byte) in Hb. by rewrite !string_of_list_byte_of_string in Hb.
Qed.

(** What "sign in with your wallet" accepts.  A Bitcoin signature is
    accepted exactly when the key, the encoding and the 65 bytes parse and the
    curve verifies it against the doubled SHA-256 of the framed message; every
    refusal is a 400 for a malformed input and a 401 for a well-formed signature
    that does not match; and two messages are framed alike only if they are
    equal. *)
Theorem bitcoin_signature_exact {E : Ext} {N : Nostr} {C : Curves} m s pk :
  (verify_bitcoin_signature m s pk = Ok tt <->
   exists kb key sb sg, hex_decode pk = Some kb /\ key_from_sec1 kb = Some key /\
     base64_decode s = Some sb /\ length sb = 65%nat /\
     ecdsa_sig_from_slice (drop 1 sb) = Some sg /\
     verify_prehash key (sha256 (sha256 (bitcoin_message m))) sg = true) /\
  (forall e, verify_bitcoin_signature m s pk = Err e ->
     er_status (into_response e) = 400%nat \/
     (e = unverified /\ er_status (into_response e) = 401%nat)) /\
  verify_bitcoin_signature m s pk <> Panic /\
  (forall m', in_u64 (Z.of_nat (length (list_byte_of_string m))) ->
     in_u64 (Z.of_nat (length (list_byte_of_string m'))) ->
     bitcoin_message m = bitcoin_message m' -> m = m').
Proof.
  split_and!; [..|intros m' Hm Hm'; by apply bitcoin_message_inj];
    unfold verify_bitcoin_signature.
  - rewrite bind_Ok. setoid_rewrite ok_or_Ok. setoid_rewrite bind_Ok. setoid_rewrite ok_or_Ok.
    setoid_rewrite bind_Ok. setoid_rewrite ok_or_Ok. split.
    + intros (kb & Hkb & key & Hkey & sb & Hsb & Hrest).
      destruct (Nat.eqb_spec (length sb) 65); simpl in Hrest; [|done].
      apply bind_Ok in Hrest as (sg & Hsg%ok_or_Ok & Hv). case_hyp Hv; [|done].
      by exists kb, key, sb, sg.
    + intros (kb & key & sb & sg & Hkb & Hkey & Hsb & Hl & Hsg & Hv).
      exists kb. split; [done|]. exists key. split; [done|]. exists sb. split; [done|].
      rewrite Hl. simpl. rewrite Hsg. simpl. unfold bitcoin_message_hash. by rewrite Hv.
  - intros e.
    destruct (hex_decode pk) as [kb|]; simpl; [|by intros [= <-]; left].
    destruct (key_from_sec1 kb) as [key|]; simpl; [|by intros [= <-]; left].
    destruct (base64_decode s) as [sb|]; simpl; [|by intros [= <-]; left].
    destruct (length sb =? 65)%nat; simpl; [|by intros [= <-]; left].
    destruct (ecdsa_sig_from_slice _) as [sg|]; simpl; [|by intros [= <-]; left].
    destruct (verify_prehash _ _ _); simpl; [done|]. intros [= <-]. by right.
  - destruct (hex_decode pk) as [kb|]; simpl; [|done].
    destruct (key_from_sec1 kb) as [key|]; simpl; [|done].
    destruct (base64_decode s) as [sb|]; simpl; [|done].
    destruct (length sb =? 65)%nat; simpl; [|done].
    destruct (ecdsa_sig_from_slice _) as [sg|]; simpl; [|done].
    by destruct (verify_prehash _ _ _).
Qed.
