(* ===== verification/Challenges.v ===== *)
(** [src/infra/db/challenges.rs]: the store of single-use nonces behind every
    signed action. *)

From Stdlib Require Import ZArith Lia Ascii String.
From S2P Require Import Prelude RustStr Errors Db Effects TipStatus SocialTips Demo Nip98 Signatures.

Local Open Scope string_scope.

Definition NONCE_BYTES : nat := 32.

(** The hexadecimal form of 32 random bytes: a random 256-bit number. *)
Definition nonce_of `{Ext} (r : Uuid) : string := hex_encode (le_bytes NONCE_BYTES (Z.of_N r)).

Definition sql_issue_challenge (nonce purpose : string) (subject : option string)
    (ttl_secs : i64) : Stmt unit := fun now d =>
  match challenges d !! nonce with
  | Some _ => inl (PgUniqueViolation "challenges_pkey")
  | None =>
      inr (d <|challenges := <[nonce := mkChallenge nonce purpose subject now
                                          (now + ttl_secs * SECOND)%Z]> (challenges d)|>, tt)
  end.

Definition consumable (now : Time) (purpose : string) (c : Challenge) : bool :=
  (ch_purpose c =? purpose) && (now <? ch_expires_at c)%Z.

(** [ConsumedChallenge]. *)
Record ConsumedChallenge := mkConsumedChallenge { cc_subject : option string }.

(** [DELETE .. RETURNING subject]. *)
Definition sql_consume_challenge (nonce purpose : string) : Stmt (option ConsumedChallenge) :=
  fun now d =>
    match challenges d !! nonce with
    | Some c =>
        if consumable now purpose c
        then inr (d <|challenges := delete nonce (challenges d)|>,
                  Some (mkConsumedChallenge (ch_subject c)))
        else inr (d, None)
    | None => inr (d, None)
    end.

(** [DELETE FROM challenges WHERE expires_at <= NOW()]: the rows affected. *)
Definition sql_delete_expired_challenges : Stmt Z := fun now d =>
  inr (d <|challenges := base.filter (fun kv => (now < ch_expires_at (snd kv))%Z) (challenges d)|>,
       Z.of_nat (length (base.filter (fun kv => (ch_expires_at (snd kv) <= now)%Z)
                           (map_to_list (challenges d))))).

Section methods.
Context `{Ext}.

Definition issue_challenge_nonce (purpose : string) (subject : option string)
    (ttl_secs : i64) : M string :=
  r ← gen_random_uuid;
  let nonce := nonce_of r in
  _ ← query (sql_issue_challenge nonce purpose subject ttl_secs);
  mret nonce.

Definition consume_challenge (nonce purpose : string) : M (option ConsumedChallenge) :=
  query (sql_consume_challenge nonce purpose).

Definition delete_expired_challenges : M Z := query sql_delete_expired_challenges.
End methods.

(** * A nonce is honoured once *)

(** The steps of the system on the table, [nonce] not being drawn again (32
    random bytes). *)
Inductive challenge_step (nonce : string) : Rel :=
| cs_issue n p s ttl t d d' :
    n <> nonce -> sql_issue_challenge n p s ttl t d = inr (d', tt) -> challenge_step nonce t d d'
| cs_consume n p t d d' r :
    sql_consume_challenge n p t d = inr (d', r) -> challenge_step nonce t d d'
| cs_cleanup t d d' n :
    sql_delete_expired_challenges t d = inr (d', n) -> challenge_step nonce t d d'
| cs_other t d d' : challenges d' = challenges d -> challenge_step nonce t d d'.

Definition nonce_gone (nonce : string) (d : Db) : Prop := challenges d !! nonce = None.

Lemma consume_Some nonce purpose t d d' c :
  sql_consume_challenge nonce purpose t d = inr (d', Some c) <->
  exists row, challenges d !! nonce = Some row /\ ch_purpose row = purpose /\
    (t < ch_expires_at row)%Z /\ c = mkConsumedChallenge (ch_subject row) /\
    d' = d <|challenges := delete nonce (challenges d)|>.
Proof.
  unfold sql_consume_challenge, consumable.
  destruct (challenges d !! nonce) as [row|]; [|naive_solver].
  destruct (String.eqb_spec (ch_purpose row) purpose); simpl;
    [destruct (Z.ltb_spec t (ch_expires_at row)); simpl|].
  - split; [intros [= <- <-]; eauto 10|]. intros (r & [= <-] & _ & _ & -> & ->). done.
  - split; [done|]. intros (r & [= <-] & _ & ? & _). lia.
  - split; [done|]. by intros (r & [= <-] & ? & _).
Qed.

Lemma nonce_gone_stable nonce : stable (challenge_step nonce) (nonce_gone nonce).
Proof.
  intros t d d' Hs Hd. unfold nonce_gone in *.
  destruct Hs as [n p s ttl t d d' Hne E|n p t d d' r E|t d d' n E|t d d' E].
  - unfold sql_issue_challenge in E. case_hyp E; [done|]. injection E as <-. simpl.
    by rewrite lookup_insert_ne.
  - destruct r as [c|].
    + apply consume_Some in E as (row & _ & _ & _ & _ & ->). simpl.
      by apply lookup_delete_None; right.
    + unfold sql_consume_challenge in E. repeat case_hyp E; by injection E as <-.
  - injection E as <- _. simpl. by apply map_lookup_filter_None_2; left.
  - by rewrite E.
Qed.

(** A consumption under a schedule. *)
Lemma consume_run `{Ext} nonce purpose w w' c :
  consume_challenge nonce purpose w = (w', Ok (Some c)) -> nonce_gone nonce (w_db w').
Proof.
  unfold consume_challenge, query, run_stmt. destruct (next_slot w) as [sl w0].
  destruct (sql_consume_challenge _ _ _ _) as [e|[d r]] eqn:E; destruct (sl_fault sl);
    intros [= <- Hr]; subst; try done; simpl.
  apply consume_Some in E as (row & _ & _ & _ & _ & ->). unfold nonce_gone. simpl.
  apply lookup_delete_eq.
Qed.

Lemma consume_gone_triple `{Ext} nonce purpose :
  triple (fun _ => True) (challenge_step nonce) (nonce_gone nonce)
    (consume_challenge nonce purpose) (fun r => r = None).
Proof.
  apply triple_stmt; [apply nonce_gone_stable|]. intros t d d' r Hd E.
  split; [apply (steps_once _ t); by eapply cs_consume|].
  destruct r as [c|]; [|done]. apply consume_Some in E as (row & Hrow & _).
  unfold nonce_gone in Hd. congruence.
Qed.

(** A nonce is honoured at most once.  After a successful consumption no
    other one of the same nonce ever succeeds, for any purpose, whatever the
    other tasks and nodes issue, consume and clean up before, between and during
    the two; and a consumption succeeds only on a row of that purpose that has
    not expired, of which it gives the subject. *)
Theorem nonce_single_use `{Ext} nonce purpose purpose' w w1 c w2 w3 o
    (Hfirst : consume_challenge nonce purpose w = (w1, Ok (Some c)))
    (Hlater : steps (challenge_step nonce) (w_db w1) (w_db w2))
    (Hok : sched_ok (challenge_step nonce) (w_sched w2))
    (Hsecond : consume_challenge nonce purpose' w2 = (w3, o)) :
  (forall c', o <> Ok (Some c')) /\
  let sl := (next_slot w).1 in
  let now := (w_now w + Z.of_N (sl_dt sl))%Z in
  exists row, challenges (sl_env sl now (w_db w)) !! nonce = Some row /\
    ch_purpose row = purpose /\ (now < ch_expires_at row)%Z /\ cc_subject c = ch_subject row.
Proof.
  split.
  - pose proof (consume_run _ _ _ _ _ Hfirst) as Hgone.
    apply (steps_stable _ _ _ _ (nonce_gone_stable nonce) Hlater) in Hgone.
    destruct (triple_run _ _ _ _ _ _ _ _ (consume_gone_triple nonce purpose')
      Logic.I Hok Hgone Hsecond) as (_ & _ & Hno).
    intros c' ->. by specialize (Hno _ eq_refl).
  - revert Hfirst. unfold consume_challenge, query, run_stmt, next_slot.
    destruct (w_sched w) as [|sl rest]; simpl.
    + destruct (sql_consume_challenge _ _ _ _) as [e|[d r]] eqn:E; intros [= <- Hr]; subst.
      apply consume_Some in E as (row & ? & ? & ? & -> & _). simpl in *. eauto.
    + destruct (sql_consume_challenge _ _ _ _) as [e|[d r]] eqn:E; destruct (sl_fault sl);
        intros [= <- Hr]; subst; try done.
      apply consume_Some in E as (row & ? & ? & ? & -> & _). simpl in *. eauto.
Qed.

Definition demo_nonce_db : Db :=
  empty_db <|challenges := {["n" := mkChallenge "n" "admin_login" None 0 (5 * MINUTE)]}|>.

Definition demo_consumed : World * outcome (option ConsumedChallenge) :=
  consume_challenge "n" "admin_login" (quiet_world demo_nonce_db MINUTE).

Lemma nonce_single_use_witness :
  demo_consumed.2 = Ok (Some (mkConsumedChallenge None)) /\
  (consume_challenge "n" "admin_login" demo_consumed.1).2
    <> Ok (Some (mkConsumedChallenge None)).
Proof.
  split; [by vm_compute|].
  apply (nonce_single_use "n" "admin_login" "admin_login" (quiet_world demo_nonce_db MINUTE)
    demo_consumed.1 (mkConsumedChallenge None) demo_consumed.1
    (consume_challenge "n" "admin_login" demo_consumed.1).1).
  - by vm_compute.
  - apply steps_refl.
  - apply sched_ok_nil.
  - apply surjective_pairing.
Defined.
