(* ===== verification/Events.v ===== *)
(** The event tables: [src/infra/db/login_events.rs] (with the retention sweep),
    [src/infra/db/restore_attempts.rs] and [src/infra/db/audit.rs]. *)

From Stdlib Require Import ZArith Lia Ascii String.
From S2P Require Import Prelude RustStr Errors Db Effects TipStatus SocialTips Pepper Demo.

Local Open Scope string_scope.

Definition MAX_RETENTION_DAYS : u64 := 1000000.

Definition interval_days (days : u64) : i32 := as_i32 (Z.min days MAX_RETENTION_DAYS).

(** * Login events *)

Definition known_user (d : Db) (u : option Uuid) : bool :=
  match u with Some u => is_user d u | None => true end.

Definition sql_record_login_event (k : Uuid) (user_id : option Uuid) (asset platform : string)
    (origin : option string) : Stmt unit := fun now d =>
  if is_some (login_events d !! k) then inl (PgUniqueViolation "login_events_pkey")
  else if negb (known_user d user_id)
  then inl (PgForeignKeyViolation "login_events_user_id_fkey")
  else inr (d <|login_events := <[k := mkLoginEvent k user_id asset platform origin None now]>
                  (login_events d)|>, tt).

Record LoginStats := mkLoginStats {
  ls_asset : string; ls_platform : string; ls_login_count : i64; ls_unique_users : i64 }.

Definition recent_events (days : i32) (now : Time) (d : Db) : list LoginEvent :=
  base.filter (fun e => (now - days * DAY < le_created_at e)%Z) (snd <$> map_to_list (login_events d)).

(** One group of the [GROUP BY]; NULL users are not counted as distinct. *)
Definition login_group (es : list LoginEvent) (k : string * string) : LoginStats :=
  let g := base.filter (fun e => (le_asset e, le_platform e) = k) es in
  mkLoginStats (fst k) (snd k) (Z.of_nat (length g))
    (Z.of_nat (length (remove_dups (omap le_user_id g)))).

Definition more_logins (a b : LoginStats) : Prop := (ls_login_count b <= ls_login_count a)%Z.
#[export] Instance more_logins_dec a b : Decision (more_logins a b).
Proof. unfold more_logins. apply _. Defined.

Definition sql_login_counts (days : i32) : Stmt (list LoginStats) := fun now d =>
  let es := recent_events days now d in
  inr (d, merge_sort more_logins
            (login_group es <$> remove_dups ((fun e => (le_asset e, le_platform e)) <$> es))).

Definition sql_delete_login_events (u : Uuid) : Stmt Z := fun _ d =>
  inr (d <|login_events := base.filter (fun kv => le_user_id kv.2 <> Some u) (login_events d)|>,
       Z.of_nat (length (base.filter (fun kv => le_user_id kv.2 = Some u)
                           (map_to_list (login_events d))))).

(** * The batched deletions *)

(** The ids of the [batch] oldest rows created before [cutoff]. *)
Definition older {A} (created : A -> Time) (a b : Uuid * A) : Prop :=
  (created a.2 <= created b.2)%Z.
#[export] Instance older_dec {A} (created : A -> Time) a b : Decision (older created a b).
Proof. unfold older. apply _. Defined.

Definition expired_rows {A} (created : A -> Time) (cutoff : Time) (rows : gmap Uuid A)
  : list (Uuid * A) :=
  base.filter (fun kv => (created kv.2 < cutoff)%Z) (map_to_list rows).

Definition oldest_batch {A} (created : A -> Time) (cutoff : Time) (batch : Z)
    (rows : gmap Uuid A) : list Uuid :=
  fst <$> take (Z.to_nat batch) (merge_sort (older created) (expired_rows created cutoff rows)).

Definition delete_ids {A} (ids : list Uuid) (rows : gmap Uuid A) : gmap Uuid A :=
  base.filter (fun kv => kv.1 ∉ ids) rows.

(** Rows locked by another statement are skipped in Postgres; a statement of the
    model finds none. *)
Definition sql_cleanup_login_events (days : i32) (batch : i64) : Stmt Z := fun now d =>
  let ids := oldest_batch le_created_at (now - days * DAY)%Z batch (login_events d) in
  inr (d <|login_events := delete_ids ids (login_events d)|>, Z.of_nat (length ids)).

Definition sql_cleanup_audit_logs (days : i32) (batch : i64) : Stmt Z := fun now d =>
  let ids := oldest_batch au_created_at (now - days * DAY)%Z batch (audit_logs d) in
  inr (d <|audit_logs := delete_ids ids (audit_logs d)|>, Z.of_nat (length ids)).

(** [UPDATE .. WHERE id IN (SELECT .. LIMIT $1)]: some [batch] of the rows. *)
Definition hashed_batch (batch : i64) (d : Db) : list Uuid :=
  take (Z.to_nat batch)
    (fst <$> base.filter (fun kv => is_Some (le_ip_hash kv.2)) (map_to_list (login_events d))).

Definition sql_scrub_ip_hashes (batch : i64) : Stmt Z := fun _ d =>
  let ids := hashed_batch batch d in
  inr (d <|login_events := map_imap
             (fun k e => Some (if bool_decide (k ∈ ids) then e <|le_ip_hash := None|> else e))
             (login_events d)|>, Z.of_nat (length ids)).

(** * Restore attempts *)

Definition sql_record_restore_attempt (k : Uuid) (fp : string) (ip_hash : option string)
    (success : bool) : Stmt unit := fun now d =>
  if is_some (restore_attempts d !! k) then inl (PgUniqueViolation "restore_attempts_pkey")
  else inr (d <|restore_attempts := <[k := mkRestoreAttempt k fp ip_hash success now]>
                  (restore_attempts d)|>, tt).

Definition failed_for (fp : string) (now : Time) (a : RestoreAttempt) : bool :=
  (ra_fingerprint a =? fp) && negb (ra_success a) && (now - HOUR <? ra_created_at a)%Z.

Definition from_ip (ip_hash : string) (now : Time) (a : RestoreAttempt) : bool :=
  sql_eq (ra_ip_hash a) ip_hash && (now - HOUR <? ra_created_at a)%Z.

Definition count_attempts (p : RestoreAttempt -> bool) (d : Db) : Z :=
  Z.of_nat (length (base.filter (fun a => p a = true) (snd <$> map_to_list (restore_attempts d)))).

Definition sql_count_failed (fp : string) : Stmt Z := fun now d =>
  inr (d, count_attempts (failed_for fp now) d).
Definition sql_count_ip (ip_hash : string) : Stmt Z := fun now d =>
  inr (d, count_attempts (from_ip ip_hash now) d).

Definition sql_cleanup_restore_attempts : Stmt Z := fun now d =>
  inr (d <|restore_attempts :=
             base.filter (fun kv => ~ (ra_created_at kv.2 < now - 7 * DAY)%Z) (restore_attempts d)|>,
       count_attempts (fun a => (ra_created_at a <? now - 7 * DAY)%Z) d).

(** * The audit log *)

Record NewAuditLog := mkNewAuditLog {
  nau_user_id : option Uuid; nau_action : AuditAction; nau_resource_type : option string;
  nau_resource_id : option Uuid; nau_details : option string; nau_user_agent : option string }.

Definition sql_create_audit_log (k : Uuid) (n : NewAuditLog) : Stmt AuditLog := fun now d =>
  if is_some (audit_logs d !! k) then inl (PgUniqueViolation "audit_logs_pkey")
  else if negb (known_user d (nau_user_id n))
  then inl (PgForeignKeyViolation "audit_logs_user_id_fkey")
  else
    let a := mkAuditLog k (nau_user_id n) (nau_action n) (nau_resource_type n)
               (nau_resource_id n) (nau_details n) (nau_user_agent n) now in
    inr (d <|audit_logs := <[k := a]> (audit_logs d)|>, a).

Definition newest_audit (a b : AuditLog) : Prop := (au_created_at b <= au_created_at a)%Z.
#[export] Instance newest_audit_dec a b : Decision (newest_audit a b).
Proof. unfold newest_audit. apply _. Defined.

Definition audit_of (u : Uuid) (action : option AuditAction) (a : AuditLog) : bool :=
  sql_eq (au_user_id a) u
  && match action with Some x => bool_decide (au_action a = x) | None => true end.

Definition sql_user_audit_logs (u : Uuid) (action : option AuditAction) (limit : i64)
  : Stmt (list AuditLog) := fun _ d =>
  inr (d, take (Z.to_nat limit) (merge_sort newest_audit
    (base.filter (fun a => audit_of u action a = true) (snd <$> map_to_list (audit_logs d))))).

Section methods.
Context `{Ext} `{Hmac} (identity_pepper ip_salt : string).

Definition hash_ip (ip : string) : string := peppered_hex ip_salt "ip" ip.

(** [_ip] is dropped. *)
Definition record_login_event (user_id : option Uuid) (asset platform : string)
    (origin _ip : option string) : M unit :=
  k ← gen_random_uuid;
  query (sql_record_login_event k user_id asset platform origin).

Definition get_login_counts_recent (days : i32) : M (list LoginStats) :=
  query (sql_login_counts days).

Definition delete_login_events_for_user (u : Uuid) : M Z := query (sql_delete_login_events u).

Definition cleanup_old_login_events (days : u64) (batch : i64) : M Z :=
  if (days =? 0)%Z || (batch <=? 0)%Z then mret 0%Z
  else query (sql_cleanup_login_events (interval_days days) batch).

Definition cleanup_old_audit_logs (days : u64) (batch : i64) : M Z :=
  if (days =? 0)%Z || (batch <=? 0)%Z then mret 0%Z
  else query (sql_cleanup_audit_logs (interval_days days) batch).

Definition load_scrub_done : M bool := in_memory (fun _ d => (d, ip_hash_scrub_done d)).
Definition store_scrub_done : M unit :=
  in_memory (fun _ d => (d <|ip_hash_scrub_done := true|>, tt)).

Definition scrub_legacy_login_ip_hashes (batch : i64) : M Z :=
  if (batch <=? 0)%Z then mret 0%Z
  else
    latched ← load_scrub_done;
    if latched : bool then mret 0%Z
    else
      scrubbed ← query (sql_scrub_ip_hashes batch);
      _ ← (if (scrubbed <? as_u64 batch)%Z then store_scrub_done else mret tt);
      mret scrubbed.

Definition run_retention_sweep (login_events_days audit_days : u64) (batch : i64) : M Z :=
  logins ← cleanup_old_login_events login_events_days batch;
  audits ← cleanup_old_audit_logs audit_days batch;
  _ ← scrub_legacy_login_ip_hashes batch;
  lift (or_panic (u64_checked_add logins audits)).

Definition record_restore_attempt (fingerprint : string) (ip : option string) (success : bool)
  : M unit :=
  let fp := peppered_hex identity_pepper "restore_fingerprint" fingerprint in
  k ← gen_random_uuid;
  query (sql_record_restore_attempt k fp (hash_ip <$> ip) success).

Definition count_failed_restore_attempts (fingerprint : string) : M Z :=
  query (sql_count_failed (peppered_hex identity_pepper "restore_fingerprint" fingerprint)).

Definition count_ip_restore_attempts (ip : string) : M Z := query (sql_count_ip (hash_ip ip)).

Definition cleanup_old_restore_attempts : M Z := query sql_cleanup_restore_attempts.

Definition create_audit_log (n : NewAuditLog) : M AuditLog :=
  k ← gen_random_uuid; query (sql_create_audit_log k n).

Definition log_action (user_id : option Uuid) (action : AuditAction)
    (resource_type : option string) (resource_id : option Uuid)
    (details user_agent : option string) : M unit :=
  _ ← create_audit_log
        (mkNewAuditLog user_id action resource_type resource_id details user_agent);
  mret tt.

Definition get_user_audit_logs (u : Uuid) (action : option AuditAction) (limit : i64)
  : M (list AuditLog) := query (sql_user_audit_logs u action limit).
End methods.

(** * The retention sweep drains its backlog *)

(** How many of those times are before the cutoff. *)
Definition backlog (cutoff : Time) (ages : gmap Uuid Time) : nat :=
  size (base.filter (fun kv => (kv.2 < cutoff)%Z) ages).

Definition aged {A} (created : A -> Time) (days : u64) (batch : i64) (now : Time)
    (rows : gmap Uuid A) : gmap Uuid A :=
  if (days =? 0)%Z then rows
  else delete_ids (oldest_batch created (now - interval_days days * DAY)%Z batch rows) rows.

Section batches.
Context {A : Type} (created : A -> Time) (cutoff : Time) (batch : Z) (rows : gmap Uuid A).

Lemma elem_expired_rows k x :
  (k, x) ∈ expired_rows created cutoff rows <-> rows !! k = Some x /\ (created x < cutoff)%Z.
Proof. unfold expired_rows. rewrite list_elem_of_filter, elem_of_map_to_list. simpl. naive_solver. Qed.

Lemma length_expired_rows : length (expired_rows created cutoff rows) = backlog cutoff (created <$> rows).
Proof.
  unfold backlog, expired_rows. rewrite map_filter_fmap, map_size_fmap.
  rewrite <- length_map_to_list, map_to_list_filter. f_equal. apply list_filter_iff. by intros [].
Qed.

Lemma oldest_batch_expired k :
  k ∈ oldest_batch created cutoff batch rows ->
  exists x, rows !! k = Some x /\ (created x < cutoff)%Z.
Proof.
  unfold oldest_batch. rewrite list_elem_of_fmap. intros ([k' x] & -> & Hin).
  apply elem_of_take in Hin as (i & Hin & _). apply list_elem_of_lookup_2 in Hin.
  rewrite merge_sort_Permutation in Hin. apply elem_expired_rows in Hin. by exists x.
Qed.

Lemma NoDup_oldest_batch : NoDup (oldest_batch created cutoff batch rows).
Proof.
  unfold oldest_batch. rewrite fmap_take.
  eapply sublist_NoDup; [|apply sublist_take]. rewrite merge_sort_Permutation. unfold expired_rows.
  rewrite <- map_to_list_filter. apply NoDup_fst_map_to_list.
Qed.

Lemma length_oldest_batch :
  length (oldest_batch created cutoff batch rows)
  = (Z.to_nat batch `min` backlog cutoff (created <$> rows))%nat.
Proof.
  unfold oldest_batch. rewrite length_fmap, length_take, merge_sort_Permutation.
  by rewrite length_expired_rows.
Qed.

Lemma lookup_delete_ids ids k x :
  delete_ids ids rows !! k = Some x <-> rows !! k = Some x /\ k ∉ ids.
Proof. apply map_lookup_filter_Some. Qed.

Lemma backlog_delete :
  backlog cutoff (created <$> delete_ids (oldest_batch created cutoff batch rows) rows)
  = (backlog cutoff (created <$> rows) - Z.to_nat batch)%nat.
Proof.
  set (ids := oldest_batch created cutoff batch rows).
  set (old := base.filter (fun kv => (created kv.2 < cutoff)%Z) rows).
  assert (Hold : backlog cutoff (created <$> rows) = size (dom old)).
  { unfold backlog. rewrite map_filter_fmap, map_size_fmap. by rewrite size_dom. }
  assert (Hnew : backlog cutoff (created <$> delete_ids ids rows)
                 = size (dom old ∖ list_to_set (C:=gset Uuid) ids)).
  { unfold backlog. rewrite map_filter_fmap, map_size_fmap, <- size_dom. f_equal.
    apply set_eq. intros k. rewrite elem_of_difference, !elem_of_dom, elem_of_list_to_set.
    split.
    - intros [x Hx]. apply map_lookup_filter_Some in Hx as [Hx Hc].
      apply lookup_delete_ids in Hx as [Hx Hn]. split; [|done]. exists x.
      by apply map_lookup_filter_Some.
    - intros [[x Hx] Hn]. apply map_lookup_filter_Some in Hx as [Hx Hc]. exists x.
      apply map_lookup_filter_Some. split; [|done]. by apply lookup_delete_ids. }
  rewrite Hnew, size_difference, size_list_to_set by (apply NoDup_oldest_batch ||
    (intros k; rewrite elem_of_list_to_set; intros (x & Hx & Hc)%oldest_batch_expired;
     apply elem_of_dom; exists x; by apply map_lookup_filter_Some)).
  unfold ids. rewrite length_oldest_batch, Hold. lia.
Qed.
End batches.

(** A window of that many days, of a million at most. *)
Definition window (days : u64) : Z := (Z.min days 1000000 * DAY)%Z.

Lemma interval_window days : in_u64 days -> (interval_days days * DAY = window days)%Z.
Proof.
  intros [Hd _]. unfold interval_days, window, MAX_RETENTION_DAYS. f_equal. unfold as_i32.
  rewrite Z.mod_small by lia. by rewrite (proj2 (Z.ltb_lt _ _)) by lia.
Qed.

(** The rows of a table that survive its window; no days mean no end. *)
Definition kept (days : u64) (now t : Time) : Prop :=
  days = 0%Z \/ (now - window days <= t)%Z.

Definition window_backlog (days : u64) (now : Time) (ages : gmap Uuid Time) : nat :=
  if (days =? 0)%Z then 0%nat else backlog (now - window days)%Z ages.

(** What a pass may do to the ages of a table: rows of the window stay, nothing
    appears, and the backlog shrinks by a batch. *)
Definition aged_pass (days : u64) (batch : i64) (now : Time) (a a' : gmap Uuid Time) : Prop :=
  (forall k t, a' !! k = Some t -> a !! k = Some t) /\
  (forall k t, a !! k = Some t -> kept days now t -> a' !! k = Some t) /\
  window_backlog days now a' = (window_backlog days now a - Z.to_nat batch)%nat.

Lemma aged_pass_rows {A} (created : A -> Time) days batch now rows :
  in_u64 days -> (days =? 0)%Z = false ->
  aged_pass days batch now (created <$> rows)
    (created <$> delete_ids (oldest_batch created (now - interval_days days * DAY)%Z batch rows) rows).
Proof.
  intros Hin Hd. rewrite (interval_window days Hin). split_and!.
  - intros k t. rewrite !lookup_fmap. intros (x & Hx & ->)%fmap_Some.
    apply lookup_delete_ids in Hx as [-> _]. done.
  - intros k t. rewrite !lookup_fmap. intros (x & Hx & ->)%fmap_Some Hk.
    apply fmap_Some. exists x. split; [|done]. apply lookup_delete_ids. split; [done|].
    intros (y & Hy & Hlt)%oldest_batch_expired. destruct Hk as [->|Hk]; [done|].
    assert (y = x) as -> by congruence. lia.
  - unfold window_backlog. rewrite Hd. apply backlog_delete.
Qed.

Lemma aged_pass_none days batch now a : (days =? 0)%Z = true -> aged_pass days batch now a a.
Proof. intros Hd. split_and!; [done..|]. unfold window_backlog. by rewrite Hd. Qed.

(** The ages of the two swept tables. *)
Definition login_ages (d : Db) : gmap Uuid Time := le_created_at <$> login_events d.
Definition audit_ages (d : Db) : gmap Uuid Time := au_created_at <$> audit_logs d.

(** Only the two tables and the latch of the scrub change, and they only lose rows and
    legacy hashes. *)
Definition outside_sweep (d d' : Db) : Prop :=
  (exists m a s, d' = d <|login_events := m|> <|audit_logs := a|> <|ip_hash_scrub_done := s|>) /\
  (forall k a, audit_logs d' !! k = Some a -> audit_logs d !! k = Some a) /\
  (forall k e', login_events d' !! k = Some e' -> exists e, login_events d !! k = Some e /\
     (e' = e \/ e' = e <|le_ip_hash := None|>)).

Lemma outside_sweep_refl d : outside_sweep d d.
Proof.
  split_and!; [|naive_solver..].
  exists (login_events d), (audit_logs d), (ip_hash_scrub_done d). by destruct d.
Qed.

Lemma scrub_ages batch d t d' n :
  sql_scrub_ip_hashes batch t d = inr (d', n) -> login_ages d' = login_ages d.
Proof.
  intros [= <- _]. unfold login_ages. simpl. apply map_eq. intros k.
  rewrite !lookup_fmap, map_lookup_imap. destruct (login_events d !! k); simpl; [|done].
  by case_match.
Qed.

Section passes.
Context `{Ext} (login_days audit_days : u64) (batch : i64).
Hypothesis Hbatch : (0 < batch <= I64_MAX)%Z.
Hypothesis Hlogin : in_u64 login_days.
Hypothesis Haudit : in_u64 audit_days.

Lemma cleanup_login_quiet w :
  w_sched w = [] ->
  exists m n, cleanup_old_login_events login_days batch w =
      (w <|w_db := (w_db w) <|login_events := m|> |>, Ok n) /\ (0 <= n <= batch)%Z /\
    aged_pass login_days batch (w_now w) (login_ages (w_db w)) (le_created_at <$> m) /\
    (forall k e, m !! k = Some e -> login_events (w_db w) !! k = Some e).
Proof.
  intros Hq. unfold cleanup_old_login_events.
  rewrite (proj2 (Z.leb_gt batch 0)) by lia. rewrite orb_false_r.
  destruct (login_days =? 0)%Z eqn:Ed.
  - exists (login_events (w_db w)), 0%Z. split_and!; [|lia|lia|by apply aged_pass_none|done].
    by destruct w as [[]].
  - unfold query. rewrite run_stmt_quiet by done. simpl. do 2 eexists. split; [reflexivity|].
    split; [|split; [by apply aged_pass_rows|]].
    + rewrite length_oldest_batch. lia.
    + intros k e. by intros [? _]%lookup_delete_ids.
Qed.

Lemma cleanup_audit_quiet w :
  w_sched w = [] ->
  exists m n, cleanup_old_audit_logs audit_days batch w =
      (w <|w_db := (w_db w) <|audit_logs := m|> |>, Ok n) /\ (0 <= n <= batch)%Z /\
    aged_pass audit_days batch (w_now w) (audit_ages (w_db w)) (au_created_at <$> m) /\
    (forall k a, m !! k = Some a -> audit_logs (w_db w) !! k = Some a).
Proof.
  intros Hq. unfold cleanup_old_audit_logs.
  rewrite (proj2 (Z.leb_gt batch 0)) by lia. rewrite orb_false_r.
  destruct (audit_days =? 0)%Z eqn:Ed.
  - exists (audit_logs (w_db w)), 0%Z. split_and!; [|lia|lia|by apply aged_pass_none|done].
    by destruct w as [[]].
  - unfold query. rewrite run_stmt_quiet by done. simpl. do 2 eexists. split; [reflexivity|].
    split; [|split; [by apply aged_pass_rows|]].
    + rewrite length_oldest_batch. lia.
    + intros k a. by intros [? _]%lookup_delete_ids.
Qed.

Lemma scrub_quiet w :
  w_sched w = [] ->
  exists d n, scrub_legacy_login_ip_hashes batch w = (w <|w_db := d|>, Ok n) /\
    login_ages d = login_ages (w_db w) /\ audit_logs d = audit_logs (w_db w) /\
    outside_sweep (w_db w) d.
Proof.
  intros Hq. unfold scrub_legacy_login_ip_hashes.
  rewrite (proj2 (Z.leb_gt batch 0)) by lia. unfold mbind, M_bind, load_scrub_done.
  rewrite in_memory_quiet by done. cbn [fst snd].
  assert (Hrefl : outside_sweep (w_db w) (w_db w)) by apply outside_sweep_refl.
  destruct (ip_hash_scrub_done (w_db w)).
  { do 2 eexists. split; [reflexivity|]. split; [done|]. by split. }
  unfold query. rewrite run_stmt_quiet by done.
  destruct (sql_scrub_ip_hashes batch _ _) as [|[d n]] eqn:Es; [done|].
  pose proof (scrub_ages _ _ _ _ _ Es) as Hages. simpl in Hages, Es.
  assert (Hout : outside_sweep (w_db w) d /\ audit_logs d = audit_logs (w_db w)).
  { injection Es as <- _. simpl. split; [|done]. split_and!; [|done|].
    { do 3 eexists. reflexivity. }
    intros k e'. simpl. rewrite map_lookup_imap. destruct (login_events (w_db w) !! k) as [e|]; simpl; [|done].
    intros [= <-]. exists e. case_bool_decide; eauto. }
  destruct Hout as [Hout Haud]. cbn beta iota. destruct (n <? as_u64 batch)%Z.
  - unfold store_scrub_done. rewrite in_memory_quiet by done.
    do 2 eexists. split; [reflexivity|]. split; [exact Hages|]. split; [exact Haud|].
    destruct Hout as ((m & a & s & ->) & Hrest). split; [|exact Hrest]. by exists m, a, true.
  - do 2 eexists. split; [by destruct w|]. split; [exact Hages|]. by split.
Qed.

(** One pass, alone. *)
Lemma sweep_quiet w :
  w_sched w = [] ->
  exists d n, run_retention_sweep login_days audit_days batch w = (w <|w_db := d|>, Ok n) /\
    aged_pass login_days batch (w_now w) (login_ages (w_db w)) (login_ages d) /\
    aged_pass audit_days batch (w_now w) (audit_ages (w_db w)) (audit_ages d) /\
    outside_sweep (w_db w) d.
Proof.
  intros Hq. unfold run_retention_sweep, mbind, M_bind.
  destruct (cleanup_login_quiet w Hq) as (m & n & -> & Hn & Ha & Hm).
  set (w1 := w <|w_db := _|>).
  destruct (cleanup_audit_quiet w1 Hq) as (m2 & n2 & -> & Hn2 & Ha2 & Hm2).
  set (w2 := w1 <|w_db := _|>).
  destruct (scrub_quiet w2 Hq) as (d & n3 & -> & Hl & Hau & Hout).
  assert (Hsum : u64_checked_add n n2 = Some (n + n2)%Z).
  { unfold u64_checked_add, U64_MAX, I64_MAX in *. case_match; [done|]. split_bools; lia. }
  rewrite Hsum. exists d, (n + n2)%Z. split; [by destruct w as [[]]|].
  split; [by rewrite Hl|]. split; [unfold audit_ages at 2; by rewrite Hau|].
  destruct Hout as ((m4 & a4 & s4 & ->) & Haud & Hlog). split_and!.
  - do 3 eexists. by destruct w as [[]].
  - intros k a Hk. by apply Hm2, Haud.
  - intros k e' Hk. apply Hlog in Hk as (e & He & ?). exists e. split; [by apply Hm|done].
Qed.
End passes.

(** [n] ticks of the background task. *)
Definition sweep_ticks `{Ext} (n : nat) (login_days audit_days : u64) (batch : i64) : M unit :=
  for_each (fun _ => _ ← run_retention_sweep login_days audit_days batch; mret tt) (seq 0 n).

Lemma aged_pass_done days batch now a n :
  window_backlog days now a <= n * Z.to_nat batch -> n = 0%nat ->
  forall k t, a !! k = Some t -> kept days now t.
Proof.
  intros Hb -> k t Hk. unfold window_backlog, kept in *.
  destruct (Z.eqb_spec days 0); [by left|right]. unfold backlog in Hb.
  destruct (decide (t < now - window days)%Z) as [Hlt|]; [|lia]. exfalso.
  assert (Hin : base.filter (fun kv => (kv.2 < now - window days)%Z) a !! k = Some t)
    by (by apply map_lookup_filter_Some).
  apply (mk_is_Some _ _), map_size_ne_0_lookup_2 in Hin. lia.
Qed.


Lemma outside_sweep_trans d1 d2 d3 :
  outside_sweep d1 d2 -> outside_sweep d2 d3 -> outside_sweep d1 d3.
Proof.
  intros ((m & a & s & ->) & G & L) ((m' & a' & s' & ->) & G' & L'). split_and!; [|by eauto|].
  { exists m', a', s'. by destruct d1. }
  intros k e3 H3. apply L' in H3 as (e2 & H2 & Hc). apply L in H2 as (e1 & H1 & Hc1).
  exists e1. split; [done|]. destruct Hc as [->| ->], Hc1 as [->| ->]; eauto.
Qed.

(** C39: the retention sweep terminates with nothing left to delete.  Alone, after
    as many ticks as the backlog has batches, every tick has succeeded and the
    rows of [login_events] and [audit_logs] are exactly those inside their
    windows, each as it was except that a legacy IP hash may be gone: a window is the
    days configured, up to a million, whatever 64-bit number is configured, and
    zero days keep everything; no other table is touched, the tamper-evident
    trail least of all. *)
Theorem retention_sweep_drains `{Ext} login_days audit_days batch n w
    (Hq : w_sched w = []) (Hbatch : (0 < batch <= I64_MAX)%Z)
    (Hlogin : in_u64 login_days) (Haudit : in_u64 audit_days)
    (Hn : window_backlog login_days (w_now w) (login_ages (w_db w)) <= n * Z.to_nat batch)
    (Hn' : window_backlog audit_days (w_now w) (audit_ages (w_db w)) <= n * Z.to_nat batch) :
  exists w', sweep_ticks n login_days audit_days batch w = (w', Ok tt) /\
    (forall k t, login_ages (w_db w') !! k = Some t <->
       login_ages (w_db w) !! k = Some t /\ kept login_days (w_now w) t) /\
    (forall k t, audit_ages (w_db w') !! k = Some t <->
       audit_ages (w_db w) !! k = Some t /\ kept audit_days (w_now w) t) /\
    outside_sweep (w_db w) (w_db w').
Proof.
  unfold sweep_ticks. generalize 0%nat as i.
  revert w Hq Hn Hn'. induction n as [|n IH]; intros w Hq Hn Hn' i; cbn [seq for_each].
  - exists w. split; [done|]. split; [|split; [|apply outside_sweep_refl]].
    + intros k t. split; [intros Hk; split; [done|by eapply aged_pass_done]|by intros [? _]].
    + intros k t. split; [intros Hk; split; [done|by eapply aged_pass_done]|by intros [? _]].
  - destruct (sweep_quiet login_days audit_days batch Hbatch Hlogin Haudit w Hq)
      as (d & m & Hrun & (L1 & L2 & L3) & (A1 & A2 & A3) & Hout).
    assert (HL1 : window_backlog login_days (w_now w) (login_ages d) <= n * Z.to_nat batch)
      by (rewrite L3; clear - Hn; generalize dependent (Z.to_nat batch); intros; lia).
    assert (HA1 : window_backlog audit_days (w_now w) (audit_ages d) <= n * Z.to_nat batch)
      by (rewrite A3; clear - Hn'; generalize dependent (Z.to_nat batch); intros; lia).
    remember (w <|w_db := d|>) as w1 eqn:Ew1.
    assert (Hw1 : w_now w1 = w_now w /\ w_db w1 = d /\ w_sched w1 = []) by by subst.
    destruct Hw1 as (Hnow & Hdb & Hq1). rewrite <- Hdb in *. rewrite <- Hnow in *.
    destruct (IH w1 Hq1 HL1 HA1 (S i)) as (w' & Hrest & HL & HA & Hout').
    exists w'. unfold mbind, M_bind in Hrest |- *. rewrite Hrun. split; [exact Hrest|].
    split; [|split; [|by eapply outside_sweep_trans]].
    + intros k t. rewrite HL. split; [intros [? ?]|intros [? ?]]; eauto.
    + intros k t. rewrite HA. split; [intros [? ?]|intros [? ?]]; eauto.
Qed.

Definition demo_login (k : Uuid) (t : Time) (h : option string) : LoginEvent :=
  mkLoginEvent k None "btc" "web" None h t.

Definition demo_events_db : Db :=
  empty_db <|login_events := {[ 1%N := demo_login 1 0 (Some "h");
                                2%N := demo_login 2 DAY None;
                                3%N := demo_login 3 (40 * DAY) (Some "h") ]}|>.

Lemma retention_sweep_drains_witness :
  exists w', sweep_ticks 2 30 0 1 (quiet_world demo_events_db (60 * DAY)) = (w', Ok tt) /\
    login_ages (w_db w') !! 3%N = Some (40 * DAY)%Z /\ login_ages (w_db w') !! 1%N = None.
Proof.
  destruct (retention_sweep_drains 30 0 1 2 (quiet_world demo_events_db (60 * DAY)) eq_refl
    ltac:(by vm_compute) ltac:(by vm_compute) ltac:(by vm_compute) ltac:(apply Nat.leb_le; by vm_compute)
    ltac:(apply Nat.leb_le; by vm_compute))
    as (w' & Hrun & HL & _).
  exists w'. split; [exact Hrun|]. split.
  - apply HL. split; [reflexivity|]. right. by vm_compute.
  - destruct (login_ages (w_db w') !! 1%N) as [t|] eqn:E; [|done].
    apply HL in E as [E [Hk|Hk]]; [done|]. vm_compute in E. injection E as <-.
    exfalso. apply Hk. vm_compute. reflexivity.
Defined.
