(* ===== verification/RelayPolicy.v ===== *)
(** The write policy of the first-party Nostr relay:
    [src/infra/relay/policy.rs] (the decision), [src/infra/relay/mod.rs] (the
    provider) and [src/infra/relay/nauthz.rs] (the admission service), with the
    npub lookups of [src/infra/db/users.rs]. *)

From Stdlib Require Import ZArith Lia Ascii String Strings.Byte.
From S2P Require Import Prelude RustStr Errors Db Effects TipStatus SocialTips Demo Config.

Local Open Scope string_scope.

Definition GIFT_WRAP_KIND : u64 := 1059.
Definition WALLET_KINDS : list u64 := [GIFT_WRAP_KIND; 10050%Z].
Definition is_wallet_kind (kind : u64) : bool := existsb (Z.eqb kind) WALLET_KINDS.

Inductive WritePolicy := Open | AuthorAllowlist | InboxOutbox | PremiumPost.

#[export] Instance WritePolicy_eq_dec : EqDecision WritePolicy.
Proof. solve_decision. Defined.

Definition policy_parse (s : string) : option WritePolicy :=
  if s =? "open" then Some Open
  else if s =? "author-allowlist" then Some AuthorAllowlist
  else if s =? "inbox-outbox" then Some InboxOutbox
  else if s =? "premium-post" then Some PremiumPost
  else None.

Inductive Admit := Permit | Deny (reason : string).

Definition is_permit (a : Admit) : bool := match a with Permit => true | Deny _ => false end.

Record EventMeta := mkEventMeta {
  em_author_pubkey : string; em_kind : u64; em_id_hex : string }.

(** [u8::leading_zeros]. *)
Definition u8_leading_zeros (b : byte) : Z :=
  8 - match Byte.to_N b with N0 => 0 | Npos p => Zpos (Pos.size p) end.

Fixpoint leading_zeros_of (bs : list byte) : Z :=
  match bs with
  | [] => 0
  | b :: bs' =>
      if (Byte.to_N b =? 0)%N then 8 + leading_zeros_of bs' else u8_leading_zeros b
  end.

Definition leading_zero_bits `{Ext} (id_hex : string) : Z :=
  match hex_decode id_hex with Some bs => leading_zeros_of bs | None => 0 end.

Definition giftwrap_inbox `{Ext} (meta : EventMeta) (inbound_pow_bits : u8)
    (recipient_registered : bool) : Admit :=
  if (em_kind meta =? GIFT_WRAP_KIND)%Z && recipient_registered then
    if (0 <? inbound_pow_bits)%Z
       && (leading_zero_bits (em_id_hex meta) <? inbound_pow_bits)%Z
    then Deny "insufficient proof-of-work for cross-ecosystem delivery"
    else Permit
  else Deny "external authors may only deliver gift-wrapped DMs to registered users".

Definition decide_admit `{Ext} (meta : EventMeta) (policy : WritePolicy)
    (inbound_pow_bits : u8)
    (author_registered recipient_registered author_premium author_allowlisted : bool)
  : Admit :=
  if author_allowlisted then Permit
  else match policy with
  | Open => Permit
  | AuthorAllowlist =>
      if author_registered then Permit else Deny "author is not a registered npub"
  | InboxOutbox =>
      if author_registered then Permit
      else giftwrap_inbox meta inbound_pow_bits recipient_registered
  | PremiumPost =>
      if author_premium then Permit
      else if author_registered && is_wallet_kind (em_kind meta) then Permit
      else if author_registered then
        Deny "premium membership required to post general Nostr events to this relay"
      else giftwrap_inbox meta inbound_pow_bits recipient_registered
  end.

(** * The provider *)

(** [bech32::decode]: the human-readable part and the data, of the [bech32]
    crate. *)
Class Bech32 := { bech32_decode : string -> option (string * list byte) }.

Definition allowlist_entry_to_hex `{Ext} `{Bech32} (entry : string) : option string :=
  let s := trim entry in
  if is_empty s then None
  else if is_some (RustStr.strip_prefix "npub1" s) then
    match bech32_decode s with
    | Some (hrp, data) =>
        if negb (hrp =? "npub") || negb (length data =? 32)%nat then None
        else Some (hex_encode data)
    | None => None
    end
  else
    let lower := to_lowercase s in
    if (len lower =? 64)%nat && is_some (hex_decode lower) then Some lower else None.

Record NostrRelayProvider := mkNostrRelayProvider {
  np_kind : string;
  np_advertised_url : string;
  np_policy : WritePolicy;
  np_inbound_pow_bits : u8;
  np_max_event_bytes : Z;
  np_write_allowlist : gset string;
}.

Definition relay_from_config `{Ext} `{Bech32} (r : RelayConfig)
  : outcome (option NostrRelayProvider) :=
  if negb (rl_enabled r) then Ok None
  else
    policy ← ok_or (policy_parse (rl_write_policy r))
      (ConfigError ("invalid RELAY_WRITE_POLICY: " ++ rl_write_policy r));
    if (rl_mode r =? "bundled") || (rl_mode r =? "external") then
      Ok (Some (mkNostrRelayProvider
        (if rl_mode r =? "bundled" then "nostr-rs-relay" else "external")
        (rl_advertised_url r) policy (rl_inbound_pow_bits r) (rl_max_event_bytes r)
        (list_to_set (omap allowlist_entry_to_hex (rl_write_allowlist r)))))
    else Err (ConfigError ("unsupported RELAY_MODE: " ++ rl_mode r)).

Definition is_write_allowlisted (p : NostrRelayProvider) (author_hex : string) : bool :=
  negb (bool_decide (np_write_allowlist p = ∅))
  && bool_decide (author_hex ∈ np_write_allowlist p).

(** * Lookups *)

Definition user_rows (d : Db) : list User := snd <$> map_to_list (users d).

Definition is_npub (npub : string) (u : User) : bool := sql_eq (u_nostr_pubkey u) npub.

Definition sql_is_registered_npub (npub : string) : Stmt bool := fun _ d =>
  inr (d, existsb (is_npub npub) (user_rows d)).

Definition sql_any_registered_npub (npubs : list string) : Stmt bool := fun _ d =>
  inr (d, existsb (fun u => existsb (fun p => is_npub p u) npubs) (user_rows d)).

Definition sql_is_premium_npub (npub : string) : Stmt bool := fun now d =>
  inr (d, existsb (fun u => is_npub npub u
                    && match u_premium_until u with Some t => (now <? t)%Z | None => false end)
            (user_rows d)).

(** * Admission *)

(** The fields of the protobuf messages the service reads. *)
Record NostrEvent := mkNostrEvent {
  ev_id : list byte; ev_pubkey : list byte; ev_kind : u64; ev_content : string;
  ev_tags : list (list string) }.

Inductive Decision := DPermit | DDeny.
Record EventReply := mkEventReply { er_decision : Decision; er_message : option string }.

Definition permit : EventReply := mkEventReply DPermit None.
Definition deny (msg : string) : EventReply := mkEventReply DDeny (Some msg).

Definition MAX_P_TAGS : nat := 20.

(** The loop over the tags: at most [MAX_P_TAGS] distinct recipients. *)
Fixpoint collect_p_tags (acc : list string) (tags : list (list string)) : list string :=
  match tags with
  | [] => acc
  | tag :: rest =>
      if (MAX_P_TAGS <=? length acc)%nat then acc
      else match tag with
           | name :: value :: _ =>
               let p := to_lowercase value in
               if (name =? "p") && negb (existsb (String.eqb p) acc)
               then collect_p_tags (acc ++ [p]) rest
               else collect_p_tags acc rest
           | _ => collect_p_tags acc rest
           end
  end.

Section admission.
Context `{Ext} (relay : NostrRelayProvider).

Definition is_registered_npub (npub : string) : M bool :=
  query (sql_is_registered_npub npub).
Definition any_registered_npub (npubs : list string) : M bool :=
  match npubs with
  | [] => mret false
  | _ => query (sql_any_registered_npub npubs)
  end.
Definition is_premium_npub (npub : string) : M bool := query (sql_is_premium_npub npub).

(** [m.await.unwrap_or(false)]. *)
Definition or_false (m : M bool) : M bool :=
  r ← attempt m; mret (match r with inl b => b | inr _ => false end).

Definition event_admit (request : option NostrEvent) : M EventReply :=
  match request with
  | None => mret (deny "missing event")
  | Some event =>
      if (np_max_event_bytes relay <? Z.of_nat (len (ev_content event)))%Z
      then mret (deny "event exceeds max size")
      else
        let author_hex := hex_encode (ev_pubkey event) in
        let id_hex := hex_encode (ev_id event) in
        let author_allowlisted := is_write_allowlisted relay author_hex in
        author_registered ← (if author_allowlisted then mret false
                             else or_false (is_registered_npub author_hex));
        author_premium ←
          (if negb author_allowlisted && bool_decide (np_policy relay = PremiumPost)
           then or_false (is_premium_npub author_hex) else mret false);
        recipient_registered ←
          (if author_registered || author_allowlisted then mret false
           else or_false (any_registered_npub (collect_p_tags [] (ev_tags event))));
        mret (match decide_admit (mkEventMeta author_hex (ev_kind event) id_hex)
                      (np_policy relay) (np_inbound_pow_bits relay) author_registered
                      recipient_registered author_premium author_allowlisted with
              | Permit => permit
              | Deny msg => deny msg
              end)
  end.
End admission.

(** * Proof of work *)

(** The number a byte string spells, most significant byte first. *)
Definition be_value (bs : list byte) : Z :=
  foldl (fun acc b => acc * 256 + Z.of_N (Byte.to_N b))%Z 0%Z bs.

Lemma be_value_from bs acc :
  foldl (fun acc b => acc * 256 + Z.of_N (Byte.to_N b))%Z acc bs =
  (acc * 2 ^ (8 * Z.of_nat (length bs)) + be_value bs)%Z.
Proof.
  unfold be_value. revert acc. induction bs as [|b bs IH]; intros acc.
  - cbn [foldl length]. change (8 * Z.of_nat 0)%Z with 0%Z. rewrite Z.pow_0_r. lia.
  - cbn [foldl length]. rewrite IH, (IH (0 * 256 + _)%Z).
    replace (8 * Z.of_nat (S (length bs)))%Z with (8 + 8 * Z.of_nat (length bs))%Z by lia.
    rewrite Z.pow_add_r by lia. change (2 ^ 8)%Z with 256%Z. ring.
Qed.

Lemma be_value_cons b bs :
  be_value (b :: bs) =
  (Z.of_N (Byte.to_N b) * 2 ^ (8 * Z.of_nat (length bs)) + be_value bs)%Z.
Proof. unfold be_value at 1. cbn [foldl]. rewrite be_value_from. lia. Qed.

Lemma be_value_bound bs : (0 <= be_value bs < 2 ^ (8 * Z.of_nat (length bs)))%Z.
Proof.
  induction bs as [|b bs IH]; [by vm_compute|]. rewrite be_value_cons. cbn [length].
  pose proof (Byte.to_N_bounded b).
  replace (8 * Z.of_nat (S (length bs)))%Z with (8 + 8 * Z.of_nat (length bs))%Z by lia.
  rewrite Z.pow_add_r by lia. change (2 ^ 8)%Z with 256%Z. nia.
Qed.

Lemma byte_bits b : (Byte.to_N b =? 0)%N = false ->
  (0 <= u8_leading_zeros b < 8
   /\ 2 ^ (7 - u8_leading_zeros b) <= Z.of_N (Byte.to_N b) < 2 ^ (8 - u8_leading_zeros b))%Z.
Proof. destruct b; intros Hb; vm_compute in Hb |- *; (discriminate || (repeat split; discriminate)). Qed.

Lemma leading_zeros_nonneg bs : (0 <= leading_zeros_of bs)%Z.
Proof.
  induction bs as [|b bs IH]; [done|]. cbn [leading_zeros_of].
  destruct (Byte.to_N b =? 0)%N eqn:Hb; [lia|]. apply byte_bits in Hb. lia.
Qed.

Lemma leading_zeros_numeric bs k :
  (0 <= k <= 8 * Z.of_nat (length bs))%Z ->
  (k <= leading_zeros_of bs <-> be_value bs < 2 ^ (8 * Z.of_nat (length bs) - k))%Z.
Proof.
  revert k. induction bs as [|b bs IH]; intros k Hk; [cbn in *; assert (k = 0%Z) as -> by lia; cbn; lia|].
  cbn [leading_zeros_of length] in *. rewrite be_value_cons.
  pose proof (be_value_bound bs) as Hbs.
  set (m := (8 * Z.of_nat (length bs))%Z) in *.
  replace (8 * Z.of_nat (S (length bs)))%Z with (8 + m)%Z in * by lia.
  assert (Hm : (0 <= m)%Z) by lia.
  destruct (N.eqb_spec (Byte.to_N b) 0) as [->|Hb].
  - destruct (decide (k <= 8)%Z) as [Hk8|Hk8].
    + assert (0 <= leading_zeros_of bs)%Z by (apply leading_zeros_nonneg).
      pose proof (Z.pow_le_mono_r 2 m (8 + m - k) ltac:(lia) ltac:(lia)). lia.
    + specialize (IH (k - 8)%Z ltac:(lia)).
      replace (8 + m - k)%Z with (m - (k - 8))%Z by lia. lia.
  - apply N.eqb_neq in Hb. destruct (byte_bits b Hb) as (Hz & Hlo & Hhi).
    set (z := u8_leading_zeros b) in *. set (v := Z.of_N (Byte.to_N b)) in *.
    split.
    + intros Hle. pose proof (Z.pow_le_mono_r 2 (8 - z + m) (8 + m - k) ltac:(lia) ltac:(lia)).
      rewrite (Z.pow_add_r 2 (8 - z) m) in * by lia. nia.
    + intros Hlt. destruct (decide (k <= z)%Z) as [|Hkz]; [done|].
      pose proof (Z.pow_le_mono_r 2 (8 + m - k) (7 - z + m) ltac:(lia) ltac:(lia)).
      rewrite (Z.pow_add_r 2 (7 - z) m) in * by lia. nia.
Qed.

(** The difficulty the inbound gate measures is the numeric one: for an
    event id of [n] bytes, at least [k] leading zero bits are found in its hex
    form exactly when the id, read as a big-endian number, is below
    [2 ^ (8 n - k)]. *)
Theorem pow_gate_numeric {E : Ext} {EL : ExtLaws E} id k :
  (0 <= k <= 8 * Z.of_nat (length id))%Z ->
  (k <= leading_zero_bits (hex_encode id)
   <-> be_value id < 2 ^ (8 * Z.of_nat (length id) - k))%Z.
Proof. intros Hk. unfold leading_zero_bits. rewrite hex_round_trip. by apply leading_zeros_numeric. Qed.

Lemma pow_gate_numeric_witness :
  (0 <= 12 <= 8 * Z.of_nat (length [x00; x0f]))%Z
  /\ ((12 <= leading_zero_bits (hex_encode [x00; x0f]))%Z
      <-> (be_value [x00; x0f] < 2 ^ (8 * 2 - 12))%Z)
  /\ (12 <= leading_zero_bits (hex_encode [x00; x0f]))%Z.
Proof.
  split_and!; [simpl; lia|simpl; lia| |].
  - apply (pow_gate_numeric [x00; x0f] 12). simpl; lia.
  - apply (pow_gate_numeric [x00; x0f] 12); [simpl; lia|by vm_compute].
Defined.

(** * Who may publish *)

Definition registered (d : Db) (npub : string) : Prop :=
  exists k u, users d !! k = Some u /\ u_nostr_pubkey u = Some npub.

Definition premium (now : Time) (d : Db) (npub : string) : Prop :=
  exists k u t, users d !! k = Some u /\ u_nostr_pubkey u = Some npub
    /\ u_premium_until u = Some t /\ (now < t)%Z.

(** The recipients an event names, without the cap. *)
Definition p_of_tag (tag : list string) : option string :=
  match tag with
  | name :: value :: _ => if name =? "p" then Some (to_lowercase value) else None
  | _ => None
  end.
Definition p_tags (tags : list (list string)) : list string := omap p_of_tag tags.

Section entitled.
Context `{Ext} (relay : NostrRelayProvider) (now : Time) (d : Db) (ev : NostrEvent).
Let author := hex_encode (ev_pubkey ev).

(** A gift-wrapped message to a user of ours, paid for in work: the numeric
    reading of the event id. *)
Definition deliverable : Prop :=
  ev_kind ev = GIFT_WRAP_KIND
  /\ (exists p, p ∈ p_tags (ev_tags ev) /\ registered d p)
  /\ (be_value (ev_id ev) < 2 ^ (256 - np_inbound_pow_bits relay))%Z.

Definition entitled : Prop :=
  author ∈ np_write_allowlist relay
  \/ match np_policy relay with
     | Open => True
     | AuthorAllowlist => registered d author
     | InboxOutbox => registered d author \/ deliverable
     | PremiumPost =>
         premium now d author
         \/ (registered d author /\ ev_kind ev ∈ WALLET_KINDS)
         \/ deliverable
     end.
End entitled.

Lemma existsb_rows (p : User -> bool) d :
  existsb p (user_rows d) = true <-> exists k u, users d !! k = Some u /\ p u = true.
Proof.
  unfold user_rows. rewrite existsb_exists. split.
  - intros (u & Hin & Hp). apply list_elem_of_In, list_elem_of_fmap in Hin as ([k u'] & -> & Hin).
    apply elem_of_map_to_list in Hin. eauto.
  - intros (k & u & Hk & Hp). exists u. split; [|done].
    apply list_elem_of_In, list_elem_of_fmap. exists (k, u).
    split; [done|by apply elem_of_map_to_list].
Qed.

Lemma is_npub_true npub u : is_npub npub u = true <-> u_nostr_pubkey u = Some npub.
Proof. unfold is_npub, sql_eq. by rewrite bool_decide_eq_true. Qed.

Lemma registered_row d npub : registered d npub <-> existsb (is_npub npub) (user_rows d) = true.
Proof. rewrite existsb_rows. unfold registered. by setoid_rewrite is_npub_true. Qed.

Lemma any_registered_row d ps :
  (exists p, p ∈ ps /\ registered d p)
  <-> existsb (fun u => existsb (fun p => is_npub p u) ps) (user_rows d) = true.
Proof.
  rewrite existsb_rows. unfold registered.
  setoid_rewrite existsb_exists. setoid_rewrite is_npub_true.
  setoid_rewrite <- list_elem_of_In. naive_solver.
Qed.

Lemma premium_row now d npub :
  premium now d npub
  <-> existsb (fun u => is_npub npub u
        && match u_premium_until u with Some t => (now <? t)%Z | None => false end)
      (user_rows d) = true.
Proof.
  rewrite existsb_rows. unfold premium. setoid_rewrite andb_true_iff.
  setoid_rewrite is_npub_true. split.
  - intros (k & u & t & ? & ? & Ht & ?). exists k, u. rewrite Ht. split_and!; [done..|].
    by apply Z.ltb_lt.
  - intros (k & u & ? & ? & Ht). destruct (u_premium_until u) as [t|] eqn:E; [|done].
    apply Z.ltb_lt in Ht. eauto 10.
Qed.

(** One turn of the loop, in terms of the recipient the tag names. *)
Lemma collect_p_tags_cons acc tag tags :
  collect_p_tags acc (tag :: tags) =
  if (MAX_P_TAGS <=? length acc)%nat then acc
  else match p_of_tag tag with
       | Some p => collect_p_tags (if bool_decide (p ∈ acc) then acc else acc ++ [p]) tags
       | None => collect_p_tags acc tags
       end.
Proof.
  cbn [collect_p_tags]. destruct (_ <=? _)%nat; [done|].
  destruct tag as [|name [|value tag]]; [done..|]. cbn [p_of_tag].
  destruct (name =? "p"); [|done]. cbn [andb].
  case_bool_decide as Hp; destruct (existsb _ _) eqn:Ex; try done.
  - exfalso. apply not_true_iff_false in Ex. apply Ex, existsb_exists.
    exists (to_lowercase value). split; [by apply list_elem_of_In|apply String.eqb_refl].
  - exfalso. apply existsb_exists in Ex as (q & Hq & <-%String.eqb_eq).
    by apply Hp, list_elem_of_In.
Qed.

Lemma collect_p_tags_sub acc tags p :
  p ∈ collect_p_tags acc tags -> p ∈ acc \/ p ∈ p_tags tags.
Proof.
  revert acc. induction tags as [|tag tags IH]; intros acc; [by left|].
  rewrite collect_p_tags_cons. unfold p_tags. cbn [omap list_omap].
  destruct (_ <=? _)%nat; [by left|].
  destruct (p_of_tag tag) as [q|]; [|apply IH].
  intros Hp%IH. rewrite elem_of_cons.
  case_bool_decide; rewrite ?elem_of_app, ?list_elem_of_singleton in Hp; unfold p_tags in *; tauto.
Qed.

Lemma collect_p_tags_all acc tags p :
  (length acc + length (p_tags tags) <= MAX_P_TAGS)%nat ->
  p ∈ acc \/ p ∈ p_tags tags -> p ∈ collect_p_tags acc tags.
Proof.
  revert acc. induction tags as [|tag tags IH]; intros acc Hlen Hp.
  { destruct Hp as [|Hp]; [done|by apply not_elem_of_nil in Hp]. }
  rewrite collect_p_tags_cons. unfold p_tags in *. cbn [omap list_omap] in *.
  destruct (Nat.leb_spec MAX_P_TAGS (length acc)) as [Hfull|_].
  { destruct Hp as [|Hp]; [done|]. revert Hlen Hp. generalize (omap p_of_tag tags).
    intros l Hlen Hp. destruct (p_of_tag tag), l; simpl in Hlen; try lia.
    by apply not_elem_of_nil in Hp. }
  destruct (p_of_tag tag) as [q|]; [|by apply IH].
  rewrite elem_of_cons in Hp. cbn [length] in Hlen.
  case_bool_decide; apply IH; rewrite ?length_app, ?elem_of_app, ?list_elem_of_singleton;
    simpl; try lia; naive_solver.
Qed.

(** * The decision, for the facts it is given *)

Lemma leading_zeros_gate {E : Ext} {EL : ExtLaws E} id bits :
  length id = 32%nat -> (0 <= bits <= 255)%Z ->
  (0 <? bits)%Z && (leading_zero_bits (hex_encode id) <? bits)%Z = false
  <-> (be_value id < 2 ^ (256 - bits))%Z.
Proof.
  intros Hlen Hb. unfold leading_zero_bits. rewrite hex_round_trip.
  pose proof (leading_zeros_numeric id bits ltac:(rewrite Hlen; lia)) as Hn.
  rewrite Hlen in Hn. change (8 * Z.of_nat 32)%Z with 256%Z in Hn. rewrite <- Hn.
  pose proof (leading_zeros_nonneg id). rewrite andb_false_iff, Z.ltb_ge, Z.ltb_ge. lia.
Qed.

Section decision.
Context {E : Ext} {EL : ExtLaws E} (relay : NostrRelayProvider) (ev : NostrEvent).
Hypothesis Hid : length (ev_id ev) = 32%nat.
Hypothesis Hbits : (0 <= np_inbound_pow_bits relay <= 255)%Z.

Let meta := mkEventMeta (hex_encode (ev_pubkey ev)) (ev_kind ev) (hex_encode (ev_id ev)).

Lemma giftwrap_inbox_iff rr :
  giftwrap_inbox meta (np_inbound_pow_bits relay) rr = Permit
  <-> ev_kind ev = GIFT_WRAP_KIND /\ rr = true
      /\ (be_value (ev_id ev) < 2 ^ (256 - np_inbound_pow_bits relay))%Z.
Proof.
  unfold giftwrap_inbox, meta. cbn [em_kind em_id_hex].
  pose proof (leading_zeros_gate (ev_id ev) (np_inbound_pow_bits relay) Hid Hbits) as Hg.
  rewrite <- Hg, <- Z.eqb_eq. clear Hg.
  destruct (_ =? GIFT_WRAP_KIND)%Z, rr; simpl; try (by intuition congruence).
  destruct (_ && _); by intuition congruence.
Qed.

Lemma wallet_kind_iff k : is_wallet_kind k = true <-> k ∈ WALLET_KINDS.
Proof.
  unfold is_wallet_kind. rewrite existsb_exists. setoid_rewrite Z.eqb_eq.
  setoid_rewrite <- list_elem_of_In. naive_solver.
Qed.

(** What the lookups may report without letting anyone in who should not be:
    each answer is true only if the fact is. *)
Lemma decide_sound now d ar rr ap :
  (ar = true -> registered d meta.(em_author_pubkey)) ->
  (rr = true -> exists p, p ∈ p_tags (ev_tags ev) /\ registered d p) ->
  (ap = true -> premium now d meta.(em_author_pubkey)) ->
  decide_admit meta (np_policy relay) (np_inbound_pow_bits relay) ar rr ap
    (is_write_allowlisted relay meta.(em_author_pubkey)) = Permit ->
  entitled relay now d ev.
Proof.
  pose proof giftwrap_inbox_iff as Hg. subst meta.
  intros Har Hrr Hap. unfold decide_admit, entitled, is_write_allowlisted in *.
  cbn [em_author_pubkey em_kind] in *.
  destruct (negb _ && _) eqn:Ea.
  { intros _. left. apply andb_true_iff in Ea as [_ Ea]. by apply bool_decide_eq_true in Ea. }
  intros Hd. right.
  destruct (np_policy relay); [done|by destruct ar; auto|..].
  - destruct ar; [auto|]. apply Hg in Hd as (? & ? & ?). right. unfold deliverable. auto.
  - destruct ap; [auto|]. right. destruct ar; simpl in Hd.
    + destruct (is_wallet_kind _) eqn:Ek; [|done]. apply wallet_kind_iff in Ek. auto.
    + apply Hg in Hd as (? & ? & ?). right. unfold deliverable. auto.
Qed.

(** With exact answers everyone entitled is let in. *)
Lemma decide_complete now d ar rr ap :
  let al := is_write_allowlisted relay meta.(em_author_pubkey) in
  (al = false -> registered d meta.(em_author_pubkey) -> ar = true) ->
  (al = false -> ar = false ->
   (exists p, p ∈ p_tags (ev_tags ev) /\ registered d p) -> rr = true) ->
  (al = false -> np_policy relay = PremiumPost ->
   premium now d meta.(em_author_pubkey) -> ap = true) ->
  entitled relay now d ev ->
  decide_admit meta (np_policy relay) (np_inbound_pow_bits relay) ar rr ap al = Permit.
Proof.
  pose proof giftwrap_inbox_iff as Hg. subst meta.
  intros al Har Hrr Hap. unfold entitled, decide_admit.
  destruct al eqn:Ea; [done|]. specialize (Har eq_refl). specialize (Hrr eq_refl).
  specialize (Hap eq_refl). unfold deliverable.
  unfold al, is_write_allowlisted in *. cbn [em_author_pubkey em_kind] in *.
  intros [Hin|He].
  { exfalso. rewrite (bool_decide_eq_true_2 _ Hin), andb_true_r in Ea.
    apply negb_false_iff, bool_decide_eq_true in Ea. rewrite Ea in Hin. set_solver. }
  destruct (np_policy relay); [done|by rewrite Har| |].
  - destruct ar; [done|]. destruct He as [He|He]; [by apply Har in He|].
    apply Hg. naive_solver.
  - destruct ap; [done|]. destruct He as [He|[[He Hk]|He]]; [by apply Hap in He|..].
    + rewrite Har by done. apply wallet_kind_iff in Hk. by rewrite Hk.
    + destruct He as (Hkind & Hp & Hpow). destruct ar; simpl.
      * replace (is_wallet_kind (ev_kind ev)) with true; [done|].
        rewrite Hkind. by vm_compute.
      * apply Hg. auto.
Qed.
End decision.

(** * The service, end to end *)

(** No other task writes; statements may still fail, and time passes. *)
Definition undisturbed (w : World) : Prop :=
  Forall (fun sl => forall t d, sl_env sl t d = d) (w_sched w).

(** [m] answers the question [f] if [g] says to ask it: a yes is a true one, an
    undisturbed answer is the exact one, and no failure escapes. *)
Definition answers (g : bool) (f : Time -> Db -> bool) (m : M bool) : Prop :=
  forall w, undisturbed w -> exists w' b, m w = (w', Ok b)
    /\ undisturbed w' /\ w_db w' = w_db w /\ (w_now w <= w_now w')%Z
    /\ (b = true -> exists t, (w_now w <= t)%Z /\ f t (w_db w) = true)
    /\ (w_sched w = [] ->
        w_sched w' = [] /\ w_now w' = w_now w /\ b = g && f (w_now w) (w_db w)).

Lemma answers_no f : answers false f (mret false).
Proof. intros w Hw. exists w, false. split_and!; try done; lia. Qed.

Lemma answers_query {E : Ext} (s : Stmt bool) f :
  (forall t d, s t d = inr (d, f t d)) -> answers true f (or_false (query s)).
Proof.
  intros Hs w Hidle. unfold or_false, attempt, query, mbind, M_bind, mret, M_ret, run_stmt, next_slot.
  unfold undisturbed in *. destruct (w_sched w) as [|sl rest] eqn:Esch.
  - rewrite Hs. cbn. eexists _, _. split; [done|]. cbn. rewrite Esch.
    split_and!; [done|done|lia| |by rewrite Z.add_0_r].
    intros Ht. eexists. split; [|exact Ht]. lia.
  - apply Forall_cons in Hidle as [Henv Hrest]. destruct (sl_fault sl); cbn;
      rewrite ?Hs; cbn; rewrite Henv; eexists _, _; (split; [done|]); cbn;
      (split_and!; [done|done|lia| |done]); [|done..].
    intros Ht. eexists. split; [|exact Ht]. lia.
Qed.

Lemma answers_guard (g : bool) f m :
  answers true f m -> answers g f (if g then m else mret false).
Proof. intros Hm. destruct g; [done|apply answers_no]. Qed.

Lemma answers_guard_not (g : bool) f m :
  answers true f m -> answers (negb g) f (if g then mret false else m).
Proof. intros Hm. destruct g; [apply answers_no|done]. Qed.

Lemma answers_any_registered {E : Ext} ps :
  answers true (fun _ d => existsb (fun u => existsb (fun p => is_npub p u) ps) (user_rows d))
    (or_false (any_registered_npub ps)).
Proof.
  destruct ps as [|p ps]; [|by apply answers_query]. intros w Hw. exists w, false.
  assert (Hf : forall rows : list User, existsb (fun _ => false) rows = false)
    by (induction rows; done).
  cbn [existsb]. rewrite Hf. split_and!; try done; lia.
Qed.

Lemma bind_step {A B} (m : M A) (k : A -> M B) w w1 b :
  m w = (w1, Ok b) -> (m ≫= k) w = k b w1.
Proof. unfold mbind, M_bind. by intros ->. Qed.

Section service.
Context {E : Ext} {EL : ExtLaws E} (relay : NostrRelayProvider) (ev : NostrEvent).
Hypothesis Hid : length (ev_id ev) = 32%nat.
Hypothesis Hbits : (0 <= np_inbound_pow_bits relay <= 255)%Z.

Let author := hex_encode (ev_pubkey ev).
Let al := is_write_allowlisted relay author.
Let rcpts d := exists p, p ∈ collect_p_tags [] (ev_tags ev) /\ registered d p.

Definition reply_of (a : Admit) : EventReply :=
  match a with Permit => permit | Deny msg => deny msg end.

(** What the three lookups of an admission establish, whatever fails. *)
Lemma event_admit_run w :
  undisturbed w -> (Z.of_nat (len (ev_content ev)) <= np_max_event_bytes relay)%Z ->
  exists w' ar ap rr,
    event_admit relay (Some ev) w =
      (w', Ok (reply_of (decide_admit
         (mkEventMeta author (ev_kind ev) (hex_encode (ev_id ev)))
         (np_policy relay) (np_inbound_pow_bits relay) ar rr ap al)))
    /\ (ar = true -> registered (w_db w) author)
    /\ (ap = true -> premium (w_now w) (w_db w) author)
    /\ (rr = true -> rcpts (w_db w))
    /\ (w_sched w = [] ->
        (al = false -> registered (w_db w) author -> ar = true)
        /\ (al = false -> np_policy relay = PremiumPost ->
            premium (w_now w) (w_db w) author -> ap = true)
        /\ (al = false -> ar = false -> rcpts (w_db w) -> rr = true)).
Proof.
  intros Hidle Hsize. unfold event_admit. cbv zeta. fold author.
  destruct (Z.ltb_spec (np_max_event_bytes relay) (Z.of_nat (len (ev_content ev)))); [lia|].
  fold al.
  destruct (answers_guard_not al _ (or_false (is_registered_npub author))
              (answers_query _ _ (fun _ _ => eq_refl)) w Hidle)
    as (w1 & ar & E1 & Hi1 & Hd1 & Ht1 & Hs1 & Hq1).
  destruct (answers_guard (negb al && bool_decide (np_policy relay = PremiumPost)) _
              (or_false (is_premium_npub author))
              (answers_query _ _ (fun _ _ => eq_refl)) w1 Hi1)
    as (w2 & ap & E2 & Hi2 & Hd2 & Ht2 & Hs2 & Hq2).
  destruct (answers_guard_not (ar || al) _ _ (answers_any_registered
              (collect_p_tags [] (ev_tags ev))) w2 Hi2)
    as (w3 & rr & E3 & Hi3 & Hd3 & Ht3 & Hs3 & Hq3).
  exists w3, ar, ap, rr. unfold rcpts.
  rewrite (registered_row (w_db w)), (any_registered_row (w_db w)), (premium_row (w_now w)).
  split_and!.
  - rewrite (bind_step _ _ _ _ _ E1).
    rewrite (bind_step _ _ _ _ _ E2).
    rewrite (bind_step _ _ _ _ _ E3). done.
  - intros Har. by destruct (Hs1 Har) as (t & _ & ?).
  - intros Hap. destruct (Hs2 Hap) as (t & Hle & Hp). rewrite Hd1 in Hp.
    apply premium_row in Hp. apply premium_row. destruct Hp as (k & u & u' & ? & ? & ? & ?).
    exists k, u, u'. split_and!; try done. lia.
  - intros Hrr. destruct (Hs3 Hrr) as (t & _ & Hp). by rewrite Hd2, Hd1 in Hp.
  - intros Hq. destruct (Hq1 Hq) as (Hq' & Hn1 & ->). destruct (Hq2 Hq') as (Hq'' & Hn2 & ->).
    destruct (Hq3 Hq'') as (_ & Hn3 & ->). rewrite Hd2, Hd1, Hn1.
    split_and!; intros Hal.
    + by rewrite Hal.
    + intros Hpol. by rewrite Hal, (bool_decide_eq_true_2 _ Hpol).
    + rewrite Hal, orb_false_r. by intros ->.
Qed.

(** The admission service fails closed.  Whatever lookups fail,
    whatever time passes between them, as long as no other task changes the
    database: an event let in was entitled to be, under the configured
    policy, judged on the database and the clock at the start. *)
Theorem admission_fails_closed w w' :
  undisturbed w -> event_admit relay (Some ev) w = (w', Ok permit) ->
  entitled relay (w_now w) (w_db w) ev.
Proof.
  intros Hidle Hrun.
  destruct (Z.ltb_spec (np_max_event_bytes relay) (Z.of_nat (len (ev_content ev)))) as [Hbig|Hsize].
  { revert Hrun. unfold event_admit. by rewrite (proj2 (Z.ltb_lt _ _) Hbig). }
  destruct (event_admit_run w Hidle Hsize) as (w2 & ar & ap & rr & Hrun' & Har & Hap & Hrr & _).
  rewrite Hrun in Hrun'. injection Hrun' as _ Hd. eapply (decide_sound relay ev Hid Hbits _ _ ar rr ap).
  - done.
  - intros H. destruct (Hrr H) as (p & Hp & ?). exists p. split; [|done].
    apply collect_p_tags_sub in Hp as [Hp|]; [by apply not_elem_of_nil in Hp|done].
  - done.
  - fold author al. destruct (decide_admit _ _ _ _ _ _ _); [done|]. by unfold deny, permit in Hd.
Qed.

(** With the database answering and undisturbed, an event within
    the size limit that names at most [MAX_P_TAGS] recipients is permitted
    exactly when it is entitled to be, and otherwise denied; the service
    never errors. *)
Theorem admission_exact w :
  w_sched w = [] -> (Z.of_nat (len (ev_content ev)) <= np_max_event_bytes relay)%Z ->
  (length (p_tags (ev_tags ev)) <= MAX_P_TAGS)%nat ->
  exists w' r, event_admit relay (Some ev) w = (w', Ok r)
    /\ (er_decision r = DPermit <-> entitled relay (w_now w) (w_db w) ev).
Proof.
  intros Hq Hsize Htags. assert (Hidle : undisturbed w) by (unfold undisturbed; rewrite Hq; constructor).
  destruct (event_admit_run w Hidle Hsize)
    as (w2 & ar & ap & rr & Hrun & Har & Hap & Hrr & Hex).
  destruct (Hex Hq) as (Har' & Hap' & Hrr'). eexists _, _. split; [exact Hrun|]. split.
  - intros Hd. eapply (decide_sound relay ev Hid Hbits _ _ ar rr ap); [done| |done|].
    + intros H. destruct (Hrr H) as (p & Hp & ?). exists p. split; [|done].
      apply collect_p_tags_sub in Hp as [Hp|]; [by apply not_elem_of_nil in Hp|done].
    + fold author al. by destruct (decide_admit _ _ _ _ _ _ _).
  - intros He.
    pose proof (decide_complete relay ev Hid Hbits (w_now w) _ ar rr ap Har') as Hc.
    cbn [em_author_pubkey] in Hc. fold author al in Hc. rewrite Hc; [done| |done..].
    intros ? ? (p & Hp & ?). apply Hrr'; [done..|]. exists p. split; [|done].
    apply collect_p_tags_all; [simpl; lia|by right].
Qed.
End service.

(** * A relay with one user, and a stranger's message to them *)

Definition demo_relay : NostrRelayProvider :=
  mkNostrRelayProvider "nostr-rs-relay" "wss://relay" InboxOutbox 12 1000 ∅.

Definition demo_relay_db : Db :=
  empty_db <|users := {[ 1%N := mkUser 1 None None (Some "beef") None None None None 0 0 None None ]}|>.

Definition demo_event : NostrEvent :=
  mkNostrEvent (x00 :: x0f :: replicate 30 xff) [xaa] 1059 "sealed" [["e"; "1"]; ["p"; "BEEF"]].

(** The author lookup fails, the recipient lookup does not. *)
Definition demo_relay_world : World :=
  (quiet_world demo_relay_db 5)
    <|w_sched := [mkSlot (fun _ d => d) 3 (FailBefore (PgOther "timeout")); quiet_slot]|>.

Lemma admission_fails_closed_witness :
  length (ev_id demo_event) = 32%nat /\ undisturbed demo_relay_world
  /\ entitled demo_relay 5 demo_relay_db demo_event.
Proof.
  assert (Hidle : undisturbed demo_relay_world) by (repeat constructor).
  split_and!; [done|done|].
  refine (admission_fails_closed demo_relay demo_event eq_refl _ demo_relay_world _ Hidle _);
    [simpl; lia|by vm_compute].
Defined.

Lemma admission_exact_witness :
  length (p_tags (ev_tags demo_event)) = 1%nat
  /\ exists w' r, event_admit demo_relay (Some demo_event) (quiet_world demo_relay_db 5) = (w', Ok r)
     /\ (er_decision r = DPermit <-> entitled demo_relay 5 demo_relay_db demo_event).
Proof.
  split; [by vm_compute|].
  apply (admission_exact demo_relay demo_event eq_refl ltac:(simpl; lia) (quiet_world demo_relay_db 5));
    [done|simpl; lia|vm_compute; lia].
Defined.
