(* ===== verification/Pow.v ===== *)
(** Proofs of work: the signup gate ([src/core/pow.rs], over the [altcha]
    crate), the hashcash of a restore ([src/core/restore_pow.rs]) and the restore
    policy that prices it ([RestoreConfig] of [src/config.rs]). *)

From Stdlib Require Import ZArith Lia Ascii String Strings.Byte.
From stdpp Require Import pretty.
From S2P Require Import Prelude RustStr Errors Db Effects TipStatus SocialTips Auth Config Demo Nip98 Signatures RelayPolicy.

Local Open Scope string_scope.

(** * The signup gate *)

Definition CHALLENGE_TTL_SECONDS : u64 := 600.

(** [altcha::CreateChallengeOptions], the fields the source sets. *)
Record CreateChallengeOptions := mkCreateChallengeOptions {
  co_algorithm : string;
  co_cost : u32;
  co_expires_at : option u64;
  co_hmac_signature_secret : option string;
}.

(** [altcha::VerifySolutionResult]. *)
Record PowResult := mkPowResult {
  vr_verified : bool;
  vr_expired : bool;
  vr_invalid_signature : option bool;
  vr_invalid_solution : option bool;
}.

(** The [altcha] crate: a challenge has a random salt ([create_challenge] takes
    the number of the call), a verification reads the system clock (in
    seconds). [inl] is an error, by its text. *)
Class Altcha := {
  AltchaChallenge : Type;
  AltchaSolution : Type;
  ac_signature : AltchaChallenge -> option string;
  create_challenge : CreateChallengeOptions -> nat -> string + AltchaChallenge;
  verify_solution : AltchaChallenge -> AltchaSolution -> string -> u64 -> string + PowResult;
}.

Definition required_for (cfg : PowConfig) (pubkey_hash : string) : bool :=
  pow_required cfg || existsb (fun p => p =? pubkey_hash) (pow_required_for_pubkeys cfg).

Definition as_u32 (x : Z) : Z := (x mod 2 ^ 32)%Z.

(** The entries inside the window, then the insertion: whether the signature was
    new.  [now] is the process' monotonic clock. *)
Definition live_spends (now : Time) (spent : gmap string Time) : gmap string Time :=
  filter (fun kv => (now - kv.2 < CHALLENGE_TTL_SECONDS * SECOND)%Z) spent.

Definition spend_solution (signature : string) (now : Time) (d : Db) : Db * bool :=
  let spent := live_spends now (spent_solutions d) in
  (d <|spent_solutions := <[signature := now]> spent|>, is_none (spent !! signature)).

Section gate.
Context `{Altcha}.

Record Payload := mkPayload { pl_challenge : AltchaChallenge; pl_solution : AltchaSolution }.

(** [now + ttl] overflows only for a clock beyond the year 5*10^11. *)
Definition issue_challenge (cfg : PowConfig) : M AltchaChallenge :=
  clock ← utc_now;
  let now := Z.max 0 (timestamp clock) in
  expires_at ← lift (or_panic (u64_checked_add now CHALLENGE_TTL_SECONDS));
  let opts := mkCreateChallengeOptions "PBKDF2/SHA-256" (as_u32 (pow_cost cfg))
                (Some expires_at) (Some (pow_hmac_key cfg)) in
  upstream (fun n => match create_challenge opts n with
                     | inr c => Ok c
                     | inl e => Err (Internal ("PoW challenge creation failed: " ++ e))
                     end).

Definition reject_reason (r : PowResult) : string :=
  if vr_expired r then "challenge expired (re-fetch the challenge)"
  else if default false (vr_invalid_signature r) then "invalid signature"
  else if default false (vr_invalid_solution r) then "wrong solution"
  else "rejected".

Definition spent_error : AppError :=
  ValidationError "PoW solution rejected (already used; re-fetch the challenge)".

Definition verify_payload (cfg : PowConfig) (payload : Payload) : M unit :=
  clock ← utc_now;
  result ← lift (match verify_solution (pl_challenge payload) (pl_solution payload)
                         (pow_hmac_key cfg) (timestamp clock) with
                 | inr r => Ok r
                 | inl e => Err (ValidationError ("PoW verify failed: " ++ e))
                 end);
  if negb (vr_verified result)
  then fail (ValidationError ("PoW solution rejected (" ++ reject_reason result ++ ")"))
  else
    signature ← lift (ok_or (ac_signature (pl_challenge payload))
      (ValidationError "PoW solution rejected (missing signature)"));
    fresh ← in_memory (spend_solution signature);
    if negb fresh then fail spent_error else mret tt.
End gate.

(** * The hashcash of a restore *)

Definition US : byte := x1f.

Definition challenge_input (asset address : string) (start_height : u64) : list byte :=
  (list_byte_of_string "smirk-restore-pow-v1" ++ [US] ++ list_byte_of_string asset ++ [US]
   ++ list_byte_of_string address ++ [US] ++ le_bytes 8 start_height)%list.

(** [verify] of [restore_pow.rs]. *)
Definition verify_restore_pow `{Ext} (asset address : string) (start_height nonce : u64)
    (required_bits : u32) : bool :=
  if (required_bits =? 0)%Z then true
  else (required_bits <=?
    leading_zeros_of (sha256 (challenge_input asset address start_height ++ le_bytes 8 nonce)))%Z.

(** * The restore policy *)

Definition blocks_per_day (chain : string) : u64 :=
  if (chain =? "xmr") || (chain =? "wow") then 720
  else if chain =? "grin" then 1440
  else if chain =? "btc" then 144
  else if chain =? "ltc" then 576
  else 720.

Definition u64_saturating_mul (x y : Z) : Z := clamp 0 U64_MAX (x * y).

Definition min_start_height (c : RestoreConfig) (chain : string) (tip : u64) : u64 :=
  let floor depth_days := u64_saturating_sub tip (u64_saturating_mul depth_days (blocks_per_day chain)) in
  match rc_policy c with
  | Unlimited => 0
  | CreateOnly => floor 1%Z
  | Bounded => floor (rc_max_depth_days c)
  end.

Definition enforce (c : RestoreConfig) (chain : string) (start_height tip : u64)
  : outcome unit :=
  if bool_decide (rc_policy c = Unlimited) || (min_start_height c chain tip <=? start_height)%Z
  then Ok tt
  else match rc_policy c with
  | CreateOnly => Err (ValidationError "this instance accepts new-wallet registration only (create-only); a restore scan from an earlier height is not permitted here")
  | Bounded => Err (ValidationError ("restore depth exceeds this instance's limit of "
                 ++ pretty (rc_max_depth_days c) ++ " days"))
  | Unlimited => Panic
  end.

Definition required_restore_pow_bits (c : RestoreConfig) (chain : string)
    (start_height tip : u64) : u32 :=
  if (rc_pow_days_per_bit c =? 0)%Z then 0
  else
    let depth_days := (u64_saturating_sub tip start_height / Z.max 1 (blocks_per_day chain))%Z in
    let over := u64_saturating_sub depth_days (rc_pow_free_days c) in
    Z.min (as_u32 (over / rc_pow_days_per_bit c)) (rc_pow_max_bits c).

Definition enforce_restore_pow `{Ext} (c : RestoreConfig) (chain address : string)
    (start_height tip : u64) (nonce : option u64) : outcome unit :=
  let bits := required_restore_pow_bits c chain start_height tip in
  if (bits =? 0)%Z then Ok tt
  else
    nonce ← ok_or nonce (ValidationError ("this restore depth requires a " ++ pretty bits
      ++ "-bit proof-of-work nonce; upgrade to a newer Smirk client"));
    if negb (verify_restore_pow chain address start_height nonce bits)
    then Err (ValidationError
      "restore proof-of-work is insufficient for the requested depth")
    else Ok tt.

(** * A solve is spent once *)

(** The steps of the system on the shared map, at times from [t0] to [T]. *)
Inductive pow_step (t0 T : Time) : Rel :=
| ps_spend sig t d d' b :
    (t0 <= t <= T)%Z -> spend_solution sig t d = (d', b) -> pow_step t0 T t d d'
| ps_other t d d' : spent_solutions d' = spent_solutions d -> pow_step t0 T t d d'.

(** The signature was spent at [t0] or later. *)
Definition spent_since (sig : string) (t0 : Time) (d : Db) : Prop :=
  exists s, spent_solutions d !! sig = Some s /\ (t0 <= s)%Z.

Lemma live_spends_Some now sig m s :
  live_spends now m !! sig = Some s <->
  m !! sig = Some s /\ (now - s < CHALLENGE_TTL_SECONDS * SECOND)%Z.
Proof. apply map_lookup_filter_Some. Qed.

Lemma spent_since_stable sig t0 T :
  (T - t0 < CHALLENGE_TTL_SECONDS * SECOND)%Z -> stable (pow_step t0 T) (spent_since sig t0).
Proof.
  intros HT t d d' Hs (s & Hl & Hle). destruct Hs as [sig' t d d' b Ht E|t d d' E].
  - unfold spend_solution in E. injection E as <- _. unfold spent_since. simpl.
    destruct (decide (sig' = sig)) as [->|Hne].
    + rewrite lookup_insert_eq. exists t. by split; [|lia].
    + exists s. split; [|done]. rewrite lookup_insert_ne by done.
      apply live_spends_Some. split; [done|lia].
  - exists s. by rewrite E.
Qed.

(** A check either refuses without looking at the map, or is one spend. *)
Lemma verify_payload_run `{Altcha} cfg p w w' o :
  verify_payload cfg p w = (w', o) ->
  (w_db w' = w_db w /\ o <> Ok tt) \/
  exists sig, ac_signature (pl_challenge p) = Some sig /\
  let sl := (next_slot w).1 in
  let now := (w_now w + Z.of_N (sl_dt sl))%Z in
  let d := sl_env sl now (w_db w) in
  w_now w' = now /\ w_db w' = (spend_solution sig now d).1 /\
  (o = Ok tt <-> (spend_solution sig now d).2 = true).
Proof.
  intros Hrun. unfold verify_payload, mbind, M_bind, utc_now, lift in Hrun.
  destruct (verify_solution _ _ _ _) as [e|r]; simpl in Hrun.
  { injection Hrun as <- <-. by left. }
  destruct (vr_verified r); simpl in Hrun.
  2: { injection Hrun as <- <-. by left. }
  destruct (ac_signature (pl_challenge p)) as [sig|]; simpl in Hrun.
  2: { injection Hrun as <- <-. by left. }
  right. exists sig. split; [done|]. revert Hrun. unfold in_memory, next_slot.
  destruct (w_sched w) as [|sl rest]; simpl;
    destruct (is_none _) eqn:E; simpl; intros [= <- <-]; simpl; rewrite ?E; naive_solver.
Qed.

(** One solve pays for one registration.  Once a payload has been accepted,
    no payload with the same challenge signature is accepted by this process
    until the time a challenge lives has passed, whatever the other tasks spend
    and prune before, between and during the two checks. *)
Theorem solve_spent_once `{Altcha} cfg p w w1 cfg' p' w2 w3 o t0 T
    (Hsig : ac_signature (pl_challenge p') = ac_signature (pl_challenge p))
    (Hfirst : verify_payload cfg p w = (w1, Ok tt)) (Ht0 : t0 = w_now w1)
    (Hlater : steps (pow_step t0 T) (w_db w1) (w_db w2))
    (Hok : sched_ok (pow_step t0 T) (w_sched w2))
    (Hsecond : verify_payload cfg' p' w2 = (w3, o)) (HT : T = w_now w3)
    (Hsoon : (T - t0 < CHALLENGE_TTL_SECONDS * SECOND)%Z) :
  o <> Ok tt.
Proof.
  apply verify_payload_run in Hfirst as [[_ ?]|(sig & Hs & Hnow & Hdb & _)]; [done|].
  apply verify_payload_run in Hsecond as [[_ ?]|(sig' & Hs' & Hnow' & _ & Ho)]; [done|].
  assert (sig' = sig) as -> by congruence.
  assert (Hst := spent_since_stable sig t0 T Hsoon).
  assert (Hd : spent_since sig t0 (w_db w1)).
  { rewrite Hdb. eexists. simpl. rewrite lookup_insert_eq. split; [done|]. lia. }
  apply (steps_stable _ _ _ _ Hst Hlater) in Hd.
  pose proof (next_slot_env _ _ Hok (w_now w2 + Z.of_N (sl_dt (next_slot w2).1))%Z) as Henv.
  apply (steps_stable _ _ _ _ Hst Henv) in Hd as (s & Hl & Hle).
  rewrite Ho. unfold spend_solution. cbn [snd].
  rewrite (proj2 (live_spends_Some _ sig _ s)); [done|]. split; [done|].
  rewrite HT, Hnow' in Hsoon. lia.
Qed.

(** * The price of a restore *)

Lemma byte_list_split (b : byte) (x y s t : list byte) :
  b ∉ x -> b ∉ y -> (x ++ b :: s)%list = (y ++ b :: t)%list -> x = y /\ s = t.
Proof.
  revert y. induction x as [|c x IH]; intros [|d y] Hx Hy Heq; simpl in *.
  - by injection Heq.
  - injection Heq as -> _. set_solver.
  - injection Heq as <- _. set_solver.
  - injection Heq as -> Heq. destruct (IH y) as [-> ->]; set_solver.
Qed.

Lemma list_byte_inj a b : list_byte_of_string a = list_byte_of_string b -> a = b.
Proof.
  intros Heq. apply (f_equal string_of_list_byte) in Heq.
  by rewrite !string_of_list_byte_of_string in Heq.
Qed.

(** The hashed text names one restore. *)
Lemma restore_text_inj asset addr h n asset' addr' h' n' :
  US ∉ list_byte_of_string asset -> US ∉ list_byte_of_string asset' ->
  in_u64 h -> in_u64 h' -> in_u64 n -> in_u64 n' ->
  (challenge_input asset addr h ++ le_bytes 8 n)%list
    = (challenge_input asset' addr' h' ++ le_bytes 8 n')%list ->
  asset = asset' /\ addr = addr' /\ h = h' /\ n = n'.
Proof.
  unfold in_u64, U64_MAX. intros Ha Ha' Hh Hh' Hn Hn' Heq.
  apply app_inj_2 in Heq as [Heq Hne]; [|by rewrite !length_le_bytes].
  apply le_bytes_inj in Hne; [|simpl; lia..].
  unfold challenge_input in Heq. apply (inj (app _)) in Heq.
  remember (le_bytes 8 h) as x eqn:Ex. remember (le_bytes 8 h') as x' eqn:Ex'.
  assert (Hl : length x = length x') by (by subst; rewrite !length_le_bytes).
  apply (inj (cons US)) in Heq. apply byte_list_split in Heq as [Hae Heq]; [|done..].
  apply list_byte_inj in Hae.
  rewrite !(app_assoc _ [US]) in Heq.
  apply app_inj_2 in Heq as [Heq ->]; [|done].
  apply app_inj_2 in Heq as [Heq _]; [|done]. apply list_byte_inj in Heq.
  rewrite Ex in Ex'. apply le_bytes_inj in Ex'; [done|simpl; lia..].
Qed.

(** The hashcash of a restore is the numeric one, and is bound to the
    restore: for a required difficulty the check accepts a nonce exactly when
    the digest of the restore's text, as a 256-bit number, is below
    [2^(256-bits)]; and two restores with the same text are the same asset,
    address, height and nonce, whatever bytes the client puts in the address. *)
Theorem restore_pow_numeric {E : Ext} {EL : ExtLaws E} asset addr h n bits
    (Hbits : (0 < bits <= 256)%Z) :
  (verify_restore_pow asset addr h n bits = true <->
   (be_value (sha256 (challenge_input asset addr h ++ le_bytes 8 n)) < 2 ^ (256 - bits))%Z) /\
  (forall asset' addr' h' n',
     US ∉ list_byte_of_string asset -> US ∉ list_byte_of_string asset' ->
     in_u64 h -> in_u64 h' -> in_u64 n -> in_u64 n' ->
     (challenge_input asset addr h ++ le_bytes 8 n)%list
       = (challenge_input asset' addr' h' ++ le_bytes 8 n')%list ->
     asset = asset' /\ addr = addr' /\ h = h' /\ n = n').
Proof.
  split; [|intros *; apply restore_text_inj].
  unfold verify_restore_pow. rewrite (proj2 (Z.eqb_neq bits 0)) by lia. rewrite Z.leb_le.
  rewrite leading_zeros_numeric; rewrite sha256_len; [done|lia].
Qed.

Lemma blocks_per_day_bounds chain : (144 <= blocks_per_day chain <= 1440)%Z.
Proof. unfold blocks_per_day. repeat case_match; lia. Qed.

(** The days between a height and the tip, as the source counts them. *)
Definition depth_in_days (chain : string) (start tip : Z) : Z :=
  (Z.max 0 (tip - start) / blocks_per_day chain)%Z.

Definition u32_field (x : Z) : Prop := (0 <= x < 2 ^ 32)%Z.

Definition restore_config_ok (c : RestoreConfig) : Prop :=
  u32_field (rc_max_depth_days c) /\ u32_field (rc_pow_free_days c) /\
  u32_field (rc_pow_days_per_bit c) /\ u32_field (rc_pow_max_bits c).

Lemma required_bits_eq c chain start tip :
  restore_config_ok c -> in_u64 start -> (0 <= tip < 144 * 2 ^ 32)%Z ->
  required_restore_pow_bits c chain start tip =
  if (rc_pow_days_per_bit c =? 0)%Z then 0%Z
  else Z.min (Z.max 0 (depth_in_days chain start tip - rc_pow_free_days c)
              / rc_pow_days_per_bit c)%Z (rc_pow_max_bits c).
Proof.
  intros (_ & Hf & Hd & _) Hs Ht. unfold required_restore_pow_bits, depth_in_days.
  unfold in_u64, u32_field, U64_MAX in *.
  pose proof (blocks_per_day_bounds chain) as Hb.
  destruct (Z.eqb_spec (rc_pow_days_per_bit c) 0) as [|Hp]; [done|].
  rewrite (Z.max_r 1) by lia.
  assert (Hdiff : u64_saturating_sub tip start = Z.max 0 (tip - start)).
  { unfold u64_saturating_sub, clamp, U64_MAX. lia. }
  rewrite Hdiff. set (days := (Z.max 0 (tip - start) / blocks_per_day chain)%Z).
  assert (Hdays : (0 <= days < 2 ^ 32)%Z).
  { unfold days. split; [apply Z.div_pos; lia|]. apply Z.div_lt_upper_bound; [lia|]. nia. }
  assert (Hover : u64_saturating_sub days (rc_pow_free_days c) =
                  Z.max 0 (days - rc_pow_free_days c)).
  { unfold u64_saturating_sub, clamp, U64_MAX. lia. }
  rewrite Hover. set (over := Z.max 0 (days - rc_pow_free_days c)).
  assert (0 <= over / rc_pow_days_per_bit c < 2 ^ 32)%Z.
  { split; [apply Z.div_pos; lia|]. apply Z.div_lt_upper_bound; nia. }
  unfold as_u32. by rewrite Z.mod_small.
Qed.

Lemma saturating_floor tip d b :
  (0 <= tip < 2 ^ 64)%Z -> (0 <= d * b < 2 ^ 64)%Z ->
  u64_saturating_sub tip (u64_saturating_mul d b) = Z.max 0 (tip - d * b).
Proof.
  intros Ht Hd. unfold u64_saturating_mul, u64_saturating_sub, clamp, U64_MAX. lia.
Qed.

Lemma enforce_exact c chain start tip :
  restore_config_ok c -> (0 <= start)%Z -> (0 <= tip < 144 * 2 ^ 32)%Z ->
  enforce c chain start tip = Ok tt <->
  rc_policy c = Unlimited \/
  (tip - blocks_per_day chain *
     (if bool_decide (rc_policy c = CreateOnly) then 1 else rc_max_depth_days c)
   <= start)%Z.
Proof.
  intros (Hmax & _) Hs Ht. unfold u32_field in Hmax.
  pose proof (blocks_per_day_bounds chain) as Hb.
  unfold enforce, min_start_height. destruct (rc_policy c); simpl;
    [rewrite saturating_floor by lia|rewrite saturating_floor by nia|by split; [left|]].
  - case_match eqn:E; split; try done;
      [intros _; right; lia|intros [?|?]; [done|lia]].
  - case_match eqn:E; split; try done;
      [intros _; right; lia|intros [?|?]; [done|lia]].
Qed.

(** The restore policy at its bounds.  For every configuration, height and
    any tip a chain can have, the gate answers without panicking; it admits
    exactly the restores whose height is within the policy's days of the tip
    (all of them when unlimited); the price is zero inside the free days, never
    above the configured cap, and never lower for a deeper restore; and a
    restore passes the price exactly when it is free or its nonce clears the
    bar. *)
Theorem restore_policy_bounds {E : Ext} c chain addr start tip nonce
    (Hc : restore_config_ok c) (Hs : in_u64 start) (Ht : (0 <= tip < 144 * 2 ^ 32)%Z) :
  let bits h := required_restore_pow_bits c chain h tip in
  (enforce c chain start tip = Ok tt <->
     rc_policy c = Unlimited \/
     (tip - blocks_per_day chain *
        (if bool_decide (rc_policy c = CreateOnly) then 1 else rc_max_depth_days c)
      <= start)%Z) /\
  enforce c chain start tip <> Panic /\
  (0 <= bits start <= rc_pow_max_bits c)%Z /\
  ((depth_in_days chain start tip <= rc_pow_free_days c)%Z -> bits start = 0%Z) /\
  (forall deeper, in_u64 deeper -> (deeper <= start)%Z -> (bits start <= bits deeper)%Z) /\
  (enforce_restore_pow c chain addr start tip nonce = Ok tt <->
     bits start = 0%Z \/
     exists n, nonce = Some n /\ verify_restore_pow chain addr start n (bits start) = true).
Proof.
  intros bits.
  assert (Hbits : forall h, in_u64 h -> bits h = if (rc_pow_days_per_bit c =? 0)%Z then 0%Z
    else Z.min (Z.max 0 (depth_in_days chain h tip - rc_pow_free_days c)
              / rc_pow_days_per_bit c)%Z (rc_pow_max_bits c))
    by (intros h Hh; exact (required_bits_eq c chain h tip Hc Hh Ht)).
  pose proof (blocks_per_day_bounds chain) as Hb.
  pose proof Hc as (Hmax & Hfree & Hper & Hcap). unfold u32_field, in_u64, U64_MAX in *.
  split_and!.
  - apply enforce_exact; [done|lia|lia].
  - unfold enforce, min_start_height. destruct (rc_policy c); simpl; by repeat case_match.
  - rewrite Hbits by lia. destruct (Z.eqb_spec (rc_pow_days_per_bit c) 0); [lia|].
    apply Z.min_glb; [apply Z.div_pos; lia|lia].
  - rewrite Hbits by lia. destruct (Z.eqb_spec (rc_pow_days_per_bit c) 0); lia.
  - intros Hin. rewrite Hbits by lia. destruct (Z.eqb_spec (rc_pow_days_per_bit c) 0); [done|].
    rewrite Z.max_l by lia. rewrite Z.div_0_l by lia. lia.
  - intros deeper Hd Hle. rewrite !Hbits by lia.
    destruct (Z.eqb_spec (rc_pow_days_per_bit c) 0); [done|].
    apply Z.min_le_compat_r, Z.div_le_mono; [lia|].
    assert (depth_in_days chain start tip <= depth_in_days chain deeper tip)%Z
      by (apply Z.div_le_mono; lia). lia.
  - unfold enforce_restore_pow. fold (bits start). destruct (Z.eqb_spec (bits start) 0) as [Hz|Hz].
    + split; [by left|done].
    + destruct nonce as [n|]; simpl; [|by split; [|intros [?|(? & ? & _)]]].
      fold (bits start). destruct (verify_restore_pow _ _ _ _ _) eqn:Ev; simpl.
      * split; [|done]. intros _. right. by exists n.
      * split; [done|]. intros [?|(n' & [= <-] & Hv)]; [done|]. congruence.
Qed.

(** The cast to 32 bits comes before the cap: a tip far enough makes the
    deepest restore free. *)
Example price_wraps :
  required_restore_pow_bits (mkRestoreConfig Unlimited 0 0 1 20) "btc" 0 (144 * 2 ^ 32) = 0%Z /\
  required_restore_pow_bits (mkRestoreConfig Unlimited 0 0 1 20) "btc" 0 (144 * (2 ^ 32 - 1)) = 20%Z.
Proof. split; by vm_compute. Qed.

(** * Concrete runs *)

(** A challenge is its signature; every solution verifies. *)
#[export] Instance demo_altcha : Altcha | 1000 := {
  AltchaChallenge := option string;
  AltchaSolution := unit;
  ac_signature c := c;
  create_challenge _ n := inr (Some (pretty n));
  verify_solution _ _ _ _ := inr (mkPowResult true false None None);
}.

Definition demo_pow_cfg : PowConfig := mkPowConfig true "key" true 100 [].
Definition demo_solve : Payload := mkPayload (Some "sig") tt.

(** Spent, then presented again 599 seconds later. *)
Definition demo_spend : World * outcome unit :=
  verify_payload demo_pow_cfg demo_solve (quiet_world empty_db 5).
Definition demo_spend_again : World * outcome unit :=
  verify_payload demo_pow_cfg demo_solve (demo_spend.1 <|w_now := (5 + 599 * SECOND)%Z|>).

Lemma solve_spent_once_witness :
  demo_spend.2 = Ok tt /\ demo_spend_again.2 <> Ok tt.
Proof.
  split; [by vm_compute|].
  apply (solve_spent_once demo_pow_cfg demo_solve (quiet_world empty_db 5) demo_spend.1
    demo_pow_cfg demo_solve (demo_spend.1 <|w_now := (5 + 599 * SECOND)%Z|>)
    demo_spend_again.1 demo_spend_again.2 5 (5 + 599 * SECOND)%Z).
  - reflexivity.
  - by vm_compute.
  - by vm_compute.
  - apply steps_refl.
  - apply sched_ok_nil.
  - apply surjective_pairing.
  - by vm_compute.
  - by vm_compute.
Defined.

Lemma restore_pow_numeric_witness :
  verify_restore_pow "xmr" "addr" 100 7 1 = true.
Proof.
  apply (restore_pow_numeric "xmr" "addr" 100 7 1); [lia|by vm_compute].
Defined.

Lemma restore_policy_bounds_witness :
  let c := mkRestoreConfig Bounded 30 7 10 20 in
  enforce c "xmr" 980000 1000000 = Ok tt /\ enforce c "xmr" 970000 1000000 <> Ok tt /\
  required_restore_pow_bits c "xmr" 997000 1000000 = 0%Z.
Proof.
  assert (Hc : restore_config_ok (mkRestoreConfig Bounded 30 7 10 20))
    by (unfold restore_config_ok, u32_field; simpl; lia).
  destruct (restore_policy_bounds (mkRestoreConfig Bounded 30 7 10 20) "xmr" "a" 980000 1000000
    None Hc ltac:(unfold in_u64, U64_MAX; lia) ltac:(lia)) as (H1 & _).
  destruct (restore_policy_bounds (mkRestoreConfig Bounded 30 7 10 20) "xmr" "a" 970000 1000000
    None Hc ltac:(unfold in_u64, U64_MAX; lia) ltac:(lia)) as (H2 & _).
  destruct (restore_policy_bounds (mkRestoreConfig Bounded 30 7 10 20) "xmr" "a" 997000 1000000
    None Hc ltac:(unfold in_u64, U64_MAX; lia) ltac:(lia)) as (_ & _ & _ & H3 & _).
  split_and!.
  - apply H1. right. by vm_compute.
  - intros Hok. apply H2 in Hok as [?|Hle]; [done|]. by vm_compute in Hle.
  - apply H3. by vm_compute.
Defined.
