(* ===== verification/Lws.v ===== *)
(** [src/infra/lws/client.rs]: the client of a light-wallet server.

    The capacity probe is cached in the client; a call makes at most one, so a
    client carries what the cell holds when the call starts.  The pauses between
    attempts are not modelled. *)

From Stdlib Require Import ZArith Lia Ascii String.
From stdpp Require Import pretty.
From S2P Require Import Prelude RustStr Json Errors Db Effects LwsTypes Http Chains Config.

Local Open Scope string_scope.

Definition MAX_LWS_BODY_BYTES : Z := (8 * 1024 * 1024)%Z.
Definition MAX_DECOY_COUNT : Z := 64.

(** [struct LwsClient]. *)
Record CnClient := mkCnClient {
  cn_network : CryptoNoteNetwork;
  cn_user_url : string;
  cn_admin_url : string;
  cn_admin_key : string;
  cn_daemon_url : string;
  cn_subaddr_capacity : option u32;
}.

Definition cn_new (network : CryptoNoteNetwork) (cfg : LwsConfig) : CnClient :=
  mkCnClient network (lw_lws_url cfg) (lw_lws_admin_url cfg) (lw_lws_admin_key cfg)
    (lw_daemon_url cfg) None.

(** * Requests *)

Definition obj (kvs : list (string * Value)) : Value := to_object kvs.
Definition strings (ss : list string) : Value := VArray (VString <$> ss).

Definition account_body (address view_key : string) : Value :=
  obj [("address", VString address); ("view_key", VString view_key)].
Definition unspent_body (address view_key : string) : Value :=
  obj [("address", VString address); ("view_key", VString view_key); ("amount", VString "0");
       ("use_dust", VBool true); ("dust_threshold", VString "0")].
Definition random_body (count : u32) (amounts : list string) : Value :=
  obj [("count", VNumber count); ("amounts", strings amounts)].
Definition submit_body (tx : string) : Value := obj [("tx", VString tx)].
Definition provision_body (address view_key : string) (maj min n_min : u32) : Value :=
  obj [("address", VString address); ("view_key", VString view_key); ("maj_i", VNumber maj);
       ("min_i", VNumber min); ("n_maj", VNumber 1); ("n_min", VNumber n_min);
       ("get_all", VBool true)].
Definition admin_body (auth : string) (params : list (string * Value)) : Value :=
  obj [("auth", VString auth); ("params", obj params)].
Definition get_info_body : Value :=
  obj [("jsonrpc", VString "2.0"); ("id", VString "0"); ("method", VString "get_info")].
Definition get_transactions_body (txid : string) : Value := obj [("txs_hashes", strings [txid])].

(** * The daemon's answers *)

Definition r_u64 : Reader u64 := dec c_u64.

(** An [Option] field without a default: absent is [None]. *)
Definition optional {A} (r : Reader A) : string -> list (string * Value) -> option (option A) :=
  defaulted None (r_option r).

Definition read_daemon_info : Reader DaemonInfo :=
  r_struct ["result"; "error"] (fun kvs =>
    height ← optional (r_struct ["height"] (required r_u64 "height")) "result" kvs;
    error ← optional Some "error" kvs;
    Some (mkDaemonInfo (is_some error) height)).

Definition read_daemon_tx : Reader DaemonTxInfo :=
  r_struct ["block_height"; "in_pool"] (fun kvs =>
    h ← optional r_u64 "block_height" kvs; p ← optional r_bool "in_pool" kvs;
    Some (mkDaemonTxInfo h p)).

Definition read_daemon_txs : Reader DaemonTxs :=
  r_struct ["txs"; "status"] (fun kvs =>
    t ← optional (r_list read_daemon_tx) "txs" kvs; s ← defaulted "" r_string "status" kvs;
    Some (mkDaemonTxs t s)).

(** * The client *)

Section client.
Context `{Http} (c : CnClient).

Definition cn_err (label detail : string) : AppError :=
  NodeError (network_fmt (cn_network c) ++ " LWS " ++ label ++ ": " ++ detail).

Definition cn_err_status (label : string) (status : Z) : AppError :=
  NodeError (network_fmt (cn_network c) ++ " LWS " ++ label ++ " failed (HTTP " ++ pretty status ++ ")").

Definition cn_err_transport (label message : string) : AppError :=
  NodeError (network_fmt (cn_network c) ++ " LWS " ++ label ++ " request failed: " ++ message).

Definition read_capped (chunks : list (option (list Byte.byte))) : outcome (list Byte.byte) :=
  read_capped_with (NodeError "LWS read failed") (NodeError "LWS response exceeded size limit")
    MAX_LWS_BODY_BYTES [] chunks.

(** What [post_json] makes of an answer. *)
Definition json_reply {R} (label : string) (read : Reader R) (reply : HttpReply) : outcome R :=
  match reply with
  | HttpFailed message => Err (cn_err_transport label message)
  | HttpResponse status chunks =>
      if is_success status then
        bytes ← read_capped chunks;
        ok_or (json_from_slice bytes ≫= read) (cn_err label "invalid response")
      else Err (cn_err_status label status)
  end.

Definition post_json {R} (url label : string) (body : Value) (read : Reader R) : M R :=
  reply ← send url body; lift (json_reply label read reply).

Definition post_ok (url label : string) (body : Value) : M unit :=
  reply ← send url body;
  match reply with
  | HttpFailed message => fail (cn_err_transport label message)
  | HttpResponse status _ =>
      if is_success status then mret tt else fail (cn_err_status label status)
  end.

Definition user_url (path : string) : string := cn_user_url c ++ "/" ++ path.
Definition admin_url (path : string) : string := cn_admin_url c ++ "/" ++ path.
Definition daemon_url (path : string) : string := cn_daemon_url c ++ "/" ++ path.

(** The client as the workers of the tips depend on it. *)
Definition lws_client : LwsClient :=
  mkLwsClient (network_fmt (cn_network c)) (cn_daemon_url c)
    (fun address view_key n => json_reply "get_address_txs" read_address_txs
       (http_post (user_url "get_address_txs") (account_body address view_key) n))
    (fun n => json_reply "daemon get_info" read_daemon_info
       (http_post (daemon_url "json_rpc") get_info_body n))
    (fun txid n => json_reply "daemon get_transactions" read_daemon_txs
       (http_post (daemon_url "get_transactions") (get_transactions_body txid) n)).

(** ** The user's API *)

Definition get_address_info (address view_key : string) : M AddressInfo :=
  post_json (user_url "get_address_info") "get_address_info" (account_body address view_key)
    read_address_info.

(** [Vec::len() > MAX_PARSED_VEC]. *)
Definition too_many {A} (l : list A) : bool := (MAX_PARSED_VEC <? Z.of_nat (length l))%Z.

Definition get_unspent_outs (address view_key : string) : M UnspentOutsResponse :=
  resp ← post_json (user_url "get_unspent_outs") "get_unspent_outs"
    (unspent_body address view_key) read_unspent_outs;
  if too_many (ur_outputs resp) then fail (cn_err "get_unspent_outs" "response too large")
  else mret resp.

Definition get_random_outs (count : u32) (amounts : list string) : M RandomOutsResponse :=
  if too_many amounts then fail (ValidationError "too many amounts requested")
  else
    let count := Z.min count MAX_DECOY_COUNT in
    resp ← post_json (user_url "get_random_outs") "get_random_outs" (random_body count amounts)
      read_random_outs;
    if too_many (rr_amount_outs resp) then fail (cn_err "get_random_outs" "response too large")
    else mret resp.

Definition submit_raw_tx (tx_hex : string) : M unit :=
  post_ok (user_url "submit_raw_tx") "submit_raw_tx" (submit_body tx_hex).

(** ** Accounts *)

Definition list_accounts : M ListAccountsResponse :=
  post_json (admin_url "list_accounts") "list_accounts"
    (obj [("auth", VString (cn_admin_key c))]) read_list_accounts.

(** The scan height of the first entry of this address. *)
Definition scan_height_of (address : string) (l : ListAccountsResponse) : option u64 :=
  ae_scan_height <$>
    (snd <$> list_find (fun e => ae_address e = address) (la_active l ++ la_inactive l ++ la_hidden l)%list).

Definition account_scan_height (address : string) : M (option u64) :=
  accounts ← list_accounts; mret (scan_height_of address accounts).

Definition admin_add_account (address view_key : string) : M unit :=
  post_ok (admin_url "add_account") "add_account"
    (admin_body (cn_admin_key c) [("address", VString address); ("key", VString view_key)]).

Definition rescan (addresses : list string) (height : u64) : M unit :=
  match addresses with
  | [] => mret tt
  | _ => post_ok (admin_url "rescan") "rescan"
           (admin_body (cn_admin_key c) [("addresses", strings addresses); ("height", VNumber height)])
  end.

Definition modify_account_status (addresses : list string) (status : AccountStatus) : M unit :=
  match addresses with
  | [] => mret tt
  | _ => post_ok (admin_url "modify_account_status") "modify_account_status"
           (admin_body (cn_admin_key c) [("addresses", strings addresses); ("status", status_json status)])
  end.

(** ** Subaddresses *)

Definition max_subaddresses : M u32 :=
  match cn_subaddr_capacity c with
  | Some max => mret max
  | None =>
      resp ← post_json (user_url "get_version") "get_version" (obj []) read_version;
      mret (lv_max_subaddresses resp)
  end.

Definition no_capacity (max n_min : u32) : AppError :=
  NodeError (network_fmt (cn_network c) ++ " LWS cannot provision subaddresses: it allows max_subaddresses="
    ++ pretty max ++ " but " ++ pretty n_min
    ++ " are required. Start monero-lws with --max-subaddresses " ++ pretty n_min
    ++ " (or higher), or disable FEATURE_XMR_SUBADDR_PROVISIONING.").

Definition ensure_subaddr_capacity (n_min : u32) : M unit :=
  max ← max_subaddresses;
  if (max <? n_min)%Z then fail (no_capacity max n_min) else mret tt.

Definition provision_subaddrs (address view_key : string) (maj min n_min : u32) : M u32 :=
  resp ← post_json (user_url "provision_subaddrs") "provision_subaddrs"
    (provision_body address view_key maj min n_min) read_provision_response;
  if negb (maj =? 0)%Z
  then fail (cn_err "provision_subaddrs" "only major account 0 can be provisioned")
  else lift (ok_or (confirmed_minor_max resp)
         (cn_err "provision_subaddrs" "response did not confirm a contiguous minor range for account 0")).

(** The loops of three attempts: [more] is how many follow this one. *)
Fixpoint attempts {A} (more : nat) (m : M A) : M A :=
  r ← attempt m;
  match r with
  | inl a => mret a
  | inr e => match more with O => fail e | S more => attempts more m end
  end.

Definition provision_account0_with_retry (address view_key : string) (n_min : u32) : M (option u32) :=
  if (n_min =? 0)%Z then mret None
  else
    _ ← ensure_subaddr_capacity n_min;
    confirmed ← attempts 2 (provision_subaddrs address view_key 0 0 n_min);
    mret (Some confirmed).

Definition provision_account0_covering (address view_key : string) (n_min : u32) : M (option u32) :=
  o ← provision_account0_with_retry address view_key n_min;
  match o : option u32 with
  | None => mret None
  | Some confirmed =>
      if (u32_saturating_add confirmed 1 <? n_min)%Z
      then fail (cn_err "provision_subaddrs" "confirmed subaddress range is narrower than requested")
      else mret (Some confirmed)
  end.

Definition provision_account0 (address view_key : string) (n_min : u32) : M u32 :=
  o ← provision_account0_with_retry address view_key n_min;
  lift (ok_or o (ValidationError "subaddress count must be at least 1")).

(** ** Registration *)

Definition register_account (address view_key : string) (provision_minors : u32) : M unit :=
  known ← account_scan_height address;
  _ ← (if is_none (known : option u64) then admin_add_account address view_key else mret tt);
  if (provision_minors =? 0)%Z then mret tt
  else _ ← provision_account0_covering address view_key provision_minors; mret tt.

Definition rescan_back_to (address : string) (start_height : u64) : M unit :=
  known ← account_scan_height address;
  if (default U64_MAX (known : option u64) <=? start_height)%Z then mret tt
  else attempts 2 (rescan [address] start_height).

(** [result?] of a call made before. *)
Definition propagate {A} (r : A + AppError) : M unit :=
  match r with inl _ => mret tt | inr e => fail e end.

Definition import_account (address view_key : string) (start_height : u64) (provision_minors : u32)
  : M unit :=
  known ← account_scan_height address;
  match known : option u64 with
  | Some _ =>
      _ ← provision_account0_covering address view_key provision_minors; mret tt
  | None =>
      _ ← admin_add_account address view_key;
      provisioned ← attempt (provision_account0_covering address view_key provision_minors);
      rescanned ← attempt (rescan_back_to address start_height);
      _ ← propagate rescanned;
      propagate provisioned
  end.
End client.

(** What the mempool is about to pay. *)
Definition sum_mempool_received (txs : list AddressTx) : u64 :=
  foldl u64_saturating_add 0%Z (at_total_received <$> base.filter (fun t => at_mempool t = true) txs).
