(* ===== verification/WalletCn.v ===== *)
(** [src/api/wallet/xmr_wow.rs], [heights.rs] and the validators of [mod.rs]: the
    wallet's Monero and Wownero handlers.

    The joined upstream calls run one after the other; whether subaddresses are
    provisioned ([FEATURE_XMR_SUBADDR_PROVISIONING]) is read from the environment. *)

From Stdlib Require Import ZArith Lia Ascii String.
From S2P Require Import Prelude RustStr Json Errors Db Effects LwsTypes Http Chains Auth Config Lws TipApi Pow.

Local Open Scope string_scope.

(** * Validators *)

Definition validate_hex (value field : string) (max : nat) : outcome unit :=
  if is_empty value || (max <? len value)%nat
  then Err (ValidationError (field ++ " has invalid length"))
  else if negb (Nat.even (len value)) || negb (all_chars is_ascii_hexdigit value)
  then Err (ValidationError (field ++ " must be even-length hexadecimal"))
  else Ok tt.

Definition validate_hex64 (value field : string) : outcome unit :=
  if negb (len value =? 64)%nat || negb (all_chars is_ascii_hexdigit value)
  then Err (ValidationError (field ++ " must be 64 hexadecimal characters"))
  else Ok tt.

Definition validate_view_key (view_key : string) : outcome unit := validate_hex64 view_key "view_key".

Definition MAX_CN_TX_HEX_LEN : Z := (2 * 1024 * 1024)%Z.
Definition MAX_PROVISION_MINORS : u32 := 200%Z.

(** [capabilities::env_flag_enabled]. *)
Definition env_flag_enabled (env : Env) (name : string) : bool :=
  match env !! name with
  | Some raw => existsb (eq_ignore_ascii_case (trim raw)) ["1"; "true"; "on"; "yes"]
  | None => false
  end.

Definition subaddr_provisioning_enabled (env : Env) : bool :=
  env_flag_enabled env "FEATURE_XMR_SUBADDR_PROVISIONING".

Definition subaddr_provisioning_minors (env : Env) : u32 :=
  if subaddr_provisioning_enabled env then MAX_PROVISION_MINORS else 0%Z.

Definition effective_provision_minors (env : Env) (requested : option u32) : u32 :=
  let base := subaddr_provisioning_minors env in
  if (base =? 0)%Z then 0%Z
  else Z.max base (Z.min (default 0%Z requested) MAX_PROVISION_MINORS).

Definition provision_width_for (env : Env) (max_minor : option u32) : u32 :=
  if negb (subaddr_provisioning_enabled env) then 0%Z
  else match max_minor with
       | Some m => Z.min (u32_saturating_add m 1) MAX_PROVISION_MINORS
       | None => subaddr_provisioning_minors env
       end.

(** * Requests and answers *)

Record ViewRequest := mkViewRequest { vq_asset : string; vq_address : string; vq_view_key : string }.

Record RegisterRequest := mkRegisterRequest {
  rg_asset : string;
  rg_address : string;
  rg_view_key : string;
  rg_start_height : option u64;
  rg_restore_pow_nonce : option u64;
  rg_subaddr_count : option u32;
}.

Record ProvisionRequest := mkProvisionRequest {
  pv_asset : string; pv_address : string; pv_view_key : string; pv_max_minor : option u32 }.

Record ProvisionResponse := mkProvisionResponse {
  pn_asset : string; pn_provisioned_minor_max : u32 }.

Record SubaddrIndexDto := mkSubaddrIndexDto { di_major : u32; di_minor : u32 }.

Record SpentOutputDto := mkSpentOutputDto {
  so_amount : u64;
  so_key_image : string;
  so_tx_pub_key : string;
  so_out_index : u64;
  so_mixin : u64;
  so_subaddr_index : SubaddrIndexDto;
}.

Record TxDto := mkTxDto {
  tx_hash : string;
  tx_height : u64;
  tx_timestamp : string;
  tx_total_received : u64;
  tx_total_sent : u64;
  tx_mempool : bool;
  tx_unlock_time : u64;
  tx_payment_id : option string;
  tx_spent_outputs : list SpentOutputDto;
  tx_subaddr_index : SubaddrIndexDto;
}.

Record UnspentOutputDto := mkUnspentOutputDto {
  ud_amount : u64;
  ud_public_key : string;
  ud_tx_pub_key : string;
  ud_index : u32;
  ud_global_index : u64;
  ud_height : u64;
  ud_timestamp : string;
  ud_tx_hash : string;
  ud_rct : string;
  ud_spend_key_images : list string;
  ud_subaddr_index : SubaddrIndexDto;
}.

Record UnspentOutsDto := mkUnspentOutsDto {
  us_asset : string;
  us_outputs : list UnspentOutputDto;
  us_per_byte_fee : u64;
  us_fee_mask : u64;
  us_fork_version : u8;
}.

Record LwsBalanceResponse := mkLwsBalanceResponse {
  lb_asset : string;
  lb_total_received : u64;
  lb_locked_balance : u64;
  lb_pending_balance : u64;
  lb_start_height : u64;
  lb_scanned_height : u64;
  lb_blockchain_height : u64;
  lb_transaction_count : u64;
  lb_spent_outputs : list SpentOutputDto;
}.

Record LwsHistoryResponse := mkLwsHistoryResponse { lh_asset : string; lh_transactions : list TxDto }.

Record RandomOutputDto := mkRandomOutputDto {
  rd_global_index : u64; rd_public_key : string; rd_rct : string }.
Record AmountOutsDto := mkAmountOutsDto { ad_amount : string; ad_outputs : list RandomOutputDto }.
Record RandomOutsDto := mkRandomOutsDto { rs_asset : string; rs_amount_outs : list AmountOutsDto }.

Record HeightResponse := mkHeightResponse { hr_asset : string; hr_height : u64 }.
Record ConfirmationsResponse := mkConfirmationsResponse {
  cr_asset : string; cr_confirmations : option u64 }.

(** * Mappers *)

Definition subaddr_dto (i : SubaddrIndex) : SubaddrIndexDto := mkSubaddrIndexDto (maj_i i) (min_i i).

Definition spent_dto (s : SpentOutput) : SpentOutputDto :=
  mkSpentOutputDto (spo_amount s) (spo_key_image s) (spo_tx_pub_key s) (spo_out_index s) (spo_mixin s)
    (subaddr_dto (spo_sender s)).

Definition tx_dto (t : AddressTx) : TxDto :=
  mkTxDto (at_hash t) (at_height t) (at_timestamp t) (at_total_received t) (at_total_sent t)
    (at_mempool t) (at_unlock_time t) (at_payment_id t) (spent_dto <$> at_spent_outputs t)
    (subaddr_dto (at_recipient t)).

Definition unspent_dto (u : UnspentOutput) : UnspentOutputDto :=
  mkUnspentOutputDto (uo_amount u) (uo_public_key u) (uo_tx_pub_key u) (uo_index u)
    (uo_global_index u) (uo_height u) (uo_timestamp u) (uo_tx_hash u) (uo_rct u)
    (uo_spend_key_images u) (subaddr_dto (uo_recipient u)).

Definition random_dto (r : RandomOutput) : RandomOutputDto :=
  mkRandomOutputDto (no_global_index r) (no_public_key r) (no_rct r).

(** * Handlers *)

(** What they read of [AppState]. *)
Record WalletState := mkWalletState {
  ws_sessions : SessionManager;
  ws_restore : RestoreConfig;
  ws_xmr : option CnClient;
  ws_wow : option CnClient;
}.

Section handlers.
Context `{Ext} `{Jwt} `{Http} (env : Env) (state : WalletState).

Definition lws_for (asset : string) : outcome CnClient :=
  client ←
    (if asset =? "xmr" then Ok (ws_xmr state)
     else if asset =? "wow" then Ok (ws_wow state)
     else Err (ValidationError ("Invalid CryptoNote asset: " ++ asset ++ " (expected xmr or wow)")));
  ok_or client (ValidationError (asset ++ " support is not enabled on this server")).

(** The opening lines of the handlers: the session, then the client. *)
Definition authorized (h : HeaderMap) (asset : string) : M (string * CnClient) :=
  _ ← extract_user_id_from_token (ws_sessions state) h;
  let asset := to_lowercase asset in
  client ← lift (lws_for asset);
  mret (asset, client).

Definition account (address view_key : string) : M unit :=
  _ ← lift (validate_cn_address address); lift (validate_view_key view_key).

Definition register (h : HeaderMap) (req : RegisterRequest) : M unit :=
  '(asset, client) ← authorized h (rg_asset req);
  _ ← account (rg_address req) (rg_view_key req);
  let provision_minors := effective_provision_minors env (rg_subaddr_count req) in
  match rg_start_height req with
  | Some start =>
      tip ← get_blockchain_height (lws_client client);
      _ ← lift (enforce (ws_restore state) asset start tip);
      _ ← lift (enforce_restore_pow (ws_restore state) asset (rg_address req) start tip
                  (rg_restore_pow_nonce req));
      import_account client (rg_address req) (rg_view_key req) start provision_minors
  | None => register_account client (rg_address req) (rg_view_key req) provision_minors
  end.

(** Mounted when the flag is on only. *)
Definition provision_subaddrs_api (h : HeaderMap) (req : ProvisionRequest) : M ProvisionResponse :=
  '(asset, client) ← authorized h (pv_asset req);
  _ ← account (pv_address req) (pv_view_key req);
  max ← provision_account0 client (pv_address req) (pv_view_key req)
          (provision_width_for env (pv_max_minor req));
  mret (mkProvisionResponse asset max).

Definition balance (h : HeaderMap) (req : ViewRequest) : M LwsBalanceResponse :=
  '(asset, client) ← authorized h (vq_asset req);
  _ ← account (vq_address req) (vq_view_key req);
  info ← attempt (get_address_info client (vq_address req) (vq_view_key req));
  txs ← attempt (get_address_txs (lws_client client) (vq_address req) (vq_view_key req));
  info ← lift (match info with inl i => Ok i | inr e => Err e end);
  txs ← lift (match txs with inl t => Ok t | inr e => Err e end);
  mret (mkLwsBalanceResponse asset (ai_total_received info) (ai_locked_funds info)
    (sum_mempool_received (ar_transactions txs)) (ai_start_height info) (ai_scanned_height info)
    (ai_blockchain_height info) (ai_transaction_count info)
    (spent_dto <$> (ar_transactions txs ≫= at_spent_outputs))).

Definition history (h : HeaderMap) (req : ViewRequest) : M LwsHistoryResponse :=
  '(asset, client) ← authorized h (vq_asset req);
  _ ← account (vq_address req) (vq_view_key req);
  txs ← get_address_txs (lws_client client) (vq_address req) (vq_view_key req);
  mret (mkLwsHistoryResponse asset (tx_dto <$> ar_transactions txs)).

Definition unspent_outs (h : HeaderMap) (req : ViewRequest) : M UnspentOutsDto :=
  '(asset, client) ← authorized h (vq_asset req);
  _ ← account (vq_address req) (vq_view_key req);
  outs ← get_unspent_outs client (vq_address req) (vq_view_key req);
  mret (mkUnspentOutsDto asset (unspent_dto <$> ur_outputs outs) (ur_per_byte_fee outs)
    (ur_fee_mask outs) (ur_fork_version outs)).

Definition random_outs (h : HeaderMap) (asset : string) (count : u32) (amounts : list string)
  : M RandomOutsDto :=
  '(asset, client) ← authorized h asset;
  outs ← get_random_outs client count amounts;
  mret (mkRandomOutsDto asset
    ((fun a => mkAmountOutsDto (ao_amount a) (random_dto <$> ao_outputs a)) <$> rr_amount_outs outs)).

Definition submit_tx (h : HeaderMap) (asset tx_hex : string) : M unit :=
  '(asset, client) ← authorized h asset;
  _ ← lift (validate_hex tx_hex "tx_hex" (Z.to_nat MAX_CN_TX_HEX_LEN));
  submit_raw_tx client tx_hex.

Definition height (h : HeaderMap) (asset : string) : M HeightResponse :=
  '(asset, client) ← authorized h asset;
  n ← get_blockchain_height (lws_client client);
  mret (mkHeightResponse asset n).

Definition confirmations (h : HeaderMap) (asset txid : string) : M ConfirmationsResponse :=
  '(asset, client) ← authorized h asset;
  _ ← lift (validate_hex txid "txid" 64);
  n ← get_transaction_confirmations (lws_client client) txid;
  mret (mkConfirmationsResponse asset n).
End handlers.

(** ** [GET /wallet/heights] *)

Record HeightsResponse := mkHeightsResponse {
  hs_btc : option i64; hs_ltc : option i64; hs_xmr : option i64; hs_wow : option i64;
  hs_grin : option i64 }.

(** [match chain { Some(c) => c.tip().await.ok(), None => None }]. *)
Definition best_effort {C} (chain : option C) (tip : C -> M i64) : M (option i64) :=
  match chain with
  | Some c => r ← attempt (tip c); mret (match r with inl n => Some n | inr _ => None end)
  | None => mret None
  end.

Definition heights `{Ext} `{Jwt} (m : SessionManager) (chains : ChainClients) (h : HeaderMap)
  : M HeightsResponse :=
  _ ← extract_user_id_from_token m h;
  b ← best_effort (btc chains) (fun e => upstream (el_get_tip_height e));
  l ← best_effort (ltc chains) (fun e => upstream (el_get_tip_height e));
  x ← best_effort (xmr chains) (fun c => as_i64 <$> get_blockchain_height c);
  w ← best_effort (wow chains) (fun c => as_i64 <$> get_blockchain_height c);
  g ← best_effort (grin chains) (fun c => as_i64 <$> get_height c);
  mret (mkHeightsResponse b l x w g).
