(* ===== verification/LwsSafety.v ===== *)
(** What the light-wallet client promises: the ceiling of subaddresses it reports is
    the one the server scans, an account that is known is never reset, and a
    registration that answers did what it was asked for. *)

From Stdlib Require Import ZArith Lia Ascii String.
From stdpp Require Import sorting.
From S2P Require Import Prelude RustStr Json Errors Db Effects LwsTypes Http Chains Auth Config Lws TipApi Pow WalletCn.

Local Open Scope string_scope.

(** * The confirmed ceiling *)

(** Minor index [i] of account 0 is in a range of the answer. *)
Definition scanned (p : ProvisionSubaddrsResponse) (i : Z) : Prop :=
  exists k e r, list_find (fun e => re_key e = 0%Z) (all_subaddrs p) = Some (k, e) /\
    r ∈ re_value e /\ (r.1 <= i <= r.2)%Z.

Definition range_typed (r : u32 * u32) : Prop := (0 <= r.1 <= U32_MAX)%Z /\ (0 <= r.2 <= U32_MAX)%Z.
Definition ranges_typed (p : ProvisionSubaddrsResponse) : Prop :=
  Forall (fun e => Forall range_typed (re_value e)) (all_subaddrs p).

#[export] Instance pair_le_total : Total pair_le.
Proof. intros [a b] [c d]. unfold pair_le. simpl. lia. Qed.
#[export] Instance pair_le_trans : Transitive pair_le.
Proof. intros [a b] [c d] [e f]. unfold pair_le. simpl. lia. Qed.

(** The run from a ceiling over sorted ranges: everything up to where it ends is
    covered, and the next index is not. *)
Lemma extend_run_spec c rs :
  (0 <= c <= U32_MAX)%Z -> StronglySorted pair_le rs ->
  Forall (fun r => range_typed r /\ (r.1 <= r.2)%Z) rs ->
  let m := extend_run c rs in
  (c <= m <= U32_MAX)%Z /\
  (forall i, (c < i <= m)%Z -> exists r, r ∈ rs /\ (r.1 <= i <= r.2)%Z) /\
  (forall r, r ∈ rs -> ~ (r.1 <= m + 1 <= r.2)%Z).
Proof.
  revert c. induction rs as [|r rs IH]; intros c Hc Hs Ht; cbn [extend_run].
  { split_and!; [lia..|intros i Hi; lia|intros r Hr; by apply elem_of_nil in Hr]. }
  apply StronglySorted_inv in Hs as [Hs Hle]. apply Forall_cons in Ht as [[[Hr1 Hr2] Hrr] Ht].
  unfold u32_saturating_add. destruct (Z.ltb_spec (Z.min (c + 1) U32_MAX) r.1) as [Hgap|Hin].
  - split_and!; [lia..|intros i Hi; lia|].
    intros r' [->|Hr']%elem_of_cons; [lia|].
    rewrite Forall_forall in Hle. specialize (Hle r' Hr'). unfold pair_le in Hle. lia.
  - assert (Hc' : (0 <= Z.max c r.2 <= U32_MAX)%Z) by lia.
    destruct (IH (Z.max c r.2) Hc' Hs Ht) as (Hm & Hcov & Hnot). split_and!; [lia..| |].
    + intros i Hi. destruct (decide (i <= Z.max c r.2)%Z) as [Hle'|Hgt].
      * exists r. split; [apply list_elem_of_here|lia].
      * destruct (Hcov i) as (r' & Hr' & Hi'); [lia|]. exists r'.
        split; [by apply list_elem_of_further|done].
    + intros r' [->|Hr']%elem_of_cons; [lia|by apply Hnot].
Qed.

Lemma sorted_ranges_spec value :
  Forall range_typed value ->
  StronglySorted pair_le (sorted_ranges value) /\
  Forall (fun r => range_typed r /\ (r.1 <= r.2)%Z) (sorted_ranges value) /\
  (forall r, r ∈ sorted_ranges value <-> (r.1 <= r.2)%Z /\ r ∈ value).
Proof.
  intros Ht. unfold sorted_ranges.
  assert (Hp : forall r, r ∈ merge_sort pair_le (base.filter (fun r : u32 * u32 => (r.1 <= r.2)%Z) value)
            <-> (r.1 <= r.2)%Z /\ r ∈ value).
  { intros r. rewrite merge_sort_Permutation.
    apply (list_elem_of_filter (fun r : u32 * u32 => (r.1 <= r.2)%Z)). }
  split_and!; [apply StronglySorted_merge_sort; apply _| |done].
  apply Forall_forall. intros r [Hr Hin]%Hp. rewrite Forall_forall in Ht. by split; [apply Ht|].
Qed.

Lemma scanned_iff p k e i :
  list_find (fun e => re_key e = 0%Z) (all_subaddrs p) = Some (k, e) ->
  scanned p i <-> exists r, r ∈ re_value e /\ (r.1 <= i <= r.2)%Z.
Proof.
  intros Hf. unfold scanned. rewrite Hf. split; [|intros (r & ? & ?); eauto 10].
  intros (k' & e' & r & [= <- <-] & ? & ?). eauto.
Qed.

Lemma ceiling_spec p :
  ranges_typed p ->
  match confirmed_minor_max p with
  | Some m => (0 <= m <= U32_MAX)%Z /\ (forall i, (0 <= i <= m)%Z -> scanned p i) /\ ~ scanned p (m + 1)
  | None => ~ scanned p 0
  end.
Proof.
  intros Htyped.
  unfold confirmed_minor_max.
  destruct (list_find _ (all_subaddrs p)) as [[k e]|] eqn:Hf.
  2: { intros (k & e & r & Hf' & _). congruence. }
  assert (He : Forall range_typed (re_value e)).
  { apply list_find_Some in Hf as (Hl & _ & _). unfold ranges_typed in Htyped.
    rewrite Forall_forall in Htyped. apply Htyped. by eapply list_elem_of_lookup_2. }
  destruct (sorted_ranges_spec _ He) as (Hs & Ht & Hin).
  destruct (sorted_ranges (re_value e)) as [|first rest].
  { rewrite (scanned_iff _ _ _ _ Hf). intros (r & Hr & Hi).
    apply (not_elem_of_nil r), Hin. split; [lia|done]. }
  apply StronglySorted_inv in Hs as [Hs Hle]. apply Forall_cons in Ht as [[[H1 H2] H12] Ht].
  destruct (Z.eqb_spec first.1 0) as [H0|H0].
  - destruct (extend_run_spec first.2 rest) as (Hm & Hcov & Hnot); [lia|done..|].
    split; [lia|]. rewrite (scanned_iff _ _ _ _ Hf).
    setoid_rewrite (scanned_iff _ _ _ _ Hf). split.
    + intros i Hi. destruct (decide (i <= first.2)%Z) as [Hle'|Hgt].
      * exists first. split; [apply Hin, list_elem_of_here|lia].
      * destruct (Hcov i) as (r & Hr & Hi'); [lia|]. exists r. split; [|done].
        apply Hin. by apply list_elem_of_further.
    + intros (r & Hr & Hi). assert (Hr' : r ∈ first :: rest) by (apply Hin; split; [lia|done]).
      apply elem_of_cons in Hr' as [->|Hr']; [lia|by apply (Hnot r)].
  - rewrite (scanned_iff _ _ _ _ Hf). intros (r & Hr & Hi).
    assert (Hr' : r ∈ first :: rest) by (apply Hin; split; [lia|done]).
    apply elem_of_cons in Hr' as [->|Hr']; [lia|].
    rewrite Forall_forall in Hle. specialize (Hle r Hr'). unfold pair_le in Hle. lia.
Qed.

(** What is read from JSON is typed. *)
Lemma read_all_Forall {A} (r : Reader A) (P : A -> Prop) vs l :
  (forall v a, r v = Some a -> P a) -> read_all r vs = Some l -> Forall P l.
Proof.
  intros Hr. revert l. induction vs as [|v vs IH]; intros l; cbn [read_all]; [by intros [= <-]|].
  intros (a & Ha & (l' & Hl & [= <-])%bind_Some)%bind_Some. constructor; eauto.
Qed.

Lemma defaulted_list {A} (r : Reader A) (P : A -> Prop) name kvs l :
  (forall v a, r v = Some a -> P a) -> defaulted [] (r_list r) name kvs = Some l -> Forall P l.
Proof.
  intros Hr. unfold defaulted, defaulted_as. intros (o & _ & Ho)%bind_Some.
  destruct o as [v|]; [|by injection Ho as <-]. destruct v; try done. by eapply read_all_Forall.
Qed.

Lemma read_pair_typed v r : read_pair v = Some r -> range_typed r.
Proof.
  unfold read_pair, in_range, range_typed. intros Hr.
  repeat (case_match; try done).
  all: apply bind_Some in Hr as (a & Ha & (b & Hb & [= <-])%bind_Some); simpl;
    repeat case_match; try done; simplify_eq; split_bools; lia.
Qed.

Lemma read_provision_typed v p : read_provision_response v = Some p -> ranges_typed p.
Proof.
  unfold read_provision_response, r_struct. intros (kvs & _ & Hr)%bind_Some.
  apply bind_Some in Hr as (n & _ & Hr). apply bind_Some in Hr as (a & Ha & [= <-]).
  unfold ranges_typed. simpl. eapply defaulted_list; [|exact Ha]. clear. intros v e.
  unfold read_range_entry, r_struct. intros (kvs & _ & Hr)%bind_Some.
  apply bind_Some in Hr as (k & _ & Hr). apply bind_Some in Hr as (l & Hl & [= <-]). simpl.
  eapply defaulted_list; [|exact Hl]. apply read_pair_typed.
Qed.

(** * The ceiling, for every answer *)

(** The ceiling reported for account 0 is exact.  It is the highest minor index
    up to which the server scans without a gap, and there is none exactly when the
    server does not scan the primary address: no ceiling can make a wallet hand out
    an address whose funds would not be seen. *)
Theorem confirmed_ceiling_exact (p : ProvisionSubaddrsResponse) (Htyped : ranges_typed p) :
  match confirmed_minor_max p with
  | Some m => (0 <= m <= U32_MAX)%Z /\ (forall i, (0 <= i <= m)%Z -> scanned p i) /\ ~ scanned p (m + 1)
  | None => ~ scanned p 0
  end.
Proof. by apply ceiling_spec. Qed.

(** * The calls of a registration *)

Inductive Call :=
| CList
| CAdd
| CRescan (height : u64)
| CVersion
| CProvision (n_min : u32).

Section calls.
Context `{Http} (c : CnClient) (address view_key : string).

Definition request (call : Call) : string * Value :=
  match call with
  | CList => (admin_url c "list_accounts", obj [("auth", VString (cn_admin_key c))])
  | CAdd => (admin_url c "add_account",
      admin_body (cn_admin_key c) [("address", VString address); ("key", VString view_key)])
  | CRescan h => (admin_url c "rescan",
      admin_body (cn_admin_key c) [("addresses", strings [address]); ("height", VNumber h)])
  | CVersion => (user_url c "get_version", obj [])
  | CProvision n => (user_url c "provision_subaddrs", provision_body address view_key 0 0 n)
  end.

(** The answer to a call, the [k]-th one. *)
Definition answer (k : nat) (call : Call) : HttpReply :=
  http_post (request call).1 (request call).2 k.

(** From [k] calls on, [m] makes some calls [cs] and returns [o], with [Φ cs o]. *)
Definition wp {A} (m : M A) (k : nat) (Φ : list Call -> outcome A -> Prop) : Prop :=
  forall w w' o, w_calls w = k -> m w = (w', o) -> exists cs,
    w_sent w' = (w_sent w ++ (request <$> cs))%list /\ w_calls w' = (k + length cs)%nat /\ Φ cs o.

Lemma wp_lift {A} (r : outcome A) k (Φ : list Call -> outcome A -> Prop) : Φ [] r -> wp (lift r) k Φ.
Proof. intros HΦ w w' o <- [= <- <-]. exists []. by rewrite app_nil_r, Nat.add_0_r. Qed.

Lemma wp_ret {A} (a : A) k (Φ : list Call -> outcome A -> Prop) : Φ [] (Ok a) -> wp (mret a) k Φ.
Proof. apply (wp_lift (Ok a)). Qed.

Lemma wp_mono {A} (m : M A) k (Φ Ψ : list Call -> outcome A -> Prop) :
  wp m k Φ -> (forall cs o, Φ cs o -> Ψ cs o) -> wp m k Ψ.
Proof. intros Hm HΦ w w' o Hk E. destruct (Hm w w' o Hk E) as (cs & ? & ? & ?). eauto 6. Qed.

Lemma wp_bind {A B} (m : M A) (f : A -> M B) k (Φ : list Call -> outcome B -> Prop) :
  wp m k (fun cs o => match o with
    | Ok a => wp (f a) (k + length cs) (fun cs' o' => Φ (cs ++ cs')%list o')
    | Err e => Φ cs (Err e)
    | Panic => Φ cs Panic
    end) -> wp (m ≫= f) k Φ.
Proof.
  intros Hm w w' o Hk E. unfold mbind, M_bind in E.
  destruct (m w) as [w1 r] eqn:Em. destruct (Hm w w1 r Hk Em) as (cs & Hs & Hk1 & HP).
  destruct r as [a|e|]; [|injection E as <- <-; exists cs; eauto..].
  destruct (HP w1 w' o Hk1 E) as (cs' & Hs' & Hk' & HΦ). exists (cs ++ cs')%list.
  split; [by rewrite Hs', Hs, fmap_app, app_assoc|]. split; [rewrite length_app; lia|done].
Qed.

Lemma wp_attempt {A} (m : M A) k (Φ : list Call -> outcome (A + AppError) -> Prop) :
  wp m k (fun cs o => match o with
    | Ok a => Φ cs (Ok (inl a)) | Err e => Φ cs (Ok (inr e)) | Panic => Φ cs Panic end) ->
  wp (attempt m) k Φ.
Proof.
  intros Hm w w' o Hk E. unfold attempt in E. destruct (m w) as [w1 r] eqn:Em.
  destruct (Hm w w1 r Hk Em) as (cs & ? & ? & ?). destruct r; injection E as <- <-; eauto.
Qed.

Lemma wp_send call k (Φ : list Call -> outcome HttpReply -> Prop) :
  Φ [call] (Ok (answer k call)) -> wp (send (request call).1 (request call).2) k Φ.
Proof.
  intros HΦ w w' o <- [= <- <-]. exists [call]. cbn [w_sent w_calls length fmap list_fmap].
  rewrite <- surjective_pairing. split; [done|]. split; [|done]. cbn. lia.
Qed.

Lemma wp_post_json {R} call label (read : Reader R) k (Φ : list Call -> outcome R -> Prop) :
  Φ [call] (json_reply c label read (answer k call)) ->
  wp (post_json c (request call).1 label (request call).2 read) k Φ.
Proof. intros HΦ. apply wp_bind, wp_send, wp_lift, HΦ. Qed.

(** The server took a call. *)
Definition acked (k : nat) (call : Call) : Prop :=
  exists status chunks, answer k call = HttpResponse status chunks /\ is_success status = true.

Lemma wp_post_ok call label k (Φ : list Call -> outcome unit -> Prop) :
  (acked k call -> Φ [call] (Ok tt)) -> (forall e, Φ [call] (Err e)) ->
  wp (post_ok c (request call).1 label (request call).2) k Φ.
Proof.
  intros HOk HErr. apply wp_bind, wp_send.
  destruct (answer k call) as [msg|status chunks] eqn:Ea; [apply wp_lift, HErr|].
  destruct (is_success status) eqn:Es; [apply wp_ret, HOk; by exists status, chunks|apply wp_lift, HErr].
Qed.

(** What the [k]-th call says of the account, if it is a listing. *)
Definition listed (k : nat) : outcome (option u64) :=
  l ← json_reply c "list_accounts" read_list_accounts (answer k CList); Ok (scan_height_of address l).

Lemma wp_listing k (Φ : list Call -> outcome (option u64) -> Prop) :
  Φ [CList] (listed k) -> wp (account_scan_height c address) k Φ.
Proof.
  intros HΦ. apply wp_bind, (wp_post_json CList). unfold listed in HΦ.
  destruct (json_reply _ _ _ _); [apply wp_ret|..]; exact HΦ.
Qed.

(** The [k]-th call had the server scan every minor index below [n]. *)
Definition covered (k : nat) (n : u32) : Prop :=
  exists p, json_reply c "provision_subaddrs" read_provision_response (answer k (CProvision n)) = Ok p /\
    forall i, (0 <= i < n)%Z -> scanned p i.

(** The calls of up to [m] attempts of the same call [x]: all are [x], and if the
    outcome is [Ok a] the last one gave [a]. *)
Lemma wp_attempts {A} (m : M A) x (good : nat -> A -> Prop) more k
    (Φ : list Call -> outcome A -> Prop) :
  (forall k, wp m k (fun cs o => cs = [x] /\ match o with Ok a => good k a | Err _ => True | Panic => False end)) ->
  (forall j a, (j <= more)%nat -> good (k + j)%nat a -> Φ (replicate (S j) x) (Ok a)) ->
  (forall e, Φ (replicate (S more) x) (Err e)) ->
  wp (attempts more m) k Φ.
Proof.
  intros Hm. revert k Φ. induction more as [|more IH]; intros k Φ HOk HErr; cbn [attempts].
  all: apply wp_bind, wp_attempt; eapply wp_mono; [apply Hm|]; intros cs o [-> Ho].
  all: destruct o as [a|e|]; [|try apply wp_lift|done].
  1,3: apply wp_ret; apply (HOk O); [lia|by rewrite Nat.add_0_r].
  - apply HErr.
  - apply IH; [|intros e'; apply (HErr e')].
    intros j a Hj Hg. apply (HOk (S j) a); [lia|].
    cbn in Hg. by replace (k + S j)%nat with (k + 1 + j)%nat by lia.
Qed.

Lemma json_reply_no_panic {R} label (read : Reader R) reply : json_reply c label read reply <> Panic.
Proof.
  unfold json_reply. destruct reply as [|status chunks]; [done|]. destruct (is_success status); [|done].
  unfold read_capped. generalize ([] : list Byte.byte).
  induction chunks as [|[ch|] chunks IH]; intros buf; cbn [read_capped_with]; [|case_match; [done|apply IH]|done].
  cbn. by destruct (json_from_slice buf ≫= read).
Qed.

(** The [k]-th call confirmed the ceiling [m]. *)
Definition confirmed (n : u32) (k : nat) (m : u32) : Prop :=
  exists p, json_reply c "provision_subaddrs" read_provision_response (answer k (CProvision n)) = Ok p /\
    confirmed_minor_max p = Some m.

Lemma json_reply_read {R} label (read : Reader R) reply r :
  json_reply c label read reply = Ok r -> exists v, read v = Some r.
Proof.
  unfold json_reply. destruct reply as [|status chunks]; [done|]. destruct (is_success status); [|done].
  intros (bs & _ & Hr)%bind_Ok. unfold ok_or in Hr.
  destruct (json_from_slice bs) as [v|]; [|done]. exists v. cbn in Hr. by case_match; simplify_eq.
Qed.

Lemma confirmed_covered n k m :
  confirmed n k m -> (n <= u32_saturating_add m 1)%Z -> covered k n.
Proof.
  intros (p & Hp & Hm) Hn. exists p. split; [done|].
  destruct (json_reply_read _ _ _ _ Hp) as [v Hv].
  pose proof (ceiling_spec p (read_provision_typed _ _ Hv)) as Hc. rewrite Hm in Hc.
  destruct Hc as (_ & Hc & _). intros i Hi. apply Hc. unfold u32_saturating_add in Hn. lia.
Qed.

Lemma wp_provision n k (Φ : list Call -> outcome u32 -> Prop) :
  (forall o, match o with Ok m => confirmed n k m | Err _ => True | Panic => False end ->
     Φ [CProvision n] o) -> wp (provision_subaddrs c address view_key 0 0 n) k Φ.
Proof.
  intros HΦ. apply wp_bind, (wp_post_json (CProvision n)).
  destruct (json_reply _ _ _ _) as [p|e|] eqn:Ej; [|by apply HΦ|by apply json_reply_no_panic in Ej].
  apply wp_lift, HΦ. cbn [negb Z.eqb]. destruct (confirmed_minor_max p) as [m|] eqn:Em; [|done].
  by exists p.
Qed.

(** The calls of a provisioning of [n] minor indices. *)
Definition provisioning (n : u32) (cs : list Call) : Prop :=
  (length cs <= 4)%nat /\ Forall (fun x => x = CVersion \/ x = CProvision n) cs.

(** Some call among [cs], the first of them being the [k]-th, covered [n]. *)
Definition some_covered (k : nat) (n : u32) (cs : list Call) : Prop :=
  exists j, cs !! j = Some (CProvision n) /\ covered (k + j) n.

Lemma wp_capacity n k (Φ : list Call -> outcome unit -> Prop) :
  (forall cs o, cs = [] \/ cs = [CVersion] -> o <> Panic -> Φ cs o) ->
  wp (ensure_subaddr_capacity c n) k Φ.
Proof.
  intros HΦ. unfold ensure_subaddr_capacity, max_subaddresses. apply wp_bind.
  destruct (cn_subaddr_capacity c) as [max|].
  - apply wp_ret. case_match; [apply wp_lift|apply wp_ret]; apply HΦ; auto.
  - apply wp_bind, (wp_post_json CVersion).
    destruct (json_reply _ _ _ _) as [p|e|] eqn:Ej; [|by apply HΦ; auto|by apply json_reply_no_panic in Ej].
    apply wp_ret. case_match; [apply wp_lift|apply wp_ret]; apply HΦ; auto.
Qed.

Lemma wp_covering n k :
  wp (provision_account0_covering c address view_key n) k (fun cs o =>
    provisioning n cs /\
    match o with Ok _ => n = 0%Z \/ some_covered k n cs | Err _ => True | Panic => False end).
Proof.
  unfold provision_account0_covering, provision_account0_with_retry. apply wp_bind.
  destruct (Z.eqb_spec n 0) as [Hn|Hn].
  { apply wp_ret, wp_ret. repeat split; [cbn; lia|constructor|auto]. }
  apply wp_bind, wp_capacity. intros v [[]|e|] Hv Hp; [|split; [|done]|done].
  2: { destruct Hv as [->| ->]; split; cbn; [lia|constructor|lia|repeat constructor; auto]. }
  apply wp_bind, (wp_attempts _ (CProvision n) (confirmed n)).
  - intros k'. apply wp_provision. intros o Ho. by destruct o.
  - intros j m Hj Hm. apply wp_ret. rewrite app_nil_r.
    assert (Hps : provisioning n (v ++ replicate (S j) (CProvision n))).
    { split; [rewrite length_app, length_replicate; destruct Hv as [->| ->]; cbn; lia|].
      apply Forall_app. split; [destruct Hv as [->| ->]; repeat constructor; auto|].
      apply Forall_replicate. auto. }
    destruct (Z.ltb_spec (u32_saturating_add m 1) n) as [Hlt|Hge];
      [apply wp_lift|apply wp_ret]; rewrite app_nil_r; (split; [done|]); [done|].
    right. exists (length v + j)%nat. split.
    + rewrite lookup_app_r by lia. apply lookup_replicate. split; [done|lia].
    + eapply confirmed_covered; [|exact Hge]. by rewrite Nat.add_assoc.
  - intros e. split; [|done]. split; [rewrite length_app; destruct Hv as [->| ->]; cbn; lia|].
    apply Forall_app. split; [destruct Hv as [->| ->]; repeat constructor; auto|].
    apply Forall_replicate. auto.
Qed.
(** A rescan of the [k]-th listing on: it is asked for at most three times, and
    only when it lowers the height the listing gives. *)
Record Rescans (start : u64) (k m : nat) (o : outcome unit) : Prop := {
  rs_bounded : (m <= 3)%nat;
  rs_lowers : m <> O -> exists r, listed k = Ok r /\ (start < default U64_MAX r)%Z;
  rs_done : o = Ok tt ->
    (exists r, listed k = Ok r /\ (default U64_MAX r <= start)%Z) \/
    (exists j, (j < m)%nat /\ acked (k + 1 + j) (CRescan start));
  rs_no_panic : o <> Panic;
}.

Lemma listed_no_panic k : listed k <> Panic.
Proof.
  unfold listed. destruct (json_reply _ _ _ _) eqn:Ej; [done..|]. by apply json_reply_no_panic in Ej.
Qed.

Lemma wp_rescan_back start k :
  wp (rescan_back_to c address start) k (fun cs o =>
    exists m, cs = CList :: replicate m (CRescan start) /\ Rescans start k m o).
Proof.
  apply wp_bind, wp_listing. destruct (listed k) as [r|e|] eqn:El; [| |by apply listed_no_panic in El].
  2: { exists O. split; [done|]. split; [lia|done..]. }
  destruct (Z.leb_spec (default U64_MAX r) start) as [Hle|Hlt].
  { apply wp_ret. exists O. split; [done|]. split; [lia|done|eauto|done]. }
  apply (wp_attempts _ (CRescan start) (fun k _ => acked k (CRescan start))).
  - intros k'. apply (wp_post_ok (CRescan start)); [done|done].
  - intros j [] Hj Ha. exists (S j). split; [done|]. split; [lia|eauto|eauto 6 with lia|done].
  - intros e. exists 3%nat. split; [done|]. split; [lia|eauto|done|done].
Qed.

(** What an import did: the calls [cs], the first of them the [k]-th, and the
    outcome. *)
Inductive ImportRun (start : u64) (n : u32) (k : nat) : list Call -> outcome unit -> Prop :=
| ImportUnlisted e : listed k = Err e -> ImportRun start n k [CList] (Err e)
| ImportKnown h ps o :
    listed k = Ok (Some h) -> provisioning n ps -> o <> Panic ->
    (o = Ok tt -> n = 0%Z \/ some_covered (k + 1) n ps) ->
    ImportRun start n k (CList :: ps) o
| ImportNotAdded e : listed k = Ok None -> ImportRun start n k [CList; CAdd] (Err e)
| ImportAdded ps m o :
    listed k = Ok None -> acked (k + 1) CAdd -> provisioning n ps ->
    (o = Ok tt -> n = 0%Z \/ some_covered (k + 2) n ps) ->
    Rescans start (k + 2 + length ps) m o ->
    ImportRun start n k (CList :: CAdd :: ps ++ CList :: replicate m (CRescan start)) o.

Lemma import_runs start n k :
  wp (import_account c address view_key start n) k (ImportRun start n k).
Proof.
  apply wp_bind, wp_listing. destruct (listed k) as [[h|]|e|] eqn:El; [..|by constructor|by apply listed_no_panic in El].
  - apply wp_bind. eapply wp_mono; [apply wp_covering|]. intros ps o [Hps Ho].
    destruct o as [x|e|]; [apply wp_ret; rewrite app_nil_r| |done]; by econstructor.
  - apply wp_bind, (wp_post_ok CAdd); [|intros e; by constructor]. intros Ha.
    apply wp_bind, wp_attempt. cbn [length]. rewrite <- Nat.add_assoc.
    eapply wp_mono; [apply wp_covering|]. intros ps op [Hps Hop].
    destruct op as [x|ep|]; [..|done].
    all: apply wp_bind, wp_attempt; eapply wp_mono; [apply wp_rescan_back|]; intros rs o (m & -> & Hm).
    all: destruct o as [[]|er|]; [..|by destruct Hm].
    all: apply wp_bind; cbn [propagate]; repeat first [apply wp_ret | apply wp_lift].
    all: rewrite ?app_nil_r; apply (ImportAdded start n k ps m); try done.
    all: destruct Hm as [H1 H2 H3 H4]; split; try done; auto.
Qed.

(** An import never resets an account the server knows.  It starts with a
    listing; a known account is neither added again nor rescanned.  Otherwise the
    rescan goes back to the wallet's birthday and nowhere else, after the server took
    the account and every provisioning call, and only when a listing made since gives
    a height above it: [rescan] towards the tip is undefined in [monero-lws]. *)
Theorem import_protocol start n w w' o
    (Hrun : import_account c address view_key start n w = (w', o)) :
  exists cs, w_sent w' = (w_sent w ++ (request <$> cs))%list /\ head cs = Some CList /\
    (length cs <= 10)%nat /\
    (forall h, listed (w_calls w) = Ok (Some h) -> Forall (fun x => x = CVersion \/ x = CProvision n) (tail cs)) /\
    (forall i h, cs !! i = Some (CRescan h) ->
       h = start /\ listed (w_calls w) = Ok None /\
       cs !! 1 = Some CAdd /\ acked (w_calls w + 1) CAdd /\
       (exists j r, (1 < j < i)%nat /\ cs !! j = Some CList /\ listed (w_calls w + j) = Ok r /\
          (start < default U64_MAX r)%Z) /\
       (forall j n', cs !! j = Some (CProvision n') -> (j < i)%nat)).
Proof.
  destruct (import_runs start n (w_calls w) w w' o eq_refl Hrun) as (cs & Hs & _ & Hr). exists cs.
  split; [done|]. destruct Hr as [e Hl|h ps o Hl [Hlen Hps] _ _|e Hl|ps m o Hl Ha [Hlen Hps] _ Hm].
  - split_and!; [done|cbn; lia|congruence|]. by intros [|[|i]] h.
  - split_and!; [done|cbn; lia|done|]. intros [|i] h'; [done|].
    intros Hi%(Forall_lookup_1 _ _ _ _ Hps). naive_solver.
  - split_and!; [done|cbn; lia|congruence|]. by intros [|[|[|i]]] h.
  - destruct Hm as [H1 H2 _ _]. split_and!; [done| |congruence|].
    { cbn. rewrite length_app. cbn. rewrite length_replicate. lia. }
    intros [|[|i]] h Hi; [done..|]. cbn in Hi. apply lookup_app_Some in Hi as [Hi|[Hge Hi]].
    { apply (Forall_lookup_1 _ _ _ _ Hps) in Hi. naive_solver. }
    destruct (i - length ps)%nat as [|d] eqn:Ed; [done|]. cbn in Hi.
    apply lookup_replicate in Hi as [[= <-] Hd]. split_and!; [done..| |].
    + destruct H2 as (r & Hr & Hlt); [lia|]. exists (2 + length ps)%nat, r.
      split; [lia|]. split; [|by rewrite Nat.add_assoc].
      by apply list_lookup_middle.
    + intros [|[|j]] n' Hj; [lia..|]. cbn in Hj. apply lookup_app_Some in Hj as [Hj|[_ Hj]].
      * apply lookup_lt_Some in Hj. lia.
      * destruct (j - length ps)%nat as [|d']; [done|]. cbn in Hj. apply lookup_replicate in Hj as [??]. done.
Qed.

(** An import that answers did its work.  Every subaddress asked for is scanned
    by the server's own account of it, and a new account is scanned from the wallet's
    birthday: a listing made after it was added gives a height no later, or the server
    took the rescan. *)
Theorem import_ok_watched start n w w'
    (Hrun : import_account c address view_key start n w = (w', Ok tt)) :
  exists cs, w_sent w' = (w_sent w ++ (request <$> cs))%list /\
    (n = 0%Z \/ some_covered (w_calls w) n cs) /\
    (listed (w_calls w) = Ok None ->
       acked (w_calls w + 1) CAdd /\ cs !! 1 = Some CAdd /\
       exists j, (1 < j)%nat /\
         ((cs !! j = Some CList /\ exists r, listed (w_calls w + j) = Ok r /\ (default U64_MAX r <= start)%Z) \/
          (cs !! j = Some (CRescan start) /\ acked (w_calls w + j) (CRescan start)))).
Proof.
  destruct (import_runs start n (w_calls w) w w' _ eq_refl Hrun) as (cs & Hs & _ & Hr). exists cs.
  split; [done|]. inversion Hr as [e Hl|h ps o Hl Hps _ Hc|e Hl|ps m o Hl Ha Hps Hc Hm]; subst.
  - split; [|congruence]. destruct (Hc eq_refl) as [->|(j & Hj & Hcov)]; [by left|].
    right. exists (S j). split; [done|].
    by replace (w_calls w + S j)%nat with (w_calls w + 1 + j)%nat by lia.
  - split.
    + destruct (Hc eq_refl) as [->|(j & Hj & Hcov)]; [by left|]. right. exists (2 + j)%nat.
      split; [|by rewrite Nat.add_assoc]. by apply lookup_app_l_Some.
    + intros _. split; [done|]. split; [done|]. destruct Hm as [_ _ H3 _].
      destruct (H3 eq_refl) as [(r & Hr' & Hle)|(j & Hj & Hack)].
      * exists (2 + length ps)%nat. split; [lia|]. left. split; [|exists r; by rewrite Nat.add_assoc].
        by apply list_lookup_middle.
      * exists (2 + length ps + 1 + j)%nat. split; [lia|]. right.
        split; [|by replace (w_calls w + (2 + length ps + 1 + j))%nat
                   with (w_calls w + 2 + length ps + 1 + j)%nat by lia].
        replace (2 + length ps + 1 + j)%nat with (S (S (length ps + S j))) by lia.
        change ((ps ++ CList :: replicate m (CRescan start))%list !! (length ps + S j)%nat = Some (CRescan start)).
        rewrite lookup_app_r by lia. replace (length ps + S j - length ps)%nat with (S j) by lia.
        cbn. by apply lookup_replicate.
Qed.
End calls.
