(* ===== verification/WalletSafety.v ===== *)
(** What the wallet's handlers promise of the light-wallet server: nothing is posted
    for a request that is not authorised and well formed, and the widths and sums
    they compute.  The concrete runs are here too, with an account that an import
    strands. *)

From Stdlib Require Import ZArith Lia Ascii String.
From S2P Require Import Prelude RustStr Json Errors Db Effects LwsTypes Http Demo Chains Auth Config Lws TipApi Pow WalletCn LwsSafety.

Local Open Scope string_scope.

(** * Nothing is posted *)

Definition silent {A} (m : M A) : Prop := forall w, w_sent (m w).1 = w_sent w.

Lemma silent_run {A} (m : M A) w w' o : silent m -> m w = (w', o) -> w_sent w' = w_sent w.
Proof. intros Hm E. specialize (Hm w). by rewrite E in Hm. Qed.

Lemma silent_bind {A B} (m : M A) (f : A -> M B) :
  silent m -> (forall a, silent (f a)) -> silent (m ≫= f).
Proof.
  intros Hm Hf w. specialize (Hm w). unfold mbind, M_bind.
  destruct (m w) as [w' [a|e|]]; [|done..]. cbn in *. by rewrite Hf.
Qed.

Lemma silent_stmt {T} on_err (s : Stmt T) : silent (run_stmt on_err s).
Proof.
  intros w. unfold run_stmt, next_slot. destruct (w_sched w) as [|sl sch]; cbn.
  all: repeat (case_match; cbn in *; simplify_eq; try done).
Qed.

Lemma silent_memory {T} (f : Time -> Db -> Db * T) : silent (in_memory f).
Proof.
  intros w. unfold in_memory, next_slot. destruct (w_sched w) as [|sl sch]; cbn.
  all: repeat (case_match; cbn in *; simplify_eq; try done).
Qed.

Lemma silent_now : silent utc_now. Proof. done. Qed.
Lemma silent_lift {A} (o : outcome A) : silent (lift o). Proof. done. Qed.
Lemma silent_ret {A} (a : A) : silent (mret a). Proof. done. Qed.
Lemma silent_upstream {A} (f : nat -> outcome A) : silent (upstream f). Proof. done. Qed.

Ltac silent_steps :=
  repeat first
    [ apply silent_stmt | apply silent_memory | apply silent_now | apply silent_lift
    | apply silent_ret | apply silent_upstream
    | apply silent_bind; [|intros ?]
    | lazymatch goal with |- silent (match ?x with _ => _ end) => destruct x end ].

(** A run of [m; f] that posted ran [m] to its end, if [m] posts nothing. *)
Lemma posted_bind {A B} (m : M A) (f : A -> M B) w w' o :
  silent m -> (m ≫= f) w = (w', o) -> w_sent w' <> w_sent w ->
  exists w1 a, m w = (w1, Ok a) /\ f a w1 = (w', o) /\ w_sent w' <> w_sent w1.
Proof.
  intros Hm E Hw. unfold mbind, M_bind in E. destruct (m w) as [w1 [a|e|]] eqn:Em.
  2-3: injection E as <- <-; destruct Hw; by eapply silent_run.
  exists w1, a. by rewrite (silent_run _ _ _ _ Hm Em).
Qed.

Section gates.
Context `{Ext} `{Jwt} `{Http} (env : Env) (state : WalletState).

Lemma silent_caller h : silent (extract_user_id_from_token (ws_sessions state) h).
Proof. unfold extract_user_id_from_token. silent_steps. Qed.

Lemma posted_authorized {B} h asset (f : string * CnClient -> M B) w w' o :
  (authorized state h asset ≫= f) w = (w', o) -> w_sent w' <> w_sent w ->
  exists user client w1, (extract_user_id_from_token (ws_sessions state) h w).2 = Ok user /\
    lws_for state (to_lowercase asset) = Ok client /\
    f (to_lowercase asset, client) w1 = (w', o) /\ w_sent w' <> w_sent w1.
Proof.
  intros E Hp. apply posted_bind in E as (w1 & [a client] & Ea & E & Hp1); [| |done].
  2: { unfold authorized. apply silent_bind; [apply silent_caller|]. intros ?. silent_steps. }
  unfold authorized in Ea. apply bind_run_Ok in Ea as (w2 & user & Eu & Ea).
  apply bind_run_Ok in Ea as (w3 & client' & [-> Hc]%lift_run_Ok & [= -> <- <-]).
  exists user, client', w1. by rewrite Eu.
Qed.

Lemma posted_account {B} address view_key (f : unit -> M B) w w' o :
  (account address view_key ≫= f) w = (w', o) -> w_sent w' <> w_sent w ->
  validate_cn_address address = Ok tt /\ validate_view_key view_key = Ok tt /\ f tt w = (w', o).
Proof.
  intros E Hp. apply posted_bind in E as (w1 & [] & Ea & E & _); [| |done].
  2: { unfold account. silent_steps. }
  unfold account in Ea. apply bind_run_Ok in Ea as (w2 & [] & [-> H1']%lift_run_Ok & [-> H2']%lift_run_Ok).
  done.
Qed.

(** The light-wallet server is asked for nothing on behalf of a registration that
    does not pass every gate: the session, the chain, the shape of the address and of
    the view key, and, for an import, the restore policy and the proof of work at the
    height the daemon gives. *)
Theorem register_gated h req w w' o
    (Hrun : register env state h req w = (w', o)) (Hposted : w_sent w' <> w_sent w) :
  exists user client, (extract_user_id_from_token (ws_sessions state) h w).2 = Ok user /\
    lws_for state (to_lowercase (rg_asset req)) = Ok client /\
    validate_cn_address (rg_address req) = Ok tt /\ validate_view_key (rg_view_key req) = Ok tt /\
    forall start, rg_start_height req = Some start -> exists tip w0,
      (get_blockchain_height (lws_client client) w0).2 = Ok tip /\
      enforce (ws_restore state) (to_lowercase (rg_asset req)) start tip = Ok tt /\
      enforce_restore_pow (ws_restore state) (to_lowercase (rg_asset req)) (rg_address req) start tip
        (rg_restore_pow_nonce req) = Ok tt.
Proof.
  unfold register in Hrun.
  apply posted_authorized in Hrun as (user & client & w1 & Hu & Hc & Hrun & Hp1); [|done].
  apply posted_account in Hrun as (Ha & Hv & Hrun); [|done].
  exists user, client. do 4 (split; [done|]). intros start Hs. rewrite Hs in Hrun. cbn zeta in Hrun.
  apply posted_bind in Hrun as (w2 & tip & Et & Hrun & Hp2); [| |done].
  2: { unfold get_blockchain_height. silent_steps. }
  apply posted_bind in Hrun as (w3 & [] & [-> He]%lift_run_Ok & Hrun & Hp3); [|silent_steps|done].
  apply posted_bind in Hrun as (w4 & [] & [-> Hw]%lift_run_Ok & _ & _); [|silent_steps|done].
  exists tip, w1. by rewrite Et.
Qed.
End gates.

(** * Widths and sums *)

(** The count a registration may ask for changes nothing: the whole batch is asked
    for when provisioning is on, and nothing when it is off. *)
Lemma effective_minors_exact env requested :
  effective_provision_minors env requested =
    (if subaddr_provisioning_enabled env then MAX_PROVISION_MINORS else 0)%Z.
Proof.
  unfold effective_provision_minors, subaddr_provisioning_minors.
  destruct (subaddr_provisioning_enabled env); [|done]. unfold MAX_PROVISION_MINORS. simpl. lia.
Qed.

Lemma provision_width_bounds env max_minor :
  match max_minor with Some m => (0 <= m)%Z | None => True end ->
  (0 <= provision_width_for env max_minor <= MAX_PROVISION_MINORS)%Z.
Proof.
  unfold provision_width_for, subaddr_provisioning_minors, MAX_PROVISION_MINORS, u32_saturating_add, U32_MAX.
  destruct (subaddr_provisioning_enabled env); cbn [negb]; [|lia]. destruct max_minor; lia.
Qed.

(** What is pending is the sum over the mempool, up to what fits. *)
Lemma sum_mempool_exact txs :
  Forall (fun t => 0 <= at_total_received t)%Z txs ->
  sum_mempool_received txs =
    Z.min U64_MAX (foldr (fun t s => (if at_mempool t then at_total_received t else 0) + s)%Z 0%Z txs).
Proof.
  intros Ht. unfold sum_mempool_received.
  assert (Hgen : forall acc, (0 <= acc <= U64_MAX)%Z ->
    foldl u64_saturating_add acc (at_total_received <$> base.filter (fun t => at_mempool t = true) txs) =
    Z.min U64_MAX (acc + foldr (fun t s => (if at_mempool t then at_total_received t else 0) + s)%Z 0%Z txs)).
  { assert (Hnn : forall l, Forall (fun t => 0 <= at_total_received t)%Z l ->
      (0 <= foldr (fun t s => (if at_mempool t then at_total_received t else 0) + s)%Z 0%Z l)%Z).
    { induction 1 as [|t l]; cbn; [lia|]. destruct (at_mempool t); lia. }
    induction Ht as [|t l Hr Ht IH]; intros acc Hacc; cbn [foldr]; [cbn; lia|].
    specialize (Hnn l Ht). cbn beta in Hr. rewrite filter_cons. destruct (decide (at_mempool t = true)) as [E|E].
    - rewrite E. cbn [fmap list_fmap foldl]. unfold u64_saturating_add, clamp in *.
      rewrite IH by lia. lia.
    - destruct (at_mempool t); [done|]. rewrite IH by done. lia. }
  rewrite Hgen; [|unfold U64_MAX]; lia.
Qed.

(** * Concrete runs *)

(** A server that follows a script: its [n]-th answer is the [n]-th value, in a body
    that holds the number of the call. *)
Definition demo_http (script : list (option Value)) : Http := {|
  http_post _ _ n :=
    match script !! n with
    | Some (Some _) => HttpResponse 200 [match Byte.of_nat n with Some b => Some [b] | None => None end]
    | _ => HttpFailed "timed out"
    end;
  json_from_slice bs :=
    match bs with [b] => default None (script !! Byte.to_nat b) | _ => None end;
|}.

Definition demo_cn : CnClient := mkCnClient Monero "https://lws" "https://lws/admin" "k" "https://node" None.

Definition no_accounts : Value := obj [("active", VArray [])].
Definition known_account (h : u64) : Value :=
  obj [("active", VArray [obj [("address", VString "4A"); ("scan_height", VNumber h)]])].
Definition done_json : Value := obj [("status", VString "OK")].
Definition demo_version : Value := obj [("max_subaddresses", VNumber 500)].
Definition demo_ranges : Value :=
  obj [("all_subaddrs", VArray [obj [("key", VNumber 0);
    ("value", VArray [VArray [VNumber 100; VNumber 199]; VArray [VNumber 0; VNumber 120]])]])].

(** A new account: the first provisioning and the first rescan time out. *)
Definition demo_import_script : list (option Value) :=
  [Some no_accounts; Some done_json; Some demo_version; None; Some demo_ranges;
   Some (known_account 3000); None; Some done_json].

#[local] Abbreviation demo_import script :=
  (import_account (H := demo_http script) demo_cn "4A" "5b" 1000 200 (quiet_world empty_db 0)).

Lemma is_ok_unit (p : World * outcome unit) : is_ok p.2 = true -> p = (p.1, Ok tt).
Proof. by destruct p as [w [[]| |]]. Qed.

Lemma import_protocol_witness :
  let p := demo_import demo_import_script in
  exists cs, w_sent p.1 = (request demo_cn "4A" "5b" <$> cs) /\ head cs = Some CList /\ (length cs <= 10)%nat.
Proof.
  destruct (import_protocol (H := demo_http demo_import_script) demo_cn "4A" "5b" 1000 200
    (quiet_world empty_db 0) (demo_import demo_import_script).1 (demo_import demo_import_script).2
    (surjective_pairing _)) as (cs & Hs & Hh & Hl & _).
  exists cs. done.
Defined.

Lemma demo_import_ok : is_ok (demo_import demo_import_script).2 = true.
Proof. by vm_compute. Qed.

Lemma import_ok_watched_witness :
  exists cs, w_sent (demo_import demo_import_script).1 = (request demo_cn "4A" "5b" <$> cs) /\
    some_covered (H := demo_http demo_import_script) demo_cn "4A" "5b" 0 200 cs.
Proof.
  pose proof (is_ok_unit _ demo_import_ok) as E.
  destruct (import_ok_watched (H := demo_http demo_import_script) demo_cn "4A" "5b" 1000 200
    (quiet_world empty_db 0) (demo_import demo_import_script).1 E) as (cs & Hs & [Hc|Hc] & _).
  - done.
  - exists cs. by split.
Defined.

(** An import that fails where nothing is retried, reading the account's height back:
    the account is added, and the next import finds it known and answers [Ok] without
    the rescan. *)
Definition stranded_script : list (option Value) :=
  [Some no_accounts; Some done_json; Some demo_version; Some demo_ranges; None;
   Some (known_account 3000); Some demo_version; Some demo_ranges].

Example stranded_account :
  let p := demo_import stranded_script in
  let q := import_account (H := demo_http stranded_script) demo_cn "4A" "5b" 1000 200 p.1 in
  is_ok p.2 = false /\ is_ok q.2 = true /\
  forallb (fun r => negb (r.1 =? "https://lws/admin/rescan")) (w_sent q.1) = true.
Proof. by vm_compute. Qed.

Definition demo_provision : ProvisionSubaddrsResponse :=
  mkProvisionSubaddrsResponse [] [mkSubaddrRangeEntry 0 [(100, 199); (0, 120)]%Z].

Lemma confirmed_ceiling_exact_witness :
  read_provision_response demo_ranges = Some demo_provision /\
  confirmed_minor_max demo_provision = Some 199%Z /\ scanned demo_provision 150 /\
  ~ scanned demo_provision 200.
Proof.
  assert (Ep : read_provision_response demo_ranges = Some demo_provision) by (vm_compute; reflexivity).
  pose proof (confirmed_ceiling_exact demo_provision (read_provision_typed _ _ Ep)) as Hc.
  assert (Hm : confirmed_minor_max demo_provision = Some 199%Z) by (vm_compute; reflexivity).
  rewrite Hm in Hc. destruct Hc as (_ & Hc & Hn).
  split; [done|]. split; [done|]. split; [apply Hc; lia|exact Hn].
Defined.

(** An import at a recent birthday, provisioning off. *)
Definition demo_wallet : WalletState :=
  mkWalletState demo_sm (mkRestoreConfig Bounded 30 7 10 20) (Some demo_cn) None.
Definition demo_register_script : list (option Value) :=
  [Some (obj [("result", obj [("height", VNumber 1000000)])]); Some no_accounts; Some done_json;
   Some (known_account 1000000); Some done_json].
Definition demo_view_key : string :=
  "5b5b5b5b5b5b5b5b5b5b5b5b5b5b5b5b5b5b5b5b5b5b5b5b5b5b5b5b5b5b5b5b".
Definition demo_register_req : RegisterRequest :=
  mkRegisterRequest "XMR" "4A" demo_view_key (Some 997000%Z) None None.
#[local] Abbreviation demo_register :=
  (register (H1 := demo_http demo_register_script) (empty : Env) demo_wallet demo_headers demo_register_req
    (quiet_world demo_session_db HOUR)).

Lemma demo_register_posts : length (w_sent demo_register.1) = 4.
Proof. by vm_compute. Qed.

Lemma register_gated_witness :
  length (w_sent demo_register.1) = 4 /\
  validate_view_key demo_view_key = Ok tt /\ exists tip : u64,
    enforce (mkRestoreConfig Bounded 30 7 10 20) "xmr" 997000 tip = Ok tt.
Proof.
  split; [exact demo_register_posts|].
  destruct (register_gated (H1 := demo_http demo_register_script) (empty : Env) demo_wallet demo_headers demo_register_req
    (quiet_world demo_session_db HOUR) demo_register.1 demo_register.2 (surjective_pairing _))
    as (user & client & _ & _ & _ & Hv & Hr).
  - intros Hs. pose proof demo_register_posts as Hl. rewrite Hs in Hl. discriminate Hl.
  - split; [exact Hv|]. destruct (Hr 997000%Z eq_refl) as (tip & _ & _ & He & _). exists tip. exact He.
Defined.
