(* ===== verification/Electrum.v ===== *)
(** [src/infra/electrum.rs]: the client of Electrum servers.

    What happens on a connection is a parameter, event by event up to the bytes the
    server sends; so are the base58 and segwit decoders, the text of JSON, the clock
    and the shuffle of the fallbacks.  The shared counters are threaded through a
    call; a call of another task between two of its accesses is not modelled. *)

From Stdlib Require Import ZArith Lia Ascii String.
From Stdlib Require Import SpecFloat.
From stdpp Require Import pretty.
From S2P Require Import Prelude RustStr Json Errors Db Effects LwsTypes Http Chains Config Lws.

Local Open Scope string_scope.

#[export] Instance byte_eq_dec : EqDecision Byte.byte := Byte.byte_eq_dec.

(** * Networks and addresses *)

Inductive UtxoNetwork := BitcoinMainnet | BitcoinTestnet | LitecoinMainnet | LitecoinTestnet.

#[export] Instance UtxoNetwork_eq_dec : EqDecision UtxoNetwork.
Proof. solve_decision. Defined.

Definition bitcoin_network (network : string) : outcome UtxoNetwork :=
  if network =? "mainnet" then Ok BitcoinMainnet
  else if network =? "testnet" then Ok BitcoinTestnet
  else Err (ConfigError ("unknown bitcoin network: " ++ network)).

Definition litecoin_network (network : string) : outcome UtxoNetwork :=
  if network =? "mainnet" then Ok LitecoinMainnet
  else if network =? "testnet" then Ok LitecoinTestnet
  else Err (ConfigError ("unknown litecoin network: " ++ network)).

Definition segwit_hrp (n : UtxoNetwork) : string :=
  match n with
  | BitcoinMainnet => "bc" | BitcoinTestnet => "tb"
  | LitecoinMainnet => "ltc" | LitecoinTestnet => "tltc"
  end.

(** [z as u8], a byte. *)
Definition u8_byte (z : Z) : Byte.byte := default Byte.x00 (Byte.of_N (Z.to_N (z mod 256))).

Definition p2pkh_version (n : UtxoNetwork) : Byte.byte :=
  match n with
  | BitcoinMainnet => Byte.x00 | BitcoinTestnet => Byte.x6f
  | LitecoinMainnet => Byte.x30 | LitecoinTestnet => Byte.x6f
  end.

Definition p2sh_versions (n : UtxoNetwork) : list Byte.byte :=
  match n with
  | BitcoinMainnet => [Byte.x05] | BitcoinTestnet => [Byte.xc4]
  | LitecoinMainnet => [Byte.x32; Byte.x05] | LitecoinTestnet => [Byte.x3a; Byte.xc4]
  end.

(** [bech32::segwit::decode] and [bs58::decode]. *)
Class Addresses := {
  segwit_decode : string -> option (string * Z * list Byte.byte);
  bs58_decode : string -> option (list Byte.byte);
}.

(** A witness version is at most 16 and a program has 2 to 40 bytes. *)
Class AddressesLaws (A : Addresses) := {
  segwit_decode_bounds : forall a hrp v program, segwit_decode a = Some (hrp, v, program) ->
    (0 <= v <= 16)%Z /\ 2 <= length program <= 40;
}.

Section addresses.
Context `{Ext} `{Addresses} (network : UtxoNetwork).

Definition other_network : AppError := ValidationError "address is for a different network".

Definition segwit_script (version : Z) (program : list Byte.byte) : list Byte.byte :=
  (if (version =? 0)%Z then Byte.x00 else u8_byte (80 + version))
    :: u8_byte (Z.of_nat (length program)) :: program.

Definition segwit_to_script (address : string) : outcome (list Byte.byte) :=
  '(decoded_hrp, version, program) ←
    ok_or (segwit_decode address) (ValidationError "invalid segwit address");
  if negb (to_lowercase decoded_hrp =? segwit_hrp network) then Err other_network
  else Ok (segwit_script version program).

Definition p2pkh_script (hash160 : list Byte.byte) : list Byte.byte :=
  ([Byte.x76; Byte.xa9; Byte.x14] ++ hash160 ++ [Byte.x88; Byte.xac])%list.
Definition p2sh_script (hash160 : list Byte.byte) : list Byte.byte :=
  ([Byte.xa9; Byte.x14] ++ hash160 ++ [Byte.x87])%list.

Definition base58_to_script (address : string) : outcome (list Byte.byte) :=
  decoded ← ok_or (bs58_decode address) (ValidationError "invalid base58 address");
  if negb (length decoded =? 25)%nat then Err (ValidationError "invalid address length")
  else
    let payload := take 21 decoded in
    let checksum := drop 21 decoded in
    if negb (bool_decide (take 4 (sha256 (sha256 payload)) = checksum))
    then Err (ValidationError "invalid address checksum")
    else
      match payload with
      | [] => Panic
      | version :: hash160 =>
          if Byte.eqb version (p2pkh_version network) then Ok (p2pkh_script hash160)
          else if existsb (Byte.eqb version) (p2sh_versions network) then Ok (p2sh_script hash160)
          else Err other_network
      end.

Definition looks_segwit (address : string) : bool :=
  match RustStr.strip_prefix (segwit_hrp network) (map_str ascii_lower address) with
  | Some (String c _) => Ascii.eqb c "1"
  | _ => false
  end.

Definition address_to_script (address : string) : outcome (list Byte.byte) :=
  if looks_segwit address then segwit_to_script address else base58_to_script address.

Definition address_to_scripthash (address : string) : outcome string :=
  script ← address_to_script address; Ok (hex_encode (rev (sha256 script))).
End addresses.

(** * Server URLs *)

Record ServerUrl := mkServerUrl { su_host : string; su_port : Z; su_use_ssl : bool }.

(** [s.split_once(sep)] for a string [sep]. *)
Fixpoint split_once_str (sep s : string) : option (string * string) :=
  match RustStr.strip_prefix sep s with
  | Some rest => Some ("", rest)
  | None =>
      match s with
      | EmptyString => None
      | String c s' =>
          match split_once_str sep s' with Some (a, b) => Some (String c a, b) | None => None end
      end
  end.

(** [s.rsplit_once(c)]. *)
Fixpoint rsplit_once (c : ascii) (s : string) : option (string * string) :=
  match s with
  | EmptyString => None
  | String x s' =>
      match rsplit_once c s' with
      | Some (a, b) => Some (String x a, b)
      | None => if Ascii.eqb x c then Some ("", s') else None
      end
  end.

Definition parse_server_url (url : string) : outcome ServerUrl :=
  '(scheme, rest) ← ok_or (split_once_str "://" url)
    (ConfigError ("invalid Electrum server URL: " ++ url));
  use_ssl ←
    (if (scheme =? "ssl") || (scheme =? "tls") then Ok true
     else if scheme =? "tcp" then Ok false
     else Err (ConfigError ("unknown scheme '" ++ scheme ++ "' in Electrum URL")));
  '(host, port_str) ← ok_or (rsplit_once ":" rest)
    (ConfigError ("missing port in Electrum URL: " ++ url));
  port ← ok_or (parse_u16 port_str) (ConfigError ("invalid port in Electrum URL: " ++ url));
  if is_empty host then Err (ConfigError ("empty host in Electrum URL: " ++ url))
  else Ok (mkServerUrl host port use_ssl).

(** [iter.collect::<Result<Vec<_>, _>>()]. *)
Fixpoint collect_ok {A B} (f : A -> outcome B) (l : list A) : outcome (list B) :=
  match l with
  | [] => Ok []
  | a :: l' => b ← f a; bs ← collect_ok f l'; Ok (b :: bs)
  end.

(** * The client *)

(** [struct ElectrumClient], without its shared counters. *)
Record UtxoClient := mkUtxoClient {
  uc_network : UtxoNetwork;
  uc_primary : option ServerUrl;
  uc_fallbacks : list ServerUrl;
}.

Record ElState := mkElState {
  es_next_id : u64;
  es_fail_count : u32;
  es_cooldown_until : u64;
}.
#[export] Instance eta_ElState : Eta ElState := fun s =>
  mkElState (es_next_id s) (es_fail_count s) (es_cooldown_until s).

Definition electrum_new (network : UtxoNetwork) (cfg : UtxoConfig) : outcome (UtxoClient * ElState) :=
  primary ←
    match ux_electrum_primary cfg with
    | Some url => u ← parse_server_url url; Ok (Some u)
    | None => Ok None
    end;
  fallbacks ← collect_ok parse_server_url (ux_electrum_fallbacks cfg);
  Ok (mkUtxoClient network primary fallbacks, mkElState 1 0 0).

Definition electrum_bitcoin (cfg : UtxoConfig) : outcome (UtxoClient * ElState) :=
  n ← bitcoin_network (ux_network cfg); electrum_new n cfg.
Definition electrum_litecoin (cfg : UtxoConfig) : outcome (UtxoClient * ElState) :=
  n ← litecoin_network (ux_network cfg); electrum_new n cfg.

(** ** The circuit breaker of the primary *)

Definition PRIMARY_FAIL_THRESHOLD : Z := 2.
Definition PRIMARY_COOLDOWN : Z := 30000.

Definition primary_in_cooldown (st : ElState) (now_ms : u64) : bool :=
  (now_ms <? es_cooldown_until st)%Z.

Definition record_primary_failure (st : ElState) (now_ms : u64) : ElState :=
  let count := ((es_fail_count st + 1) mod 2 ^ 32)%Z in
  let st := st <|es_fail_count := count|> in
  if (PRIMARY_FAIL_THRESHOLD <=? count)%Z
  then st <|es_cooldown_until := u64_saturating_add now_ms PRIMARY_COOLDOWN|>
  else st.

Definition record_primary_success (st : ElState) : ElState :=
  st <|es_fail_count := 0%Z|> <|es_cooldown_until := 0%Z|>.

(** ** Exchanges *)

Definition MAX_RESPONSE_BYTES : Z := (16 * 1024 * 1024)%Z.

(** What happens from the dial to the answer, and the bytes the server sends. *)
Inductive Exchange :=
| TcpTimedOut
| TcpFailed (e : string)
| BadServerName
| TlsTimedOut
| TlsFailed (e : string)
| WriteFailed (e : string)
| FlushFailed (e : string)
| ReadFailed (e : string)
| RequestTimedOut
| Received (bytes : list Byte.byte).

Class ElectrumNet := {
  dial : ServerUrl -> Value -> nat -> Exchange;
  from_utf8 : list Byte.byte -> option string;
  json_from_str : string -> option Value;
  f64_of_text : string -> f64;
  now_millis : nat -> u64;
  shuffle : nat -> list ServerUrl -> list ServerUrl;
}.

Class ElectrumNetLaws (N : ElectrumNet) := { shuffle_perm : forall n l, shuffle n l ≡ₚ l }.

(** [read_line] over [reader.take(cap)]: up to the first newline, which is kept. *)
Fixpoint line_within (cap : Z) (bytes : list Byte.byte) : list Byte.byte :=
  match bytes with
  | [] => []
  | b :: bytes' =>
      if (cap <=? 0)%Z then []
      else if Byte.eqb b Byte.x0a then [b]
      else b :: line_within (cap - 1) bytes'
  end.

(** [line.ends_with('\n')]. *)
Definition ends_with_newline (bytes : list Byte.byte) : bool := bool_decide (last bytes = Some Byte.x0a).

(** The [char]s of a UTF-8 string, each as its bytes. *)
Fixpoint chars (s : string) : list string :=
  match s with
  | EmptyString => []
  | String c s' =>
      match chars s' with
      | String d r :: cs =>
          if (128 <=? code d)%nat && (code d <? 192)%nat
          then String c (String d r) :: cs
          else String c "" :: String d r :: cs
      | _ => [String c ""]
      end
  end.

(** [c.is_control()]: U+0000 to U+001F, U+007F to U+009F. *)
Definition is_control (c : string) : bool :=
  match c with
  | String a EmptyString => (code a <? 32)%nat || (code a =? 127)%nat
  | String a (String b EmptyString) => (code a =? 194)%nat && (128 <=? code b)%nat && (code b <? 160)%nat
  | _ => false
  end.

Definition truncate_for_log (s : string) (max : nat) : string :=
  String.concat "" (take max (base.filter (fun c => is_control c = false) (chars s))).

Record JsonRpcResponse (A : Type) := mkJsonRpcResponse {
  jr_result : option A;
  jr_error : option string;
  jr_id : u64;
}.
Arguments mkJsonRpcResponse {A}.
Arguments jr_result {A}.
Arguments jr_error {A}.
Arguments jr_id {A}.

Definition read_rpc_response {A} (read : Reader A) : Reader (JsonRpcResponse A) :=
  r_struct ["result"; "error"; "id"] (fun kvs =>
    r ← optional read "result" kvs;
    e ← optional (r_struct ["message"] (defaulted "" r_string "message")) "error" kvs;
    id ← required r_u64 "id" kvs;
    Some (mkJsonRpcResponse r e id)).

Definition into_result {A} (response : JsonRpcResponse A) (expected_id : u64) : outcome A :=
  match jr_error response with
  | Some message => Err (NodeError ("Electrum RPC error: " ++ truncate_for_log message 200))
  | None =>
      if negb (jr_id response =? expected_id)%Z then Err (NodeError "Electrum response id mismatch")
      else ok_or (jr_result response) (NodeError "empty Electrum response")
  end.

Definition rpc_request (method : string) (params : list Value) (id : u64) : Value :=
  to_object [("jsonrpc", VString "2.0"); ("method", VString method); ("params", VArray params);
             ("id", VNumber id)].

Section calls.
Context `{ElectrumNet}.

Definition read_response_line (cap : Z) (bytes : list Byte.byte) : outcome string :=
  let read := line_within cap bytes in
  line ← ok_or (from_utf8 read) (NodeError "Electrum read failed: stream did not contain valid UTF-8");
  if (length read =? 0)%nat then Err (NodeError "Electrum connection closed before response")
  else if negb (ends_with_newline read) && (cap <=? Z.of_nat (length read))%Z
  then Err (NodeError "Electrum response exceeded size limit")
  else Ok line.

(** What an exchange comes to: [exchange_tcp], [exchange_ssl] and
    [send_request_on_stream]. *)
Definition exchanged {A} (read : Reader A) (e : Exchange) : outcome (JsonRpcResponse A) :=
  match e with
  | TcpTimedOut => Err (NodeError "Electrum TCP connect timed out")
  | TcpFailed e => Err (NodeError ("Electrum TCP connect failed: " ++ e))
  | BadServerName => Err (NodeError "invalid Electrum server name")
  | TlsTimedOut => Err (NodeError "Electrum TLS handshake timed out")
  | TlsFailed e => Err (NodeError ("Electrum TLS handshake failed: " ++ e))
  | WriteFailed e => Err (NodeError ("Electrum write failed: " ++ e))
  | FlushFailed e => Err (NodeError ("Electrum flush failed: " ++ e))
  | ReadFailed e => Err (NodeError ("Electrum read failed: " ++ e))
  | RequestTimedOut => Err (NodeError "Electrum request timed out")
  | Received bytes =>
      line ← read_response_line MAX_RESPONSE_BYTES bytes;
      ok_or (json_from_str line ≫= read_rpc_response read)
        (NodeError "invalid JSON from Electrum server")
  end.

(** What one attempt against [server] comes to, as the [k]-th request. *)
Definition try_result {A} (read : Reader A) (server : ServerUrl) (request : Value) (id : u64) (k : nat)
  : outcome A :=
  response ← exchanged read (dial server request k); into_result response id.

Definition server_text (s : ServerUrl) : string := su_host s ++ ":" ++ pretty (su_port s).

Definition try_call {A} (read : Reader A) (server : ServerUrl) (request : Value) (id : u64) : M A := fun w =>
  (w <|w_calls := S (w_calls w)|> <|w_sent := (w_sent w ++ [(server_text server, request)])%list|>,
   try_result read server request id (w_calls w)).

Fixpoint try_servers {A} (read : Reader A) (servers : list ServerUrl) (request : Value) (id : u64)
    (last_err : AppError) : M A :=
  match servers with
  | [] => fail last_err
  | server :: servers' =>
      r ← attempt (try_call read server request id);
      match r with
      | inl a => mret a
      | inr e => try_servers read servers' request id e
      end
  end.

Definition all_failed : AppError := NodeError "all Electrum servers failed".

(** [self.primary.as_ref().filter(..)]. *)
Definition use_primary (c : UtxoClient) (st : ElState) (now : u64) : option ServerUrl :=
  match uc_primary c with
  | Some p =>
      if negb (primary_in_cooldown st now) || bool_decide (uc_fallbacks c = []) then Some p else None
  | None => None
  end.

Definition bump_id (st : ElState) : ElState := st <|es_next_id := ((es_next_id st + 1) mod 2 ^ 64)%Z|>.

(** The result of a call always comes with the counters it leaves. *)
Definition call {A} (c : UtxoClient) (st : ElState) (method : string) (params : list Value)
    (read : Reader A) : M (ElState * (A + AppError)) :=
  let id := es_next_id st in
  let st := bump_id st in
  let request := rpc_request method params id in
  match uc_primary c, uc_fallbacks c with
  | None, [] => mret (st, inr (NodeError "no Electrum server configured"))
  | _, _ =>
      k ← (fun w => (w, Ok (w_calls w)));
      let now := now_millis k in
      let fallbacks (st : ElState) (last_err : AppError) :=
        r ← attempt (try_servers read (shuffle k (uc_fallbacks c)) request id last_err);
        mret (st, r) in
      match use_primary c st now with
      | Some p =>
          r ← attempt (try_call read p request id);
          match r with
          | inl a => mret (record_primary_success st, inl a)
          | inr e => fallbacks (record_primary_failure st now) e
          end
      | None => fallbacks st all_failed
      end
  end.

(** ** Answers *)

Definition read_f64 : Reader f64 := fun v =>
  match v with
  | VNumber n => Some (binary_normalize 53 1024 n 0 false)
  | VFloat t => Some (f64_of_text t)
  | _ => None
  end.

Record ElectrumUtxo := mkElectrumUtxo {
  eu_tx_hash : string; eu_tx_pos : u64; eu_value : u64; eu_height : u64 }.

Definition read_balance : Reader ElectrumBalance :=
  r_struct ["confirmed"; "unconfirmed"] (fun kvs =>
    c ← required r_u64 "confirmed" kvs; u ← required (dec c_i64) "unconfirmed" kvs;
    Some (mkElectrumBalance c u)).

Definition read_utxo : Reader ElectrumUtxo :=
  r_struct ["tx_hash"; "tx_pos"; "value"; "height"] (fun kvs =>
    t ← required r_string "tx_hash" kvs; p ← required r_u64 "tx_pos" kvs;
    v ← required r_u64 "value" kvs; h ← required r_u64 "height" kvs;
    Some (mkElectrumUtxo t p v h)).

Definition read_history_entry : Reader ElectrumHistoryEntry :=
  r_struct ["tx_hash"; "height"; "fee"] (fun kvs =>
    t ← required r_string "tx_hash" kvs; h ← required (dec c_i64) "height" kvs;
    f ← optional r_u64 "fee" kvs; Some (mkElectrumHistoryEntry t h f)).

Definition read_tip_header : Reader i64 := r_struct ["height"] (required (dec c_i64) "height").

Definition read_script_pub_key : Reader ScriptPubKeyInfo :=
  r_struct ["address"; "addresses"] (fun kvs =>
    a ← optional r_string "address" kvs; l ← optional (r_list r_string) "addresses" kvs;
    Some (mkScriptPubKeyInfo a l)).

Definition read_prevout : Reader Prevout :=
  r_struct ["value"; "scriptPubKey"] (fun kvs =>
    v ← required read_f64 "value" kvs; s ← required read_script_pub_key "scriptPubKey" kvs;
    Some (mkPrevout v s)).

Definition read_vin : Reader VerboseVin :=
  r_struct ["txid"; "vout"; "prevout"] (fun kvs =>
    t ← optional r_string "txid" kvs; n ← optional (dec c_u32) "vout" kvs;
    p ← optional read_prevout "prevout" kvs; Some (mkVerboseVin t n p)).

Definition read_vout : Reader VerboseVout :=
  r_struct ["value"; "n"; "scriptPubKey"] (fun kvs =>
    v ← required read_f64 "value" kvs; n ← required (dec c_u32) "n" kvs;
    s ← required read_script_pub_key "scriptPubKey" kvs; Some (mkVerboseVout v n s)).

Definition read_verbose_tx : Reader VerboseTransaction :=
  r_struct ["txid"; "vin"; "vout"] (fun kvs =>
    t ← required r_string "txid" kvs; i ← defaulted [] (r_list read_vin) "vin" kvs;
    o ← defaulted [] (r_list read_vout) "vout" kvs; Some (mkVerboseTransaction t i o)).

(** ** Queries *)

Section queries.
Context `{Ext} `{Addresses} (c : UtxoClient) (st : ElState).

(** A query by address: the address is checked before anything is sent. *)
Definition by_address {A} (method : string) (read : Reader A) (address : string)
  : M (ElState * (A + AppError)) :=
  match address_to_scripthash (uc_network c) address with
  | Ok sh => call c st method [VString sh] read
  | Err e => mret (st, inr e)
  | Panic => lift Panic
  end.

Definition get_balance : string -> M (ElState * (ElectrumBalance + AppError)) :=
  by_address "blockchain.scripthash.get_balance" read_balance.
Definition get_utxos : string -> M (ElState * (list ElectrumUtxo + AppError)) :=
  by_address "blockchain.scripthash.listunspent" (r_list read_utxo).
Definition get_history : string -> M (ElState * (list ElectrumHistoryEntry + AppError)) :=
  by_address "blockchain.scripthash.get_history" (r_list read_history_entry).
Definition get_tip_height : M (ElState * (i64 + AppError)) :=
  call c st "blockchain.headers.subscribe" [] read_tip_header.
Definition get_transaction_verbose (txid : string) : M (ElState * (VerboseTransaction + AppError)) :=
  call c st "blockchain.transaction.get" [VString txid; VBool true] read_verbose_tx.
Definition broadcast_transaction (tx_hex : string) : M (ElState * (string + AppError)) :=
  call c st "blockchain.transaction.broadcast" [VString tx_hex] r_string.
Definition estimate_fee_raw (blocks : u32) : M (ElState * (f64 + AppError)) :=
  call c st "blockchain.estimatefee" [VNumber blocks] read_f64.
End queries.
End calls.

(** ** Fees *)

Definition f64_is_positive (x : f64) : bool := SFltb (S754_zero false) x.

(** [x.min(y)] of two numbers. *)
Definition f64_min (x y : f64) : f64 := if SFltb y x then y else x.

(** [estimate_fee] of the server's answer. *)
Definition fee_of (btc_per_kb : f64) : option f64 :=
  if negb (f64_is_finite btc_per_kb) || negb (f64_is_positive btc_per_kb) then None
  else
    let sat_per_vb := f64_mul btc_per_kb (f64_of_pos 100000) in
    if negb (f64_is_finite sat_per_vb) || negb (f64_is_positive sat_per_vb) then None
    else Some (f64_min sat_per_vb (f64_of_pos 10000)).
