(* ===== verification/ElectrumSafety.v ===== *)
(** What the Electrum client promises: an answer is the first one a configured server
    gave to this very request, a dead primary is skipped exactly while it should be,
    no response line exceeds its cap, and a script names one payee. *)

From Stdlib Require Import ZArith Lia Ascii String SpecFloat.
From S2P Require Import Prelude RustStr Json Errors Db Effects LwsTypes Http Chains Config Lws Electrum.

Local Open Scope string_scope.

(** * Response lines *)

Lemma line_within_spec cap bytes :
  exists rest, bytes = (line_within cap bytes ++ rest)%list /\
    (Z.of_nat (length (line_within cap bytes)) <= Z.max cap 0)%Z /\
    Forall (fun b => b <> Byte.x0a) (removelast (line_within cap bytes)) /\
    (rest = [] \/ last (line_within cap bytes) = Some Byte.x0a \/
     Z.of_nat (length (line_within cap bytes)) = Z.max cap 0).
Proof.
  revert cap. induction bytes as [|b bytes IH]; intros cap; cbn [line_within].
  { exists []. split_and!; [done|cbn; lia|constructor|by left]. }
  destruct (Z.leb_spec cap 0) as [Hc|Hc].
  { exists (b :: bytes). split_and!; [done|cbn; lia|constructor|right; right; cbn; lia]. }
  destruct (Byte.eqb b Byte.x0a) eqn:Eb.
  { apply Byte.byte_dec_bl in Eb as ->. exists bytes. split_and!; [done|cbn; lia|constructor|by right; left]. }
  destruct (IH (cap - 1)%Z) as (rest & Hr & Hl & Hn & Hend). exists rest.
  assert (Hb : b <> Byte.x0a) by (intros ->; done).
  split_and!; [cbn; by rewrite <- Hr|cbn [length]; lia| |].
  - destruct (line_within (cap - 1) bytes) as [|x l]; [constructor|]. by constructor.
  - destruct Hend as [->|[He|He]]; [by left|right; left|right; right; cbn [length]; lia].
    destruct (line_within (cap - 1) bytes) as [|x l]; [done|exact He].
Qed.

Section calls.
Context `{ElectrumNet}.

(** A line that is read is a prefix of what the server sent, within the cap, with no
    newline but its last byte; one without a newline is all the server sent. *)
Lemma read_response_line_spec cap bytes line :
  (0 < cap)%Z -> read_response_line cap bytes = Ok line ->
  exists l rest, bytes = (l ++ rest)%list /\ from_utf8 l = Some line /\ l <> [] /\
    (Z.of_nat (length l) <= cap)%Z /\ Forall (fun b => b <> Byte.x0a) (removelast l) /\
    (last l = Some Byte.x0a \/ rest = [] /\ (Z.of_nat (length l) < cap)%Z).
Proof.
  intros Hcap. unfold read_response_line, ends_with_newline.
  destruct (line_within_spec cap bytes) as (rest & Hb & Hl & Hn & Hend).
  intros (u & Hu & Hr)%bind_Ok. unfold ok_or in Hu. destruct (from_utf8 _) as [t|] eqn:Et; [|done].
  injection Hu as ->. exists (line_within cap bytes), rest.
  destruct (Nat.eqb_spec (length (line_within cap bytes)) 0) as [|H0]; [done|].
  destruct (bool_decide_reflect (last (line_within cap bytes) = Some Byte.x0a)) as [Hlast|Hlast];
    cbn [negb andb] in Hr.
  - injection Hr as ->. split_and!; [done..| |lia|done|by left]. intros E. by rewrite E in H0.
  - destruct (Z.leb_spec cap (Z.of_nat (length (line_within cap bytes)))); [done|]. injection Hr as ->.
    split_and!; [done..| |lia|done|right; split; [|lia]].
    + intros E. by rewrite E in H0.
    + destruct Hend as [->|[?|?]]; [done|done|lia].
Qed.

(** * Calls *)

Lemma read_response_line_no_panic cap bytes : read_response_line cap bytes <> Panic.
Proof.
  unfold read_response_line. cbn. destruct (from_utf8 _); [|done]. cbn. repeat case_match; done.
Qed.

Lemma try_result_no_panic {A} (read : Reader A) server request id k :
  try_result read server request id k <> Panic.
Proof.
  unfold try_result, exchanged, into_result.
  destruct (dial server request k) as [| | | | | | | | |bytes]; try done. cbn.
  destruct (read_response_line MAX_RESPONSE_BYTES bytes) as [line|e|] eqn:El; [|done|].
  2: { by apply read_response_line_no_panic in El. }
  cbn. destruct (json_from_str line) as [v|]; [|done]. cbn. destruct (read_rpc_response read v) as [r|]; [|done].
  cbn. destruct (jr_error r); [done|]. case_match; [done|]. by destruct (jr_result r).
Qed.

(** A server's own answer to a request: a line with its id, no error and a result. *)
Definition answers {A} (read : Reader A) (server : ServerUrl) (request : Value) (id : u64) (k : nat) (a : A)
  : Prop :=
  exists bytes line v, dial server request k = Received bytes /\
    read_response_line MAX_RESPONSE_BYTES bytes = Ok line /\ json_from_str line = Some v /\
    read_rpc_response read v = Some (mkJsonRpcResponse (Some a) None id).

Lemma try_result_Ok {A} (read : Reader A) server request id k a :
  try_result read server request id k = Ok a <-> answers read server request id k a.
Proof.
  unfold try_result, answers. split.
  - intros (r & He & Hr)%bind_Ok. unfold exchanged in He.
    destruct (dial server request k) as [| | | | | | | | |bytes]; try done.
    apply bind_Ok in He as (line & Hl & Hv). exists bytes, line.
    destruct (json_from_str line) as [v|]; [|done]. exists v.
    cbn in Hv. destruct (read_rpc_response read v) as [r'|] eqn:Er; [|done]. injection Hv as ->.
    unfold into_result in Hr. destruct r as [res err rid]. cbn in Hr. destruct err; [done|].
    destruct (Z.eqb_spec rid id) as [->|]; [|done]. cbn in Hr. destruct res; [|done].
    injection Hr as ->. done.
  - intros (bytes & line & v & Hd & Hl & Hj & Hr). rewrite Hd. cbn. rewrite Hl. cbn. rewrite Hj. cbn.
    rewrite Hr. cbn. by rewrite Z.eqb_refl.
Qed.

(** What a call that asked the first [n] of [servers] came to: they were sent the
    request in turn, and only the last of them may have answered. *)
Definition asked {A} (read : Reader A) (servers : list ServerUrl) (request : Value) (id : u64)
    (w w' : World) (r : A + AppError) : Prop :=
  exists n, n <= length servers /\
    w_sent w' = (w_sent w ++ ((fun s => (server_text s, request)) <$> take n servers))%list /\
    w_calls w' = (w_calls w + n)%nat /\
    match r with
    | inl a => exists m s, n = S m /\ servers !! m = Some s /\ answers read s request id (w_calls w + m) a /\
        forall j s', j < m -> servers !! j = Some s' ->
          forall b, ~ answers read s' request id (w_calls w + j) b
    | inr e => n = length servers /\ forall j s', servers !! j = Some s' ->
        forall b, ~ answers read s' request id (w_calls w + j) b
    end.

Lemma asked_cons {A} (read : Reader A) s servers request id w w1 w' (r : A + AppError) :
  w1 = w <|w_calls := S (w_calls w)|> <|w_sent := (w_sent w ++ [(server_text s, request)])%list|> ->
  (forall b, ~ answers read s request id (w_calls w) b) ->
  asked read servers request id w1 w' r -> asked read (s :: servers) request id w w' r.
Proof.
  intros -> Hs (n & Hn & Hsent & Hc & Hr). cbn in Hsent, Hc, Hr.
  exists (S n). split; [cbn; lia|]. split; [by rewrite Hsent, <- app_assoc|]. split; [lia|].
  destruct r as [a|e].
  - destruct Hr as (m & s1 & -> & Hm & Ha & Hb). exists (S m), s1.
    replace (w_calls w + S m)%nat with (S (w_calls w) + m)%nat by lia. split_and!; [done|done|done|].
    intros [|j] s' Hj Hs' b; [injection Hs' as <-; by rewrite Nat.add_0_r|].
    replace (w_calls w + S j)%nat with (S (w_calls w) + j)%nat by lia. apply (Hb j s'); [lia|done].
  - destruct Hr as [-> Hb]. split; [done|].
    intros [|j] s' Hs' b; [injection Hs' as <-; by rewrite Nat.add_0_r|].
    replace (w_calls w + S j)%nat with (S (w_calls w) + j)%nat by lia. by apply (Hb j s').
Qed.

Lemma try_call_run {A} (read : Reader A) s request id w :
  attempt (try_call read s request id) w =
    (w <|w_calls := S (w_calls w)|> <|w_sent := (w_sent w ++ [(server_text s, request)])%list|>,
     match try_result read s request id (w_calls w) with
     | Ok a => Ok (inl a) | Err e => Ok (inr e) | Panic => Panic end).
Proof. unfold attempt, try_call. by destruct (try_result _ _ _ _ _). Qed.

Lemma asked_here {A} (read : Reader A) s servers request id w a :
  answers read s request id (w_calls w) a ->
  asked read (s :: servers) request id w
    (w <|w_calls := S (w_calls w)|> <|w_sent := (w_sent w ++ [(server_text s, request)])%list|>) (inl a).
Proof.
  intros Ha. exists 1. split; [cbn; lia|]. split; [done|]. split; [cbn; lia|].
  exists 0, s. rewrite Nat.add_0_r. split_and!; [done..|]. intros; lia.
Qed.

Lemma try_servers_asked {A} (read : Reader A) servers request id last_err w :
  exists w' (r : A + AppError),
    attempt (try_servers read servers request id last_err) w = (w', Ok r) /\
    asked read servers request id w w' r.
Proof.
  revert last_err w. induction servers as [|s servers IH]; intros last_err w; cbn [try_servers].
  { exists w, (inr last_err). split; [done|]. exists 0. split; [done|]. split; [by rewrite app_nil_r|].
    split; [lia|]. split; [done|]. by intros ? ?. }
  unfold attempt at 1, mbind, M_bind. rewrite try_call_run.
  destruct (try_result read s request id (w_calls w)) as [a|e|] eqn:Et; [| |by apply try_result_no_panic in Et].
  - eexists _, (inl a). split; [reflexivity|]. by apply asked_here, try_result_Ok.
  - set (w1 := w <|w_calls := S (w_calls w)|> <|w_sent := (w_sent w ++ [(server_text s, request)])%list|>).
    destruct (IH e w1) as (w' & r & Hrun & Ha). exists w', r. split.
    + unfold attempt in Hrun. exact Hrun.
    + eapply asked_cons; [reflexivity| |exact Ha]. intros b Hb%try_result_Ok. congruence.
Qed.

(** The servers a call asks, in order. *)
Definition to_ask (c : UtxoClient) (st : ElState) (k : nat) : list ServerUrl :=
  (match use_primary c st (now_millis k) with Some p => [p] | None => [] end ++ shuffle k (uc_fallbacks c))%list.

(** What the primary's part in a call leaves of the breaker. *)
Definition primary_noted {A} (c : UtxoClient) (st : ElState) (k n : nat) (r : A + AppError) : ElState :=
  match use_primary c st (now_millis k), r with
  | None, _ => bump_id st
  | Some _, inl _ =>
      if (n =? 1)%nat then record_primary_success (bump_id st) else record_primary_failure (bump_id st) (now_millis k)
  | Some _, inr _ => record_primary_failure (bump_id st) (now_millis k)
  end.

Lemma use_primary_bump c st now : use_primary c (bump_id st) now = use_primary c st now.
Proof. done. Qed.

(** C23: an Electrum query is answered by the servers that are configured, in order,
    and by nothing else.  The primary is asked first unless the breaker skips it, then
    the fallbacks, each once and in the order of the shuffle; the result is the first
    line that carries the id of this very request, no error and a value of the type
    asked for; the servers after it are not asked, and the query fails only when every
    server asked failed.  Only what the primary did is noted in the breaker. *)
Theorem electrum_call_exact `{!ElectrumNetLaws _} {A} c st method params (read : Reader A) w :
  exists w' st' r, call c st method params read w = (w', Ok (st', r)) /\
    asked read (to_ask c st (w_calls w)) (rpc_request method params (es_next_id st)) (es_next_id st) w w' r /\
    st' = primary_noted c st (w_calls w) (w_calls w' - w_calls w) r /\
    (forall s, s ∈ to_ask c st (w_calls w) -> uc_primary c = Some s \/ s ∈ uc_fallbacks c).
Proof.
  assert (Hconf : forall s, s ∈ to_ask c st (w_calls w) -> uc_primary c = Some s \/ s ∈ uc_fallbacks c).
  { intros s. unfold to_ask, use_primary. rewrite elem_of_app, shuffle_perm. intros [Hs|Hs]; [left|by right].
    destruct (uc_primary c) as [p|]; [|by apply not_elem_of_nil in Hs].
    destruct (_ || _); [|by apply not_elem_of_nil in Hs]. apply list_elem_of_singleton in Hs. congruence. }
  set (req := rpc_request method params (es_next_id st)).
  assert (Hfb : forall (st1 : ElState) w1 last_err, exists w' (r : A + AppError),
    (r ← attempt (try_servers read (shuffle (w_calls w) (uc_fallbacks c)) req (es_next_id st) last_err);
     mret (st1, r)) w1 = (w', Ok (st1, r)) /\
    asked read (shuffle (w_calls w) (uc_fallbacks c)) req (es_next_id st) w1 w' r).
  { intros st1 w1 last_err. destruct (try_servers_asked read (shuffle (w_calls w) (uc_fallbacks c)) req
      (es_next_id st) last_err w1) as (w' & r & Hrun & Ha).
    exists w', r. unfold mbind, M_bind. by rewrite Hrun. }
  unfold call, to_ask, primary_noted in *. fold req. 
  destruct (use_primary c st (now_millis (w_calls w))) as [p|] eqn:Hp.
  - assert (Hpr : uc_primary c <> None) by (unfold use_primary in Hp; by destruct (uc_primary c)).
    destruct (uc_primary c) as [p'|] eqn:Hpc; [|done].
    destruct (try_result read p req (es_next_id st) (w_calls w)) as [a|e|] eqn:Et;
      [| |by apply try_result_no_panic in Et].
    + eexists _, _, (inl a). split; [|split; [by apply asked_here, try_result_Ok|]].
      * unfold mbind at 1, M_bind at 1. cbv beta zeta iota. rewrite use_primary_bump, Hp. unfold mbind, M_bind.
        rewrite try_call_run, Et. reflexivity.
      * split; [|done]. cbn. by replace (S (w_calls w) - w_calls w)%nat with 1%nat by lia.
    + destruct (Hfb (record_primary_failure (bump_id st) (now_millis (w_calls w)))
        (w <|w_calls := S (w_calls w)|> <|w_sent := (w_sent w ++ [(server_text p, req)])%list|>) e)
        as (w' & r & Hrun & Ha).
      eexists w', _, r. split; [|split; [|split; [|done]]].
      * unfold mbind at 1, M_bind at 1. cbv beta zeta iota. rewrite use_primary_bump, Hp. unfold mbind at 1, M_bind at 1.
        rewrite try_call_run, Et. exact Hrun.
      * eapply asked_cons; [reflexivity| |exact Ha]. intros b Hb%try_result_Ok. congruence.
      * destruct r as [a|e']; [|done]. destruct Ha as (n & _ & _ & Hc & m & s & -> & _). cbn in Hc.
        destruct (Nat.eqb_spec (w_calls w' - w_calls w) 1); [lia|done].
  - destruct (Hfb (bump_id st) w all_failed) as (w' & r & Hrun & Ha).
    destruct (decide (uc_primary c = None /\ uc_fallbacks c = [])) as [[Hpc Hf]|Hne].
    + rewrite Hpc, Hf in *. eexists w, _, (inr _). split; [reflexivity|].
      rewrite (proj1 (Permutation_nil_r _) (shuffle_perm (w_calls w) [])).
      split; [|split; [done|by intros s Hs%not_elem_of_nil]].
      exists 0. split; [done|]. split; [by rewrite app_nil_r|]. split; [lia|]. split; [done|]. by intros ? ?.
    + exists w', (bump_id st), r. split; [|done].
      destruct (uc_primary c) as [p|] eqn:Hpc, (uc_fallbacks c) as [|u us] eqn:Hf; [..|by destruct Hne|].
      all: unfold mbind at 1, M_bind at 1; cbv beta zeta iota; rewrite use_primary_bump, Hp; exact Hrun.
Qed.
End calls.

(** * The breaker *)

(** What the primary did, and when, in milliseconds. *)
Definition noted (st : ElState) (e : u64 * bool) : ElState :=
  if e.2 then record_primary_success st else record_primary_failure st e.1.

Lemma breaker_state id h :
  (Z.of_nat (length h) < 2 ^ 32)%Z ->
  let st := foldl noted (mkElState id 0 0) h in
  exists n, es_fail_count st = Z.of_nat n /\ n <= length h /\
    match n with
    | O => es_cooldown_until st = 0%Z /\ (h = [] \/ exists h' t, h = (h' ++ [(t, true)])%list)
    | 1 => es_cooldown_until st = 0%Z /\
        exists h' t, h = (h' ++ [(t, false)])%list /\ (h' = [] \/ exists h'' t', h' = (h'' ++ [(t', true)])%list)
    | _ => exists h' t1 t2, h = (h' ++ [(t1, false); (t2, false)])%list /\
        es_cooldown_until st = u64_saturating_add t2 PRIMARY_COOLDOWN
    end.
Proof.
  induction h as [|[t ok] h IH] using rev_ind; intros Hlen st.
  { exists 0. split_and!; [done..|by left]. }
  rewrite length_app in Hlen. cbn in Hlen. destruct IH as (n & Hn & Hnl & Hst); [lia|].
  subst st. rewrite foldl_app. cbn [foldl]. set (st := foldl noted (mkElState id 0 0) h) in *.
  unfold noted. cbn [fst snd]. destruct ok.
  { exists 0. cbn. split_and!; [done|lia|done|right; eauto]. }
  exists (S n). unfold record_primary_failure, PRIMARY_FAIL_THRESHOLD.
  assert (Hmod : ((es_fail_count st + 1) mod 2 ^ 32 = Z.of_nat (S n))%Z)
    by (rewrite Z.mod_small; lia).
  rewrite Hmod. destruct (Z.leb_spec 2 (Z.of_nat (S n))) as [H2|H2]; cbn.
  - split_and!; [done|rewrite length_app; cbn; lia|]. destruct n as [|n]; [lia|].
    assert (exists h' t1, h = (h' ++ [(t1, false)])%list) as (h' & t1 & ->).
    { destruct n as [|n]; [destruct Hst as (_ & h' & t1 & -> & _); eauto|].
      destruct Hst as (h' & t0 & t1 & -> & _). exists (h' ++ [(t0, false)])%list, t1. by rewrite <- app_assoc. }
    exists h', t1, t. by rewrite <- app_assoc.
  - assert (n = 0) as -> by lia. destruct Hst as [Hc Hh].
    split_and!; [done|rewrite length_app; cbn; lia|done|]. by exists h, t.
Qed.

(** The breaker is exactly the rule it documents.  After any history of what the
    primary did, it is skipped at a time if and only if its last two attempts both
    failed and fewer than 30 seconds have passed since the second; so one success, or
    the end of the window, has it asked again. *)
Theorem breaker_exact id h now (Hlen : (Z.of_nat (length h) < 2 ^ 32)%Z) (Hnow : (0 <= now)%Z) :
  primary_in_cooldown (foldl noted (mkElState id 0 0) h) now = true <->
  exists h' t1 t2, h = (h' ++ [(t1, false); (t2, false)])%list /\ (now < u64_saturating_add t2 30000)%Z.
Proof.
  destruct (breaker_state id h Hlen) as (n & _ & _ & Hst). unfold primary_in_cooldown. rewrite Z.ltb_lt.
  assert (Happ : forall (l l' : list (u64 * bool)) a b x, (l ++ [x])%list = (l' ++ [a; b])%list -> x = b /\ l = (l' ++ [a])%list).
  { intros l l' a b x E. change [a; b] with ([a] ++ [b])%list in E. rewrite app_assoc in E.
    by apply app_inj_tail in E as [-> ->]. }
  destruct n as [|[|n]].
  - destruct Hst as [-> Hh]. split; [lia|]. intros (h' & t1 & t2 & -> & _).
    destruct Hh as [Hh|(h'' & t & Hh)]; [by destruct h'|]. symmetry in Hh. by apply Happ in Hh as [? _].
  - destruct Hst as [-> (h1 & t & -> & Hh)]. split; [lia|]. intros (h' & t1 & t2 & E & _).
    apply Happ in E as [_ ->]. destruct Hh as [Hh|(h'' & t' & Hh)]; [by destruct h'|].
    by apply app_inj_tail in Hh as [_ ?].
  - destruct Hst as (h' & t1 & t2 & -> & ->). split; [intros ?; by exists h', t1, t2|].
    intros (h1 & u1 & u2 & E & Hlt).
    assert (E' : ((h' ++ [(t1, false)]) ++ [(t2, false)])%list = (h1 ++ [(u1, false); (u2, false)])%list)
      by (by rewrite <- app_assoc).
    apply Happ in E' as [[= ->] _]. exact Hlt.
Qed.

(** * Scripts *)

(** Who an address pays. *)
Inductive Payee :=
| Witness (version : Z) (program : list Byte.byte)
| KeyHash (hash160 : list Byte.byte)
| ScriptHash (hash160 : list Byte.byte).

Definition payee_script (p : Payee) : list Byte.byte :=
  match p with
  | Witness v program => segwit_script v program
  | KeyHash h => p2pkh_script h
  | ScriptHash h => p2sh_script h
  end.

Section scripts.
Context `{Ext} `{Addresses}.

(** The version byte, 20 bytes and their checksum. *)
Definition base58_check (a : string) (version : Byte.byte) (h : list Byte.byte) : Prop :=
  length h = 20 /\
  bs58_decode a = Some (version :: h ++ take 4 (sha256 (sha256 (version :: h))))%list.

(** What an address says, on a network. *)
Definition decodes (n : UtxoNetwork) (a : string) (p : Payee) : Prop :=
  match p with
  | Witness v program => looks_segwit n a = true /\
      exists hrp, segwit_decode a = Some (hrp, v, program) /\ to_lowercase hrp = segwit_hrp n
  | KeyHash h => looks_segwit n a = false /\ base58_check a (p2pkh_version n) h
  | ScriptHash h => looks_segwit n a = false /\ exists v, v ∈ p2sh_versions n /\ base58_check a v h
  end.

Lemma p2sh_not_p2pkh n v : v ∈ p2sh_versions n -> v <> p2pkh_version n.
Proof. intros Hv ->. revert Hv. destruct n; cbn; rewrite ?elem_of_cons, ?elem_of_nil; intuition discriminate. Qed.

Lemma existsb_byte v vs : existsb (Byte.eqb v) vs = true <-> v ∈ vs.
Proof.
  rewrite existsb_exists, list_elem_of_In. split; [intros (x & Hx & ->%Byte.byte_dec_bl)|intros Hv]; [done|].
  exists v. split; [done|]. by apply Byte.byte_dec_lb.
Qed.

Lemma base58_script_iff {L : ExtLaws _} n a s :
  base58_to_script n a = Ok s <->
  exists v h, base58_check a v h /\
    (v = p2pkh_version n /\ s = p2pkh_script h \/ v ∈ p2sh_versions n /\ s = p2sh_script h).
Proof.
  unfold base58_to_script, base58_check. split.
  - intros (d & Hd & Hs)%bind_Ok. unfold ok_or in Hd. destruct (bs58_decode a) as [d'|]; [|done].
    injection Hd as ->. destruct (Nat.eqb_spec (length d) 25) as [Hl|]; [|done]. cbn [negb] in Hs.
    destruct (bool_decide_reflect (take 4 (sha256 (sha256 (take 21 d))) = drop 21 d)) as [Hc|]; [|done].
    cbn [negb] in Hs. pose proof (take_drop 21 d) as Htd.
    assert (Hlt : length (take 21 d) = 21) by (rewrite length_take; lia).
    destruct (take 21 d) as [|v h]; [done|]. exists v, h.
    split; [split; [cbn in Hlt; lia|]; rewrite Hc; f_equal; symmetry; exact Htd|].
    destruct (Byte.eqb v (p2pkh_version n)) eqn:Ev.
    + apply Byte.byte_dec_bl in Ev. left. by injection Hs as <-.
    + destruct (existsb _ _) eqn:Ex; [|done]. apply existsb_byte in Ex. right. by injection Hs as <-.
  - intros (v & h & (Hl & Hd) & Hv). rewrite Hd. cbn [ok_or mbind outcome_bind].
    assert (Hck : length (take 4 (sha256 (sha256 (v :: h)))) = 4) by (rewrite length_take, sha256_len; done).
    set (ck := take 4 (sha256 (sha256 (v :: h)))) in *.
    assert (Hlen : length (v :: h ++ ck) = 25) by (cbn; rewrite length_app; lia).
    rewrite Hlen. cbn [negb Nat.eqb].
    change (v :: h ++ ck)%list with ((v :: h) ++ ck)%list.
    rewrite take_app_length' by (cbn; lia). rewrite drop_app_length' by (cbn; lia).
    fold ck. rewrite bool_decide_eq_true_2 by done. cbn [negb].
    destruct Hv as [[-> ->]|[Hv ->]].
    + by rewrite (Byte.byte_dec_lb eq_refl).
    + destruct (Byte.eqb v (p2pkh_version n)) eqn:Ev.
      { apply Byte.byte_dec_bl in Ev. by apply p2sh_not_p2pkh in Hv. }
      by rewrite (proj2 (existsb_byte v _) Hv).
Qed.

Lemma segwit_script_iff n a s :
  segwit_to_script n a = Ok s <->
  exists hrp v program, segwit_decode a = Some (hrp, v, program) /\ to_lowercase hrp = segwit_hrp n /\
    s = segwit_script v program.
Proof.
  unfold segwit_to_script. destruct (segwit_decode a) as [[[hrp v] program]|]; cbn.
  - destruct (String.eqb_spec (to_lowercase hrp) (segwit_hrp n)) as [E|E]; cbn; split.
    + intros [= <-]. eauto 6.
    + intros (? & ? & ? & [= -> -> ->] & _ & ->). done.
    + done.
    + intros (? & ? & ? & [= -> -> ->] & ? & _). done.
  - split; [done|]. by intros (? & ? & ? & ? & _).
Qed.

Lemma script_iff {L : ExtLaws _} n a s :
  address_to_script n a = Ok s <-> exists p, decodes n a p /\ s = payee_script p.
Proof.
  unfold address_to_script. destruct (looks_segwit n a) eqn:El.
  - rewrite segwit_script_iff. split.
    + intros (hrp & v & prog & ? & ? & ->). exists (Witness v prog). cbn. eauto.
    + intros ([v prog|h|h] & Hd & ->); cbn in Hd; [naive_solver|by destruct Hd; congruence..].
  - rewrite base58_script_iff. split.
    + intros (v & h & Hb & [[-> ->]|[Hv ->]]); [exists (KeyHash h)|exists (ScriptHash h)]; cbn; eauto.
    + intros ([v prog|h|h] & Hd & ->); cbn in Hd; [by destruct Hd; congruence|naive_solver..].
Qed.

(** A payee of a decoded address. *)
Definition payee_ok (p : Payee) : Prop :=
  match p with
  | Witness v program => (0 <= v <= 16)%Z /\ 2 <= length program <= 40
  | KeyHash h | ScriptHash h => length h = 20
  end.

Lemma decodes_ok {L : AddressesLaws _} n a p : decodes n a p -> payee_ok p.
Proof.
  destruct p as [v prog|h|h]; cbn.
  - intros (_ & hrp & Hd & _). by eapply segwit_decode_bounds.
  - by intros (_ & ? & _).
  - by intros (_ & v & _ & ? & _).
Qed.

Lemma witness_byte v w :
  (0 <= v <= 16)%Z -> (0 <= w <= 16)%Z ->
  (if (v =? 0)%Z then Byte.x00 else u8_byte (80 + v)) = (if (w =? 0)%Z then Byte.x00 else u8_byte (80 + w)) ->
  v = w.
Proof.
  intros Hv Hw.
  assert (Hall : forallb (fun x => forallb (fun y => (x =? y)%Z || negb (Byte.eqb
     (if (x =? 0)%Z then Byte.x00 else u8_byte (80 + x)) (if (y =? 0)%Z then Byte.x00 else u8_byte (80 + y))))
     (Z.of_nat <$> seq 0 17)) (Z.of_nat <$> seq 0 17) = true) by (vm_compute; reflexivity).
  intros E. rewrite forallb_forall in Hall.
  assert (Hin : forall x, (0 <= x <= 16)%Z -> In x (Z.of_nat <$> seq 0 17)).
  { intros x Hx. apply list_elem_of_In, list_elem_of_fmap. exists (Z.to_nat x).
    split; [lia|]. apply elem_of_seq. lia. }
  specialize (Hall v (Hin v Hv)). rewrite forallb_forall in Hall. specialize (Hall w (Hin w Hw)).
  cbn beta in Hall. rewrite E, (Byte.byte_dec_lb eq_refl), orb_false_r in Hall. by apply Z.eqb_eq.
Qed.

(** A first byte that no witness version has. *)
Lemma witness_not v b :
  (0 <= v <= 16)%Z -> b = Byte.x76 \/ b = Byte.xa9 ->
  (if (v =? 0)%Z then Byte.x00 else u8_byte (80 + v)) <> b.
Proof.
  intros Hv Hb.
  assert (Hall : forallb (fun x => let c := if (x =? 0)%Z then Byte.x00 else u8_byte (80 + x) in
     negb (Byte.eqb c Byte.x76) && negb (Byte.eqb c Byte.xa9)) (Z.of_nat <$> seq 0 17) = true)
     by (vm_compute; reflexivity).
  rewrite forallb_forall in Hall.
  assert (Hin : In v (Z.of_nat <$> seq 0 17)).
  { apply list_elem_of_In, list_elem_of_fmap. exists (Z.to_nat v). split; [lia|]. apply elem_of_seq. lia. }
  specialize (Hall v Hin). cbn beta zeta in Hall. apply andb_true_iff in Hall as [H1 H2].
  intros E. rewrite E in H1, H2. destruct Hb as [->| ->]; by rewrite (Byte.byte_dec_lb eq_refl) in *.
Qed.

Lemma payee_script_inj p q : payee_ok p -> payee_ok q -> payee_script p = payee_script q -> p = q.
Proof.
  destruct p as [v prog|h|h], q as [v' prog'|h'|h']; cbn [payee_ok payee_script]; intros Hp Hq E.
  - unfold segwit_script in E. injection E as Ev _ ->. destruct Hp, Hq. f_equal. by apply witness_byte.
  - injection E as Ev _. destruct Hp. exfalso. eapply witness_not; [done| |exact Ev]. by left.
  - injection E as Ev _. destruct Hp. exfalso. eapply witness_not; [done| |exact Ev]. by right.
  - injection E as Ev _. destruct Hq. exfalso. eapply witness_not; [done| |symmetry; exact Ev]. by left.
  - unfold p2pkh_script in E. cbn [app] in E. injection E as E. apply app_inj_1 in E as [-> _]; [done|lia].
  - discriminate E.
  - injection E as Ev _. destruct Hq. exfalso. eapply witness_not; [done| |symmetry; exact Ev]. by right.
  - discriminate E.
  - unfold p2sh_script in E. cbn [app] in E. injection E as E. apply app_inj_1 in E as [-> _]; [done|lia].
Qed.

(** An address is turned into the script of what it says, on the network of the
    client, or refused; and no two different payees share a script, so the balance
    and the history asked for are those of the address given and of no other. *)
Theorem script_names_payee {L : ExtLaws _} {LA : AddressesLaws _} n a :
  (forall s, address_to_script n a = Ok s <-> exists p, decodes n a p /\ s = payee_script p) /\
  (forall n' b p q, decodes n a p -> decodes n' b q -> payee_script p = payee_script q -> p = q).
Proof.
  split; [intros s; apply script_iff|]. intros n' b p q Hp Hq. apply payee_script_inj; by eapply decodes_ok.
Qed.
End scripts.

(** * Fees *)

(** A rate is a positive number of satoshis per byte, and never above 10000. *)
Lemma fee_of_bounds x y :
  fee_of x = Some y -> f64_is_positive y = true /\ SFltb (f64_of_pos 10000) y = false.
Proof.
  unfold fee_of. destruct (_ || _); [done|]. destruct (negb _ || _) eqn:E; [done|]. intros [= <-].
  apply orb_false_iff in E as [_ E%negb_false_iff]. unfold f64_min.
  destruct (SFltb (f64_of_pos 10000) (f64_mul x (f64_of_pos 100000))) eqn:El; [|done].
  split; by vm_compute.
Qed.
