(* ===== verification/UtxoApi.v ===== *)
(** [src/api/wallet/btc_ltc.rs], with the batches of [src/infra/electrum.rs]: the
    wallet's Bitcoin and Litecoin handlers.

    A server is what the queries of [Electrum.v] answer, call by call, and whether a
    batch that starts at a call runs past its deadline.  The queries of a batch and of
    a history run one after the other; in the code they overlap, which the answers'
    order does not depend on. *)

From Stdlib Require Import ZArith Lia Ascii String.
From Stdlib Require Import SpecFloat.
From S2P Require Import Prelude RustStr Json Errors Db Effects LwsTypes Http Chains Auth Config Lws TipApi Pow WalletCn Electrum.

Local Open Scope string_scope.

Definition MAX_TX_HEX_LEN : Z := 200000.
Definition MAX_MULTI_ADDRESSES : nat := 32.
Definition AMOUNT_RESOLUTION_LIMIT : nat := 60.

(** * Servers *)

Record UtxoServer := mkUtxoServer {
  us_network : UtxoNetwork;
  us_balance : string -> nat -> outcome ElectrumBalance;
  us_unspent : string -> nat -> outcome (list ElectrumUtxo);
  us_history : string -> nat -> outcome (list ElectrumHistoryEntry);
  us_tip : nat -> outcome i64;
  us_transaction : string -> nat -> outcome VerboseTransaction;
  us_fee : u32 -> nat -> outcome f64;
  us_broadcast : string -> nat -> outcome string;
  us_late : nat -> bool;
}.

(** ** Batches *)

Inductive BatchError := BatchApp (e : AppError) | BatchDeadline.

(** [Display] and [IntoResponse]. *)
Definition batch_error_fmt (e : BatchError) : string :=
  match e with BatchApp e => display e | BatchDeadline => "batch address query deadline exceeded" end.

Definition batch_into_response (e : BatchError) : ErrorResponse :=
  match e with
  | BatchApp e => into_response e
  | BatchDeadline => mkErrorResponse 504 "Batch address query timed out" "BATCH_TIMEOUT"
  end.

(** [m?] in a function that returns a [BatchError]. *)
Definition or_batch {A B} (m : M A) (k : A -> M (B + BatchError)) : M (B + BatchError) :=
  r ← attempt m;
  match r with inl a => k a | inr e => mret (inr (BatchApp e)) end.

Definition or_batch_error {A B} (m : M (A + BatchError)) (k : A -> M (B + BatchError)) : M (B + BatchError) :=
  r ← m;
  match r with inl a => k a | inr e => mret (inr e) end.

(** [buffered(..).try_collect()] under the deadline. *)
Definition run_batch {A T} (late : nat -> bool) (query : A -> M T) (l : list A) : M (list T + BatchError) :=
  k ← (fun w => (w, Ok (w_calls w)));
  if late k then mret (inr BatchDeadline)
  else or_batch (mapM query l) (fun ts => mret (inl ts)).

Section server.
Context `{Ext} `{Addresses} (s : UtxoServer).

Definition by_scripthash {A} (query : string -> nat -> outcome A) (address : string) : M A :=
  sh ← lift (address_to_scripthash (us_network s) address); upstream (query sh).

Definition sv_get_balance : string -> M ElectrumBalance := by_scripthash (us_balance s).
Definition sv_get_utxos : string -> M (list ElectrumUtxo) := by_scripthash (us_unspent s).
Definition sv_get_history : string -> M (list ElectrumHistoryEntry) := by_scripthash (us_history s).
Definition estimate_fee (blocks : u32) : M (option f64) :=
  btc_per_kb ← upstream (us_fee s blocks); mret (fee_of btc_per_kb).

Definition get_balance_sum (addresses : list string) : M (ElectrumBalance + BatchError) :=
  or_batch_error (run_batch (us_late s) sv_get_balance addresses)
    (fun acc => or_batch (lift (sum_balances acc)) (fun b => mret (inl b))).

(** The answers of a batch, each with its address. *)
Definition tagged {T} (addresses : list string) (results : list (list T)) : list (string * T) :=
  concat (zip_with (fun a l => (fun x => (a, x)) <$> l) addresses results).

Definition get_utxos_tagged (addresses : list string) : M (list (string * ElectrumUtxo) + BatchError) :=
  or_batch_error (run_batch (us_late s) sv_get_utxos addresses)
    (fun results => mret (inl (tagged addresses results))).
Definition get_history_tagged (addresses : list string)
  : M (list (string * ElectrumHistoryEntry) + BatchError) :=
  or_batch_error (run_batch (us_late s) sv_get_history addresses)
    (fun results => mret (inl (tagged addresses results))).

(** The client the workers of the tips use. *)
Definition electrum_client : ElectrumClient :=
  mkElectrumClient
    (fun address n => sh ← address_to_scripthash (us_network s) address; us_history s sh n)
    (us_transaction s) (us_tip s).
End server.

(** * Requests and answers *)

Record BalanceResponse := mkBalanceResponse {
  br_asset : string; br_address : string; br_confirmed : u64; br_unconfirmed : i64 }.
Record Utxo := mkUtxo { ut_txid : string; ut_vout : u64; ut_value : u64; ut_height : u64 }.
Record UtxosResponse := mkUtxosResponse { xr_asset : string; xr_address : string; xr_utxos : list Utxo }.
Record HistoryEntry := mkHistoryEntry {
  hy_txid : string; hy_height : i64; hy_fee : option u64;
  hy_total_received : option u64; hy_total_sent : option u64 }.
Record HistoryResponse := mkHistoryResponse {
  hx_asset : string; hx_address : string; hx_transactions : list HistoryEntry }.
Record MultiBalanceResponse := mkMultiBalanceResponse {
  mb_asset : string; mb_confirmed : u64; mb_unconfirmed : i64 }.
Record TaggedUtxo := mkTaggedUtxo { tg_address : string; tg_utxo : Utxo }.
Record MultiUtxosResponse := mkMultiUtxosResponse { mu_asset : string; mu_utxos : list TaggedUtxo }.
Record TaggedHistoryEntry := mkTaggedHistoryEntry { th_address : string; th_entry : HistoryEntry }.
Record MultiHistoryResponse := mkMultiHistoryResponse {
  mh_asset : string; mh_transactions : list TaggedHistoryEntry }.
Record TipResponse := mkTipResponse { tr_asset : string; tr_height : i64 }.
Record FeeResponse := mkFeeResponse { fr_asset : string; fr_sat_per_vb : option f64 }.
Record BroadcastResponse := mkBroadcastResponse { bc_txid : string }.

Definition utxo_dto (u : ElectrumUtxo) : Utxo :=
  mkUtxo (eu_tx_hash u) (eu_tx_pos u) (eu_value u) (eu_height u).

(** * Validators *)

Definition utxo_multi_enabled (env : Env) : bool := env_flag_enabled env "FEATURE_UTXO_MULTI_ADDRESS".

Definition validate_address_batch (addresses : list string) : outcome unit :=
  match addresses with
  | [] => Err (ValidationError "addresses must not be empty")
  | _ => if (MAX_MULTI_ADDRESSES <? length addresses)%nat
         then Err (ValidationError "too many addresses (max 32)") else Ok tt
  end.

Definition validate_tx_hex (tx_hex : string) : outcome unit :=
  if is_empty tx_hex || (MAX_TX_HEX_LEN <? Z.of_nat (len tx_hex))%Z
  then Err (ValidationError "Transaction hex has invalid length")
  else if negb (Nat.even (len tx_hex)) || negb (all_chars is_ascii_hexdigit tx_hex)
  then Err (ValidationError "Transaction must be even-length hexadecimal")
  else Ok tt.

(** * Amounts of a history *)

(** [sort_by_key(Reverse(key))], which is stable. *)
Definition recency (e : ElectrumHistoryEntry) : i64 :=
  if (0 <? he_height e)%Z then he_height e else I64_MAX.

Fixpoint insert_recent {T} (key : T -> Z) (x : T) (l : list T) : list T :=
  match l with
  | [] => [x]
  | y :: l' => if (key y <=? key x)%Z then x :: l else y :: insert_recent key x l'
  end.
Definition sort_recent {T} (key : T -> Z) (l : list T) : list T := foldr (insert_recent key) [] l.

(** One total over the addresses: a saturating sum, unknown if any part of it is. *)
Definition add_known (acc : option u64) (v : option u64) : option u64 :=
  match acc, v with Some a, Some b => Some (u64_saturating_add a b) | _, _ => None end.

Definition known {A} (o : outcome A) : option A := match o with Ok a => Some a | _ => None end.

Definition amounts_of (addresses : list string) (tx : option VerboseTransaction)
  : option u64 * option u64 :=
  match tx with
  | None => (None, None)
  | Some tx =>
      (foldl add_known (Some 0%Z) ((fun a => known (total_received_at tx a)) <$> addresses),
       foldl add_known (Some 0%Z) ((fun a => default None (known (total_sent_from tx a))) <$> addresses))
  end.

Abbreviation Amounts := (gmap string (option u64 * option u64)).

Definition resolve_amounts (s : UtxoServer) (txids addresses : list string) : M Amounts :=
  fetched ← mapM (fun txid => r ← attempt (upstream (us_transaction s txid));
                     mret (txid, match r with inl tx => Some tx | inr _ => None end))
              (take AMOUNT_RESOLUTION_LIMIT txids);
  mret (foldl (fun (out : Amounts) x => <[x.1 := amounts_of addresses x.2]> out) ∅ fetched).

Definition history_row (amounts : Amounts) (e : ElectrumHistoryEntry) : HistoryEntry :=
  let a := default (None, None) (amounts !! he_tx_hash e) in
  mkHistoryEntry (he_tx_hash e) (he_height e) (he_fee e) a.1 a.2.

(** The distinct values, in the order of their first occurrence. *)
Definition distinct (l : list string) : list string :=
  foldl (fun txids t => if bool_decide (t ∈ txids) then txids else txids ++ [t])%list [] l.

(** * Handlers *)

Record UtxoState := mkUtxoState {
  xs_sessions : SessionManager;
  xs_btc : option UtxoServer;
  xs_ltc : option UtxoServer;
}.

Section handlers.
Context `{Ext} `{Addresses} `{Jwt} (state : UtxoState).

Definition electrum_for (asset : string) : outcome UtxoServer :=
  client ←
    (if asset =? "btc" then Ok (xs_btc state)
     else if asset =? "ltc" then Ok (xs_ltc state)
     else Err (ValidationError ("Invalid UTXO asset: " ++ asset ++ " (expected btc or ltc)")));
  ok_or client (ValidationError (asset ++ " support is not enabled on this server")).

Definition utxo_balance (h : HeaderMap) (asset address : string) : M BalanceResponse :=
  _ ← extract_user_id_from_token (xs_sessions state) h;
  let asset := to_lowercase asset in
  client ← lift (electrum_for asset);
  bal ← sv_get_balance client address;
  mret (mkBalanceResponse asset address (eb_confirmed bal) (eb_unconfirmed bal)).

Definition utxo_utxos (h : HeaderMap) (asset address : string) : M UtxosResponse :=
  _ ← extract_user_id_from_token (xs_sessions state) h;
  let asset := to_lowercase asset in
  client ← lift (electrum_for asset);
  utxos ← sv_get_utxos client address;
  mret (mkUtxosResponse asset address (utxo_dto <$> utxos)).

Definition utxo_history (h : HeaderMap) (asset address : string) : M HistoryResponse :=
  _ ← extract_user_id_from_token (xs_sessions state) h;
  let asset := to_lowercase asset in
  client ← lift (electrum_for asset);
  entries ← sv_get_history client address;
  let entries := sort_recent recency entries in
  amounts ← resolve_amounts client (he_tx_hash <$> entries) [address];
  mret (mkHistoryResponse asset address (history_row amounts <$> entries)).

Definition utxo_tip (h : HeaderMap) (asset : string) : M TipResponse :=
  _ ← extract_user_id_from_token (xs_sessions state) h;
  let asset := to_lowercase asset in
  client ← lift (electrum_for asset);
  height ← upstream (us_tip client);
  mret (mkTipResponse asset height).

Definition utxo_fee (h : HeaderMap) (asset : string) (blocks : u32) : M FeeResponse :=
  _ ← extract_user_id_from_token (xs_sessions state) h;
  let asset := to_lowercase asset in
  client ← lift (electrum_for asset);
  rate ← estimate_fee client blocks;
  mret (mkFeeResponse asset rate).

Definition utxo_broadcast (h : HeaderMap) (asset tx_hex : string) : M BroadcastResponse :=
  _ ← extract_user_id_from_token (xs_sessions state) h;
  let asset := to_lowercase asset in
  client ← lift (electrum_for asset);
  _ ← lift (validate_tx_hex tx_hex);
  txid ← upstream (us_broadcast client tx_hex);
  mret (mkBroadcastResponse txid).

(** The opening lines of the batch handlers. *)
Definition batch_request {B} (h : HeaderMap) (asset : string) (addresses : list string)
    (k : UtxoServer -> M (B + BatchError)) : M (B + BatchError) :=
  or_batch (extract_user_id_from_token (xs_sessions state) h) (fun _ =>
  or_batch (lift (validate_address_batch addresses)) (fun _ =>
  or_batch (lift (electrum_for asset)) k)).

Definition utxo_balance_multi (h : HeaderMap) (asset : string) (addresses : list string)
  : M (MultiBalanceResponse + BatchError) :=
  let asset := to_lowercase asset in
  batch_request h asset addresses (fun client =>
  or_batch_error (get_balance_sum client addresses) (fun bal =>
  mret (inl (mkMultiBalanceResponse asset (eb_confirmed bal) (eb_unconfirmed bal))))).

Definition utxo_utxos_multi (h : HeaderMap) (asset : string) (addresses : list string)
  : M (MultiUtxosResponse + BatchError) :=
  let asset := to_lowercase asset in
  batch_request h asset addresses (fun client =>
  or_batch_error (get_utxos_tagged client addresses) (fun tagged =>
  mret (inl (mkMultiUtxosResponse asset ((fun x => mkTaggedUtxo x.1 (utxo_dto x.2)) <$> tagged))))).

Definition utxo_history_multi (h : HeaderMap) (asset : string) (addresses : list string)
  : M (MultiHistoryResponse + BatchError) :=
  let asset := to_lowercase asset in
  batch_request h asset addresses (fun client =>
  or_batch_error (get_history_tagged client addresses) (fun tagged =>
  let tagged := sort_recent (fun x => recency x.2) tagged in
  let txids := distinct ((fun x => he_tx_hash x.2) <$> tagged) in
  or_batch (resolve_amounts client txids addresses) (fun amounts =>
  mret (inl (mkMultiHistoryResponse asset
    ((fun x => mkTaggedHistoryEntry x.1 (history_row amounts x.2)) <$> tagged)))))).

(** The paths that exist. *)
Definition utxo_routes (env : Env) : list string :=
  (["/wallet/utxo/balance"; "/wallet/utxo/utxos"; "/wallet/utxo/history"; "/wallet/utxo/tip";
    "/wallet/utxo/fee"; "/wallet/utxo/broadcast"] ++
   if utxo_multi_enabled env
   then ["/wallet/utxo/balance_multi"; "/wallet/utxo/utxos_multi"; "/wallet/utxo/history_multi"]
   else [])%list.
End handlers.
