(* ===== verification/UtxoSafety.v ===== *)
(** What the Bitcoin and Litecoin handlers promise: an amount in a history is exact
    or absent, the rows are the server's newest first, and the balance of a batch is
    the sum of the balances. *)

From Stdlib Require Import ZArith Lia Ascii String SpecFloat Strings.Byte.
From stdpp Require Import sorting.
From S2P Require Import Prelude RustStr Json Errors Db Effects Demo LwsTypes Http Chains Auth Config Lws TipApi Pow WalletCn Electrum ElectrumSafety UtxoApi.

Local Open Scope string_scope.

(** * Running batches *)

Lemma mapM_run {A B} (f : A -> M B) l w w' bs :
  mapM f l w = (w', Ok bs) -> Forall2 (fun a b => exists w1 w2, f a w1 = (w2, Ok b)) l bs.
Proof.
  revert w bs. induction l as [|a l IH]; intros w bs; cbn [mapM].
  { intros [= <- <-]. constructor. }
  intros (w1 & b & Hb & Hr)%bind_run_Ok. apply bind_run_Ok in Hr as (w2 & bs' & Hbs & [= <- <-]).
  constructor; [eauto|by eapply IH].
Qed.

Lemma attempt_run {A} (m : M A) w w' r :
  attempt m w = (w', Ok r) ->
  match r with inl a => m w = (w', Ok a) | inr e => m w = (w', Err e) end.
Proof. unfold attempt. destruct (m w) as [w1 [a|e|]]; by intros [= <- <-]. Qed.

Lemma or_batch_run {A B} (m : M A) (k : A -> M (B + BatchError)) w w' b :
  or_batch m k w = (w', Ok (inl b)) -> exists w1 a, m w = (w1, Ok a) /\ k a w1 = (w', Ok (inl b)).
Proof.
  unfold or_batch. intros (w1 & r & Hr%attempt_run & Hk)%bind_run_Ok. destruct r as [a|e]; [eauto|done].
Qed.

Lemma or_batch_error_run {A B} (m : M (A + BatchError)) (k : A -> M (B + BatchError)) w w' b :
  or_batch_error m k w = (w', Ok (inl b)) ->
  exists w1 a, m w = (w1, Ok (inl a)) /\ k a w1 = (w', Ok (inl b)).
Proof.
  unfold or_batch_error. intros (w1 & r & Hr & Hk)%bind_run_Ok. destruct r as [a|e]; [eauto|done].
Qed.

Lemma run_batch_run {A T} late (query : A -> M T) l w w' ts :
  run_batch late query l w = (w', Ok (inl ts)) ->
  Forall2 (fun a t => exists w1 w2, query a w1 = (w2, Ok t)) l ts.
Proof.
  unfold run_batch. intros (w1 & k & [= <- <-] & Hr)%bind_run_Ok. destruct (late (w_calls w)); [done|].
  apply or_batch_run in Hr as (w2 & ts' & Hm & [= <- <-]). by eapply mapM_run.
Qed.

(** * Sorting *)

Lemma insert_recent_perm {T} (key : T -> Z) x l : insert_recent key x l ≡ₚ x :: l.
Proof.
  induction l as [|y l IH]; cbn [insert_recent]; [done|]. case_match; [done|].
  rewrite IH. apply Permutation_swap.
Qed.

Lemma sort_recent_perm {T} (key : T -> Z) l : sort_recent key l ≡ₚ l.
Proof. induction l as [|x l IH]; cbn [sort_recent foldr]; [done|]. by rewrite insert_recent_perm, IH. Qed.

Definition newer_first {T} (key : T -> Z) (x y : T) : Prop := (key y <= key x)%Z.

Lemma insert_recent_sorted {T} (key : T -> Z) x l :
  StronglySorted (newer_first key) l -> StronglySorted (newer_first key) (insert_recent key x l).
Proof.
  induction 1 as [|y l Hs IH Hy]; cbn [insert_recent]; [repeat constructor|].
  destruct (Z.leb_spec (key y) (key x)) as [Hle|Hlt].
  - constructor; [by constructor|]. constructor; [exact Hle|].
    eapply Forall_impl; [exact Hy|]. unfold newer_first. intros z ?. cbn in *. lia.
  - constructor; [exact IH|]. rewrite insert_recent_perm. constructor; [unfold newer_first; lia|exact Hy].
Qed.

Lemma sort_recent_sorted {T} (key : T -> Z) l : StronglySorted (newer_first key) (sort_recent key l).
Proof. induction l; cbn [sort_recent foldr]; [constructor|by apply insert_recent_sorted]. Qed.

(** * Amounts *)

Lemma sent_from_bound address total vs r :
  (0 <= total <= U64_MAX)%Z -> sent_from address total vs = Ok r -> (0 <= r <= U64_MAX)%Z.
Proof.
  revert total. induction vs as [|v vs IH]; intros total Ht; cbn [sent_from]; [by intros [= <-]|].
  destruct (vin_prevout v) as [p|]; [|by apply IH]. destruct (pays _ _); [|by apply IH].
  intros (t & (s & Hs & -> & Hle)%add_sats_Ok & Hr)%bind_Ok. pose proof (checked_btc_to_sat_bound _ _ Hs).
  eapply IH; [|exact Hr]. lia.
Qed.

Lemma total_sent_from_bound tx a r : total_sent_from tx a = Ok (Some r) -> in_u64 r.
Proof.
  unfold total_sent_from. destruct (existsb _ _); [done|]. intros Hr.
  destruct (sent_from a 0 (tx_vin tx)) as [x|e|] eqn:E; [|done..]. injection Hr as ->.
  apply sent_from_bound in E; [|unfold U64_MAX; lia]. unfold in_u64. lia.
Qed.

Lemma add_known_sum (vs : list (option u64)) acc v :
  (forall x, Some x ∈ vs -> in_u64 x) -> in_u64 acc ->
  foldl add_known (Some acc) vs = Some v ->
  exists xs, vs = Some <$> xs /\ v = Z.min U64_MAX (acc + Zsum xs).
Proof.
  revert acc. induction vs as [|o vs IH]; intros acc Hb Ha; cbn [foldl].
  { intros [= <-]. exists []. unfold in_u64 in Ha. cbn. split; [done|lia]. }
  destruct o as [x|].
  2: { assert (Hn : foldl add_known (None : option u64) vs = None) by (clear; induction vs; done).
       cbn [add_known]. rewrite Hn. done. }
  assert (Hx : in_u64 x) by (apply Hb; left).
  assert (Hnn : forall xs, vs = Some <$> xs -> (0 <= Zsum xs)%Z).
  { intros xs ->. apply Zsum_nonneg, Forall_forall. intros y Hy. apply Hb. right. by apply list_elem_of_fmap_2. }
  cbn [add_known]. intros Hv. apply IH in Hv as (xs & Hvs & Hv).
  - exists (x :: xs). split; [by rewrite Hvs|]. rewrite Hv. change (Zsum (x :: xs)) with (x + Zsum xs)%Z.
    specialize (Hnn xs Hvs). unfold u64_saturating_add, clamp, in_u64 in *. lia.
  - intros y Hy. apply Hb. by right.
  - unfold u64_saturating_add, clamp, in_u64 in *. lia.
Qed.

(** What a row of a history may say of a transaction: nothing, or its exact amounts
    over the addresses asked for. *)
Definition honest (s : UtxoServer) (addresses : list string) (e : HistoryEntry) : Prop :=
  (forall v, hy_total_received e = Some v -> exists k tx xs,
     us_transaction s (hy_txid e) k = Ok tx /\
     Forall2 (fun a x => total_received_at tx a = Ok x) addresses xs /\ v = Z.min U64_MAX (Zsum xs)) /\
  (forall v, hy_total_sent e = Some v -> exists k tx xs,
     us_transaction s (hy_txid e) k = Ok tx /\
     Forall2 (fun a x => total_sent_from tx a = Ok (Some x)) addresses xs /\ v = Z.min U64_MAX (Zsum xs)).

Lemma known_Some {A} (o : outcome A) a : known o = Some a <-> o = Ok a.
Proof. destruct o; cbn; naive_solver. Qed.

Lemma Forall2_known {A} (f : A -> option u64) (P : A -> u64 -> Prop) l xs :
  (forall a x, f a = Some x -> P a x) -> f <$> l = Some <$> xs -> Forall2 P l xs.
Proof.
  intros Hf. revert xs. induction l as [|a l IH]; intros [|x xs] E; try discriminate E; constructor.
  - apply Hf. by injection E.
  - apply IH. by injection E.
Qed.

Lemma amounts_of_honest addresses tx v :
  ((amounts_of addresses (Some tx)).1 = Some v -> exists xs,
     Forall2 (fun a x => total_received_at tx a = Ok x) addresses xs /\ v = Z.min U64_MAX (Zsum xs)) /\
  ((amounts_of addresses (Some tx)).2 = Some v -> exists xs,
     Forall2 (fun a x => total_sent_from tx a = Ok (Some x)) addresses xs /\ v = Z.min U64_MAX (Zsum xs)).
Proof.
  cbn [amounts_of fst snd].
  split; intros (xs & Hxs & ->)%add_known_sum; try (unfold in_u64, U64_MAX; lia).
  - exists xs. split; [|done]. eapply Forall2_known; [|exact Hxs]. intros a x. cbn. by rewrite known_Some.
  - intros x (a & Hx & _)%list_elem_of_fmap. symmetry in Hx. apply known_Some in Hx.
    by eapply total_received_at_bound.
  - exists xs. split; [|done]. eapply Forall2_known; [|exact Hxs]. intros a x. cbn.
    destruct (known _) as [o|] eqn:Ek; [|done]. cbn. intros ->. by apply known_Some.
  - intros x (a & Hx & _)%list_elem_of_fmap. destruct (known _) as [o|] eqn:Ek; [|done]. cbn in Hx.
    subst o. apply known_Some in Ek. by eapply total_sent_from_bound.
Qed.

Lemma foldl_insert_lookup addresses fetched (out : Amounts) t a :
  foldl (fun (out : Amounts) (x : string * option VerboseTransaction) =>
    <[x.1 := amounts_of addresses x.2]> out) out fetched !! t = Some a ->
  out !! t = Some a \/ exists tx, (t, tx) ∈ fetched /\ a = amounts_of addresses tx.
Proof.
  revert out. induction fetched as [|[t' tx] fetched IH]; intros out; cbn [foldl]; [by left|].
  intros Hl. apply IH in Hl as [Hl|(tx' & Hin & ->)]; [|right; exists tx'; split; [by right|done]].
  cbn [fst snd] in Hl. destruct (decide (t' = t)) as [->|Hne].
  - rewrite lookup_insert_eq in Hl. injection Hl as <-. right. exists tx. split; [left|done].
  - rewrite lookup_insert_ne in Hl by done. by left.
Qed.

Lemma resolved_honest s txids addresses w w' amounts e :
  resolve_amounts s txids addresses w = (w', Ok amounts) -> honest s addresses (history_row amounts e).
Proof.
  unfold resolve_amounts. intros (w1 & fetched & Hf%mapM_run & [= <- <-])%bind_run_Ok.
  unfold history_row.
  destruct (foldl _ ∅ fetched !! he_tx_hash e) as [a|] eqn:Hl; cbn [default from_option];
    [|split; cbn; by intros v ?].
  apply foldl_insert_lookup in Hl as [Hl|(tx & Hin & ->)]; [by rewrite lookup_empty in Hl|].
  apply list_elem_of_lookup in Hin as [i Hi].
  destruct (Forall2_lookup_r _ _ _ _ _ Hf Hi) as (txid & _ & w2 & w3 & Hrun).
  apply bind_run_Ok in Hrun as (w4 & r & Hr%attempt_run & [= _ Ht Htx]). subst txid.
  destruct r as [tx'|err]; subst tx; [|split; cbn; by intros v ?].
  unfold upstream in Hr. injection Hr as _ Hr.
  split; cbn [hy_total_received hy_total_sent history_row hy_txid]; intros v Hv;
    apply amounts_of_honest in Hv as (xs & Hxs & ->); eauto 6.
Qed.

(** What a row says besides the amounts. *)
Definition plain (e : HistoryEntry) : ElectrumHistoryEntry :=
  mkElectrumHistoryEntry (hy_txid e) (hy_height e) (hy_fee e).

Lemma plain_row amounts e : plain (history_row amounts e) = e.
Proof. by destruct e. Qed.

Lemma plain_rows amounts (es : list ElectrumHistoryEntry) : plain <$> (history_row amounts <$> es) = es.
Proof. rewrite <- list_fmap_compose. induction es as [|e es IH]; [done|]. cbn. by rewrite plain_row, IH. Qed.

Section handlers.
Context `{Ext} `{Addresses} `{Jwt} (state : UtxoState).

Lemma by_scripthash_run {A} s (query : string -> nat -> outcome A) address w w' a :
  by_scripthash s query address w = (w', Ok a) ->
  exists sh k, address_to_scripthash (us_network s) address = Ok sh /\ query sh k = Ok a.
Proof.
  unfold by_scripthash. intros (w1 & sh & [-> Hsh]%lift_run_Ok & [= _ Hq])%bind_run_Ok. eauto.
Qed.

(** A history never states an amount it does not know.  The rows are those of the
    server for the script of the address, newest first with the unconfirmed ones at
    the top; a row's amounts are absent, or are what a transaction the server gave
    for its id pays to, and takes from, the address, each input resolved. *)
Theorem history_honest h asset address w w' resp
    (Hrun : utxo_history state h asset address w = (w', Ok resp)) :
  exists s sh k entries, electrum_for state (to_lowercase asset) = Ok s /\
    address_to_scripthash (us_network s) address = Ok sh /\ us_history s sh k = Ok entries /\
    plain <$> hx_transactions resp ≡ₚ entries /\
    StronglySorted (newer_first recency) (plain <$> hx_transactions resp) /\
    Forall (honest s [address]) (hx_transactions resp).
Proof.
  unfold utxo_history in Hrun. apply bind_run_Ok in Hrun as (w1 & user & _ & Hrun).
  apply bind_run_Ok in Hrun as (w2 & s & [-> Hs]%lift_run_Ok & Hrun).
  apply bind_run_Ok in Hrun as (w3 & entries & (sh & k & Hsh & Hq)%by_scripthash_run & Hrun).
  apply bind_run_Ok in Hrun as (w4 & amounts & Ha & [= _ <-]). cbn [hx_transactions].
  exists s, sh, k, entries. rewrite plain_rows. split_and!; [done..|apply sort_recent_perm|apply sort_recent_sorted|].
  apply Forall_fmap, Forall_forall. intros e _. by eapply resolved_honest.
Qed.

Lemma batch_request_run {B} h asset addresses (k : UtxoServer -> M (B + BatchError)) w w' b :
  batch_request state h asset addresses k w = (w', Ok (inl b)) ->
  exists s w1, electrum_for state asset = Ok s /\ validate_address_batch addresses = Ok tt /\
    k s w1 = (w', Ok (inl b)).
Proof.
  unfold batch_request. intros (w1 & user & _ & Hr)%or_batch_run.
  apply or_batch_run in Hr as (w2 & [] & [-> Hv]%lift_run_Ok & Hr).
  apply or_batch_run in Hr as (w3 & s & [-> Hs]%lift_run_Ok & Hr). eauto.
Qed.

(** The history of a batch: the rows of every address, each with its address, and the
    amounts over all of them. *)
Lemma history_multi_honest h asset addresses w w' resp :
  utxo_history_multi state h asset addresses w = (w', Ok (inl resp)) ->
  exists s results, electrum_for state (to_lowercase asset) = Ok s /\
    Forall2 (fun a l => exists sh k, address_to_scripthash (us_network s) a = Ok sh /\
      us_history s sh k = Ok l) addresses results /\
    (fun r => (th_address r, plain (th_entry r))) <$> mh_transactions resp ≡ₚ tagged addresses results /\
    Forall (fun r => honest s addresses (th_entry r)) (mh_transactions resp).
Proof.
  unfold utxo_history_multi. intros (s & w1 & Hs & _ & Hr)%batch_request_run.
  apply or_batch_error_run in Hr as (w2 & tg & Htg & Hr).
  apply or_batch_error_run in Htg as (w3 & results & Hres%run_batch_run & [= _ <-]).
  apply or_batch_run in Hr as (w4 & amounts & Ha & [= _ <-]). cbn [mh_transactions].
  exists s, results. split; [done|]. split.
  { eapply Forall2_impl; [exact Hres|]. intros a l (u1 & u2 & (sh & k & ? & ?)%by_scripthash_run). eauto. }
  split.
  - rewrite <- list_fmap_compose. etransitivity; [|apply (sort_recent_perm (fun x => recency x.2))].
    apply reflexive_eq. generalize (sort_recent (fun x : string * ElectrumHistoryEntry => recency x.2) (tagged addresses results)).
    intros l. induction l as [|[a e] l IH]; [done|].
    rewrite fmap_cons, IH. unfold compose. cbn [th_address th_entry fst snd]. by rewrite plain_row.
  - apply Forall_fmap, Forall_forall. intros [a e] _. by eapply resolved_honest.
Qed.

(** * Sums *)

Lemma sum_balances_from_Ok acc bs b :
  (0 <= eb_confirmed acc <= U64_MAX)%Z -> Forall (fun x => 0 <= eb_confirmed x)%Z bs ->
  sum_balances_from acc bs = Ok b ->
  eb_confirmed b = (eb_confirmed acc + Zsum (eb_confirmed <$> bs))%Z /\
  eb_unconfirmed b = (eb_unconfirmed acc + Zsum (eb_unconfirmed <$> bs))%Z /\ (eb_confirmed b <= U64_MAX)%Z.
Proof.
  intros Hacc Hbs. revert acc Hacc. induction Hbs as [|x bs Hx Hbs IH]; intros acc Hacc; cbn [sum_balances_from].
  { intros [= <-]. cbn. lia. }
  intros (cf & Hc & (un & Hu & Hr)%bind_Ok)%bind_Ok. apply ok_or_Ok in Hc, Hu.
  unfold u64_checked_add in Hc. unfold i64_checked_add in Hu.
  destruct (_ <=? _)%Z eqn:E in Hc; [|done]. injection Hc as <-. destruct (_ && _) in Hu; [|done]. injection Hu as <-.
  apply Z.leb_le in E. cbn beta in Hx. apply IH in Hr as (H1' & H2' & H3'); cbn [eb_confirmed eb_unconfirmed] in *; [|lia].
  change (Zsum (eb_confirmed <$> x :: bs)) with (eb_confirmed x + Zsum (eb_confirmed <$> bs))%Z.
  change (Zsum (eb_unconfirmed <$> x :: bs)) with (eb_unconfirmed x + Zsum (eb_unconfirmed <$> bs))%Z. lia.
Qed.

(** The balance of a batch is the sum of the answers for its addresses, as integers. *)
Lemma balance_multi_exact h asset addresses w w' resp :
  (forall s sh k b, electrum_for state asset = Ok s -> us_balance s sh k = Ok b -> (0 <= eb_confirmed b)%Z) ->
  to_lowercase asset = asset ->
  utxo_balance_multi state h asset addresses w = (w', Ok (inl resp)) ->
  exists s bs, electrum_for state asset = Ok s /\ 0 < length addresses <= 32 /\
    Forall2 (fun a b => exists sh k, address_to_scripthash (us_network s) a = Ok sh /\
      us_balance s sh k = Ok b) addresses bs /\
    mb_confirmed resp = Zsum (eb_confirmed <$> bs) /\ mb_unconfirmed resp = Zsum (eb_unconfirmed <$> bs).
Proof.
  intros Hu Hlow. unfold utxo_balance_multi. rewrite Hlow. intros (s & w1 & Hs & Hv & Hr)%batch_request_run.
  apply or_batch_error_run in Hr as (w2 & b & Hb & [= _ <-]).
  apply or_batch_error_run in Hb as (w3 & bs & Hbs%run_batch_run & Hb).
  apply or_batch_run in Hb as (w4 & b' & [-> Hsum]%lift_run_Ok & [= _ <-]).
  assert (Hq : Forall2 (fun a b => exists sh k, address_to_scripthash (us_network s) a = Ok sh /\
      us_balance s sh k = Ok b) addresses bs).
  { eapply Forall2_impl; [exact Hbs|]. intros a l (u1 & u2 & (sh & k & ? & ?)%by_scripthash_run). eauto. }
  exists s, bs. split; [done|]. split.
  { unfold validate_address_batch, MAX_MULTI_ADDRESSES in Hv. destruct addresses as [|a l]; [done|].
    destruct (Nat.ltb_spec 32 (length (a :: l))) in Hv; [done|]. cbn in *. lia. }
  split; [done|]. apply sum_balances_from_Ok in Hsum as (H1' & H2' & _); [done|cbn; unfold U64_MAX; lia|].
  apply Forall_forall. intros x [i Hi]%list_elem_of_lookup.
  destruct (Forall2_lookup_r _ _ _ _ _ Hq Hi) as (a & _ & sh & k & _ & Hx). by eapply Hu.
Qed.
End handlers.

(** * Concrete runs *)

Definition demo_program : list Byte.byte := repeat Byte.x01 20.
Definition demo_hash : list Byte.byte := repeat Byte.x02 20.

Definition demo_base58 : list Byte.byte :=
  (Byte.x00 :: demo_hash ++ take 4 (sha256 (sha256 (Byte.x00 :: demo_hash))))%list.

#[export] Instance demo_addresses : Addresses | 1000 := {
  segwit_decode a := if a =? "bc1qdemo" then Some ("bc", 0%Z, demo_program) else None;
  bs58_decode a := if a =? "1demo" then Some demo_base58 else None;
}.

#[export] Instance demo_addresses_laws : AddressesLaws demo_addresses.
Proof.
  split. intros a hrp v program. cbn [segwit_decode demo_addresses]. destruct (a =? "bc1qdemo"); [|done].
  intros [= <- <- <-]. cbn. lia.
Qed.

Lemma script_names_payee_witness :
  address_to_script BitcoinMainnet "bc1qdemo" = Ok (segwit_script 0 demo_program) /\
  address_to_script BitcoinMainnet "1demo" = Ok (p2pkh_script demo_hash) /\
  segwit_script 0 demo_program <> p2pkh_script demo_hash.
Proof.
  assert (Hw : decodes BitcoinMainnet "bc1qdemo" (Witness 0 demo_program)).
  { split; [by vm_compute|]. exists "bc". by split; vm_compute. }
  assert (Hk : decodes BitcoinMainnet "1demo" (KeyHash demo_hash)).
  { split; [by vm_compute|]. by split. }
  split; [|split].
  - apply (script_names_payee BitcoinMainnet "bc1qdemo"). by exists (Witness 0 demo_program).
  - apply (script_names_payee BitcoinMainnet "1demo"). by exists (KeyHash demo_hash).
  - intros E. destruct (script_names_payee BitcoinMainnet "bc1qdemo") as [_ Hinj].
    by specialize (Hinj BitcoinMainnet "1demo" _ _ Hw Hk E).
Defined.

(** A primary that does not answer, a fallback that answers another request, and one
    that answers this one. *)
Definition demo_primary : ServerUrl := mkServerUrl "primary" 50001 false.
Definition demo_crossed : ServerUrl := mkServerUrl "crossed" 50002 true.
Definition demo_healthy : ServerUrl := mkServerUrl "healthy" 50002 true.

Definition tip_answer (id : u64) : Value :=
  to_object [("jsonrpc", VString "2.0"); ("id", VNumber id);
             ("result", to_object [("height", VNumber 800000)])].

#[export] Instance demo_net : ElectrumNet | 1000 := {
  dial s _ _ :=
    if su_host s =? "crossed" then Received [Byte.x36; Byte.x0a; Byte.x37]
    else if su_host s =? "healthy" then Received [Byte.x37; Byte.x0a]
    else TcpTimedOut;
  from_utf8 bs := Some (string_of_list_byte bs);
  json_from_str line := match line with String c _ => Some (tip_answer (Z.of_nat (code c) - 48)) | _ => None end;
  f64_of_text _ := S754_nan;
  now_millis _ := 1000%Z;
  shuffle _ l := rev l;
}.

#[export] Instance demo_net_laws : ElectrumNetLaws demo_net.
Proof. split. intros n l. cbn. rewrite rev_alt, <- rev_alt. symmetry. apply Permutation_rev. Qed.

Definition demo_electrum : UtxoClient :=
  mkUtxoClient BitcoinMainnet (Some demo_primary) [demo_healthy; demo_crossed].
#[local] Abbreviation demo_tip :=
  (call demo_electrum (mkElState 7 1 0) "blockchain.headers.subscribe" [] read_tip_header (quiet_world empty_db 0)).

(** The third server asked answers, and the primary's second failure trips the breaker. *)
Example demo_tip_runs :
  demo_tip.2 = Ok (mkElState 8 2 31000, inl 800000%Z) /\
  fst <$> w_sent demo_tip.1 = ["primary:50001"; "crossed:50002"; "healthy:50002"].
Proof. by vm_compute. Qed.

Lemma electrum_call_exact_witness :
  exists w' st' r, demo_tip = (w', Ok (st', r)) /\
    asked read_tip_header (to_ask demo_electrum (mkElState 7 1 0) 0)
      (rpc_request "blockchain.headers.subscribe" [] 7) 7 (quiet_world empty_db 0) w' r.
Proof.
  destruct (electrum_call_exact demo_electrum (mkElState 7 1 0) "blockchain.headers.subscribe" []
    read_tip_header (quiet_world empty_db 0)) as (w' & st' & r & Hrun & Hasked & _).
  exists w', st', r. split; [exact Hrun|exact Hasked].
Defined.

(** Two failures, a success, two failures. *)
Definition demo_outages : list (u64 * bool) :=
  [(0, false); (10, false); (40000, true); (50000, false); (60000, false)]%Z.

Lemma breaker_exact_witness :
  primary_in_cooldown (foldl noted (mkElState 1 0 0) demo_outages) 89999 = true /\
  primary_in_cooldown (foldl noted (mkElState 1 0 0) demo_outages) 90000 = false.
Proof.
  split.
  - apply (breaker_exact 1 demo_outages 89999); [cbn; lia|lia|].
    exists [(0, false); (10, false); (40000, true)]%Z, 50000%Z, 60000%Z. split; [done|].
    unfold u64_saturating_add, clamp, U64_MAX. lia.
  - apply not_true_iff_false. intros Hc.
    apply (breaker_exact 1 demo_outages 90000) in Hc; [|cbn; lia|lia].
    destruct Hc as (h' & t1 & t2 & E & Hlt).
    assert (Hl : last demo_outages = Some (t2, false)).
    { rewrite E. change [(t1, false); (t2, false)] with ([(t1, false)] ++ [(t2, false)])%list.
      rewrite app_assoc. apply last_snoc. }
    injection Hl as <-. unfold u64_saturating_add, clamp, U64_MAX in Hlt. lia.
Defined.

(** A history of two rows, the older one first on the wire: one transaction resolves
    its inputs, the other cannot be fetched. *)
Definition demo_spk : ScriptPubKeyInfo := mkScriptPubKeyInfo (Some "bc1qdemo") None.
Definition half_coin : f64 := S754_finite false 4503599627370496 (-53).
Definition demo_verbose : VerboseTransaction :=
  mkVerboseTransaction "aa" [mkVerboseVin None None None] [mkVerboseVout half_coin 0 demo_spk].
Definition demo_server : UtxoServer :=
  mkUtxoServer BitcoinMainnet (fun _ _ => Ok (mkElectrumBalance 5 0)) (fun _ _ => Ok [])
    (fun _ _ => Ok [mkElectrumHistoryEntry "aa" 700000 None; mkElectrumHistoryEntry "bb" 0 (Some 200%Z)])
    (fun _ => Ok 800000%Z)
    (fun txid _ => if txid =? "aa" then Ok demo_verbose else Err (NodeError "unknown"))
    (fun _ _ => Ok S754_nan) (fun _ _ => Ok "cc") (fun _ => false).
Definition demo_utxo_state : UtxoState := mkUtxoState demo_sm (Some demo_server) None.

#[local] Abbreviation demo_history :=
  (utxo_history demo_utxo_state demo_headers "BTC" "bc1qdemo" (quiet_world demo_session_db HOUR)).

Definition demo_history_answer : HistoryResponse :=
  mkHistoryResponse "btc" "bc1qdemo"
    [mkHistoryEntry "bb" 0 (Some 200%Z) None None;
     mkHistoryEntry "aa" 700000 None (Some 50000000%Z) None].

Lemma demo_history_runs : demo_history.2 = Ok demo_history_answer.
Proof. by vm_compute. Qed.

Lemma history_honest_witness :
  Forall (honest demo_server ["bc1qdemo"]) (hx_transactions demo_history_answer).
Proof.
  assert (E : demo_history = (demo_history.1, Ok demo_history_answer))
    by (rewrite <- demo_history_runs; apply surjective_pairing).
  destruct (history_honest demo_utxo_state demo_headers "BTC" "bc1qdemo" (quiet_world demo_session_db HOUR)
    demo_history.1 demo_history_answer E) as (s & sh & k & entries & Hs & _ & _ & _ & _ & Hf).
  injection Hs as <-. exact Hf.
Defined.
