(* ===== verification/ConfigSafety.v ===== *)
(** What a configuration that passes [Config::validate] guarantees, and what
    [Config::from_env] makes of an environment. *)

From Stdlib Require Import ZArith Lia Ascii String.
From stdpp Require Import pretty.
From S2P Require Import Prelude RustStr Errors Db Effects Demo Auth Config RelayPolicy Pow.

Local Open Scope string_scope.

(** * The checks, one by one *)

Lemma refuse_Ok b msg u : refuse b msg = Ok u <-> b = false.
Proof. destruct u, b; simpl; naive_solver. Qed.

Lemma then_Ok {B} (m : outcome unit) (k : unit -> outcome B) b :
  (m ≫= k) = Ok b <-> m = Ok tt /\ k tt = Ok b.
Proof. rewrite bind_Ok. split; [intros ([] & ?)|intros ?]; naive_solver. Qed.

Lemma check_all_Ok {A} (check : A -> outcome unit) xs u :
  check_all check xs = Ok u <-> Forall (fun x => check x = Ok tt) xs.
Proof.
  destruct u. induction xs as [|x xs IH]; simpl; [done|].
  by rewrite then_Ok, IH, Forall_cons.
Qed.

(** A refusal is a [ConfigError], and nothing panics. *)
Definition refused {A} (o : outcome A) : Prop := exists msg, o = Err (ConfigError msg).
Definition decides {A} (o : outcome A) : Prop := (exists a, o = Ok a) \/ refused o.

Lemma decides_refuse b msg : decides (refuse b msg).
Proof. destruct b; [right; by eexists|left; by eexists]. Qed.
Lemma decides_err {A} msg : decides (A := A) (Err (cfg_err msg)).
Proof. right. by eexists. Qed.
Lemma decides_ok {A} (a : A) : decides (Ok a).
Proof. left. by eexists. Qed.
Lemma decides_ok_or {A} (o : option A) msg : decides (ok_or o (cfg_err msg)).
Proof. destruct o; [left|right]; by eexists. Qed.
Lemma decides_bind {A B} (m : outcome A) (k : A -> outcome B) :
  decides m -> (forall a, decides (k a)) -> decides (m ≫= k).
Proof. intros [[a ->]|[msg ->]] Hk; [apply Hk|right; by eexists]. Qed.
Lemma decides_check_all {A} (check : A -> outcome unit) xs :
  (forall x, decides (check x)) -> decides (check_all check xs).
Proof.
  intros Hc. induction xs; simpl; [apply decides_ok|]. by apply decides_bind.
Qed.

Create HintDb config discriminated.
#[export] Hint Resolve decides_refuse decides_ok decides_err decides_ok_or : config.

(** Down a chain of checks. *)
Ltac decide_checks :=
  repeat match goal with
  | |- decides _ => solve [auto with config]
  | |- decides (check_all _ _) => apply decides_check_all; intros ?
  | |- decides (_ ≫= _) => apply decides_bind; [|intros ?]
  | |- decides (let _ := _ in _) => cbv zeta
  | |- decides (match ?x with _ => _ end) => destruct x
  end.

(** * What the strings must be *)

Lemma contains_iff n s : contains n s = true <-> exists a b, s = a ++ n ++ b.
Proof.
  induction s as [|c s IH]; cbn [contains].
  - rewrite orb_false_r, is_some_true. split.
    + intros [t Ht%strip_prefix_spec]. by exists "", t.
    + intros (a & b & Heq). destruct a; [|done]. exists b. by apply strip_prefix_spec.
  - rewrite orb_true_iff, IH, is_some_true. split.
    + intros [[t Ht%strip_prefix_spec]|(a & b & ->)]; [by exists "", t|by exists (String c a), b].
    + intros ([|x a] & b & Heq); [left; exists b; by apply strip_prefix_spec|].
      injection Heq as -> ->. right. eauto.
Qed.

(** No known placeholder inside, whatever the case. *)
Definition genuine (s : string) : Prop :=
  forall p a b, p ∈ PLACEHOLDERS -> to_lowercase s <> a ++ p ++ b.

Lemma looks_placeholder_genuine s : looks_placeholder s = false <-> genuine s.
Proof.
  unfold looks_placeholder, genuine. rewrite <- not_true_iff_false, existsb_exists. split.
  - intros Hn p a b Hp Heq. apply Hn. exists p.
    split; [by apply list_elem_of_In|]. apply contains_iff. eauto.
  - intros Hg (p & Hp%list_elem_of_In & (a & b & Heq)%contains_iff). by eapply Hg.
Qed.

(** A secret: long enough, and in production no placeholder. *)
Definition strong (prod : bool) (min : nat) (s : string) : Prop :=
  min <= len s /\ (prod = true -> genuine s).

(** Digits around at most one point, not all of them zero. *)
Definition positive_amount (s : string) : Prop :=
  exists a b, all_chars is_ascii_digit (a ++ b) = true /\ (s = a /\ b = "" \/ s = a ++ "." ++ b) /\
    all_chars (fun c => Ascii.eqb c "0") (a ++ b) = false.

Lemma starts_with_iff p s : starts_with p s = true <-> exists t, s = p ++ t.
Proof.
  unfold starts_with. rewrite is_some_true. split; intros [t Ht]; exists t; by apply strip_prefix_spec.
Qed.

(** * The specification *)

Section spec.
Context `{Urls}.

Definition https_or_local (prod : bool) (url : string) : Prop :=
  prod = true -> (exists t, url = "https://" ++ t) \/ is_loopback_url url = true.

(** The processor behind the payment gate. *)
Record payment_wired (prod : bool) (p : PaymentConfig) : Prop := {
  wired_provider : pc_provider p = "btcpay";
  wired_url : exists u, url_parse (pc_provider_url p) = Some u /\
    (prod = true -> url_scheme u = "https" \/ is_loopback_url (pc_provider_url p) = true);
  wired_url_set : pc_provider_url p <> "";
  wired_store : pc_store_id p <> "";
  wired_key : strong prod 8 (pc_api_key p);
  wired_amount : positive_amount (pc_amount p);
  wired_currency : pc_currency p <> "";
  wired_confirmations : pc_confirmations p <> 0%Z;
  wired_expiry : pc_expires_minutes p <> 0%Z /\ (pc_expires_minutes p <= 10080)%Z;
}.

Record relay_wired (prod : bool) (r : RelayConfig) : Prop := {
  relay_mode_ok : rl_mode r = "bundled" \/ rl_mode r = "external";
  relay_url_ok : exists t, rl_advertised_url r = "wss://" ++ t \/
    (prod = false /\ rl_advertised_url r = "ws://" ++ t);
  relay_policy_ok : is_Some (policy_parse (rl_write_policy r));
  relay_pow_ok : (rl_inbound_pow_bits r <= 40)%Z;
  relay_bind_ok : rl_write_policy r <> "open" ->
    trim (rl_admission_bind r) <> "" /\
    (rl_admission_allow_public r = false ->
     exists addr addrs, to_socket_addrs (rl_admission_bind r) = Some (addr :: addrs) /\
       Forall (fun a => ip_is_loopback a = true) (addr :: addrs));
}.

Record rail_wired (prod : bool) (r : PaymentRailConfig) : Prop := {
  rail_url : trim (ra_provider_url r) <> "" /\ https_or_local prod (ra_provider_url r);
  rail_store : trim (ra_store_id r) <> "";
  rail_key : strong prod 8 (ra_api_key r);
}.

Record premium_wired (prod : bool) (pm : PremiumConfig) (p : PaymentConfig) (r : RelayConfig)
  : Prop := {
  premium_processor : pc_provider p = "btcpay" /\ trim (pc_provider_url p) <> "" /\
    https_or_local prod (pc_provider_url p) /\ trim (pc_store_id p) <> "" /\
    strong prod 8 (pc_api_key p);
  premium_final : pc_confirmations p <> 0%Z;
  premium_expiry : pc_expires_minutes p <> 0%Z /\ (pc_expires_minutes p <= 10080)%Z;
  premium_currency : trim (pm_currency pm) <> "";
  premium_relay : rl_enabled r = true /\ rl_write_policy r = "premium-post";
  premium_plans : pm_plans pm <> [] /\ NoDup (plan_id <$> pm_plans pm) /\
    Forall (fun q => positive_amount (plan_amount q) /\ (plan_days q <= 3660)%Z) (pm_plans pm);
  premium_rails : Forall (rail_wired prod) (pm_rails pm);
}.

(** An enabled chain has something to serve it. *)
Record chains_served (f : ChainFlags) (c : ChainConfig) : Prop := {
  btc_served : cg_btc f = true ->
    is_Some (ux_electrum_primary (ch_btc c)) \/ ux_electrum_fallbacks (ch_btc c) <> [];
  ltc_served : cg_ltc f = true ->
    is_Some (ux_electrum_primary (ch_ltc c)) \/ ux_electrum_fallbacks (ch_ltc c) <> [];
  xmr_served : cg_xmr f = true -> lw_lws_admin_key (ch_xmr c) <> "";
  wow_served : cg_wow f = true -> lw_lws_admin_key (ch_wow c) <> "";
  grin_served : cg_grin f = true -> gn_owner_api_secret (ch_grin c) <> "";
}.

Record config_ok (c : Config) : Prop := {
  ok_rates : li_strict_period_ms (cf_rate_limit c) <> 0%Z /\
    li_normal_period_ms (cf_rate_limit c) <> 0%Z /\
    li_strict_burst (cf_rate_limit c) <> 0%Z /\ li_normal_burst (cf_rate_limit c) <> 0%Z;
  ok_secrets : strong (is_production c) 32 (ac_jwt_secret (cf_auth c)) /\
    strong (is_production c) 32 (se_seed_fingerprint_pepper (cf_secrets c)) /\
    strong (is_production c) 32 (se_refresh_token_pepper (cf_secrets c)) /\
    strong (is_production c) 16 (se_ip_salt (cf_secrets c));
  ok_restore : rc_policy (cf_restore c) = Bounded -> rc_max_depth_days (cf_restore c) <> 0%Z;
  ok_nostr : ff_nostr_identity (cf_features c) = true ->
    exists url u, id_public_api_url (cf_identity c) = Some url /\ url_parse url = Some u /\
      (is_production c = true -> url_scheme u = "https" /\ genuine url);
  ok_pow : (pow_enabled (cf_pow c) = true -> strong (is_production c) 32 (pow_hmac_key (cf_pow c))) /\
    (pow_required (cf_pow c) = true \/ pow_required_for_pubkeys (cf_pow c) <> [] ->
     pow_enabled (cf_pow c) = true);
  ok_admin : dm_enabled (cf_admin c) = true ->
    strong (is_production c) 32 (dm_jwt_secret (cf_admin c)) /\
    strong (is_production c) 32 (dm_key_integrity_secret (cf_admin c)) /\
    is_Some (url_parse (dm_public_url (cf_admin c)));
  ok_prices : ff_prices (cf_features c) = true ->
    ff_prices_provider (cf_features c) ∈ ["neroswap"; "coingecko"; "kraken"] /\
    ff_prices_assets (cf_features c) ⊆ SUPPORTED_PRICE_ASSETS /\
    ff_prices_currency (cf_features c) ∈ SUPPORTED_PRICE_CURRENCIES;
  ok_erasure : rt_erasure_enabled (cf_retention c) = true ->
    strong (is_production c) 32 (dm_key_integrity_secret (cf_admin c)) /\
    is_Some (id_public_api_url (cf_identity c)) /\
    (rt_grace_period_hours (cf_retention c) <= 87600)%Z;
  ok_chains : is_production c = true -> chains_served (ff_chains (cf_features c)) (cf_chains c);
  ok_tips : ff_tips (cf_features c) = true ->
    (cg_btc (ff_chains (cf_features c)) = true \/ cg_ltc (ff_chains (cf_features c)) = true \/
     cg_xmr (ff_chains (cf_features c)) = true \/ cg_wow (ff_chains (cf_features c)) = true \/
     cg_grin (ff_chains (cf_features c)) = true) /\ is_Some (cf_tip_share_base c);
  ok_payment : pc_require_payment (rg_payment (cf_registration c)) = true ->
    payment_wired (is_production c) (rg_payment (cf_registration c));
  ok_relay : rl_enabled (ms_relay (cf_messaging c)) = true ->
    relay_wired (is_production c) (ms_relay (cf_messaging c));
  ok_feed : fd_enabled (cf_feed c) = true -> rl_enabled (ms_relay (cf_messaging c)) = true;
  ok_premium : pm_enabled (cf_premium c) = true ->
    premium_wired (is_production c) (cf_premium c) (rg_payment (cf_registration c))
      (ms_relay (cf_messaging c));
}.
End spec.

(** * Each check decides its clause *)

Lemma refuse_false b msg : refuse b msg = Ok tt <-> b = false.
Proof. apply refuse_Ok. Qed.

(** The guards of a chain of checks, as propositions. *)
Ltac guards :=
  rewrite ?then_Ok, ?refuse_false, ?check_all_Ok, ?orb_false_iff, ?andb_false_iff, ?negb_false_iff,
    ?negb_true_iff, ?bool_decide_eq_false, ?bool_decide_eq_true, ?Z.eqb_eq, ?Z.eqb_neq,
    ?Z.ltb_ge, ?Nat.ltb_ge, ?String.eqb_eq, ?String.eqb_neq.

Lemma is_empty_true s : is_empty s = true <-> s = "".
Proof. by destruct s. Qed.
Lemma is_empty_false s : is_empty s = false <-> s <> "".
Proof. by destruct s. Qed.

Lemma is_none_false {A} (o : option A) : is_none o = false <-> is_Some o.
Proof. destruct o; simpl; split; intros; [eauto|done|done|by destruct H]. Qed.

Lemma bool_cases (b : bool) (P : Prop) : (b = false \/ P) <-> (b = true -> P).
Proof. destruct b; naive_solver. Qed.

Lemma when_Ok (b : bool) (m : outcome unit) :
  (if b then m else Ok tt) = Ok tt <-> (b = true -> m = Ok tt).
Proof. destruct b; naive_solver. Qed.

Lemma ok_or_then_Ok {A} (o : option A) e (k : A -> outcome unit) :
  (ok_or o e ≫= k) = Ok tt <-> exists a, o = Some a /\ k a = Ok tt.
Proof. rewrite bind_Ok. setoid_rewrite ok_or_Ok. done. Qed.

Lemma require_secret_strong prod name s min :
  require_secret prod name s min = Ok tt <-> strong prod min s.
Proof.
  unfold require_secret, strong. guards.
  by rewrite looks_placeholder_genuine, bool_cases.
Qed.

Lemma positive_from_iff dot digit nonzero s :
  positive_decimal_from dot digit nonzero s = true <->
  exists a b, all_chars is_ascii_digit (a ++ b) = true /\
    (s = a /\ b = "" \/ dot = false /\ s = a ++ "." ++ b) /\
    (digit = true \/ a ++ b <> "") /\
    (nonzero = true \/ all_chars (fun c => Ascii.eqb c "0") (a ++ b) = false).
Proof.
  assert (Hnil : forall a : string, a ++ "" = a) by (induction a as [|x a IH]; [done|];
    change (String x (a ++ "") = String x a); by rewrite IH).
  revert dot digit nonzero. induction s as [|c s IH]; intros dot digit nonzero;
    cbn [positive_decimal_from].
  { rewrite andb_true_iff. split.
    - intros [-> ->]. exists "", "". naive_solver.
    - intros (a & b & _ & [[<- ->]|[_ Heq]] & Hd & Hz); [|by destruct a].
      cbn [String.append] in *. destruct Hd as [->|[]]; [|done]. by destruct Hz as [->|[=]]. }
  destruct (is_ascii_digit c) eqn:Ec.
  - rewrite IH. split.
    + intros (a & b & Had & Hs & _ & Hz). exists (String c a), b.
      change (String c a ++ b) with (String c (a ++ b)). cbn [all_chars].
      rewrite Ec, Had. split_and!; [done| |by right|].
      * destruct Hs as [[-> ->]|[-> ->]]; [by left|by right].
      * destruct Hz as [[->|Hc]%orb_true_iff|Hz]; [by left|right..].
        -- apply negb_true_iff in Hc. by rewrite Hc.
        -- by rewrite Hz, andb_false_r.
    + intros (a & b & Had & Hs & _ & Hz). destruct a as [|x a].
      { cbn [String.append] in *. destruct Hs as [[? _]|[_ Heq]]; [done|].
        injection Heq as -> _. done. }
      change (String x a ++ b) with (String x (a ++ b)) in Had, Hz.
      cbn [all_chars] in Had, Hz. apply andb_true_iff in Had as [_ Had].
      assert (c = x) as <- by (destruct Hs as [[[=] _]|[_ [=]]]; congruence).
      exists a, b. split_and!; [done| |by left|].
      * destruct Hs as [[Heq ->]|[-> Heq]]; [left|right]; injection Heq as ->; done.
      * destruct Hz as [->|[Hz|Hz]%andb_false_iff]; [by left|left|by right].
        by rewrite Hz, orb_true_r.
  - destruct (Ascii.eqb c "." && negb dot) eqn:Edot.
    + apply andb_true_iff in Edot as [->%Ascii.eqb_eq ->%negb_true_iff]. rewrite IH. split.
      * intros (a & b & Had & [[-> ->]|[[=] _]] & Hd & Hz). rewrite Hnil in *.
        exists "", a. split_and!; [done|by right|done|done].
      * intros (a & b & Had & [[Heq ->]|[_ Heq]] & Hd & Hz).
        { rewrite Hnil in Had. subst a. done. }
        destruct a as [|x a].
        2: { injection Heq as <- _. change (String "." a ++ b) with (String "." (a ++ b)) in Had. done. }
        cbn [String.append] in *. injection Heq as ->. exists b, "". rewrite Hnil. naive_solver.
    + split; [done|]. intros (a & b & Had & Hs & _ & _).
      destruct a as [|x a]; cbn [String.append] in *.
      * destruct Hs as [[? _]|[-> Heq]]; [done|]. injection Heq as -> _. by rewrite Ascii.eqb_refl in Edot.
      * change (String x a ++ b) with (String x (a ++ b)) in Had. cbn [all_chars] in Had.
        destruct Hs as [[[= -> _] _]|[_ [= -> _]]]; by rewrite Ec in Had.
Qed.

Lemma is_positive_decimal_iff s : is_positive_decimal s = true <-> positive_amount s.
Proof.
  unfold is_positive_decimal, positive_amount. rewrite positive_from_iff. split.
  - intros (a & b & Had & Hs & _ & [?|Hz]); [done|]. exists a, b. naive_solver.
  - intros (a & b & Had & Hs & Hz). exists a, b. split_and!; [done|naive_solver| |by right].
    right. intros Heq. by rewrite Heq in Hz.
Qed.

Lemma trim_start_nonblank p c s :
  p c = false -> trim_start_while p (String c s) = String c s.
Proof. intros Hc. simpl. by rewrite Hc. Qed.

Lemma trim_end_nonblank p c s : p c = false -> trim_end_while p (String c s) <> "".
Proof. intros Hc. simpl. destruct (trim_end_while p s); [by rewrite Hc|done]. Qed.

Lemma ws_url_not_blank s :
  starts_with "wss://" s = true \/ starts_with "ws://" s = true -> is_empty (trim s) = false.
Proof.
  intros Hs. apply is_empty_false. unfold trim.
  destruct Hs as [[t ->]%starts_with_iff|[t ->]%starts_with_iff]; by apply trim_end_nonblank.
Qed.

Lemma wss_not_ws s : starts_with "wss://" s = true -> starts_with "ws://" s = false.
Proof. intros [t ->]%starts_with_iff. done. Qed.

Section clauses.
Context `{Urls}.

Lemma https_or_local_guard prod url :
  prod && negb (starts_with "https://" url) && negb (is_loopback_url url) = false <->
  https_or_local prod url.
Proof.
  unfold https_or_local. rewrite <- starts_with_iff.
  destruct prod, (starts_with _ _), (is_loopback_url _); naive_solver.
Qed.

Lemma validate_rail_iff prod r : validate_rail prod r = Ok tt <-> rail_wired prod r.
Proof.
  unfold validate_rail. rewrite !then_Ok, !refuse_false, https_or_local_guard.
  rewrite orb_false_iff, !is_empty_false, Nat.ltb_ge, andb_false_iff, bool_cases,
    looks_placeholder_genuine.
  split; [intros ([? ?] & ? & ? & ?); by split|intros [[? ?] ? [? ?]]; by split_and!].
Qed.

Lemma check_plans_iff seen plans :
  check_plans seen plans = Ok tt <->
  NoDup (plan_id <$> plans) /\ (forall p, p ∈ plans -> plan_id p ∉ seen) /\
  Forall (fun q => positive_amount (plan_amount q) /\ (plan_days q <= 3660)%Z) plans.
Proof.
  revert seen. induction plans as [|p plans IH]; intros seen; cbn [check_plans].
  { split; [intros _; split_and!; [constructor|by intros p Hp%elem_of_nil|constructor]|done]. }
  rewrite bind_Ok. unfold check_plan. setoid_rewrite then_Ok. setoid_rewrite then_Ok.
  setoid_rewrite then_Ok. setoid_rewrite refuse_false.
  rewrite fmap_cons, NoDup_cons, Forall_cons. split.
  - intros (seen' & (Hs & Hp & Hd & [= <-]) & (Hnd & Hseen & Hall)%IH).
    apply bool_decide_eq_false in Hs. apply negb_false_iff, is_positive_decimal_iff in Hp.
    apply Z.ltb_ge in Hd. split_and!; try done.
    + intros (q & Heq & Hq)%list_elem_of_fmap. apply (Hseen q Hq). rewrite <- Heq. left.
    + intros q [->|Hq]%elem_of_cons; [done|]. intros Hin. apply (Hseen q Hq). by right.
  - intros ((Hn & Hnd) & Hseen & (Hp & Hd) & Hall). exists (plan_id p :: seen).
    split_and!; try done.
    + apply bool_decide_eq_false. apply Hseen. left.
    + by apply negb_false_iff, is_positive_decimal_iff.
    + by apply Z.ltb_ge.
    + apply IH. split_and!; [done| |done]. intros q Hq [Heq|Hin]%elem_of_cons.
      * apply Hn. rewrite <- Heq. by apply list_elem_of_fmap_2.
      * apply (Hseen q); [by right|done].
Qed.

Lemma validate_nostr_iff prod on url :
  validate_nostr prod on url = Ok tt <->
  (on = true -> exists s u, url = Some s /\ url_parse s = Some u /\
     (prod = true -> url_scheme u = "https" /\ genuine s)).
Proof.
  unfold validate_nostr. rewrite when_Ok. destruct on; [|naive_solver].
  rewrite ok_or_then_Ok. setoid_rewrite ok_or_then_Ok. setoid_rewrite then_Ok.
  setoid_rewrite refuse_false. setoid_rewrite andb_false_iff. setoid_rewrite bool_cases.
  setoid_rewrite negb_false_iff. setoid_rewrite String.eqb_eq.
  setoid_rewrite looks_placeholder_genuine. naive_solver.
Qed.

Lemma validate_pow_iff prod p :
  validate_pow prod p = Ok tt <->
  (pow_enabled p = true -> strong prod 32 (pow_hmac_key p)) /\
  (pow_required p = true \/ pow_required_for_pubkeys p <> [] -> pow_enabled p = true).
Proof.
  unfold validate_pow. rewrite then_Ok, when_Ok, require_secret_strong, refuse_false.
  apply Morphisms_Prop.and_iff_morphism; [done|].
  destruct (pow_enabled p), (pow_required p); simpl; try naive_solver.
  rewrite negb_false_iff, bool_decide_eq_true. destruct (pow_required_for_pubkeys p); naive_solver.
Qed.

Lemma validate_admin_iff prod a :
  validate_admin prod a = Ok tt <->
  (dm_enabled a = true -> strong prod 32 (dm_jwt_secret a) /\
     strong prod 32 (dm_key_integrity_secret a) /\ is_Some (url_parse (dm_public_url a))).
Proof.
  unfold validate_admin. rewrite when_Ok, !then_Ok, !require_secret_strong, ok_or_then_Ok.
  unfold is_Some. naive_solver.
Qed.

Lemma validate_prices_iff f :
  validate_prices f = Ok tt <->
  (ff_prices f = true -> ff_prices_provider f ∈ ["neroswap"; "coingecko"; "kraken"] /\
     ff_prices_assets f ⊆ SUPPORTED_PRICE_ASSETS /\
     ff_prices_currency f ∈ SUPPORTED_PRICE_CURRENCIES).
Proof.
  unfold validate_prices. rewrite when_Ok, !then_Ok, !refuse_false, check_all_Ok.
  setoid_rewrite refuse_false. rewrite !negb_false_iff, !bool_decide_eq_true, Forall_forall.
  setoid_rewrite negb_false_iff. setoid_rewrite bool_decide_eq_true.
  by unfold subseteq, list_subseteq.
Qed.

Lemma validate_erasure_iff prod c :
  validate_erasure prod c = Ok tt <->
  (rt_erasure_enabled (cf_retention c) = true ->
     strong prod 32 (dm_key_integrity_secret (cf_admin c)) /\
     is_Some (id_public_api_url (cf_identity c)) /\
     (rt_grace_period_hours (cf_retention c) <= 87600)%Z).
Proof.
  unfold validate_erasure. rewrite when_Ok, !then_Ok, !refuse_false, require_secret_strong,
    Z.ltb_ge, is_none_false. done.
Qed.

Lemma no_electrum_false u :
  no_electrum u = false <-> is_Some (ux_electrum_primary u) \/ ux_electrum_fallbacks u <> [].
Proof. unfold no_electrum. by rewrite andb_false_iff, is_none_false, bool_decide_eq_false. Qed.

Lemma warning_nil (b : bool) (w : string) : (if b then [w] else []) = [] <-> b = false.
Proof. by destruct b. Qed.

Lemma validate_chains_iff prod f c :
  validate_chains prod f c = Ok tt <-> (prod = true -> chains_served f c).
Proof.
  unfold validate_chains. rewrite refuse_false, andb_false_iff, negb_false_iff, bool_decide_eq_true.
  unfold chain_warnings. rewrite !app_nil, !warning_nil, !andb_false_iff, !no_electrum_false,
    !is_empty_false, !bool_cases.
  destruct prod; [|split; [done|by right]]. split.
  - intros [(? & ? & ? & ? & ?)|?] _; [by split|done].
  - intros Hs. left. destruct (Hs eq_refl). by split_and!.
Qed.

Lemma validate_tips_iff f base :
  validate_tips f base = Ok tt <->
  (ff_tips f = true ->
     (cg_btc (ff_chains f) = true \/ cg_ltc (ff_chains f) = true \/ cg_xmr (ff_chains f) = true \/
      cg_wow (ff_chains f) = true \/ cg_grin (ff_chains f) = true) /\ is_Some base).
Proof.
  unfold validate_tips. rewrite when_Ok, then_Ok, !refuse_false, is_none_false, negb_false_iff,
    !orb_true_iff. tauto.
Qed.

Lemma validate_payment_iff prod p :
  validate_payment prod p = Ok tt <-> (pc_require_payment p = true -> payment_wired prod p).
Proof.
  unfold validate_payment. rewrite when_Ok.
  assert (Hurl : forall u, prod && negb (url_scheme u =? "https")
            && negb (is_loopback_url (pc_provider_url p)) = false <->
          (prod = true -> url_scheme u = "https" \/ is_loopback_url (pc_provider_url p) = true)).
  { intros u. rewrite <- String.eqb_eq.
    destruct prod, (url_scheme u =? "https"), (is_loopback_url _); naive_solver. }
  destruct (pc_require_payment p); [|naive_solver].
  destruct (url_parse (pc_provider_url p)) as [u|] eqn:Eu; cbn [ok_or].
  - change (Ok u ≫= ?k) with (k u). rewrite !then_Ok, !refuse_false, Hurl, !is_empty_false,
      require_secret_strong, !negb_false_iff, String.eqb_eq, is_positive_decimal_iff,
      orb_false_iff, !Z.eqb_neq, Z.ltb_ge. split.
    + intros Hv _. destruct (Hv eq_refl) as (? & ? & ? & ? & ? & ? & ? & ? & ?). split; eauto.
    + intros Hw _. destruct (Hw eq_refl) as [? (u' & Eu' & ?) ? ? ? ? ? ? [? ?]].
      replace u' with u in * by congruence. by split_and!.
  - split; intros Hv _; exfalso.
    + specialize (Hv eq_refl). rewrite !then_Ok in Hv. by destruct Hv as (_ & _ & [=]).
    + destruct (Hv eq_refl) as [_ (u & Eu' & _) _ _ _ _ _ _ _]. congruence.
Qed.

Lemma binds_loopback_iff bind :
  binds_loopback bind = true <->
  exists addr addrs, to_socket_addrs bind = Some (addr :: addrs) /\
    Forall (fun a => ip_is_loopback a = true) (addr :: addrs).
Proof.
  assert (Hall : forall l, forallb ip_is_loopback l = true <->
            Forall (fun a => ip_is_loopback a = true) l).
  { intros l. rewrite forallb_forall, Forall_forall. by setoid_rewrite <- list_elem_of_In. }
  unfold binds_loopback. destruct (to_socket_addrs bind) as [[|a l]|]; [naive_solver| |naive_solver].
  rewrite andb_true_iff, Hall. simpl length. naive_solver.
Qed.

Lemma policy_parse_known s :
  s ∈ ["inbox-outbox"; "author-allowlist"; "open"; "premium-post"] <-> is_Some (policy_parse s).
Proof.
  unfold policy_parse. rewrite !elem_of_cons, elem_of_nil. unfold is_Some. split.
  - intros [->|[->|[->|[->|[]]]]]; by eexists.
  - intros [p Hp]. repeat (case_hyp Hp; [apply String.eqb_eq in E as ->; auto 6|clear E]). done.
Qed.

Lemma validate_relay_iff prod r :
  validate_relay prod r = Ok tt <-> (rl_enabled r = true -> relay_wired prod r).
Proof.
  unfold validate_relay. rewrite when_Ok. destruct (rl_enabled r); [|naive_solver].
  rewrite !then_Ok, !refuse_false, !negb_false_iff, !bool_decide_eq_true, Z.ltb_ge,
    policy_parse_known, !elem_of_cons, elem_of_nil. split.
  - intros Hv _. destruct (Hv eq_refl) as (Hm & _ & Hu & Hp & Hpol & Hbits & Hb1 & Hb2).
    split; [tauto| |done|done|].
    + apply orb_true_iff in Hu as [[t Ht]%starts_with_iff|[t Ht]%starts_with_iff]; exists t; [by left|].
      right. split; [|done]. destruct prod; [|done].
      assert (starts_with "ws://" (rl_advertised_url r) = true) as E
        by (apply starts_with_iff; by exists t). by rewrite E in Hp.
    + intros Hno%String.eqb_neq. rewrite Hno in Hb1, Hb2. simpl in Hb1, Hb2.
      split; [by apply is_empty_false|]. intros Hpub. rewrite Hpub in Hb2. simpl in Hb2.
      by apply negb_false_iff, binds_loopback_iff in Hb2.
  - intros Hw _. destruct (Hw eq_refl) as [Hm (t & Ht) Hpol Hbits Hbind].
    assert (Hs : starts_with "wss://" (rl_advertised_url r) = true \/
      prod = false /\ starts_with "ws://" (rl_advertised_url r) = true).
    { destruct Ht as [Ht|[-> Ht]]; [left|right; split; [done|]]; apply starts_with_iff; eauto. }
    split_and!; [tauto| | | |done|done| |].
    + apply ws_url_not_blank. tauto.
    + apply orb_true_iff. tauto.
    + destruct Hs as [Hs|[-> _]]; [|done]. apply wss_not_ws in Hs. by rewrite Hs, andb_false_r.
    + destruct (String.eqb_spec (rl_write_policy r) "open") as [|Hno]; [done|].
      by apply is_empty_false, Hbind.
    + destruct (String.eqb_spec (rl_write_policy r) "open") as [|Hno]; [done|]. simpl.
      destruct (rl_admission_allow_public r); [done|]. simpl.
      apply negb_false_iff, binds_loopback_iff. by apply Hbind.
Qed.

Lemma validate_feed_iff f r :
  validate_feed f r = Ok tt <-> (fd_enabled f = true -> rl_enabled r = true).
Proof. unfold validate_feed. by rewrite refuse_false, andb_false_iff, bool_cases, negb_false_iff. Qed.

Lemma validate_premium_iff prod pm p r :
  validate_premium prod pm p r = Ok tt <-> (pm_enabled pm = true -> premium_wired prod pm p r).
Proof.
  unfold validate_premium. rewrite when_Ok. destruct (pm_enabled pm); [|naive_solver].
  rewrite !then_Ok, !refuse_false, https_or_local_guard, require_secret_strong, !negb_false_iff,
    !is_empty_false, !String.eqb_eq, orb_false_iff, !Z.eqb_neq, Z.ltb_ge, bool_decide_eq_false,
    check_plans_iff, check_all_Ok.
  assert (Hl : length (pm_plans pm) <> 0 <-> pm_plans pm <> []) by (by destruct (pm_plans pm)).
  rewrite Hl. split.
  - intros Hv _. destruct (Hv eq_refl) as (? & ? & ? & ? & ? & ? & ? & ? & ? & ? & ? & (? & _ & ?) & Hr).
    split; try tauto. eapply Forall_impl; [exact Hr|]. intros q. by apply validate_rail_iff.
  - intros Hw _. destruct (Hw eq_refl) as [(? & ? & ? & ? & ?) ? [? ?] ? [? ?] (? & ? & ?) Hr].
    split_and!; try done; try (intros q _; apply not_elem_of_nil).
    eapply Forall_impl; [exact Hr|]. intros q. by apply validate_rail_iff.
Qed.

Lemma validate_core_iff prod c :
  validate_core_secrets prod c = Ok tt <->
  strong prod 32 (ac_jwt_secret (cf_auth c)) /\
  strong prod 32 (se_seed_fingerprint_pepper (cf_secrets c)) /\
  strong prod 32 (se_refresh_token_pepper (cf_secrets c)) /\
  strong prod 16 (se_ip_salt (cf_secrets c)).
Proof. unfold validate_core_secrets. by rewrite !then_Ok, !require_secret_strong. Qed.

Lemma validate_rate_iff li :
  validate_rate_limit li = Ok tt <->
  li_strict_period_ms li <> 0%Z /\ li_normal_period_ms li <> 0%Z /\
  li_strict_burst li <> 0%Z /\ li_normal_burst li <> 0%Z.
Proof.
  unfold validate_rate_limit. rewrite then_Ok, !refuse_false, !orb_false_iff, !Z.eqb_neq. tauto.
Qed.

Lemma validate_restore_iff r :
  validate_restore r = Ok tt <-> (rc_policy r = Bounded -> rc_max_depth_days r <> 0%Z).
Proof.
  unfold validate_restore.
  rewrite refuse_false, andb_false_iff, bool_decide_eq_false, Z.eqb_neq.
  destruct (decide (rc_policy r = Bounded)); tauto.
Qed.

Lemma validate_iff c : validate c = Ok tt <-> config_ok c.
Proof.
  unfold validate. rewrite !then_Ok, validate_rate_iff, validate_core_iff, validate_restore_iff,
    validate_nostr_iff, validate_pow_iff, validate_admin_iff, validate_prices_iff,
    validate_erasure_iff, validate_chains_iff, validate_tips_iff, validate_payment_iff,
    validate_relay_iff, validate_feed_iff, validate_premium_iff.
  split; [intros (?&?&?&?&?&?&?&?&?&?&?&?&?&?); by split|intros []; do 13 (split; [assumption|]); assumption].
Qed.

Lemma decides_check_plan seen p : decides (check_plan seen p).
Proof. unfold check_plan. decide_checks. Qed.

Lemma decides_check_plans seen plans : decides (check_plans seen plans).
Proof.
  revert seen. induction plans as [|p plans IH]; intros seen; cbn [check_plans]; [apply decides_ok|].
  apply decides_bind; [apply decides_check_plan|done].
Qed.
Hint Resolve decides_check_plans : config.

Lemma validate_decides c : decides (validate c).
Proof.
  unfold validate.
  repeat (apply decides_bind; [|intros []]);
    unfold validate_rate_limit, validate_core_secrets, validate_restore, validate_nostr, validate_pow,
      validate_admin, validate_prices, validate_erasure, validate_chains, validate_tips,
      validate_payment, validate_relay, validate_feed, validate_premium, validate_rail, require_secret;
    decide_checks.
Qed.
End clauses.

(** * What the environment is turned into *)

(** The normal forms that the readers give to the editable strings. *)
Record normal `{Net} (c : Config) : Prop := {
  normal_title : ld_title (cf_landing c) <> Some "";
  normal_provider : to_lowercase (ff_prices_provider (cf_features c)) = ff_prices_provider (cf_features c);
  normal_fiat : to_lowercase (ff_prices_currency (cf_features c)) = ff_prices_currency (cf_features c);
  normal_mode : to_lowercase (rl_mode (ms_relay (cf_messaging c))) = rl_mode (ms_relay (cf_messaging c));
  normal_policy : to_lowercase (rl_write_policy (ms_relay (cf_messaging c)))
                  = rl_write_policy (ms_relay (cf_messaging c));
  normal_payment : to_uppercase (pc_currency (rg_payment (cf_registration c)))
                   = pc_currency (rg_payment (cf_registration c));
  normal_premium : to_uppercase (pm_currency (cf_premium c)) = pm_currency (cf_premium c);
}.

Definition within_bits (bits : Z) (x : Z) : Prop := (0 <= x <= 2 ^ bits - 1)%Z.

(** The editable integers are values of their Rust types. *)
Record typed `{Net} (c : Config) : Prop := {
  typed_landing : within_bits 64 (ld_stats_cache_hours (cf_landing c)) /\
    in_i64 (ld_stats_min_users (cf_landing c));
  typed_retention : within_bits 64 (rt_login_events_days (cf_retention c)) /\
    within_bits 64 (rt_audit_days (cf_retention c)) /\
    within_bits 32 (rt_export_per_day (cf_retention c)) /\
    within_bits 64 (rt_grace_period_hours (cf_retention c));
  typed_restore : within_bits 32 (rc_max_depth_days (cf_restore c)) /\
    within_bits 32 (rc_pow_free_days (cf_restore c)) /\
    within_bits 32 (rc_pow_days_per_bit (cf_restore c)) /\
    within_bits 32 (rc_pow_max_bits (cf_restore c));
  typed_payment : within_bits 32 (pc_confirmations (rg_payment (cf_registration c))) /\
    within_bits 32 (pc_expires_minutes (rg_payment (cf_registration c)));
  typed_pow : within_bits 64 (pow_cost (cf_pow c));
  typed_prices : within_bits 64 (ff_prices_interval_secs (cf_features c));
  typed_relay : within_bits 8 (rl_inbound_pow_bits (ms_relay (cf_messaging c))) /\
    within_bits 64 (rl_max_event_bytes (ms_relay (cf_messaging c))) /\
    within_bits 32 (rl_retention_days (ms_relay (cf_messaging c)));
}.

Lemma in_range_Some lo hi n m : in_range lo hi n = Some m <-> m = n /\ (lo <= n <= hi)%Z.
Proof.
  unfold in_range. destruct (Z.leb_spec lo n), (Z.leb_spec n hi); simpl; split; try done;
    try (intros [= <-]; split; [done|lia]); try (intros [-> ?]; (done || lia)).
Qed.

Lemma parse_int_range lo hi s n : parse_int lo hi s = Some n -> (lo <= n <= hi)%Z.
Proof.
  unfold parse_int. destruct s as [|c s]; [done|].
  destruct (Ascii.eqb c "+"); [|destruct (_ && _)]; intros (m & _ & Hr)%bind_Some;
    apply in_range_Some in Hr as [-> ?]; lia.
Qed.

Lemma env_parse_range lo hi env key dflt n :
  (lo <= dflt <= hi)%Z -> env_parse env (parse_int lo hi) key dflt = Ok n -> (lo <= n <= hi)%Z.
Proof.
  intros Hd. unfold env_parse. destruct (env_opt env key); [|by intros [= <-]].
  rewrite ok_or_Ok. apply parse_int_range.
Qed.

Lemma ascii_upper_idem c : ascii_upper (ascii_upper c) = ascii_upper c.
Proof. destruct c as [[][][][][][][][]]; reflexivity. Qed.

Lemma to_uppercase_idem s : to_uppercase (to_uppercase s) = to_uppercase s.
Proof.
  unfold to_uppercase. rewrite map_str_compose.
  induction s as [|c s IH]; simpl; [done|]. by rewrite ascii_upper_idem, IH.
Qed.

Lemma env_opt_not_empty env key : env_opt env key <> Some "".
Proof. unfold env_opt. intros [_ Hs]%non_empty_Some. done. Qed.

(** Take apart a computation that answered. *)
Ltac read_out H :=
  repeat match type of H with
  | (_ ≫= _) = Ok _ => let x := fresh "x" in let E := fresh "E" in
      apply bind_Ok in H as (x & E & H)
  end; injection H as <-.

(** The range of an integer that was read. *)
Ltac read_range :=
  match goal with
  | E : env_parse _ _ _ _ = Ok ?x |- _ => eapply env_parse_range in E; [exact E|done]
  end.

Section from_env.
Context `{Urls}.

Lemma read_env_normal env c : read_env env = Ok c -> normal c.
Proof.
  intros Hr. unfold read_env in Hr. read_out Hr.
  match goal with E : landing_from_env _ = _ |- _ => unfold landing_from_env in E; read_out E end.
  match goal with E : features_from_env _ = _ |- _ => unfold features_from_env in E; read_out E end.
  match goal with E : messaging_from_env _ = _ |- _ => unfold messaging_from_env in E; read_out E end.
  match goal with E : registration_from_env _ = _ |- _ => unfold registration_from_env in E; read_out E end.
  split; simpl; rewrite ?to_lowercase_idem, ?to_uppercase_idem; try done.
  apply env_opt_not_empty.
Qed.

Lemma read_env_typed env c : read_env env = Ok c -> typed c.
Proof.
  intros Hr. unfold read_env in Hr. read_out Hr.
  match goal with E : landing_from_env _ = _ |- _ => unfold landing_from_env in E; read_out E end.
  match goal with E : features_from_env _ = _ |- _ => unfold features_from_env in E; read_out E end.
  match goal with E : messaging_from_env _ = _ |- _ => unfold messaging_from_env in E; read_out E end.
  match goal with E : registration_from_env _ = _ |- _ => unfold registration_from_env in E; read_out E end.
  match goal with E : retention_from_env _ = _ |- _ => unfold retention_from_env in E; read_out E end.
  match goal with E : restore_from_env _ = _ |- _ => unfold restore_from_env in E; read_out E end.
  match goal with E : pow_from_env _ = _ |- _ => unfold pow_from_env in E; read_out E end.
  split; simpl; split_and?; read_range.
Qed.
End from_env.

Lemma from_env_Ok `{Urls} env c : from_env env = Ok c <-> read_env env = Ok c /\ validate c = Ok tt.
Proof.
  unfold from_env. destruct (read_env env) as [c'| |]; simpl; [|naive_solver..].
  rewrite then_Ok. split; [intros [? [= ->]]|intros [[= ->] ?]]; done.
Qed.

Lemma decides_networks `{Urls} key toks : decides (networks_of key toks).
Proof. induction toks; cbn [networks_of]; decide_checks. Qed.
#[export] Hint Resolve decides_networks : config.

(** Loading decides: it never panics, and refuses with a [ConfigError]. *)
Lemma from_env_decides `{Urls} env : decides (from_env env).
Proof.
  unfold from_env, read_env. pose proof validate_decides.
  decide_checks;
  unfold auth_from_env, rate_limit_from_env, features_from_env, pow_from_env, admin_from_env,
    landing_from_env, retention_from_env, restore_from_env, registration_from_env,
    messaging_from_env, env_parse, deployment_mode_from, restore_policy_from, parse_networks;
  decide_checks.
Qed.

(** * Theorems *)

(** C31: validation decides the specification.  [validate] accepts a configuration
    exactly when every clause of [config_ok] holds (strong and, in production,
    genuine secrets; a real PUBLIC_API_URL; no gate that is asked for and disarmed;
    every enabled chain served; a payment, relay and premium wiring that works), and
    refuses any other with a [ConfigError]: it never panics. *)
Theorem validate_exact `{Urls} (c : Config) :
  (validate c = Ok tt <-> config_ok c) /\ (~ config_ok c -> refused (validate c)).
Proof.
  split; [apply validate_iff|]. intros Hn.
  destruct (validate_decides c) as [[[] Hv]|Hr]; [|done]. by apply validate_iff in Hv.
Qed.

(** The server starts on a sound configuration or not at all.  Loading never
    panics; what it refuses, it refuses with a [ConfigError]; and what it loads
    satisfies the specification, holds values of their types in their normal forms,
    so that the restore policy prices as designed and the relay is built without an
    error. *)
Theorem loaded_config_sound `{Ext} `{Bech32} `{Urls} (env : Env) :
  decides (from_env env) /\
  forall c, from_env env = Ok c ->
    config_ok c /\ normal c /\ typed c /\ restore_config_ok (cf_restore c) /\
    exists relay, relay_from_config (ms_relay (cf_messaging c)) = Ok relay.
Proof.
  split; [apply from_env_decides|].
  intros c [Hr Hv]%from_env_Ok. apply validate_iff in Hv.
    split_and!; [done|by eapply read_env_normal|by eapply read_env_typed| |].
    + apply read_env_typed in Hr as [_ _ (?&?&?&?) _ _ _ _].
      unfold within_bits, restore_config_ok, u32_field in *. split_and!; lia.
    + destruct (rl_enabled (ms_relay (cf_messaging c))) eqn:En.
      * destruct (ok_relay c Hv En) as [Hm _ [p Hp] _ _].
        unfold relay_from_config. rewrite En, Hp. simpl.
        assert ((rl_mode (ms_relay (cf_messaging c)) =? "bundled")
          || (rl_mode (ms_relay (cf_messaging c)) =? "external") = true) as ->
          by (destruct Hm as [-> | ->]; done). by eexists.
      * unfold relay_from_config. rewrite En. by eexists.
Qed.

(** * A concrete deployment *)

(** An address is its text; only 127.0.0.1 is loopback. *)
#[export] Instance demo_cfg_net : Net | 1000 := {
  IpAddr := string;
  IpNetwork := string;
  parse_ip s := Some s;
  ip_to_string s := s;
  net_contains n a := n =? a;
}.

Fixpoint before_colon (s : string) : string :=
  match s with
  | EmptyString => EmptyString
  | String c s' => if Ascii.eqb c ":" then EmptyString else String c (before_colon s')
  end.

#[export] Instance demo_urls : Urls | 1000 := {
  Url := string;
  url_parse s := if contains "://" s then Some s else None;
  url_scheme s := before_colon s;
  url_host s := Some (HostDomain s);
  network_from_str s := if contains "/" s then Some s else None;
  network_from_ip ip := ip;
  ip_is_loopback ip := ip =? "127.0.0.1";
  to_socket_addrs s := Some [before_colon s];
}.

Definition demo_secret : string := "3f9c1d7e5b2a4068c1e7f3d9b5a70246".

Definition demo_env : Env :=
  list_to_map [("ENVIRONMENT", "production"); ("DATABASE_URL", "postgres://db/smirk");
    ("JWT_SECRET", demo_secret); ("SEED_FINGERPRINT_PEPPER", demo_secret);
    ("REFRESH_TOKEN_PEPPER", demo_secret); ("IP_SALT", demo_secret);
    ("PUBLIC_API_URL", "https://api.smirk.cash/v1");
    ("BTC_ELECTRUM_URL", "ssl://btc.smirk.cash:50002"); ("FEATURE_LTC", "no");
    ("FEATURE_XMR", "off"); ("FEATURE_WOW", "0"); ("FEATURE_GRIN", "false");
    ("TRUSTED_PROXIES", "10.0.0.0/8, 192.168.1.7");
    ("RELAY_ENABLED", "true"); ("RELAY_URL", "wss://relay.smirk.cash");
    ("RELAY_WRITE_POLICY", "Premium-Post"); ("PREMIUM_ENABLED", "yes");
    ("PREMIUM_PLANS", "quarter:90:5, year : 365 : 15,bad:0:1,x:y:z");
    ("PREMIUM_CURRENCY", "xmr"); ("PAYMENT_PROVIDER_URL", "https://pay.smirk.cash");
    ("PAYMENT_STORE_ID", "s1"); ("PAYMENT_API_KEY", "k3y-0f-the-store")].

(** What the demonstration reads, and what it refuses. *)
Example demo_env_loads :
  (pm_plans ∘ cf_premium <$> from_env demo_env)
    = Ok [mkPremiumPlan "quarter" 90 "5"; mkPremiumPlan "year" 365 "15"] /\
  (cf_trusted_proxies <$> from_env demo_env) = Ok ["10.0.0.0/8"; "192.168.1.7"] /\
  (rl_write_policy ∘ ms_relay ∘ cf_messaging <$> from_env demo_env) = Ok "premium-post" /\
  from_env (<["SERVER_PORT" := "65536"]> demo_env)
    = Err (ConfigError "SERVER_PORT is set but not a valid value") /\
  from_env (<["SERVER_PORT" := "65536"]> (delete "DATABASE_URL" demo_env))
    = Err (ConfigError "SERVER_PORT is set but not a valid value") /\
  from_env (<["JWT_SECRET" := "Example_" ++ demo_secret]> demo_env)
    = Err (ConfigError "JWT_SECRET looks like a placeholder; set a real value") /\
  from_env (<["RELAY_ADMISSION_BIND" := "0.0.0.0:8090"]> demo_env)
    = Err (ConfigError "RELAY_ADMISSION_BIND must be loopback (it is a registration oracle); set RELAY_ADMISSION_ALLOW_PUBLIC=true to override + firewall it") /\
  from_env (<["FEATURE_GRIN" := "on"]> demo_env)
    = Err (ConfigError "missing required config for enabled chains: GRIN_OWNER_API_SECRET").
Proof. split_and!; vm_compute; reflexivity. Qed.
