(* ===== verification/OverlaySafety.v ===== *)
(** What the operator's settings can and cannot do to the configuration. *)

From Stdlib Require Import ZArith Lia Ascii String.
From S2P Require Import Prelude RustStr Json Errors Db Effects Demo Auth Config Overlay RelayPolicy Pow ConfigSafety.

Local Open Scope string_scope.

(** * The JSON of an overlay reads back *)

Definition opt_within (bits : Z) (o : option Z) : Prop := forall n, o = Some n -> within_bits bits n.
Definition opt_i64 (o : option Z) : Prop := forall n, o = Some n -> in_i64 n.

Definition typed_section {A} (P : A -> Prop) (o : option A) : Prop := forall a, o = Some a -> P a.

(** The integers of an overlay are values of their Rust types. *)
Record overlay_typed (ov : SettingsOverlay) : Prop := {
  typed_lo : typed_section (fun l => opt_within 64 (lo_stats_cache_hours l) /\
    opt_i64 (lo_stats_min_users l)) (ov_landing ov);
  typed_ro : typed_section (fun r => opt_within 64 (ro_login_events_days r) /\
    opt_within 64 (ro_audit_days r) /\ opt_within 32 (ro_export_per_day r) /\
    opt_within 64 (ro_grace_period_hours r)) (ov_retention ov);
  typed_so : typed_section (fun r => opt_within 32 (so_max_depth_days r) /\
    opt_within 32 (so_pow_free_days r) /\ opt_within 32 (so_pow_days_per_bit r) /\
    opt_within 32 (so_pow_max_bits r)) (ov_restore ov);
  typed_go : typed_section (fun r => opt_within 32 (go_payment_confirmations r) /\
    opt_within 32 (go_payment_expires_minutes r)) (ov_registration ov);
  typed_po : typed_section (fun p => opt_within 64 (po_cost p)) (ov_pow ov);
  typed_fo : typed_section (fun f => opt_within 64 (fo_prices_interval_secs f)) (ov_features ov);
  typed_yo : typed_section (fun r => opt_within 8 (yo_inbound_pow_bits r) /\
    opt_within 64 (yo_max_event_bytes r) /\ opt_within 32 (yo_retention_days r)) (ov_relay ov);
}.

Lemma back_bool o : option_reads_back c_bool o.
Proof. intros a ->. done. Qed.
Lemma back_string o : option_reads_back c_string o.
Proof. intros a ->. done. Qed.
Lemma back_within bits o : opt_within bits o -> option_reads_back (c_int 0 (2 ^ bits - 1)) o.
Proof. intros Ho a ->. split; [|done]. apply int_reads_back. by apply Ho. Qed.
Lemma back_u8 o : opt_within 8 o -> option_reads_back c_u8 o.
Proof. apply back_within. Qed.
Lemma back_u32 o : opt_within 32 o -> option_reads_back c_u32 o.
Proof. apply back_within. Qed.
Lemma back_u64 o : opt_within 64 o -> option_reads_back c_u64 o.
Proof. apply back_within. Qed.
Lemma back_i64 o : opt_i64 o -> option_reads_back c_i64 o.
Proof. intros Ho a ->. split; [|done]. apply int_reads_back. by apply Ho. Qed.

(** A struct reads back when each of its fields does. *)
Lemma c_struct_back {A} names entries (read : _ -> option A) a :
  read (object_of [] (entries a)) = Some a -> reads_back (c_struct names entries read) a.
Proof. done. Qed.

Lemma c_struct_option {A} names entries (read : _ -> option A) o :
  typed_section (fun a => read (object_of [] (entries a)) = Some a) o ->
  option_reads_back (c_struct names entries read) o.
Proof. intros Ho a ->. split; [|done]. by apply Ho. Qed.

Create HintDb codec discriminated.
#[export] Hint Resolve back_bool back_string back_u8 back_u32 back_u64 back_i64 : codec.

Lemma obj_get_elem k v kvs : NoDup kvs.*1 -> (k, v) ∈ kvs -> obj_get k kvs = Some v.
Proof.
  induction kvs as [|[k' v'] kvs IH]; rewrite ?fmap_cons; intros Hnd Hin; [by apply elem_of_nil in Hin|].
  apply NoDup_cons in Hnd as [Hk Hnd]. simpl in Hk. cbn [obj_get].
  apply elem_of_cons in Hin as [[= -> ->]|Hin]; [by rewrite String.eqb_refl|].
  destruct (String.eqb_spec k k') as [->|]; [|auto].
  exfalso. apply Hk. apply list_elem_of_fmap. by exists (k', v).
Qed.

(** A field of a struct that was just written. *)
Lemma field_entry {A} (c : Codec A) name kvs o :
  NoDup kvs.*1 -> (name, enc (c_option c) o) ∈ kvs -> option_reads_back c o ->
  field c name (object_of [] kvs) = Some o.
Proof.
  intros Hnd Hin Ho. unfold field. rewrite obj_get_object.
  assert (Hp : rev kvs ≡ₚ kvs) by (symmetry; apply Permutation_rev).
  rewrite (obj_get_elem name (enc (c_option c) o)); [by apply dec_option|by rewrite Hp..].
Qed.

Ltac find_entry := first [apply list_elem_of_here|apply list_elem_of_further; find_entry].

(** Read each field of a struct that was just written. *)
Ltac read_fields :=
  repeat match goal with
  | |- context [field ?c ?n (object_of [] ?es)] =>
      let H := fresh in
      eassert (H : field c n (object_of [] es) = Some _);
        [eapply field_entry;
          [apply (bool_decide_unpack _); vm_compute; exact I|find_entry|auto with codec]
        |rewrite H; clear H]
  end; reflexivity.

Lemma landing_back l :
  opt_within 64 (lo_stats_cache_hours l) -> opt_i64 (lo_stats_min_users l) ->
  landing_read (object_of [] (landing_entries l)) = Some l.
Proof. intros H1 H2. destruct l. unfold landing_read. read_fields. Qed.

Lemma retention_back r :
  opt_within 64 (ro_login_events_days r) -> opt_within 64 (ro_audit_days r) ->
  opt_within 32 (ro_export_per_day r) -> opt_within 64 (ro_grace_period_hours r) ->
  retention_read (object_of [] (retention_entries r)) = Some r.
Proof. intros. destruct r. unfold retention_read. read_fields. Qed.

Lemma restore_back r :
  opt_within 32 (so_max_depth_days r) -> opt_within 32 (so_pow_free_days r) ->
  opt_within 32 (so_pow_days_per_bit r) -> opt_within 32 (so_pow_max_bits r) ->
  restore_read (object_of [] (restore_entries r)) = Some r.
Proof. intros. destruct r. unfold restore_read. read_fields. Qed.

Lemma console_back c : console_read (object_of [] (console_entries c)) = Some c.
Proof. destruct c. unfold console_read. read_fields. Qed.

Lemma registration_back r :
  opt_within 32 (go_payment_confirmations r) -> opt_within 32 (go_payment_expires_minutes r) ->
  registration_read (object_of [] (registration_entries r)) = Some r.
Proof. intros. destruct r. unfold registration_read. read_fields. Qed.

Lemma pow_back p : opt_within 64 (po_cost p) -> pow_read (object_of [] (pow_entries p)) = Some p.
Proof. intros. destruct p. unfold pow_read. read_fields. Qed.

Lemma features_back f :
  opt_within 64 (fo_prices_interval_secs f) ->
  features_read (object_of [] (features_entries f)) = Some f.
Proof. intros. destruct f. unfold features_read. read_fields. Qed.

Lemma relay_back r :
  opt_within 8 (yo_inbound_pow_bits r) -> opt_within 64 (yo_max_event_bytes r) ->
  opt_within 32 (yo_retention_days r) ->
  relay_read (object_of [] (relay_entries r)) = Some r.
Proof. intros. destruct r. unfold relay_read. read_fields. Qed.

Lemma premium_back p : premium_read (object_of [] (premium_entries p)) = Some p.
Proof. destruct p. unfold premium_read. read_fields. Qed.

(** Each section of a well-typed overlay reads back. *)
Lemma sections_back ov :
  overlay_typed ov ->
  option_reads_back c_landing (ov_landing ov) /\ option_reads_back c_retention (ov_retention ov) /\
  option_reads_back c_restore (ov_restore ov) /\ option_reads_back c_console (ov_console ov) /\
  option_reads_back c_registration (ov_registration ov) /\ option_reads_back c_pow (ov_pow ov) /\
  option_reads_back c_features (ov_features ov) /\ option_reads_back c_relay (ov_relay ov) /\
  option_reads_back c_premium (ov_premium ov).
Proof.
  intros [Hl Hr Hs Hg Hp Hf Hy]. split_and!; apply c_struct_option; intros a Ha.
  - destruct (Hl a Ha). by apply landing_back.
  - destruct (Hr a Ha) as (?&?&?&?). by apply retention_back.
  - destruct (Hs a Ha) as (?&?&?&?). by apply restore_back.
  - apply console_back.
  - destruct (Hg a Ha). by apply registration_back.
  - by apply pow_back, Hp.
  - by apply features_back, Hf.
  - destruct (Hy a Ha) as (?&?&?). by apply relay_back.
  - apply premium_back.
Qed.

(** What an overlay is written to is read back as that overlay. *)
Lemma overlay_back ov : overlay_typed ov -> dec c_overlay (enc c_overlay ov) = Some ov.
Proof.
  intros (?&?&?&?&?&?&?&?&?)%sections_back.
  destruct ov. unfold c_overlay. apply c_struct_back. unfold overlay_read. read_fields.
Qed.

(** * Applying the effective settings changes nothing *)

Lemma restore_policy_back p : restore_policy_of (restore_policy_as_str p) = Ok p.
Proof. by destruct p. Qed.
Lemma restart_mode_back m : restart_apply_mode_of (restart_apply_mode_as_str m) = Ok m.
Proof. by destruct m. Qed.
Lemma gate_mode_back m : gate_mode_of (gate_mode_as_str m) = Ok m.
Proof. by destruct m. Qed.

Section config.
Context `{Urls}.

Lemma editable_typed c : typed c -> overlay_typed (editable_overlay c).
Proof.
  intros [[? ?] (?&?&?&?) (?&?&?&?) [? ?] ? ? (?&?&?)].
  split; intros a [= <-]; simpl; split_and?; by intros n [= <-].
Qed.

Lemma edit_features c :
  normal c -> section (ov_features (editable_overlay c)) apply_features (cf_features c) = cf_features c.
Proof.
  intros [_ Hp Hf _ _ _ _]. unfold section, apply_features. simpl. rewrite Hp, Hf.
  by destruct (cf_features c) as [[]].
Qed.

Lemma edit_landing c :
  normal c -> section (ov_landing (editable_overlay c)) apply_landing (cf_landing c) = cf_landing c.
Proof.
  intros [Ht _ _ _ _ _ _]. unfold section, apply_landing. simpl.
  destruct (cf_landing c) as [? title ???????]. simpl in *.
  by destruct title as [[|]|].
Qed.

Lemma edit_relay c :
  normal c ->
  section (ov_relay (editable_overlay c)) apply_relay (ms_relay (cf_messaging c))
  = ms_relay (cf_messaging c).
Proof.
  intros [_ _ _ Hm Hw _ _]. unfold section, apply_relay. simpl. rewrite Hm, Hw.
  by destruct (ms_relay (cf_messaging c)).
Qed.

Lemma edit_premium c :
  normal c -> section (ov_premium (editable_overlay c)) apply_premium (cf_premium c) = cf_premium c.
Proof.
  intros [_ _ _ _ _ _ Hp]. unfold section, apply_premium. simpl. rewrite Hp.
  by destruct (cf_premium c).
Qed.

Lemma edit_registration c :
  normal c ->
  section_try (ov_registration (editable_overlay c)) apply_registration (cf_registration c)
  = Ok (cf_registration c).
Proof.
  intros [_ _ _ _ _ Hc _]. unfold section_try, apply_registration. simpl.
  rewrite gate_mode_back. simpl. rewrite Hc. by destruct (cf_registration c) as [? [] ?].
Qed.

Lemma edit_restore c :
  section_try (ov_restore (editable_overlay c)) apply_restore (cf_restore c) = Ok (cf_restore c).
Proof.
  unfold section_try, apply_restore. simpl. rewrite restore_policy_back. by destruct (cf_restore c).
Qed.

Lemma edit_console c :
  section_try (ov_console (editable_overlay c)) apply_console (cf_console c) = Ok (cf_console c).
Proof.
  unfold section_try, apply_console. simpl. rewrite restart_mode_back. by destruct (cf_console c).
Qed.

(** The effective values, applied to the configuration they are of. *)
Lemma merge_editable c : normal c -> merge_overlay c (editable_overlay c) = Ok c.
Proof.
  intros Hn. unfold merge_overlay.
  rewrite edit_restore, edit_console, edit_registration, edit_features, edit_landing, edit_relay,
    edit_premium by done.
  change (Ok ?a ≫= ?k) with (k a). cbv beta. f_equal. destruct c as
    [? ? ? ? ? ? ? ? ? ? ? ? ? ? ? [] ? ? [] ? ? [] ? ? ?]. reflexivity.
Qed.

Lemma apply_overlay_Ok c ov c' :
  apply_overlay c ov = Ok c' <-> merge_overlay c ov = Ok c' /\ validate c' = Ok tt.
Proof.
  unfold apply_overlay. split; [|by intros [-> Hv]; simpl; rewrite Hv].
  intros (c1 & Hm & Ha)%bind_Ok. by apply then_Ok in Ha as [Hv [= ->]].
Qed.

(** * What an edit leaves *)

(** A configuration the server may run on. *)
Definition effective (c : Config) : Prop := config_ok c /\ normal c /\ typed c.

Lemma merge_normal c ov c' : normal c -> merge_overlay c ov = Ok c' -> normal c'.
Proof.
  intros [Ht Hp Hf Hm Hw Hc Hpr] Hmerge. unfold merge_overlay in Hmerge. read_out Hmerge.
  split; cbn [cf_landing cf_features cf_messaging cf_registration cf_premium ms_relay].
  - destruct (ov_landing ov) as [l|]; simpl; [|done]. destruct (lo_title l) as [[|]|]; done.
  - destruct (ov_features ov) as [f|]; simpl; [|done].
    destruct (fo_prices_provider f); simpl; [apply to_lowercase_idem|done].
  - destruct (ov_features ov) as [f|]; simpl; [|done].
    destruct (fo_prices_currency f); simpl; [apply to_lowercase_idem|done].
  - destruct (ov_relay ov) as [f|]; simpl; [|done].
    destruct (yo_mode f); simpl; [apply to_lowercase_idem|done].
  - destruct (ov_relay ov) as [f|]; simpl; [|done].
    destruct (yo_write_policy f); simpl; [apply to_lowercase_idem|done].
  - destruct (ov_registration ov) as [f|]; simpl in *; [|by simplify_eq].
    unfold apply_registration in *. read_out E1. simpl.
    destruct (go_payment_currency f); simpl; [apply to_uppercase_idem|done].
  - destruct (ov_premium ov) as [f|]; simpl; [|done].
    destruct (mo_currency f); simpl; [apply to_uppercase_idem|done].
Qed.

Lemma put_within bits o x : opt_within bits o -> within_bits bits x -> within_bits bits (put o x).
Proof. destruct o; simpl; auto. Qed.
Lemma put_i64 o x : opt_i64 o -> in_i64 x -> in_i64 (put o x).
Proof. destruct o; simpl; auto. Qed.

Lemma merge_typed c ov c' :
  overlay_typed ov -> typed c -> merge_overlay c ov = Ok c' -> typed c'.
Proof.
  intros [Hl Hr Hs Hg Hp Hf Hy] [[??] (?&?&?&?) (?&?&?&?) [??] ? ? (?&?&?)] Hm.
  unfold merge_overlay in Hm. read_out Hm.
  split; cbn [cf_landing cf_retention cf_restore cf_registration cf_pow cf_features cf_messaging ms_relay].
  - destruct (ov_landing ov) as [l|]; [|done]. destruct (Hl l eq_refl). simpl.
    split; [by apply put_within|by apply put_i64].
  - destruct (ov_retention ov) as [r|]; [|done]. destruct (Hr r eq_refl) as (?&?&?&?). simpl.
    split_and!; by apply put_within.
  - destruct (ov_restore ov) as [r|]; simpl in *; [|by simplify_eq].
    destruct (Hs r eq_refl) as (?&?&?&?). unfold apply_restore in *. read_out E. simpl.
    split_and!; by apply put_within.
  - destruct (ov_registration ov) as [r|]; simpl in *; [|by simplify_eq].
    destruct (Hg r eq_refl). unfold apply_registration in *. read_out E1. simpl.
    split; by apply put_within.
  - destruct (ov_pow ov) as [p|]; [|done]. by apply put_within; [apply (Hp p)|].
  - destruct (ov_features ov) as [f|]; [|done]. by apply put_within; [apply (Hf f)|].
  - destruct (ov_relay ov) as [r|]; [|done]. destruct (Hy r eq_refl) as (?&?&?). simpl.
    split_and!; by apply put_within.
Qed.

Lemma apply_effective c ov c' :
  overlay_typed ov -> normal c -> typed c -> apply_overlay c ov = Ok c' -> effective c'.
Proof.
  intros Hov Hn Ht [Hm Hv]%apply_overlay_Ok. split_and!.
  - by apply validate_iff.
  - by eapply merge_normal.
  - by eapply merge_typed.
Qed.

Lemma loaded_effective env c : from_env env = Ok c -> effective c.
Proof.
  intros [Hr Hv]%from_env_Ok. split_and!; [by apply validate_iff|by eapply read_env_normal|].
  by eapply read_env_typed.
Qed.

(** The configuration with every editable field blanked. *)
Definition veil (c : Config) : Config :=
  let p := rg_payment (cf_registration c) in
  let r := ms_relay (cf_messaging c) in
  mkConfig (cf_server_host c) (cf_server_port c) (cf_deployment_mode c) (cf_environment c)
    (cf_database_url c) (cf_legacy_database_url c) (cf_tip_share_base c) (cf_auth c)
    (cf_identity c) (cf_secrets c) (cf_trusted_proxies c) (cf_rate_limit c)
    (cf_cors_allowed_origins c)
    (mkFeatureFlags (mkChainFlags false false false false false) false "" 0
       (ff_prices_assets (cf_features c)) "" false (ff_targeted_tips (cf_features c)) false false)
    (cf_chains c)
    (mkPowConfig false (pow_hmac_key (cf_pow c)) false 0 (pow_required_for_pubkeys (cf_pow c)))
    (cf_admin c) (mkLandingConfig false None false false false false false 0 0)
    (mkRetentionConfig 0 0 false false 0 0) (mkRestoreConfig CreateOnly 0 0 0 0)
    (mkRegistrationConfig false
       (mkPaymentConfig false (pc_provider p) (pc_provider_url p) (pc_store_id p) (pc_api_key p)
          "" "" 0 0) GateAll)
    (mkMessagingConfig
       (mkRelayConfig false "" "" "" 0 (rl_admission_bind r) (rl_admission_allow_public r) 0 0
          (rl_write_allowlist r))
       (ms_nip05_interop_hints (cf_messaging c)) (ms_nip05_extra_relay_hints (cf_messaging c)))
    (mkPremiumConfig false "" (pm_plans (cf_premium c)) (pm_primary_assets (cf_premium c))
       (pm_rails (cf_premium c)))
    (cf_feed c) (mkConsoleConfig Manual).

Lemma merge_veil c ov c' : merge_overlay c ov = Ok c' -> veil c' = veil c.
Proof.
  intros Hm. unfold merge_overlay in Hm. read_out Hm. unfold veil.
  cbn [cf_landing cf_retention cf_restore cf_registration cf_pow cf_features cf_messaging ms_relay
    cf_premium cf_server_host cf_server_port cf_deployment_mode cf_environment cf_database_url
    cf_legacy_database_url cf_tip_share_base cf_auth cf_identity cf_secrets cf_trusted_proxies
    cf_rate_limit cf_cors_allowed_origins cf_chains cf_admin cf_feed ms_nip05_interop_hints
    ms_nip05_extra_relay_hints].
  assert (rg_payment x1 = rg_payment (cf_registration c) \/ exists r m, x1 = mkRegistrationConfig
    (put (go_require_invite r) (rg_require_invite (cf_registration c)))
    (mkPaymentConfig (put (go_require_payment r) (pc_require_payment (rg_payment (cf_registration c))))
       (pc_provider (rg_payment (cf_registration c))) (pc_provider_url (rg_payment (cf_registration c)))
       (pc_store_id (rg_payment (cf_registration c))) (pc_api_key (rg_payment (cf_registration c)))
       (put (go_payment_amount r) (pc_amount (rg_payment (cf_registration c))))
       (over (go_payment_currency r) to_uppercase (pc_currency (rg_payment (cf_registration c))))
       (put (go_payment_confirmations r) (pc_confirmations (rg_payment (cf_registration c))))
       (put (go_payment_expires_minutes r) (pc_expires_minutes (rg_payment (cf_registration c))))) m)
    as [->|(r & m & ->)].
  { destruct (ov_registration ov) as [r|]; simpl in E1; [right|left; congruence].
    unfold apply_registration in E1. read_out E1. eauto. }
  all: destruct (ov_features ov), (ov_pow ov), (ov_relay ov), (ov_premium ov); reflexivity.
Qed.

Lemma apply_veil c ov c' : apply_overlay c ov = Ok c' -> veil c' = veil c.
Proof. intros [Hm _]%apply_overlay_Ok. by eapply merge_veil. Qed.

(** A full overlay overwrites all that [veil] blanks. *)
Lemma merge_veiled c x : merge_overlay (veil c) (editable_overlay x) = merge_overlay c (editable_overlay x).
Proof. reflexivity. Qed.

Lemma veil_editable c c' :
  normal c -> normal c' -> veil c = veil c' -> editable_overlay c = editable_overlay c' -> c = c'.
Proof.
  intros Hn Hn' Hv He. pose proof (merge_editable c Hn) as H1.
  pose proof (merge_editable c' Hn') as H2.
  rewrite <- merge_veiled, Hv, He, merge_veiled, H2 in H1. by injection H1.
Qed.

(** Every secret of the configuration, rewritten by [f]. *)
Definition reseal (f : string -> string) (c : Config) : Config :=
  let p := rg_payment (cf_registration c) in
  let lws l := mkLwsConfig (lw_lws_url l) (lw_lws_admin_url l) (f (lw_lws_admin_key l)) (lw_daemon_url l) in
  let g := ch_grin (cf_chains c) in
  let w := ch_grin_lws (cf_chains c) in
  let a := cf_admin c in
  mkConfig (cf_server_host c) (cf_server_port c) (cf_deployment_mode c) (cf_environment c)
    (f (cf_database_url c)) (f <$> cf_legacy_database_url c) (cf_tip_share_base c)
    (mkAuthConfig (f (ac_jwt_secret (cf_auth c))) (ac_jwt_expiry_hours (cf_auth c)))
    (cf_identity c)
    (mkSecretConfig (f (se_seed_fingerprint_pepper (cf_secrets c)))
       (f (se_refresh_token_pepper (cf_secrets c))) (f (se_ip_salt (cf_secrets c))))
    (cf_trusted_proxies c) (cf_rate_limit c) (cf_cors_allowed_origins c) (cf_features c)
    (mkChainConfig (ch_btc (cf_chains c)) (ch_ltc (cf_chains c)) (lws (ch_xmr (cf_chains c)))
       (lws (ch_wow (cf_chains c)))
       (mkGrinConfig (gn_owner_api_url g) (f (gn_owner_api_secret g)) (f (gn_wallet_password g))
          (gn_foreign_api_url g) (gn_node_api_url g) (gn_node_api_user g) (f (gn_node_api_pass g))
          (gn_node_foreign_api_url g) (f (gn_node_foreign_api_secret g)))
       (mkGrinLwsConfig (gl_url w) (gl_admin_url w) (f (gl_admin_key w))))
    (mkPowConfig (pow_enabled (cf_pow c)) (f (pow_hmac_key (cf_pow c))) (pow_required (cf_pow c))
       (pow_cost (cf_pow c)) (pow_required_for_pubkeys (cf_pow c)))
    (mkAdminConfig (dm_enabled a) (dm_bind a) (dm_public_url a) (f (dm_jwt_secret a))
       (f (dm_key_integrity_secret a)) (dm_pubkeys a) (dm_max_keys a) (dm_pending_key_ttl_days a)
       (dm_allow_public_bind a) (dm_onion a))
    (cf_landing c) (cf_retention c) (cf_restore c)
    (mkRegistrationConfig (rg_require_invite (cf_registration c))
       (mkPaymentConfig (pc_require_payment p) (pc_provider p) (pc_provider_url p) (pc_store_id p)
          (f (pc_api_key p)) (pc_amount p) (pc_currency p) (pc_confirmations p)
          (pc_expires_minutes p)) (rg_gate_mode (cf_registration c)))
    (cf_messaging c)
    (mkPremiumConfig (pm_enabled (cf_premium c)) (pm_currency (cf_premium c))
       (pm_plans (cf_premium c)) (pm_primary_assets (cf_premium c))
       ((fun r => mkPaymentRailConfig (ra_kind r) (ra_asset r) (ra_provider_url r) (ra_store_id r)
           (f (ra_api_key r))) <$> pm_rails (cf_premium c)))
    (cf_feed c) (cf_console c).
End config.

(** * Theorems *)

(** C33: what the console shows is what it writes.  On an effective configuration
    the editable view, sent through JSON and applied back, is accepted and changes
    nothing; and any well-typed overlay that is accepted leads to an effective
    configuration again, so that the settings can always be shown, saved and loaded. *)
Theorem settings_round_trip `{Urls} (c : Config) (Heff : effective c) :
  (exists ov, dec c_overlay (enc c_overlay (editable_overlay c)) = Some ov /\
     apply_overlay c ov = Ok c) /\
  (forall ov c', overlay_typed ov -> apply_overlay c ov = Ok c' -> effective c').
Proof.
  destruct Heff as (Hok & Hn & Ht). split.
  - exists (editable_overlay c). split; [by apply overlay_back, editable_typed|].
    unfold apply_overlay. rewrite merge_editable by done. simpl.
    by rewrite (proj2 (validate_iff c) Hok).
  - intros ov c' Hov. by apply apply_effective.
Qed.

(** The console reaches no secret.  An accepted overlay changes nothing but the
    editable fields (no secret, address to bind, chain wiring, plan or allowlist):
    what [veil] keeps is kept, and [veil] blanks no more than the editable view shows;
    and what the console reads is the same whatever the secrets are. *)
Theorem console_reaches_no_secret `{Urls} (c : Config) ov f :
  (forall c', apply_overlay c ov = Ok c' -> veil c' = veil c) /\
  (forall c', normal c -> normal c' -> veil c = veil c' ->
     editable_overlay c = editable_overlay c' -> c = c') /\
  editable_overlay (reseal f c) = editable_overlay c.
Proof.
  split_and!; [by apply apply_veil|by apply veil_editable|done].
Qed.

Lemma settings_round_trip_witness :
  exists c, from_env demo_env = Ok c /\
    exists ov, dec c_overlay (enc c_overlay (editable_overlay c)) = Some ov /\
      apply_overlay c ov = Ok c.
Proof.
  assert (Hok : is_ok (from_env demo_env) = true) by (by vm_compute).
  destruct (from_env demo_env) as [c|e|] eqn:El; [|discriminate Hok|discriminate Hok].
  exists c. split; [reflexivity|].
  exact (proj1 (settings_round_trip c (loaded_effective demo_env c El))).
Defined.

(** A typo is refused with the validation error of the field, an edit that breaks
    the configuration with the error of the start-up, and a sparse edit lands. *)
Example overlay_edits :
  let edit s := c ← from_env demo_env; ov ← ok_or (dec c_overlay s) RateLimited; apply_overlay c ov in
  edit (VObject [("registration", VObject [("gate_mode", VString "nonsense")])])
    = Err (ValidationError (String.concat "" ["invalid registration.gate_mode "; debug_str "nonsense"; " (want all|any)"])) /\
  edit (VObject [("relay", VObject [("enabled", VBool false)])])
    = Err (ConfigError "PREMIUM_ENABLED needs RELAY_ENABLED=true") /\
  (ld_title ∘ cf_landing <$> edit (VObject [("landing", VObject [("title", VString "hello")])]))
    = Ok (Some "hello") /\
  dec c_overlay (VObject [("restore", VObject [("pow_max_bits", VNumber (2 ^ 32))])]) = None.
Proof. split_and!; vm_compute; reflexivity. Qed.
