(* ===== verification/TipMethods.v ===== *)
(** The two methods of the tip store that are more than one statement,
    [attach_funding_to_tip] and [confirm_tip_sweep] of
    [src/infra/db/social_tips.rs]: what each answers and does on every branch,
    and what follows for the sweep of a targeted Grin tip. *)

From Stdlib Require Import ZArith Lia Ascii String.
From S2P Require Import Prelude RustStr Errors Db Effects TipStatus SocialTips TipLifecycle TipSafety Chains TipFunding Sweep Demo.

Local Open Scope string_scope.

(** The store with the row of [k] replaced. *)
Definition put_tip (w : World) (k : Uuid) (r : SocialTipRow) : World :=
  w <|w_db := (w_db w) <|social_tips := <[k := r]> (social_tips (w_db w))|>|>.

(** The database of a world is all a read leaves as it was. *)
Lemma set_db_same (w : World) : w <|w_db := w_db w|> = w.
Proof. by destruct w. Qed.

Lemma read_alone {E : Ext} {A} (s : Stmt A) (f : Db -> A) w :
  w_sched w = [] -> (forall t d, s t d = inr (d, f d)) ->
  query s w = (w, Ok (f (w_db w))).
Proof.
  intros Hq Hs. unfold query. rewrite run_stmt_quiet, Hs by done. by rewrite set_db_same.
Qed.

Lemma update_alone {E : Ext} k wh set_ w r :
  w_sched w = [] -> social_tips (w_db w) !! k = Some r -> wh (w_now w) r = true ->
  tip_violation (w_db w) (touch_updated_at (w_now w) (set_ (w_now w) r)) = None ->
  query (update_tip k wh set_) w =
  (put_tip w k (touch_updated_at (w_now w) (set_ (w_now w) r)),
   Ok (Some (touch_updated_at (w_now w) (set_ (w_now w) r)))).
Proof.
  intros Hq Hr Hw Hv. unfold query. rewrite run_stmt_quiet by done.
  by rewrite (update_tip_hit _ _ _ _ _ _ Hr Hw Hv).
Qed.

Lemma update_nothing {E : Ext} k wh set_ w :
  w_sched w = [] ->
  (forall r, social_tips (w_db w) !! k = Some r -> wh (w_now w) r = false) ->
  query (update_tip k wh set_) w = (w, Ok None).
Proof.
  intros Hq Hw. unfold query. rewrite run_stmt_quiet by done.
  rewrite update_tip_miss by done. by rewrite set_db_same.
Qed.

Lemma bind_run_step {A B} (m : M A) (k : A -> M B) w w1 a :
  m w = (w1, Ok a) -> (m ≫= k) w = k a w1.
Proof. unfold mbind, M_bind. by intros ->. Qed.

(** * Attaching the funding transaction *)

(** What the answer is, from the row alone. *)
Definition attach_result {E : Ext} (tip_id u : Uuid) (tx : string) (now : Time)
    (o : option SocialTipRow) : SocialTipRow + AppError :=
  match o with
  | Some r =>
      if negb (bool_decide (sender_user_id r = u)) then
        inr (NotFound ("Tip " ++ uuid_to_string tip_id ++ " not found or not yours"))
      else match funding_txid r with
      | Some existing =>
          if existing =? tx then inl (r <|updated_at := now|>)
          else inr (ValidationError ("Tip " ++ uuid_to_string tip_id ++
                      " already has a different funding_txid attached"))
      | None =>
          if status r =? "draft" then
            inl (r <|funding_txid := Some tx|> <|status := "pending_confirmation"|>
                   <|updated_at := now|>)
          else inr (ValidationError ("Tip " ++ uuid_to_string tip_id ++
                      " is in status " ++ status r ++
                      " — funding can only be attached to drafts"))
      end
  | None => inr (NotFound ("Tip " ++ uuid_to_string tip_id ++ " not found or not yours"))
  end.

Lemma attach_where_iff u tx t r :
  attach_funding_where u tx t r = true <->
  sender_user_id r = u /\
  (funding_txid r = Some tx \/ funding_txid r = None /\ status r = "draft").
Proof.
  unfold attach_funding_where, attachable, status_in, sql_eq.
  rewrite andb_true_iff, orb_true_iff, andb_true_iff, !bool_decide_eq_true.
  cbn [existsb]. rewrite orb_false_r, String.eqb_eq.
  destruct (funding_txid r); simpl; naive_solver.
Qed.

Lemma attach_set_eq tx now r :
  touch_updated_at now (attach_funding_set tx now r) =
  match funding_txid r with
  | Some _ => r <|updated_at := now|>
  | None => r <|funding_txid := Some tx|>
              <|status := if status r =? "draft" then "pending_confirmation" else status r|>
              <|updated_at := now|>
  end.
Proof.
  destruct r as []. unfold attach_funding_set, attachable, status_in, touch_updated_at. simpl.
  destruct funding_txid; simpl; rewrite ?andb_false_r, ?andb_true_r, ?orb_false_r; done.
Qed.

(** The row a success stores is within the constraints and carries the
    transaction. *)
Lemma attach_result_ok {E : Ext} d k u tx now r0 r :
  tip_violation d r0 = None -> varchar 128 tx = true ->
  attach_result k u tx now (Some r0) = inl r ->
  tip_violation d r = None /\ sender_user_id r = u /\ funding_txid r = Some tx.
Proof.
  intros Hv Htx. unfold attach_result. case_bool_decide as Hs; [|done]. cbn [negb].
  constraints_of Hv. destruct (funding_txid r0) as [tx0|] eqn:Ef.
  - destruct (String.eqb_spec tx0 tx) as [->|]; [|done]. intros [= <-].
    split_and!; [|done..]. check_constraints. rewrite Ef. each_constraint.
  - destruct (_ =? _); [|done]. intros [= <-].
    split_and!; [|done..]. check_constraints. each_constraint; done.
Qed.

Section alone.
Context {E : Ext} (w : World) (Hq : w_sched w = []) (Hc : tips_checked (w_db w)).

Lemma attach_hit k u tx r :
  social_tips (w_db w) !! k = Some r -> varchar 128 tx = true ->
  attach_funding_where u tx (w_now w) r = true ->
  let r' := touch_updated_at (w_now w) (attach_funding_set tx (w_now w) r) in
  attach_funding_to_tip k u tx w = (put_tip w k r', Ok r').
Proof.
  intros Hr Htx Hw r'. unfold attach_funding_to_tip, sql_attach_funding.
  erewrite bind_run_step; [|apply (update_alone _ _ _ _ r); try done]; [done|].
  specialize (Hc _ _ Hr) as Hv. rewrite attach_set_eq.
  constraints_of Hv. check_constraints. destruct (funding_txid r) eqn:Ef; simpl;
    rewrite ?Ef in *; each_constraint.
  all: by destruct (status r =? "draft").
Qed.

Lemma attach_miss k u tx :
  (forall r, social_tips (w_db w) !! k = Some r ->
     attach_funding_where u tx (w_now w) r = false) ->
  attach_funding_to_tip k u tx w =
  match attach_result k u tx (w_now w) (social_tips (w_db w) !! k) with
  | inl r => (w, Ok r)
  | inr e => (w, Err e)
  end.
Proof.
  intros Hw. unfold attach_funding_to_tip, sql_attach_funding.
  erewrite bind_run_step; [|by apply update_nothing]. cbv beta iota.
  erewrite bind_run_step; [|by apply (read_alone (sql_get_own_tip k u))].
  cbv beta. unfold attach_result.
  destruct (social_tips (w_db w) !! k) as [r|] eqn:Hr; [|done].
  specialize (Hw r eq_refl). apply not_true_iff_false in Hw. rewrite attach_where_iff in Hw.
  case_bool_decide as Hs; [|done]. cbn [negb ok_or].
  rewrite (bind_run_step (lift (Ok r)) _ w w r eq_refl).
  destruct (funding_txid r) as [tx'|].
  - destruct (String.eqb_spec tx' tx) as [->|]; [|done]. exfalso. naive_solver.
  - destruct (String.eqb_spec (status r) "draft"); [|done]. exfalso. naive_solver.
Qed.

Lemma attach_eq k u tx :
  varchar 128 tx = true ->
  attach_funding_to_tip k u tx w =
  match attach_result k u tx (w_now w) (social_tips (w_db w) !! k) with
  | inl r => (put_tip w k r, Ok r)
  | inr e => (w, Err e)
  end.
Proof.
  intros Htx. destruct (social_tips (w_db w) !! k) as [r|] eqn:Hr.
  2: { rewrite attach_miss; [by rewrite Hr|]. by rewrite Hr. }
  destruct (attach_funding_where u tx (w_now w) r) eqn:Hw.
  - rewrite (attach_hit k u tx r) by done. rewrite attach_set_eq.
    apply attach_where_iff in Hw as [Hs Hw]. unfold attach_result.
    rewrite bool_decide_eq_true_2 by done. simpl.
    destruct Hw as [-> | [-> ->]]; [|done]. by rewrite String.eqb_refl.
  - rewrite attach_miss; [|rewrite Hr; by intros ? [= <-]]. rewrite Hr.
    destruct (attach_result _ _ _ _ _) as [r'|] eqn:Er; [|done]. exfalso.
    apply not_true_iff_false in Hw. apply Hw, attach_where_iff. revert Er.
    unfold attach_result. case_bool_decide; [|done]. simpl.
    destruct (funding_txid r) as [tx'|]; simpl.
    + destruct (String.eqb_spec tx' tx) as [->|]; naive_solver.
    + destruct (String.eqb_spec (status r) "draft"); naive_solver.
Qed.
End alone.

(** Attaching a funding transaction has exactly the documented
    outcomes: on a draft of the caller without one it is recorded and the tip
    waits for confirmations; with the same one already attached the row comes
    back with only [updated_at] touched; a different one, a tip past its draft
    or a tip of somebody else is refused and nothing changes.  A retry after a
    success succeeds again, at any later time. *)
Theorem attach_funding_spec {E : Ext} k u tx w (Hq : w_sched w = [])
    (Hc : tips_checked (w_db w)) (Htx : varchar 128 tx = true) :
  attach_funding_to_tip k u tx w =
    match attach_result k u tx (w_now w) (social_tips (w_db w) !! k) with
    | inl r => (put_tip w k r, Ok r)
    | inr e => (w, Err e)
    end /\
  forall w1 r1 t, attach_funding_to_tip k u tx w = (w1, Ok r1) ->
    (attach_funding_to_tip k u tx (w1 <|w_now := t|>)).2 = Ok (r1 <|updated_at := t|>).
Proof.
  split; [by apply attach_eq|]. intros w1 r1 t. rewrite attach_eq by done.
  destruct (attach_result _ _ _ _ _) as [r|e] eqn:Er; [|done]. intros [= <- <-].
  destruct (social_tips (w_db w) !! k) as [r0|] eqn:Hr0; [|done].
  apply (attach_result_ok (w_db w)) in Er as (Hv & Hs & Hf); [|by eapply Hc|done].
  rewrite attach_eq; [|done|by apply tips_checked_insert|done].
  cbn. rewrite lookup_insert_eq. cbn [attach_result].
  by rewrite (bool_decide_eq_true_2 _ Hs), Hf, String.eqb_refl.
Qed.

(** * Recording the sweep *)

Lemma record_where_iff tx t r :
  record_sweep_where tx t r = true <->
  status r = "claiming" /\ sweep_confirmed_at r = None /\ is_public r = true /\
  (sweep_txid r = None \/ sweep_txid r = Some tx).
Proof.
  unfold record_sweep_where, status_in, sql_eq.
  rewrite !andb_true_iff, orb_true_iff, bool_decide_eq_true.
  cbn [existsb]. rewrite orb_false_r, String.eqb_eq.
  destruct (sweep_confirmed_at r), (sweep_txid r); simpl; naive_solver.
Qed.

(** Whether the sweep [tx] gets recorded on [r]. *)
Definition records_sweep (tx : string) (r : SocialTipRow) : bool :=
  (status r =? "claiming") && is_public r
  && match sweep_txid r with Some t => t =? tx | None => true end.

Lemma record_sweep_where_wf amt k tx t r :
  tip_wf amt k r -> record_sweep_where tx t r = records_sweep tx r.
Proof.
  intros Hwf. apply eq_true_iff_eq. rewrite record_where_iff. unfold records_sweep.
  rewrite !andb_true_iff, String.eqb_eq.
  assert (status r = "claiming" -> sweep_confirmed_at r = None)
    by (intros; by eapply (unsettled_sweep _ _ _ Claiming)).
  destruct (sweep_txid r) as [t'|]; rewrite ?String.eqb_eq; naive_solver.
Qed.

(** What recording [tx] for the user [u] makes of a row. *)
Definition recorded_by (u : Uuid) (tx : string) (r r' : SocialTipRow) : Prop :=
  same_terms r r' /\ status r' = "claiming" /\ sweep_txid r' = Some tx /\
  claimed_by_user_id r' = coalesce (claimed_by_user_id r) u /\
  sweep_confirmed_at r' = None.

(** The first sweep recorded wins.  On a claiming public tip without
    one, or with the same one, the sweep of the caller is recorded, the claimer
    is the one already known, and the tip is not settled; a different
    transaction never replaces it, the caller being answered with the row that
    stands; on any tip that is neither being claimed nor claimed the answer is
    empty and nothing changes. *)
Theorem sweep_first_recorder_wins {E : Ext} amt k u tx w (Hq : w_sched w = [])
    (Hinv : tips_inv amt (w_db w)) (Hu : is_user (w_db w) u = true)
    (Htx : varchar 128 tx = true) :
  exists w' o, confirm_tip_sweep k u tx w = (w', Ok o) /\
  match social_tips (w_db w) !! k with
  | None => w' = w /\ o = None
  | Some r =>
      if records_sweep tx r then
        exists r', o = Some r' /\ w' = put_tip w k r' /\ recorded_by u tx r r'
      else w' = w /\ o = if status_in ["claiming"; "claimed"] r then Some r else None
  end.
Proof.
  destruct Hinv as [Hwf Hc].
  unfold confirm_tip_sweep, sql_record_sweep.
  destruct (social_tips (w_db w) !! k) as [r|] eqn:Hr.
  2: { erewrite bind_run_step; [|apply update_nothing; [done|by rewrite Hr]]. cbv beta iota.
       erewrite (read_alone (sql_get_claimed_or_claiming k)) by done.
       cbv beta. rewrite Hr. eauto. }
  pose proof (record_sweep_where_wf _ _ tx (w_now w) _ (Hwf _ _ Hr)) as Hw.
  destruct (records_sweep tx r) eqn:Erec.
  - apply record_where_iff in Hw as Hrec. destruct Hrec as (Hst & Hsc & Hp & Htxr).
    specialize (Hc _ _ Hr) as Hv.
    erewrite bind_run_step; [|apply (update_alone _ _ _ _ r); try done].
    + do 2 eexists. split; [reflexivity|]. eexists. split_and!; [done|done|].
      unfold recorded_by. split_and!; try done. simpl.
      by destruct Htxr as [-> | ->].
    + constraints_of Hv. check_constraints. each_constraint.
      * destruct Htxr as [-> | ->]; done.
      * by destruct (claimed_by_user_id r).
  - erewrite bind_run_step; [|apply update_nothing; [done|rewrite Hr; by intros ? [= <-]]].
    cbv beta iota. erewrite (read_alone (sql_get_claimed_or_claiming k)) by done.
    cbv beta. rewrite Hr. eauto.
Qed.

(** No report of a sweep of [r] is recorded, and no probe settles it. *)
Definition sweep_unaccounted {E : Ext} (r : SocialTipRow) (w : World) : Prop :=
  (forall u tx, confirm_tip_sweep (id r) u tx w = (w, Ok (Some r))) /\
  (forall chains, (probe_confirmed_spends chains r w).2 <> Panic ->
     exists r', social_tips (w_db (process_awaiting_tip chains r w).1) !! id r = Some r' /\
       only_stamped r r').

(** The sweep of a targeted Grin tip is never accounted for: its
    recipient's report of it is answered with the row unchanged, and, there
    being no recorded kernel to look up, no answer of the node makes the
    reconciler settle the tip; it stays [claiming]. *)
Theorem targeted_grin_never_settles {E : Ext} amt w r (Hq : w_sched w = [])
    (Hinv : tips_inv amt (w_db w)) (Hr : social_tips (w_db w) !! id r = Some r)
    (Hasset : asset r = "grin") (Hst : status r = "claiming")
    (Htgt : is_public r = false) (Hsw : sweep_txid r = None) :
  sweep_unaccounted r w.
Proof.
  split.
  - intros u tx. unfold confirm_tip_sweep, sql_record_sweep.
    erewrite bind_run_step; [|apply update_nothing; [done|]].
    + cbv beta iota. erewrite (read_alone (sql_get_claimed_or_claiming (id r))) by done.
      cbv beta. rewrite Hr. unfold status_in. by rewrite Hst.
    + rewrite Hr. intros ? [= <-]. apply not_true_iff_false. rewrite record_where_iff.
      rewrite Htgt. naive_solver.
  - intros chains Hnp. destruct (probe_confirmed_spends chains r w) as [w1 res] eqn:Ep.
    assert (Hempty : forall spends h, res = Ok (spends, h) -> spends = []).
    { intros spends h ->. revert Ep. unfold probe_confirmed_spends, probe_grin_spends.
      rewrite Hasset, Hsw. simpl. rewrite bind_run_Ok. intros (w2 & g & _ & Ep).
      apply bind_run_Ok in Ep as (w3 & c & _ & Ep).
      apply bind_run_Ok in Ep as (w4 & hh & _ & Ep).
      apply bind_run_Ok in Ep as (w5 & os & _ & Ep).
      by destruct (existsb _ _); injection Ep as _ <-. }
    assert (Hverdict : awaiting_verdict r res = None).
    { destruct res as [[spends h]|e|]; [|done..]. by rewrite (Hempty _ _ eq_refl). }
    destruct (process_awaiting_row chains amt w r w1 res) as (r' & Hr' & Hv); try done.
    { by rewrite Hverdict. }
    rewrite Hverdict in Hv. eauto.
Qed.

(** * Concrete runs *)

Definition demo_created_w : World := quiet_world demo_created 50.

Lemma demo_created_checked : tips_checked demo_created.
Proof. apply (demo_inv _ demo_run_created). Qed.

Lemma attach_funding_spec_witness :
  exists w1 r1, attach_funding_to_tip 10 1 "aa" demo_created_w = (w1, Ok r1) /\
    status r1 = "pending_confirmation" /\
    (attach_funding_to_tip 10 1 "aa" (w1 <|w_now := 60%Z|>)).2 = Ok (r1 <|updated_at := 60%Z|>).
Proof.
  destruct (attach_funding_spec 10 1 "aa" demo_created_w eq_refl demo_created_checked eq_refl)
    as [Ha Hretry].
  do 2 eexists. split; [rewrite Ha; reflexivity|]. split; [by vm_compute|].
  apply Hretry. rewrite Ha. reflexivity.
Defined.

Definition demo_claiming_w : World := quiet_world demo_claiming 50.

Lemma demo_run_claiming : steps (tip_step demo_amount) demo_users_db demo_claiming.
Proof.
  eapply steps_trans; [apply demo_run_claimable|]. apply rtc_once, demo_step_claiming.
Qed.

Lemma sweep_first_recorder_wins_witness :
  exists w' r', confirm_tip_sweep 10 2 "ee" demo_claiming_w = (w', Ok (Some r')) /\
    recorded_by 2 "ee" (demo_row demo_claiming 10) r'.
Proof.
  destruct (sweep_first_recorder_wins demo_amount 10 2 "ee" demo_claiming_w eq_refl
    (demo_inv _ demo_run_claiming) eq_refl eq_refl) as (w' & o & Hrun & Hm).
  assert (Hr : social_tips (w_db demo_claiming_w) !! 10%N = Some (demo_row demo_claiming 10))
    by (by vm_compute).
  rewrite Hr in Hm.
  replace (records_sweep "ee" (demo_row demo_claiming 10)) with true in Hm by (by vm_compute).
  destruct Hm as (r' & -> & -> & Hrec). eauto.
Defined.

(** Bob (2) claims the tip 11 that Alice (1) addressed to him. *)
Definition targeted_funded : Db := exec (sql_attach_funding 11 1 "aa") 3 demo_created.
Definition targeted_confirmed : Db :=
  exec (sql_update_tip_confirmations 11 10) 4 targeted_funded.
Definition targeted_verified : Db :=
  exec (sql_mark_tip_funding_verified 11 500) 5 targeted_confirmed.
Definition targeted_claiming : Db := exec (sql_mark_tip_claiming 11 2) 6 targeted_verified.

Lemma targeted_run : steps (tip_step demo_amount) demo_users_db targeted_claiming.
Proof.
  eapply steps_trans; [apply demo_run_created|].
  apply (rtc_l _ _ targeted_funded); [demo_update st_attach|].
  apply (rtc_l _ _ targeted_confirmed); [demo_update st_confirmations|].
  apply (rtc_l _ _ targeted_verified); [demo_update st_verified|].
  apply rtc_once. demo_update st_claim.
Qed.

Definition targeted_row : SocialTipRow := Eval vm_compute in demo_row targeted_claiming 11.
Definition targeted_w : World := quiet_world targeted_claiming (100 * SECOND).

Lemma targeted_grin_never_settles_witness :
  confirm_tip_sweep 11 2 "ee" targeted_w = (targeted_w, Ok (Some targeted_row)) /\
  exists r', social_tips (w_db (process_awaiting_tip (grin_at 20) targeted_row targeted_w).1)
    !! 11%N = Some r' /\ only_stamped targeted_row r'.
Proof.
  destruct (targeted_grin_never_settles demo_amount targeted_w targeted_row eq_refl
    (demo_inv _ targeted_run)) as [Hrec Hset]; [by vm_compute..|].
  split; [apply (Hrec 2%N "ee")|apply (Hset (grin_at 20)); by vm_compute].
Defined.
