(* ===== verification/Transactions.v ===== *)
(** Multi-statement transactions ([pool.begin() .. tx.commit()]).

    A transaction is modelled as one atomic step at one [NOW()] (Postgres'
    transaction timestamp): the rows it spends are locked by its own [UPDATE]s
    until the commit, and an early return rolls everything back.  [Utc::now()]
    is the server's own clock, which [NOW()] is not. *)

From Stdlib Require Import ZArith Lia Ascii String.
From S2P Require Import Prelude RustStr Errors Db Effects TipStatus SocialTips.

(** [Utc::now()], then [NOW()], then the tables. *)
Definition Tx (A : Type) : Type := Time -> Time -> Db -> AppError + (Db * A).

#[export] Instance Tx_ret : MRet Tx := fun A a _ _ d => inr (d, a).
#[export] Instance Tx_bind : MBind Tx := fun A B f t clock now d =>
  match t clock now d with
  | inr (d', a) => f a clock now d'
  | inl e => inl e
  end.

(** [return Err(e)], with the rollback that dropping the transaction does. *)
Definition tx_fail {A} (e : AppError) : Tx A := fun _ _ _ => inl e.

(** A statement of the transaction, its error converted by [on_err]. *)
Definition tx_stmt {A} (on_err : PgError -> AppError) (s : Stmt A) : Tx A :=
  fun _ now d =>
    match s now d with
    | inr (d', a) => inr (d', a)
    | inl e => inl (on_err e)
    end.

(** [let Some(x) = t else { tx.rollback(); return Ok(b) }; k x]. *)
Definition tx_some_or {A B} (t : Tx (option A)) (b : B) (k : A -> Tx B) : Tx B :=
  fun clock now d =>
    match t clock now d with
    | inr (d', Some a) => k a clock now d'
    | inr (_, None) => inr (d, b)
    | inl e => inl e
    end.

Definition tx_clock : Tx Time := fun clock _ d => inr (d, clock).

(** The loops of the source over a list. *)
Fixpoint tx_for_each {A} (f : A -> Tx unit) (xs : list A) : Tx unit :=
  match xs with
  | [] => mret tt
  | x :: xs' => _ ← f x; tx_for_each f xs'
  end.

Section run.
Context `{Ext}.

(** The transaction as a statement: an error leaves the tables alone. *)
Definition tx_as_stmt {A} (clock_skew : Z) (t : Tx A) : Stmt (A + AppError) :=
  fun now d =>
    match t (now + clock_skew)%Z now d with
    | inr (d', a) => inr (d', inl a)
    | inl e => inr (d, inr e)
    end.

Definition run_tx {A} (t : Tx A) : M A := fun w =>
  (r ← query (tx_as_stmt (w_skew w) t);
   match r with inl a => mret a | inr e => fail e end) w.

(** A transaction run alone. *)
Lemma run_tx_quiet {A} (t : Tx A) w :
  w_sched w = [] ->
  run_tx t w =
  match t (w_now w + w_skew w)%Z (w_now w) (w_db w) with
  | inr (d, a) => (w <|w_db := d|>, Ok a)
  | inl e => (w, Err e)
  end.
Proof.
  intros Hq. unfold run_tx, query, mbind, M_bind. rewrite run_stmt_quiet by done.
  unfold tx_as_stmt. destruct (t _ _ _) as [e|[d a]]; [|done]. simpl. by destruct w.
Qed.

(** A transaction under a schedule: what it commits, it does at one instant, to
    the tables the interference left; a failure reported by the database may
    hide a commit, never half of one. *)
Lemma run_tx_inv {A} (t : Tx A) w w' o :
  run_tx t w = (w', o) ->
  exists sl rest, next_slot w = (sl, rest) /\
  let now := (w_now w + Z.of_N (sl_dt sl))%Z in
  let d := sl_env sl now (w_db w) in
  w_sched w' = w_sched rest /\ w_now w' = now /\ w_rand w' = w_rand w /\
  ((exists d' a, t (now + w_skew w)%Z now d = inr (d', a) /\ w_db w' = d' /\
      (o = Ok a \/ exists e, o = Err e)) \/
   (w_db w' = d /\ exists e, o = Err e)).
Proof.
  unfold run_tx, query, mbind, M_bind, run_stmt, tx_as_stmt.
  destruct (next_slot w) as [sl rest] eqn:En.
  assert (Hr : w_now rest = w_now w /\ w_db rest = w_db w /\ w_rand rest = w_rand w).
  { revert En. unfold next_slot. destruct (w_sched w); intros [= <- <-]; done. }
  destruct Hr as (Hr1 & Hr2 & Hr3). intros Hrun. exists sl, rest. split; [done|].
  rewrite Hr1, Hr2 in Hrun. revert Hrun.
  destruct (sl_fault sl); simpl;
    destruct (t _ _ _) as [e'|[d' a]] eqn:Et; simpl; intros [= <- <-]; simpl;
    (split_and!; [done|done|done|]); eauto 10.
Qed.

(** A transaction whose effect is a sequence of steps of the system. *)
Lemma triple_run_tx {A} G R I (t : Tx A) (Q : A -> Prop) :
  stable R I ->
  (forall c now d d' a, I d -> t c now d = inr (d', a) -> steps R d d' /\ Q a) ->
  triple G R I (run_tx t) Q.
Proof.
  intros Hst Ht w. apply (triple_bind _ _ _ _ _
    (fun r => match r with inl a => Q a | inr _ => True end)).
  - apply triple_stmt; [done|]. intros now d d' r HI. unfold tx_as_stmt.
    destruct (t _ now d) as [e|[d1 a]] eqn:E; intros [= <- <-].
    + split; [apply steps_refl|done].
    + by eapply Ht.
  - intros [a|e] HQ; [by apply triple_ret|by apply triple_lift].
Qed.

(** A transaction that committed and answered. *)
Lemma run_tx_Ok {A} R (t : Tx A) w w' a :
  sched_ok R (w_sched w) -> run_tx t w = (w', Ok a) ->
  exists now d, steps R (w_db w) d /\ t (now + w_skew w)%Z now d = inr (w_db w', a).
Proof.
  intros Hok Hrun. pose proof (next_slot_env R w Hok) as Henv.
  apply run_tx_inv in Hrun as (sl & rest & Hn & _ & _ & _ & Hres). rewrite Hn in Henv.
  destruct Hres as [(d' & b & Htx & -> & [[= <-]|[e ?]])|[_ [e ?]]]; [|done|done].
  eexists _, _. split; [apply Henv|exact Htx].
Qed.

Lemma run_tx_sched {A} R (t : Tx A) w w' o :
  sched_ok R (w_sched w) -> run_tx t w = (w', o) -> sched_ok R (w_sched w').
Proof.
  intros Hok (sl & rest & Hn & Hs & _)%run_tx_inv. rewrite Hs. revert Hn Hok.
  unfold next_slot. destruct (w_sched w) as [|sl' l] eqn:Es; intros [= <- <-] Hok; [by rewrite Es|].
  by apply Forall_cons in Hok as [_ ?].
Qed.

(** The same, of one run: the transaction knows what time it is at least. *)
Lemma run_tx_steps {A} R (I : Db -> Prop) (t : Tx A) w w' o :
  stable R I ->
  (forall c now d d' a, (w_now w <= now)%Z -> I d -> t c now d = inr (d', a) -> steps R d d') ->
  sched_ok R (w_sched w) -> I (w_db w) -> run_tx t w = (w', o) ->
  steps R (w_db w) (w_db w') /\ sched_ok R (w_sched w') /\ (w_now w <= w_now w')%Z /\
  o <> Panic.
Proof.
  intros Hst Ht Hok HI Hrun0. pose proof (next_slot_env R w Hok) as Henv.
  pose proof Hrun0 as Hrun. apply run_tx_inv in Hrun as (sl & rest & Hn & Hs & Hnow & _ & Hres). rewrite Hn in Henv.
  pose proof (run_tx_sched R t w w' o Hok Hrun0) as Hrest.
  split; [|split; [done|split; [lia|]]].
  2: { by destruct Hres as [(? & ? & _ & _ & [->|[? ->]])|(_ & ? & ->)]. }
  destruct Hres as [(d' & a & Htx & -> & _)|[-> _]]; [|done].
  eapply steps_trans; [apply Henv|]. eapply Ht; [| |exact Htx]; [lia|]. exact (steps_stable R I _ _ Hst (Henv _) HI).
Qed.
End run.

Lemma bind_tx_inr {A B} (t : Tx A) (f : A -> Tx B) c now d d2 b :
  (t ≫= f) c now d = inr (d2, b) <->
  exists d1 a, t c now d = inr (d1, a) /\ f a c now d1 = inr (d2, b).
Proof.
  unfold mbind, Tx_bind. destruct (t c now d) as [e|[d1 a]]; naive_solver.
Qed.

Lemma tx_stmt_inr {A} on_err (s : Stmt A) c now d d' a :
  tx_stmt on_err s c now d = inr (d', a) <-> s now d = inr (d', a).
Proof. unfold tx_stmt. destruct (s now d) as [e|[d1 a1]]; naive_solver. Qed.
