(* ===== verification/AuditChain.v ===== *)
(** [src/infra/db/admin_audit.rs]: the tamper-evident trail of privileged
    actions.  Appending, verifying, and what verification does and does not
    detect. *)

From Stdlib Require Import ZArith Lia Ascii String Strings.Byte.
From S2P Require Import Prelude RustStr Errors Db Effects TipStatus SocialTips Transactions Pepper Demo.

Local Open Scope string_scope.

Definition GENESIS : string := "smirk-admin-audit-genesis".

Record NewAdminAudit := mkNewAdminAudit {
  na_action : string;
  na_actor_kind : string;
  na_actor_pubkey_prefix : option string;
  na_target : option string;
  na_details : option string;      (* a JSON value, by its text, which JSONB gives back *)
  na_ip_address : option string;   (* [i.to_string()] *)
}.

(** [serde_json::json!([..]).to_string()] on the eight covered values; the
    [serde_json] crate's. *)
Class AuditJson := {
  audit_json : i64 -> string -> string -> option string -> option string ->
    option string -> option string -> i64 -> string;
}.

(** A JSON text: [None] and the JSON [null] read the same. *)
Definition json_text (v : option string) : string := default "null" v.

(** The text of an array determines its values, and escapes control
    characters. *)
Class AuditJsonLaws (J : AuditJson) := {
  audit_json_inj : forall s a k p t d i c s' a' k' p' t' d' i' c',
    audit_json s a k p t d i c = audit_json s' a' k' p' t' d' i' c' ->
    s = s' /\ a = a' /\ k = k' /\ p = p' /\ t = t' /\ json_text d = json_text d' /\
    i = i' /\ c = c';
  audit_json_no_sep : forall s a k p t d i c, no_sep (audit_json s a k p t d i c) = true;
}.

Section chain.
Context `{Ext} `{Hmac} `{AuditJson}.

Definition chain_text (prev_hash : string) (seq : i64) (e : NewAdminAudit)
    (created_at : Time) : string :=
  let canonical := audit_json seq (na_action e) (na_actor_kind e)
    (na_actor_pubkey_prefix e) (na_target e) (na_details e) (na_ip_address e) created_at in
  prev_hash ++ unit_sep ++ canonical.

Definition chain_hash (secret prev_hash : string) (seq : i64) (e : NewAdminAudit)
    (created_at : Time) : string :=
  peppered_hex secret "admin_audit" (chain_text prev_hash seq e created_at).

Definition row_as_new (r : AdminAuditLog) : NewAdminAudit :=
  mkNewAdminAudit (al_action r) (al_actor_kind r) (al_actor_pubkey_prefix r) (al_target r)
    (al_details r) (al_ip_address r).

(** [SELECT seq, row_hash .. ORDER BY seq DESC LIMIT 1], or the genesis. *)
Definition last_link (rows : list AdminAuditLog) : i64 * string :=
  match last rows with
  | Some r => (al_seq r, al_row_hash r)
  | None => (0%Z, GENESIS)
  end.

Definition new_audit_row (k : Uuid) (secret : string) (e : NewAdminAudit) (created_at : Time)
    (rows : list AdminAuditLog) : AdminAuditLog :=
  let '(prev_seq, prev_hash) := last_link rows in
  let seq := (prev_seq + 1)%Z in
  mkAdminAuditLog k seq (na_action e) (na_actor_kind e) (na_actor_pubkey_prefix e)
    (na_target e) (na_details e) (na_ip_address e) created_at prev_hash
    (chain_hash secret prev_hash seq e created_at).

Definition append_admin_audit (k : Uuid) (entry : NewAdminAudit) (secret : string)
  : Tx AdminAuditLog :=
  fun clock _ d =>
    let row := new_audit_row k secret entry clock (admin_audit_logs d) in
    inr (d <|admin_audit_logs := (admin_audit_logs d ++ [row])%list|>, row).

Definition record_admin_audit (entry : NewAdminAudit) (secret : string) : M AdminAuditLog :=
  k ← gen_random_uuid;
  run_tx (append_admin_audit k entry secret).

(** The loop of the check, from the [i]-th row on. *)
Fixpoint verify_from (secret : string) (i : Z) (prev : string) (rows : list AdminAuditLog)
  : bool :=
  match rows with
  | [] => true
  | row :: rest =>
      if negb (al_seq row =? i + 1)%Z || negb (al_prev_hash row =? prev) then false
      else if negb (chain_hash secret (al_prev_hash row) (al_seq row) (row_as_new row)
                      (al_created_at row) =? al_row_hash row) then false
      else verify_from secret (i + 1) (al_row_hash row) rest
  end.

Definition verify_rows (secret : string) (rows : list AdminAuditLog) : bool :=
  verify_from secret 0 GENESIS rows.

Definition verify_admin_audit_chain (secret : string) : M bool :=
  rows ← query (fun _ d => inr (d, admin_audit_logs d));
  mret (verify_rows secret rows).

Definition list_admin_audit (limit : i64) : M (list AdminAuditLog) :=
  query (fun _ d => inr (d, take (Z.to_nat limit) (rev (admin_audit_logs d)))).

(** * Verification, row by row *)

(** The row continues the chain after [i] rows ending in the hash [prev]. *)
Definition link_ok (secret : string) (i : Z) (prev : string) (r : AdminAuditLog) : Prop :=
  al_seq r = (i + 1)%Z /\ al_prev_hash r = prev /\
  al_row_hash r = chain_hash secret prev (i + 1) (row_as_new r) (al_created_at r).

Lemma verify_cons secret i prev r rows :
  verify_from secret i prev (r :: rows) = true <->
  link_ok secret i prev r /\ verify_from secret (i + 1) (al_row_hash r) rows = true.
Proof.
  cbn [verify_from]. unfold link_ok. split.
  - intros Hv. case_hyp Hv; [done|]. case_hyp Hv; [done|].
    apply orb_false_iff in E as [E1 E2]. apply negb_false_iff in E1, E2, E0.
    apply Z.eqb_eq in E1. apply String.eqb_eq in E2, E0. subst prev.
    rewrite <- E1 in *. split_and!; congruence.
  - intros ((E1 & <- & E3) & Hv). rewrite E1, Z.eqb_refl, String.eqb_refl. simpl.
    by rewrite <- E3, String.eqb_refl.
Qed.

Definition hash_after (prev : string) (rows : list AdminAuditLog) : string :=
  match last rows with Some r => al_row_hash r | None => prev end.

Lemma hash_after_cons prev r rows :
  hash_after prev (r :: rows) = hash_after (al_row_hash r) rows.
Proof. unfold hash_after. rewrite last_cons. by destruct (last rows). Qed.

Lemma verify_app secret i prev rows rows' :
  verify_from secret i prev (rows ++ rows') = true <->
  verify_from secret i prev rows = true /\
  verify_from secret (i + Z.of_nat (length rows)) (hash_after prev rows) rows' = true.
Proof.
  revert i prev. induction rows as [|r rows IH]; intros i prev.
  - cbn [app length]. replace (i + Z.of_nat 0)%Z with i by lia. simpl. tauto.
  - cbn [app length]. rewrite !verify_cons, IH, hash_after_cons.
    replace (i + Z.of_nat (S (length rows)))%Z with (i + 1 + Z.of_nat (length rows))%Z by lia.
    tauto.
Qed.

(** In a chain that verifies, the number of rows is the last sequence number. *)
Lemma last_link_verified secret rows :
  verify_rows secret rows = true ->
  last_link rows = (Z.of_nat (length rows), hash_after GENESIS rows).
Proof.
  unfold verify_rows, last_link, hash_after.
  destruct rows as [|r rows _] using rev_ind; [done|].
  rewrite last_snoc, verify_app, verify_cons. intros (_ & (Hseq & _) & _).
  rewrite Hseq, length_app. simpl. f_equal. lia.
Qed.
End chain.

(** Two rows that agree on everything the chain covers: all but the [id]. *)
Definition covered_eq (r r' : AdminAuditLog) : Prop :=
  al_seq r = al_seq r' /\ al_action r = al_action r' /\ al_actor_kind r = al_actor_kind r' /\
  al_actor_pubkey_prefix r = al_actor_pubkey_prefix r' /\ al_target r = al_target r' /\
  json_text (al_details r) = json_text (al_details r') /\
  al_ip_address r = al_ip_address r' /\ al_created_at r = al_created_at r' /\
  al_prev_hash r = al_prev_hash r' /\ al_row_hash r = al_row_hash r'.

(** The text the hash of a row was computed over. *)
Definition row_text `{AuditJson} (r : AdminAuditLog) : string :=
  pepper_text "admin_audit"
    (chain_text (al_prev_hash r) (al_seq r) (row_as_new r) (al_created_at r)).

(** A row of one trail and a row of the other whose texts differ and have the
    same HMAC. *)
Definition trails_clash `{Hmac} `{AuditJson} (secret : string)
    (rows rows' : list AdminAuditLog) : Prop :=
  exists r r', r ∈ rows /\ r' ∈ rows' /\ hmac_clash secret (row_text r) (row_text r').

Section properties.
Context {E : Ext} {EL : ExtLaws E} `{Hmac} {J : AuditJson} {JL : AuditJsonLaws J}.

Lemma link_append k secret entry created_at rows :
  verify_rows secret rows = true ->
  link_ok secret (Z.of_nat (length rows)) (hash_after GENESIS rows)
    (new_audit_row k secret entry created_at rows).
Proof.
  intros Hv. unfold new_audit_row. rewrite (last_link_verified _ _ Hv).
  by destruct entry.
Qed.

(** Equal links have equal contents and equal predecessors. *)
Lemma link_inj secret i i' prev prev' r r' :
  link_ok secret i prev r -> link_ok secret i' prev' r' -> al_row_hash r = al_row_hash r' ->
  covered_eq r r' /\ i = i' /\ prev = prev' \/ hmac_clash secret (row_text r) (row_text r').
Proof.
  intros (Hs & Hp & Hh) (Hs' & Hp' & Hh') Heq.
  assert (Hc : chain_hash secret prev (i + 1) (row_as_new r) (al_created_at r) =
               chain_hash secret prev' (i' + 1) (row_as_new r') (al_created_at r'))
    by congruence.
  apply peppered_hex_inj in Hc as [Hc|Hc]; [left|right].
  2: { unfold row_text. by rewrite Hs, Hs', Hp, Hp'. }
  apply (sep_split _ _ _ _ (audit_json_no_sep _ _ _ _ _ _ _ _)
    (audit_json_no_sep _ _ _ _ _ _ _ _)) in Hc as [-> Hc].
  apply audit_json_inj in Hc as (? & ? & ? & ? & ? & ? & ? & ?). simpl in *.
  assert (i = i') by lia. unfold covered_eq. split_and!; congruence.
Qed.

Lemma odd_not_hex bs : hex_encode bs <> GENESIS.
Proof.
  intros Heq. pose proof (hex_encode_len bs) as Hl. rewrite Heq in Hl.
  change (len GENESIS) with 25 in Hl. lia.
Qed.

Lemma trails_clash_app secret a b c d :
  trails_clash secret a b -> trails_clash secret (a ++ c) (b ++ d).
Proof.
  intros (r & r' & Hr & Hr' & Hc). exists r, r'. rewrite !elem_of_app. eauto.
Qed.

Lemma chain_same_head secret rows rows' :
  verify_rows secret rows = true -> verify_rows secret rows' = true ->
  hash_after GENESIS rows = hash_after GENESIS rows' ->
  Forall2 covered_eq rows rows' \/ trails_clash secret rows rows'.
Proof.
  unfold verify_rows.
  revert rows'. induction rows as [|r rows IH] using rev_ind; intros rows' Hv Hv' Hh;
    destruct rows' as [|r' rows' _] using rev_ind; [left; constructor|..];
    rewrite ?verify_app, ?verify_cons in *; unfold hash_after in Hh; rewrite ?last_snoc in Hh.
  - destruct Hv' as (_ & (_ & _ & Hr) & _). rewrite Hr in Hh. by apply symmetry, odd_not_hex in Hh.
  - destruct Hv as (_ & (_ & _ & Hr) & _). rewrite Hr in Hh. by apply odd_not_hex in Hh.
  - destruct Hv as (Hv & Hl & _), Hv' as (Hv' & Hl' & _).
    destruct (link_inj _ _ _ _ _ _ _ Hl Hl' Hh) as [(Hc & _ & Hp)|Hc].
    2: { right. exists r, r'. split_and!; [set_solver..|done]. }
    destruct (IH _ Hv Hv' Hp) as [Hf|]; [left|right; by apply trails_clash_app].
    by apply Forall2_app; [|constructor].
Qed.

(** Appending to the trail keeps it verifiable: alone, recording an
    action on a trail that verifies succeeds, adds exactly one row that says
    what was recorded, changes nothing else, and the new trail verifies. *)
Theorem audit_append_verifies entry secret w (Hq : w_sched w = [])
    (Hv : verify_rows secret (admin_audit_logs (w_db w)) = true) :
  exists w' row, record_admin_audit entry secret w = (w', Ok row) /\
    w_db w' = (w_db w) <|admin_audit_logs := (admin_audit_logs (w_db w) ++ [row])%list|> /\
    row_as_new row = entry /\ al_created_at row = (w_now w + w_skew w)%Z /\
    (verify_admin_audit_chain secret w').2 = Ok true.
Proof.
  unfold record_admin_audit. unfold mbind at 1, M_bind at 1. cbn [gen_random_uuid].
  rewrite run_tx_quiet by done. unfold append_admin_audit. cbv beta iota zeta.
  do 2 eexists. split; [reflexivity|]. cbn [w_now w_skew w_db]. split; [done|].
  assert (Hrow : forall k c, let r := new_audit_row k secret entry c (admin_audit_logs (w_db w)) in
    row_as_new r = entry /\ al_created_at r = c).
  { intros k c r. unfold r, new_audit_row. destruct (last_link _). by destruct entry. }
  split; [apply Hrow|]. split; [apply Hrow|].
  unfold verify_admin_audit_chain, mbind, M_bind, query. rewrite run_stmt_quiet by done.
  simpl. f_equal. unfold verify_rows. apply verify_app. split; [done|].
  apply verify_cons. split; [|done]. by apply link_append.
Qed.

Lemma verify_seq secret rows i r :
  verify_rows secret rows = true -> rows !! i = Some r -> al_seq r = (Z.of_nat i + 1)%Z.
Proof.
  unfold verify_rows. intros Hv Hi. rewrite <- (take_drop_middle _ _ _ Hi), verify_app, verify_cons in Hv.
  destruct Hv as (_ & (Hs & _) & _). apply lookup_lt_Some in Hi.
  rewrite length_take_le in Hs by lia. lia.
Qed.

(** A trail that verifies has one order only. *)
Lemma verified_order secret rows rows' :
  verify_rows secret rows = true -> verify_rows secret rows' = true -> rows' ≡ₚ rows -> rows' = rows.
Proof.
  intros Hv Hv' Hp. apply list_eq_same_length with (n := length rows); [done|by apply Permutation_length|].
  intros i x y _ Hx Hy. assert (Hin : x ∈ rows) by (rewrite <- Hp; by eapply list_elem_of_lookup_2).
  apply list_elem_of_lookup in Hin as [j Hj].
  pose proof (verify_seq _ _ _ _ Hv' Hx). pose proof (verify_seq _ _ _ _ Hv Hj).
  assert (j = i) as -> by lia. congruence.
Qed.

(** C38: what the check of the trail detects.  From a trail that verifies under a secret,
    another one that verifies and ends in the same hash agrees with it row by row on everything but
    the row ids.  A row changed in anything else is detected when rows follow it, whatever
    hash is written in it, and when it is the last, if its hash is kept; but for two
    rows of distinct texts with the same HMAC in these two cases.  The last row with another hash
    passes only with the HMAC of its new text under the secret.  Another order of the rows, and the removal of
    rows from inside the trail, are always detected; the removal of its most recent rows never is,
    where the documentation of the check has any deletion detected. *)
Theorem audit_tamper_evidence secret rows (Hv : verify_rows secret rows = true) :
  (forall rows', verify_rows secret rows' = true ->
     hash_after GENESIS rows' = hash_after GENESIS rows ->
     Forall2 covered_eq rows' rows \/ trails_clash secret rows' rows) /\
  (forall before r r' after, rows = (before ++ r :: after)%list -> ~ covered_eq r' r ->
     after <> [] \/ al_row_hash r' = al_row_hash r ->
     verify_rows secret (before ++ r' :: after) = false \/
     trails_clash secret (before ++ r' :: after) rows) /\
  (forall before r', verify_rows secret (before ++ [r']) = true ->
     al_row_hash r' = chain_hash secret (al_prev_hash r') (al_seq r') (row_as_new r') (al_created_at r')) /\
  (forall rows', rows' ≡ₚ rows -> rows' <> rows -> verify_rows secret rows' = false) /\
  (forall before gone after, rows = (before ++ gone ++ after)%list -> gone <> [] ->
     after <> [] -> verify_rows secret (before ++ after) = false) /\
  (forall n, verify_rows secret (take n rows) = true).
Proof.
  split_and!.
  - intros rows' Hv' Hh. by apply chain_same_head.
  - intros before r r' after -> Hne Hh. destruct (verify_rows secret (before ++ r' :: after)) eqn:Hv'; [|by left].
    right. edestruct (chain_same_head secret) as [Hf|Hc]; [exact Hv'|exact Hv| |exfalso|exact Hc].
    + unfold hash_after. destruct after as [|a after _] using rev_ind.
      * rewrite !last_snoc. by destruct Hh.
      * by rewrite !app_comm_cons, !app_assoc, !last_snoc.
    + apply Forall2_app_inv in Hf as [_ Hf]; [|done]. by apply Forall2_cons in Hf as [? _].
  - intros before r' Hv'. unfold verify_rows in Hv'. apply verify_app in Hv' as [_ Hv'].
    apply verify_cons in Hv' as [(-> & -> & ->) _]. done.
  - intros rows' Hp Hne. apply not_true_iff_false. intros Hv'. by eapply Hne, verified_order.
  - intros before gone after -> Hg Ha. apply not_true_iff_false. intros Hv'.
    unfold verify_rows in *. rewrite !verify_app in *.
    destruct after as [|r after]; [done|]. destruct gone as [|g gone]; [done|].
    rewrite !verify_cons in *. destruct Hv as (_ & _ & (Hs & _) & _).
    destruct Hv' as (_ & (Hs' & _) & _). cbn [length] in Hs. lia.
  - intros n. unfold verify_rows in *. rewrite <- (take_drop n rows), verify_app in Hv.
    tauto.
Qed.
End properties.

(** * A concrete trail *)

(** An unambiguous text of the array, in binary digits, and a keyed checksum in
    the place of the HMAC. *)
#[export] Instance demo_audit_json : AuditJson | 1000 := {
  audit_json s a k p t d i c :=
    pos_to_string (countable.encode (s, a, k, p, t, json_text d, i, c));
}.

Lemma pos_to_string_no_sep p : no_sep (pos_to_string p) = true.
Proof. induction p; simpl; done. Qed.

#[export] Instance demo_audit_json_laws : AuditJsonLaws demo_audit_json.
Proof.
  split; [|intros; apply pos_to_string_no_sep].
  intros s a k p t d i c s' a' k' p' t' d' i' c'. simpl. intros Heq.
  apply (f_equal pos_of_string) in Heq. rewrite !pos_round_trip in Heq.
  injection Heq as Heq. apply (inj countable.encode) in Heq. by injection Heq.
Qed.

Fixpoint checksum (acc : N) (s : string) : N :=
  match s with
  | EmptyString => acc
  | String c s => checksum ((31 * acc + N_of_ascii c) mod 256)%N s
  end.

#[export] Instance demo_hmac : Hmac | 1000 := {
  hmac_sha256 key msg := [byte_of_ascii (ascii_of_N (checksum (checksum 7 key) msg))];
}.

Definition demo_entry (what : string) : NewAdminAudit :=
  mkNewAdminAudit what "admin" (Some "aa") None None (Some "10.0.0.1/32").

Definition demo_trail_w : World :=
  (record_admin_audit (demo_entry "admin_login") "s" (quiet_world empty_db 5)).1.

Lemma audit_append_verifies_witness :
  exists w' row, record_admin_audit (demo_entry "key_added") "s" demo_trail_w = (w', Ok row) /\
    length (admin_audit_logs (w_db w')) = 2 /\ al_seq row = 2%Z /\
    (verify_admin_audit_chain "s" w').2 = Ok true.
Proof.
  destruct (audit_append_verifies (demo_entry "key_added") "s" demo_trail_w eq_refl
    ltac:(by vm_compute)) as (w' & row & Hrun & Hdb & _ & _ & Hv).
  assert (Hs : match (record_admin_audit (demo_entry "key_added") "s" demo_trail_w).2 with
               | Ok r => al_seq r | _ => 0%Z end = 2%Z) by (by vm_compute).
  exists w', row. split; [done|]. rewrite Hrun in Hs. by rewrite Hdb.
Defined.

Definition demo_trail : list AdminAuditLog :=
  admin_audit_logs (w_db (record_admin_audit (demo_entry "key_added") "s" demo_trail_w).1).

Lemma audit_tamper_evidence_witness :
  verify_rows "s" demo_trail = true /\ verify_rows "s" (take 1 demo_trail) = true /\
  verify_rows "s" (drop 1 demo_trail) = false.
Proof.
  assert (Hv : verify_rows "s" demo_trail = true) by (by vm_compute).
  destruct (audit_tamper_evidence "s" demo_trail Hv) as (_ & _ & _ & _ & Hdel & Htake).
  split_and!; [done|apply (Htake 1)|].
  apply (Hdel [] (take 1 demo_trail) (drop 1 demo_trail)); [|done..].
  by rewrite app_nil_l, take_drop.
Defined.
