(* ===== verification/Registration.v ===== *)
(** The gates of registration: [src/core/invite.rs],
    [src/infra/db/invite_codes.rs], [src/infra/db/payment_invoices.rs],
    [upsert_user_key] of [src/infra/db/user_keys.rs] and the creation of users
    in [src/infra/db/users.rs]. *)

From Stdlib Require Import ZArith Lia Ascii String.
From S2P Require Import Prelude RustStr Errors Db Effects TipStatus SocialTips Transactions Pepper AuditChain Demo.

Local Open Scope string_scope.

Definition registration_conflict `{Ext} (e : PgError) : AppError :=
  match e with
  | PgUniqueViolation constraint =>
      if contains "username" constraint
      then Conflict "That username is already taken. Choose another."
      else Conflict "This wallet is already being registered. Please retry."
  | _ => app_error_from_sqlx e
  end.

(** * Invite codes *)

Definition hash_invite_code `{Ext} (code : string) : string :=
  hex_encode (sha256 (list_byte_of_string code)).

(** [bs58::encode], of the [bs58] crate. *)
Class Bs58 := { bs58_encode : list Byte.byte -> string }.

(** The 16 bytes of a 128-bit number. *)
Definition bytes16 (n : N) : list Byte.byte :=
  (fun i => byte_of_ascii (ascii_of_N (N.shiftr n (8 * N.of_nat i)))) <$> seq 0 16.

(** 16 random bytes are a random 128-bit number. *)
Definition generate_invite_code `{Bs58} : M string :=
  n ← gen_random_uuid; mret (bs58_encode (bytes16 n)).

Fixpoint gen_codes `{Bs58} (n : nat) : M (list string) :=
  match n with
  | O => mret []
  | S n => c ← generate_invite_code; cs ← gen_codes n; mret (c :: cs)
  end.

Definition sql_insert_invite_code (code_hash : string) (label : option string) : Stmt unit :=
  fun now d =>
    match invite_codes d !! code_hash with
    | Some _ => inl (PgUniqueViolation "invite_codes_pkey")
    | None =>
        inr (d <|invite_codes := <[code_hash :=
               mkInviteCodeRow code_hash now label None None None]> (invite_codes d)|>, tt)
    end.

Definition invite_spendable (now : Time) (c : InviteCodeRow) : bool :=
  is_none (ic_used_at c)
  && match ic_expires_at c with None => true | Some t => (now <? t)%Z end.

(** The atomic claim: whether a row was returned. *)
Definition sql_claim_invite (code_hash : string) : Stmt bool := fun now d =>
  match invite_codes d !! code_hash with
  | Some c =>
      if invite_spendable now c
      then inr (d <|invite_codes := <[code_hash := c <|ic_used_at := Some now|>]>
                      (invite_codes d)|>, true)
      else inr (d, false)
  | None => inr (d, false)
  end.

Definition invite_rows (d : Db) : list InviteCodeRow := snd <$> map_to_list (invite_codes d).

(** * Payment invoices *)

Definition sql_insert_payment_invoice (invoice_id pubkey_hash provider amount currency : string)
  : Stmt unit := fun now d =>
  match payment_invoices d !! invoice_id with
  | Some _ => inl (PgUniqueViolation "payment_invoices_pkey")
  | None =>
      inr (d <|payment_invoices := <[invoice_id :=
             mkPaymentInvoiceRow invoice_id pubkey_hash provider amount currency now None]>
             (payment_invoices d)|>, tt)
  end.

Definition sql_consume_invoice (invoice_id pubkey_hash : string) : Stmt bool := fun now d =>
  match payment_invoices d !! invoice_id with
  | Some p =>
      if (pi_pubkey_hash p =? pubkey_hash) && is_none (pi_consumed_at p)
      then inr (d <|payment_invoices := <[invoice_id := p <|pi_consumed_at := Some now|>]>
                      (payment_invoices d)|>, true)
      else inr (d, false)
  | None => inr (d, false)
  end.

(** * Users and their keys *)

Record NewUser := mkNewUser {
  nu_username : option string;
  nu_pubkey_hash : option string;
  nu_nostr_pubkey : option string;
  nu_wallet_birthday : option Time;
  nu_seed_fingerprint : option string;
  nu_xmr_start_height : option i64;
  nu_wow_start_height : option i64;
}.

#[export] Instance eta_NewUser : Eta NewUser := fun n =>
  mkNewUser (nu_username n) (nu_pubkey_hash n) (nu_nostr_pubkey n) (nu_wallet_birthday n)
    (nu_seed_fingerprint n) (nu_xmr_start_height n) (nu_wow_start_height n).

(** Whether some row has the (non-null) value in the column. *)
Definition taken (d : Db) (col : User -> option string) (v : option string) : bool :=
  match v with
  | Some s => existsb (fun u => sql_eq (col u) s) (snd <$> map_to_list (users d))
  | None => false
  end.

(** The UNIQUE constraints of the table, in the order they are checked. *)
Definition user_conflict (d : Db) (k : Uuid) (n : NewUser) : option PgError :=
  if is_some (users d !! k) then Some (PgUniqueViolation "users_pkey")
  else if taken d u_username (nu_username n)
  then Some (PgUniqueViolation "users_username_key")
  else if taken d u_pubkey_hash (nu_pubkey_hash n)
  then Some (PgUniqueViolation "users_pubkey_hash_key")
  else if taken d u_nostr_pubkey (nu_nostr_pubkey n)
  then Some (PgUniqueViolation "users_nostr_pubkey_key")
  else if taken d u_seed_fingerprint (nu_seed_fingerprint n)
  then Some (PgUniqueViolation "users_seed_fingerprint_key")
  else None.

Definition new_user_row (k : Uuid) (n : NewUser) (now : Time) : User :=
  mkUser k (nu_username n) (nu_pubkey_hash n) (nu_nostr_pubkey n) (nu_wallet_birthday n)
    (nu_seed_fingerprint n) (nu_xmr_start_height n) (nu_wow_start_height n) now now None None.

(** [INSERT INTO users ..]; the values are those stored, peppered. *)
Definition sql_insert_user (k : Uuid) (n : NewUser) : Stmt User := fun now d =>
  match user_conflict d k n with
  | Some e => inl e
  | None =>
      let u := new_user_row k n now in
      inr (d <|users := <[k := u]> (users d)|>, u)
  end.

Record NewUserKey := mkNewUserKey {
  nk_user_id : Uuid; nk_asset : AssetType; nk_public_key : string;
  nk_public_spend_key : option string; nk_key_type : string }.

(** [INSERT .. ON CONFLICT (user_id, asset, key_type) DO UPDATE ..]. *)
Definition sql_upsert_user_key (k : Uuid) (n : NewUserKey) : Stmt UserKey := fun now d =>
  if negb (is_user d (nk_user_id n))
  then inl (PgForeignKeyViolation "user_keys_user_id_fkey")
  else
    let at_ := (nk_user_id n, nk_asset n, nk_key_type n) in
    let key := match user_keys d !! at_ with
      | Some old => old <|uk_public_key := nk_public_key n|>
                        <|uk_public_spend_key := nk_public_spend_key n|>
                        <|uk_updated_at := now|>
      | None => mkUserKey k (nk_user_id n) (nk_asset n) (nk_public_key n)
                  (nk_public_spend_key n) (nk_key_type n) now now
      end in
    inr (d <|user_keys := <[at_ := key]> (user_keys d)|>, key).

(** The orders of the lists: newest first, and by the enum's order. *)
Definition ic_newer (a b : InviteCodeRow) : Prop := (ic_created_at b <= ic_created_at a)%Z.
#[export] Instance ic_newer_dec a b : Decision (ic_newer a b).
Proof. unfold ic_newer. apply _. Defined.

Definition asset_index (a : AssetType) : nat :=
  match a with Btc => 0 | Ltc => 1 | Xmr => 2 | Wow => 3 | Grin => 4 end.
Definition asset_le (a b : UserKey) : Prop :=
  asset_index (uk_asset a) <= asset_index (uk_asset b).
#[export] Instance asset_le_dec a b : Decision (asset_le a b).
Proof. unfold asset_le. apply _. Defined.

Section methods.
Context `{Ext} `{Hmac} (identity_pepper : string).

Definition insert_invite_code (code_hash : string) (label : option string) : M unit :=
  query (sql_insert_invite_code code_hash label).

Definition claim_invite_code (code_hash : string) : M bool :=
  query (sql_claim_invite code_hash).

Definition unused_invite_code_count : M Z :=
  query (fun now d => inr (d, Z.of_nat (length (base.filter
    (fun c => invite_spendable now c = true) (invite_rows d))))).

Definition list_invite_codes (limit offset : i64) : M (list InviteCodeRow) :=
  query (fun _ d => inr (d, take (Z.to_nat limit) (drop (Z.to_nat offset)
    (merge_sort ic_newer (invite_rows d))))).

(** The insertions of the loop, then the audit entry; the codes are drawn
    before. *)
Definition mint_invite (label : option string) (code : string) : Tx unit :=
  tx_stmt app_error_from_sqlx (sql_insert_invite_code (hash_invite_code code) label).

Definition mint_invites_tx `{AuditJson} (k : Uuid) (codes : list string)
    (label : option string) (audit : NewAdminAudit) (secret : string) : Tx (list string) :=
  _ ← tx_for_each (mint_invite label) codes;
  _ ← append_admin_audit k audit secret;
  mret codes.

Definition mint_invites_audited `{AuditJson} `{Bs58} (count : nat) (label : option string)
    (audit : NewAdminAudit) (secret : string) : M (list string) :=
  codes ← gen_codes count;
  k ← gen_random_uuid;
  run_tx (mint_invites_tx k codes label audit secret).

Definition insert_payment_invoice (invoice_id pubkey_hash provider amount currency : string)
  : M unit :=
  query (sql_insert_payment_invoice invoice_id pubkey_hash provider amount currency).

Definition get_payment_invoice (invoice_id : string) : M (option PaymentInvoiceRow) :=
  query (fun _ d => inr (d, payment_invoices d !! invoice_id)).

Definition consume_payment_invoice (invoice_id pubkey_hash : string) : M bool :=
  query (sql_consume_invoice invoice_id pubkey_hash).

Definition upsert_user_key (n : NewUserKey) : M UserKey :=
  k ← gen_random_uuid;
  query (sql_upsert_user_key k n).

Definition get_user_keys (u : Uuid) : M (list UserKey) :=
  query (fun _ d => inr (d, merge_sort asset_le
    (snd <$> base.filter (fun kv => uk_user_id kv.2 = u) (map_to_list (user_keys d))))).

Definition get_user_key (u : Uuid) (a : AssetType) : M (option UserKey) :=
  query (fun _ d => inr (d, user_keys d !! (u, a, "primary"))).

Definition delete_user_key (u : Uuid) (a : AssetType) : M bool :=
  query (fun _ d =>
    inr (d <|user_keys := delete (u, a, "primary") (user_keys d)|>,
         is_some (user_keys d !! (u, a, "primary")))).

(** [self.pepper(domain, value)]. *)
Definition pepper (domain value : string) : string :=
  peppered_hex identity_pepper domain value.

(** The values as they are stored. *)
Definition peppered (n : NewUser) : NewUser :=
  n <|nu_pubkey_hash := pepper "pubkey_hash" <$> nu_pubkey_hash n|>
    <|nu_seed_fingerprint := pepper "seed_fingerprint" <$> nu_seed_fingerprint n|>.

Definition create_user (input : NewUser) : M User :=
  k ← gen_random_uuid;
  query (sql_insert_user k (peppered input)).

(** * Registration *)

Definition claim_invite_step (invite_code_hash : option string) : Tx unit :=
  match invite_code_hash with
  | None => mret tt
  | Some hash =>
      claimed ← tx_stmt app_error_from_sqlx (sql_claim_invite hash);
      if negb claimed : bool
      then tx_fail (ValidationError "Invalid or already-used invite code.")
      else mret tt
  end.

Definition consume_invoice_step (payment : option (string * string)) : Tx unit :=
  match payment with
  | None => mret tt
  | Some (invoice_id, pubkey_hash) =>
      consumed ← tx_stmt app_error_from_sqlx (sql_consume_invoice invoice_id pubkey_hash);
      if negb consumed : bool
      then tx_fail (ValidationError "This payment invoice has already been used.")
      else mret tt
  end.

Definition RegKey : Type := AssetType * string * option string.

(** One turn of the loop over the keys, with the id the row would get. *)
Definition register_key (user_id : Uuid) (e : Uuid * RegKey) : Tx unit :=
  let '(k, (a, pub, spend)) := e in
  _ ← tx_stmt app_error_from_sqlx
        (sql_upsert_user_key k (mkNewUserKey user_id a pub spend "primary"));
  mret tt.

Definition registration_tx (uid : Uuid) (key_ids : list Uuid)
    (invite_code_hash : option string) (payment : option (string * string))
    (new_user : NewUser) (keys : list RegKey) : Tx User :=
  _ ← claim_invite_step invite_code_hash;
  _ ← consume_invoice_step payment;
  user ← tx_stmt registration_conflict (sql_insert_user uid (peppered new_user));
  _ ← tx_for_each (register_key (u_id user)) (zip key_ids keys);
  mret user.

Fixpoint gen_ids (n : nat) : M (list Uuid) :=
  match n with
  | O => mret []
  | S n => k ← gen_random_uuid; ks ← gen_ids n; mret (k :: ks)
  end.

Definition create_user_consuming_gates (invite_code_hash : option string)
    (payment : option (string * string)) (new_user : NewUser) (keys : list RegKey) : M User :=
  uid ← gen_random_uuid;
  ids ← gen_ids (length keys);
  run_tx (registration_tx uid ids invite_code_hash payment new_user keys).
End methods.

(** * What a registration does *)

(** The invite, if one is asked for, was spendable and is now spent. *)
Definition invite_taken (now : Time) (inv : option string) (d d' : Db) : Prop :=
  match inv with
  | None => invite_codes d' = invite_codes d
  | Some h => exists c, invite_codes d !! h = Some c /\ invite_spendable now c = true /\
      invite_codes d' = <[h := c <|ic_used_at := Some now|>]> (invite_codes d)
  end.

(** The invoice, if one is asked for, was bound to the identity and unspent, and
    is now spent. *)
Definition invoice_taken (now : Time) (pay : option (string * string)) (d d' : Db) : Prop :=
  match pay with
  | None => payment_invoices d' = payment_invoices d
  | Some (i, pkh) => exists p, payment_invoices d !! i = Some p /\ pi_pubkey_hash p = pkh /\
      pi_consumed_at p = None /\
      payment_invoices d' = <[i := p <|pi_consumed_at := Some now|>]> (payment_invoices d)
  end.

(** Exactly one user more, with the stored form of the requested values, and no
    change outside the gates, the users and that user's keys. *)
Definition registered_as (now : Time) (n : NewUser) (d d' : Db) (u : User) : Prop :=
  user_conflict d (u_id u) n = None /\ u = new_user_row (u_id u) n now /\
  users d' = <[u_id u := u]> (users d) /\
  (forall v a t, v <> u_id u -> user_keys d' !! (v, a, t) = user_keys d !! (v, a, t)) /\
  sessions d' = sessions d /\ social_tips d' = social_tips d /\
  grin_slatepacks d' = grin_slatepacks d /\ premium_invoices d' = premium_invoices d /\
  admin_audit_logs d' = admin_audit_logs d.

Definition registration (now : Time) (inv : option string) (pay : option (string * string))
    (n : NewUser) (d d' : Db) (u : User) : Prop :=
  invite_taken now inv d d' /\ invoice_taken now pay d d' /\ registered_as now n d d' u.

(** Everything but the keys of one user is as it was. *)
Definition keys_only (v : Uuid) (d d' : Db) : Prop :=
  exists ks, d' = d <|user_keys := ks|> /\
    forall x a t, x <> v -> ks !! (x, a, t) = user_keys d !! (x, a, t).

Lemma keys_only_refl v d : keys_only v d d.
Proof. exists (user_keys d). by destruct d. Qed.

Lemma keys_only_trans v d1 d2 d3 : keys_only v d1 d2 -> keys_only v d2 d3 -> keys_only v d1 d3.
Proof.
  intros (k2 & -> & H2) (k3 & -> & H3). exists k3. split; [by destruct d1|].
  intros x a t Hx. rewrite H3 by done. by apply H2.
Qed.

Section spec.
Context `{Ext} `{Hmac} (pep : string).

Lemma claim_invite_step_inr inv c now d d' :
  claim_invite_step inv c now d = inr (d', tt) <->
  exists m, d' = d <|invite_codes := m|> /\ invite_taken now inv d (d <|invite_codes := m|>).
Proof.
  destruct inv as [h|]; simpl.
  - rewrite bind_tx_inr. setoid_rewrite tx_stmt_inr. unfold sql_claim_invite. split.
    + intros (d1 & b & Hc & Hb). destruct (invite_codes d !! h) as [ic|] eqn:Eh; [|by injection Hc as <- <-].
      destruct (invite_spendable now ic) eqn:Es; injection Hc as <- <-; [|done].
      injection Hb as <-. eexists. split; [reflexivity|]. eauto.
    + intros (m & -> & ic & Hic & Hs & Hm). rewrite Hic, Hs. simpl in Hm. subst m.
      do 2 eexists. split; [reflexivity|done].
  - unfold mret, Tx_ret. split.
    + intros [= <-]. exists (invite_codes d). by destruct d.
    + intros (m & -> & Hm). simpl in Hm. subst m. by destruct d.
Qed.

Lemma consume_invoice_step_inr pay c now d d' :
  consume_invoice_step pay c now d = inr (d', tt) <->
  exists m, d' = d <|payment_invoices := m|> /\
    invoice_taken now pay d (d <|payment_invoices := m|>).
Proof.
  destruct pay as [[i pkh]|]; simpl.
  - rewrite bind_tx_inr. setoid_rewrite tx_stmt_inr. unfold sql_consume_invoice. split.
    + intros (d1 & b & Hc & Hb).
      destruct (payment_invoices d !! i) as [p|] eqn:Ep; [|by injection Hc as <- <-].
      destruct (_ && _) eqn:Es; injection Hc as <- <-; [|done].
      apply andb_true_iff in Es as [Es1%String.eqb_eq Es2]. apply is_none_true in Es2.
      injection Hb as <-. eexists. split; [reflexivity|]. exists p. by split_and!.
    + intros (m & -> & p & Hp & Hpk & Hc & Hm). rewrite Hp, Hpk, String.eqb_refl, Hc.
      simpl in *. subst m. do 2 eexists. split; [reflexivity|done].
  - unfold mret, Tx_ret. split.
    + intros [= <-]. exists (payment_invoices d). by destruct d.
    + intros (m & -> & Hm). simpl in Hm. subst m. by destruct d.
Qed.

Lemma register_keys_inr v es c now d d' :
  tx_for_each (register_key v) es c now d = inr (d', tt) -> keys_only v d d'.
Proof.
  revert d. induction es as [|[k [[a pub] spend]] es IH]; intros d; cbn [tx_for_each].
  { intros [= <-]. apply keys_only_refl. }
  rewrite bind_tx_inr. intros (d1 & [] & Hk & Hes%IH).
  eapply keys_only_trans; [|exact Hes]. cbn [register_key] in Hk.
  apply bind_tx_inr in Hk as (d2 & key & Hk & [= <-]). apply tx_stmt_inr in Hk.
  unfold sql_upsert_user_key in Hk. simpl in Hk. case_hyp Hk; [done|].
  injection Hk as <- _. eexists. split; [reflexivity|].
  intros x a' t Hx. apply lookup_insert_ne. congruence.
Qed.

(** The keys never stop a registration: their user exists. *)
Lemma register_keys_ok v es c now d :
  is_user d v = true -> exists d', tx_for_each (register_key v) es c now d = inr (d', tt).
Proof.
  revert d. induction es as [|[k [[a pub] spend]] es IH]; intros d Hu; cbn [tx_for_each].
  { by eexists. }
  edestruct IH as [d' Hd']; [|exists d'; apply bind_tx_inr; do 2 eexists; split; [|exact Hd']].
  2: { cbn [register_key]. apply bind_tx_inr. do 2 eexists. split; [|reflexivity].
       apply tx_stmt_inr. unfold sql_upsert_user_key. simpl. rewrite Hu. reflexivity. }
  done.
Qed.

Lemma registration_tx_inr uid ids inv pay n keys c now d d' u :
  registration_tx pep uid ids inv pay n keys c now d = inr (d', u) ->
  registration now inv pay (peppered pep n) d d' u.
Proof.
  unfold registration_tx. rewrite bind_tx_inr. intros (d1 & [] & Hinv & Htx).
  apply claim_invite_step_inr in Hinv as (m1 & -> & Hinv).
  apply bind_tx_inr in Htx as (d2 & [] & Hpay & Htx).
  apply consume_invoice_step_inr in Hpay as (m2 & -> & Hpay).
  apply bind_tx_inr in Htx as (d3 & u' & Hu & Htx). apply tx_stmt_inr in Hu.
  unfold sql_insert_user in Hu. case_hyp Hu; [done|]. injection Hu as <- Hu.
  apply bind_tx_inr in Htx as (d4 & [] & Hk & [= <- <-]).
  apply register_keys_inr in Hk as (ks & -> & Hks). subst u'.
  split; [by destruct inv|]. split; [by destruct pay as [[]|]|].
  unfold registered_as. by split_and!.
Qed.

Lemma gen_ids_run n w :
  exists c ids, gen_ids n w = (w <|w_calls := c|>, Ok ids).
Proof.
  revert w. induction n as [|n IH]; intros w; simpl.
  { exists (w_calls w), []. by destruct w. }
  destruct (IH (w <|w_calls := S (w_calls w)|>)) as (c & ids & Hr).
  unfold mbind, M_bind, gen_random_uuid. rewrite Hr.
  exists c, (w_rand w (w_calls w) :: ids). by destruct w.
Qed.

(** Drawing the identifiers only counts the draws. *)
Lemma create_user_run inv pay n keys w :
  exists c uid ids, create_user_consuming_gates pep inv pay n keys w =
    run_tx (registration_tx pep uid ids inv pay n keys) (w <|w_calls := c|>).
Proof.
  unfold create_user_consuming_gates, gen_random_uuid. unfold mbind at 1, M_bind at 1.
  destruct (gen_ids_run (length keys) (w <|w_calls := S (w_calls w)|>)) as (c & ids & Hr).
  unfold mbind, M_bind. rewrite Hr. exists c. by do 2 eexists.
Qed.
End spec.

(** Every key is filed under its own user, asset and type. *)
Definition keys_filed (d : Db) : Prop := forall u a t k, user_keys d !! (u, a, t) = Some k ->
  uk_user_id k = u /\ uk_asset k = a /\ uk_key_type k = t.

Lemma upsert_key_filed k n t d d' x :
  sql_upsert_user_key k n t d = inr (d', x) -> keys_filed d -> keys_filed d'.
Proof.
  unfold sql_upsert_user_key. intros E Hf. case_hyp E; [done|]. injection E as <- _.
  intros u a ty key. simpl. intros [[[= <- <- <-] <-]|[_ Hl]]%lookup_insert_Some; [|by apply Hf].
  destruct (user_keys d !! _) as [old|] eqn:Eo; [|done]. by apply Hf in Eo.
Qed.

Lemma register_keys_filed `{Ext} v es c t d d' :
  tx_for_each (register_key v) es c t d = inr (d', tt) -> keys_filed d -> keys_filed d'.
Proof.
  revert d. induction es as [|[k [[a pub] spend]] es IH]; intros d; cbn [tx_for_each].
  { by intros [= <-]. }
  rewrite bind_tx_inr. intros (d1 & [] & Hk & Hes) Hf. apply (IH d1 Hes).
  cbn [register_key] in Hk. apply bind_tx_inr in Hk as (d2 & key & Hk & [= <-]).
  apply tx_stmt_inr in Hk. by eapply upsert_key_filed.
Qed.

Lemma keys_filed_eq d d' : user_keys d' = user_keys d -> keys_filed d -> keys_filed d'.
Proof. unfold keys_filed. by intros ->. Qed.

Lemma registration_filed `{Ext} `{Hmac} pep uid ids inv pay n keys c t d d' u :
  registration_tx pep uid ids inv pay n keys c t d = inr (d', u) -> keys_filed d -> keys_filed d'.
Proof.
  unfold registration_tx. rewrite bind_tx_inr. intros (d1 & [] & Hinv & Htx) Hf.
  apply claim_invite_step_inr in Hinv as (m1 & -> & _).
  apply bind_tx_inr in Htx as (d2 & [] & Hpay & Htx).
  apply consume_invoice_step_inr in Hpay as (m2 & -> & _).
  apply bind_tx_inr in Htx as (d3 & u' & Hu & Htx). apply tx_stmt_inr in Hu.
  unfold sql_insert_user in Hu. case_hyp Hu; [done|]. injection Hu as <- _.
  apply bind_tx_inr in Htx as (d4 & [] & Hk & [= <- <-]).
  eapply register_keys_filed; [exact Hk|]. by eapply keys_filed_eq.
Qed.

(** Registration is all or nothing.  Under every interleaving and every
    failure, the transaction finds the tables [d] at one instant, and either it
    commits a whole registration (the invite was unspent and unexpired and is
    spent, the invoice was bound to the registrant and unspent and is spent,
    exactly one user with unused names appears, nothing else changes), or it
    leaves [d] as it is and reports an error: a token is never burned without a
    user, and a user never appears without the tokens. *)
Theorem registration_all_or_nothing `{Ext} `{Hmac} pep inv pay n keys w w' o
    (Hrun : create_user_consuming_gates pep inv pay n keys w = (w', o)) :
  let sl := (next_slot w).1 in
  let now := (w_now w + Z.of_N (sl_dt sl))%Z in
  let d := sl_env sl now (w_db w) in
  (exists u, registration now inv pay (peppered pep n) d (w_db w') u /\
     (o = Ok u \/ exists e, o = Err e)) \/
  (w_db w' = d /\ exists e, o = Err e).
Proof.
  intros sl now d. destruct (create_user_run pep inv pay n keys w) as (c & uid & ids & Hr).
  rewrite Hr in Hrun. apply run_tx_inv in Hrun as (sl' & rest & Hslot & _ & _ & _ & Hres).
  assert (sl' = sl) as ->.
  { unfold sl. revert Hslot. unfold next_slot. simpl. destruct (w_sched w); by intros [= <- _]. }
  simpl in Hres. fold now d in Hres. destruct Hres as [(d' & u & Htx & Hdb & Ho)|]; [left|by right].
  exists u. subst d'. split; [by eapply registration_tx_inr|done].
Qed.

(** * A token is spent once *)

(** The steps of the system on the gates. *)
Inductive gate_step `{Ext} `{Hmac} : Rel :=
| gs_insert_invite h l t d d' :
    sql_insert_invite_code h l t d = inr (d', tt) -> gate_step t d d'
| gs_claim h b t d d' : sql_claim_invite h t d = inr (d', b) -> gate_step t d d'
| gs_insert_invoice i pkh p a c t d d' :
    sql_insert_payment_invoice i pkh p a c t d = inr (d', tt) -> gate_step t d d'
| gs_consume i pkh b t d d' : sql_consume_invoice i pkh t d = inr (d', b) -> gate_step t d d'
| gs_register pep uid ids inv pay n keys c u t d d' :
    registration_tx pep uid ids inv pay n keys c t d = inr (d', u) -> gate_step t d d'
| gs_delete_user u t d d' : sql_delete_user u t d = inr (d', tt) -> gate_step t d d'
| gs_other t d d' :   (* a statement of another component *)
    invite_codes d' = invite_codes d -> payment_invoices d' = payment_invoices d ->
    gate_step t d d'.

(** A token: an invite code, by its hash, or an invoice, by its id. *)
Inductive Token := TInvite (code_hash : string) | TInvoice (invoice_id : string).

Definition spent (tok : Token) (d : Db) : Prop :=
  match tok with
  | TInvite h => exists c, invite_codes d !! h = Some c /\ is_Some (ic_used_at c)
  | TInvoice i => exists p, payment_invoices d !! i = Some p /\ is_Some (pi_consumed_at p)
  end.

(** The registration pays with the token. *)
Definition pays_with (tok : Token) (inv : option string) (pay : option (string * string)) : Prop :=
  match tok with
  | TInvite h => inv = Some h
  | TInvoice i => exists pkh, pay = Some (i, pkh)
  end.

Lemma invite_taken_spent h now inv d d' :
  invite_taken now inv d d' -> spent (TInvite h) d -> spent (TInvite h) d'.
Proof.
  intros Ht (c & Hc & Hu). destruct inv as [h'|]; simpl in *; [|by rewrite Ht; eauto].
  destruct Ht as (c' & Hc' & Hs & ->). destruct (decide (h' = h)) as [->|Hne].
  - rewrite lookup_insert_eq. eexists. split; [done|]. by eexists.
  - rewrite lookup_insert_ne by done. eauto.
Qed.

Lemma invoice_taken_spent i now pay d d' :
  invoice_taken now pay d d' -> spent (TInvoice i) d -> spent (TInvoice i) d'.
Proof.
  intros Ht (p & Hp & Hu). destruct pay as [[i' pkh]|]; simpl in *; [|by rewrite Ht; eauto].
  destruct Ht as (p' & Hp' & _ & Hs & ->). destruct (decide (i' = i)) as [->|Hne].
  - rewrite lookup_insert_eq. eexists. split; [done|]. by eexists.
  - rewrite lookup_insert_ne by done. eauto.
Qed.

Lemma spent_frame tok d d' :
  match tok with
  | TInvite _ => invite_codes d' = invite_codes d
  | TInvoice _ => payment_invoices d' = payment_invoices d
  end -> spent tok d -> spent tok d'.
Proof. intros Heq. destruct tok; simpl; by rewrite Heq. Qed.

(** A token that is spent stays spent. *)
Lemma spent_stable `{Ext} `{Hmac} tok : stable gate_step (spent tok).
Proof.
  intros t d d' Hs. destruct Hs as [h l t d d' E|h b t d d' E|i pkh p a c t d d' E
    |i pkh b t d d' E|pep uid ids inv pay n keys c u t d d' E|u t d d' E|t d d' E1 E2].
  - unfold sql_insert_invite_code in E. case_hyp E; [done|]. injection E as <-.
    destruct tok as [h'|i]; [|by apply spent_frame]. intros (c & Hc & Hu). exists c.
    split; [|done]. simpl. rewrite lookup_insert_ne; congruence.
  - unfold sql_claim_invite in E. destruct (invite_codes d !! h) as [c|] eqn:Eh.
    2: { by injection E as <- _. }
    destruct (invite_spendable t c) eqn:Es; injection E as <- _; [|done].
    destruct tok as [h'|i]; [|by apply spent_frame].
    apply (invite_taken_spent h' t (Some h)). simpl. eauto.
  - unfold sql_insert_payment_invoice in E. case_hyp E; [done|]. injection E as <-.
    destruct tok as [h'|i']; [by apply spent_frame|]. intros (q & Hq & Hu). exists q.
    split; [|done]. simpl. rewrite lookup_insert_ne; congruence.
  - unfold sql_consume_invoice in E. destruct (payment_invoices d !! i) as [p|] eqn:Ep.
    2: { by injection E as <- _. }
    destruct (_ && _) eqn:Es; injection E as <- _; [|done].
    apply andb_true_iff in Es as [Es1%String.eqb_eq Es2]. apply is_none_true in Es2.
    destruct tok as [h'|i']; [by apply spent_frame|].
    apply (invoice_taken_spent i' t (Some (i, pkh))). simpl. eauto 10.
  - apply registration_tx_inr in E as (Hi & Hp & _). destruct tok as [h|i].
    + by apply (invite_taken_spent h t inv).
    + by apply (invoice_taken_spent i t pay).
  - unfold sql_delete_user in E. case_hyp E; [|done]. injection E as <-.
    destruct tok as [h|i]; [|by apply spent_frame]. intros (c & Hc & Hu). simpl.
    rewrite lookup_fmap, Hc. simpl. eexists. split; [done|]. by destruct (sql_eq _ _).
  - apply spent_frame. by destruct tok.
Qed.

(** Minting is made of steps of the system, so it too keeps tokens spent. *)
Lemma mint_invites_steps `{Ext} `{Hmac} `{AuditJson} k codes label audit secret c now d d' r :
  mint_invites_tx k codes label audit secret c now d = inr (d', r) ->
  r = codes /\ steps gate_step d d'.
Proof.
  unfold mint_invites_tx. rewrite bind_tx_inr. intros (d1 & [] & Hloop & Htx).
  apply bind_tx_inr in Htx as (d2 & row & Ha & [= <- <-]). split; [done|].
  apply (steps_trans _ _ d1).
  - clear Ha. revert d Hloop. induction codes as [|code codes IH]; intros d; cbn [tx_for_each].
    + intros [= <-]. apply steps_refl.
    + rewrite bind_tx_inr. intros (d3 & [] & Hi & Hrest%IH). apply (tx_stmt_inr _ _ c) in Hi.
      eapply steps_trans; [|exact Hrest]. apply (steps_once _ now).
      by eapply gs_insert_invite.
  - injection Ha as <- _. apply (steps_once _ now). by apply gs_other.
Qed.

Lemma registration_spends tok now inv pay n d d' u :
  pays_with tok inv pay -> registration now inv pay n d d' u ->
  spent tok d' /\ ~ spent tok d.
Proof.
  intros Hp (Hi & Hv & _). destruct tok as [h|i]; simpl in Hp.
  - subst inv. destruct Hi as (c & Hc & Hs & Hm). split.
    + simpl. rewrite Hm, lookup_insert_eq. eexists. split; [done|]. by eexists.
    + intros (c' & Hc' & Hu). rewrite Hc in Hc'. injection Hc' as <-.
      apply andb_true_iff in Hs as [Hs _]. apply is_none_true in Hs. rewrite Hs in Hu.
      by destruct Hu.
  - destruct Hp as [pkh ->]. destruct Hv as (p & Hq & _ & Hs & Hm). split.
    + simpl. rewrite Hm, lookup_insert_eq. eexists. split; [done|]. by eexists.
    + intros (p' & Hp' & Hu). rewrite Hq in Hp'. injection Hp' as <-. rewrite Hs in Hu.
      by destruct Hu.
Qed.

(** A token buys one account.  Once a registration that pays with an
    invite code or an invoice has succeeded, no later registration that pays
    with it, for whatever identity, ever succeeds, whatever the other tasks do
    to the gates in between and during it. *)
Theorem token_spent_once `{Ext} `{Hmac} tok pep inv pay n keys w w1 u
    pep' inv' pay' n' keys' w2 w3 o
    (Htok : pays_with tok inv pay) (Htok' : pays_with tok inv' pay')
    (Hfirst : create_user_consuming_gates pep inv pay n keys w = (w1, Ok u))
    (Hlater : steps gate_step (w_db w1) (w_db w2))
    (Hok : sched_ok gate_step (w_sched w2))
    (Hsecond : create_user_consuming_gates pep' inv' pay' n' keys' w2 = (w3, o)) :
  forall u', o <> Ok u'.
Proof.
  intros u' ->. apply registration_all_or_nothing in Hfirst as [(v & Hv & _)|(_ & e & He)];
    [|done].
  apply registration_all_or_nothing in Hsecond as [(v' & Hv' & _)|(_ & e & He)]; [|done].
  apply (registration_spends tok) in Hv as [Hspent _]; [|done].
  apply (registration_spends tok) in Hv' as [_ Hnot]; [|done]. apply Hnot.
  eapply steps_stable; [apply spent_stable|by apply next_slot_env|].
  by eapply steps_stable; [apply spent_stable|exact Hlater|].
Qed.

(** * A registration that pays, and one that tries to pay again *)

Definition demo_gates_db : Db :=
  empty_db <|invite_codes := {["c0de" := mkInviteCodeRow "c0de" 1 None None None None]}|>
           <|payment_invoices :=
               {["inv" := mkPaymentInvoiceRow "inv" "pk" "btcpay" "1" "USD" 1 None]}|>.

Definition demo_new_user (pk : string) : NewUser :=
  mkNewUser None (Some pk) None None (Some pk) None None.

Definition demo_registered : World * outcome User :=
  create_user_consuming_gates "pepper" (Some "c0de") (Some ("inv", "pk"))
    (demo_new_user "pk") [(Btc, "02aa", None); (Xmr, "bb", Some "cc")]
    (quiet_world demo_gates_db 5).

Definition demo_reused : World * outcome User :=
  create_user_consuming_gates "pepper" (Some "c0de") None (demo_new_user "pk2") []
    demo_registered.1.

Lemma registration_all_or_nothing_witness :
  (exists u, registration 5 (Some "c0de") (Some ("inv", "pk"))
     (peppered "pepper" (demo_new_user "pk")) demo_gates_db (w_db demo_registered.1) u) /\
  is_ok demo_registered.2 = true.
Proof.
  assert (Hok : is_ok demo_registered.2 = true) by (by vm_compute).
  split; [|exact Hok]. destruct demo_registered as [w' o] eqn:Erun.
  destruct (registration_all_or_nothing "pepper" (Some "c0de") (Some ("inv", "pk"))
    (demo_new_user "pk") [(Btc, "02aa", None); (Xmr, "bb", Some "cc")]
    (quiet_world demo_gates_db 5) w' o Erun) as [(u & Hu & _)|(_ & e & He)].
  - exists u. exact Hu.
  - rewrite He in Hok. done.
Defined.

Lemma token_spent_once_witness :
  is_ok demo_registered.2 = true /\ is_ok demo_reused.2 = false.
Proof.
  assert (Hok : is_ok demo_registered.2 = true) by (by vm_compute).
  assert (Hs : w_sched demo_registered.1 = []) by (by vm_compute).
  split; [exact Hok|]. unfold demo_reused.
  destruct demo_registered as [w1 [u|e|]] eqn:Efirst; [|done|done].
  destruct (create_user_consuming_gates "pepper" (Some "c0de") None (demo_new_user "pk2") []
    (w1, Ok u).1) as [w3 o] eqn:Esecond.
  destruct o as [u'|e|]; [exfalso|done|done].
  refine (token_spent_once (TInvite "c0de") "pepper" (Some "c0de") (Some ("inv", "pk"))
    (demo_new_user "pk") [(Btc, "02aa", None); (Xmr, "bb", Some "cc")]
    (quiet_world demo_gates_db 5) w1 u
    "pepper" (Some "c0de") None (demo_new_user "pk2") [] w1 w3 (Ok u')
    eq_refl eq_refl Efirst (steps_refl _ _) _ Esecond u' eq_refl).
  simpl in Hs. rewrite Hs. apply sched_ok_nil.
Defined.
