(* ===== verification/Premium.v ===== *)
(** Premium memberships: [src/infra/payment/mod.rs] (the rails),
    [src/infra/payment/btcpay.rs] (what an answer of the processor means),
    [src/infra/db/premium_invoices.rs], the premium windows of
    [src/infra/db/users.rs], and the handlers of [src/api/premium.rs]. *)

From Stdlib Require Import ZArith Lia Ascii String.
From S2P Require Import Prelude RustStr Errors Db Effects TipStatus SocialTips TipLifecycle Auth Config Slatepack RelayPolicy Transactions Demo.

Local Open Scope string_scope.

(** * Payment processors *)

Inductive InvoiceStatus :=
| InvPending | InvDetected | InvSettled | InvExpired | InvInvalid.

#[export] Instance InvoiceStatus_eq_dec : EqDecision InvoiceStatus.
Proof. solve_decision. Defined.

Record InvoiceRequest := mkInvoiceRequest {
  ir_amount : string; ir_currency : string; ir_confirmations : u32; ir_bind : string;
  ir_expires_minutes : u32 }.

Record Invoice := mkInvoice {
  iv_id : string; iv_pay_to : string; iv_status : InvoiceStatus; iv_bind : option string }.

(** [dyn PaymentProvider]: the answers of the processor, per call. *)
Record PaymentProvider := mkPaymentProvider {
  pp_kind : string;
  pp_create_invoice : InvoiceRequest -> nat -> outcome Invoice;
  pp_get_invoice : string -> nat -> outcome Invoice;
}.

Record PaymentRail := mkPaymentRail { rail_provider : PaymentProvider; rail_assets : list string }.

Definition rail_kind (r : PaymentRail) : string := pp_kind (rail_provider r).

(** [self.rails.iter().find(|r| r.kind() == k)]. *)
Definition find_rail (rails : list PaymentRail) (k : string) : option PaymentRail :=
  find (fun r => rail_kind r =? k) rails.

Definition select (rails : list PaymentRail) (kind : option string) : option PaymentRail :=
  match kind with
  | None => head rails
  | Some k => find_rail rails k
  end.

Definition for_invoice (rails : list PaymentRail) (provider_kind : string) : option PaymentRail :=
  find_rail rails provider_kind.

(** ** The BTCPay adapter *)

Definition speed_policy (confirmations : u32) : string :=
  if (confirmations =? 0)%Z then "HighSpeed"
  else if (confirmations =? 1)%Z then "MediumSpeed"
  else if (2 <=? confirmations)%Z && (confirmations <=? 5)%Z then "LowMediumSpeed"
  else "LowSpeed".

Definition map_status (s : string) : InvoiceStatus :=
  if (s =? "Settled") || (s =? "Complete") || (s =? "Confirmed") then InvSettled
  else if (s =? "Processing") || (s =? "Paid") then InvDetected
  else if s =? "Expired" then InvExpired
  else if s =? "Invalid" then InvInvalid
  else InvPending.

(** The answer of the processor; of [metadata], what
    [m.get("smirkBind").and_then(as_str)] finds. *)
Record BtcPayInvoiceResp := mkBtcPayInvoiceResp {
  bp_id : string; bp_status : string; bp_checkout_link : option string;
  bp_address : option string; bp_smirk_bind : option string }.

Definition to_invoice (resp : BtcPayInvoiceResp) : Invoice :=
  mkInvoice (bp_id resp)
    (default "" (match bp_checkout_link resp with Some l => Some l | None => bp_address resp end))
    (map_status (bp_status resp)) (bp_smirk_bind resp).

(** * Statements *)

(** The timestamps Postgres has, in microseconds of the Unix epoch: from
    4714 BC to the end of the year 294276. *)
Definition TIMESTAMP_MIN : Z := -210866803200000000.
Definition TIMESTAMP_END : Z := 9224318016000000000.
Definition pg_timestamp (t : Z) : bool := (TIMESTAMP_MIN <=? t)%Z && (t <? TIMESTAMP_END)%Z.

Definition sql_insert_premium_invoice (invoice_id : string) (user_id : Uuid)
    (provider plan_id : string) (period_days : i32) (amount currency : string) : Stmt unit :=
  fun now d =>
    match premium_invoices d !! invoice_id with
    | Some _ => inl (PgUniqueViolation "premium_invoices_pkey")
    | None =>
        if negb (is_user d user_id)
        then inl (PgForeignKeyViolation "premium_invoices_user_id_fkey")
        else inr (d <|premium_invoices := <[invoice_id :=
                 mkPremiumInvoiceRow invoice_id user_id provider plan_id period_days amount
                   currency now None]> (premium_invoices d)|>, tt)
    end.

Definition unconsumed_by (u : Uuid) (kv : string * PremiumInvoiceRow) : bool :=
  bool_decide (pr_user_id kv.2 = u) && is_none (pr_consumed_at kv.2).

Definition sql_count_unconsumed (u : Uuid) : Stmt i64 := fun _ d =>
  inr (d, Z.of_nat (length (base.filter (fun kv => unconsumed_by u kv = true)
                              (map_to_list (premium_invoices d))))).

(** [UPDATE premium_invoices SET consumed_at = NOW() WHERE .. RETURNING]. *)
Definition sql_consume_premium (invoice_id : string) (user_id : Uuid) : Stmt bool :=
  fun now d =>
    match premium_invoices d !! invoice_id with
    | Some r =>
        if bool_decide (pr_user_id r = user_id) && is_none (pr_consumed_at r)
        then inr (d <|premium_invoices := <[invoice_id := r <|pr_consumed_at := Some now|>]>
                        (premium_invoices d)|>, true)
        else inr (d, false)
    | None => inr (d, false)
    end.

(** [GREATEST(COALESCE(premium_until, NOW()), NOW()) + make_interval(days)]; a
    connection's time zone is UTC, whose days have 24 hours. *)
Definition extended (now : Time) (until : option Time) (days : i32) : Z :=
  (Z.max (default now until) now + days * DAY)%Z.

Definition sql_extend_premium (user_id : Uuid) (days : i32) : Stmt (option Time) :=
  fun now d =>
    match users d !! user_id with
    | Some u =>
        let until := extended now (u_premium_until u) days in
        if pg_timestamp until
        then inr (d <|users := <[user_id := u <|u_premium_until := Some until|>
                                              <|u_updated_at := now|>]> (users d)|>, Some until)
        else inl (PgOther "timestamp out of range")
    | None => inr (d, None)
    end.

(** [fetch_one]: no row is an error. *)
Definition fetch_one {A} (s : Stmt (option A)) : Stmt A := fun now d =>
  match s now d with
  | inr (d', Some a) => inr (d', a)
  | inr (_, None) => inl (PgOther "RowNotFound")
  | inl e => inl e
  end.

Definition sql_get_premium_until (u : Uuid) : Stmt (option Time) := fun _ d =>
  inr (d, users d !! u ≫= u_premium_until).

(** * The [Database] methods *)

Section methods.
Context `{Ext}.

Definition insert_premium_invoice (invoice_id : string) (user_id : Uuid)
    (provider plan_id : string) (period_days : i32) (amount currency : string) : M unit :=
  query (sql_insert_premium_invoice invoice_id user_id provider plan_id period_days amount
           currency).

Definition get_premium_invoice (invoice_id : string) : M (option PremiumInvoiceRow) :=
  query (fun _ d => inr (d, premium_invoices d !! invoice_id)).

Definition count_unconsumed_premium_invoices (u : Uuid) : M i64 :=
  query (sql_count_unconsumed u).

Definition activate_premium_tx (invoice_id : string) (user_id : Uuid) (days : i32)
  : Tx (option Time) :=
  consumed ← tx_stmt app_error_from_sqlx (sql_consume_premium invoice_id user_id);
  if negb consumed : bool then mret None
  else
    until ← tx_stmt app_error_from_sqlx (fetch_one (sql_extend_premium user_id days));
    mret (Some until).

Definition activate_premium (invoice_id : string) (user_id : Uuid) (days : i32)
  : M (option Time) :=
  run_tx (activate_premium_tx invoice_id user_id days).

Definition extend_premium (user_id : Uuid) (days : i32) : M Time :=
  query (fetch_one (sql_extend_premium user_id days)).

Definition get_premium_until (u : Uuid) : M (option Time) := query (sql_get_premium_until u).
End methods.

(** * The handlers *)

(** What the handlers read of [AppState] and its configuration. *)
Record PremiumState := mkPremiumState {
  ps_sessions : SessionManager;
  ps_enabled : bool;
  ps_currency : string;
  ps_plans : list PremiumPlan;
  ps_confirmations : u32;
  ps_expires_minutes : u32;
  ps_rails : list PaymentRail;
  ps_relay : option NostrRelayProvider;
}.

Record InvoiceResp := mkInvoiceResp {
  ip_invoice_id : string; ip_pay_to : string; ip_plan : string; ip_amount : string;
  ip_currency : string; ip_rail : string }.

Record StatusResp := mkStatusResp {
  sr_active : bool;
  sr_premium_until : option string;
  sr_write_allowlisted : bool;
  sr_can_post_general : bool;
}.

Definition MAX_PENDING : i64 := 8.

(** The pair of the answer: allowlisted, and entitled without premium. *)
Definition general_posting_rights (relay : option NostrRelayProvider)
    (nostr_pubkey : option string) : bool * bool :=
  match relay with
  | None => (false, false)
  | Some relay =>
      let allowlisted := match nostr_pubkey with
        | Some pk => is_write_allowlisted relay (to_lowercase pk)
        | None => false
        end in
      if allowlisted then (true, true)
      else
        let registered := is_some nostr_pubkey in
        (false, match np_policy relay with
                | Open => true
                | PremiumPost => false
                | AuthorAllowlist | InboxOutbox => registered
                end)
  end.

Section handlers.
Context `{Ext} `{Jwt} (state : PremiumState).

Definition ensure_premium_enabled : outcome unit :=
  if ps_enabled state then Ok tt
  else Err (ValidationError "Premium is not available on this instance.").

Definition no_rail (rail : option string) : AppError :=
  match rail with
  | Some _ => ValidationError "That payment method is not available."
  | None => Internal "payment provider not configured"
  end.

Definition api_premium_invoice (h : HeaderMap) (plan : string) (rail : option string)
  : M InvoiceResp :=
  user_id ← extract_user_id_from_token (ps_sessions state) h;
  _ ← lift ensure_premium_enabled;
  plan ← lift (ok_or (find (fun p => plan_id p =? plan) (ps_plans state))
    (ValidationError "Unknown premium plan."));
  pending ← count_unconsumed_premium_invoices user_id;
  if (MAX_PENDING <=? pending)%Z
  then fail (ValidationError
    "Too many pending premium invoices; pay or let them expire before minting another.")
  else
    r ← lift (ok_or (select (ps_rails state) (trim <$> rail)) (no_rail rail));
    let provider := rail_provider r in
    let currency := ps_currency state in
    invoice ← upstream (pp_create_invoice provider
      (mkInvoiceRequest (plan_amount plan) currency (ps_confirmations state)
         (uuid_to_string user_id) (ps_expires_minutes state)));
    _ ← insert_premium_invoice (iv_id invoice) user_id (pp_kind provider) (plan_id plan)
          (plan_days plan) (plan_amount plan) currency;
    mret (mkInvoiceResp (iv_id invoice) (iv_pay_to invoice) (plan_id plan) (plan_amount plan)
      currency (pp_kind provider)).

Definition invalid_invoice : AppError := ValidationError "Unknown or invalid premium invoice.".
Definition used_invoice : AppError := ValidationError "This premium invoice has already been used.".

Definition api_premium_activate (h : HeaderMap) (invoice_id : string) : M StatusResp :=
  user_id ← extract_user_id_from_token (ps_sessions state) h;
  _ ← lift ensure_premium_enabled;
  let id := trim invoice_id in
  let uid := uuid_to_string user_id in
  found ← get_premium_invoice id;
  row ← lift (match found with
    | Some r => if bool_decide (pr_user_id r = user_id) then Ok r else Err invalid_invoice
    | None => Err invalid_invoice
    end);
  if is_some (pr_consumed_at row) then fail used_invoice
  else
    rail ← lift (ok_or (for_invoice (ps_rails state) (pr_provider row))
      (ValidationError
        "This invoice's payment method is currently unavailable. Try again later."));
    inv ← upstream (pp_get_invoice (rail_provider rail) id);
    if negb (bool_decide (iv_status inv = InvSettled))
    then fail (ValidationError "Payment not yet confirmed. Complete the payment and retry.")
    else if match iv_bind inv with Some bound => negb (bound =? uid) | None => false end
    then fail invalid_invoice
    else
      activated ← activate_premium id user_id (pr_period_days row);
      until ← lift (ok_or activated used_invoice);
      user ← get_user_by_id user_id;
      let npub := user ≫= u_nostr_pubkey in
      let '(write_allowlisted, _) := general_posting_rights (ps_relay state) npub in
      mret (mkStatusResp true (Some (to_rfc3339 until)) write_allowlisted true).

Definition api_premium_status (h : HeaderMap) : M StatusResp :=
  user_id ← extract_user_id_from_token (ps_sessions state) h;
  until ← get_premium_until user_id;
  now ← utc_now;
  let active := match until with Some u => (now <? u)%Z | None => false end in
  user ← get_user_by_id user_id;
  let npub := user ≫= u_nostr_pubkey in
  let '(write_allowlisted, can_general) := general_posting_rights (ps_relay state) npub in
  mret (mkStatusResp active (to_rfc3339 <$> until) write_allowlisted
          (active || can_general)).
End handlers.

(** * What an activation does *)

(** The invoice can be redeemed by the user. *)
Definition redeemable (d : Db) (id : string) (u : Uuid) (r : PremiumInvoiceRow) : Prop :=
  premium_invoices d !! id = Some r /\ pr_user_id r = u /\ pr_consumed_at r = None.

(** The tables after it: the invoice spent, the window extended, nothing else. *)
Definition after_activation (now : Time) (id : string) (r : PremiumInvoiceRow)
    (u : Uuid) (row : User) (days : i32) (d : Db) : Db :=
  d <|premium_invoices := <[id := r <|pr_consumed_at := Some now|>]> (premium_invoices d)|>
    <|users := <[u := row <|u_premium_until := Some (extended now (u_premium_until row) days)|>
                          <|u_updated_at := now|>]> (users d)|>.

Lemma sql_consume_premium_inr id u now d d' b :
  sql_consume_premium id u now d = inr (d', b) <->
  (b = true /\ exists r, redeemable d id u r /\
     d' = d <|premium_invoices := <[id := r <|pr_consumed_at := Some now|>]>
                (premium_invoices d)|>) \/
  (b = false /\ d' = d /\ forall r, ~ redeemable d id u r).
Proof.
  unfold sql_consume_premium, redeemable.
  destruct (premium_invoices d !! id) as [r|] eqn:Er; [|naive_solver].
  destruct (bool_decide _ && _) eqn:Ec.
  - apply andb_true_iff in Ec as [E1%bool_decide_eq_true E2%is_none_true]. naive_solver.
  - apply andb_false_iff in Ec as [E1%bool_decide_eq_false|E2]; [naive_solver|].
    assert (pr_consumed_at r <> None) by (intros E; by rewrite E in E2). naive_solver.
Qed.

Section spec.
Context `{Ext}.

Lemma activate_premium_tx_inr id u days c now d d' o :
  activate_premium_tx id u days c now d = inr (d', o) <->
  (exists r row, redeemable d id u r /\ users d !! u = Some row /\
     pg_timestamp (extended now (u_premium_until row) days) = true /\
     d' = after_activation now id r u row days d /\
     o = Some (extended now (u_premium_until row) days)) \/
  (d' = d /\ o = None /\ forall r, ~ redeemable d id u r).
Proof.
  unfold activate_premium_tx. rewrite bind_tx_inr. setoid_rewrite tx_stmt_inr.
  setoid_rewrite sql_consume_premium_inr. split.
  - intros (d1 & b & [(-> & r & Hr & ->)|(-> & -> & Hno)] & Ht); simpl in Ht.
    2: { injection Ht as <- <-. by right. }
    left. apply bind_tx_inr in Ht as (d2 & until & Hu & [= <- <-]). apply tx_stmt_inr in Hu.
    unfold fetch_one, sql_extend_premium in Hu. simpl in Hu.
    destruct (users d !! u) as [row|] eqn:Eu; [|done].
    destruct (pg_timestamp _) eqn:Et; [|done]. injection Hu as <- <-. by exists r, row.
  - intros [(r & row & Hr & Hu & Ht & -> & ->)|(-> & -> & Hno)].
    + eexists _, true. split; [left; split; [done|]; by exists r|]. simpl.
      apply bind_tx_inr. do 2 eexists. split; [|reflexivity]. apply tx_stmt_inr.
      unfold fetch_one, sql_extend_premium. simpl. by rewrite Hu, Ht.
    + exists d, false. split; [right; by split_and!|done].
Qed.

Lemma extended_bounds now until days :
  (now + days * DAY <= extended now until days)%Z /\
  (forall old, until = Some old -> (old + days * DAY <= extended now until days)%Z).
Proof.
  unfold extended. split; [lia|]. intros old ->. simpl. lia.
Qed.

(** An activation is exact and never half done.  Under every
    interleaving and every failure, [activate_premium] acts on the tables [d] of
    one instant: it spends an invoice that is bound to the user and unspent and
    moves the window to [days] days after the later of now and the window's end
    (so at least [days] days from now, and never less than [days] days past the
    old end), and changes nothing else; or it changes nothing, answering [None]
    exactly when there was no such invoice.  Only the error answer leaves open
    which of the two happened. *)
Theorem activate_premium_exact id u days w w' o
    (Hrun : activate_premium id u days w = (w', o)) :
  let sl := (next_slot w).1 in
  let now := (w_now w + Z.of_N (sl_dt sl))%Z in
  let d := sl_env sl now (w_db w) in
  (exists r row, redeemable d id u r /\ users d !! u = Some row /\
     let until := extended now (u_premium_until row) days in
     (now + days * DAY <= until)%Z /\
     (forall old, u_premium_until row = Some old -> (old + days * DAY <= until)%Z) /\
     w_db w' = after_activation now id r u row days d /\
     (o = Ok (Some until) \/ exists e, o = Err e)) \/
  (w_db w' = d /\
     ((o = Ok None /\ forall r, ~ redeemable d id u r) \/ exists e, o = Err e)).
Proof.
  intros sl now d. apply run_tx_inv in Hrun as (sl' & rest & Hslot & _ & _ & _ & Hres).
  assert (sl' = sl) as -> by (unfold sl; by rewrite Hslot).
  simpl in Hres. fold now d in Hres. destruct Hres as [(d' & a & Htx & Hdb & Ho)|[Hdb Ho]].
  2: { right. by split; [|right]. }
  apply activate_premium_tx_inr in Htx as [(r & row & Hr & Hu & _ & -> & ->)|(-> & -> & Hno)].
  - left. exists r, row. destruct (extended_bounds now (u_premium_until row) days).
    by split_and!.
  - right. split; [done|]. destruct Ho as [Ho|Ho]; [by left|by right].
Qed.
End spec.

(** * Premium is paid for *)

(** The days of a redeemed invoice of the user. *)
Definition days_paid (u : Uuid) (r : PremiumInvoiceRow) : Z :=
  if bool_decide (pr_user_id r = u) && is_some (pr_consumed_at r) then pr_period_days r else 0.

(** All the days the user has redeemed. *)
Definition paid_days (m : gmap string PremiumInvoiceRow) (u : Uuid) : Z :=
  map_fold (fun _ r acc => days_paid u r + acc)%Z 0%Z m.

Lemma paid_days_insert m u id r :
  m !! id = None -> paid_days (<[id := r]> m) u = (days_paid u r + paid_days m u)%Z.
Proof. intros Hm. unfold paid_days. rewrite map_fold_insert_L; [done| |done]. intros; lia. Qed.

Lemma paid_days_delete m u id r :
  m !! id = Some r -> paid_days m u = (days_paid u r + paid_days (delete id m) u)%Z.
Proof.
  intros Hm. rewrite <- (insert_delete_id m id r Hm) at 1.
  apply paid_days_insert, lookup_delete_eq.
Qed.

Lemma paid_days_update m u id r r' :
  m !! id = Some r ->
  paid_days (<[id := r']> m) u = (days_paid u r' - days_paid u r + paid_days m u)%Z.
Proof.
  intros Hm. rewrite (paid_days_delete m u id r Hm).
  rewrite (paid_days_delete (<[id := r']> m) u id r') by apply lookup_insert_eq.
  rewrite delete_insert_eq. lia.
Qed.

Lemma paid_days_filter m u v :
  v <> u -> paid_days (filter (fun kv => pr_user_id (snd kv) <> v) m) u = paid_days m u.
Proof.
  intros Hv. induction m as [|id r m Hm IH] using map_ind; [by rewrite map_filter_empty|].
  destruct (decide (pr_user_id r = v)) as [Hr|Hr].
  - rewrite map_filter_insert_False by (simpl; tauto).
    rewrite (delete_id m id Hm), IH, paid_days_insert by done.
    unfold days_paid. rewrite bool_decide_eq_false_2 by congruence. done.
  - rewrite map_filter_insert_True by done. rewrite !paid_days_insert, IH; [done|done|].
    apply map_lookup_filter_None. by left.
Qed.

Lemma paid_days_nonneg m u :
  (forall id r, m !! id = Some r -> (0 <= pr_period_days r)%Z) -> (0 <= paid_days m u)%Z.
Proof.
  induction m as [|id r m Hm IH] using map_ind; intros Hd; [done|].
  rewrite paid_days_insert by done.
  assert (0 <= pr_period_days r)%Z by (apply (Hd id), lookup_insert_eq).
  assert (0 <= paid_days m u)%Z.
  { apply IH. intros i x Hi. apply (Hd i). rewrite lookup_insert_ne; congruence. }
  unfold days_paid. destruct (_ && _); lia.
Qed.

(** Some answer of a processor of that kind, one the instance takes, says the invoice is
    settled. *)
Definition settled (rails : list PaymentRail) (kind id : string) : Prop :=
  exists rail n inv, rail ∈ rails /\ pp_kind (rail_provider rail) = kind /\
    pp_get_invoice (rail_provider rail) id n = Ok inv /\ iv_status inv = InvSettled.

Section paid.
Context `{Ext} `{Jwt} (state : PremiumState).
(** What an invoice id was minted as: its rail and its days.  Processors do not
    give the same id twice. *)
Context (minted : string -> string * i32).

(** The steps of the system on the invoices and the windows. *)
Inductive prem_step : Rel :=
| ps_mint id u p plan days amt cur t d d' :
    minted id = (p, days) -> (0 <= days)%Z ->
    sql_insert_premium_invoice id u p plan days amt cur t d = inr (d', tt) -> prem_step t d d'
| ps_activate id u o c t d d' :
    settled (ps_rails state) (minted id).1 id ->
    activate_premium_tx id u (minted id).2 c t d = inr (d', o) -> prem_step t d d'
| ps_delete_user u t d d' : sql_delete_user u t d = inr (d', tt) -> prem_step t d d'
| ps_other t d d' :   (* a statement of another component *)
    premium_invoices d' = premium_invoices d ->
    (forall u row', users d' !! u = Some row' ->
       u_premium_until row' = None \/
       exists row, users d !! u = Some row /\ u_premium_until row' = u_premium_until row) ->
    prem_step t d d'.

(** Every invoice is as it was minted, every spent one is settled at a processor of
    the kind that minted it, and no window reaches further than the days its user has
    paid for, past the redemption of one of the user's invoices. *)
Definition premium_backed (d : Db) : Prop :=
  (forall id r, premium_invoices d !! id = Some r ->
     minted id = (pr_provider r, pr_period_days r) /\ (0 <= pr_period_days r)%Z /\
     (is_Some (pr_consumed_at r) -> settled (ps_rails state) (pr_provider r) id)) /\
  (forall u row until, users d !! u = Some row -> u_premium_until row = Some until ->
     exists id r t, premium_invoices d !! id = Some r /\ pr_user_id r = u /\
       pr_consumed_at r = Some t /\
       (until <= t + paid_days (premium_invoices d) u * DAY)%Z).

Lemma backed_mint id u p plan days amt cur t d d' :
  minted id = (p, days) -> (0 <= days)%Z ->
  sql_insert_premium_invoice id u p plan days amt cur t d = inr (d', tt) ->
  premium_backed d -> premium_backed d'.
Proof.
  intros Hm Hd Hs [Hi Hw]. unfold sql_insert_premium_invoice in Hs.
  destruct (premium_invoices d !! id) as [|] eqn:Ei; [done|].
  case_hyp Hs; [done|]. injection Hs as <-. split.
  - intros id' r Hr. simpl in Hr. apply lookup_insert_Some in Hr as [[<- <-]|[_ Hr]]; [|by apply Hi].
    simpl. split_and!; [done..|]. by intros [? ?].
  - intros v row until Hv Hu. simpl. destruct (Hw v row until Hv Hu) as (i & r & t0 & Hr & Hru & Hrc & Hle).
    exists i, r, t0. rewrite lookup_insert_ne by congruence. split_and!; try done.
    rewrite paid_days_insert by done. unfold days_paid. simpl. by rewrite andb_false_r.
Qed.

Lemma backed_activate id u o c t d d' :
  settled (ps_rails state) (minted id).1 id ->
  activate_premium_tx id u (minted id).2 c t d = inr (d', o) ->
  premium_backed d -> premium_backed d'.
Proof.
  intros Hs Ht [Hi Hw]. apply activate_premium_tx_inr in Ht
    as [(r & row & (Hr & Hu & Hc) & Hrow & _ & -> & _)|(-> & _)]; [|done].
  destruct (Hi id r Hr) as (Hm & Hd & _). rewrite Hm in Hs |- *. simpl in *.
  assert (Hpaid : forall v, paid_days (<[id := r <|pr_consumed_at := Some t|>]>
      (premium_invoices d)) v =
    ((if decide (v = u) then pr_period_days r else 0) + paid_days (premium_invoices d) v)%Z).
  { intros v. rewrite (paid_days_update _ _ _ _ _ Hr). unfold days_paid. simpl.
    rewrite Hc. simpl. rewrite andb_false_r, andb_true_r, Hu.
    case_bool_decide; destruct (decide _); solve [congruence | lia]. }
  split.
  - intros id' r' Hr'. simpl in Hr'. apply lookup_insert_Some in Hr' as [[<- <-]|[_ Hr']]; by auto.
  - intros v row' until Hv Hun. simpl in Hv |- *. setoid_rewrite Hpaid.
    apply lookup_insert_Some in Hv as [[<- <-]|[Hne Hv]].
    + simpl in Hun. injection Hun as <-. rewrite decide_True by done.
      pose proof (paid_days_nonneg (premium_invoices d) u ltac:(naive_solver)) as Hnn.
      assert (Hday : (0 < DAY)%Z) by done. unfold extended.
      destruct (u_premium_until row) as [old|] eqn:Eo; simpl.
      * destruct (decide (old <= t)%Z).
        { exists id, (r <|pr_consumed_at := Some t|>), t. rewrite lookup_insert_eq.
          split_and!; [done..|]. nia. }
        destruct (Hw u row old Hrow Eo) as (i & ri & t0 & Hri & ? & Hci & ?).
        exists i, ri, t0. rewrite lookup_insert_ne by congruence. split_and!; [done..|]. nia.
      * exists id, (r <|pr_consumed_at := Some t|>), t. rewrite lookup_insert_eq.
        split_and!; [done..|]. nia.
    + destruct (Hw v row' until Hv Hun) as (i & ri & t0 & Hri & ? & Hci & ?).
      exists i, ri, t0. rewrite decide_False by done.
      rewrite lookup_insert_ne by congruence. by split_and!.
Qed.

Lemma backed_delete_user u t d d' :
  sql_delete_user u t d = inr (d', tt) -> premium_backed d -> premium_backed d'.
Proof.
  intros Hs [Hi Hw]. unfold sql_delete_user in Hs. case_hyp Hs; [|done]. injection Hs as <-.
  split; simpl.
  - intros id r [Hr _]%map_lookup_filter_Some. by apply Hi.
  - intros v row until [Hne Hv]%lookup_delete_Some Hu.
    destruct (Hw v row until Hv Hu) as (i & r & t0 & ? & Hr & ? & ?).
    exists i, r, t0. rewrite paid_days_filter by done. split_and!; try done.
    apply map_lookup_filter_Some. split; [done|]. simpl. congruence.
Qed.

Lemma premium_backed_stable : stable prem_step premium_backed.
Proof.
  intros t d d' Hs. destruct Hs as [| | |t d d' Hinv Hus].
  - by eapply backed_mint.
  - by eapply backed_activate.
  - by eapply backed_delete_user.
  - intros [Hi Hw]. split; [by rewrite Hinv|]. intros u row' until Hu Hun.
    rewrite Hinv. destruct (Hus u row' Hu) as [?|(row & Hrow & He)]; [congruence|].
    apply (Hw u row); congruence.
Qed.

(** * The handlers *)

Abbreviation prem_safe m :=
  (triple (fun _ => True) prem_step premium_backed m (fun _ => True)).

(** A query that only reads: what it returns is true of tables that satisfy the
    invariant. *)
Lemma prem_read {R} (s : Stmt R) (Q : R -> Prop) :
  (forall t d d' r, premium_backed d -> s t d = inr (d', r) -> d' = d /\ Q r) ->
  triple (fun _ => True) prem_step premium_backed (query s) Q.
Proof. intros Hs. apply triple_read; [apply premium_backed_stable|done]. Qed.

Lemma prem_session_live sid : prem_safe (is_session_live sid).
Proof. apply prem_read. by intros t d d' b _ [= <- _]. Qed.
#[local] Hint Resolve prem_session_live : triple.

Lemma prem_caller h : prem_safe (extract_user_id_from_token (ps_sessions state) h).
Proof. unfold extract_user_id_from_token. triple_steps. Qed.

Lemma prem_get_user u : prem_safe (get_user_by_id u).
Proof. apply prem_read. by intros t d d' b _ [= <- _]. Qed.

Lemma prem_count u : prem_safe (count_unconsumed_premium_invoices u).
Proof. apply prem_read. by intros t d d' b _ [= <- _]. Qed.

Lemma prem_until u : prem_safe (get_premium_until u).
Proof. apply prem_read. by intros t d d' b _ [= <- _]. Qed.

Lemma prem_get_invoice id :
  triple (fun _ => True) prem_step premium_backed (get_premium_invoice id)
    (fun o => forall r, o = Some r -> minted id = (pr_provider r, pr_period_days r)).
Proof.
  apply prem_read. intros t d d' o [Hi _] [= <- <-]. split; [done|].
  intros r Hr. by apply Hi in Hr as [? _].
Qed.

Lemma prem_activate id u :
  settled (ps_rails state) (minted id).1 id ->
  prem_safe (activate_premium id u (minted id).2).
Proof.
  intros Hs. apply triple_run_tx; [apply premium_backed_stable|].
  intros c now d d' o _ Ht. split; [|done]. eapply steps_once. by apply ps_activate with id u o c.
Qed.

Lemma prem_mint id u p plan days amt cur :
  minted id = (p, days) -> (0 <= days)%Z ->
  prem_safe (insert_premium_invoice id u p plan days amt cur).
Proof.
  intros Hm Hd. apply triple_stmt; [apply premium_backed_stable|].
  intros t d d' [] _ Hs. split; [|done]. eapply steps_once. by eapply ps_mint.
Qed.
#[local] Hint Resolve prem_caller prem_get_user prem_count prem_until prem_mint : triple.

(** The ids the rails hand out are those of [minted], and plans have a length. *)
Definition mints_as : Prop :=
  (forall plan, plan ∈ ps_plans state -> (0 <= plan_days plan)%Z) /\
  (forall rail plan req n inv, rail ∈ ps_rails state -> plan ∈ ps_plans state ->
     ir_amount req = plan_amount plan ->
     pp_create_invoice (rail_provider rail) req n = Ok inv ->
     minted (iv_id inv) = (rail_kind rail, plan_days plan)).

Lemma find_elem_of {A} (p : A -> bool) l x : find p l = Some x -> x ∈ l /\ p x = true.
Proof. intros Hf. apply find_some in Hf as [Hin Hp]. split; [by apply list_elem_of_In|done]. Qed.

Lemma select_elem_of rails kind r : select rails kind = Some r -> r ∈ rails.
Proof.
  destruct kind as [k|]; simpl.
  - by intros [? _]%find_elem_of.
  - by apply head_Some_elem_of.
Qed.

Lemma prem_invoice h plan rail : mints_as -> prem_safe (api_premium_invoice state h plan rail).
Proof.
  intros [Hdays Hmint]. unfold api_premium_invoice.
  eapply triple_bind; [apply prem_caller|]. intros u _.
  eapply triple_bind; [by apply (triple_lift _ _ _ _ (fun _ => True))|]. intros _ _.
  eapply (triple_bind _ _ _ _ _ (fun p => p ∈ ps_plans state)).
  { apply triple_lift. by intros p [? _]%ok_or_Ok%find_elem_of. }
  intros p Hp. eapply triple_bind; [apply prem_count|]. intros pending _.
  destruct (_ <=? _)%Z; [by apply triple_lift|].
  eapply (triple_bind _ _ _ _ _ (fun r => r ∈ ps_rails state)).
  { apply triple_lift. intros r Hr%ok_or_Ok. by eapply select_elem_of. }
  intros r Hr. eapply triple_bind; [apply triple_upstream|]. intros inv [n Hinv].
  eapply triple_bind; [|by intros; apply triple_ret].
  apply prem_mint; [|by apply Hdays]. by refine (Hmint r p _ n inv Hr Hp _ Hinv).
Qed.

Lemma prem_activate_handler h id : prem_safe (api_premium_activate state h id).
Proof.
  unfold api_premium_activate.
  eapply triple_bind; [apply prem_caller|]. intros u _.
  eapply triple_bind; [by apply (triple_lift _ _ _ _ (fun _ => True))|]. intros _ _.
  eapply triple_bind; [apply prem_get_invoice|]. intros found Hfound.
  eapply (triple_bind _ _ _ _ _
    (fun r => minted (trim id) = (pr_provider r, pr_period_days r))).
  { apply triple_lift. intros r Hr. destruct found as [r'|]; [|done].
    case_bool_decide; [|done]. injection Hr as <-. by apply Hfound. }
  intros r Hm. destruct (is_some (pr_consumed_at r)); [by apply triple_lift|].
  eapply (triple_bind _ _ _ _ _
    (fun rail => rail ∈ ps_rails state /\ pp_kind (rail_provider rail) = pr_provider r)).
  { apply triple_lift. intros rail [Hin Hk]%ok_or_Ok%find_elem_of. split; [done|].
    by apply String.eqb_eq in Hk. }
  intros rail [Hin Hkind]. eapply triple_bind; [apply triple_upstream|]. intros inv [n Hinv].
  destruct (negb (bool_decide _)) eqn:Hst; [by apply triple_lift|].
  apply negb_false_iff, bool_decide_eq_true in Hst.
  lazymatch goal with |- triple _ _ _ (if ?b then _ else _) _ => destruct b end;
    [by apply triple_lift|].
  eapply triple_bind.
  { replace (pr_period_days r) with (minted (trim id)).2 by (by rewrite Hm).
    apply prem_activate. rewrite Hm. simpl. exists rail, n, inv. by split_and!. }
  intros activated _. triple_steps.
Qed.

Lemma prem_status_handler h : prem_safe (api_premium_status state h).
Proof. unfold api_premium_status. triple_steps. Qed.

(** All that a handler does is a sequence of legal steps. *)
Definition premium_safe {A} (m : M A) : Prop := prem_safe m.
End paid.

(** C36: premium is paid for.  Under every interleaving and every failure,
    all that the three handlers do to the invoices and the premium windows is a
    sequence of legal steps, each extension of a window being the redemption of
    an invoice reported settled by a processor of the kind that minted it, for the days it was minted
    for; so, from tables where it holds, at every instant every spent invoice
    is a settled one, and no window reaches further than the days of the user's
    spent invoices, counted from the redemption of one of them. *)
Theorem premium_is_paid `{Ext} `{Jwt} state minted h plan rail id
    (Hmint : mints_as state minted) :
  premium_safe state minted (api_premium_invoice state h plan rail) /\
  premium_safe state minted (api_premium_activate state h id) /\
  premium_safe state minted (api_premium_status state h) /\
  (forall d d', steps (prem_step state minted) d d' -> premium_backed state minted d ->
     premium_backed state minted d') /\
  premium_backed state minted empty_db.
Proof.
  split_and!.
  - by apply prem_invoice.
  - apply prem_activate_handler.
  - apply prem_status_handler.
  - intros d d' Hs. by eapply steps_stable; [apply premium_backed_stable|].
  - by split.
Qed.

(** * Posting rights *)

(** For an account with a linked npub, on an instance with a relay, the answer
    without premium is the relay's own decision on a general event. *)
Lemma posting_rights_of_linked `{Ext} relay pk kind id bits rr :
  is_wallet_kind kind = false ->
  (general_posting_rights (Some relay) (Some pk)).2 =
  is_permit (decide_admit (mkEventMeta (to_lowercase pk) kind id) (np_policy relay) bits true
    rr false (is_write_allowlisted relay (to_lowercase pk))).
Proof.
  intros Hk. unfold general_posting_rights, decide_admit.
  destruct (is_write_allowlisted _ _); [done|]. destruct (np_policy relay); try done.
  cbn [em_kind]. by rewrite Hk.
Qed.

(** ** A membership, from the invoice to its redemption *)

Definition demo_provider : PaymentProvider :=
  mkPaymentProvider "btcpay"
    (fun req _ => Ok (mkInvoice "inv1" "https://pay" InvPending (Some (ir_bind req))))
    (fun id n => Ok (mkInvoice id "https://pay" InvSettled None)).

Definition demo_premium : PremiumState :=
  mkPremiumState demo_sm true "XMR" [mkPremiumPlan "quarter" 90 "5"] 10 60
    [mkPaymentRail demo_provider ["XMR"]] None.

Definition demo_minted (id : string) : string * i32 := ("btcpay", 90%Z).

Lemma demo_mints_as : mints_as demo_premium demo_minted.
Proof.
  split.
  - intros plan [-> |Hno%not_elem_of_nil]%elem_of_cons; [done|done].
  - intros rail plan req n inv [-> |Hr%not_elem_of_nil]%elem_of_cons
      [-> |Hp%not_elem_of_nil]%elem_of_cons _ _; done.
Qed.

Definition demo_invoiced : World * outcome InvoiceResp :=
  api_premium_invoice demo_premium demo_headers "quarter" None
    (quiet_world demo_session_db HOUR).
Definition demo_activated : World * outcome StatusResp :=
  api_premium_activate demo_premium demo_headers "inv1" demo_invoiced.1.

(** Activated twice, the invoice counts once. *)
Example premium_counts_once :
  let twice := api_premium_activate demo_premium demo_headers "inv1" demo_activated.1 in
  users (w_db demo_activated.1) !! 1%N ≫= u_premium_until = Some (HOUR + 90 * DAY)%Z /\
  users (w_db twice.1) !! 1%N ≫= u_premium_until = Some (HOUR + 90 * DAY)%Z.
Proof. by vm_compute. Qed.

(** A member without a linked npub, on an instance without a relay, is told it
    may post: the answer of [status] and [activate] is not the relay's. *)
Example premium_status_overstates :
  match (api_premium_status demo_premium demo_headers demo_activated.1).2 with
  | Ok r => sr_can_post_general r
  | _ => false
  end = true /\ general_posting_rights (ps_relay demo_premium) None = (false, false).
Proof. by vm_compute. Qed.

Lemma activate_premium_exact_witness :
  users (w_db (activate_premium "inv1" 1 90 demo_invoiced.1).1) !! 1%N ≫= u_premium_until =
    Some (HOUR + 90 * DAY)%Z /\
  exists r, redeemable (w_db demo_invoiced.1) "inv1" 1 r.
Proof.
  assert (Hok : (activate_premium "inv1" 1 90 demo_invoiced.1).2 =
      Ok (Some (HOUR + 90 * DAY)%Z)) by (by vm_compute).
  assert (Hs : next_slot demo_invoiced.1 = (quiet_slot, demo_invoiced.1)) by (by vm_compute).
  split; [by vm_compute|]. generalize dependent demo_invoiced. intros [w1 o1] Hok Hs. simpl in Hok, Hs.
  destruct (activate_premium_exact "inv1" 1 90 w1 _ _ (surjective_pairing _))
    as [(r & _ & Hr & _)|[_ [[Hno _]|[e Hno]]]].
  - exists r. rewrite Hs in Hr. exact Hr.
  - rewrite Hok in Hno. done.
  - rewrite Hok in Hno. done.
Defined.

Lemma premium_is_paid_witness :
  is_ok demo_activated.2 = true /\
  premium_backed demo_premium demo_minted (w_db demo_activated.1).
Proof.
  split; [by vm_compute|].
  destruct (premium_is_paid demo_premium demo_minted demo_headers "quarter" None "inv1"
    demo_mints_as) as (Hinv & Hact & _ & Hsteps & Hempty).
  assert (Hstart : premium_backed demo_premium demo_minted demo_session_db).
  { apply (Hsteps empty_db demo_session_db); [|exact Hempty].
    apply (steps_once _ 0). apply ps_other; [done|]. intros u row Hu. left.
    unfold demo_session_db in Hu. simpl in Hu. by apply lookup_singleton_Some in Hu as [_ <-]. }
  assert (Hs1 : w_sched demo_invoiced.1 = []) by (by vm_compute).
  destruct demo_invoiced as [w1 o1] eqn:E1. unfold demo_activated. rewrite E1.
  destruct (triple_run _ _ _ _ _ (quiet_world demo_session_db HOUR) w1 o1 Hinv I
    (sched_ok_nil _) Hstart E1) as (_ & Hb1 & _).
  cbn [fst] in Hs1 |- *.
  destruct (api_premium_activate demo_premium demo_headers "inv1" w1) as [w2 o2] eqn:E2.
  assert (Hok : sched_ok (prem_step demo_premium demo_minted) (w_sched w1))
    by (rewrite Hs1; apply sched_ok_nil).
  by destruct (triple_run _ _ _ _ _ w1 w2 o2 Hact I Hok Hb1 E2) as (_ & Hb2 & _).
Defined.
