(* ===== verification/Users.v ===== *)
(** The users store beyond registration: the lookups, re-keying, linking,
    get-or-create and renaming of [src/infra/db/users.rs], with the UNIQUE
    constraints of the table as an invariant. *)

From Stdlib Require Import ZArith Lia Ascii String.
From S2P Require Import Prelude RustStr Errors Db Effects TipStatus SocialTips Transactions Pepper AuditChain Demo TipApi Slatepack RelayPolicy Registration Premium.

Local Open Scope string_scope.

(** * Statements *)

(** [SELECT .. WHERE col = $1], the first row. *)
Definition find_user (p : User -> bool) : Stmt (option User) := fun _ d =>
  inr (d, head (base.filter (fun u => p u = true) (user_rows d))).

Definition sql_get_user_by_pubkey_hash (peppered : string) : Stmt (option User) :=
  find_user (fun u => sql_eq (u_pubkey_hash u) peppered).
Definition sql_get_user_by_seed_fingerprint (peppered : string) : Stmt (option User) :=
  find_user (fun u => sql_eq (u_seed_fingerprint u) peppered).
Definition sql_find_user_by_nostr_pubkey (npub : string) : Stmt (option User) :=
  find_user (is_npub npub).

(** [JOIN user_keys k ON k.user_id = u.id WHERE p k]: the first match. *)
Definition find_user_by_key (p : UserKey -> bool) : Stmt (option User) := fun _ d =>
  inr (d, head (omap (fun k => if p k then users d !! uk_user_id k else None)
                  (snd <$> map_to_list (user_keys d)))).

Definition sql_find_user_by_grin_address (address : string) : Stmt (option User) :=
  find_user_by_key (fun k => bool_decide (uk_asset k = Grin) && (uk_public_key k =? address)).

Definition sql_get_user_by_asset_pubkey (a : AssetType) (pub : string) : Stmt (option User) :=
  find_user_by_key (fun k => bool_decide (uk_asset k = a) && (uk_public_key k =? pub)
                             && (uk_key_type k =? "primary")).

(** Another row holds the (non-null) value. *)
Definition taken_by_other (d : Db) (u : Uuid) (col : User -> option string)
    (v : option string) : bool :=
  match v with
  | Some s => existsb (fun x => negb (bool_decide (u_id x = u)) && sql_eq (col x) s) (user_rows d)
  | None => false
  end.

Definition update_conflict (d : Db) (u : User) : option PgError :=
  if taken_by_other d (u_id u) u_username (u_username u)
  then Some (PgUniqueViolation "users_username_key")
  else if taken_by_other d (u_id u) u_pubkey_hash (u_pubkey_hash u)
  then Some (PgUniqueViolation "users_pubkey_hash_key")
  else if taken_by_other d (u_id u) u_nostr_pubkey (u_nostr_pubkey u)
  then Some (PgUniqueViolation "users_nostr_pubkey_key")
  else if taken_by_other d (u_id u) u_seed_fingerprint (u_seed_fingerprint u)
  then Some (PgUniqueViolation "users_seed_fingerprint_key")
  else None.

(** [UPDATE users SET .. WHERE id = $1 RETURNING ..]. *)
Definition update_user (u : Uuid) (set_ : Time -> User -> User) : Stmt (option User) :=
  fun now d =>
    match users d !! u with
    | None => inr (d, None)
    | Some x =>
        let x' := set_ now x in
        match update_conflict d x' with
        | Some e => inl e
        | None => inr (d <|users := <[u := x']> (users d)|>, Some x')
        end
    end.

Definition set_pubkey_hash (v : string) (now : Time) (u : User) : User :=
  u <|u_pubkey_hash := Some v|> <|u_updated_at := now|>.
Definition set_npub (v : string) (now : Time) (u : User) : User :=
  u <|u_nostr_pubkey := Some v|> <|u_updated_at := now|>.
Definition set_username_to (v : option string) (now : Time) (u : User) : User :=
  u <|u_username := v|> <|u_updated_at := now|>.

(** [COALESCE(column, $n)] of the four optional columns. *)
Definition backfill_set (birthday : option Time) (peppered_fp : option string)
    (xmr wow : option i64) (now : Time) (u : User) : User :=
  u <|u_wallet_birthday := match u_wallet_birthday u with Some b => Some b | None => birthday end|>
    <|u_seed_fingerprint := match u_seed_fingerprint u with Some f => Some f | None => peppered_fp end|>
    <|u_xmr_start_height := match u_xmr_start_height u with Some h => Some h | None => xmr end|>
    <|u_wow_start_height := match u_wow_start_height u with Some h => Some h | None => wow end|>
    <|u_updated_at := now|>.

Definition needs_backfill (u : User) (birthday : option Time) (fp : option string)
    (xmr wow : option i64) : bool :=
  (is_none (u_wallet_birthday u) && is_some birthday)
  || (is_none (u_seed_fingerprint u) && is_some fp)
  || (is_none (u_xmr_start_height u) && is_some xmr)
  || (is_none (u_wow_start_height u) && is_some wow).

Definition sql_update_last_seen (u : Uuid) : Stmt unit := fun now d =>
  inr (d <|users := alter (fun x => x <|u_last_seen_at := Some now|>) u (users d)|>, tt).

Definition count_users (p : User -> bool) : Stmt Z := fun _ d =>
  inr (d, Z.of_nat (length (base.filter (fun u => p u = true) (user_rows d)))).

Section methods.
Context `{Ext} `{Hmac} (identity_pepper : string).

Definition get_user_by_pubkey_hash (pkh : string) : M (option User) :=
  query (sql_get_user_by_pubkey_hash (pepper identity_pepper "pubkey_hash" pkh)).

Definition get_user_by_seed_fingerprint (fp : string) : M (option User) :=
  query (sql_get_user_by_seed_fingerprint (pepper identity_pepper "seed_fingerprint" fp)).

Definition find_user_by_nostr_pubkey (npub : string) : M (option User) :=
  query (sql_find_user_by_nostr_pubkey npub).

Definition find_user_by_grin_address (address : string) : M (option User) :=
  query (sql_find_user_by_grin_address address).

Definition get_user_by_asset_pubkey (a : AssetType) (pub : string) : M (option User) :=
  query (sql_get_user_by_asset_pubkey a pub).

Definition update_pubkey_hash (u : Uuid) (new_pkh : string) : M unit :=
  _ ← query (update_user u (set_pubkey_hash (pepper identity_pepper "pubkey_hash" new_pkh)));
  mret tt.

Definition set_nostr_pubkey (u : Uuid) (npub : string) : M unit :=
  _ ← run_stmt (unique_violation_as "That Nostr identity is already linked to another account")
        (update_user u (set_npub npub));
  mret tt.

Definition backfill_optionals (existing : User) (birthday : option Time) (fp : option string)
    (xmr wow : option i64) : M User :=
  if negb (needs_backfill existing birthday fp xmr wow) then mret existing
  else
    let peppered_fp := pepper identity_pepper "seed_fingerprint" <$> fp in
    query (fetch_one (update_user (u_id existing) (backfill_set birthday peppered_fp xmr wow))).

(** The update of the first branch is [backfill_optionals]', written out twice
    in the source. *)
Definition get_or_create_user_by_pubkey_hash (pkh : string) (username : option string)
    (birthday : option Time) (fp : option string) (xmr wow : option i64) : M User :=
  found ← get_user_by_pubkey_hash pkh;
  match found with
  | Some existing => backfill_optionals existing birthday fp xmr wow
  | None =>
      create_user identity_pepper (mkNewUser username (Some pkh) None birthday fp xmr wow)
  end.

Definition other_npub : AppError := Conflict "This wallet is already registered under a different Nostr identity. Sign in instead.".
Definition link_instead : AppError := Conflict "This wallet already has an account. Sign in with your existing credentials and link your Nostr identity from settings.".

Definition get_or_create_user_by_nostr_pubkey (npub : string) (username : option string)
    (birthday : option Time) (fp : option string) (xmr wow : option i64) : M User :=
  let create :=
    create_user identity_pepper (mkNewUser username None (Some npub) birthday fp xmr wow) in
  known ← find_user_by_nostr_pubkey npub;
  match known with
  | Some existing => backfill_optionals existing birthday fp xmr wow
  | None =>
      match fp with
      | None => create
      | Some f =>
          owner ← get_user_by_seed_fingerprint f;
          match owner with
          | None => create
          | Some existing =>
              match u_nostr_pubkey existing with
              | Some pk =>
                  if pk =? npub then backfill_optionals existing birthday None xmr wow
                  else fail other_npub
              | None => fail link_instead
              end
          end
      end
  end.

Definition update_username (u : Uuid) (name : option string) : M User :=
  run_stmt (unique_violation_as "That username is not available")
    (fetch_one (update_user u (set_username_to name))).

Definition set_username (u : Uuid) (name : string) : M User := update_username u (Some name).

Definition update_user_last_seen (u : Uuid) : M unit := query (sql_update_last_seen u).

Definition get_user_count : M Z :=
  query (count_users (fun u => is_some (u_pubkey_hash u) || is_some (u_nostr_pubkey u))).
Definition get_handle_count : M Z := query (count_users (fun u => is_some (u_username u))).
End methods.

(** * The constraints of the table *)

(** No two rows share a non-null value of the column. *)
Definition unique_column (d : Db) (col : User -> option string) : Prop :=
  forall k1 k2 u1 u2 s, users d !! k1 = Some u1 -> users d !! k2 = Some u2 ->
    col u1 = Some s -> col u2 = Some s -> k1 = k2.

Definition users_wf (d : Db) : Prop :=
  (forall k u, users d !! k = Some u -> u_id u = k) /\
  unique_column d u_username /\ unique_column d u_pubkey_hash /\
  unique_column d u_nostr_pubkey /\ unique_column d u_seed_fingerprint.

(** The statements that write users. *)
Inductive user_step `{Ext} `{Hmac} : Rel :=
| us_insert k n t d d' u : sql_insert_user k n t d = inr (d', u) -> user_step t d d'
| us_register pep uid ids inv pay n keys c t d d' u :
    registration_tx pep uid ids inv pay n keys c t d = inr (d', u) -> user_step t d d'
| us_rekey u v t d d' r : update_user u (set_pubkey_hash v) t d = inr (d', r) -> user_step t d d'
| us_link u v t d d' r : update_user u (set_npub v) t d = inr (d', r) -> user_step t d d'
| us_rename u v t d d' r : update_user u (set_username_to v) t d = inr (d', r) -> user_step t d d'
| us_backfill u b f x w t d d' r :
    update_user u (backfill_set b f x w) t d = inr (d', r) -> user_step t d d'
| us_last_seen u t d d' : sql_update_last_seen u t d = inr (d', tt) -> user_step t d d'
| us_premium u n t d d' r : sql_extend_premium u n t d = inr (d', r) -> user_step t d d'
| us_delete u t d d' : sql_delete_user u t d = inr (d', tt) -> user_step t d d'
| us_other t d d' : users d' = users d -> user_step t d d'.

Lemma elem_of_user_rows d u : u ∈ user_rows d <-> exists k, users d !! k = Some u.
Proof.
  unfold user_rows. rewrite list_elem_of_fmap. split.
  - intros ([k x] & -> & Hin). apply elem_of_map_to_list in Hin. eauto.
  - intros [k Hk]. exists (k, u). by rewrite elem_of_map_to_list.
Qed.

Lemma existsb_false {A} (p : A -> bool) l : existsb p l = false <-> forall x, x ∈ l -> p x = false.
Proof.
  rewrite <- not_true_iff_false, existsb_exists. setoid_rewrite <- list_elem_of_In. split.
  - intros Hn x Hx. destruct (p x) eqn:E; [|done]. destruct Hn. eauto.
  - intros Hf (x & Hx & Hp). by rewrite Hf in Hp.
Qed.

Lemma not_taken d col v s :
  taken d col v = false -> v = Some s -> forall k u, users d !! k = Some u -> col u <> Some s.
Proof.
  intros Ht -> k u Hk Hc. simpl in Ht.
  assert (Hf := proj1 (existsb_false _ _) Ht u). fold (user_rows d) in Hf.
  rewrite elem_of_user_rows in Hf. unfold sql_eq in Hf. rewrite Hc in Hf. specialize (Hf (ex_intro _ k Hk)).
  by rewrite bool_decide_eq_true_2 in Hf.
Qed.

Lemma not_taken_by_other d k u col v s :
  taken_by_other d k col v = false -> v = Some s ->
  forall k', users d !! k' = Some u -> u_id u = k' -> k' <> k -> col u <> Some s.
Proof.
  intros Ht -> k' Hk Hid Hne Hc. simpl in Ht.
  assert (Hf := proj1 (existsb_false _ _) Ht u). rewrite elem_of_user_rows in Hf.
  unfold sql_eq in Hf. rewrite Hc, Hid in Hf. specialize (Hf (ex_intro _ k' Hk)).
  rewrite bool_decide_eq_false_2, bool_decide_eq_true_2 in Hf by done. done.
Qed.

(** Writing one row keeps a column unique if no other row has its value. *)
Lemma unique_column_insert d col k x m :
  m = <[k := x]> (users d) -> unique_column d col ->
  (forall s k' u, col x = Some s -> users d !! k' = Some u -> k' <> k -> col u <> Some s) ->
  forall d', users d' = m -> unique_column d' col.
Proof.
  intros -> Hu Hfree d' Hd' k1 k2 u1 u2 s. rewrite Hd'.
  intros H1 H2 C1 C2. apply lookup_insert_Some in H1, H2.
  destruct H1 as [[<- <-]|[N1 H1]], H2 as [[<- <-]|[N2 H2]]; [done|..].
  - by destruct (Hfree s k2 u2).
  - by destruct (Hfree s k1 u1).
  - by eapply Hu.
Qed.

Lemma users_wf_insert d d' k x :
  users_wf d -> u_id x = k -> users d' = <[k := x]> (users d) ->
  (forall s k' u, users d !! k' = Some u -> k' <> k ->
     (u_username x = Some s -> u_username u <> Some s) /\
     (u_pubkey_hash x = Some s -> u_pubkey_hash u <> Some s) /\
     (u_nostr_pubkey x = Some s -> u_nostr_pubkey u <> Some s) /\
     (u_seed_fingerprint x = Some s -> u_seed_fingerprint u <> Some s)) ->
  users_wf d'.
Proof.
  intros (Hid & H1 & H2 & H3 & H4) Hx Hd' Hfree. split.
  { intros k' u. rewrite Hd'. intros [[<- <-]|[_ Hl]]%lookup_insert_Some; eauto. }
  split_and!; eapply unique_column_insert; try done; intros s k' u Hc Hk Hne;
    destruct (Hfree s k' u Hk Hne) as (?&?&?&?); auto.
Qed.

Lemma users_wf_eq d d' : users d' = users d -> users_wf d -> users_wf d'.
Proof. intros Heq. unfold users_wf, unique_column. by rewrite Heq. Qed.

Lemma update_user_wf u set_ t d d' r :
  (forall x, u_id (set_ t x) = u_id x) ->
  update_user u set_ t d = inr (d', r) -> users_wf d -> users_wf d'.
Proof.
  intros Hset Hup Hwf. unfold update_user in Hup. destruct (users d !! u) as [x|] eqn:Hx;
    [|by injection Hup as <- _].
  destruct (update_conflict _ _) eqn:Hc; [done|]. injection Hup as <- _.
  assert (Hxid : u_id x = u) by (by apply Hwf).
  eapply users_wf_insert; [done| |done|]; [by rewrite Hset|].
  intros s k' y Hk Hne. assert (Hyid : u_id y = k') by (by apply Hwf).
  unfold update_conflict in Hc. rewrite Hset, Hxid in Hc.
  destruct (taken_by_other d u u_username _) eqn:E1; [done|].
  destruct (taken_by_other d u u_pubkey_hash _) eqn:E2; [done|].
  destruct (taken_by_other d u u_nostr_pubkey _) eqn:E3; [done|].
  destruct (taken_by_other d u u_seed_fingerprint _) eqn:E4; [done|].
  split_and!; intros Hs; by eapply not_taken_by_other.
Qed.

(** A row rewritten with the same identity columns. *)
Lemma users_wf_same_identity d d' u x x' :
  users_wf d -> users d !! u = Some x -> users d' = <[u := x']> (users d) ->
  u_id x' = u_id x -> u_username x' = u_username x -> u_pubkey_hash x' = u_pubkey_hash x ->
  u_nostr_pubkey x' = u_nostr_pubkey x -> u_seed_fingerprint x' = u_seed_fingerprint x ->
  users_wf d'.
Proof.
  intros Hwf Hx Hd' Hi E1 E2 E3 E4. pose proof Hwf as (Hid & U1 & U2 & U3 & U4).
  eapply users_wf_insert; [done|by rewrite Hi; apply Hid|done|].
  intros s k' y Hk Hne. rewrite E1, E2, E3, E4.
  split_and!; intros Hs Hy; apply Hne; by eauto.
Qed.

Lemma insert_user_wf k n t d d' u :
  sql_insert_user k n t d = inr (d', u) -> users_wf d -> users_wf d'.
Proof.
  intros Hi Hwf. unfold sql_insert_user in Hi. destruct (user_conflict d k n) eqn:Hc; [done|].
  injection Hi as <- _. unfold user_conflict in Hc. repeat (case_hyp Hc; [done|]).
  eapply users_wf_insert; [done| |done|]; [done|]. intros s k' y Hk Hne.
  split_and!; simpl; intros Hs; by eapply not_taken.
Qed.

Lemma user_step_wf `{Ext} `{Hmac} : stable user_step users_wf.
Proof.
  intros t d d' Hs Hwf. destruct Hs as [k n t d d' u E|pep uid ids inv pay n keys c t d d' u E
    |u v t d d' r E|u v t d d' r E|u v t d d' r E|u b f x w t d d' r E|u t d d' E|u n t d d' r E
    |u t d d' E|t d d' E].
  - by eapply insert_user_wf.
  - apply registration_tx_inr in E as (_ & _ & Hc & Hu & Hd' & _).
    assert (Hi : sql_insert_user (u_id u) (peppered pep n) t d
                 = inr (d <|users := <[u_id u := u]> (users d)|>, u))
      by (unfold sql_insert_user; by rewrite Hc, <- Hu).
    apply insert_user_wf in Hi; [|done]. by eapply users_wf_eq; [|exact Hi].
  - by eapply update_user_wf; [|exact E|].
  - by eapply update_user_wf; [|exact E|].
  - by eapply update_user_wf; [|exact E|].
  - by eapply update_user_wf; [|exact E|].
  - injection E as <-. destruct (users d !! u) as [x|] eqn:Hx.
    + eapply (users_wf_same_identity d _ u x (x <|u_last_seen_at := Some t|>)); try done.
      simpl. apply map_eq. intros k. destruct (decide (k = u)) as [->|Hne].
      * by rewrite lookup_alter_eq, lookup_insert_eq, Hx.
      * by rewrite lookup_alter_ne, lookup_insert_ne by done.
    + eapply users_wf_eq; [|exact Hwf]. simpl. apply map_eq. intros k.
      destruct (decide (k = u)) as [->|Hne]; [by rewrite lookup_alter_eq, Hx|].
      by rewrite lookup_alter_ne.
  - unfold sql_extend_premium in E. destruct (users d !! u) as [x|] eqn:Hx;
      [|by injection E as <- _]. case_hyp E; [|done]. injection E as <- _.
    by eapply (users_wf_same_identity d _ u x); try done.
  - unfold sql_delete_user in E. case_hyp E; [|done]. injection E as <-.
    eapply (users_wf_eq (d <|users := delete u (users d)|>)); [done|].
    destruct Hwf as (Hid & U1 & U2 & U3 & U4). unfold users_wf, unique_column. simpl. split.
    { intros k y [_ Hk]%lookup_delete_Some. eauto. }
    split_and!; intros k1 k2 y1 y2 s [_ H1]%lookup_delete_Some [_ H2]%lookup_delete_Some;
      eauto.
  - by eapply users_wf_eq.
Qed.

Lemma find_user_unique d now p r k u :
  find_user p now d = inr (d, r) -> users d !! k = Some u -> p u = true ->
  (forall k' u', users d !! k' = Some u' -> p u' = true -> k' = k) -> r = Some u.
Proof.
  intros [= <-] Hk Hp Huniq.
  destruct (base.filter (fun u => p u = true) (user_rows d)) as [|v vs] eqn:Hf; simpl.
  - exfalso. assert (Hin : u ∈ base.filter (fun u => p u = true) (user_rows d))
      by (apply list_elem_of_filter; split; [done|by apply elem_of_user_rows; exists k]).
    rewrite Hf in Hin. by apply elem_of_nil in Hin.
  - assert (Hin : v ∈ base.filter (fun u => p u = true) (user_rows d)) by (rewrite Hf; set_solver).
    apply list_elem_of_filter in Hin as [Hv (k' & Hk')%elem_of_user_rows].
    specialize (Huniq k' v Hk' Hv) as ->. congruence.
Qed.

(** The row a lookup answers is a row of the table with the property asked for. *)
Lemma find_user_sound d now p d' u :
  find_user p now d = inr (d', Some u) -> d' = d /\ p u = true /\ exists k, users d !! k = Some u.
Proof.
  intros [= <- Hh]. split; [done|].
  assert (Hin : u ∈ base.filter (fun u => p u = true) (user_rows d)).
  { destruct (base.filter _ _); simpl in Hh; [done|]. injection Hh as ->. set_solver. }
  apply list_elem_of_filter in Hin as [Hp Hk%elem_of_user_rows]. done.
Qed.

(** C34: the users table is well typed.  From an empty table, whatever sequence
    of registrations, re-keyings, links, renamings, backfills, activations and
    deletions has run, every row is filed under its own id and no two accounts
    share a username, a key hash, a Nostr identity or a seed fingerprint; so a
    lookup by one of them answers the only row that can match, and an update
    that would make two rows collide changes nothing. *)
Theorem users_well_typed `{Ext} `{Hmac} d (Hreach : steps user_step empty_db d) :
  users_wf d /\
  (forall now npub k u, users d !! k = Some u -> u_nostr_pubkey u = Some npub ->
     sql_find_user_by_nostr_pubkey npub now d = inr (d, Some u)) /\
  (forall now pkh k u, users d !! k = Some u -> u_pubkey_hash u = Some pkh ->
     sql_get_user_by_pubkey_hash pkh now d = inr (d, Some u)) /\
  (forall now u npub k x y, users d !! k = Some x -> k <> u -> u_nostr_pubkey x = Some npub ->
     users d !! u = Some y -> exists e, update_user u (set_npub npub) now d = inl e).
Proof.
  assert (Hwf : users_wf d).
  { eapply steps_stable; [apply user_step_wf|exact Hreach|].
    split; [done|]. split_and!; by intros ?????. }
  pose proof Hwf as (Hid & U1 & U2 & U3 & U4). split; [done|].
  assert (Hfind : forall now p k u, users d !! k = Some u -> p u = true ->
    (forall k' u', users d !! k' = Some u' -> p u' = true -> k' = k) ->
    find_user p now d = inr (d, Some u)).
  { intros now p k u Hk Hp Hq. unfold find_user. repeat f_equal.
    by eapply (find_user_unique d now p); [reflexivity|..]. }
  split_and!.
  - intros now npub k u Hk Hn. apply (Hfind now _ k); [done|..]; unfold is_npub, sql_eq.
    + rewrite Hn. by apply bool_decide_eq_true_2.
    + intros k' u' Hk' Hu'. destruct (u_nostr_pubkey u') eqn:E; [|done].
      apply bool_decide_eq_true in Hu' as [= ->]. exact (U3 k' k u' u npub Hk' Hk E Hn).
  - intros now pkh k u Hk Hn. apply (Hfind now _ k); [done|..]; unfold sql_eq.
    + rewrite Hn. by apply bool_decide_eq_true_2.
    + intros k' u' Hk' Hu'. destruct (u_pubkey_hash u') eqn:E; [|done].
      apply bool_decide_eq_true in Hu' as [= ->]. exact (U2 k' k u' u pkh Hk' Hk E Hn).
  - intros now u npub k x y Hk Hne Hn Hy. unfold update_user. rewrite Hy.
    destruct (update_conflict d (set_npub npub now y)) as [e|] eqn:Hc; [by exists e|].
    exfalso. unfold update_conflict in Hc. repeat (case_hyp Hc; [done|]).
    eapply (not_taken_by_other d); [exact E1|done|exact Hk|by apply Hid| |done].
    simpl. rewrite (Hid u y Hy). done.
Qed.

Definition demo_users_db : Db :=
  empty_db <|users :=
    {[ 1%N := mkUser 1 (Some "al") (Some "h1") (Some "np1") None (Some "f1") None None 0 0 None None;
       2%N := mkUser 2 None None (Some "np2") None None None None 0 0 None None ]}|>.

Definition demo_user_input (name npub : option string) : NewUser :=
  mkNewUser name None npub None None None None.

(** Two registrations from the empty table. *)
Definition demo_two_users : PgError + (Db * User) :=
  match sql_insert_user 1 (demo_user_input (Some "al") (Some "np1")) 5%Z empty_db with
  | inr (d, _) => sql_insert_user 2 (demo_user_input None (Some "np2")) 6%Z d
  | inl e => inl e
  end.

Lemma users_well_typed_witness :
  exists d u, demo_two_users = inr (d, u) /\ users_wf d /\
    exists e, update_user 2 (set_npub "np1") 7%Z d = inl e.
Proof.
  destruct (sql_insert_user 1 (demo_user_input (Some "al") (Some "np1")) 5%Z empty_db)
    as [?|[d1 u1]] eqn:E1; [vm_compute in E1; discriminate|].
  destruct (sql_insert_user 2 (demo_user_input None (Some "np2")) 6%Z d1)
    as [?|[d2 u2]] eqn:E2.
  { vm_compute in E1. injection E1 as <- <-. vm_compute in E2. discriminate. }
  assert (Hr : steps user_step empty_db d2).
  { eapply steps_trans; [apply (steps_once _ 5%Z); by eapply us_insert|].
    apply (steps_once _ 6%Z). by eapply us_insert. }
  destruct (users_well_typed d2 Hr) as (Hwf & _ & _ & Hno).
  exists d2, u2. split; [unfold demo_two_users; by rewrite E1|]. split; [exact Hwf|].
  vm_compute in E1. injection E1 as <- <-. vm_compute in E2. injection E2 as <- <-.
  eapply (Hno 7%Z 2%N "np1" 1%N); [by vm_compute|done|by vm_compute|by vm_compute].
Defined.
