(* ===== verification/AuthApi.v ===== *)
(** Registration and login: the handlers of [src/api/auth.rs] and the gates of
    [RegistrationConfig] in [src/config.rs]. *)

From Stdlib Require Import ZArith Lia Ascii String Strings.Byte.
From stdpp Require Import pretty.
From S2P Require Import Prelude RustStr Errors Db Effects TipStatus SocialTips Transactions Pepper AuditChain Demo Auth Config TipApi Slatepack Nip98 Signatures Challenges Events RelayPolicy Pow Registration Premium Users.

Local Open Scope string_scope.

(** What the handlers read of [AppState]; the configuration is the one in force
    while the request runs. *)
Record AuthState `{Net} := mkAuthState {
  at_sessions : SessionManager;
  at_identity_pepper : string;
  at_ip_salt : string;
  at_refresh_token_pepper : string;
  at_public_api_url : option string;
  at_pow : PowConfig;
  at_registration : RegistrationConfig;
  at_provider : option PaymentProvider;
  at_trusted_proxies : list IpNetwork;
}.

(** [chrono::DateTime::from_timestamp(secs, 0)]. *)
Class Chrono := { from_timestamp : i64 -> option Time }.

Definition NIP98_LOGIN_MAX_AGE_SECS : i64 := 120.
Definition NIP98_ACTION_MAX_AGE_SECS : i64 := 120.
Definition NOSTR_LINK_NONCE_TTL_SECS : i64 := 300.
Definition SIGNED_TS_MAX_DRIFT_SECS : i64 := 300.
Definition RESTORE_FAIL_THRESHOLD : i64 := 3.
Definition RESTORE_IP_THRESHOLD : i64 := 30.

Definition nip98_rejected : AppError := AuthError "Nostr proof rejected. Check that your device date and time are correct, then try again.".

(** * Requests and responses *)

Record UserInfo := mkUserInfo {
  ui_id : Uuid; ui_username : option string; ui_nostr_pubkey : option string }.

Record AuthResponse := mkAuthResponse {
  ar_access_token : string; ar_refresh_token : string; ar_expires_in : i64;
  ar_user : UserInfo; ar_is_new : bool }.

Record AssetPublicKey := mkAssetPublicKey {
  ak_asset : string; ak_public_key : string; ak_public_spend_key : option string }.

Record ExtensionRegisterRequest `{Altcha} := mkExtensionRegisterRequest {
  xr_keys : list AssetPublicKey;
  xr_username : option string;
  xr_wallet_birthday : option i64;
  xr_seed_fingerprint : option string;
  xr_xmr_start_height : option i64;
  xr_wow_start_height : option i64;
  xr_signed_timestamp : i64;
  xr_signature : string;
  xr_rotation_signature : option string;
  xr_altcha_solution : option Payload;
  xr_invite_code : option string;
  xr_payment_invoice_id : option string;
}.

Record NostrRegisterRequest `{Altcha} := mkNostrRegisterRequest {
  nr_nostr_token : string;
  nr_nonce : string;
  nr_keys : list AssetPublicKey;
  nr_username : option string;
  nr_wallet_birthday : option i64;
  nr_seed_fingerprint : option string;
  nr_xmr_start_height : option i64;
  nr_wow_start_height : option i64;
  nr_altcha_solution : option Payload;
  nr_invite_code : option string;
  nr_payment_invoice_id : option string;
}.

Record CheckRestoreResponse := mkCheckRestoreResponse {
  cr_exists : bool;
  cr_keys_valid : option bool;
  cr_xmr_start_height : option i64;
  cr_wow_start_height : option i64;
}.

Record PaymentInvoiceResponse := mkPaymentInvoiceResponse {
  pv_invoice_id : string; pv_pay_to : string; pv_amount : string; pv_currency : string }.

(** * Pure helpers *)

Definition parse_asset (asset : string) : outcome AssetType :=
  let l := to_lowercase asset in
  if l =? "btc" then Ok Btc
  else if l =? "ltc" then Ok Ltc
  else if l =? "xmr" then Ok Xmr
  else if l =? "wow" then Ok Wow
  else if l =? "grin" then Ok Grin
  else Err (ValidationError ("Invalid asset: " ++ l)).

(** [.map(..).collect::<Result<Vec<_>, _>>()]. *)
Fixpoint parse_keys (keys : list AssetPublicKey) : outcome (list RegKey) :=
  match keys with
  | [] => Ok []
  | k :: ks =>
      a ← parse_asset (ak_asset k);
      rest ← parse_keys ks;
      Ok ((a, ak_public_key k, ak_public_spend_key k) :: rest)
  end.

Definition username_char (c : ascii) : bool :=
  is_ascii_lower c || is_ascii_digit c || Ascii.eqb c "_".

Fixpoint ends_with_char (c : ascii) (s : string) : bool :=
  match s with
  | EmptyString => false
  | String a EmptyString => Ascii.eqb a c
  | String _ s' => ends_with_char c s'
  end.

Definition validate_username (username : string) : outcome unit :=
  if (len username <? 3)%nat || (32 <? len username)%nat
  then Err (ValidationError "Username must be 3-32 characters")
  else if negb (all_chars username_char username)
  then Err (ValidationError
    "Username must contain only lowercase letters, numbers, and underscores")
  else if is_some (RustStr.strip_prefix "_" username) || ends_with_char "_" username
  then Err (ValidationError "Username cannot start or end with underscore")
  else Ok tt.

Definition user_info (u : User) : UserInfo :=
  mkUserInfo (u_id u) (u_username u) (u_nostr_pubkey u).

Definition hash_public_key `{Ext} (public_key : string) : string :=
  hex_encode (sha256 (list_byte_of_string public_key)).

Definition btc_key_of (keys : list AssetPublicKey) : option AssetPublicKey :=
  find (fun k => eq_ignore_ascii_case (ak_asset k) "btc") keys.

Inductive GatePlan := GOpen | GAll | GInvite | GPayment | GRejectBothPresented | GRequireOne.

Definition plan_gates (mode : GateMode) (require_invite require_payment : bool)
    (has_invite has_payment : bool) : GatePlan :=
  if negb require_invite && negb require_payment then GOpen
  else match mode with
  | GateAll => GAll
  | GateAny =>
      if require_invite && negb require_payment then GInvite
      else if require_payment && negb require_invite then GPayment
      else match has_invite, has_payment with
           | true, true => GRejectBothPresented
           | true, false => GInvite
           | false, true => GPayment
           | false, false => GRequireOne
           end
  end.

Record GatedRegistration := mkGatedRegistration {
  gr_invite_code_hash : option string;
  gr_payment : option (string * string);
}.

(** [s.map(str::trim).filter(|s| !s.is_empty())]. *)
Definition presented (s : option string) : option string := non_empty (trim <$> s).

Definition require_invite_hash `{Ext} (invite_code : option string) : outcome string :=
  code ← ok_or (presented invite_code)
    (ValidationError "An invite code is required to register on this instance.");
  Ok (hash_invite_code code).

(** [i64::abs] of a difference, both checked. *)
Definition i64_checked_sub_abs (a b : i64) : option Z :=
  let d := (a - b)%Z in
  if (I64_MIN <? d)%Z && (d <=? I64_MAX)%Z then Some (Z.abs d) else None.

Definition is_ascii_graphic (c : ascii) : bool := (33 <=? code c)%nat && (code c <=? 126)%nat.

(** [.map_err(|_| AuthError(NIP98_REJECTED_MSG))]. *)
Definition nip98_or_reject {A} (v : verdict A) : outcome A :=
  match v with Accepted a => Ok a | Rejected _ => Err nip98_rejected | Panicked => Panic end.

(** * Handlers *)

Section handlers.
Context `{Ext} `{Hmac} `{Jwt} `{Nostr} `{Curves} `{Altcha} `{Net} `{Chrono} (state : AuthState).

(** The methods of [Database] with the secrets of this instance. *)
Abbreviation pep := (at_identity_pepper state).

Definition pow_applies (pubkey_hash_lc : string) : bool :=
  pow_enabled (at_pow state) && required_for (at_pow state) pubkey_hash_lc.

Definition nip98_url (path : string) : outcome string :=
  base ← ok_or (at_public_api_url state) (AuthError "Nostr authentication is not enabled");
  Ok (trim_end_char "/" base ++ path).

Definition rotation_message (new_pubkey_hash : string) (signed_timestamp : i64)
  : option string :=
  instance ← at_public_api_url state;
  Some ("smirk-rotate-v1|" ++ trim_end_char "/" instance ++ "|" ++ new_pubkey_hash ++ "|"
        ++ pretty signed_timestamp).

Definition issue_session (user_id : Uuid) (p : Platform) (device_info : string)
  : M TokenPair :=
  session_id ← gen_random_uuid;
  now ← utc_now;
  pair ← lift (create_token_pair (at_sessions state) now user_id p session_id);
  let refresh_token_hash :=
    hash_refresh_token (refresh_token pair) (at_refresh_token_pepper state) in
  expires ← utc_now;
  _ ← create_session (mkNewSession session_id user_id refresh_token_hash (platform_as_str p)
        (Some device_info)
        (expires + sm_refresh_token_expiry_days (at_sessions state) * DAY)%Z);
  mret pair.

Fixpoint upsert_all_keys (user_id : Uuid) (keys : list AssetPublicKey) : M unit :=
  match keys with
  | [] => mret tt
  | key :: rest =>
      a ← lift (parse_asset (ak_asset key));
      _ ← upsert_user_key (mkNewUserKey user_id a (ak_public_key key)
            (ak_public_spend_key key) "primary");
      upsert_all_keys user_id rest
  end.

(** The end of every login: the session, the login event (whose failure is
    ignored), the response. *)
Definition log_in (u : User) (p : Platform) (device asset : string) (ip : option string)
    (is_new : bool) : M AuthResponse :=
  pair ← issue_session (u_id u) p device;
  _ ← swallow (record_login_event (Some (u_id u)) asset (platform_as_str p) None ip);
  mret (mkAuthResponse (access_token pair) (refresh_token pair) (expires_in pair)
          (user_info u) is_new).

Definition pow_challenge : M AltchaChallenge := issue_challenge (at_pow state).

Definition enforce_pow (pubkey_hash_lc : string) (returning : bool)
    (solution : option Payload) : M unit :=
  if returning then mret tt
  else if pow_applies pubkey_hash_lc then
    solution ← lift (ok_or solution (ValidationError "Proof-of-work solution is required to create a new wallet. Please upgrade to a newer Smirk client."));
    verify_payload (at_pow state) solution
  else match solution with
  | Some solution => if pow_enabled (at_pow state) then verify_payload (at_pow state) solution
                     else mret tt
  | None => mret tt
  end.

Definition unknown_invoice : AppError := ValidationError "Unknown or invalid payment invoice.".

Definition verify_payment_settled (returning : bool) (pubkey_hash : string)
    (payment_invoice_id : option string) : M (option string) :=
  if returning || negb (pc_require_payment (rg_payment (at_registration state)))
  then mret None
  else
    provider ← lift (ok_or (at_provider state) (Internal "payment provider not configured"));
    id ← lift (ok_or (presented payment_invoice_id) (ValidationError "Registration on this instance requires payment. Request an invoice from /auth/payment-invoice, pay it, then retry."));
    found ← get_payment_invoice id;
    row ← lift (match found with
                | Some r => if pi_pubkey_hash r =? pubkey_hash then Ok r else Err unknown_invoice
                | None => Err unknown_invoice
                end);
    if is_some (pi_consumed_at row)
    then fail (ValidationError "This payment invoice has already been used.")
    else
      invoice ← upstream (pp_get_invoice provider id);
      if negb (bool_decide (iv_status invoice = InvSettled))
      then fail (PaymentPending "Payment not yet confirmed. Complete the payment and retry.")
      else match iv_bind invoice with
      | Some bound => if negb (bound =? pubkey_hash) then fail unknown_invoice
                      else mret (Some id)
      | None => mret (Some id)
      end.

Definition plan_gate_consume (pubkey_hash : string) (invite_code payment_invoice_id : option string)
  : M GatedRegistration :=
  let reg := at_registration state in
  let bound_payment :=
    settled ← verify_payment_settled false pubkey_hash payment_invoice_id;
    mret ((fun id => (id, pubkey_hash)) <$> settled) in
  match plan_gates (rg_gate_mode reg) (rg_require_invite reg)
          (pc_require_payment (rg_payment reg))
          (is_some (presented invite_code)) (is_some (presented payment_invoice_id)) with
  | GOpen => mret (mkGatedRegistration None None)
  | GAll =>
      invite_code_hash ← lift (if rg_require_invite reg
                               then Some <$> require_invite_hash invite_code else Ok None);
      payment ← bound_payment;
      mret (mkGatedRegistration invite_code_hash payment)
  | GInvite =>
      h ← lift (require_invite_hash invite_code);
      mret (mkGatedRegistration (Some h) None)
  | GPayment =>
      payment ← bound_payment;
      mret (mkGatedRegistration None payment)
  | GRejectBothPresented =>
      fail (ValidationError "Present exactly one registration method, not both.")
  | GRequireOne =>
      fail (ValidationError "Registration on this instance requires an invite code or a settled payment. Choose one and retry.")
  end.

Definition ensure_username_available (returning : bool) (username : option string) : M unit :=
  if returning then mret tt
  else match presented username with
  | Some name =>
      taken ← get_user_by_username name;
      if is_some taken
      then fail (Conflict "That username is already taken. Choose another.") else mret tt
  | None => mret tt
  end.

(** The rotation proof: a signature of the rotation message under the BTC key on
    file. *)
Definition rotation_proven (req : ExtensionRegisterRequest) (stored_btc : option UserKey)
    (pubkey_hash : string) : bool :=
  match xr_rotation_signature req, stored_btc,
        rotation_message pubkey_hash (xr_signed_timestamp req) with
  | Some sig, Some stored, Some msg =>
      is_ok (verify_bitcoin_signature msg sig (uk_public_key stored))
  | _, _, _ => false
  end.

(** The fingerprint branch: [Some] response when the row of the fingerprint is
    adopted or re-pointed. *)
Definition rotate_or_adopt (req : ExtensionRegisterRequest) (btc_key : AssetPublicKey)
    (pubkey_hash : string) (ip : string) : M (option AuthResponse) :=
  let move (target : User) :=
    _ ← enforce_pow (to_lowercase pubkey_hash) false (xr_altcha_solution req);
    _ ← update_pubkey_hash pep (u_id target) pubkey_hash;
    _ ← upsert_all_keys (u_id target) (xr_keys req);
    resp ← log_in target Extension "Browser Extension" "btc" (Some ip) false;
    mret (Some resp) in
  match xr_seed_fingerprint req with
  | None => mret None
  | Some fp =>
      found ← get_user_by_seed_fingerprint pep fp;
      match found with
      | None => mret None
      | Some target =>
          stored_btc ← get_user_key (u_id target) Btc;
          if is_none (u_pubkey_hash target)
             && match stored_btc with
                | Some stored => uk_public_key stored =? ak_public_key btc_key
                | None => false
                end
          then move target
          else if rotation_proven req stored_btc pubkey_hash then move target
          else mret None
      end
  end.

(** Never another row's fingerprint. *)
Definition fingerprint_for_row (fp : option string) (me : option User) : M (option string) :=
  match fp with
  | None => mret None
  | Some fp =>
      owner ← get_user_by_seed_fingerprint pep fp;
      let belongs_to_other := match owner, me with
        | Some owner, Some me => negb (bool_decide (u_id owner = u_id me))
        | Some _, None => true
        | None, _ => false
        end in
      mret (if belongs_to_other then None else Some fp)
  end.

Definition extension_register (peer : IpAddr) (h : HeaderMap) (req : ExtensionRegisterRequest)
  : M AuthResponse :=
  let ip := ip_to_string (client_ip (at_trusted_proxies state) h peer) in
  btc_key ← lift (ok_or (btc_key_of (xr_keys req))
    (ValidationError "BTC public key is required"));
  let pubkey_hash := hash_public_key (ak_public_key btc_key) in
  _ ← lift (match xr_username req with Some u => validate_username u | None => Ok tt end);
  clock ← utc_now;
  drift ← lift (or_panic (i64_checked_sub_abs (timestamp clock) (xr_signed_timestamp req)));
  if (SIGNED_TS_MAX_DRIFT_SECS <? drift)%Z
  then fail (ValidationError "Signed timestamp expired or too far in the future")
  else
    let message := "smirk-auth-" ++ pretty (xr_signed_timestamp req) in
    _ ← lift (verify_bitcoin_signature message (xr_signature req) (ak_public_key btc_key));
    existing_by_pubkey ← get_user_by_pubkey_hash pep pubkey_hash;
    let returning := is_some existing_by_pubkey in
    let birthday := xr_wallet_birthday req ≫= from_timestamp in
    moved ← (if returning then mret None else rotate_or_adopt req btc_key pubkey_hash ip);
    match moved with
    | Some resp => mret resp
    | None =>
        _ ← enforce_pow (to_lowercase pubkey_hash) returning (xr_altcha_solution req);
        fp ← fingerprint_for_row (xr_seed_fingerprint req) existing_by_pubkey;
        user ← (if returning then
            user ← get_or_create_user_by_pubkey_hash pep pubkey_hash (xr_username req) birthday
                     fp (xr_xmr_start_height req) (xr_wow_start_height req);
            _ ← upsert_all_keys (u_id user) (xr_keys req);
            mret user
          else
            _ ← ensure_username_available false (xr_username req);
            gates ← plan_gate_consume pubkey_hash (xr_invite_code req)
                      (xr_payment_invoice_id req);
            keys ← lift (parse_keys (xr_keys req));
            create_user_consuming_gates pep (gr_invite_code_hash gates) (gr_payment gates)
              (mkNewUser (xr_username req) (Some pubkey_hash) None birthday fp
                 (xr_xmr_start_height req) (xr_wow_start_height req)) keys);
        log_in user Extension "Browser Extension" "btc" (Some ip) (negb returning)
    end.

Definition payment_invoice (btc_public_key : string) : M PaymentInvoiceResponse :=
  let cfg := rg_payment (at_registration state) in
  if negb (pc_require_payment cfg)
  then fail (ValidationError "This instance does not require registration payment.")
  else
    provider ← lift (ok_or (at_provider state) (Internal "payment provider not configured"));
    let key := trim btc_public_key in
    if is_empty key || (200 <? len key)%nat || negb (all_chars is_ascii_graphic key)
    then fail (ValidationError "Invalid BTC public key.")
    else
      let pubkey_hash := hash_public_key key in
      known ← get_user_by_pubkey_hash pep pubkey_hash;
      if is_some known
      then fail (ValidationError "This wallet is already registered; no payment is required.")
      else
        invoice ← upstream (pp_create_invoice provider
          (mkInvoiceRequest (pc_amount cfg) (pc_currency cfg) (pc_confirmations cfg)
             pubkey_hash (pc_expires_minutes cfg)));
        _ ← insert_payment_invoice (iv_id invoice) pubkey_hash (pp_kind provider)
              (pc_amount cfg) (pc_currency cfg);
        mret (mkPaymentInvoiceResponse (iv_id invoice) (iv_pay_to invoice) (pc_amount cfg)
                (pc_currency cfg)).

(** One submitted key against the stored ones. *)
Definition key_matches (stored : list UserKey) (submitted : AssetPublicKey) : bool :=
  match parse_asset (ak_asset submitted) with
  | Ok a =>
      match find (fun k => bool_decide (uk_asset k = a)) stored with
      | Some k => uk_public_key k =? ak_public_key submitted
      | None => false
      end
  | _ => false
  end.

Definition check_restore (peer : IpAddr) (h : HeaderMap) (fingerprint : string)
    (keys : list AssetPublicKey) : M CheckRestoreResponse :=
  let ip := ip_to_string (client_ip (at_trusted_proxies state) h peer) in
  let salt := at_ip_salt state in
  if negb (all_chars is_ascii_hexdigit fingerprint)
     || negb ((len fingerprint =? 16)%nat || (len fingerprint =? 64)%nat)
  then fail (ValidationError
    "Invalid fingerprint format (expected 16 or 64 hex characters)")
  else
    ip_attempts ← count_ip_restore_attempts salt ip;
    if (RESTORE_IP_THRESHOLD <=? ip_attempts)%Z then fail RateLimited
    else
      failed ← count_failed_restore_attempts pep fingerprint;
      if (RESTORE_FAIL_THRESHOLD <=? failed)%Z then fail RateLimited
      else
        user ← get_user_by_seed_fingerprint pep fingerprint;
        stored ← (match user with Some u => get_user_keys (u_id u) | None => mret [] end);
        let all_match := negb (bool_decide (keys = [])) && forallb (key_matches stored) keys in
        match user with
        | None =>
            _ ← swallow (record_restore_attempt pep salt fingerprint (Some ip) false);
            mret (mkCheckRestoreResponse false None None None)
        | Some user =>
            _ ← swallow (record_restore_attempt pep salt fingerprint (Some ip) all_match);
            mret (mkCheckRestoreResponse true (Some all_match) (u_xmr_start_height user)
                    (u_wow_start_height user))
        end.
End handlers.

Section sessions.
Context `{Ext} `{Hmac} `{Jwt} `{Nostr} `{Curves} `{Altcha} `{Net} `{Chrono} (state : AuthState).

Abbreviation pep := (at_identity_pepper state).

(** Handler [refresh_token]. *)
Definition refresh_session (token : string) : M AuthResponse :=
  clock ← utc_now;
  ids ← lift (verify_refresh_token (at_sessions state) clock token);
  let '(user_id, _) := (ids : Uuid * Uuid) in
  let token_hash := hash_refresh_token token (at_refresh_token_pepper state) in
  found ← get_session_by_token_hash token_hash;
  session ← lift (ok_or found invalid_token);
  if negb (bool_decide (s_user_id session = user_id)) then fail invalid_token
  else
    known ← get_user_by_id user_id;
    user ← lift (ok_or known invalid_token);
    p ← lift (platform_from_str (s_platform session));
    revoked ← revoke_session (s_id session);
    if negb revoked : bool then fail invalid_token
    else
      pair ← issue_session state (u_id user) p (default "unknown" (s_device_info session));
      _ ← update_user_last_seen (u_id user);
      mret (mkAuthResponse (access_token pair) (refresh_token pair) (expires_in pair)
              (user_info user) false).

(** The response is always [success: true]. *)
Definition logout (token : string) : M bool :=
  let token_hash := hash_refresh_token token (at_refresh_token_pepper state) in
  found ← get_session_by_token_hash token_hash;
  match found with
  | Some session => _ ← swallow (revoke_session (s_id session)); mret true
  | None => mret true
  end.

Definition get_me (h : HeaderMap) : M UserInfo :=
  user_id ← extract_user_id_from_token (at_sessions state) h;
  known ← get_user_by_id user_id;
  user ← lift (ok_or known invalid_token);
  mret (user_info user).

Definition nostr_login (peer : IpAddr) (h : HeaderMap) : M AuthResponse :=
  let ip := ip_to_string (client_ip (at_trusted_proxies state) h peer) in
  auth ← lift (ok_or (header_get h "authorization" ≫= to_str)
    (AuthError "Missing authorization header"));
  url ← lift (nip98_url state "/auth/nostr");
  clock ← utc_now;
  pubkey ← lift (nip98_or_reject
    (verify_nip98 auth url "POST" (timestamp clock) NIP98_LOGIN_MAX_AGE_SECS));
  known ← find_user_by_nostr_pubkey pubkey;
  user ← lift (ok_or known (AuthError "No account is linked to this Nostr identity. Link it from a signed-in session first."));
  log_in state user Auth.Nostr "Nostr" "btc" (Some ip) false.

Definition nostr_link_challenge (h : HeaderMap) : M string :=
  user_id ← extract_user_id_from_token (at_sessions state) h;
  issue_challenge_nonce "nostr_link" (Some (uuid_to_string user_id)) NOSTR_LINK_NONCE_TTL_SECS.

(** The signed action of a link or a registration: the descriptor is that of
    the empty body. *)
Definition signed_npub (path purpose token nonce : string) : M string :=
  url ← lift (nip98_url state path);
  let descriptor := request_descriptor "POST" ("/api/v1" ++ path) "" [] in
  clock ← utc_now;
  lift (nip98_or_reject (verify_signed_action token url "POST" purpose nonce
    (descriptor_sha256 descriptor) None None (timestamp clock) NIP98_ACTION_MAX_AGE_SECS)).

Definition bad_nonce : AppError := AuthError "Invalid or expired nonce".

Definition nostr_link (h : HeaderMap) (token nonce : string) : M string :=
  user_id ← extract_user_id_from_token (at_sessions state) h;
  found ← consume_challenge nonce "nostr_link";
  consumed ← lift (ok_or found bad_nonce);
  if negb (bool_decide (cc_subject consumed = Some (uuid_to_string user_id)))
  then fail bad_nonce
  else
    pubkey ← signed_npub "/auth/nostr/link" "nostr_link" token nonce;
    _ ← set_nostr_pubkey user_id pubkey;
    _ ← swallow (record_login_event (Some user_id) "btc" (platform_as_str Auth.Nostr) None None);
    mret pubkey.

Definition nostr_register_challenge : M string :=
  issue_challenge_nonce "nostr_register" None NOSTR_LINK_NONCE_TTL_SECS.

Definition nostr_register (peer : IpAddr) (h : HeaderMap) (req : NostrRegisterRequest)
  : M AuthResponse :=
  let ip := ip_to_string (client_ip (at_trusted_proxies state) h peer) in
  _ ← lift (match nr_username req with Some u => validate_username u | None => Ok tt end);
  found ← consume_challenge (nr_nonce req) "nostr_register";
  _ ← lift (ok_or found bad_nonce);
  pubkey ← signed_npub "/auth/nostr/register" "nostr_register" (nr_nostr_token req) (nr_nonce req);
  known ← find_user_by_nostr_pubkey pubkey;
  let returning := is_some known in
  _ ← enforce_pow state pubkey returning (nr_altcha_solution req);
  let birthday := nr_wallet_birthday req ≫= from_timestamp in
  user ← (if returning then
      user ← get_or_create_user_by_nostr_pubkey pep pubkey (nr_username req) birthday
               (nr_seed_fingerprint req) (nr_xmr_start_height req) (nr_wow_start_height req);
      _ ← upsert_all_keys (u_id user) (nr_keys req);
      mret user
    else
      owner ← (match nr_seed_fingerprint req with
               | Some fp => get_user_by_seed_fingerprint pep fp
               | None => mret None
               end);
      if is_some owner then fail link_instead
      else
        _ ← ensure_username_available false (nr_username req);
        let btc_hash := (fun k => hash_public_key (ak_public_key k)) <$> btc_key_of (nr_keys req) in
        gates ← plan_gate_consume state (default pubkey btc_hash) (nr_invite_code req)
                  (nr_payment_invoice_id req);
        keys ← lift (parse_keys (nr_keys req));
        create_user_consuming_gates pep (gr_invite_code_hash gates) (gr_payment gates)
          (mkNewUser (nr_username req) None (Some pubkey) birthday (nr_seed_fingerprint req)
             (nr_xmr_start_height req) (nr_wow_start_height req)) keys);
  log_in state user Auth.Nostr "Nostr" "nostr" (Some ip) (negb returning).
End sessions.
