(* ===== verification/AuthSafety.v ===== *)
(** What registration and login can do to an account: nothing without its own
    key. *)

From Stdlib Require Import ZArith Lia Ascii String Strings.Byte.
From stdpp Require Import pretty.
From S2P Require Import Prelude RustStr Errors Db Effects TipStatus SocialTips Transactions Pepper AuditChain Demo Auth Config TipApi Slatepack Nip98 Signatures Challenges Events RelayPolicy Pow Registration Premium Users AuthApi.

Local Open Scope string_scope.

(** * An account as it was *)

(** Every row is filed under its own id. *)
Definition users_filed (d : Db) : Prop := forall k u, users d !! k = Some u -> u_id u = k.
Definition sessions_filed (d : Db) : Prop :=
  forall k s, sessions d !! k = Some s -> s_id s = k.
Definition filed (d : Db) : Prop := users_filed d /\ keys_filed d /\ sessions_filed d.

(** The account [v] of [d0] as it was: its row, its keys, and its sessions, each as
    it was, none more and none less. *)
Definition untouched (v : Uuid) (d0 d : Db) : Prop :=
  filed d /\ users d !! v = users d0 !! v /\
  (forall a t, user_keys d !! (v, a, t) = user_keys d0 !! (v, a, t)) /\
  (forall k s, s_user_id s = v -> sessions d !! k = Some s <-> sessions d0 !! k = Some s).

Section untouched.
Context `{Ext} `{Hmac} (v : Uuid) (d0 : Db) (r : User).
Context (Hr : users d0 !! v = Some r).

Abbreviation P := (untouched v d0).

Lemma untouched_id d k u : P d -> users d !! k = Some u -> u_id u = k.
Proof. intros ((Hf & _) & _). apply Hf. Qed.

Lemma untouched_keys d : P d -> keys_filed d.
Proof. by intros ((_ & Hk & _) & _). Qed.

(** A statement elsewhere. *)
Lemma untouched_frame d d' :
  P d -> users d' = users d -> user_keys d' = user_keys d -> sessions d' = sessions d -> P d'.
Proof. unfold untouched, filed, users_filed, keys_filed, sessions_filed. by intros ? -> -> ->. Qed.

Lemma untouched_exists d : P d -> users d !! v = Some r.
Proof. by intros (_ & -> & _). Qed.

Lemma untouched_insert_user d d' k x :
  P d -> k <> v -> u_id x = k -> users d' = <[k := x]> (users d) ->
  (forall a t, user_keys d' !! (v, a, t) = user_keys d !! (v, a, t)) -> keys_filed d' ->
  sessions d' = sessions d -> P d'.
Proof.
  intros ((Hf & _ & Hsf) & Hv & Hk & Hs) Hne Hx Hu Hk' Hkf Hs'.
  unfold untouched, filed, users_filed, sessions_filed.
  rewrite Hu, Hs'. split_and!; [|done..|by rewrite lookup_insert_ne|by intros; rewrite Hk'|done].
  intros k' y [[<- <-]|[_ Hl]]%lookup_insert_Some; [done|by apply Hf].
Qed.

Lemma update_user_untouched u set_ t d d' res :
  u <> v -> (forall x, u_id (set_ t x) = u_id x) ->
  P d -> update_user u set_ t d = inr (d', res) -> P d' /\ forall x, res = Some x -> u_id x = u.
Proof.
  intros Hne Hset HP Hup. unfold update_user in Hup.
  destruct (users d !! u) as [x|] eqn:Hx; [|by injection Hup as <- <-].
  destruct (update_conflict _ _); [done|]. injection Hup as <- <-.
  assert (Hid : u_id (set_ t x) = u) by (rewrite Hset; exact (untouched_id d u x HP Hx)).
  split; [apply (untouched_insert_user d _ u (set_ t x)); try done; exact (untouched_keys d HP)|]. by intros ? [= <-].
Qed.

Lemma insert_user_untouched k n t d d' x :
  P d -> sql_insert_user k n t d = inr (d', x) -> P d' /\ u_id x <> v.
Proof.
  intros HP Hi. unfold sql_insert_user in Hi. destruct (user_conflict d k n) eqn:Hc; [done|].
  injection Hi as <- <-. unfold user_conflict in Hc. destruct (is_some (users d !! k)) eqn:E; [done|].
  assert (k <> v) as Hne by (intros ->; by rewrite (untouched_exists d HP) in E).
  split; [|done]. apply (untouched_insert_user d _ k (new_user_row k n t)); try done. exact (untouched_keys d HP).
Qed.

Lemma register_untouched pep uid ids inv pay n keys c t d d' x :
  P d -> registration_tx pep uid ids inv pay n keys c t d = inr (d', x) -> P d' /\ u_id x <> v.
Proof.
  intros HP Htx. pose proof (registration_filed _ _ _ _ _ _ _ _ _ _ _ _ Htx (untouched_keys d HP)) as Hkf.
  apply registration_tx_inr in Htx as (_ & _ & Hreg).
  destruct Hreg as (Hc & _ & Hd' & Hk & Hs & _).
  unfold user_conflict in Hc. destruct (is_some (users d !! u_id x)) eqn:E; [done|].
  assert (u_id x <> v) as Hne by (intros Hxv; rewrite Hxv, (untouched_exists d HP) in E; done).
  split; [|done]. eapply (untouched_insert_user d d' (u_id x) x); try done.
  intros a t'. by apply Hk.
Qed.

Lemma upsert_key_untouched k n t d d' x :
  nk_user_id n <> v -> P d -> sql_upsert_user_key k n t d = inr (d', x) -> P d'.
Proof.
  intros Hne ((Hf & Hkf & Hsf) & Hv & Hk & Hs) E. pose proof (upsert_key_filed _ _ _ _ _ _ E Hkf) as Hkf'.
  unfold sql_upsert_user_key in E. case_hyp E; [done|].
  injection E as <- _. split_and!; [done..| |done]. intros a t'. simpl.
  rewrite lookup_insert_ne; [apply Hk|congruence].
Qed.

(** A session of another account is written. *)
Lemma put_session_untouched d k s :
  P d -> s_id s = k -> s_user_id s <> v ->
  (forall s0, sessions d !! k = Some s0 -> s_user_id s0 <> v) ->
  P (d <|sessions := <[k := s]> (sessions d)|>).
Proof.
  intros ((Hf & Hkf & Hsf) & Hv & Hk & Hs) Hid Hne Hold.
  unfold untouched, filed, sessions_filed. split_and!; try done; simpl.
  - intros k' y [[<- <-]|[_ Hl]]%lookup_insert_Some; [done|by apply Hsf].
  - intros k' y Hy. rewrite <- Hs by done. split.
    + intros [[<- <-]|[_ Hl]]%lookup_insert_Some; done.
    + intros Hl. apply lookup_insert_Some. right. split; [|done]. intros <-. by apply (Hold y).
Qed.

Lemma create_session_untouched n t d d' x :
  ns_user_id n <> v -> P d -> sql_create_session n t d = inr (d', x) -> P d'.
Proof.
  intros Hne ((Hf & Hkf & Hsf) & Hv & Hk & Hs) E. unfold sql_create_session in E.
  destruct (sessions d !! ns_id n) eqn:Hn; [done|]. case_hyp E; [|done]. injection E as <- _.
  apply (put_session_untouched d (ns_id n)); try done. by rewrite Hn.
Qed.

(** A session found under another account's name is not one of the account's. *)
Definition foreign_session (s : Session) : Prop :=
  forall s0, sessions d0 !! s_id s = Some s0 -> s_user_id s0 <> v.

Lemma foreign_found d k s :
  P d -> sessions d !! k = Some s -> s_user_id s <> v -> foreign_session s.
Proof.
  intros ((_ & _ & Hsf) & _ & _ & Hs) Hl Hne s0 Hl0 Hv. rewrite (Hsf k s Hl) in Hl0.
  apply (Hs k s0 Hv) in Hl0. congruence.
Qed.

Lemma revoke_session_untouched s t d d' n :
  foreign_session s -> P d -> sql_revoke_session (s_id s) t d = inr (d', n) -> P d'.
Proof.
  intros Hfs HP E. unfold sql_revoke_session in E.
  destruct (sessions d !! s_id s) as [y|] eqn:Ey; [|by injection E as <- _].
  case_hyp E; injection E as <- _; [|done]. pose proof HP as ((_ & _ & Hsf) & _ & _ & Hs).
  assert (Hy : s_user_id y <> v).
  { intros Hv. apply (Hs _ y Hv) in Ey. by apply (Hfs y). }
  apply (put_session_untouched d (s_id s)); try done; [by apply (Hsf _ y)|].
  intros s0 Hs0. congruence.
Qed.

(** ** Programs *)

Context (G : (nat -> Uuid) -> Prop).
Abbreviation T := (triple G (keeps P) P).

Lemma triple_elsewhere {A} on_err (s : Stmt A) :
  (forall t d d' x, s t d = inr (d', x) ->
     users d' = users d /\ user_keys d' = user_keys d /\ sessions d' = sessions d) ->
  T (run_stmt on_err s) (fun _ => True).
Proof.
  intros Hs. apply triple_keeps. intros t d d' x HP E. split; [|done].
  apply Hs in E as (? & ? & ?). by eapply untouched_frame.
Qed.

(** A read of one row of the table. *)
Lemma triple_find_user on_err p (Q : option User -> Prop) :
  Q None -> (forall u, p u = true -> (u_id u = v -> u = r) -> Q (Some u)) ->
  T (run_stmt on_err (find_user p)) Q.
Proof.
  intros H1 H2. apply triple_keeps. intros t d d' x HP E. injection E as <- <-. split; [done|].
  destruct (head _) as [u|] eqn:Hh; [|done].
  apply head_Some_elem_of, list_elem_of_filter in Hh as [Hp Hin].
  apply elem_of_user_rows in Hin as [k Hk]. apply H2; [done|]. intros Hu.
  assert (u_id u = k) as Hid by (by apply HP).
  assert (users d !! v = Some r) by (by apply untouched_exists). congruence.
Qed.

Lemma triple_update_user on_err u set_ :
  u <> v -> (forall t x, u_id (set_ t x) = u_id x) ->
  T (run_stmt on_err (update_user u set_)) (fun o => forall x, o = Some x -> u_id x = u).
Proof.
  intros Hne Hset. apply triple_keeps. intros t d d' x HP E.
  by eapply update_user_untouched.
Qed.

Lemma triple_create_user pep n : T (create_user pep n) (fun u => u_id u <> v).
Proof.
  unfold create_user. eapply triple_bind; [apply triple_gen_random_uuid|]. intros k _.
  apply triple_keeps. intros t d d' x HP E. by eapply insert_user_untouched.
Qed.

Lemma triple_gen_ids n : T (gen_ids n) (fun _ => True).
Proof.
  induction n as [|n IH]; simpl; [by apply triple_ret|].
  eapply triple_bind; [apply triple_gen_random_uuid|]. intros k _.
  eapply triple_bind; [apply IH|]. intros ks _. by apply triple_ret.
Qed.

Lemma triple_create_gated pep inv pay n keys :
  T (create_user_consuming_gates pep inv pay n keys) (fun u => u_id u <> v).
Proof.
  unfold create_user_consuming_gates.
  eapply triple_bind; [apply triple_gen_random_uuid|]. intros uid _.
  eapply triple_bind; [apply triple_gen_ids|]. intros ids _.
  apply triple_run_tx; [apply keeps_stable|]. intros c now d d' x HP E.
  apply register_untouched in E as [HP' Hne]; [|done]. split; [|done].
  apply (steps_once _ now). by intros _.
Qed.

Lemma triple_backfill pep x b f xm w :
  u_id x <> v -> T (backfill_optionals pep x b f xm w) (fun u => u_id u <> v).
Proof.
  intros Hne. unfold backfill_optionals. destruct (negb _); [by apply triple_ret|].
  apply triple_keeps. intros t d d' u HP E. unfold fetch_one in E.
  destruct (update_user _ _ t d) as [e|[d1 [u1|]]] eqn:Hup; [done| |done].
  injection E as <- <-. apply update_user_untouched in Hup as [HP' Hid]; [|done..].
  split; [done|]. by rewrite (Hid u1 eq_refl).
Qed.

Lemma triple_upsert_keys u keys :
  u <> v -> T (upsert_all_keys u keys) (fun _ => True).
Proof.
  intros Hne. induction keys as [|k ks IH]; simpl; [by apply triple_ret|].
  eapply (triple_bind _ _ _ _ _ (fun _ => True)); [by apply triple_lift|]. intros a _.
  eapply (triple_bind _ _ _ _ _ (fun _ => True)); [|intros; apply IH].
  unfold upsert_user_key. eapply triple_bind; [apply triple_gen_random_uuid|]. intros k' _.
  apply triple_keeps. intros t d d' x HP E. split; [|done].
  exact (upsert_key_untouched k' (mkNewUserKey u a _ _ _) t d d' x Hne HP E).
Qed.

Lemma triple_login_event u a p o ip : T (record_login_event u a p o ip) (fun _ => True).
Proof.
  unfold record_login_event. eapply triple_bind; [apply triple_gen_random_uuid|]. intros k _.
  apply triple_elsewhere. intros t d d' x E. unfold sql_record_login_event in E.
  repeat (case_hyp E; [done|]). by injection E as <- _.
Qed.

Lemma triple_last_seen u : u <> v -> T (update_user_last_seen u) (fun _ => True).
Proof.
  intros Hne. apply triple_keeps. intros t d d' y HP E. split; [|done]. injection E as <- <-.
  destruct HP as ((Hf & Hkf & Hsf) & Hv & Hk & Hs). unfold untouched, filed, users_filed.
  split_and!; [|done|done| |done|done].
  - intros k z Hl. simpl in Hl. apply lookup_alter_Some in Hl as [(<- & z' & Hz & ->)|[_ Hl]];
      [simpl|]; by apply Hf.
  - simpl. by rewrite lookup_alter_ne.
Qed.

Lemma triple_verify_payload `{Altcha} cfg p : T (verify_payload cfg p) (fun _ => True).
Proof.
  unfold verify_payload. triple_steps. apply (triple_keeps_memory _ _ _ (fun _ => True)).
  intros t d d' x HP E. injection E as <- _. split; [|done]. by eapply untouched_frame.
Qed.

End untouched.

(** * The handlers *)

Section handlers.
Context `{Ext} `{Hmac} `{Jwt} `{Nostr} `{Curves} `{Altcha} `{Net} `{Chrono} (state : AuthState).
Context (v : Uuid) (d0 : Db) (r : User) (Hr : users d0 !! v = Some r).
Context (G : (nat -> Uuid) -> Prop).

Abbreviation pep := (at_identity_pepper state).
Abbreviation P := (untouched v d0).
Abbreviation T := (triple G (keeps P) P).

Definition not_theirs (resp : AuthResponse) : Prop := ui_id (ar_user resp) <> v.

Lemma triple_issue_session u p dev :
  u <> v -> T (issue_session state u p dev) (fun _ => True).
Proof.
  intros Hne. unfold issue_session.
  eapply triple_bind; [apply triple_gen_random_uuid|]. intros sid _.
  eapply triple_bind; [apply triple_utc_now|]. intros now _.
  eapply (triple_bind _ _ _ _ _ (fun _ => True)); [by apply triple_lift|]. intros pair _.
  eapply triple_bind; [apply triple_utc_now|]. intros ex _.
  eapply (triple_bind _ _ _ _ _ (fun _ => True)); [|intros; by apply triple_ret].
  apply triple_keeps. intros t d d' x HP E. split; [|done].
  by eapply create_session_untouched; [|exact HP|exact E].
Qed.

Lemma triple_log_in u p dev a ip b :
  u_id u <> v -> T (log_in state u p dev a ip b) not_theirs.
Proof.
  intros Hne. unfold log_in.
  eapply triple_bind; [by apply triple_issue_session|]. intros pair _.
  eapply (triple_bind _ _ _ _ _ (fun _ => True)).
  { eapply triple_swallow; [apply triple_login_event|done]. }
  intros _ _. by apply triple_ret.
Qed.

Lemma triple_enforce_pow h b s : T (enforce_pow state h b s) (fun _ => True).
Proof.
  unfold enforce_pow. destruct b; [by apply triple_ret|].
  destruct (pow_applies state h).
  - eapply (triple_bind _ _ _ _ _ (fun _ => True)); [by apply triple_lift|].
    intros. apply triple_verify_payload.
  - destruct s; [|by apply triple_ret].
    destruct (pow_enabled _); [apply triple_verify_payload|by apply triple_ret].
Qed.

Lemma triple_username b n : T (ensure_username_available b n) (fun _ => True).
Proof.
  unfold ensure_username_available. destruct b; [by apply triple_ret|].
  destruct (presented n); [|by apply triple_ret].
  eapply triple_bind; [|intros o _; destruct (is_some o); [by apply triple_lift|by apply triple_ret]].
  apply triple_elsewhere. intros t d d' x E. by injection E as <- _.
Qed.

Lemma triple_settled b h i : T (verify_payment_settled state b h i) (fun _ => True).
Proof.
  unfold verify_payment_settled. destruct (_ || _); [by apply triple_ret|].
  eapply (triple_bind _ _ _ _ _ (fun _ => True)); [by apply triple_lift|]. intros p _.
  eapply (triple_bind _ _ _ _ _ (fun _ => True)); [by apply triple_lift|]. intros id _.
  eapply (triple_bind _ _ _ _ _ (fun _ => True)).
  { apply triple_elsewhere. intros t d d' x E. by injection E as <- _. }
  intros found _.
  eapply (triple_bind _ _ _ _ _ (fun _ => True)); [by apply triple_lift|]. intros row _.
  triple_steps; apply triple_upstream_any.
Qed.

Lemma triple_plan_gates h i p : T (plan_gate_consume state h i p) (fun _ => True).
Proof.
  assert (Hb : T (settled ← verify_payment_settled state false h p;
                  mret ((fun id => (id, h)) <$> settled)) (fun _ => True)).
  { eapply triple_bind; [apply triple_settled|]. intros. by apply triple_ret. }
  unfold plan_gate_consume. destruct (plan_gates _ _ _ _ _); try (by apply triple_ret);
    try (by apply triple_lift).
  - eapply (triple_bind _ _ _ _ _ (fun _ => True)); [by apply triple_lift|]. intros c _.
    eapply triple_bind; [exact Hb|]. intros. by apply triple_ret.
  - eapply (triple_bind _ _ _ _ _ (fun _ => True)); [by apply triple_lift|].
    intros. by apply triple_ret.
  - eapply triple_bind; [exact Hb|]. intros. by apply triple_ret.
Qed.

(** A lookup of a value the account does not have finds another row. *)
Lemma triple_by_pubkey_hash h :
  u_pubkey_hash r <> Some (pepper pep "pubkey_hash" h) ->
  T (get_user_by_pubkey_hash pep h) (fun o => forall u, o = Some u -> u_id u <> v).
Proof.
  intros Hno. eapply triple_find_user; [exact Hr|done|].
  intros u Hp Hu ? [= <-] Hid. rewrite (Hu Hid) in Hp. unfold sql_eq in Hp.
  destruct (u_pubkey_hash r); [|done]. apply bool_decide_eq_true in Hp. congruence.
Qed.

Lemma triple_by_npub npub :
  u_nostr_pubkey r <> Some npub ->
  T (find_user_by_nostr_pubkey npub) (fun o => forall u, o = Some u -> u_id u <> v).
Proof.
  intros Hno. eapply triple_find_user; [exact Hr|done|].
  intros u Hp Hu ? [= <-] Hid. rewrite (Hu Hid) in Hp. unfold is_npub, sql_eq in Hp.
  destruct (u_nostr_pubkey r); [|done]. apply bool_decide_eq_true in Hp. congruence.
Qed.

Lemma triple_by_fingerprint fp :
  T (get_user_by_seed_fingerprint pep fp) (fun o => forall u, o = Some u -> u_id u = v ->
     u = r /\ u_seed_fingerprint r = Some (pepper pep "seed_fingerprint" fp)).
Proof.
  eapply triple_find_user; [exact Hr|done|]. intros u Hp Hu ? [= <-] Hid.
  specialize (Hu Hid) as ->. split; [done|]. unfold sql_eq in Hp.
  destruct (u_seed_fingerprint r); [|done]. by apply bool_decide_eq_true in Hp as ->.
Qed.

Lemma triple_stored_key u :
  T (get_user_key u Btc) (fun o => u = v -> o = user_keys d0 !! (v, Btc, "primary")).
Proof.
  apply triple_keeps. intros t d d' x HP E. injection E as <- <-. split; [done|].
  intros ->. apply HP.
Qed.

Lemma triple_get_or_create h n b f xm w :
  u_pubkey_hash r <> Some (pepper pep "pubkey_hash" h) ->
  T (get_or_create_user_by_pubkey_hash pep h n b f xm w) (fun u => u_id u <> v).
Proof.
  intros Hno. unfold get_or_create_user_by_pubkey_hash.
  eapply triple_bind; [by apply triple_by_pubkey_hash|]. intros [u|] Hu.
  - by apply triple_backfill; eauto.
  - by eapply triple_create_user.
Qed.

Lemma triple_get_or_create_npub npub n b f xm w :
  u_nostr_pubkey r <> Some npub ->
  T (get_or_create_user_by_nostr_pubkey pep npub n b f xm w) (fun u => u_id u <> v).
Proof.
  intros Hno. unfold get_or_create_user_by_nostr_pubkey.
  eapply triple_bind; [by apply triple_by_npub|]. intros [u|] Hu.
  { by apply triple_backfill; eauto. }
  destruct f as [f|]; [|by eapply triple_create_user].
  eapply triple_bind; [apply triple_by_fingerprint|]. intros [u|] Hfu; [|by eapply triple_create_user].
  destruct (u_nostr_pubkey u) as [pk|] eqn:Epk; [|by apply triple_lift].
  destruct (pk =? npub) eqn:E; [|by apply triple_lift].
  apply triple_backfill. intros Hid. apply Hno. destruct (Hfu u eq_refl Hid) as [<- _]. rewrite Epk.
  by apply String.eqb_eq in E as ->.
Qed.

(** ** Registration of a wallet *)

(** The signature of the submitted key over the signed timestamp. *)
Definition signed_in (req : ExtensionRegisterRequest) (b : AssetPublicKey) : Prop :=
  verify_bitcoin_signature ("smirk-auth-" ++ pretty (xr_signed_timestamp req))
    (xr_signature req) (ak_public_key b) = Ok tt.

(** The key on file signed the rotation of this instance's account to the new
    identity. *)
Definition rotation_signed (req : ExtensionRegisterRequest) (k : UserKey) (pkh : string) : Prop :=
  exists sig instance, xr_rotation_signature req = Some sig /\
    at_public_api_url state = Some instance /\
    verify_bitcoin_signature ("smirk-rotate-v1|" ++ trim_end_char "/" instance ++ "|" ++ pkh ++ "|"
      ++ pretty (xr_signed_timestamp req)) sig (uk_public_key k) = Ok tt.

(** The request proves control of the account [v] of [d]: it is signed by the
    submitted BTC key, and that key is the account's identity; or the fingerprint
    is the account's and either the account has no identity key and that key is
    its BTC key on file, or its BTC key on file signed the rotation to that
    key. *)
Definition proves_control (d : Db) (req : ExtensionRegisterRequest) : Prop :=
  exists b x, btc_key_of (xr_keys req) = Some b /\ users d !! v = Some x /\ signed_in req b /\
  let pkh := hash_public_key (ak_public_key b) in
  (u_pubkey_hash x = Some (pepper pep "pubkey_hash" pkh) \/
   exists fp k, xr_seed_fingerprint req = Some fp /\
     u_seed_fingerprint x = Some (pepper pep "seed_fingerprint" fp) /\
     user_keys d !! (v, Btc, "primary") = Some k /\
     (u_pubkey_hash x = None /\ uk_public_key k = ak_public_key b \/
      rotation_signed req k pkh)).

Lemma rotation_proven_signed req k pkh :
  rotation_proven state req (Some k) pkh = true -> rotation_signed req k pkh.
Proof.
  unfold rotation_proven, rotation_signed, rotation_message.
  destruct (xr_rotation_signature req) as [sig|]; [|done].
  destruct (at_public_api_url state) as [instance|]; [|done]. intros Hv. exists sig, instance.
  split_and!; [done|done|]. cbn in Hv.
  by destruct (verify_bitcoin_signature _ _ _) as [[]|e|].
Qed.

Lemma rotation_needs_stored req pkh : rotation_proven state req None pkh = false.
Proof. unfold rotation_proven. by destruct (xr_rotation_signature req). Qed.

Lemma triple_move req (u : User) pkh ip :
  u_id u <> v ->
  T (_ ← enforce_pow state (to_lowercase pkh) false (xr_altcha_solution req);
     _ ← update_pubkey_hash pep (u_id u) pkh;
     _ ← upsert_all_keys (u_id u) (xr_keys req);
     resp ← log_in state u Extension "Browser Extension" "btc" (Some ip) false;
     mret (Some resp)) (fun o => forall resp, o = Some resp -> not_theirs resp).
Proof.
  intros Hne. eapply triple_bind; [apply triple_enforce_pow|]. intros _ _.
  eapply (triple_bind _ _ _ _ _ (fun _ => True)).
  { unfold update_pubkey_hash. eapply triple_bind; [by apply triple_update_user|].
    intros. by apply triple_ret. }
  intros _ _. eapply triple_bind; [by apply triple_upsert_keys|]. intros _ _.
  eapply triple_bind; [by apply triple_log_in|]. intros resp Hresp.
  apply triple_ret. by intros ? [= <-].
Qed.

Lemma triple_rotate req b ip :
  ~ proves_control d0 req -> btc_key_of (xr_keys req) = Some b -> signed_in req b ->
  T (rotate_or_adopt state req b (hash_public_key (ak_public_key b)) ip)
    (fun o => forall resp, o = Some resp -> not_theirs resp).
Proof.
  intros Hno Hb Hsig. unfold rotate_or_adopt.
  destruct (xr_seed_fingerprint req) as [fp|] eqn:Efp; [|by apply triple_ret].
  eapply triple_bind; [apply triple_by_fingerprint|]. intros [u|] Hu; [|by apply triple_ret].
  eapply triple_bind; [apply triple_stored_key|]. intros stored Hst.
  assert (Hother : (is_none (u_pubkey_hash u) &&
      match stored with Some k => uk_public_key k =? ak_public_key b | None => false end = true \/
      rotation_proven state req stored (hash_public_key (ak_public_key b)) = true) -> u_id u <> v).
  { intros Hcase Hid. destruct (Hu u eq_refl Hid) as [-> Hfp]. specialize (Hst Hid).
    destruct stored as [k|].
    2: { rewrite rotation_needs_stored in Hcase. rewrite andb_false_r in Hcase. by destruct Hcase. }
    apply Hno. exists b, r. split_and!; [done..|]. right. exists fp, k. split_and!; [done..|].
    destruct Hcase as [Hc|Hc]; [left|right; by apply rotation_proven_signed]. apply andb_true_iff in Hc as [Hn Hk].
    split; [by destruct (u_pubkey_hash r)|by apply String.eqb_eq]. }
  destruct (_ && _) eqn:E1; [apply triple_move; auto|].
  destruct (rotation_proven _ _ _ _) eqn:E2; [apply triple_move; auto|by apply triple_ret].
Qed.

Lemma triple_fingerprint fp me : T (fingerprint_for_row state fp me) (fun _ => True).
Proof.
  unfold fingerprint_for_row. destruct fp as [fp|]; [|by apply triple_ret].
  eapply triple_bind; [apply triple_by_fingerprint|]. intros. by apply triple_ret.
Qed.

Lemma triple_extension peer h req :
  ~ proves_control d0 req -> T (extension_register state peer h req) not_theirs.
Proof.
  intros Hno. unfold extension_register.
  destruct (btc_key_of (xr_keys req)) as [b|] eqn:Eb.
  2: { eapply (triple_bind _ _ _ _ _ (fun _ => False)); [by apply triple_lift|by intros]. }
  eapply (triple_bind _ _ _ _ _ (fun x => x = b)); [apply triple_lift; by intros ? [= <-]|].
  intros ? ->. eapply (triple_bind _ _ _ _ _ (fun _ => True)); [by apply triple_lift|]. intros _ _.
  eapply triple_bind; [apply triple_utc_now|]. intros now _.
  eapply (triple_bind _ _ _ _ _ (fun _ => True)); [by apply triple_lift|]. intros drift _.
  destruct (_ <? _)%Z; [by apply triple_lift|].
  eapply (triple_bind _ _ _ _ _ (fun _ => signed_in req b)).
  { apply triple_lift. by intros [] E. }
  intros _ Hsig.
  assert (Hhash : u_pubkey_hash r <>
      Some (pepper pep "pubkey_hash" (hash_public_key (ak_public_key b)))).
  { intros Hp. apply Hno. exists b, r. split_and!; [done..|]. by left. }
  eapply triple_bind; [by apply triple_by_pubkey_hash|]. intros existing _.
  eapply triple_bind.
  { destruct (is_some existing); [|by apply triple_rotate].
    apply (triple_ret _ _ _ _ (fun o => forall resp, o = Some resp -> not_theirs resp)). done. }
  intros [resp|] Hmoved; [by apply triple_ret, Hmoved|].
  eapply triple_bind; [apply triple_enforce_pow|]. intros _ _.
  eapply triple_bind; [apply triple_fingerprint|]. intros fp _.
  eapply (triple_bind _ _ _ _ _ (fun u => u_id u <> v)); [|intros u Hu; by apply triple_log_in].
  destruct (is_some existing).
  - eapply triple_bind; [by apply triple_get_or_create|]. intros u Hu.
    eapply triple_bind; [by apply triple_upsert_keys|]. intros _ _. by apply triple_ret.
  - eapply triple_bind; [apply triple_username|]. intros _ _.
    eapply triple_bind; [apply triple_plan_gates|]. intros g _.
    eapply (triple_bind _ _ _ _ _ (fun _ => True)); [by apply triple_lift|]. intros ks _.
    by eapply triple_create_gated.
Qed.

(** ** The other ways in *)

(** A NIP-98 login header signed by [p]. *)
Definition login_signer (h : HeaderMap) (p : string) : Prop :=
  exists now auth url, header_get h "authorization" ≫= to_str = Some auth /\
    nip98_url state "/auth/nostr" = Ok url /\
    verify_nip98 auth url "POST" now NIP98_LOGIN_MAX_AGE_SECS = Accepted p.

(** A signed action of the path and purpose, over the nonce, signed by [p]. *)
Definition action_signer (path purpose token nonce p : string) : Prop :=
  exists now url, nip98_url state path = Ok url /\
    verify_signed_action token url "POST" purpose nonce
      (descriptor_sha256 (request_descriptor "POST" ("/api/v1" ++ path) "" [])) None None now
      NIP98_ACTION_MAX_AGE_SECS = Accepted p.

(** A bearer token of [v]; a refresh token of [v]. *)
Definition bearer_of (h : HeaderMap) : Prop :=
  exists tok now info, bearer_token h = Ok tok /\
    verify_access_token (at_sessions state) now tok = Ok info /\ ti_user_id info = v.
Definition refresh_of (tok : string) : Prop :=
  exists now sid, verify_refresh_token (at_sessions state) now tok = Ok (v, sid).

Lemma nip98_or_reject_Ok {A} (x : verdict A) a : nip98_or_reject x = Ok a <-> x = Accepted a.
Proof. destruct x; simpl; naive_solver. Qed.

Lemma triple_signed_npub path purpose token nonce :
  T (signed_npub state path purpose token nonce) (action_signer path purpose token nonce).
Proof.
  unfold signed_npub.
  eapply (triple_bind _ _ _ _ _ (fun u => nip98_url state path = Ok u));
    [apply triple_lift; done|]. intros url Hu.
  eapply triple_bind; [apply triple_utc_now|]. intros now _.
  apply triple_lift. intros p Hp%nip98_or_reject_Ok. by exists (timestamp now), url.
Qed.

Lemma triple_consume nonce purpose : T (consume_challenge nonce purpose) (fun _ => True).
Proof.
  apply triple_elsewhere. intros t d d' x E. unfold sql_consume_challenge in E.
  destruct (challenges d !! nonce) as [c|]; [|by injection E as <- _].
  by case_hyp E; injection E as <- _.
Qed.

Lemma triple_bearer h : T (extract_user_id_from_token (at_sessions state) h)
  (fun u => exists tok now info, bearer_token h = Ok tok /\
     verify_access_token (at_sessions state) now tok = Ok info /\ ti_user_id info = u).
Proof.
  unfold extract_user_id_from_token.
  eapply (triple_bind _ _ _ _ _ (fun tok => bearer_token h = Ok tok));
    [apply triple_lift; done|]. intros tok Htok.
  eapply triple_bind; [apply triple_utc_now|]. intros now _.
  eapply (triple_bind _ _ _ _ _ (fun i => verify_access_token (at_sessions state) now tok = Ok i));
    [apply triple_lift; done|]. intros info Hinfo.
  destruct (ti_session_id info) as [sid|]; [|apply triple_ret; by exists tok, now, info].
  eapply (triple_bind _ _ _ _ _ (fun _ => True)).
  { apply triple_elsewhere. intros t d d' x E. by injection E as <- _. }
  intros live _. destruct (negb live); [by apply triple_lift|].
  apply triple_ret. by exists tok, now, info.
Qed.

Lemma triple_login peer h :
  (forall p, login_signer h p -> u_nostr_pubkey r <> Some p) ->
  T (nostr_login state peer h) not_theirs.
Proof.
  intros Hno. unfold nostr_login.
  eapply (triple_bind _ _ _ _ _ (fun a => header_get h "authorization" ≫= to_str = Some a)).
  { apply triple_lift. by intros a ?%ok_or_Ok. }
  intros auth Hauth.
  eapply (triple_bind _ _ _ _ _ (fun u => nip98_url state "/auth/nostr" = Ok u));
    [apply triple_lift; done|]. intros url Hu.
  eapply triple_bind; [apply triple_utc_now|]. intros now _.
  eapply (triple_bind _ _ _ _ _ (login_signer h)).
  { apply triple_lift. intros p Hp%nip98_or_reject_Ok. by exists (timestamp now), auth, url. }
  intros p Hp. eapply triple_bind; [by apply triple_by_npub, Hno|]. intros known Hk.
  eapply (triple_bind _ _ _ _ _ (fun u => u_id u <> v)); [|intros; by apply triple_log_in].
  apply triple_lift. intros u ->%ok_or_Ok. by apply Hk.
Qed.

Lemma triple_link h token nonce :
  ~ bearer_of h -> T (nostr_link state h token nonce) (fun _ => True).
Proof.
  intros Hno. unfold nostr_link. eapply triple_bind; [apply triple_bearer|].
  intros u (tok & now & info & Ht & Hi & Hu).
  assert (u <> v) by (intros ->; apply Hno; by exists tok, now, info).
  eapply triple_bind; [apply triple_consume|]. intros found _.
  eapply (triple_bind _ _ _ _ _ (fun _ => True)); [by apply triple_lift|]. intros c _.
  destruct (negb _); [by apply triple_lift|].
  eapply triple_bind; [apply triple_signed_npub|]. intros npub _.
  eapply (triple_bind _ _ _ _ _ (fun _ => True)).
  { unfold set_nostr_pubkey. eapply triple_bind; [by apply triple_update_user|].
    intros. by apply triple_ret. }
  intros _ _. eapply (triple_bind _ _ _ _ _ (fun _ => True)); [|intros; by apply triple_ret].
  eapply triple_swallow; [apply triple_login_event|done].
Qed.

Lemma triple_register peer h req :
  (forall p, action_signer "/auth/nostr/register" "nostr_register" (nr_nostr_token req)
     (nr_nonce req) p -> u_nostr_pubkey r <> Some p) ->
  T (nostr_register state peer h req) not_theirs.
Proof.
  intros Hno. unfold nostr_register.
  eapply (triple_bind _ _ _ _ _ (fun _ => True)); [by apply triple_lift|]. intros _ _.
  eapply triple_bind; [apply triple_consume|]. intros found _.
  eapply (triple_bind _ _ _ _ _ (fun _ => True)); [by apply triple_lift|]. intros c _.
  eapply triple_bind; [apply triple_signed_npub|]. intros p Hp%Hno.
  eapply triple_bind; [by apply triple_by_npub|]. intros known _.
  eapply triple_bind; [apply triple_enforce_pow|]. intros _ _.
  eapply (triple_bind _ _ _ _ _ (fun u => u_id u <> v)); [|intros; by apply triple_log_in].
  destruct (is_some known).
  - eapply triple_bind; [by apply triple_get_or_create_npub|]. intros u Hu.
    eapply triple_bind; [by apply triple_upsert_keys|]. intros _ _. by apply triple_ret.
  - eapply (triple_bind _ _ _ _ _ (fun _ => True)).
    { destruct (nr_seed_fingerprint req); [|by apply triple_ret].
      eapply triple_weaken; [apply triple_by_fingerprint|done]. }
    intros owner _. destruct (is_some owner); [by apply triple_lift|].
    eapply triple_bind; [apply triple_username|]. intros _ _.
    eapply triple_bind; [apply triple_plan_gates|]. intros g _.
    eapply (triple_bind _ _ _ _ _ (fun _ => True)); [by apply triple_lift|]. intros ks _.
    by eapply triple_create_gated.
Qed.

Lemma triple_get_user u : T (get_user_by_id u) (fun o => forall x, o = Some x -> u_id x = u).
Proof.
  apply triple_keeps. intros t d d' x HP E. injection E as <- <-. split; [done|].
  intros y Hy. by apply HP.
Qed.

Lemma triple_session_by_hash hash :
  T (get_session_by_token_hash hash)
    (fun o => forall s, o = Some s -> s_user_id s <> v -> foreign_session v d0 s).
Proof.
  apply triple_keeps. intros t d d' x HP E. injection E as <- <-. split; [done|].
  intros s Hs Hne. apply fmap_Some in Hs as ([k y] & Hh & ->).
  apply head_Some_elem_of, list_elem_of_filter in Hh as [_ Hin%elem_of_map_to_list].
  by eapply foreign_found.
Qed.

Lemma triple_refresh tok : ~ refresh_of tok -> T (refresh_session state tok) not_theirs.
Proof.
  intros Hno. unfold refresh_session. eapply triple_bind; [apply triple_utc_now|]. intros now _.
  eapply (triple_bind _ _ _ _ _ (fun ids => ids.1 <> v)).
  { apply triple_lift. intros [u sid] Hids. simpl. intros ->. apply Hno. by exists now, sid. }
  intros [u sid] Hu. simpl in Hu.
  eapply triple_bind; [apply triple_session_by_hash|].
  intros found Hfound. eapply (triple_bind _ _ _ _ _ (fun s => s_user_id s <> v -> foreign_session v d0 s)).
  { apply triple_lift. intros s ->%ok_or_Ok. by apply Hfound. }
  intros s Hs. destruct (negb _) eqn:Eg; [by apply triple_lift|].
  assert (Hsv : s_user_id s <> v).
  { apply negb_false_iff, bool_decide_eq_true in Eg. congruence. }
  eapply triple_bind; [apply triple_get_user|]. intros known Hk.
  eapply (triple_bind _ _ _ _ _ (fun x => u_id x = u)).
  { apply triple_lift. intros x ->%ok_or_Ok. by apply Hk. }
  intros x Hx. eapply (triple_bind _ _ _ _ _ (fun _ => True)); [by apply triple_lift|]. intros p _.
  eapply (triple_bind _ _ _ _ _ (fun _ => True)).
  { unfold revoke_session. eapply (triple_bind _ _ _ _ _ (fun _ => True));
      [|intros; by apply triple_ret].
    apply triple_keeps. intros t d d' n HP E. split; [|done].
    by eapply revoke_session_untouched; [apply Hs|exact HP|exact E]. }
  intros b _. destruct (negb b); [by apply triple_lift|].
  eapply triple_bind; [apply triple_issue_session; by rewrite Hx|]. intros pair _.
  eapply (triple_bind _ _ _ _ _ (fun _ => True)).
  - apply triple_last_seen. by rewrite Hx.
  - intros _ _. apply triple_ret. unfold not_theirs. simpl. by rewrite Hx.
Qed.
End handlers.

(** * Nothing without the account's own key *)

(** What a handler answers with, and does to the account [v]. *)
Definition spares {A} (v : Uuid) (w : World) (m : M A) (others : A -> Prop) : Prop :=
  forall w' o, m w = (w', o) ->
    untouched v (w_db w) (w_db w') /\ (forall a, o = Ok a -> others a).

Lemma spares_triple {A} v w r (m : M A) (Q : A -> Prop) :
  filed (w_db w) -> users (w_db w) !! v = Some r ->
  sched_ok (keeps (untouched v (w_db w))) (w_sched w) ->
  triple (fun _ => True) (keeps (untouched v (w_db w))) (untouched v (w_db w)) m Q ->
  spares v w m Q.
Proof.
  intros Hf Hr Hok Hm w' o Hrun.
  assert (Hstart : untouched v (w_db w) (w_db w)) by (split_and!; eauto).
  destruct (triple_run _ _ _ _ _ _ _ _ Hm I Hok Hstart Hrun) as (_ & Hu & Ho). by split.
Qed.

(** C4: no account takeover by registration.  For an account whose control the
    request does not prove (its signature, its key or rotation proof), the
    registration of a wallet, whatever its fingerprint, keys, username and
    tokens, and however other requests interleave with it, leaves the account's
    row, identity and keys as they were, opens, changes and ends no session of it,
    and never answers with it.  The other requests are held to the same, so that
    whatever changed would be this one's doing. *)
Theorem no_account_takeover `{Ext} `{Hmac} `{Jwt} `{Nostr} `{Curves} `{Altcha} `{Net} `{Chrono}
    state peer h req v w w' o
    (Hfiled : filed (w_db w)) (Hex : is_Some (users (w_db w) !! v))
    (Hno : ~ proves_control state v (w_db w) req)
    (Hothers : sched_ok (keeps (untouched v (w_db w))) (w_sched w))
    (Hrun : extension_register state peer h req w = (w', o)) :
  untouched v (w_db w) (w_db w') /\ (forall resp, o = Ok resp -> ui_id (ar_user resp) <> v).
Proof.
  destruct Hex as [r Hr]. revert w' o Hrun.
  eapply spares_triple; try done. by eapply triple_extension.
Qed.

(** C7: every other way into an account needs a credential of the account.  A
    Nostr login or registration that is not signed by the account's own npub, a
    link under another account's bearer token, a refresh of another account's
    token: each leaves the account's row and keys as they were, opens, changes and
    ends no session of it and never answers with it, whatever runs in between that
    itself leaves the account alone. *)
Theorem sessions_need_credentials `{Ext} `{Hmac} `{Jwt} `{Nostr} `{Curves} `{Altcha} `{Net}
    `{Chrono} state peer h req nonce token v r w
    (Hfiled : filed (w_db w)) (Hr : users (w_db w) !! v = Some r)
    (Hothers : sched_ok (keeps (untouched v (w_db w))) (w_sched w)) :
  ((forall p, login_signer state h p -> u_nostr_pubkey r <> Some p) ->
     spares v w (nostr_login state peer h) (not_theirs v)) /\
  ((forall p, action_signer state "/auth/nostr/register" "nostr_register" (nr_nostr_token req)
      (nr_nonce req) p -> u_nostr_pubkey r <> Some p) ->
     spares v w (nostr_register state peer h req) (not_theirs v)) /\
  (~ bearer_of state v h -> spares v w (nostr_link state h token nonce) (fun _ => True)) /\
  (~ refresh_of state v token -> spares v w (refresh_session state token) (not_theirs v)).
Proof.
  split_and!; intros Hno; eapply spares_triple; try done.
  - by eapply triple_login.
  - by eapply triple_register.
  - by eapply triple_link.
  - by eapply triple_refresh.
Qed.

(** * Concrete requests *)

(** A signature is the key's bytes and the digest. *)
#[export] Instance demo_curves : Curves | 1000 := {
  EcdsaKey := list byte;
  EcdsaSig := list byte;
  key_from_sec1 bs := Some bs;
  ecdsa_sig_from_slice bs := Some bs;
  verify_prehash k digest sg := bool_decide (sg = take 32 (k ++ replicate 32 x00) ++ digest)%list;
  Ed25519Key := list byte;
  ed25519_key bs := Some bs;
  ed25519_verify k m sg := bool_decide (sg = take 64 (k ++ rev m ++ replicate 64 x00))%list;
}.

#[export] Instance demo_net : Net | 1000 := {
  IpAddr := string;
  IpNetwork := string;
  parse_ip s := Some s;
  ip_to_string s := s;
  net_contains n a := n =? a;
}.

#[export] Instance demo_chrono : Chrono | 1000 := {
  from_timestamp secs := Some (secs * SECOND)%Z;
}.

Definition demo_pub (name : string) : string := hex_encode (list_byte_of_string name).

Definition demo_sign (name message : string) : string :=
  string_of_list_byte (x1f :: take 32 (list_byte_of_string name ++ replicate 32 x00)
                       ++ bitcoin_message_hash message)%list.

Definition demo_auth_state : AuthState :=
  mkAuthState demo_net demo_sm "pep" "salt" "rt" (Some "https://x/") (mkPowConfig false "" false 0 [])
    (mkRegistrationConfig false (mkPaymentConfig false "btcpay" "" "" "" "" "" 0 0) GateAll) None [].

(** Alice's account: her fingerprint is no secret. *)
Definition alice_pkh : string := hash_public_key (demo_pub "alice").
Definition demo_alice : User :=
  mkUser 1 (Some "alice") (Some (pepper "pep" "pubkey_hash" alice_pkh)) None None
    (Some (pepper "pep" "seed_fingerprint" "f0")) None None 0 0 None None.
Definition demo_accounts : Db :=
  empty_db <|users := {[ 1%N := demo_alice ]}|>
           <|user_keys := {[ (1%N, Btc, "primary") :=
                mkUserKey 9 1 Btc (demo_pub "alice") None "primary" 0 0 ]}|>.

(** [who] registers with its own key, Alice's fingerprint, and a rotation signed
    by [rotator]. *)
Definition demo_request_of (who rotator : string) : ExtensionRegisterRequest :=
  mkExtensionRegisterRequest demo_altcha [mkAssetPublicKey "BTC" (demo_pub who) None] None None
    (Some "f0") None None 0 (demo_sign who "smirk-auth-0")
    (Some (demo_sign rotator ("smirk-rotate-v1|https://x|" ++ hash_public_key (demo_pub who) ++ "|0")))
    None None None.

Definition demo_attack : World * outcome AuthResponse :=
  extension_register demo_auth_state "1.2.3.4" [] (demo_request_of "mallory" "mallory")
    (quiet_world demo_accounts 0).

(** With Alice's rotation the same request moves her account to the new key. *)
Example demo_rotation :
  match extension_register demo_auth_state "1.2.3.4" [] (demo_request_of "mallory" "alice")
          (quiet_world demo_accounts 0) with
  | (w, Ok resp) => ui_id (ar_user resp) = 1%N /\ ar_is_new resp = false /\
      u_pubkey_hash <$> users (w_db w) !! 1%N
        = Some (Some (pepper "pep" "pubkey_hash" (hash_public_key (demo_pub "mallory"))))
  | _ => False
  end.
Proof. vm_compute. split_and!; reflexivity. Qed.

Lemma demo_filed : filed demo_accounts.
Proof.
  split_and!.
  - intros k u Hk. simpl in Hk. apply lookup_singleton_Some in Hk as [<- <-]. reflexivity.
  - intros u a t k Hk. simpl in Hk. by apply lookup_singleton_Some in Hk as [[= <- <- <-] <-].
  - intros k s Hk. simpl in Hk. by rewrite lookup_empty in Hk.
Qed.

Lemma no_account_takeover_witness :
  is_ok demo_attack.2 = true /\ untouched 1 demo_accounts (w_db demo_attack.1) /\
  (forall resp, demo_attack.2 = Ok resp -> ui_id (ar_user resp) <> 1%N).
Proof.
  split; [by vm_compute|].
  apply (no_account_takeover demo_auth_state "1.2.3.4" [] (demo_request_of "mallory" "mallory") 1
           (quiet_world demo_accounts 0)).
  - exact demo_filed.
  - by exists demo_alice.
  - intros (b & x & Hb & Hx & _ & Hcase). injection Hb as <-. injection Hx as <-.
    destruct Hcase as [Hp|(fp & k & _ & _ & Hk & [[Hn _]|Hrot])].
    + vm_compute in Hp. discriminate.
    + discriminate.
    + injection Hk as <-. destruct Hrot as (sig & instance & Hsig & Hi & Hv).
      injection Hsig as <-. injection Hi as <-. vm_compute in Hv. discriminate.
  - apply sched_ok_nil.
  - apply surjective_pairing.
Defined.

Definition demo_npub_request : NostrRegisterRequest :=
  mkNostrRegisterRequest demo_altcha (demo_credential (demo_action_tags
      "https://x/auth/nostr/register" "POST" "nostr_register" "n"
      (request_payload "POST" "/api/v1/auth/nostr/register" "" [])) 0) "n"
    [] None None None None None None None None.

Definition demo_challenges : Db :=
  demo_accounts <|challenges := {[ "n" := mkChallenge "n" "nostr_register" None 0 300000000 ]}|>.

Definition demo_npub_register : World * outcome AuthResponse :=
  nostr_register demo_auth_state "1.2.3.4" [] demo_npub_request (quiet_world demo_challenges 0).

Lemma sessions_need_credentials_witness :
  is_ok demo_npub_register.2 = true /\ untouched 1 demo_challenges (w_db demo_npub_register.1).
Proof.
  split; [by vm_compute|].
  destruct (sessions_need_credentials demo_auth_state "1.2.3.4" [] demo_npub_request "" "" 1
    demo_alice (quiet_world demo_challenges 0) demo_filed eq_refl (sched_ok_nil _))
    as (_ & Hreg & _).
  apply (Hreg ltac:(intros; discriminate) demo_npub_register.1 demo_npub_register.2).
  apply surjective_pairing.
Defined.
