(* ===== verification/Paths.v ===== *)
(** The path a run takes: what a program does to the database between two of its
    points, the other tasks included, with the clock and the count of the calls it
    made upstream. *)

From Stdlib Require Import ZArith Lia.
From S2P Require Import Prelude RustStr Errors Db Effects SocialTips Transactions.

Section leads.
Context (S : Rel).

(** From [w] the run reached [w'] by steps of [S]. *)
Definition reaches (w w' : World) : Prop :=
  steps S (w_db w) (w_db w') /\ sched_ok S (w_sched w') /\ (w_now w <= w_now w')%Z /\
  (w_calls w <= w_calls w')%nat /\ w_skew w' = w_skew w.

(** Whatever [m] comes to, it comes to it by steps of [S]. *)
Definition leads {A} (m : M A) : Prop :=
  forall w w' o, sched_ok S (w_sched w) -> m w = (w', o) -> reaches w w'.

Lemma reaches_refl w : sched_ok S (w_sched w) -> reaches w w.
Proof. intros. split_and!; [apply steps_refl|done|lia|lia|done]. Qed.

Lemma reaches_trans w1 w2 w3 : reaches w1 w2 -> reaches w2 w3 -> reaches w1 w3.
Proof.
  intros (? & ? & ? & ? & ?) (? & ? & ? & ? & ?).
  split_and!; [by eapply steps_trans|done|lia|lia|congruence].
Qed.

Lemma leads_ret {A} (a : A) : leads (mret a).
Proof. intros w w' o Hok [= <- <-]. by apply reaches_refl. Qed.

Lemma leads_lift {A} (o : outcome A) : leads (lift o).
Proof. intros w w' o' Hok [= <- <-]. by apply reaches_refl. Qed.

Lemma leads_utc_now : leads utc_now.
Proof. intros w w' o Hok [= <- <-]. by apply reaches_refl. Qed.

Lemma leads_upstream {A} (f : nat -> outcome A) : leads (upstream f).
Proof. intros w w' o Hok [= <- <-]. split_and!; simpl; [apply steps_refl|done|lia|lia|done]. Qed.

Lemma leads_uuid : leads gen_random_uuid.
Proof. intros w w' o Hok [= <- <-]. split_and!; simpl; [apply steps_refl|done|lia|lia|done]. Qed.

Lemma leads_bind {A B} (m : M A) (k : A -> M B) :
  leads m -> (forall a, leads (k a)) -> leads (m ≫= k).
Proof.
  intros Hm Hk w w' o Hok Hrun. unfold mbind, M_bind in Hrun.
  destruct (m w) as [w1 [a|e|]] eqn:E; apply (Hm _ _ _ Hok) in E as H1.
  2,3: by injection Hrun as <- <-.
  eapply reaches_trans; [exact H1|]. eapply Hk; [|exact Hrun]. apply H1.
Qed.

Lemma leads_attempt {A} (m : M A) : leads m -> leads (attempt m).
Proof.
  intros Hm w w' o Hok Hrun. unfold attempt in Hrun.
  destruct (m w) as [w1 x] eqn:E. apply (Hm _ _ _ Hok) in E as H1.
  destruct x; by injection Hrun as <- <-.
Qed.

Lemma leads_swallow {A} (m : M A) : leads m -> leads (swallow m).
Proof.
  intros Hm. apply leads_bind; [by apply leads_attempt|]. intros ?. apply leads_ret.
Qed.

Lemma leads_fmap {A B} (f : A -> B) (m : M A) : leads m -> leads (f <$> m).
Proof.
  intros Hm w w' o Hok Hrun. unfold fmap, M_fmap in Hrun.
  destruct (m w) as [w1 x] eqn:E. apply (Hm _ _ _ Hok) in E as H1.
  destruct x; by injection Hrun as <- <-.
Qed.

(** The head slot is spent by the statement it precedes. *)
Lemma next_slot_rest w :
  w_db (next_slot w).2 = w_db w /\ w_now (next_slot w).2 = w_now w /\
  w_calls (next_slot w).2 = w_calls w /\ w_skew (next_slot w).2 = w_skew w /\
  (sched_ok S (w_sched w) -> sched_ok S (w_sched (next_slot w).2)).
Proof.
  unfold next_slot. destruct (w_sched w) as [|sl rest] eqn:E; simpl; split_and!; try done.
  - by rewrite E.
  - by intros [_ ?]%Forall_cons.
Qed.

Lemma leads_stmt {T} on_err (s : Stmt T) :
  (forall t d d' r, s t d = inr (d', r) -> steps S d d') -> leads (run_stmt on_err s).
Proof.
  intros Hs w w' o Hok Hrun. pose proof (next_slot_env S w Hok) as Henv.
  destruct (next_slot_rest w) as (Hd & Hn & Hc & Hk & Hr). specialize (Hr Hok).
  unfold run_stmt in Hrun. destruct (next_slot w) as [sl w0]. simpl in *. rewrite Hd in Hrun.
  set (now := (w_now w0 + Z.of_N (sl_dt sl))%Z) in *.
  assert (Hnow : (w_now w <= now)%Z) by (unfold now; lia). specialize (Henv now).
  destruct (sl_fault sl); [destruct (s _ _) as [e|[d2 r]] eqn:E| |destruct (s _ _) as [e'|[d2 r]] eqn:E];
    injection Hrun as <- <-; split_and!; simpl; try done; try lia;
    (eapply steps_trans; [exact Henv|by eapply Hs]).
Qed.

Lemma leads_in_memory {T} (f : Time -> Db -> Db * T) :
  (forall t d, steps S d (f t d).1) -> leads (in_memory f).
Proof.
  intros Hf w w' o Hok Hrun. pose proof (next_slot_env S w Hok) as Henv.
  destruct (next_slot_rest w) as (Hd & Hn & Hc & Hk & Hr). specialize (Hr Hok).
  unfold in_memory in Hrun. destruct (next_slot w) as [sl w0]. simpl in *. rewrite Hd in Hrun.
  set (now := (w_now w0 + Z.of_N (sl_dt sl))%Z) in *.
  assert (Hnow : (w_now w <= now)%Z) by (unfold now; lia). specialize (Henv now).
  specialize (Hf now (sl_env sl now (w_db w))). destruct (f _ _) as [d2 r].
  injection Hrun as <- <-. split_and!; simpl; try done; try lia. by eapply steps_trans.
Qed.

(** One turn of a run that answered: its first half only leads on. *)
Lemma reaches_bind {A B} (m : M A) (k : A -> M B) w0 w w' b :
  leads m -> reaches w0 w -> (m ≫= k) w = (w', Ok b) ->
  exists w1 a, m w = (w1, Ok a) /\ reaches w0 w1 /\ k a w1 = (w', Ok b).
Proof.
  intros Hm Hr (w1 & a & E & Hk)%bind_run_Ok. exists w1, a. split_and!; try done.
  eapply reaches_trans; [exact Hr|]. eapply Hm; [apply Hr|exact E].
Qed.

(** A first half that leads on, then the rest, whatever it comes to. *)
Lemma reaches_then {A B} (m : M A) (k : A -> M B) w w' o :
  sched_ok S (w_sched w) -> leads m ->
  (forall a w1, m w = (w1, Ok a) -> reaches w w1 -> k a w1 = (w', o) -> reaches w1 w') ->
  (m ≫= k) w = (w', o) -> reaches w w'.
Proof.
  intros Hok Hm Hk Hrun. unfold mbind, M_bind in Hrun.
  destruct (m w) as [w1 [a|e|]] eqn:E; pose proof (Hm _ _ _ Hok E) as H1.
  2,3: by injection Hrun as <- <-.
  eapply reaches_trans; [exact H1|]. by eapply Hk.
Qed.

(** A step of memory, seen in the run. *)
Lemma in_memory_Ok {T} (f : Time -> Db -> Db * T) w w' r :
  sched_ok S (w_sched w) -> in_memory f w = (w', Ok r) ->
  exists d, steps S (w_db w) d /\ f (w_now w') d = (w_db w', r) /\ sched_ok S (w_sched w') /\
    (w_now w <= w_now w')%Z /\ w_calls w' = w_calls w /\ w_skew w' = w_skew w.
Proof.
  intros Hok Hrun. pose proof (next_slot_env S w Hok) as Henv.
  destruct (next_slot_rest w) as (Hd & Hn & Hc & Hk & Hr). specialize (Hr Hok).
  unfold in_memory in Hrun. destruct (next_slot w) as [sl w0]. simpl in *. rewrite Hd in Hrun.
  set (now := (w_now w0 + Z.of_N (sl_dt sl))%Z) in *.
  destruct (f now _) as [d2 x] eqn:E. injection Hrun as <- <-.
  exists (sl_env sl now (w_db w)). split_and!; simpl; try done. unfold now. lia.
Qed.
End leads.

Lemma leads_query S `{Ext} {T} (s : Stmt T) :
  (forall t d d' r, s t d = inr (d', r) -> steps S d d') -> leads S (query s).
Proof. apply leads_stmt. Qed.

(** A statement that reads. *)
Lemma leads_read S {T} on_err (s : Stmt T) :
  (forall t d d' r, s t d = inr (d', r) -> d' = d) -> leads S (run_stmt on_err s).
Proof. intros Hs. apply leads_stmt. intros t d d' r E. apply Hs in E as ->. apply steps_refl. Qed.

(** A transaction that answered ran at the instant the run has come to. *)
Lemma run_tx_at S `{Ext} {A} (t : Tx A) w w' a :
  sched_ok S (w_sched w) -> run_tx t w = (w', Ok a) ->
  exists d, steps S (w_db w) d /\ t (w_now w' + w_skew w)%Z (w_now w') d = inr (w_db w', a).
Proof.
  intros Hok Hrun. pose proof (next_slot_env S w Hok) as Henv.
  apply run_tx_inv in Hrun as (sl & rest & Hn & _ & Hnow & _ & Hres). rewrite Hn in Henv.
  destruct Hres as [(d' & b & Htx & -> & [[= <-]|[e ?]])|[_ [e ?]]]; [|done|done].
  rewrite Hnow. by eexists; split; [apply Henv|exact Htx].
Qed.

Create HintDb leads discriminated.
#[export] Hint Constants Opaque : leads.

(** Follow a program. *)
Ltac leads_steps :=
  lazymatch goal with
  | |- leads _ (mret _) => apply leads_ret
  | |- leads _ (lift _) => apply leads_lift
  | |- leads _ (fail _) => apply leads_lift
  | |- leads _ (upstream _) => apply leads_upstream
  | |- leads _ utc_now => apply leads_utc_now
  | |- leads _ gen_random_uuid => apply leads_uuid
  | |- leads _ (swallow _) => apply leads_swallow; leads_steps
  | |- leads _ (attempt _) => apply leads_attempt; leads_steps
  | |- leads _ (fmap _ _) => apply leads_fmap; leads_steps
  | |- leads _ (mbind _ _) => apply leads_bind; [leads_steps|intros ?; leads_steps]
  | |- leads _ (match ?x with _ => _ end) => destruct x eqn:?; leads_steps
  | |- leads _ _ => first [solve [eauto with leads]|idtac]
  | |- _ => idtac
  end.

(** Go through the next call of a run that answered. *)
Tactic Notation "walk" hyp(Hrun) hyp(Hr) "as" ident(w) simple_intropattern(a) simple_intropattern(E) :=
  eapply reaches_bind in Hrun; [|leads_steps; fail|exact Hr]; clear Hr;
  destruct Hrun as (w & a & E & Hr & Hrun).
