(* ===== verification/AuthGates.v ===== *)
(** What a new account costs: the gates a registration passed, the single use of
    a refresh token, the governors of a restore check. *)

From Stdlib Require Import ZArith Lia Ascii String Strings.Byte.
From stdpp Require Import pretty.
From S2P Require Import Prelude RustStr Errors Db Effects TipStatus SocialTips Transactions Pepper AuditChain Demo Auth Config TipApi Slatepack Nip98 Signatures Challenges Events RelayPolicy Pow Registration Premium Users AuthApi AuthSafety Paths.

Local Open Scope string_scope.

(** * The gates *)

(** A statement of the handlers that is neither the spend of a solution nor the
    registration leaves the accounts, the invites, the invoices and the spent
    solutions as they are. *)
Definition calm : Rel := fun _ d d' =>
  users d' = users d /\ invite_codes d' = invite_codes d /\
  payment_invoices d' = payment_invoices d /\ spent_solutions d' = spent_solutions d.

(** What the others do, and the calm statements of the handler. *)
Definition around (R : Rel) : Rel := either R calm.

Lemma around_sched R w : sched_ok R (w_sched w) -> sched_ok (around R) (w_sched w).
Proof. apply sched_ok_mono. by left. Qed.

Lemma around_calm R d d' : calm 0%Z d d' -> steps (around R) d d'.
Proof. intros Hc. apply (steps_once _ 0%Z). by right. Qed.

Section gates.
Context `{Ext} `{Hmac} `{Jwt} `{Nostr} `{Curves} `{Altcha} `{Net} `{Chrono} (state : AuthState).
Context (R : Rel).

(** The tokens a registration of [pkh] spends are those presented: an invite by
    its hash, an invoice that is the identity's and that the processor reported
    settled at one of the calls in question; and they are what the configuration asks for: of every gate in
    [all] mode; in [any] mode of exactly one, of a kind that is enabled. *)
Definition gates_met (asked : nat -> Prop) (pkh : string) (invite invoice : option string)
    (g : GatedRegistration) : Prop :=
  let reg := at_registration state in
  let need_invite := rg_require_invite reg in
  let need_payment := pc_require_payment (rg_payment reg) in
  let inv := gr_invite_code_hash g in
  let pay := gr_payment g in
  (forall hash, inv = Some hash ->
     exists code, presented invite = Some code /\ hash = hash_invite_code code) /\
  (forall id bound, pay = Some (id, bound) ->
     presented invoice = Some id /\ bound = pkh /\
     exists p n iv, at_provider state = Some p /\ asked n /\ pp_get_invoice p id n = Ok iv /\
       iv_status iv = InvSettled /\ (forall x, iv_bind iv = Some x -> x = pkh)) /\
  match rg_gate_mode reg with
  | GateAll => is_some inv = need_invite /\ is_some pay = need_payment
  | GateAny => xorb (is_some inv) (is_some pay) = need_invite || need_payment /\
      (is_some inv = true -> need_invite = true) /\ (is_some pay = true -> need_payment = true)
  end.

Lemma ok_or_lift_run {A} (x : option A) e w w' a :
  lift (ok_or x e) w = (w', Ok a) <-> w' = w /\ x = Some a.
Proof. by rewrite lift_run_Ok, ok_or_Ok. Qed.

Lemma leads_get_invoice S id : leads S (get_payment_invoice id).
Proof. apply leads_read. by intros ? ? ? ? [= <- _]. Qed.
Hint Resolve leads_get_invoice : leads.

(** The calls made between two points of a run. *)
Definition calls_of (w w' : World) (n : nat) : Prop := (w_calls w <= n < w_calls w')%nat.

Lemma leads_settled S pkh invoice : leads S (verify_payment_settled state false pkh invoice).
Proof. unfold verify_payment_settled. cbv zeta. leads_steps. Qed.
Hint Resolve leads_settled : leads.

Lemma settled_run T pkh invoice w w' o :
  sched_ok T (w_sched w) -> verify_payment_settled state false pkh invoice w = (w', Ok o) ->
  is_some o = pc_require_payment (rg_payment (at_registration state)) /\
  forall id, o = Some id -> presented invoice = Some id /\
    exists p n iv, at_provider state = Some p /\ calls_of w w' n /\ pp_get_invoice p id n = Ok iv /\
      iv_status iv = InvSettled /\ (forall x, iv_bind iv = Some x -> x = pkh).
Proof.
  intros Hok. unfold verify_payment_settled. simpl.
  destruct (pc_require_payment _) eqn:Ereq; simpl; [|by intros [= <- <-]].
  rewrite bind_run_Ok. intros (w1 & p & [-> Hp]%ok_or_lift_run & Hrun).
  apply bind_run_Ok in Hrun as (w1 & id & [-> Hid]%ok_or_lift_run & Hrun).
  pose proof (reaches_refl T w Hok) as Hr.
  walk Hrun Hr as w1 found Hfound. walk Hrun Hr as w2 row Hrow.
  destruct (is_some (pi_consumed_at row)); [done|].
  apply bind_run_Ok in Hrun as (w3 & iv & Hiv & Hrun). injection Hiv as <- Hiv.
  assert (Hcall : forall w4, w_calls w4 = S (w_calls w2) -> calls_of w w4 (w_calls w2)).
  { intros w4 E. destruct Hr as (_ & _ & _ & ? & _). unfold calls_of. lia. }
  destruct (bool_decide _) eqn:Est; simpl in Hrun; [|done]. apply bool_decide_eq_true in Est.
  assert (Hfin : forall x, iv_bind iv = Some x -> x = pkh).
  { intros x Hx. rewrite Hx in Hrun. destruct (x =? pkh) eqn:Ex; [|done]. by apply String.eqb_eq. }
  assert (o = Some id /\ w_calls w' = S (w_calls w2)) as [-> E].
  { destruct (iv_bind iv) as [x|]; [destruct (x =? pkh)|]; simpl in Hrun; try done; by injection Hrun as <- <-. }
  split; [done|]. intros ? [= <-]. split; [done|]. exists p, (w_calls w2), iv. auto.
Qed.

Lemma bound_payment_run T pkh invoice w w' o :
  sched_ok T (w_sched w) ->
  (settled ← verify_payment_settled state false pkh invoice;
   mret ((fun id => (id, pkh)) <$> settled) : M _) w = (w', Ok o) ->
  is_some o = pc_require_payment (rg_payment (at_registration state)) /\
  forall id bound, o = Some (id, bound) -> presented invoice = Some id /\ bound = pkh /\
    exists p n iv, at_provider state = Some p /\ calls_of w w' n /\ pp_get_invoice p id n = Ok iv /\
      iv_status iv = InvSettled /\ (forall x, iv_bind iv = Some x -> x = pkh).
Proof.
  intros Hok. rewrite bind_run_Ok. intros (w1 & s & Hs%(settled_run T) & [= <- <-]); [|done].
  destruct Hs as [Hreq Hs].
  split; [by destruct s|]. destruct s as [i|]; [|done]. intros id bound [= <- <-].
  by destruct (Hs i eq_refl) as [? ?].
Qed.

Lemma invite_run invite w w' hash :
  lift (require_invite_hash invite) w = (w', Ok hash) ->
  w' = w /\ exists code, presented invite = Some code /\ hash = hash_invite_code code.
Proof.
  rewrite lift_run_Ok. unfold require_invite_hash. intros [-> Hc]. split; [done|].
  apply bind_Ok in Hc as (code & Hc%ok_or_Ok & [= <-]). by exists code.
Qed.

Lemma leads_plan S pkh invite invoice : leads S (plan_gate_consume state pkh invite invoice).
Proof. unfold plan_gate_consume. cbv zeta. leads_steps. Qed.
Hint Resolve leads_plan : leads.

Lemma plan_gates_run T pkh invite invoice w w' g :
  sched_ok T (w_sched w) -> plan_gate_consume state pkh invite invoice w = (w', Ok g) ->
  gates_met (calls_of w w') pkh invite invoice g.
Proof.
  intros Hok. unfold plan_gate_consume, gates_met, plan_gates.
  destruct (rg_require_invite _) eqn:Ei, (pc_require_payment _) eqn:Ep; simpl;
    destruct (rg_gate_mode _) eqn:Em; simpl;
    try (destruct (is_some (presented invite)), (is_some (presented invoice)); simpl);
    rewrite ?bind_run_Ok; try done;
    try (intros [= _ <-]; by split_and!).
  all: try (intros (w1 & pay & Hpay%(bound_payment_run T) & [= <- <-]); [|done]; rewrite Ep in Hpay;
            destruct Hpay as [Hs Hpay]; simpl; rewrite ?Hs; by split_and!).
  all: try (intros (w1 & hash & [_ Hh]%invite_run & [= _ <-]); simpl; split_and!; try done;
            by intros ? [= <-]).
  all: intros (w1 & a & Hh & Hrun); apply lift_run_Ok in Hh as [-> Hh];
    apply bind_run_Ok in Hrun as (w2 & pay & Hpay & [= <- <-]);
    apply (bound_payment_run T) in Hpay as [Hs Hpay]; [|done]; rewrite Ep in Hs; simpl; rewrite Hs;
    destruct (require_invite_hash invite) as [hash| |] eqn:Eh;
    unfold fmap, outcome_fmap in Hh; try discriminate Hh; injection Hh as <-; split_and!;
    try done; intros ? [= <-]; apply (invite_run invite w w); by rewrite lift_run_Ok.
Qed.

(** ** What a new account passed *)

(** The configuration asks a proof of work of that key, or one is presented to an
    instance that checks them. *)
Definition work_asked (key : string) (sol : option Payload) : Prop :=
  let cfg := at_pow state in
  pow_enabled cfg = true /\
  (pow_required cfg = true \/ key ∈ pow_required_for_pubkeys cfg \/ is_some sol = true).

(** The challenge's signature [sig] is spent at [t], for the first time in the
    validity of a challenge; the spends of that window are kept. *)
Definition spent_first (sig : string) (t : Time) (d1 d2 : Db) : Prop :=
  let recent s := (t - s < CHALLENGE_TTL_SECONDS * SECOND)%Z in
  (forall s, spent_solutions d1 !! sig = Some s -> ~ recent s) /\
  exists m, d2 = d1 <|spent_solutions := m|> /\ m !! sig = Some t /\
    forall k s, k <> sig -> m !! k = Some s <-> spent_solutions d1 !! k = Some s /\ recent s.

(** If work is asked, then between [d0] and [d] a solution was found good and spent
    for the first time. *)
Definition work_paid (key : string) (sol : option Payload) (d0 d : Db) : Prop :=
  if decide (work_asked key sol) then
    exists p r clock sig t d1 d2, sol = Some p /\
      verify_solution (pl_challenge p) (pl_solution p) (pow_hmac_key (at_pow state)) clock = inr r /\
      vr_verified r = true /\ ac_signature (pl_challenge p) = Some sig /\
      steps (around R) d0 d1 /\ spent_first sig t d1 d2 /\ steps (around R) d2 d
  else steps (around R) d0 d.

(** The invite to spend was never used and has not expired. *)
Definition invite_live (now : Time) (g : GatedRegistration) (d : Db) : Prop :=
  forall hash, gr_invite_code_hash g = Some hash ->
    exists c, invite_codes d !! hash = Some c /\ ic_used_at c = None /\
      (forall e, ic_expires_at c = Some e -> (now < e)%Z).

(** The run from [w] to [w'] paid the work, then made the account by one atomic
    registration of a user named so, at the price the configuration asks for;
    nothing else it did touched the accounts or the tokens. *)
Definition admitted (pkh pow_key : string) (invite invoice : option string)
    (sol : option Payload) (named : NewUser -> Prop) (account : Uuid) (w w' : World) : Prop :=
  exists d0 g n d d' u now, work_paid pow_key sol (w_db w) d0 /\ steps (around R) d0 d /\
    gates_met (calls_of w w') pkh invite invoice g /\
    (w_now w <= now <= w_now w')%Z /\ named n /\ u_id u = account /\ invite_live now g d /\
    registration now (gr_invite_code_hash g) (gr_payment g)
      (peppered (at_identity_pepper state) n) d d' u /\
    steps (around R) d' (w_db w').

Lemma gates_met_mono (a1 a2 : nat -> Prop) pkh invite invoice g :
  (forall n, a1 n -> a2 n) -> gates_met a1 pkh invite invoice g -> gates_met a2 pkh invite invoice g.
Proof.
  intros Ha (Hi & Hp & Hm). split_and!; [done| |done]. intros id bound E.
  destruct (Hp id bound E) as (? & ? & p & n & iv & ? & ? & ?). split_and!; try done. exists p, n, iv. auto.
Qed.

Lemma work_paid_after key sol d0 d1 d :
  work_paid key sol d0 d1 -> steps (around R) d1 d -> work_paid key sol d0 d.
Proof.
  unfold work_paid. destruct (decide _); [|by intros; eapply steps_trans].
  intros (p & r & c & sig & t & d2 & d3 & ? & ? & ? & ? & ? & ? & ?) Hst.
  exists p, r, c, sig, t, d2, d3. split_and!; try done. by eapply steps_trans.
Qed.

Lemma work_paid_before key sol d0 d1 d :
  steps (around R) d0 d1 -> work_paid key sol d1 d -> work_paid key sol d0 d.
Proof.
  intros Hst. unfold work_paid. destruct (decide _); [|by intros; eapply steps_trans].
  intros (p & r & c & sig & t & d2 & d3 & ? & ? & ? & ? & ? & ? & ?).
  exists p, r, c, sig, t, d2, d3. split_and!; try done. by eapply steps_trans.
Qed.

Abbreviation S := (around R).

Lemma required_for_spec cfg key :
  required_for cfg key = true <-> pow_required cfg = true \/ key ∈ pow_required_for_pubkeys cfg.
Proof.
  unfold required_for. rewrite orb_true_iff, existsb_exists, list_elem_of_In.
  split; (intros [?|Hk]; [by left|right]).
  - by destruct Hk as (x & ? & <-%String.eqb_eq).
  - exists key. split; [done|]. apply String.eqb_refl.
Qed.

Lemma work_asked_spec key sol :
  work_asked key sol <->
  pow_applies state key || is_some sol && pow_enabled (at_pow state) = true.
Proof.
  unfold work_asked, pow_applies.
  rewrite orb_true_iff, !andb_true_iff, required_for_spec. tauto.
Qed.

Lemma spend_fresh sig t d1 d2 :
  spend_solution sig t d1 = (d2, true) -> spent_first sig t d1 d2.
Proof.
  unfold spend_solution. intros [= <- Hnew]. split.
  - intros s Hs Hr. rewrite (proj2 (live_spends_Some _ _ _ _) (conj Hs Hr)) in Hnew. done.
  - eexists. split; [done|]. split; [by rewrite lookup_insert_eq|].
    intros k s Hk. by rewrite lookup_insert_ne, live_spends_Some.
Qed.

Lemma work_verified p key w w' sol :
  sched_ok S (w_sched w) -> sol = Some p -> work_asked key sol ->
  verify_payload (at_pow state) p w = (w', Ok tt) ->
  work_paid key sol (w_db w) (w_db w') /\ sched_ok S (w_sched w') /\
  (w_now w <= w_now w')%Z /\ w_calls w' = w_calls w.
Proof.
  intros Hok -> Hask Hrun. unfold verify_payload in Hrun.
  apply bind_run_Ok in Hrun as (w1 & clock & [= <- <-] & Hrun).
  apply bind_run_Ok in Hrun as (w1 & r & [-> Hr]%lift_run_Ok & Hrun).
  destruct (verify_solution _ _ _ _) as [e|r'] eqn:Ev; [done|]. injection Hr as ->.
  destruct (vr_verified r) eqn:Evr; simpl in Hrun; [|done].
  apply bind_run_Ok in Hrun as (w1 & sig & [-> Hsig]%ok_or_lift_run & Hrun).
  apply bind_run_Ok in Hrun as (w1 & fresh & Hs & Hrun).
  eapply (in_memory_Ok S) in Hs as (d & Hst & E & Hok1 & Hnow & Hcalls & _); [|done].
  destruct fresh; simpl in Hrun; [|done]. injection Hrun as <-.
  apply spend_fresh in E.
  split_and!; try done. unfold work_paid. rewrite decide_True by done.
  by exists p, r, (timestamp (w_now w + w_skew w)), sig, (w_now w1), d, (w_db w1).
Qed.

Lemma work_run key sol w w' :
  sched_ok S (w_sched w) -> enforce_pow state key false sol w = (w', Ok tt) ->
  work_paid key sol (w_db w) (w_db w') /\ sched_ok S (w_sched w') /\
  (w_now w <= w_now w')%Z /\ w_calls w' = w_calls w.
Proof.
  intros Hok. unfold enforce_pow.
  destruct (pow_applies state key) eqn:Ea.
  - rewrite bind_run_Ok. intros (w1 & p & [-> Hs]%ok_or_lift_run & Hrun).
    eapply work_verified; try done. apply work_asked_spec. by rewrite Ea.
  - destruct sol as [p|]; [destruct (pow_enabled (at_pow state)) eqn:Ee|]; intros Hrun.
    + eapply work_verified; try done. apply work_asked_spec. by rewrite Ea, Ee.
    + injection Hrun as <-. unfold work_paid. rewrite decide_False; [split_and!; try done; apply steps_refl|].
      by rewrite work_asked_spec, Ea, Ee.
    + injection Hrun as <-. unfold work_paid. rewrite decide_False; [split_and!; try done; apply steps_refl|].
      by rewrite work_asked_spec, Ea.
Qed.

(** The atomic claim takes a live invite only. *)
Lemma taken_live now g d d' : invite_taken now (gr_invite_code_hash g) d d' -> invite_live now g d.
Proof.
  unfold invite_taken, invite_live. destruct (gr_invite_code_hash g) as [h|]; [|done].
  intros (c & Hc & Hs & _) ? [= <-]. exists c. split; [done|].
  unfold invite_spendable in Hs. apply andb_true_iff in Hs as [Hu He].
  split; [by destruct (ic_used_at c)|]. intros e Ee. rewrite Ee in He. lia.
Qed.

(** Creating a user, the clock and the calls go on. *)
Lemma grows_create pep inv pay n keys w w' o :
  create_user_consuming_gates pep inv pay n keys w = (w', o) ->
  (w_now w <= w_now w')%Z /\ (w_calls w <= w_calls w')%nat.
Proof.
  intros Hrun. set (T := (fun _ _ _ => True) : Rel).
  assert (Hone : forall d d', steps T d d') by (intros; by apply (steps_once _ 0%Z)).
  assert (leads T (create_user_consuming_gates pep inv pay n keys)) as Hl.
  { unfold create_user_consuming_gates. apply leads_bind; [apply leads_uuid|]. intros uid.
    apply leads_bind.
    - induction (length keys); simpl; leads_steps; done.
    - intros ids w1 w2 o2 Hok Hr. unfold run_tx in Hr. revert Hr. apply (leads_bind T _ _); [| |done].
      + apply leads_stmt. intros; apply Hone.
      + intros [?|?]; leads_steps. }
  destruct (Hl w w' o) as (_ & _ & ? & ? & _); [|done|done].
  apply Forall_forall. intros sl _ t d. apply Hone.
Qed.

(** Its work paid, the handler registers, and only leads on from there. *)
Lemma admitted_run pkh key invite invoice sol (named : NewUser -> Prop) n w w1 w2 w3 g keys w4 u w' :
  reaches S w w1 ->
  enforce_pow state key false sol w1 = (w2, Ok tt) ->
  reaches S w2 w3 -> gates_met (calls_of w2 w3) pkh invite invoice g -> named n ->
  create_user_consuming_gates (at_identity_pepper state) (gr_invite_code_hash g) (gr_payment g)
    n keys w3 = (w4, Ok u) ->
  (sched_ok S (w_sched w4) -> reaches S w4 w') ->
  admitted pkh key invite invoice sol named (u_id u) w w'.
Proof.
  intros (Hs1 & Hok1 & Hn1 & Hc1 & _) Hpow (Hs3 & Hok3 & Hn3 & Hc3 & _) Hg Hn Hrun Hrest.
  apply work_run in Hpow as (Hw & _ & Hn2 & Hc2); [|done].
  destruct (grows_create _ _ _ _ _ _ _ _ Hrun) as [Hn4 Hc4].
  destruct (create_user_run (at_identity_pepper state) (gr_invite_code_hash g) (gr_payment g)
    n keys w3) as (c & uid & ids & Heq). rewrite Heq in Hrun.
  pose proof Hrun as Hsch. eapply (run_tx_sched S) in Hsch; [|done].
  apply Hrest in Hsch as (Hs5 & _ & Hn5 & Hc5 & _).
  apply (run_tx_at S) in Hrun as (d & Hd & Htx); [|done].
  exists (w_db w2), g, n, d, (w_db w4), u, (w_now w4).
  apply registration_tx_inr in Htx. split_and!; try done; try lia.
  - by eapply work_paid_before.
  - by eapply steps_trans.
  - eapply gates_met_mono; [|exact Hg]. unfold calls_of. lia.
  - eapply taken_live, Htx.
Qed.

(** ** The handlers *)

Lemma leads_by_pubkey pkh : leads S (get_user_by_pubkey_hash (at_identity_pepper state) pkh).
Proof. apply leads_read. by intros ? ? ? ? [= <- _]. Qed.
Lemma leads_by_fingerprint fp : leads S (get_user_by_seed_fingerprint (at_identity_pepper state) fp).
Proof. apply leads_read. by intros ? ? ? ? [= <- _]. Qed.
Lemma leads_user_key u a : leads S (get_user_key u a).
Proof. apply leads_read. by intros ? ? ? ? [= <- _]. Qed.
Lemma leads_by_username name : leads S (get_user_by_username name).
Proof. apply leads_read. by intros ? ? ? ? [= <- _]. Qed.
Lemma leads_by_npub npub : leads S (find_user_by_nostr_pubkey npub).
Proof. apply leads_read. by intros ? ? ? ? [= <- _]. Qed.

Lemma leads_calm {T} on_err (s : Stmt T) :
  (forall t d d' r, s t d = inr (d', r) -> calm 0%Z d d') -> leads S (run_stmt on_err s).
Proof. intros Hs. apply leads_stmt. intros t d d' r E. by eapply around_calm, Hs. Qed.

Lemma leads_consume nonce purpose : leads S (consume_challenge nonce purpose).
Proof.
  apply leads_calm. intros t d d' r E. unfold sql_consume_challenge in E.
  repeat case_hyp E; by injection E as <- _.
Qed.
Lemma leads_create_session n : leads S (create_session n).
Proof.
  apply leads_calm. intros t d d' r E. unfold sql_create_session in E.
  repeat case_hyp E; try done. by injection E as <- _.
Qed.
Lemma leads_login_event u a p o ip : leads S (record_login_event u a p o ip).
Proof.
  unfold record_login_event. leads_steps. apply leads_calm. intros t d d' r E.
  unfold sql_record_login_event in E. repeat case_hyp E; try done. by injection E as <- _.
Qed.
Hint Resolve leads_by_pubkey leads_by_fingerprint leads_user_key leads_by_username leads_by_npub
  leads_consume leads_create_session leads_login_event : leads.

Lemma leads_log_in u p dev a ip b : leads S (log_in state u p dev a ip b).
Proof. unfold log_in, issue_session. leads_steps. Qed.

Lemma leads_fingerprint fp me : leads S (fingerprint_for_row state fp me).
Proof. unfold fingerprint_for_row. leads_steps. Qed.

Lemma leads_username_free b name : leads S (ensure_username_available b name).
Proof. unfold ensure_username_available. leads_steps. Qed.
Hint Resolve leads_log_in leads_fingerprint leads_username_free : leads.

Lemma log_in_run u p dev a ip b w w' resp :
  log_in state u p dev a ip b w = (w', Ok resp) ->
  ar_user resp = user_info u /\ ar_is_new resp = b.
Proof.
  unfold log_in. rewrite bind_run_Ok. intros (w1 & pair & _ & Hrun).
  by apply bind_run_Ok in Hrun as (w2 & [] & _ & [= _ <-]).
Qed.

Lemma move_run req (u : User) pkh ip w w' o :
  (_ ← enforce_pow state (to_lowercase pkh) false (xr_altcha_solution req);
   _ ← update_pubkey_hash (at_identity_pepper state) (u_id u) pkh;
   _ ← upsert_all_keys (u_id u) (xr_keys req);
   resp ← log_in state u Extension "Browser Extension" "btc" (Some ip) false;
   mret (Some resp) : M (option AuthResponse)) w = (w', Ok o) ->
  exists resp, o = Some resp /\ ar_is_new resp = false.
Proof.
  rewrite bind_run_Ok. intros (w1 & ? & _ & Hrun).
  apply bind_run_Ok in Hrun as (w2 & ? & _ & Hrun).
  apply bind_run_Ok in Hrun as (w3 & ? & _ & Hrun).
  apply bind_run_Ok in Hrun as (w4 & resp & Hl & [= _ <-]).
  apply log_in_run in Hl as [_ Hl]. eauto.
Qed.

(** Moving an account makes none; with no account to move, nothing is done. *)
Lemma rotate_run req b pkh ip w0 w w' o :
  reaches S w0 w -> rotate_or_adopt state req b pkh ip w = (w', Ok o) ->
  (exists resp, o = Some resp /\ ar_is_new resp = false) \/ (o = None /\ reaches S w0 w').
Proof.
  unfold rotate_or_adopt. intros Hr Hrun.
  destruct (xr_seed_fingerprint req) as [fp|]; [|injection Hrun as <- <-; by right].
  walk Hrun Hr as w1 [u|] Hu; [|injection Hrun as <- <-; by right].
  walk Hrun Hr as w2 stored Hk.
  destruct (_ && _); [left; by eapply move_run|].
  destruct (rotation_proven _ _ _ _); [left; by eapply move_run|]. injection Hrun as <- <-. by right.
Qed.

(** The account a wallet, a Nostr identity registers. *)
Definition wallet_named (req : ExtensionRegisterRequest) (pkh : string) (n : NewUser) : Prop :=
  nu_pubkey_hash n = Some pkh /\ nu_nostr_pubkey n = None /\ nu_username n = xr_username req.
Definition npub_named (req : NostrRegisterRequest) (npub : string) (n : NewUser) : Prop :=
  nu_pubkey_hash n = None /\ nu_nostr_pubkey n = Some npub /\ nu_username n = nr_username req.

Lemma extension_new_run peer h req w w' resp :
  sched_ok R (w_sched w) ->
  extension_register state peer h req w = (w', Ok resp) -> ar_is_new resp = true ->
  exists b, btc_key_of (xr_keys req) = Some b /\ signed_in req b /\
    let pkh := hash_public_key (ak_public_key b) in
    admitted pkh (to_lowercase pkh) (xr_invite_code req) (xr_payment_invoice_id req)
      (xr_altcha_solution req) (wallet_named req pkh) (ui_id (ar_user resp)) w w'.
Proof.
  unfold extension_register. intros Hok Hrun Hnew. apply around_sched in Hok.
  apply bind_run_Ok in Hrun as (w1 & b & [-> Hb]%ok_or_lift_run & Hrun). exists b. split; [done|].
  pose proof (reaches_refl S w Hok) as Hr.
  walk Hrun Hr as w2 ? E2. walk Hrun Hr as w3 clock E3. walk Hrun Hr as w4 drift E4.
  destruct (_ <? drift)%Z; [done|].
  walk Hrun Hr as w5 [] [_ Hsig]%lift_run_Ok. split; [done|].
  walk Hrun Hr as w6 existing E6.
  apply bind_run_Ok in Hrun as (w7 & moved & Hmoved & Hrun).
  destruct existing as [known|].
  { exfalso. injection Hmoved as <- <-. apply bind_run_Ok in Hrun as (? & ? & _ & Hrun).
    apply bind_run_Ok in Hrun as (? & ? & _ & Hrun).
    apply bind_run_Ok in Hrun as (? & ? & _ & [_ Hl]%log_in_run). by rewrite Hnew in Hl. }
  eapply rotate_run in Hmoved as [(r & -> & Hold)|[-> Hr7]]; [injection Hrun as _ <-; congruence| |exact Hr].
  clear Hr. cbn [is_some] in Hrun.
  apply bind_run_Ok in Hrun as (w8 & [] & Hpow & Hrun).
  pose proof (work_run _ _ _ _ (proj1 (proj2 Hr7)) Hpow) as (_ & Hok8 & _ & _).
  pose proof (reaches_refl S w8 Hok8) as Hr.
  walk Hrun Hr as w9 fp E9.
  apply bind_run_Ok in Hrun as (w10 & u & Hu & Hl).
  walk Hu Hr as w11 ? E11.
  pose proof (proj1 (proj2 Hr)) as Hok11.
  apply bind_run_Ok in Hu as (w12 & g & Hg & Hu).
  pose proof (leads_plan S _ _ _ _ _ _ Hok11 Hg) as Hr12.
  eapply (plan_gates_run S) in Hg; [|done].
  apply bind_run_Ok in Hu as (w13 & keys & [-> Hkeys]%lift_run_Ok & Hu).
  pose proof Hl as Hl'. apply log_in_run in Hl' as [-> _].
  eapply admitted_run; [exact Hr7|exact Hpow| | | |exact Hu|].
  - eapply reaches_trans; [exact Hr|exact Hr12].
  - eapply gates_met_mono; [|exact Hg]. destruct Hr as (_ & _ & _ & ? & _). unfold calls_of. lia.
  - by split_and!.
  - intros Hok10. by eapply leads_log_in.
Qed.

Lemma npub_new_run peer h req w w' resp :
  sched_ok R (w_sched w) ->
  nostr_register state peer h req w = (w', Ok resp) -> ar_is_new resp = true ->
  exists npub, action_signer state "/auth/nostr/register" "nostr_register" (nr_nostr_token req)
      (nr_nonce req) npub /\
    admitted (default npub ((fun k => hash_public_key (ak_public_key k)) <$> btc_key_of (nr_keys req)))
      npub (nr_invite_code req) (nr_payment_invoice_id req) (nr_altcha_solution req)
      (npub_named req npub) (ui_id (ar_user resp)) w w'.
Proof.
  unfold nostr_register. intros Hok Hrun Hnew. apply around_sched in Hok.
  pose proof (reaches_refl S w Hok) as Hr.
  walk Hrun Hr as w1 ? E1. walk Hrun Hr as w2 ? E2. walk Hrun Hr as w3 ? E3.
  assert (Hl : leads S (signed_npub state "/auth/nostr/register" "nostr_register" (nr_nostr_token req) (nr_nonce req)))
    by (unfold signed_npub; cbv zeta; leads_steps).
  walk Hrun Hr as w4 npub Hnpub. clear Hl. exists npub.
  split.
  { unfold signed_npub in Hnpub.
    apply bind_run_Ok in Hnpub as (? & url & [_ Hurl]%lift_run_Ok & Hnpub).
    apply bind_run_Ok in Hnpub as (? & now & _ & [_ Hs%nip98_or_reject_Ok]%lift_run_Ok).
    by exists (timestamp now), url. }
  walk Hrun Hr as w5 known E5.
  apply bind_run_Ok in Hrun as (w6 & [] & Hpow & Hrun).
  apply bind_run_Ok in Hrun as (w7 & u & Hu & Hl).
  pose proof Hl as Hl'. apply log_in_run in Hl' as [-> Hb].
  rewrite Hnew in Hb. destruct known; [done|]. cbn [is_some] in *.
  pose proof (work_run _ _ _ _ (proj1 (proj2 Hr)) Hpow) as (_ & Hok6 & _ & _).
  pose proof (reaches_refl S w6 Hok6) as Hr6.
  walk Hu Hr6 as w8 owner E8. destruct (is_some owner); [done|].
  walk Hu Hr6 as w9 ? E9. pose proof (proj1 (proj2 Hr6)) as Hok9.
  apply bind_run_Ok in Hu as (w10 & g & Hg & Hu).
  pose proof (leads_plan S _ _ _ _ _ _ Hok9 Hg) as Hr10.
  eapply (plan_gates_run S) in Hg; [|done].
  apply bind_run_Ok in Hu as (w11 & keys & [-> Hkeys]%lift_run_Ok & Hu).
  eapply admitted_run; [exact Hr|exact Hpow| | | |exact Hu|].
  - eapply reaches_trans; [exact Hr6|exact Hr10].
  - eapply gates_met_mono; [|exact Hg]. destruct Hr6 as (_ & _ & _ & ? & _). unfold calls_of. lia.
  - by split_and!.
  - intros Hok7. by eapply leads_log_in.
Qed.
End gates.

(** C14: a new account is never free.  Whatever steps [R] the others take meanwhile,
    when the registration of a wallet or of a Nostr identity reports a new account, the
    wallet's key (the npub) signed the request, a proof of work was found good and spent
    for the first time if the configuration asks one of that key (or one was
    presented to an instance that checks them), and then, during the run, the account
    was inserted under that key by one transaction that spent the tokens the configuration
    asks for: in [all] mode one of each enabled gate, in [any] mode exactly one of an
    enabled kind; the invite is the one presented, never used and not expired, and the
    invoice is the one presented,
    bound to this key, unspent, and reported settled by the processor at a call of the
    run.  The rest of the run leaves the accounts and the tokens as they are but for what
    the others do. *)
Theorem new_account_gated `{Ext} `{Hmac} `{Jwt} `{Nostr} `{Curves} `{Altcha} `{Net} `{Chrono}
    state peer h R w (Hothers : sched_ok R (w_sched w)) :
  (forall req w' resp, extension_register state peer h req w = (w', Ok resp) ->
     ar_is_new resp = true ->
     exists b, btc_key_of (xr_keys req) = Some b /\ signed_in req b /\
       let pkh := hash_public_key (ak_public_key b) in
       admitted state R pkh (to_lowercase pkh) (xr_invite_code req) (xr_payment_invoice_id req)
         (xr_altcha_solution req) (wallet_named req pkh) (ui_id (ar_user resp)) w w') /\
  (forall req w' resp, nostr_register state peer h req w = (w', Ok resp) ->
     ar_is_new resp = true ->
     exists npub, action_signer state "/auth/nostr/register" "nostr_register"
         (nr_nostr_token req) (nr_nonce req) npub /\
       admitted state R
         (default npub ((fun k => hash_public_key (ak_public_key k)) <$> btc_key_of (nr_keys req)))
         npub (nr_invite_code req) (nr_payment_invoice_id req) (nr_altcha_solution req)
         (npub_named req npub) (ui_id (ar_user resp)) w w').
Proof.
  split; intros req w' resp; [by apply extension_new_run|by apply npub_new_run].
Qed.

(** A login reported as returning may still mint an account: between the check
    and the insertion the account moves to another key, and the old key gets a
    second account although the instance is invite-only. *)
Definition invite_only : AuthState :=
  mkAuthState demo_net demo_sm "pep" "salt" "rt" (Some "https://x/") (mkPowConfig false "" false 0 [])
    (mkRegistrationConfig true (mkPaymentConfig false "btcpay" "" "" "" "" "" 0 0) GateAll) None [].

(** Alice logs in with her first key while her rotation to another commits: after
    the first read of her row, the move. *)
Definition moving_slots : list Slot :=
  [quiet_slot;
   mkSlot (fun now d => match update_user 1 (set_pubkey_hash "moved") now d with
                        | inr (d', _) => d' | inl _ => d end) 1 NoFault].

Definition demo_race : World * outcome AuthResponse :=
  extension_register invite_only "1.2.3.4" []
    (mkExtensionRegisterRequest demo_altcha [mkAssetPublicKey "btc" (demo_pub "alice") None] None
       None None None None 0 (demo_sign "alice" "smirk-auth-0") None None None None)
    (mkWorld demo_accounts 0 0 moving_slots 0 (fun n => N.of_nat (100 + n)) []).

Example returning_login_mints_ungated :
  match demo_race with
  | (w, Ok resp) => ar_is_new resp = false /\ size (users (w_db w)) = 2
  | _ => False
  end.
Proof. vm_compute. split; reflexivity. Qed.

(** Bob registers on an instance that asks a proof of work and an invite. *)
Definition costly : AuthState :=
  mkAuthState demo_net demo_sm "pep" "salt" "rt" (Some "https://x/") demo_pow_cfg
    (mkRegistrationConfig true (mkPaymentConfig false "btcpay" "" "" "" "" "" 0 0) GateAll) None [].
Definition demo_invited : World :=
  quiet_world (demo_accounts <|invite_codes :=
    {[hash_invite_code "c0de" := mkInviteCodeRow "c0de" 0 None None None None]}|>) 0.
Definition demo_newcomer : ExtensionRegisterRequest :=
  mkExtensionRegisterRequest demo_altcha [mkAssetPublicKey "btc" (demo_pub "bob") None] (Some "bobby")
    None None None None 0 (demo_sign "bob" "smirk-auth-0") None (Some demo_solve) (Some "c0de") None.
Definition demo_admission : World * outcome AuthResponse :=
  extension_register costly "1.2.3.4" [] demo_newcomer demo_invited.

Lemma new_account_gated_witness :
  exists w' resp, demo_admission = (w', Ok resp) /\ ar_is_new resp = true /\
    exists b, btc_key_of (xr_keys demo_newcomer) = Some b /\ signed_in demo_newcomer b /\
      let pkh := hash_public_key (ak_public_key b) in
      admitted costly idle pkh (to_lowercase pkh) (Some "c0de") None (Some demo_solve)
        (wallet_named demo_newcomer pkh) (ui_id (ar_user resp)) demo_invited w'.
Proof.
  assert (Hok : match demo_admission.2 with Ok r => ar_is_new r | _ => false end = true) by (by vm_compute).
  destruct demo_admission as [w' o] eqn:E. destruct o as [resp|e|]; [|discriminate Hok..].
  exists w', resp. split; [reflexivity|]. split; [exact Hok|].
  destruct (new_account_gated costly "1.2.3.4" [] idle demo_invited (sched_ok_nil _)) as [Hreg _].
  exact (Hreg demo_newcomer w' resp E Hok).
Defined.

(** A timestamp at the end of the range overflows the subtraction. *)
Theorem timestamp_panics `{Ext} `{Hmac} `{Jwt} `{Nostr} `{Curves} `{Altcha} `{Net} `{Chrono}
    state peer h req b w
    (Hb : btc_key_of (xr_keys req) = Some b) (Hname : xr_username req = None)
    (Hts : xr_signed_timestamp req = I64_MIN) (Hnow : (0 <= timestamp (w_now w + w_skew w))%Z) :
  (extension_register state peer h req w).2 = Panic.
Proof.
  unfold extension_register, mbind, M_bind, lift, utc_now. rewrite Hb, Hname. simpl.
  unfold i64_checked_sub_abs. rewrite Hts.
  rewrite (proj2 (Z.leb_gt _ I64_MAX)); [by rewrite andb_false_r|].
  unfold I64_MIN, I64_MAX in *. lia.
Qed.

(** * Refresh tokens *)

(** [sid] is the session of the hash, if one is left; rows are filed under their
    ids. *)
Definition one_session (h : string) (sid : Uuid) (d : Db) : Prop :=
  forall k s, sessions d !! k = Some s -> s_id s = k /\ (s_refresh_token_hash s = h <-> k = sid).

(** What the system does to the sessions, no new token having that hash nor that
    session id. *)
Inductive token_step (h : string) (sid : Uuid) : Rel :=
| ts_create n t d d' s : ns_refresh_token_hash n <> h -> ns_id n <> sid ->
    sql_create_session n t d = inr (d', s) -> token_step h sid t d d'
| ts_touch j t d d' : sql_touch_session j t d = inr (d', tt) -> token_step h sid t d d'
| ts_revoke j t d d' n : sql_revoke_session j t d = inr (d', n) -> token_step h sid t d d'
| ts_revoke_all u t d d' n :
    sql_revoke_all_user_sessions u t d = inr (d', n) -> token_step h sid t d d'
| ts_cleanup t d d' n : sql_cleanup_expired_sessions t d = inr (d', n) -> token_step h sid t d d'
| ts_delete_user u t d d' : sql_delete_user u t d = inr (d', tt) -> token_step h sid t d d'
| ts_other t d d' : sessions d' = sessions d -> token_step h sid t d d'.

(** The instant a token is spent: its session goes from live to revoked. *)
Definition burns (h : string) (t : Time) (d d' : Db) : Prop :=
  exists k s, sessions d !! k = Some s /\ s_refresh_token_hash s = h /\ s_revoked_at s = None /\
    sessions d' = <[k := s <|s_revoked_at := Some t|>]> (sessions d).

(** A step neither revives nor renames a session; a new one is another's. *)
Lemma token_step_back h sid t d d' k s' :
  token_step h sid t d d' -> sessions d' !! k = Some s' ->
  (s_refresh_token_hash s' <> h /\ k <> sid /\ s_id s' = k) \/
  exists s, sessions d !! k = Some s /\ s_id s' = s_id s /\
    s_refresh_token_hash s' = s_refresh_token_hash s /\
    (is_Some (s_revoked_at s) -> is_Some (s_revoked_at s')).
Proof.
  intros Hs Hl. destruct Hs as
    [n t d d' s Hne Hid E|j t d d' E|j t d d' n E|u t d d' n E|t d d' n E|u t d d' E|t d d' E].
  - unfold sql_create_session in E. repeat case_hyp E; try done.
    injection E as <- _. simpl in Hl. apply lookup_insert_Some in Hl as [[<- <-]|[_ Hl]]; eauto 10.
  - injection E as <-. simpl in Hl.
    apply lookup_alter_Some in Hl as [(-> & s0 & H0 & ->)|[_ H0]]; right; eauto 10.
  - unfold sql_revoke_session in E. repeat case_hyp E; injection E as <- _; eauto 10.
    simpl in Hl. apply lookup_insert_Some in Hl as [[<- <-]|[_ Hl]]; right; eauto 10.
  - injection E as <- _. simpl in Hl. rewrite lookup_fmap in Hl.
    apply fmap_Some in Hl as (s0 & H0 & ->). right. exists s0.
    destruct (revocable u s0); simpl; eauto 10.
  - injection E as <- _. simpl in Hl. apply map_lookup_filter_Some in Hl as [H0 _]. eauto 10.
  - unfold sql_delete_user in E. case_hyp E; [|done]. injection E as <-. simpl in Hl.
    apply map_lookup_filter_Some in Hl as [H0 _]. eauto 10.
  - rewrite E in Hl. eauto 10.
Qed.

Lemma one_session_stable h sid : stable (token_step h sid) (one_session h sid).
Proof.
  intros t d d' Hs Hone k s Hl.
  destruct (token_step_back _ _ _ _ _ _ _ Hs Hl) as [(? & ? & ?)|(s0 & H0 & -> & -> & _)]; [|auto].
  split; [done|]. by split.
Qed.

Lemma dead_token_stable h sid : stable (token_step h sid) (session_dead sid).
Proof.
  intros t d d' Hs Hb s Hl.
  destruct (token_step_back _ _ _ _ _ _ _ Hs Hl) as [(_ & ? & _)|(s0 & H0 & _ & _ & Hr)]; [done|].
  by apply Hr, Hb.
Qed.

(** A refresh token is good for one refresh.  Every refresh that succeeds has
    an instant at which it turned the token's session from live to revoked, and
    after that instant, whatever the system does (other refreshes of the same
    token included, started before or after), that never happens again: of two
    refreshes of one token, however they overlap, at most one succeeds. *)
Theorem refresh_token_single_use `{Ext} `{Hmac} `{Jwt} `{Net} state tok h sid w w' resp
    (Hh : h = hash_refresh_token tok (at_refresh_token_pepper state))
    (Hone : one_session h sid (w_db w)) (Hok : sched_ok (token_step h sid) (w_sched w))
    (Hrun : refresh_session state tok w = (w', Ok resp)) :
  exists t d1 d2, steps (token_step h sid) (w_db w) d1 /\ burns h t d1 d2 /\
    forall d3 t' d4, steps (token_step h sid) d2 d3 -> ~ burns h t' d3 d4.
Proof.
  unfold refresh_session in Hrun. rewrite <- Hh in Hrun.
  apply bind_run_Ok in Hrun as (w1 & clock & [= <- _] & Hrun).
  apply bind_run_Ok in Hrun as (w2 & [u jti] & [-> _]%lift_run_Ok & Hrun).
  apply bind_run_Ok in Hrun as (w3 & found & Hl & Hrun).
  apply (run_stmt_Ok _ _ _ _ _ _ Hok) in Hl as (d & Hst1 & Hl & Hok1 & _).
  injection Hl as Hd Hfound.
  apply bind_run_Ok in Hrun as (w4 & s & [-> Hs]%lift_run_Ok & Hrun). apply ok_or_Ok in Hs.
  destruct (negb _); [done|].
  apply bind_run_Ok in Hrun as (w5 & known & Hg & Hrun).
  apply (run_stmt_Ok _ _ _ _ _ _ Hok1) in Hg as (d2 & Hst2 & Hg & Hok2 & _).
  injection Hg as Hd2 _.
  apply bind_run_Ok in Hrun as (w6 & x & [-> _]%lift_run_Ok & Hrun).
  apply bind_run_Ok in Hrun as (w7 & p & [-> _]%lift_run_Ok & Hrun).
  apply bind_run_Ok in Hrun as (w8 & b & Hrev & Hrun).
  destruct b; [|done]. clear Hrun. unfold revoke_session in Hrev.
  apply bind_run_Ok in Hrev as (w9 & n & Hrev & [= <- Hn]).
  apply (run_stmt_Ok _ _ _ _ _ _ Hok2) in Hrev as (d3 & Hst3 & Hrev & _).
  rewrite <- Hd in Hst2. rewrite <- Hd2 in Hst3.
  assert (Hst : one_session h sid d) by (by eapply steps_stable; [apply one_session_stable|..]).
  assert (Hsid : s_id s = sid).
  { rewrite Hs in Hfound. apply fmap_Some in Hfound as ([k y] & Hh' & ->).
    apply head_Some_elem_of, list_elem_of_filter in Hh' as [Hlive Hin%elem_of_map_to_list].
    apply andb_true_iff in Hlive as [Hlive%String.eqb_eq _].
    destruct (Hst k y Hin) as [Hid Hk]. simpl. rewrite Hid. by apply Hk. }
  assert (Hst' : one_session h sid d3).
  { eapply steps_stable; [apply one_session_stable| |exact Hst]. by eapply steps_trans. }
  rewrite Hsid in Hrev. pose proof (revoke_session_dead _ _ _ _ _ Hrev) as Hdead.
  assert (Hb : burns h (w_now w9) d3 (w_db w9)).
  { unfold sql_revoke_session in Hrev. destruct (sessions d3 !! sid) as [y|] eqn:Hy;
      [|injection Hrev as _ <-; done].
    destruct (s_revoked_at y) eqn:Hr; simpl in Hrev; [injection Hrev as _ <-; done|].
    injection Hrev as <- _. exists sid, y. split_and!; try done. by apply (Hst' sid y Hy). }
  exists (w_now w9), d3, (w_db w9). split_and!; [|exact Hb|].
  { eapply steps_trans; [exact Hst1|]. by eapply steps_trans. }
  intros d4 t' d5 Hlater (k & y & Hk & Hhash & Hnone & _).
  assert (Hst4 : one_session h sid d4).
  { eapply steps_stable; [apply one_session_stable|exact Hlater|].
    apply (one_session_stable h sid (w_now w9) d3); [|done]. by eapply ts_revoke. }
  apply (steps_stable _ _ _ _ (dead_token_stable h sid) Hlater) in Hdead.
  assert (k = sid) as -> by (by apply (Hst4 k y Hk)).
  destruct (Hdead y Hk) as [? Hs']. congruence.
Qed.

Definition demo_refresh_token : string := refresh_token demo_pair.
Definition demo_refresh_hash : string := hash_refresh_token demo_refresh_token (at_refresh_token_pepper demo_auth_state).
Definition demo_refresh_session : Session :=
  mkSession 7 1 demo_refresh_hash "web" None 0 (30 * DAY)%Z None 0.
Definition demo_refresh_db : Db :=
  demo_accounts <|sessions := {[ 7%N := demo_refresh_session ]}|>.
Definition demo_refresh : World * outcome AuthResponse :=
  refresh_session demo_auth_state demo_refresh_token (quiet_world demo_refresh_db HOUR).

(** The second use of the token is refused. *)
Example refreshed_token_refused :
  (refresh_session demo_auth_state demo_refresh_token (demo_refresh.1)).2 = Err invalid_token.
Proof. by vm_compute. Qed.

Lemma refresh_token_single_use_witness :
  exists resp t d1 d2, demo_refresh.2 = Ok resp /\ burns demo_refresh_hash t d1 d2 /\
    forall d3 t' d4, steps (token_step demo_refresh_hash 7) d2 d3 ->
      ~ burns demo_refresh_hash t' d3 d4.
Proof.
  assert (Hok : is_ok demo_refresh.2 = true) by (by vm_compute).
  destruct demo_refresh as [w' o] eqn:E. destruct o as [resp|e|]; [|discriminate Hok..].
  destruct (refresh_token_single_use demo_auth_state demo_refresh_token demo_refresh_hash 7
    (quiet_world demo_refresh_db HOUR) w' resp eq_refl) as (t & d1 & d2 & _ & Hb & Hno).
  - intros k s Hk. change (({[7%N := demo_refresh_session]} : gmap Uuid Session) !! k = Some s) in Hk.
    apply lookup_singleton_Some in Hk as [<- <-].
    split; [reflexivity|]. split; intros _; reflexivity.
  - apply sched_ok_nil.
  - exact E.
  - exists resp, t, d1, d2. split; [reflexivity|]. split; [exact Hb|exact Hno].
Defined.
