(* ===== verification/RestoreCheck.v ===== *)
(** The governors of [check_restore] ([src/api/auth.rs]): how much an address can
    learn in an hour, request after request. *)

From Stdlib Require Import ZArith Lia Ascii String Strings.Byte.
From S2P Require Import Prelude RustStr Errors Db Effects TipStatus SocialTips Transactions Pepper AuditChain Demo Auth TipApi Slatepack Nip98 Signatures Challenges Events RelayPolicy Pow Registration Premium Users AuthApi AuthSafety.

Local Open Scope string_scope.

(** * Counting attempts *)

Lemma count_attempts_insert p d d' k a :
  restore_attempts d !! k = None ->
  restore_attempts d' = <[k := a]> (restore_attempts d) ->
  count_attempts p d' = (count_attempts p d + if p a then 1 else 0)%Z.
Proof.
  intros Hk Hd'. unfold count_attempts. rewrite Hd'.
  change (Z.of_nat (count_where p (<[k := a]> (restore_attempts d)))
    = Z.of_nat (count_where p (restore_attempts d)) + if p a then 1 else 0)%Z.
  rewrite count_where_insert by done. destruct (p a); simpl; lia.
Qed.

Lemma count_attempts_mono (p q : RestoreAttempt -> bool) d :
  (forall a, p a = true -> q a = true) -> (count_attempts p d <= count_attempts q d)%Z.
Proof. intros Hpq. by apply inj_le, (count_where_mono p q (restore_attempts d)). Qed.

(** Rows that are kept are still counted. *)
Lemma count_where_kept `{Countable K} {A} (p : A -> bool) (m m' : gmap K A) :
  (forall k a, m !! k = Some a -> p a = true -> m' !! k = Some a) ->
  count_where p m <= count_where p m'.
Proof.
  revert m'. induction m as [|k x m Hk IH] using map_ind; intros m' Hkept.
  { unfold count_where. rewrite map_to_list_empty. simpl. lia. }
  rewrite count_where_insert by done. destruct (p x) eqn:Hp.
  - assert (Hk' : m' !! k = Some x) by (apply Hkept; [apply lookup_insert_eq|done]).
    rewrite <- (insert_delete_id m' k x Hk'), count_where_insert, Hp by apply lookup_delete_eq.
    apply le_n_S, IH. intros j a Hj Ha. rewrite lookup_delete_ne by congruence.
    apply Hkept; [|done]. rewrite lookup_insert_ne; congruence.
  - apply IH. intros j a Hj Ha. apply Hkept; [|done]. rewrite lookup_insert_ne; congruence.
Qed.

Section probing.
Context `{Ext} `{Hmac} `{Net} (state : AuthState) (peer : IpAddr) (h : HeaderMap).

(** The address the governors see, as it is stored; a fingerprint as it is
    stored. *)
Definition probing_ip : string :=
  hash_ip (at_ip_salt state) (ip_to_string (client_ip (at_trusted_proxies state) h peer)).
Definition stored_fp (fp : string) : string :=
  peppered_hex (at_identity_pepper state) "restore_fingerprint" fp.

(** One attempt: its time, its fingerprint, its keys; and what the rest of the
    system did before it. *)
Definition Probe : Type := Time * string * list AssetPublicKey * (Db -> Db).

(** What the rest of the system keeps between the attempts: the attempts recorded
    since [t0], and the identifiers still to be drawn. *)
Definition keeps_attempts (t0 : Time) (ids : nat -> Uuid) (other : Db -> Db) : Prop :=
  forall d,
    (forall k a, restore_attempts d !! k = Some a -> (t0 <= ra_created_at a)%Z ->
       restore_attempts (other d) !! k = Some a) /\
    (forall n, restore_attempts d !! ids n = None -> restore_attempts (other d) !! ids n = None).

(** The answers to a sequence of attempts, each after the one before. *)
Fixpoint probes (ps : list Probe) (w : World) : list (string * CheckRestoreResponse) :=
  match ps with
  | [] => []
  | (t, fp, keys, other) :: ps =>
      let '(w', o) := check_restore state peer h fp keys (w <|w_now := t|> <|w_db := other (w_db w)|>) in
      match o with
      | Ok resp => (fp, resp) :: probes ps w'
      | _ => probes ps w'
      end
  end.

(** An answer that is not a full match. *)
Definition a_miss (fp : string) (x : string * CheckRestoreResponse) : bool :=
  (x.1 =? fp) && negb (bool_decide (cr_keys_valid x.2 = Some true)).

(** The identifiers still to come are new. *)
Definition ids_fresh (w : World) : Prop :=
  (forall i j, w_rand w i = w_rand w j -> i = j) /\
  forall n, w_calls w <= n -> restore_attempts (w_db w) !! w_rand w n = None.

Lemma record_quiet fp ip b w :
  w_sched w = [] -> ids_fresh w ->
  exists w', swallow (record_restore_attempt (at_identity_pepper state) (at_ip_salt state) fp ip b) w
      = (w', Ok tt) /\ w_sched w' = [] /\ w_rand w' = w_rand w /\ ids_fresh w' /\
    restore_attempts (w_db w') = <[w_rand w (w_calls w) :=
      mkRestoreAttempt (w_rand w (w_calls w)) (stored_fp fp) (hash_ip (at_ip_salt state) <$> ip) b
        (w_now w)]> (restore_attempts (w_db w)) /\
    restore_attempts (w_db w) !! w_rand w (w_calls w) = None.
Proof.
  intros Hq [Hinj Hfree]. unfold swallow, attempt, record_restore_attempt, gen_random_uuid.
  unfold mbind, M_bind. unfold query. rewrite run_stmt_quiet by done. simpl.
  pose proof (Hfree (w_calls w) ltac:(lia)) as Hnew.
  unfold sql_record_restore_attempt. rewrite Hnew. simpl.
  eexists. split; [reflexivity|]. simpl. split_and!; [done|done| |done|done].
  split; [done|]. simpl. intros n Hn. rewrite lookup_insert_ne; [apply Hfree; lia|].
  intros Heq%Hinj. lia.
Qed.

(** A read, alone. *)
Lemma read_quiet {A} (f : Time -> Db -> A) w :
  w_sched w = [] -> query (fun now d => inr (d, f now d)) w = (w, Ok (f (w_now w) (w_db w))).
Proof. intros Hq. unfold query. rewrite run_stmt_quiet by done. by destruct w. Qed.

(** What one request, alone, answers and records. *)
Definition answered (fp : string) (w w' : World) (resp : CheckRestoreResponse) : Prop :=
  exists k b,
    (count_attempts (from_ip probing_ip (w_now w)) (w_db w) < RESTORE_IP_THRESHOLD)%Z /\
    (count_attempts (failed_for (stored_fp fp) (w_now w)) (w_db w) < RESTORE_FAIL_THRESHOLD)%Z /\
    restore_attempts (w_db w) !! k = None /\
    restore_attempts (w_db w') = <[k := mkRestoreAttempt k (stored_fp fp) (Some probing_ip) b
      (w_now w)]> (restore_attempts (w_db w)) /\
    (b = true <-> cr_keys_valid resp = Some true).

Lemma record_answers fp b w resp :
  w_sched w = [] -> ids_fresh w ->
  (count_attempts (from_ip probing_ip (w_now w)) (w_db w) < RESTORE_IP_THRESHOLD)%Z ->
  (count_attempts (failed_for (stored_fp fp) (w_now w)) (w_db w) < RESTORE_FAIL_THRESHOLD)%Z ->
  (b = true <-> cr_keys_valid resp = Some true) ->
  exists w', (_ ← swallow (record_restore_attempt (at_identity_pepper state) (at_ip_salt state) fp
      (Some (ip_to_string (client_ip (at_trusted_proxies state) h peer))) b); mret resp : M _) w
    = (w', Ok resp) /\ w_sched w' = [] /\ w_rand w' = w_rand w /\ ids_fresh w' /\ answered fp w w' resp.
Proof.
  intros Hq Hids H1' H2' Hb. destruct (record_quiet fp
    (Some (ip_to_string (client_ip (at_trusted_proxies state) h peer))) b w Hq Hids)
    as (w' & Hrun & Hq' & Hrand & Hids' & Hins & Hnew).
  exists w'. unfold mbind, M_bind. rewrite Hrun. split_and!; try done.
  eexists _, b. split_and!; [done|done|exact Hnew|exact Hins|exact Hb].
Qed.

(** One request, alone. *)
Lemma check_restore_quiet fp keys w :
  w_sched w = [] -> ids_fresh w ->
  exists w' o, check_restore state peer h fp keys w = (w', o) /\ w_sched w' = [] /\ w_rand w' = w_rand w /\ ids_fresh w' /\
  match o with
  | Ok resp => answered fp w w' resp
  | _ => restore_attempts (w_db w') = restore_attempts (w_db w)
  end.
Proof.
  intros Hq Hids. unfold check_restore.
  destruct (_ || _); [by do 2 eexists|].
  unfold mbind at 1, M_bind at 1, count_ip_restore_attempts, sql_count_ip.
  rewrite read_quiet by done. destruct (_ <=? _)%Z eqn:E1; [by do 2 eexists|].
  unfold mbind at 1, M_bind at 1, count_failed_restore_attempts, sql_count_failed.
  rewrite read_quiet by done. destruct (RESTORE_FAIL_THRESHOLD <=? _)%Z eqn:E2; [by do 2 eexists|].
  apply Z.leb_gt in E1, E2.
  unfold mbind at 1, M_bind at 1, get_user_by_seed_fingerprint, sql_get_user_by_seed_fingerprint,
    find_user. rewrite read_quiet by done.
  destruct (head _) as [u|].
  - unfold mbind at 1, M_bind at 1, get_user_keys. rewrite read_quiet by done.
    match goal with |- context [record_restore_attempt _ _ _ _ ?x] => set (b := x) end.
    destruct (record_answers fp b w (mkCheckRestoreResponse true (Some b) (u_xmr_start_height u)
      (u_wow_start_height u)) Hq Hids E1 E2) as (w' & Hrun & Hrest).
    { simpl. split; [by intros ->|by intros [=]]. }
    exists w'. eexists. split; [exact Hrun|exact Hrest].
  - edestruct (record_answers fp false w (mkCheckRestoreResponse false None None None) Hq Hids E1 E2)
      as (w' & Hrun & Hrest); [done|exists w'; eexists; split; [exact Hrun|exact Hrest]].
Qed.

(** Attempts of the hour that began at [t0]. *)
Definition since (t0 : Time) (p : RestoreAttempt -> bool) (a : RestoreAttempt) : bool :=
  p a && (t0 <=? ra_created_at a)%Z.

Lemma since_counted t0 t p (q : Time -> RestoreAttempt -> bool) d :
  (t < t0 + HOUR)%Z -> (forall a, p a = true -> (t - HOUR <? ra_created_at a)%Z = true -> q t a = true) ->
  (count_attempts (since t0 p) d <= count_attempts (q t) d)%Z.
Proof.
  intros Ht Hq. apply count_attempts_mono. intros a [Hp Ha%Z.leb_le]%andb_true_iff.
  apply Hq; [done|]. apply Z.ltb_lt. lia.
Qed.

Definition by_ip (a : RestoreAttempt) : bool := sql_eq (ra_ip_hash a) probing_ip.
Definition miss_of (fp : string) (a : RestoreAttempt) : bool :=
  (ra_fingerprint a =? stored_fp fp) && negb (ra_success a).

Lemma probes_cons t fp keys other ps w :
  probes ((t, fp, keys, other) :: ps) w =
  match check_restore state peer h fp keys (w <|w_now := t|> <|w_db := other (w_db w)|>) with
  | (w', Ok resp) => (fp, resp) :: probes ps w'
  | (w', _) => probes ps w'
  end.
Proof. simpl. by destruct (check_restore _ _ _ _ _ _) as [? []]. Qed.

(** The attempts of the hour [t0] begins. *)
Definition within_hour (t0 : Time) (ids : nat -> Uuid) (ps : list Probe) : Prop :=
  forall t fp keys other, (t, fp, keys, other) ∈ ps ->
    (t0 <= t < t0 + HOUR)%Z /\ keeps_attempts t0 ids other.

Lemma since_kept t0 ids other p d :
  keeps_attempts t0 ids other ->
  (count_attempts (since t0 p) d <= count_attempts (since t0 p) (other d))%Z.
Proof.
  intros Hk. apply inj_le, count_where_kept. intros k a Ha [_ Ht%Z.leb_le]%andb_true_iff.
  by apply (Hk d).
Qed.

Lemma probes_bounded t0 ps w :
  w_sched w = [] -> ids_fresh w -> within_hour t0 (w_rand w) ps ->
  (0 < Z.of_nat (length (probes ps w)) ->
    count_attempts (since t0 by_ip) (w_db w) + Z.of_nat (length (probes ps w)) <= RESTORE_IP_THRESHOLD)%Z /\
  forall fp, (0 < Z.of_nat (length (base.filter (fun x => a_miss fp x = true) (probes ps w))) ->
    count_attempts (since t0 (miss_of fp)) (w_db w)
    + Z.of_nat (length (base.filter (fun x => a_miss fp x = true) (probes ps w)))
    <= RESTORE_FAIL_THRESHOLD)%Z.
Proof.
  revert w. induction ps as [|[[[t fp0] keys] other] ps IH]; intros w Hq Hids Hps; [split; [done|by intros]|].
  destruct (Hps t fp0 keys other) as [Ht Hother]; [by left|].
  rewrite probes_cons. set (w1 := w <|w_now := t|> <|w_db := other (w_db w)|>).
  assert (Hids1 : ids_fresh w1).
  { destruct Hids as [Hinj Hfree]. split; [exact Hinj|]. intros n Hn. simpl. by apply Hother, Hfree. }
  destruct (check_restore_quiet fp0 keys w1 Hq Hids1)
    as (w' & o & Hrun & Hq' & Hrand & Hids' & Ho).
  rewrite Hrun.
  specialize (IH w' Hq' Hids'). rewrite Hrand in IH.
  specialize (IH ltac:(intros ? ? ? ? Hin; apply (Hps _ fp keys0 other0); by right)).
  pose proof (fun p => since_kept t0 (w_rand w) other p (w_db w) Hother) as Hkept.
  change (other (w_db w)) with (w_db w1) in Hkept.
  assert (Hsame : restore_attempts (w_db w') = restore_attempts (w_db w1) ->
    forall p, count_attempts p (w_db w') = count_attempts p (w_db w1)).
  { intros Heq p. unfold count_attempts. by rewrite Heq. }
  destruct o as [resp|e|].
  2,3: cbn iota; setoid_rewrite (Hsame Ho) in IH; destruct IH as [IH1 IH2];
    (split; [intros Hn; specialize (IH1 Hn); specialize (Hkept by_ip)
            |intros fp Hn; specialize (IH2 fp Hn); specialize (Hkept (miss_of fp))]); lia.
  clear Hsame. destruct Ho as (k & b & Hip & Hfail & Hnew & Hins & Hb).
  assert (Hnow1 : w_now w1 = t) by done. clearbody w1. rewrite Hnow1 in *.
  pose proof (fun p => count_attempts_insert p _ _ _ _ Hnew Hins) as Hcount.
  pose proof (since_counted t0 t by_ip (from_ip probing_ip) (w_db w1) ltac:(lia)
    ltac:(intros a Ha Hc; by apply andb_true_iff)) as Hip0.
  destruct IH as [IH1 IH2]. split.
  - specialize (Hkept by_ip). rewrite Hcount in IH1. unfold since at 2, by_ip at 2 in IH1. simpl in IH1.
    unfold sql_eq in IH1. rewrite bool_decide_eq_true_2 in IH1 by done.
    rewrite (proj2 (Z.leb_le t0 t)) in IH1 by lia. cbn [length]. simpl in IH1. lia.
  - intros fp. specialize (Hkept (miss_of fp)). specialize (IH2 fp). rewrite Hcount in IH2. rewrite filter_cons.
    unfold since at 2, miss_of at 2 in IH2. simpl in IH2.
    rewrite (proj2 (Z.leb_le t0 t)), andb_true_r in IH2 by lia.
    destruct (decide (a_miss fp (fp0, resp) = true)) as [Hm|Hm].
    + cbn [length]. apply andb_true_iff in Hm as [Hfp%String.eqb_eq Hmiss]. simpl in Hfp, Hmiss.
      subst fp0. rewrite String.eqb_refl in IH2.
      assert (b = false) as ->.
      { destruct b; [|done]. rewrite bool_decide_eq_true_2 in Hmiss by (by apply Hb). done. }
      pose proof (since_counted t0 t (miss_of fp) (failed_for (stored_fp fp)) (w_db w1) ltac:(lia)
        ltac:(intros a Ha Hc; unfold failed_for; by apply andb_true_iff)) as Hf0.
      simpl in IH2. lia.
    + destruct (_ && _) in IH2; lia.
Qed.
End probing.

Lemma count_attempts_nonneg p d : (0 <= count_attempts p d)%Z.
Proof. unfold count_attempts. lia. Qed.

(** C35: the restore check is throttled.  Of the attempts one address makes in an
    hour, one after the other, whatever fingerprints and keys they try, at most 30
    are answered; and per fingerprint at most 3 of the answers are misses, so a
    key list cannot be guessed; the attempts of the hour already recorded count.
    Between two attempts the rest of the system does what it likes, but for the
    attempts recorded in that hour, which it keeps; requests of the address
    that overlap are not bounded so. *)
Theorem restore_probing_bounded `{Ext} `{Hmac} `{Net} state peer h t0 ps w
    (Hq : w_sched w = []) (Hids : ids_fresh w) (Hhour : within_hour t0 (w_rand w) ps) :
  let answers := probes state peer h ps w in
  length answers <= 30 /\
  forall fp, length (base.filter (fun x => a_miss fp x = true) answers) <= 3.
Proof.
  destruct (probes_bounded state peer h t0 ps w Hq Hids Hhour) as [H1' H2'].
  unfold RESTORE_IP_THRESHOLD, RESTORE_FAIL_THRESHOLD in *. split.
  - pose proof (count_attempts_nonneg (since t0 (by_ip state peer h)) (w_db w)). lia.
  - intros fp. specialize (H2' fp).
    pose proof (count_attempts_nonneg (since t0 (miss_of state fp)) (w_db w)). lia.
Qed.

(** Five guesses at Alice's keys, a minute apart, while others check theirs: three
    answers. *)
Definition demo_fp : string := "00000000000000f0".
Definition demo_meanwhile (d : Db) : Db :=
  match restore_attempts d !! 1%N with
  | Some _ => d
  | None => d <|restore_attempts := <[1%N := mkRestoreAttempt 1 "other" (Some "elsewhere") false 0]>
                                      (restore_attempts d)|>
  end.
Definition demo_guesses : list Probe :=
  (fun i => (Z.of_nat i * MINUTE, demo_fp, [mkAssetPublicKey "btc" "guess" None], demo_meanwhile)%Z)
    <$> seq 0 5.

Lemma restore_probing_bounded_witness :
  length (probes demo_auth_state "1.2.3.4" [] demo_guesses (quiet_world demo_accounts 0)) = 3 /\
  forall fp, length (base.filter (fun x => a_miss fp x = true)
    (probes demo_auth_state "1.2.3.4" [] demo_guesses (quiet_world demo_accounts 0))) <= 3.
Proof.
  split; [by vm_compute|].
  apply (restore_probing_bounded demo_auth_state "1.2.3.4" [] 0 demo_guesses).
  - done.
  - split; [|done]. intros i j Heq. simpl in Heq. lia.
  - intros t fp keys other Hin. apply list_elem_of_fmap in Hin as (i & [= -> _ _ ->] & Hi%elem_of_seq).
    split; [unfold MINUTE, HOUR, SECOND; unfold MINUTE, SECOND; lia|].
    intros d. unfold demo_meanwhile. destruct (restore_attempts d !! 1%N) as [a|] eqn:E; [done|].
    split; [intros k a Ha _|intros n Hn]; simpl; rewrite lookup_insert_ne; try done.
    + by intros <-; rewrite E in Ha.
    + intros Hk. simpl in Hk. lia.
Defined.
