(* ===== verification/AdminKeys.v ===== *)
(** The administrators' allowlist and sessions: [src/core/crypto/admin_mac.rs],
    [src/infra/db/admin_keys.rs], [src/infra/db/admin_sessions.rs] and the
    bootstrap latch of [src/infra/db/server_config.rs].

    The transactions that take the advisory lock run one at a time; as every
    transaction they are atomic here.  Times are already in microseconds, so
    [trunc_subsecs(6)] is the identity. *)

From Stdlib Require Import ZArith Lia Ascii String.
From stdpp Require Import pretty.
From S2P Require Import Prelude RustStr Errors Db Effects TipStatus SocialTips Transactions Pepper AuditChain Demo Nip98.

Local Open Scope string_scope.

(** * The integrity code of a row *)

Record AdminKeyMacInput := mkAdminKeyMacInput {
  mi_id : Uuid;
  mi_pubkey : string;
  mi_scope : string;
  mi_created_at : Time;
  mi_activated_at : option Time;
  mi_activation_deadline : option Time;
  mi_revoked_at : option Time;
}.

#[export] Instance eta_AdminKeyMacInput : Eta AdminKeyMacInput := fun i =>
  mkAdminKeyMacInput (mi_id i) (mi_pubkey i) (mi_scope i) (mi_created_at i) (mi_activated_at i)
    (mi_activation_deadline i) (mi_revoked_at i).

(** [serde_json::json!([..]).to_string()] on the seven covered values; the
    [serde_json] crate's. *)
Class MacJson := {
  mac_json : string -> string -> string -> i64 -> option i64 -> option i64 -> option i64 -> string;
}.

(** The text of an array determines its values. *)
Class MacJsonLaws (J : MacJson) := {
  mac_json_inj : forall i p s c a d r i' p' s' c' a' d' r',
    mac_json i p s c a d r = mac_json i' p' s' c' a' d' r' ->
    i = i' /\ p = p' /\ s = s' /\ c = c' /\ a = a' /\ d = d' /\ r = r';
}.

Section mac.
Context `{Ext} `{Hmac} `{MacJson}.

Definition mac_text (i : AdminKeyMacInput) : string :=
  mac_json (uuid_to_string (mi_id i)) (mi_pubkey i) (mi_scope i) (mi_created_at i)
    (mi_activated_at i) (mi_activation_deadline i) (mi_revoked_at i).

Definition compute_admin_key_mac (secret : string) (i : AdminKeyMacInput) : string :=
  peppered_hex secret "admin_key_mac" (mac_text i).

Definition verify_admin_key_mac (secret : string) (i : AdminKeyMacInput) (mac_hex : string)
  : bool := ct_eq (compute_admin_key_mac secret i) mac_hex.

Definition mac_input (k : AdminKey) : AdminKeyMacInput :=
  mkAdminKeyMacInput (ak_id k) (ak_pubkey k) (ak_scope k) (ak_created_at k)
    (ak_activated_at k) (ak_activation_deadline k) (ak_revoked_at k).

(** The row with its code recomputed. *)
Definition resealed (secret : string) (k : AdminKey) : AdminKey :=
  k <|ak_integrity_mac := compute_admin_key_mac secret (mac_input k)|>.
Definition sealed (secret : string) (k : AdminKey) : bool :=
  verify_admin_key_mac secret (mac_input k) (ak_integrity_mac k).
End mac.

(** * The allowlist *)

Record NewAdminKey := mkNewAdminKey {
  nw_pubkey : string;
  nw_label : option string;
  nw_scope : string;
  nw_created_by_kind : string;
  nw_activation_deadline : option Time;
}.

Inductive AddKeyOutcome := Created (k : AdminKey) | CapReached.
Inductive RevokeKeyOutcome := Revoked (k : AdminKey) | KeyNotFound | WouldEmptyAllowlist.

Definition key_rows (d : Db) : list AdminKey := snd <$> map_to_list (admin_keys d).
Definition live_keys (d : Db) : list AdminKey :=
  base.filter (fun k => is_none (ak_revoked_at k) = true) (key_rows d).
Definition live_count (d : Db) : i64 := Z.of_nat (length (live_keys d)).
Definition has_pubkey (pubkey : string) (k : AdminKey) : bool := ak_pubkey k =? pubkey.

(** [.. WHERE pubkey = $1 AND revoked_at IS NULL]. *)
Definition live_key_of (pubkey : string) (d : Db) : option AdminKey :=
  head (base.filter (fun k => has_pubkey pubkey k = true) (live_keys d)).

(** [.. WHERE id = $1 AND revoked_at IS NULL FOR UPDATE]. *)
Definition live_key (k : Uuid) (d : Db) : option AdminKey :=
  key ← admin_keys d !! k; if is_none (ak_revoked_at key) then Some key else None.

Definition ak_newer (a b : AdminKey) : Prop := (ak_created_at b <= ak_created_at a)%Z.
#[export] Instance ak_newer_dec a b : Decision (ak_newer a b).
Proof. unfold ak_newer. apply _. Defined.

Definition put_key (k : AdminKey) (d : Db) : Db :=
  d <|admin_keys := <[ak_id k := k]> (admin_keys d)|>.

(** [UPDATE admin_sessions SET revoked_at = NOW() WHERE admin_key_id = $1 AND
    revoked_at IS NULL]. *)
Definition live_of_key (k : Uuid) (s : AdminSession) : bool :=
  bool_decide (as_admin_key_id s = k) && is_none (as_revoked_at s).
Definition sql_revoke_key_sessions (k : Uuid) : Stmt Z := fun now d =>
  inr (d <|admin_sessions :=
             (fun s => if live_of_key k s then s <|as_revoked_at := Some now|> else s)
             <$> admin_sessions d|>,
       Z.of_nat (length (base.filter (fun s => live_of_key k s = true)
                           (snd <$> map_to_list (admin_sessions d))))).

Section keys.
Context `{Ext} `{Hmac} `{MacJson} `{AuditJson}.

(** A pending row; the code covers the values stored. *)
Definition new_admin_key (k : Uuid) (input : NewAdminKey) (secret : string) (created_at : Time)
  : AdminKey :=
  resealed secret (mkAdminKey k (nw_pubkey input) (nw_label input) (nw_scope input) created_at
    (nw_created_by_kind input) None (nw_activation_deadline input) None None "").

(** The primary key and the partial unique index on live public keys. *)
Definition sql_insert_key (key : AdminKey) : Stmt AdminKey := fun _ d =>
  if is_some (admin_keys d !! ak_id key) then inl (PgUniqueViolation "admin_keys_pkey")
  else if is_some (live_key_of (ak_pubkey key) d)
  then inl (PgUniqueViolation "admin_keys_active_pubkey")
  else inr (put_key key d, key).

Definition insert_admin_key (k : Uuid) (input : NewAdminKey) (secret : string) : Tx AdminKey :=
  created_at ← tx_clock;
  tx_stmt (unique_violation_as "an active admin key with this pubkey already exists")
    (sql_insert_key (new_admin_key k input secret created_at)).

Definition live_key_count : Tx i64 := tx_stmt app_error_from_sqlx (fun _ d => inr (d, live_count d)).

Definition find_live_key (k : Uuid) : Tx (option AdminKey) :=
  tx_stmt app_error_from_sqlx (fun _ d => inr (d, live_key k d)).

(** The update of one row, resealed. *)
Definition store_key (secret : string) (key : AdminKey) : Tx AdminKey :=
  tx_stmt app_error_from_sqlx (fun _ d => inr (put_key (resealed secret key) d, resealed secret key)).

Definition revoke_sessions_of (k : Uuid) : Tx unit :=
  _ ← tx_stmt app_error_from_sqlx (sql_revoke_key_sessions k); mret tt.

Definition append_audit (k : Uuid) (audit : NewAdminAudit) (secret : string) : Tx unit :=
  _ ← append_admin_audit k audit secret; mret tt.

Definition create_admin_key_tx (k a : Uuid) (input : NewAdminKey) (audit : NewAdminAudit)
    (secret : string) (max_live : i64) : Tx AddKeyOutcome :=
  live ← live_key_count;
  if (max_live <=? live)%Z then mret CapReached
  else
    key ← insert_admin_key k input secret;
    _ ← append_audit a audit secret;
    mret (Created key).

Definition activate_admin_key_tx (k : Uuid) (secret : string) : Tx (option AdminKey) :=
  found ← find_live_key k;
  match found with
  | Some key =>
      if is_none (ak_activated_at key) then
        activated_at ← tx_clock;
        updated ← store_key secret (key <|ak_activated_at := Some activated_at|>);
        mret (Some updated)
      else mret None
  | None => mret None
  end.

Definition revoke_admin_key_tx (k : Uuid) (secret : string) : Tx (option AdminKey) :=
  found ← find_live_key k;
  match found with
  | Some key =>
      revoked_at ← tx_clock;
      updated ← store_key secret (key <|ak_revoked_at := Some revoked_at|>);
      mret (Some updated)
  | None => mret None
  end.

Definition revoke_admin_key_full_tx (a k : Uuid) (audit : NewAdminAudit) (secret : string)
    (keep_min_live : bool) : Tx RevokeKeyOutcome :=
  live ← live_key_count;
  if keep_min_live && (live <=? 1)%Z then mret WouldEmptyAllowlist
  else
    found ← find_live_key k;
    match found with
    | None => mret KeyNotFound
    | Some key =>
        revoked_at ← tx_clock;
        updated ← store_key secret (key <|ak_revoked_at := Some revoked_at|>);
        _ ← revoke_sessions_of k;
        _ ← append_audit a audit secret;
        mret (Revoked updated)
    end.

Definition rotate_admin_key_tx (a k old_id : Uuid) (new_ : NewAdminKey) (audit : NewAdminAudit)
    (secret : string) : Tx (option AdminKey) :=
  found ← find_live_key old_id;
  match found with
  | None => mret None
  | Some old =>
      revoked_at ← tx_clock;
      _ ← store_key secret (old <|ak_revoked_at := Some revoked_at|>);
      _ ← revoke_sessions_of old_id;
      created ← insert_admin_key k new_ secret;
      _ ← append_audit a audit secret;
      mret (Some created)
  end.

(** ** Methods *)

Definition create_admin_key (input : NewAdminKey) (secret : string) : M AdminKey :=
  k ← gen_random_uuid; run_tx (insert_admin_key k input secret).

Definition create_admin_key_audited (input : NewAdminKey) (audit : NewAdminAudit)
    (secret : string) (max_live : i64) : M AddKeyOutcome :=
  k ← gen_random_uuid; a ← gen_random_uuid;
  run_tx (create_admin_key_tx k a input audit secret max_live).

Definition get_active_admin_key (pubkey secret : string) : M (option AdminKey) :=
  row ← query (fun _ d => inr (d, live_key_of pubkey d));
  mret (match row with
        | Some key => if sealed secret key then Some key else None
        | None => None
        end).

Definition list_admin_keys : M (list AdminKey) :=
  query (fun _ d => inr (d, merge_sort ak_newer (key_rows d))).
Definition count_live_admin_keys : M i64 := query (fun _ d => inr (d, live_count d)).

Definition touch_admin_key_last_used (k : Uuid) : M unit :=
  query (fun now d =>
    inr (d <|admin_keys := alter (fun x => x <|ak_last_used_at := Some now|>) k (admin_keys d)|>, tt)).

Definition activate_admin_key (k : Uuid) (secret : string) : M (option AdminKey) :=
  run_tx (activate_admin_key_tx k secret).
Definition revoke_admin_key (k : Uuid) (secret : string) : M (option AdminKey) :=
  run_tx (revoke_admin_key_tx k secret).
Definition revoke_admin_key_full (k : Uuid) (audit : NewAdminAudit) (secret : string)
    (keep_min_live : bool) : M RevokeKeyOutcome :=
  a ← gen_random_uuid; run_tx (revoke_admin_key_full_tx a k audit secret keep_min_live).
Definition rotate_admin_key (old_id : Uuid) (new_ : NewAdminKey) (audit : NewAdminAudit)
    (secret : string) : M (option AdminKey) :=
  k ← gen_random_uuid; a ← gen_random_uuid;
  run_tx (rotate_admin_key_tx a k old_id new_ audit secret).
End keys.

(** * Sessions *)

Record NewAdminSession := mkNewAdminSession {
  ns_session_id : Uuid;
  ns_admin_key_id : Uuid;
  ns_pubkey : string;
  ns_token_hash : string;
  ns_access_jti : string;
  ns_device : option string;
  ns_ip_address : option string;
  ns_session_expires_at : Time;
}.

Definition live_admin_session (now : Time) (s : AdminSession) : bool :=
  is_none (as_revoked_at s) && (now <? as_expires_at s)%Z.

Definition sql_create_admin_session (n : NewAdminSession) : Stmt AdminSession := fun now d =>
  if is_some (admin_sessions d !! ns_session_id n) then inl (PgUniqueViolation "admin_sessions_pkey")
  else if negb (is_some (admin_keys d !! ns_admin_key_id n))
  then inl (PgForeignKeyViolation "admin_sessions_admin_key_id_fkey")
  else
    let s := mkAdminSession (ns_session_id n) (ns_admin_key_id n) (ns_pubkey n) (ns_token_hash n)
               (ns_access_jti n) (ns_device n) (ns_ip_address n) now (ns_session_expires_at n) None in
    inr (d <|admin_sessions := <[ns_session_id n := s]> (admin_sessions d)|>, s).

Definition sql_find_session_by_jti (jti : string) : Stmt (option AdminSession) := fun now d =>
  inr (d, head (base.filter (fun s => (as_access_jti s =? jti) && live_admin_session now s = true)
                  (snd <$> map_to_list (admin_sessions d)))).

Definition sql_find_admin_session (k : Uuid) : Stmt (option AdminSession) := fun now d =>
  inr (d, s ← admin_sessions d !! k; if live_admin_session now s then Some s else None).

Definition sql_rotate_jti (k : Uuid) (new_jti : string) : Stmt (option AdminSession) := fun now d =>
  match admin_sessions d !! k with
  | Some s =>
      if live_admin_session now s then
        let s' := s <|as_access_jti := new_jti|> in
        inr (d <|admin_sessions := <[k := s']> (admin_sessions d)|>, Some s')
      else inr (d, None)
  | None => inr (d, None)
  end.

Definition sql_revoke_admin_session (k : Uuid) : Stmt Z := fun now d =>
  match admin_sessions d !! k with
  | Some s =>
      if is_none (as_revoked_at s)
      then inr (d <|admin_sessions := <[k := s <|as_revoked_at := Some now|>]> (admin_sessions d)|>, 1%Z)
      else inr (d, 0%Z)
  | None => inr (d, 0%Z)
  end.

Definition dead_session (now : Time) (s : AdminSession) : bool :=
  (as_expires_at s <=? now)%Z || is_some (as_revoked_at s).
Definition sql_delete_dead_admin_sessions : Stmt Z := fun now d =>
  inr (d <|admin_sessions := base.filter (fun kv => dead_session now kv.2 = false) (admin_sessions d)|>,
       Z.of_nat (length (base.filter (fun s => dead_session now s = true)
                           (snd <$> map_to_list (admin_sessions d))))).

Section sessions.
Context `{Ext} `{Hmac} `{AuditJson}.

Definition create_admin_session (n : NewAdminSession) : M AdminSession :=
  query (sql_create_admin_session n).

Definition create_session_tx (a : Uuid) (n : NewAdminSession) (audit : NewAdminAudit)
    (secret : string) : Tx AdminSession :=
  row ← tx_stmt app_error_from_sqlx (sql_create_admin_session n);
  _ ← append_audit a audit secret;
  mret row.
Definition create_admin_session_audited (n : NewAdminSession) (audit : NewAdminAudit)
    (secret : string) : M AdminSession :=
  a ← gen_random_uuid; run_tx (create_session_tx a n audit secret).

Definition find_active_admin_session_by_jti (jti : string) : M (option AdminSession) :=
  query (sql_find_session_by_jti jti).
Definition find_active_admin_session_by_id (k : Uuid) : M (option AdminSession) :=
  query (sql_find_admin_session k).
Definition rotate_admin_session_jti (k : Uuid) (jti : string) : M (option AdminSession) :=
  query (sql_rotate_jti k jti).
Definition revoke_admin_session (k : Uuid) : M bool :=
  n ← query (sql_revoke_admin_session k); mret (0 <? n)%Z.
Definition revoke_admin_sessions_for_key (k : Uuid) : M Z := query (sql_revoke_key_sessions k).
Definition delete_dead_admin_sessions : M Z := query sql_delete_dead_admin_sessions.
End sessions.

(** * The bootstrap latch *)

Inductive SetupState := Fresh | Uninitialized | Locked | Tampered.

#[export] Instance SetupState_eq_dec : EqDecision SetupState.
Proof. solve_decision. Defined.

Section latch.
Context `{Ext} `{Hmac} `{MacJson} `{AuditJson}.

Definition latch_text (setup_state : string) (completed : option i64) : string :=
  setup_state ++ unit_sep ++ match completed with Some m => pretty m | None => "null" end.

Definition latch_mac (secret setup_state : string) (completed : option i64) : string :=
  peppered_hex secret "server_config" (latch_text setup_state completed).

Definition verify_latch (secret : string) (c : ServerConfig) : bool :=
  ct_eq (latch_mac secret (sc_setup_state c) (sc_bootstrap_completed_at c)) (sc_integrity_mac c).

Definition setup_state_of (secret : string) (row : option ServerConfig) : SetupState :=
  match row with
  | None => Fresh
  | Some c => if negb (verify_latch secret c) then Tampered
              else if sc_setup_state c =? "locked" then Locked else Uninitialized
  end.

Definition read_setup_state (secret : string) : M SetupState :=
  row ← query (fun _ d => inr (d, server_config d)); mret (setup_state_of secret row).

Definition has_any_users : M bool :=
  query (fun _ d => inr (d, negb (bool_decide (users d = ∅)))).
Definition has_any_admin_keys : M bool :=
  query (fun _ d => inr (d, negb (bool_decide (admin_keys d = ∅)))).

(** The row [locked] at [at_]; [updated_at] is [NOW()]. *)
Definition locked_row (secret : string) (at_ now : Time) : ServerConfig :=
  mkServerConfig "locked" (Some at_) (Some at_) now (latch_mac secret "locked" (Some at_)).
Definition uninitialized_row (secret : string) (now : Time) : ServerConfig :=
  mkServerConfig "uninitialized" None None now (latch_mac secret "uninitialized" None).

Definition init_server_config (secret : string) (locked : bool) : M unit :=
  at_ ← utc_now;
  query (fun now d =>
    inr (match server_config d with
         | Some _ => d
         | None => d <|server_config := Some (if locked then locked_row secret at_ now
                                              else uninitialized_row secret now)|>
         end, tt)).

(** The upsert of the latch. *)
Definition set_latch (row : Time -> ServerConfig) : Tx unit :=
  tx_stmt app_error_from_sqlx (fun now d => inr (d <|server_config := Some (row now)|>, tt)).

Definition bootstrap_audit (pubkey : string) : NewAdminAudit :=
  mkNewAdminAudit "bootstrap" "bootstrap" (Some (substring 0 16 pubkey)) None None None.

Definition bootstrap_admin_tx (k a : Uuid) (pubkey secret : string) : Tx unit :=
  live ← live_key_count;
  if (0 <? live)%Z then tx_fail (Conflict "an admin key already exists (active or pending); use add-key, or create-admin-wallet to add another generated key")
  else
    now ← tx_clock;
    _ ← tx_stmt (unique_violation_as "an active admin key with this pubkey already exists")
          (sql_insert_key (resealed secret (mkAdminKey k pubkey (Some "bootstrap") "admin" now
             "bootstrap" (Some now) None None None "")));
    _ ← set_latch (locked_row secret now);
    append_audit a (bootstrap_audit pubkey) secret.

Definition tampered_latch : AppError := Conflict "server_config bootstrap latch MAC invalid (tamper or restore-to-pre-bootstrap); run `reset-setup --i-understand` first if this is intentional".

Definition bootstrapping_tx (k a : Uuid) (input : NewAdminKey) (audit : NewAdminAudit)
    (secret : string) (max_live : i64) : Tx (AddKeyOutcome * bool) :=
  cfg ← tx_stmt app_error_from_sqlx (fun _ d => inr (d, server_config d));
  if bool_decide (setup_state_of secret cfg = Tampered) then tx_fail tampered_latch
  else
    let already_locked := bool_decide (setup_state_of secret cfg = Locked) in
    live ← live_key_count;
    if (max_live <=? live)%Z then mret (CapReached, false)
    else
      key ← insert_admin_key k input secret;
      now ← tx_clock;
      _ ← (if already_locked then mret tt else set_latch (locked_row secret now));
      _ ← append_audit a audit secret;
      mret (Created key, negb already_locked).

Definition reset_setup_tx (secret : string) : Tx unit := set_latch (uninitialized_row secret).

Definition bootstrap_admin (pubkey secret : string) : M unit :=
  k ← gen_random_uuid; a ← gen_random_uuid; run_tx (bootstrap_admin_tx k a pubkey secret).
Definition create_admin_key_bootstrapping (input : NewAdminKey) (audit : NewAdminAudit)
    (secret : string) (max_live : i64) : M (AddKeyOutcome * bool) :=
  k ← gen_random_uuid; a ← gen_random_uuid;
  run_tx (bootstrapping_tx k a input audit secret max_live).
Definition reset_setup (secret : string) : M unit := run_tx (reset_setup_tx secret).
End latch.
