(* ===== verification/AdminSafety.v ===== *)
(** What the allowlist of administrators promises: its codes, its size under
    interleaved changes, and the bootstrap latch. *)

From Stdlib Require Import ZArith Lia Ascii String.
From stdpp Require Import pretty.
From S2P Require Import Prelude RustStr Errors Db Effects TipStatus SocialTips Transactions Pepper AuditChain Demo Nip98 AdminKeys.

Local Open Scope string_scope.

Section allowlist.
Context `{Ext} `{Hmac} `{MacJson} `{AuditJson} (secret : string).

Definition is_live (k : AdminKey) : bool := is_none (ak_revoked_at k).

Lemma live_count_where d : live_count d = Z.of_nat (count_where is_live (admin_keys d)).
Proof. done. Qed.

(** Rows are filed under their ids with a code that verifies, and a public key
    has at most one live row. *)
Definition allowlist_wf (d : Db) : Prop :=
  (forall k x, admin_keys d !! k = Some x -> ak_id x = k /\ sealed secret x = true) /\
  (forall k1 k2 x1 x2, admin_keys d !! k1 = Some x1 -> admin_keys d !! k2 = Some x2 ->
     is_live x1 = true -> is_live x2 = true -> ak_pubkey x1 = ak_pubkey x2 -> k1 = k2).

Lemma resealed_sealed k : sealed secret (resealed secret k) = true.
Proof. unfold sealed, verify_admin_key_mac, ct_eq. by apply String.eqb_eq. Qed.

Lemma live_key_Some k d x :
  live_key k d = Some x <-> admin_keys d !! k = Some x /\ is_live x = true.
Proof.
  unfold live_key, is_live. destruct (admin_keys d !! k) as [y|]; simpl; [|by split; [|intros []]].
  split.
  - destruct (is_none (ak_revoked_at y)) eqn:E; [by intros [= <-]|done].
  - by intros [[= <-] ->].
Qed.

Lemma elem_live_keys d x : x ∈ live_keys d <-> exists k, admin_keys d !! k = Some x /\ is_live x = true.
Proof.
  unfold live_keys, key_rows. rewrite list_elem_of_filter, list_elem_of_fmap. split.
  - intros (Hl & [k y] & -> & Hin%elem_of_map_to_list). eauto.
  - intros (k & Hk & Hl). split; [done|]. exists (k, x). by rewrite elem_of_map_to_list.
Qed.

Lemma live_key_of_None pubkey d :
  live_key_of pubkey d = None ->
  forall k x, admin_keys d !! k = Some x -> is_live x = true -> ak_pubkey x <> pubkey.
Proof.
  unfold live_key_of. intros Hh k x Hk Hl Hp.
  assert (Hin : x ∈ base.filter (fun k => has_pubkey pubkey k = true) (live_keys d)).
  { apply list_elem_of_filter. split; [by apply String.eqb_eq|]. apply elem_live_keys. eauto. }
  destruct (base.filter _ _); [by apply elem_of_nil in Hin|done].
Qed.

Lemma live_key_of_Some pubkey d x :
  live_key_of pubkey d = Some x ->
  ak_pubkey x = pubkey /\ is_live x = true /\ exists k, admin_keys d !! k = Some x.
Proof.
  unfold live_key_of. intros Hh%head_Some_elem_of.
  apply list_elem_of_filter in Hh as [Hp Hin]. apply elem_live_keys in Hin as (k & Hk & Hl).
  apply String.eqb_eq in Hp. split_and!; eauto.
Qed.

(** A live row rewritten with the same id and public key. *)
Lemma store_wf d k x y :
  allowlist_wf d -> admin_keys d !! k = Some x -> is_live x = true ->
  ak_id y = ak_id x -> ak_pubkey y = ak_pubkey x ->
  allowlist_wf (put_key (resealed secret y) d) /\
  (live_count (put_key (resealed secret y) d) = live_count d - (if is_live y then 0 else 1))%Z.
Proof.
  intros [Hf Hu] Hk Hl Hid Hp. destruct (Hf k x Hk) as [Hxk _].
  assert (Hput : admin_keys (put_key (resealed secret y) d) =
    <[k := resealed secret y]> (admin_keys d)) by (unfold put_key; simpl; by rewrite Hid, Hxk).
  split.
  - split.
    + intros j z. rewrite Hput. intros [[<- <-]|[_ Hj]]%lookup_insert_Some; [|by apply Hf].
      split; [simpl; congruence|apply resealed_sealed].
    + intros j1 j2 z1 z2. rewrite Hput.
      intros [[<- <-]|[N1 H1']]%lookup_insert_Some [[<- <-]|[N2 H2']]%lookup_insert_Some; [done|..];
        intros L1 L2 Hpk; simpl in Hpk; rewrite ?Hp in Hpk;
        by eapply Hu; eauto.
  - rewrite !live_count_where, Hput.
    pose proof (count_where_replace is_live (admin_keys d) k x (resealed secret y) Hk) as Hc.
    rewrite Hl in Hc. change (is_live (resealed secret y)) with (is_live y) in Hc.
    destruct (is_live y); simpl in Hc; lia.
Qed.

Lemma insert_key_inr key now d d' r :
  sql_insert_key key now d = inr (d', r) -> is_live key = true -> sealed secret key = true ->
  allowlist_wf d ->
  r = key /\ allowlist_wf d' /\ (live_count d' = live_count d + 1)%Z /\
  admin_keys d' = <[ak_id key := key]> (admin_keys d) /\ admin_sessions d' = admin_sessions d /\
  server_config d' = server_config d.
Proof.
  unfold sql_insert_key. intros Hi Hl Hs [Hf Hu].
  destruct (admin_keys d !! ak_id key) eqn:Hk; [done|].
  destruct (live_key_of (ak_pubkey key) d) eqn:Hp; [done|]. simpl in Hi. injection Hi as <- <-.
  pose proof (live_key_of_None _ _ Hp) as Hfree. split_and!; [done| | |done..].
  - split; simpl.
    + intros j z [[<- <-]|[_ Hj]]%lookup_insert_Some; [done|by apply Hf].
    + intros j1 j2 z1 z2 [[<- <-]|[N1 H1']]%lookup_insert_Some [[<- <-]|[N2 H2']]%lookup_insert_Some
        L1 L2 Hpk; [done|..|by eapply Hu].
      * by destruct (Hfree _ _ H2' L2).
      * by destruct (Hfree _ _ H1' L1).
  - rewrite !live_count_where. simpl. rewrite count_where_insert by done. rewrite Hl. simpl. lia.
Qed.

(** ** Transactions *)

Lemma insert_admin_key_inr k input c now d d' r :
  insert_admin_key k input secret c now d = inr (d', r) -> allowlist_wf d ->
  allowlist_wf d' /\ (live_count d' = live_count d + 1)%Z /\ server_config d' = server_config d.
Proof.
  unfold insert_admin_key. rewrite bind_tx_inr. intros (d1 & at_ & [= <- <-] & Hi) Hwf.
  apply tx_stmt_inr in Hi.
  destruct (insert_key_inr _ _ _ _ _ Hi) as (_ & ? & ? & _ & _ & ?); try done.
  apply resealed_sealed.
Qed.

Lemma append_audit_inr a audit c now d d' r :
  append_audit a audit secret c now d = inr (d', r) ->
  admin_keys d' = admin_keys d /\ admin_sessions d' = admin_sessions d /\
  server_config d' = server_config d.
Proof.
  unfold append_audit. rewrite bind_tx_inr. intros (d1 & row & Ha & [= <- _]).
  unfold append_admin_audit in Ha. by injection Ha as <- _.
Qed.

Lemma revoke_sessions_inr k c now d d' r :
  revoke_sessions_of k c now d = inr (d', r) ->
  admin_keys d' = admin_keys d /\ server_config d' = server_config d /\
  admin_sessions d' = (fun s => if live_of_key k s then s <|as_revoked_at := Some now|> else s)
                      <$> admin_sessions d.
Proof.
  unfold revoke_sessions_of. rewrite bind_tx_inr. intros (d1 & n & Hs & [= <- _]).
  apply tx_stmt_inr in Hs. by injection Hs as <- _.
Qed.

Lemma find_live_key_inr k c now d d' o :
  find_live_key k c now d = inr (d', o) -> d' = d /\ o = live_key k d.
Proof. unfold find_live_key. rewrite tx_stmt_inr. by intros [= <- <-]. Qed.

Lemma live_key_count_inr c now d d' n :
  live_key_count c now d = inr (d', n) -> d' = d /\ n = live_count d.
Proof. unfold live_key_count. rewrite tx_stmt_inr. by intros [= <- <-]. Qed.

Lemma store_key_inr key c now d d' r :
  store_key secret key c now d = inr (d', r) ->
  d' = put_key (resealed secret key) d /\ r = resealed secret key.
Proof. unfold store_key. rewrite tx_stmt_inr. by intros [= <- <-]. Qed.

Lemma wf_same_keys d d' :
  admin_keys d' = admin_keys d ->
  (allowlist_wf d -> allowlist_wf d') /\ live_count d' = live_count d.
Proof. intros E. unfold allowlist_wf. rewrite !live_count_where, E. done. Qed.

(** What the handlers of the network do to the allowlist, the cap being
    [max_live]. *)
Inductive network_step (max_live : i64) : Rel :=
| nw_add k a input audit c t d d' o :
    create_admin_key_tx k a input audit secret max_live c t d = inr (d', o) ->
    network_step max_live t d d'
| nw_activate k c t d d' o :
    activate_admin_key_tx k secret c t d = inr (d', o) -> network_step max_live t d d'
| nw_revoke a k audit c t d d' o :
    revoke_admin_key_full_tx a k audit secret true c t d = inr (d', o) ->
    network_step max_live t d d'
| nw_rotate a k old new_ audit c t d d' o :
    rotate_admin_key_tx a k old new_ audit secret c t d = inr (d', o) ->
    network_step max_live t d d'
| nw_touch k t d d' :
    admin_keys d' = alter (fun x => x <|ak_last_used_at := Some t|>) k (admin_keys d) ->
    network_step max_live t d d'
| nw_other t d d' : admin_keys d' = admin_keys d -> network_step max_live t d d'.

Definition within (max_live : i64) (d : Db) : Prop :=
  allowlist_wf d /\ (1 <= live_count d <= max_live)%Z.

Lemma within_same max_live d d' :
  admin_keys d' = admin_keys d -> within max_live d -> within max_live d'.
Proof. intros E [Hwf Hn]. destruct (wf_same_keys d d' E) as [? Hc]. split; [auto|by rewrite Hc]. Qed.

Lemma revoke_full_inr a k audit keep c t d d' o :
  revoke_admin_key_full_tx a k audit secret keep c t d = inr (d', o) -> allowlist_wf d ->
  (d' = d /\ forall x, o <> Revoked x) \/ exists x, live_key k d = Some x /\
    o = Revoked (resealed secret (x <|ak_revoked_at := Some c|>)) /\ (keep = true -> 1 < live_count d)%Z /\
    allowlist_wf d' /\ (live_count d' = live_count d - 1)%Z /\
    admin_keys d' = <[k := resealed secret (x <|ak_revoked_at := Some c|>)]> (admin_keys d) /\
    admin_sessions d' = (fun s => if live_of_key k s then s <|as_revoked_at := Some t|> else s)
                        <$> admin_sessions d.
Proof.
  unfold revoke_admin_key_full_tx. rewrite bind_tx_inr.
  intros (d1 & n & [-> ->]%live_key_count_inr & Htx) Hwf.
  destruct (keep && _) eqn:Ek; [left; by injection Htx as <- <-|].
  apply bind_tx_inr in Htx as (d2 & found & [-> ->]%find_live_key_inr & Htx).
  destruct (live_key k d) as [x|] eqn:Hx; [|left; by injection Htx as <- <-].
  apply bind_tx_inr in Htx as (d3 & at_ & [= <- <-] & Htx).
  apply bind_tx_inr in Htx as (d4 & r & [-> ->]%store_key_inr & Htx).
  apply bind_tx_inr in Htx as (d5 & ? & (Ek5 & _ & Es5)%revoke_sessions_inr & Htx).
  apply bind_tx_inr in Htx as (d6 & ? & (Ek6 & Es6 & _)%append_audit_inr & [= <- <-]).
  right. exists x. apply live_key_Some in Hx as [Hk Hl]. split_and!; [done|done| |..].
  - intros ->. simpl in Ek. apply Z.leb_gt in Ek. done.
  - destruct (store_wf d k x (x <|ak_revoked_at := Some c|>) Hwf Hk Hl) as [Hwf' _]; [done..|].
    destruct (wf_same_keys _ _ (eq_trans Ek6 Ek5)) as [Hw _]. by apply Hw.
  - destruct (store_wf d k x (x <|ak_revoked_at := Some c|>) Hwf Hk Hl) as [_ Hc]; [done..|].
    destruct (wf_same_keys _ _ (eq_trans Ek6 Ek5)) as [_ ->]. rewrite Hc. done.
  - rewrite Ek6, Ek5. unfold put_key. simpl. by rewrite (proj1 (proj1 Hwf k x Hk)).
  - by rewrite Es6, Es5.
Qed.

Lemma network_step_within max_live : stable (network_step max_live) (within max_live).
Proof.
  intros t d d' Hs Hin. pose proof Hin as [Hwf Hn]. destruct Hs as
    [k a input audit c t d d' o E|k c t d d' o E|a k audit c t d d' o E
    |a k old new_ audit c t d d' o E|k t d d' E|t d d' E].
  - unfold create_admin_key_tx in E.
    apply bind_tx_inr in E as (d1 & n & [-> ->]%live_key_count_inr & E).
    destruct (max_live <=? _)%Z eqn:Ecap; [by injection E as <- _|]. apply Z.leb_gt in Ecap.
    apply bind_tx_inr in E as (d2 & key & Hi & E).
    apply insert_admin_key_inr in Hi as (Hwf' & Hc & _); [|done].
    apply bind_tx_inr in E as (d3 & ? & (Ek & _)%append_audit_inr & [= <- _]).
    apply (within_same _ _ _ Ek). split; [done|lia].
  - unfold activate_admin_key_tx in E.
    apply bind_tx_inr in E as (d1 & found & [-> ->]%find_live_key_inr & E).
    destruct (live_key k d) as [x|] eqn:Hx; [|by injection E as <- _].
    destruct (is_none (ak_activated_at x)); [|by injection E as <- _].
    apply bind_tx_inr in E as (d2 & at_ & [= <- <-] & E).
    apply bind_tx_inr in E as (d3 & r & [-> _]%store_key_inr & [= <- _]).
    apply live_key_Some in Hx as [Hk Hl].
    destruct (store_wf d k x (x <|ak_activated_at := Some c|>) Hwf Hk Hl) as [Hwf' Hc]; [done..|].
    change (is_live (x <|ak_activated_at := Some c|>)) with (is_live x) in Hc. rewrite Hl in Hc.
    split; [done|lia].
  - apply revoke_full_inr in E as [[-> _]|(x & _ & _ & Hk & Hwf' & Hc & _)]; [done| |done].
    specialize (Hk eq_refl). split; [done|lia].
  - unfold rotate_admin_key_tx in E.
    apply bind_tx_inr in E as (d1 & found & [-> ->]%find_live_key_inr & E).
    destruct (live_key old d) as [x|] eqn:Hx; [|by injection E as <- _].
    apply bind_tx_inr in E as (d2 & at_ & [= <- <-] & E).
    apply bind_tx_inr in E as (d3 & r & [-> _]%store_key_inr & E).
    apply bind_tx_inr in E as (d4 & ? & (Ek4 & _)%revoke_sessions_inr & E).
    apply bind_tx_inr in E as (d5 & key & Hi & E).
    apply bind_tx_inr in E as (d6 & ? & (Ek6 & _)%append_audit_inr & [= <- _]).
    apply live_key_Some in Hx as [Hk Hl].
    destruct (store_wf d old x (x <|ak_revoked_at := Some c|>) Hwf Hk Hl) as [Hwf' Hc]; [done..|].
    destruct (wf_same_keys _ _ Ek4) as [Hw4 Hc4].
    apply insert_admin_key_inr in Hi as (Hwf5 & Hc5 & _); [|by apply Hw4].
    apply (within_same _ _ _ Ek6). split; [done|]. simpl in Hc. lia.
  - destruct (admin_keys d !! k) as [x|] eqn:Hk.
    + pose (y := x <|ak_last_used_at := Some t|>).
      assert (Ey : admin_keys d' = <[k := y]> (admin_keys d)).
      { rewrite E. apply map_eq. intros j. destruct (decide (j = k)) as [->|Hne].
        - by rewrite lookup_alter_eq, lookup_insert_eq, Hk.
        - by rewrite lookup_alter_ne, lookup_insert_ne. }
      destruct Hwf as [Hf Hu]. split; [split|].
      * intros j z. rewrite Ey. intros [[<- <-]|[_ Hj]]%lookup_insert_Some; [|by apply Hf].
        by apply Hf in Hk.
      * intros j1 j2 z1 z2. rewrite Ey.
        intros [[<- <-]|[N1 H1']]%lookup_insert_Some [[<- <-]|[N2 H2']]%lookup_insert_Some; [done|..];
          intros L1 L2 Hpk; by eapply Hu; eauto.
      * rewrite live_count_where, Ey.
        pose proof (count_where_replace is_live (admin_keys d) k x y Hk) as Hc.
        change (is_live y) with (is_live x) in Hc. rewrite live_count_where in Hn. lia.
    + apply (within_same _ d); [|done]. rewrite E. apply map_eq. intros j.
      destruct (decide (j = k)) as [->|Hne]; [by rewrite lookup_alter_eq, Hk|by rewrite lookup_alter_ne].
  - by apply (within_same _ d).
Qed.
End allowlist.

(** C24: the network can neither empty nor overfill the allowlist.  From an
    allowlist of between one and [max_live] live keys, whatever additions,
    revocations, rotations, first logins and logins the admins make, in whatever
    order they interleave, there stays at least one live key and at most
    [max_live], at most one per public key, and every row carries a code that
    verifies under the integrity secret. *)
Theorem allowlist_kept `{Ext} `{Hmac} `{MacJson} `{AuditJson} secret max_live d d'
    (Hstart : within secret max_live d) (Hsteps : steps (network_step secret max_live) d d') :
  (1 <= live_count d' <= max_live)%Z /\
  (forall k x, admin_keys d' !! k = Some x -> ak_id x = k /\ sealed secret x = true) /\
  (forall pubkey x, live_key_of pubkey d' = Some x -> forall k y, admin_keys d' !! k = Some y ->
     ak_revoked_at y = None -> ak_pubkey y = pubkey -> y = x).
Proof.
  apply (steps_stable _ _ _ _ (network_step_within secret max_live) Hsteps) in Hstart
    as [[Hf Hu] Hn].
  split_and!; [lia..|exact Hf|].
  intros pubkey x (Hp & Hl & k' & Hk')%live_key_of_Some k y Hk Hr Hy.
  assert (k = k') as ->.
  { eapply Hu; eauto; [unfold is_live; by rewrite Hr|congruence]. }
  congruence.
Qed.

(** The integrity code of a row is bound to what it authorizes.  Two rows
    that verify with the same code have the same id, public key, scope, creation,
    activation, deadline and revocation, unless their two texts clash under the
    HMAC; so a row whose revocation is erased, or whose deadline is moved, does
    not verify with the code it had. *)
Theorem admin_mac_binds_row {E : Ext} {EL : ExtLaws E} `{Hmac} {J : MacJson} {JL : MacJsonLaws J}
    secret x y
    (Hx : sealed secret x = true) (Hy : sealed secret y = true)
    (Hmac : ak_integrity_mac x = ak_integrity_mac y) :
  mac_input x = mac_input y \/
  hmac_clash secret (pepper_text "admin_key_mac" (mac_text (mac_input x)))
    (pepper_text "admin_key_mac" (mac_text (mac_input y))).
Proof.
  unfold sealed, verify_admin_key_mac, ct_eq, compute_admin_key_mac in *.
  apply String.eqb_eq in Hx, Hy. rewrite <- Hx, <- Hy in Hmac.
  apply peppered_hex_inj in Hmac as [Ht|]; [left|by right].
  unfold mac_text in Ht. apply mac_json_inj in Ht as (Hi & Hrest).
  apply (f_equal uuid_parse_str) in Hi. rewrite !uuid_round_trip in Hi. injection Hi as Hi.
  unfold mac_input in *. simpl in *. destruct_and! Hrest. congruence.
Qed.

(** * The latch *)

Section latch.
Context `{Ext} `{Hmac} `{MacJson} `{AuditJson} (secret : string).

Definition setup (d : Db) : SetupState := setup_state_of secret (server_config d).

(** The writers of the latch, but the reset. *)
Inductive boot_step : Rel :=
| bt_init clock locked t d d' :
    d' = match server_config d with
         | Some _ => d
         | None => d <|server_config := Some (if locked : bool then locked_row secret clock t
                                              else uninitialized_row secret t)|>
         end -> boot_step t d d'
| bt_bootstrap k a pubkey c t d d' u :
    bootstrap_admin_tx k a pubkey secret c t d = inr (d', u) -> boot_step t d d'
| bt_wallet k a input audit m c t d d' o :
    bootstrapping_tx k a input audit secret m c t d = inr (d', o) -> boot_step t d d'
| bt_other t d d' : server_config d' = server_config d -> boot_step t d d'.

Lemma locked_verifies at_ now : setup_state_of secret (Some (locked_row secret at_ now)) = Locked.
Proof.
  unfold setup_state_of, verify_latch, locked_row, ct_eq. simpl. by rewrite String.eqb_refl.
Qed.

Lemma uninitialized_verifies now :
  setup_state_of secret (Some (uninitialized_row secret now)) = Uninitialized.
Proof.
  unfold setup_state_of, verify_latch, uninitialized_row, ct_eq. simpl. by rewrite String.eqb_refl.
Qed.

Lemma set_latch_inr row c now d d' u :
  set_latch row c now d = inr (d', u) ->
  server_config d' = Some (row now) /\ admin_keys d' = admin_keys d.
Proof. unfold set_latch. rewrite tx_stmt_inr. by intros [= <- _]. Qed.

Lemma bootstrap_inr k a pubkey c now d d' u :
  bootstrap_admin_tx k a pubkey secret c now d = inr (d', u) ->
  live_count d = 0%Z /\ setup d' = Locked /\
  admin_keys d' = <[k := resealed secret (mkAdminKey k pubkey (Some "bootstrap") "admin" c
    "bootstrap" (Some c) None None None "")]> (admin_keys d).
Proof.
  unfold bootstrap_admin_tx. rewrite bind_tx_inr. intros (d1 & n & [-> ->]%live_key_count_inr & Htx).
  destruct (0 <? _)%Z eqn:En; [done|]. apply Z.ltb_ge in En.
  apply bind_tx_inr in Htx as (d2 & at_ & [= <- <-] & Htx).
  apply bind_tx_inr in Htx as (d3 & key & Hi & Htx). apply tx_stmt_inr in Hi.
  apply bind_tx_inr in Htx as (d4 & ? & (Hc4 & Hk4)%set_latch_inr & Ha).
  apply append_audit_inr in Ha as (Hk5 & _ & Hc5). split_and!.
  - unfold live_count in *. lia.
  - unfold setup. rewrite Hc5, Hc4. apply locked_verifies.
  - rewrite Hk5, Hk4. unfold sql_insert_key in Hi. repeat (case_hyp Hi; [done|]).
    by injection Hi as <- _.
Qed.

Lemma bootstrapping_inr k a input audit m c now d d' o latched :
  bootstrapping_tx k a input audit secret m c now d = inr (d', (o, latched)) ->
  setup d <> Tampered /\
  match o with
  | CapReached => d' = d /\ latched = false /\ (m <= live_count d)%Z
  | Created key => setup d' = Locked /\ (latched = true <-> setup d <> Locked) /\
      (live_count d < m)%Z /\ ak_activated_at key = None
  end.
Proof.
  unfold bootstrapping_tx. rewrite bind_tx_inr. intros (d1 & cfg & Hcfg & Htx).
  apply tx_stmt_inr in Hcfg. injection Hcfg as <- <-. fold (setup d) in Htx.
  destruct (bool_decide (setup d = Tampered)) eqn:Et; [done|].
  apply bool_decide_eq_false in Et. split; [done|].
  apply bind_tx_inr in Htx as (d2 & n & [-> ->]%live_key_count_inr & Htx).
  destruct (m <=? _)%Z eqn:Em.
  { injection Htx as <- <- <-. apply Z.leb_le in Em. by split_and!. }
  apply Z.leb_gt in Em.
  apply bind_tx_inr in Htx as (d3 & key & Hi & Htx).
  apply bind_tx_inr in Htx as (d4 & at_ & [= <- <-] & Htx).
  apply bind_tx_inr in Htx as (d5 & ? & Hl & Htx).
  apply bind_tx_inr in Htx as (d6 & ? & (_ & _ & Hc6)%append_audit_inr & [= <- <- <-]).
  assert (Hkey : ak_activated_at key = None /\ server_config d3 = server_config d).
  { unfold insert_admin_key in Hi. apply bind_tx_inr in Hi as (d7 & ? & [= <- <-] & Hi).
    apply tx_stmt_inr in Hi. unfold sql_insert_key in Hi. repeat (case_hyp Hi; [done|]).
    by injection Hi as <- <-. }
  destruct Hkey as [Hpend Hc3]. unfold setup in *. rewrite Hc6.
  destruct (bool_decide (setup_state_of secret (server_config d) = Locked)) eqn:El.
  - injection Hl as <- _. apply bool_decide_eq_true in El. rewrite Hc3, El. by split_and!.
  - apply set_latch_inr in Hl as [-> _]. apply bool_decide_eq_false in El.
    rewrite locked_verifies. by split_and!.
Qed.

Lemma boot_step_locked t d d' : boot_step t d d' ->
  (setup d <> Tampered -> setup d' <> Tampered) /\ (setup d = Locked -> setup d' = Locked).
Proof.
  intros [clock locked t' x y E|k a pubkey c t' x y u E|k a input audit m c t' x y [o b] E|t' x y E].
  - subst y. unfold setup. destruct (server_config x) as [r|] eqn:Er; [by rewrite Er|].
    destruct locked.
    + change (server_config (x <|server_config := Some (locked_row secret clock t')|>))
        with (Some (locked_row secret clock t')). by rewrite locked_verifies.
    + change (server_config (x <|server_config := Some (uninitialized_row secret t')|>))
        with (Some (uninitialized_row secret t')). by rewrite uninitialized_verifies.
  - apply bootstrap_inr in E as (_ & -> & _). done.
  - apply bootstrapping_inr in E as [_ Ho].
    destruct o; [destruct Ho as [-> _]|destruct Ho as [-> _]]; done.
  - unfold setup. by rewrite E.
Qed.
End latch.

(** The bootstrap latch.  Once it verifies, no bootstrap, wallet creation or
    restart makes it read tampered, and none reopens it once locked.  A
    [setup] succeeds only on an allowlist with no live key and locks; the creation
    of a wallet key is refused, with nothing changed, over a tampered latch, and
    otherwise adds one pending key under the cap and leaves the latch locked,
    reporting a bootstrap exactly when it was not; a reset reopens it. *)
Theorem latch_lifecycle `{Ext} `{Hmac} `{MacJson} `{AuditJson} secret :
  (forall d d', steps (boot_step secret) d d' ->
     (setup secret d <> Tampered -> setup secret d' <> Tampered) /\
     (setup secret d = Locked -> setup secret d' = Locked)) /\
  (forall k a pubkey c now d d' u, bootstrap_admin_tx k a pubkey secret c now d = inr (d', u) ->
     live_count d = 0%Z /\ setup secret d' = Locked) /\
  (forall k a input audit m c now d, setup secret d = Tampered ->
     bootstrapping_tx k a input audit secret m c now d = inl tampered_latch) /\
  (forall k a input audit m c now d d' key latched,
     bootstrapping_tx k a input audit secret m c now d = inr (d', (Created key, latched)) ->
     setup secret d' = Locked /\ (latched = true <-> setup secret d <> Locked) /\
     (live_count d < m)%Z /\ ak_activated_at key = None) /\
  (forall c now d d' u, reset_setup_tx secret c now d = inr (d', u) ->
     setup secret d' = Uninitialized /\ admin_keys d' = admin_keys d).
Proof.
  split_and!.
  - intros d d' Hs. induction Hs as [d|d d1 d' [t Ht] _ IH]; [done|].
    apply boot_step_locked in Ht as [H1' H2']. destruct IH as [I1 I2]. split; auto.
  - intros * Hb. by apply bootstrap_inr in Hb as (? & ? & _).
  - intros * Ht. unfold bootstrapping_tx, mbind, Tx_bind, tx_stmt. fold (setup secret d).
    by rewrite bool_decide_eq_true_2.
  - intros * Hb. by apply bootstrapping_inr in Hb as [_ ?].
  - intros c now d d' u Hr. unfold reset_setup_tx in Hr.
    apply (set_latch_inr _ c) in Hr as [Hc Hk]. split; [|done]. unfold setup. rewrite Hc.
    apply uninitialized_verifies.
Qed.

(** * Concrete runs *)

#[export] Instance demo_mac_json : MacJson | 1000 := {
  mac_json i p s c a d r := pos_to_string (countable.encode (i, p, s, c, a, d, r));
}.

#[export] Instance demo_mac_json_laws : MacJsonLaws demo_mac_json.
Proof.
  split. intros i p s c a d r i' p' s' c' a' d' r'. simpl. intros Heq.
  apply (f_equal pos_of_string) in Heq. rewrite !pos_round_trip in Heq.
  injection Heq as Heq. apply (inj countable.encode) in Heq. by injection Heq.
Qed.

Definition demo_add (pubkey : string) : NewAdminKey :=
  mkNewAdminKey pubkey None "admin" "admin" (Some 1000%Z).

(** A bootstrapped instance, then a second, pending, key; then the only key that
    ever logged in is revoked: the floor counts the pending one. *)
Definition demo_boot : Db :=
  match bootstrap_admin_tx 1 50 "aa" "s" 0%Z 0%Z empty_db with inr (d, _) => d | inl _ => empty_db end.
Definition demo_two_keys : Db :=
  match create_admin_key_tx 2 51 (demo_add "bb") (demo_entry "add") "s" 5%Z 10%Z 10%Z demo_boot with
  | inr (d, _) => d | inl _ => empty_db end.
Definition demo_revoked : Db :=
  match revoke_admin_key_full_tx 52 1 (demo_entry "revoke") "s" true 2000%Z 2000%Z demo_two_keys with
  | inr (d, _) => d | inl _ => empty_db end.

Example pending_key_counts_as_live :
  live_count demo_revoked = 1%Z /\
  (live_key_of "bb" demo_revoked ≫= ak_activated_at) = None /\
  (live_key_of "bb" demo_revoked ≫= ak_activation_deadline) = Some 1000%Z.
Proof. by vm_compute. Qed.

(** An earlier whole row, put back: its old code verifies. *)
Example restored_row_verifies :
  match live_key_of "aa" demo_two_keys with
  | Some old => option_map (sealed "s") (live_key_of "aa" (put_key old demo_revoked)) = Some true
  | None => False
  end.
Proof. by vm_compute. Qed.

Lemma demo_boot_within : within "s" 5%Z demo_boot.
Proof.
  assert (Hk : admin_keys demo_boot = {[ 1%N := resealed "s" (mkAdminKey 1 "aa" (Some "bootstrap")
    "admin" 0 "bootstrap" (Some 0%Z) None None None "") ]}) by reflexivity.
  split; [split|].
  - intros k x. rewrite Hk. intros [<- <-]%lookup_singleton_Some. by split; [|apply resealed_sealed].
  - intros k1 k2 x1 x2. rewrite Hk. by intros [<- <-]%lookup_singleton_Some [<- <-]%lookup_singleton_Some.
  - unfold live_count. vm_compute. split; discriminate.
Qed.

Lemma allowlist_kept_witness : (1 <= live_count demo_revoked <= 5)%Z.
Proof.
  apply (allowlist_kept "s" 5%Z demo_boot demo_revoked); [exact demo_boot_within|].
  destruct (create_admin_key_tx 2 51 (demo_add "bb") (demo_entry "add") "s" 5%Z 10%Z 10%Z demo_boot)
    as [e|[d1 o1]] eqn:E1; [vm_compute in E1; discriminate|].
  assert (H1 : demo_two_keys = d1) by (unfold demo_two_keys; by rewrite E1).
  destruct (revoke_admin_key_full_tx 52 1 (demo_entry "revoke") "s" true 2000%Z 2000%Z demo_two_keys)
    as [e|[d2 o2]] eqn:E2; [vm_compute in E2; discriminate|].
  assert (H2 : demo_revoked = d2) by (unfold demo_revoked; by rewrite E2).
  rewrite H2. eapply steps_trans.
  - apply (steps_once _ 10%Z). eapply nw_add. exact E1.
  - rewrite <- H1. apply (steps_once _ 2000%Z). eapply nw_revoke. exact E2.
Defined.

(** The activated row and a copy with another label: the same code, which the
    label is not part of. *)
Definition demo_row : AdminKey :=
  resealed "s" (mkAdminKey 1 "aa" None "admin" 0 "admin" (Some 0%Z) None None None "").

Lemma admin_mac_binds_row_witness :
  mac_input demo_row = mac_input (demo_row <|ak_label := Some "x"|>).
Proof.
  destruct (admin_mac_binds_row "s" demo_row (demo_row <|ak_label := Some "x"|>)) as [Heq|[Hne _]];
    [by vm_compute|by vm_compute|done|exact Heq|]. exfalso. by apply Hne.
Defined.
