(* ===== verification/AdminApi.v ===== *)
(** The operator's plane: [src/core/admin_session.rs] and the authentication,
    allowlist and invite handlers of [src/api/admin.rs].

    The JWT library is the parameter of [Auth]; a generic [encode] or [decode] of
    the source is one function of the class per type of claims. *)

From Stdlib Require Import ZArith Lia Ascii String Strings.Byte.
From stdpp Require Import pretty.
From S2P Require Import Prelude RustStr Errors Db Effects TipStatus SocialTips Transactions Pepper AuditChain Demo Auth Nip98 Signatures Challenges Registration AdminKeys.

Local Open Scope string_scope.

(** * Tokens *)

Definition ADMIN_ACCESS_AUD : string := "smirk-admin".
Definition ADMIN_REFRESH_AUD : string := "smirk-admin-refresh".
Definition ADMIN_SCOPE : string := "admin".
Definition ACCESS_TTL_MINUTES : i64 := 15.
Definition REFRESH_TTL_HOURS : i64 := 8.

Record AdminAccessClaims := mkAdminAccessClaims {
  aac_sub : string; aac_aud : string; aac_scope : string; aac_jti : string;
  aac_iat : i64; aac_exp : i64 }.
Record AdminRefreshClaims := mkAdminRefreshClaims {
  arc_sub : string; arc_aud : string; arc_sid : string; arc_iat : i64; arc_exp : i64 }.
Record AdminAccessInfo := mkAdminAccessInfo { aa_pubkey : string; aa_jti : string }.
Record AdminTokenPair := mkAdminTokenPair {
  ap_access_token : string; ap_refresh_token : string; ap_access_jti : string;
  ap_expires_in : i64 }.

Class AdminJwt := {
  jwt_encode_admin_access : string -> AdminAccessClaims -> string + string;
  jwt_encode_admin_refresh : string -> AdminRefreshClaims -> string + string;
  jwt_decode_admin_access : string -> Validation -> i64 -> string -> option AdminAccessClaims;
  jwt_decode_admin_refresh : string -> Validation -> i64 -> string -> option AdminRefreshClaims;
}.

Record AdminSessionManager := mkAdminSessionManager {
  am_secret : string;
  am_access_validation : Validation;
  am_refresh_validation : Validation;
}.

Definition admin_session_manager_new (admin_jwt_secret : string) : AdminSessionManager :=
  mkAdminSessionManager admin_jwt_secret (strict_validation ADMIN_ACCESS_AUD)
    (strict_validation ADMIN_REFRESH_AUD).

Definition invalid_admin_token : AppError := AuthError "Invalid or expired admin token".

Section tokens.
Context `{Ext} `{AdminJwt}.

Definition admin_access_claims (pubkey jti : string) (now : Time) : AdminAccessClaims :=
  mkAdminAccessClaims pubkey ADMIN_ACCESS_AUD ADMIN_SCOPE jti (timestamp now)
    (timestamp (now + ACCESS_TTL_MINUTES * MINUTE)).

(** [now] is [Utc::now()], [jti] the random identifier. *)
Definition create_admin_token_pair (m : AdminSessionManager) (now : Time) (jti : Uuid)
    (admin_pubkey : string) (session_id : Uuid) : outcome AdminTokenPair :=
  let jti := uuid_to_string jti in
  access ← encoded "admin access token: "
    (jwt_encode_admin_access (am_secret m) (admin_access_claims admin_pubkey jti now));
  refresh ← encoded "admin refresh token: " (jwt_encode_admin_refresh (am_secret m)
    (mkAdminRefreshClaims admin_pubkey ADMIN_REFRESH_AUD (uuid_to_string session_id)
       (timestamp now) (timestamp (now + REFRESH_TTL_HOURS * HOUR))));
  Ok (mkAdminTokenPair access refresh jti (ACCESS_TTL_MINUTES * 60)%Z).

Definition verify_access (m : AdminSessionManager) (now : Time) (token : string)
  : outcome AdminAccessInfo :=
  claims ← ok_or (jwt_decode_admin_access (am_secret m) (am_access_validation m)
                    (timestamp now) token) invalid_admin_token;
  if negb (aac_scope claims =? ADMIN_SCOPE) then Err invalid_admin_token
  else Ok (mkAdminAccessInfo (aac_sub claims) (aac_jti claims)).

Definition mint_access_token (m : AdminSessionManager) (now : Time) (jti : Uuid)
    (admin_pubkey : string) : outcome (string * string * i64) :=
  let jti := uuid_to_string jti in
  token ← encoded "admin access token: "
    (jwt_encode_admin_access (am_secret m) (admin_access_claims admin_pubkey jti now));
  Ok (token, jti, (ACCESS_TTL_MINUTES * 60)%Z).

Definition verify_refresh (m : AdminSessionManager) (now : Time) (token : string)
  : outcome (string * Uuid) :=
  claims ← ok_or (jwt_decode_admin_refresh (am_secret m) (am_refresh_validation m)
                    (timestamp now) token) invalid_admin_token;
  sid ← ok_or (uuid_parse_str (arc_sid claims)) invalid_admin_token;
  Ok (arc_sub claims, sid).

Definition refresh_ttl : Z := (REFRESH_TTL_HOURS * HOUR)%Z.
End tokens.

(** * Helpers of the handlers *)

Definition ADMIN_CHALLENGE_TTL_SECS : i64 := 120.
Definition ADMIN_ACTION_MAX_AGE_SECS : i64 := 30.
Definition PUBKEY_PREFIX_LEN : nat := 16.

(** [IpNetwork::from(ip).to_string()]. *)
Class HostNet `{Net} := { host_network : IpAddr -> string }.

(** What the handlers read of [AppState]. *)
Record AdminState `{Net} := mkAdminState {
  ad_sessions : option AdminSessionManager;
  ad_public_url : string;
  ad_onion : option string;
  ad_key_integrity_secret : string;
  ad_refresh_token_pepper : string;
  ad_max_keys : u32;
  ad_pending_key_ttl_days : u32;
  ad_trusted_proxies : list IpNetwork;
}.

Definition admin_auth_fail : AppError := AuthError "Invalid admin credentials".

(** [.map_err(|_| admin_auth_fail())]. *)
Definition or_auth_fail {A} (o : outcome A) : outcome A :=
  match o with Err _ => Err admin_auth_fail | _ => o end.

(** [s.chars().take(n)], on the ASCII the callers have. *)
Fixpoint take_chars (n : nat) (s : string) : string :=
  match n, s with
  | S n, String c s => String c (take_chars n s)
  | _, _ => EmptyString
  end.
Definition pubkey_prefix (pubkey : string) : string := take_chars PUBKEY_PREFIX_LEN pubkey.

Definition host_allowed (host : string) (onion : option string) : bool :=
  if is_empty host then true
  else
    let h := to_lowercase host in
    if (h =? "[::1]") || is_some (RustStr.strip_prefix "[::1]:" h) || (h =? "::1") then true
    else
      let bare := before_char ":" h in
      if (bare =? "localhost") || (bare =? "127.0.0.1") then true
      else match onion with
           | Some o =>
               let o := to_lowercase o in
               negb (is_empty o) && ((bare =? o) || (h =? o))
           | None => false
           end.

Definition admin_hex_digit (c : ascii) : bool :=
  is_ascii_digit c || ((97 <=? code c)%nat && (code c <=? 102)%nat).

Definition validate_admin_pubkey (pubkey : string) : outcome unit :=
  if (len pubkey =? 64)%nat && all_chars admin_hex_digit pubkey then Ok tt
  else Err (ValidationError "pubkey must be 64 lowercase hex chars").

Definition key_status (k : AdminKey) : string :=
  if is_some (ak_revoked_at k) then "revoked"
  else if is_none (ak_activated_at k) then "pending"
  else "active".

(** * Requests and responses *)

Record AdminContext := mkAdminContext {
  cx_pubkey : string; cx_admin_key_id : Uuid; cx_session_id : Uuid }.
Record AdminChallengeResponse := mkAdminChallengeResponse {
  cr_challenge : string; cr_url : string; cr_instance_id : string; cr_expires_in : i64 }.
Record AdminTokenResponse := mkAdminTokenResponse {
  tr_access_token : string; tr_refresh_token : string; tr_expires_in : i64 }.
Record AdminMeResponse := mkAdminMeResponse { me_pubkey : string; me_admin_key_id : string }.
Record KeyResponse := mkKeyResponse { kr_id : string; kr_pubkey : string; kr_status : string }.
Record AdminKeyView := mkAdminKeyView {
  kv_id : string; kv_pubkey : string; kv_label : option string; kv_scope : string;
  kv_status : string; kv_created_at : string; kv_activated_at : option string;
  kv_revoked_at : option string }.
Record InviteView := mkInviteView {
  iv_code_prefix : string; iv_label : option string; iv_created_at : string;
  iv_status : string }.

Definition key_response `{Ext} (k : AdminKey) : KeyResponse :=
  mkKeyResponse (uuid_to_string (ak_id k)) (ak_pubkey k) (key_status k).

Definition key_view `{Ext} (k : AdminKey) : AdminKeyView :=
  mkAdminKeyView (uuid_to_string (ak_id k)) (ak_pubkey k) (ak_label k) (ak_scope k)
    (key_status k) (to_rfc3339 (ak_created_at k)) (to_rfc3339 <$> ak_activated_at k)
    (to_rfc3339 <$> ak_revoked_at k).

Definition invite_view `{Ext} (now : Time) (r : InviteCodeRow) : InviteView :=
  let status :=
    if is_some (ic_used_at r) then "used"
    else if match ic_expires_at r with Some e => (e <=? now)%Z | None => false end then "expired"
    else "unused" in
  mkInviteView (take_chars 12 (ic_code_hash r)) (ic_label r) (to_rfc3339 (ic_created_at r)) status.

(** [json!({ "count": count })]. *)
Definition QUOTE : string := String (ascii_of_nat 34) EmptyString.
Definition count_json (count : N) : string :=
  "{" ++ QUOTE ++ "count" ++ QUOTE ++ ":" ++ pretty count ++ "}".

(** * Handlers *)

Section handlers.
Context `{Ext} `{Hmac} `{AdminJwt} `{Nostr} `{MacJson} `{AuditJson} `{HostNet} `{Bs58}
  (state : AdminState).

Abbreviation secret := (ad_key_integrity_secret state).

Definition admin_manager : outcome AdminSessionManager :=
  ok_or (ad_sessions state) (NotFound "admin surface is not enabled").

Definition admin_verify_url : string :=
  trim_end_char "/" (ad_public_url state) ++ "/admin/auth/verify".

Definition admin_instance_id : string :=
  take_chars 16 (hex_encode (sha256 (list_byte_of_string (ad_public_url state)))).

Definition admin_audit (action : string) (actor : string) (target details : option string)
    (ip : option string) : NewAdminAudit :=
  mkNewAdminAudit action "admin" (Some (pubkey_prefix actor)) target details ip.

Definition key_active (k : AdminKey) : bool := is_some (ak_activated_at k).

(** [get_active_admin_key(..).filter(|k| k.activated_at.is_some())]. *)
Definition activated_key (pubkey : string) : M (option AdminKey) :=
  found ← get_active_admin_key pubkey secret;
  mret (match found with Some k => if key_active k then Some k else None | None => None end).

Definition admin_guard (h : HeaderMap) : M AdminContext :=
  mgr ← lift (or_auth_fail admin_manager);
  token ← lift (or_auth_fail (bearer_token h));
  now ← utc_now;
  info ← lift (or_auth_fail (verify_access mgr now token));
  found ← find_active_admin_session_by_jti (aa_jti info);
  session ← lift (ok_or found admin_auth_fail);
  known ← activated_key (aa_pubkey info);
  key ← lift (ok_or known admin_auth_fail);
  mret (mkAdminContext (aa_pubkey info) (ak_id key) (as_id session)).

Definition admin_challenge : M AdminChallengeResponse :=
  _ ← lift admin_manager;
  challenge ← issue_challenge_nonce "admin_login" None ADMIN_CHALLENGE_TTL_SECS;
  mret (mkAdminChallengeResponse challenge admin_verify_url admin_instance_id
          ADMIN_CHALLENGE_TTL_SECS).

(** A pending key activates at its first login, before its deadline. *)
Definition first_login (key : AdminKey) : M unit :=
  if is_none (ak_activated_at key) then
    late ← match ak_activation_deadline key with
           | Some deadline => now ← utc_now; mret (deadline <? now)%Z
           | None => mret false
           end;
    if late : bool then fail admin_auth_fail
    else
      _ ← activate_admin_key (ak_id key) secret;
      mret tt
  else mret tt.

(** The session and its audit entry, in one transaction. *)
Definition open_admin_session (mgr : AdminSessionManager) (pubkey : string) (key_id : Uuid)
    (ip : IpAddr) : M AdminTokenPair :=
  session_id ← gen_random_uuid;
  now ← utc_now;
  jti ← gen_random_uuid;
  pair ← lift (create_admin_token_pair mgr now jti pubkey session_id);
  let refresh_hash := hash_refresh_token (ap_refresh_token pair) (ad_refresh_token_pepper state) in
  let network := Some (host_network ip) in
  opened ← utc_now;
  _ ← create_admin_session_audited
        (mkNewAdminSession session_id key_id pubkey refresh_hash (ap_access_jti pair) None network
           (opened + refresh_ttl)%Z)
        (admin_audit "admin_login" pubkey None None network) secret;
  mret pair.

Definition signed_admin (token nonce : string) : M string :=
  let descriptor := request_descriptor "POST" "/admin/auth/verify" "" [] in
  now ← utc_now;
  lift (match verify_signed_action token admin_verify_url "POST" "admin_login" nonce
                (descriptor_sha256 descriptor) None (Some admin_instance_id) (timestamp now)
                ADMIN_ACTION_MAX_AGE_SECS with
        | Accepted p => Ok p | Rejected _ => Err admin_auth_fail | Panicked => Panic end).

Definition admin_verify (peer : IpAddr) (h : HeaderMap) (token nonce : string)
  : M AdminTokenResponse :=
  mgr ← lift admin_manager;
  let ip := client_ip (ad_trusted_proxies state) h peer in
  pubkey ← signed_admin token nonce;
  consumed ← consume_challenge nonce "admin_login";
  if is_none consumed then fail admin_auth_fail
  else
    known ← get_active_admin_key pubkey secret;
    key ← lift (ok_or known admin_auth_fail);
    _ ← first_login key;
    pair ← open_admin_session mgr pubkey (ak_id key) ip;
    _ ← touch_admin_key_last_used (ak_id key);
    mret (mkAdminTokenResponse (ap_access_token pair) (ap_refresh_token pair) (ap_expires_in pair)).

Definition admin_refresh (refresh_token : string) : M AdminTokenResponse :=
  mgr ← lift admin_manager;
  clock ← utc_now;
  info ← lift (or_auth_fail (verify_refresh mgr clock refresh_token));
  let '(pubkey, session_id) := (info : string * Uuid) in
  known ← activated_key pubkey;
  key ← lift (ok_or known admin_auth_fail);
  found ← find_active_admin_session_by_id session_id;
  session ← lift (ok_or found admin_auth_fail);
  let presented := hash_refresh_token refresh_token (ad_refresh_token_pepper state) in
  if negb (ct_eq presented (as_refresh_token_hash session))
     || negb (bool_decide (as_admin_key_id session = ak_id key))
  then fail admin_auth_fail
  else
    now ← utc_now;
    jti ← gen_random_uuid;
    minted ← lift (mint_access_token mgr now jti pubkey);
    let '(access_token, jti, expires_in) := (minted : string * string * i64) in
    rotated ← rotate_admin_session_jti session_id jti;
    _ ← lift (ok_or rotated admin_auth_fail);
    mret (mkAdminTokenResponse access_token refresh_token expires_in).

Definition admin_logout (h : HeaderMap) : M unit :=
  ctx ← admin_guard h;
  _ ← revoke_admin_session (cx_session_id ctx);
  swallow (record_admin_audit (admin_audit "admin_logout" (cx_pubkey ctx) None None None) secret).

Definition admin_me (h : HeaderMap) : M AdminMeResponse :=
  ctx ← admin_guard h;
  mret (mkAdminMeResponse (cx_pubkey ctx) (uuid_to_string (cx_admin_key_id ctx))).

(** [clock] is [Utc::now()]. *)
Definition pending_key (clock : Time) (pubkey : string) (label : option string) : NewAdminKey :=
  mkNewAdminKey pubkey label "admin" "admin"
    (Some (clock + ad_pending_key_ttl_days state * DAY)%Z).

Definition admin_keys_add (h : HeaderMap) (pubkey : string) (label : option string)
  : M KeyResponse :=
  ctx ← admin_guard h;
  let pubkey := to_lowercase pubkey in
  _ ← lift (validate_admin_pubkey pubkey);
  let audit := admin_audit "admin_key_added" (cx_pubkey ctx) (Some (pubkey_prefix pubkey)) None None in
  clock ← utc_now;
  added ← create_admin_key_audited (pending_key clock pubkey label) audit secret (ad_max_keys state);
  match added with
  | Created key => mret (key_response key)
  | CapReached => fail (Forbidden "admin key limit reached; revoke an existing key first")
  end.

Definition admin_keys_list (h : HeaderMap) : M (list AdminKeyView) :=
  _ ← admin_guard h;
  keys ← list_admin_keys;
  mret (key_view <$> keys).

Definition key_gone : AppError := NotFound "admin key not found or already revoked".

Definition admin_keys_revoke (h : HeaderMap) (k : Uuid) : M unit :=
  ctx ← admin_guard h;
  let audit := admin_audit "admin_key_revoked" (cx_pubkey ctx) (Some (uuid_to_string k)) None None in
  revoked ← revoke_admin_key_full k audit secret true;
  match revoked with
  | Revoked _ => mret tt
  | KeyNotFound => fail key_gone
  | WouldEmptyAllowlist =>
      fail (Forbidden "refusing to revoke the last admin key over the network; use the CLI")
  end.

Definition admin_keys_rotate (h : HeaderMap) (k : Uuid) (pubkey : string) (label : option string)
  : M KeyResponse :=
  ctx ← admin_guard h;
  let pubkey := to_lowercase pubkey in
  _ ← lift (validate_admin_pubkey pubkey);
  let audit := admin_audit "admin_key_rotated" (cx_pubkey ctx) (Some (uuid_to_string k)) None None in
  clock ← utc_now;
  rotated ← rotate_admin_key k (pending_key clock pubkey label) audit secret;
  key ← lift (ok_or rotated key_gone);
  mret (key_response key).

Definition admin_invites_mint (h : HeaderMap) (count : option u32) (label : option string)
  : M (list string) :=
  ctx ← admin_guard h;
  let n := Z.to_N (clamp 1 1000 (default 1%Z count)) in
  let audit := admin_audit "invites_minted" (cx_pubkey ctx) label (Some (count_json n)) None in
  mint_invites_audited (N.to_nat n) label audit secret.

Definition admin_invites_list (h : HeaderMap) : M (list InviteView * i64) :=
  _ ← admin_guard h;
  rows ← list_invite_codes 200 0;
  now ← utc_now;
  unused ← unused_invite_code_count;
  mret (invite_view now <$> rows, unused).
End handlers.
