(* ===== verification/AdminApiSafety.v ===== *)
(** What the operator's plane promises: its handlers keep the allowlist, its
    tokens are its own, nobody enters without a proof and a live key, and a
    revoked key is out at once. *)

From Stdlib Require Import ZArith Lia Ascii String Strings.Byte.
From stdpp Require Import pretty.
From S2P Require Import Prelude RustStr Errors Db Effects TipStatus SocialTips Transactions Pepper AuditChain Demo Auth TipApi Nip98 Signatures Challenges Registration AdminKeys AdminSafety AdminApi Paths.

Local Open Scope string_scope.

(** * Tokens of two planes *)

(** The token was minted for that audience; a strict validation of that audience
    accepts it. *)
Definition minted_for `{Jwt} `{AdminJwt} (aud t : string) : Prop :=
  exists k, (exists c, jwt_encode_access k c = inr t /\ ac_aud c = aud) \/
    (exists c, jwt_encode_refresh k c = inr t /\ rc_aud c = aud) \/
    (exists c, jwt_encode_admin_access k c = inr t /\ aac_aud c = aud) \/
    (exists c, jwt_encode_admin_refresh k c = inr t /\ arc_aud c = aud).
Definition accepted_for `{Jwt} `{AdminJwt} (aud t : string) : Prop :=
  exists k now, is_Some (jwt_decode_access k (strict_validation aud) now t) \/
    is_Some (jwt_decode_refresh k (strict_validation aud) now t) \/
    is_Some (jwt_decode_admin_access k (strict_validation aud) now t) \/
    is_Some (jwt_decode_admin_refresh k (strict_validation aud) now t).

(** Documented behaviour of [jsonwebtoken]: the audience of a strict validation
    is the token's; a token that was encoded decodes until it expires. *)
Class AdminJwtLaws (J : Jwt) (A : AdminJwt) := {
  one_audience : forall aud aud' t, minted_for aud t -> accepted_for aud' t -> aud' = aud;
  decode_encode_admin_access : forall k c t now,
    jwt_encode_admin_access k c = inr t -> (now <= aac_exp c)%Z ->
    jwt_decode_admin_access k (strict_validation (aac_aud c)) now t = Some c;
  decode_encode_admin_refresh : forall k c t now,
    jwt_encode_admin_refresh k c = inr t -> (now <= arc_exp c)%Z ->
    jwt_decode_admin_refresh k (strict_validation (arc_aud c)) now t = Some c;
}.

Section planes.
Context `{Ext} {J : Jwt} {A : AdminJwt} {L : AdminJwtLaws J A}.

Lemma foreign_access m aud t now :
  minted_for aud t -> aud <> ADMIN_ACCESS_AUD ->
  verify_access (admin_session_manager_new m) now t = Err invalid_admin_token.
Proof.
  intros Hm Hne. unfold verify_access. simpl.
  destruct (jwt_decode_admin_access _ _ _ _) eqn:E; [|done]. destruct Hne. symmetry.
  apply (one_audience _ _ t Hm). exists m, (timestamp now). rewrite E. by do 2 right; left.
Qed.

Lemma foreign_refresh m aud t now :
  minted_for aud t -> aud <> ADMIN_REFRESH_AUD ->
  verify_refresh (admin_session_manager_new m) now t = Err invalid_admin_token.
Proof.
  intros Hm Hne. unfold verify_refresh. simpl.
  destruct (jwt_decode_admin_refresh _ _ _ _) eqn:E; [|done]. destruct Hne. symmetry.
  apply (one_audience _ _ t Hm). exists m, (timestamp now). rewrite E. by do 3 right.
Qed.

Lemma foreign_user_access k hours aud t now :
  minted_for aud t -> aud <> ACCESS_AUD ->
  verify_access_token (session_manager_new k hours) now t = Err invalid_token.
Proof.
  intros Hm Hne. unfold verify_access_token. simpl.
  destruct (jwt_decode_access _ _ _ _) eqn:E; [|done]. destruct Hne. symmetry.
  apply (one_audience _ _ t Hm). exists k, (timestamp now). rewrite E. by left.
Qed.

Lemma foreign_user_refresh k hours aud t now :
  minted_for aud t -> aud <> REFRESH_AUD ->
  verify_refresh_token (session_manager_new k hours) now t = Err invalid_token.
Proof.
  intros Hm Hne. unfold verify_refresh_token. simpl.
  destruct (jwt_decode_refresh _ _ _ _) eqn:E; [|done]. destruct Hne. symmetry.
  apply (one_audience _ _ t Hm). exists k, (timestamp now). rewrite E. by right; left.
Qed.

Lemma user_pair_minted k hours now u p sid pair :
  create_token_pair (session_manager_new k hours) now u p sid = Ok pair ->
  minted_for ACCESS_AUD (access_token pair) /\ minted_for REFRESH_AUD (refresh_token pair).
Proof.
  unfold create_token_pair. intros (ta & Ha%encoded_Ok & Hp)%bind_Ok.
  apply bind_Ok in Hp as (tr & Hr%encoded_Ok & [= <-]). simpl in *.
  split; exists k; [left|right; left]; by eexists.
Qed.
End planes.

(** The tokens of the operator's plane are its own.  Until they expire the
    access token of a login gives back the admin's public key and its [jti], the
    refresh token the public key and the session, and neither passes for the
    other; no token of a user, whatever the secrets, is ever accepted as an
    admin's, and no admin's as a user's. *)
Theorem admin_token_planes {E : Ext} {EL : ExtLaws E} {J : Jwt} {A : AdminJwt}
    {L : AdminJwtLaws J A} key now jti p sid pair now1 now2
    (Hpair : create_admin_token_pair (admin_session_manager_new key) now jti p sid = Ok pair)
    (Hacc : (timestamp now1 <= timestamp (now + 15 * MINUTE))%Z)
    (Href : (timestamp now2 <= timestamp (now + 8 * HOUR))%Z) :
  let m := admin_session_manager_new key in
  verify_access m now1 (ap_access_token pair) =
    Ok (mkAdminAccessInfo p (ap_access_jti pair)) /\
  verify_refresh m now2 (ap_refresh_token pair) = Ok (p, sid) /\
  (forall t, verify_access m t (ap_refresh_token pair) = Err invalid_admin_token /\
             verify_refresh m t (ap_access_token pair) = Err invalid_admin_token) /\
  (forall k hours t token, token = ap_access_token pair \/ token = ap_refresh_token pair ->
     verify_access_token (session_manager_new k hours) t token = Err invalid_token /\
     verify_refresh_token (session_manager_new k hours) t token = Err invalid_token) /\
  (forall k hours t now' u pl s upair token,
     create_token_pair (session_manager_new k hours) now' u pl s = Ok upair ->
     token = access_token upair \/ token = refresh_token upair ->
     verify_access m t token = Err invalid_admin_token /\
     verify_refresh m t token = Err invalid_admin_token).
Proof.
  intros m. unfold create_admin_token_pair in Hpair.
  apply bind_Ok in Hpair as (ta & Ha%encoded_Ok & Hpair).
  apply bind_Ok in Hpair as (tr & Hr%encoded_Ok & [= <-]). simpl in *.
  assert (Ma : minted_for ADMIN_ACCESS_AUD ta)
    by (exists key; right; right; left; by eexists).
  assert (Mr : minted_for ADMIN_REFRESH_AUD tr)
    by (exists key; right; right; right; by eexists).
  split_and!.
  - pose proof (decode_encode_admin_access _ _ _ (timestamp now1) Ha Hacc) as Hd.
    unfold verify_access. simpl in *. by rewrite Hd.
  - pose proof (decode_encode_admin_refresh _ _ _ (timestamp now2) Hr Href) as Hd.
    unfold verify_refresh. simpl in *. rewrite Hd. simpl. by rewrite uuid_round_trip.
  - intros t. split; [by eapply foreign_access|by eapply foreign_refresh].
  - intros k hours t token [->| ->];
      (split; [by eapply foreign_user_access|by eapply foreign_user_refresh]).
  - intros k hours t now' u pl s upair token [Mu Mv]%user_pair_minted [->| ->];
      (split; [by eapply foreign_access|by eapply foreign_refresh]).
Qed.

(** * The handlers, program by program *)

Section programs.
Context `{Ext} `{Hmac} `{AdminJwt} `{Nostr} `{MacJson} `{AuditJson} `{HostNet} `{Bs58}
  (state : AdminState).
Context (G : (nat -> Uuid) -> Prop) (R : Rel) (I : Db -> Prop) (Hst : stable R I).

Abbreviation T := (triple G R I).
Abbreviation secret := (ad_key_integrity_secret state).

(** A live row of the public key whose code verified, at a moment of the run. *)
Definition was_listed (pubkey : string) (key : AdminKey) : Prop :=
  exists d, I d /\ live_key_of pubkey d = Some key /\ sealed secret key = true.

Lemma triple_active_key pubkey :
  T (get_active_admin_key pubkey secret) (fun o => forall k, o = Some k -> was_listed pubkey k).
Proof.
  unfold get_active_admin_key.
  eapply (triple_bind _ _ _ _ _ (fun o => forall k, o = Some k -> exists d, I d /\ live_key_of pubkey d = Some k)).
  - apply triple_read; [done|]. intros t d d' r HI [= <- <-]. split; [done|]. eauto.
  - intros [k|] Hk; apply triple_ret; [|done]. intros k' Hk'.
    destruct (sealed _ k) eqn:Es; [|done]. injection Hk' as <-.
    destruct (Hk k eq_refl) as (d & HI & Hl). by exists d.
Qed.

Lemma triple_activated pubkey :
  T (activated_key state pubkey)
    (fun o => forall k, o = Some k -> was_listed pubkey k /\ key_active k = true).
Proof.
  unfold activated_key. eapply triple_bind; [apply triple_active_key|].
  intros [k|] Hk; apply triple_ret; [|done]. intros k' Hk'.
  destruct (key_active k) eqn:Ea; [|done]. injection Hk' as <-. by split; [apply Hk|].
Qed.

(** Who passes the guard: the subject of a valid access token with a live
    session, whose key was listed, sealed and active at that moment. *)
Lemma triple_guard h :
  T (admin_guard state h) (fun ctx => exists key,
    was_listed (cx_pubkey ctx) key /\ key_active key = true /\ cx_admin_key_id ctx = ak_id key /\
    exists mgr token now jti, ad_sessions state = Some mgr /\ bearer_token h = Ok token /\
      verify_access mgr now token = Ok (mkAdminAccessInfo (cx_pubkey ctx) jti)).
Proof.
  unfold admin_guard.
  eapply (triple_bind _ _ _ _ _ (fun mgr => ad_sessions state = Some mgr)).
  { apply triple_lift. intros mgr Hm. unfold admin_manager in Hm.
    by destruct (ad_sessions state); [injection Hm as <-|]. }
  intros mgr Hmgr.
  eapply (triple_bind _ _ _ _ _ (fun t => bearer_token h = Ok t)).
  { apply triple_lift. by intros t; destruct (bearer_token h); [intros [= <-]|..]. }
  intros token Ht. eapply triple_bind; [apply triple_utc_now|]. intros now _.
  eapply (triple_bind _ _ _ _ _ (fun i => verify_access mgr now token = Ok i)).
  { apply triple_lift. by intros i; destruct (verify_access mgr now token); [intros [= <-]|..]. }
  intros info Hi. eapply (triple_bind _ _ _ _ _ (fun _ => True)).
  { apply triple_read; [done|]. by intros t d d' r _ [= <- _]. }
  intros found _. eapply (triple_bind _ _ _ _ _ (fun _ => True)); [by apply triple_lift|]. intros s _.
  eapply triple_bind; [apply triple_activated|]. intros known Hk.
  eapply (triple_bind _ _ _ _ _ (fun k => was_listed (aa_pubkey info) k /\ key_active k = true)).
  { apply triple_lift. intros k ->%ok_or_Ok. by apply Hk. }
  intros key [Hl Ha]. apply triple_ret. exists key. split; [done|]. split; [done|]. split; [done|].
  exists mgr, token, now, (aa_jti info). simpl. by destruct info.
Qed.

(** The token is a login signed by [p] for this instance, over the nonce. *)
Definition admin_signer_at (token nonce p : string) (now : i64) : Prop :=
  verify_signed_action token (admin_verify_url state) "POST" "admin_login" nonce
    (descriptor_sha256 (request_descriptor "POST" "/admin/auth/verify" "" [])) None
    (Some (admin_instance_id state)) now ADMIN_ACTION_MAX_AGE_SECS = Accepted p.
Definition admin_signer (token nonce p : string) : Prop :=
  exists now, admin_signer_at token nonce p now.

Lemma triple_signed_admin token nonce :
  T (signed_admin state token nonce) (admin_signer token nonce).
Proof.
  unfold signed_admin. eapply triple_bind; [apply triple_utc_now|]. intros now _.
  apply triple_lift. intros p Hp.
  destruct (verify_signed_action _ _ _ _ _ _ _ _ _ _) eqn:E; [|done|done].
  injection Hp as <-. by exists (timestamp now).
Qed.
End programs.

(** * The handlers keep the allowlist *)

Section lawful.
Context `{Ext} `{Hmac} `{AdminJwt} `{Nostr} `{MacJson} `{AuditJson} `{HostNet} `{Bs58}
  (state : AdminState) (G : (nat -> Uuid) -> Prop).

Abbreviation secret := (ad_key_integrity_secret state).
Abbreviation R := (network_step (ad_key_integrity_secret state) (ad_max_keys state)).
Abbreviation I := (within (ad_key_integrity_secret state) (ad_max_keys state)).
Abbreviation T := (triple G R I).

Lemma triple_elsewhere_keys {A} on_err (s : Stmt A) :
  (forall t d d' x, s t d = inr (d', x) -> admin_keys d' = admin_keys d) ->
  T (run_stmt on_err s) (fun _ => True).
Proof.
  intros Hs. apply triple_stmt; [apply network_step_within|]. intros t d d' x _ E. split; [|done].
  apply (steps_once _ t). apply nw_other. by eapply Hs.
Qed.

Lemma triple_tx_step {A} (t : Tx A) :
  (forall c now d d' x, t c now d = inr (d', x) -> R now d d') ->
  T (run_tx t) (fun _ => True).
Proof.
  intros Ht. apply triple_run_tx; [apply network_step_within|]. intros c now d d' x _ E.
  split; [|done]. apply (steps_once _ now). by eapply Ht.
Qed.

Lemma triple_guarded h : T (admin_guard state h) (fun _ => True).
Proof. eapply triple_weaken; [apply triple_guard, network_step_within|done]. Qed.

Lemma triple_audit_entry entry : T (swallow (record_admin_audit entry secret)) (fun _ => True).
Proof.
  eapply (triple_swallow _ _ _ _ (fun _ => True)); [|done]. unfold record_admin_audit.
  eapply triple_bind; [apply triple_gen_random_uuid|]. intros k _.
  apply triple_tx_step. intros c now d d' x E. apply nw_other. by injection E as <- _.
Qed.

Lemma triple_nonce_consumed nonce purpose : T (consume_challenge nonce purpose) (fun _ => True).
Proof.
  apply triple_elsewhere_keys. intros t d d' x E. unfold sql_consume_challenge in E.
  destruct (challenges d !! nonce); [|by injection E as <- _]. by case_hyp E; injection E as <- _.
Qed.

Lemma triple_first_login key : T (first_login state key) (fun _ => True).
Proof.
  unfold first_login. destruct (is_none _); [|by apply triple_ret].
  eapply (triple_bind _ _ _ _ _ (fun _ => True)).
  { destruct (ak_activation_deadline key); [|by apply triple_ret].
    eapply triple_bind; [apply triple_utc_now|]. intros. by apply triple_ret. }
  intros [] _; [by apply triple_lift|].
  eapply (triple_bind _ _ _ _ _ (fun _ => True)); [|intros; by apply triple_ret].
  apply triple_tx_step. intros. by eapply nw_activate.
Qed.

Lemma triple_open_session mgr pubkey k ip :
  T (open_admin_session state mgr pubkey k ip) (fun _ => True).
Proof.
  unfold open_admin_session. eapply triple_bind; [apply triple_gen_random_uuid|]. intros sid _.
  eapply triple_bind; [apply triple_utc_now|]. intros now _.
  eapply triple_bind; [apply triple_gen_random_uuid|]. intros jti _.
  eapply (triple_bind _ _ _ _ _ (fun _ => True)); [by apply triple_lift|]. intros pair _.
  eapply triple_bind; [apply triple_utc_now|]. intros opened _.
  eapply (triple_bind _ _ _ _ _ (fun _ => True)); [|intros; by apply triple_ret].
  unfold create_admin_session_audited. eapply triple_bind; [apply triple_gen_random_uuid|]. intros a _.
  apply triple_tx_step. intros c t d d' x E. apply nw_other. unfold create_session_tx in E.
  apply bind_tx_inr in E as (d1 & row & Hs & E). apply tx_stmt_inr in Hs.
  apply bind_tx_inr in E as (d2 & u & (Hk & _)%append_audit_inr & [= <- _]). rewrite Hk.
  unfold sql_create_admin_session in Hs. repeat (case_hyp Hs; [done|]). by injection Hs as <- _.
Qed.

Lemma triple_verify_login peer h token nonce :
  T (admin_verify state peer h token nonce) (fun _ => True).
Proof.
  unfold admin_verify. eapply (triple_bind _ _ _ _ _ (fun _ => True)); [by apply triple_lift|].
  intros mgr _. eapply triple_bind; [apply triple_signed_admin|]. intros pubkey _.
  eapply triple_bind; [apply triple_nonce_consumed|]. intros c _.
  destruct (is_none c); [by apply triple_lift|].
  eapply triple_bind; [apply triple_active_key, network_step_within|]. intros known _.
  eapply (triple_bind _ _ _ _ _ (fun _ => True)); [by apply triple_lift|]. intros key _.
  eapply triple_bind; [apply triple_first_login|]. intros _ _.
  eapply triple_bind; [apply triple_open_session|]. intros pair _.
  eapply (triple_bind _ _ _ _ _ (fun _ => True)); [|intros; by apply triple_ret].
  apply triple_stmt; [apply network_step_within|]. intros t d d' x _ E. split; [|done].
  apply (steps_once _ t). eapply (nw_touch _ _ (ak_id key)). by injection E as <- _.
Qed.

Lemma triple_refresh_token token : T (admin_refresh state token) (fun _ => True).
Proof.
  unfold admin_refresh. eapply (triple_bind _ _ _ _ _ (fun _ => True)); [by apply triple_lift|].
  intros mgr _. eapply triple_bind; [apply triple_utc_now|]. intros clock _.
  eapply (triple_bind _ _ _ _ _ (fun _ => True)); [by apply triple_lift|]. intros [p sid] _.
  eapply triple_bind; [apply triple_activated, network_step_within|]. intros known _.
  eapply (triple_bind _ _ _ _ _ (fun _ => True)); [by apply triple_lift|]. intros key _.
  eapply (triple_bind _ _ _ _ _ (fun _ => True)).
  { apply triple_elsewhere_keys. by intros t d d' x [= <- _]. }
  intros found _. eapply (triple_bind _ _ _ _ _ (fun _ => True)); [by apply triple_lift|]. intros s _.
  destruct (_ || _); [by apply triple_lift|].
  eapply triple_bind; [apply triple_utc_now|]. intros now _.
  eapply triple_bind; [apply triple_gen_random_uuid|]. intros jti _.
  eapply (triple_bind _ _ _ _ _ (fun _ => True)); [by apply triple_lift|]. intros [[tok j] e] _.
  eapply (triple_bind _ _ _ _ _ (fun _ => True)).
  { apply triple_elsewhere_keys. intros t d d' x E. unfold sql_rotate_jti in E.
    destruct (admin_sessions d !! sid); [|by injection E as <- _]. by case_hyp E; injection E as <- _. }
  intros r _. eapply (triple_bind _ _ _ _ _ (fun _ => True)); [by apply triple_lift|].
  intros. by apply triple_ret.
Qed.

Lemma triple_logout h : T (admin_logout state h) (fun _ => True).
Proof.
  unfold admin_logout. eapply triple_bind; [apply triple_guarded|]. intros ctx _.
  eapply (triple_bind _ _ _ _ _ (fun _ => True)); [|intros; apply triple_audit_entry].
  unfold revoke_admin_session.
  eapply (triple_bind _ _ _ _ _ (fun _ => True)); [|intros; by apply triple_ret].
  apply triple_elsewhere_keys. intros t d d' x E. unfold sql_revoke_admin_session in E.
  destruct (admin_sessions d !! _); [|by injection E as <- _]. by case_hyp E; injection E as <- _.
Qed.

Lemma triple_keys_add h pubkey label : T (admin_keys_add state h pubkey label) (fun _ => True).
Proof.
  unfold admin_keys_add. eapply triple_bind; [apply triple_guarded|]. intros ctx _.
  eapply (triple_bind _ _ _ _ _ (fun _ => True)); [by apply triple_lift|]. intros _ _.
  eapply triple_bind; [apply triple_utc_now|]. intros clock _.
  eapply (triple_bind _ _ _ _ _ (fun _ => True)); [|intros [] _; by first [apply triple_ret|apply triple_lift]].
  unfold create_admin_key_audited. eapply triple_bind; [apply triple_gen_random_uuid|]. intros k _.
  eapply triple_bind; [apply triple_gen_random_uuid|]. intros a _.
  apply triple_tx_step. intros. by eapply nw_add.
Qed.

Lemma triple_keys_revoke h k : T (admin_keys_revoke state h k) (fun _ => True).
Proof.
  unfold admin_keys_revoke. eapply triple_bind; [apply triple_guarded|]. intros ctx _.
  eapply (triple_bind _ _ _ _ _ (fun _ => True)); [|intros [] _; by first [apply triple_ret|apply triple_lift]].
  unfold revoke_admin_key_full. eapply triple_bind; [apply triple_gen_random_uuid|]. intros a _.
  apply triple_tx_step. intros. by eapply nw_revoke.
Qed.

Lemma triple_keys_rotate h k pubkey label :
  T (admin_keys_rotate state h k pubkey label) (fun _ => True).
Proof.
  unfold admin_keys_rotate. eapply triple_bind; [apply triple_guarded|]. intros ctx _.
  eapply (triple_bind _ _ _ _ _ (fun _ => True)); [by apply triple_lift|]. intros _ _.
  eapply triple_bind; [apply triple_utc_now|]. intros clock _.
  eapply (triple_bind _ _ _ _ _ (fun _ => True)).
  - unfold rotate_admin_key. eapply triple_bind; [apply triple_gen_random_uuid|]. intros k' _.
    eapply triple_bind; [apply triple_gen_random_uuid|]. intros a _.
    apply triple_tx_step. intros. by eapply nw_rotate.
  - intros r _. eapply (triple_bind _ _ _ _ _ (fun _ => True)); [by apply triple_lift|].
    intros. by apply triple_ret.
Qed.

Lemma mint_invites_keys k codes label audit c now d d' x :
  mint_invites_tx k codes label audit secret c now d = inr (d', x) -> admin_keys d' = admin_keys d.
Proof.
  unfold mint_invites_tx. intros E. apply bind_tx_inr in E as (d1 & ? & Hf & E).
  apply bind_tx_inr in E as (d2 & ? & Ha & [= <- _]). injection Ha as <- _. simpl. clear k audit x.
  revert d Hf. induction codes as [|code codes IH]; intros d Hf; [by injection Hf as <- _|].
  cbn [tx_for_each] in Hf. apply bind_tx_inr in Hf as (d2 & u & Hi & Hf).
  rewrite (IH d2 Hf). unfold mint_invite in Hi. apply tx_stmt_inr in Hi. unfold sql_insert_invite_code in Hi.
  destruct (invite_codes d !! _); [done|]. by injection Hi as <- _.
Qed.

Lemma triple_mint h count label : T (admin_invites_mint state h count label) (fun _ => True).
Proof.
  unfold admin_invites_mint. eapply triple_bind; [apply triple_guarded|]. intros ctx _.
  unfold mint_invites_audited. generalize (N.to_nat (Z.to_N (clamp 1 1000 (default 1%Z count)))).
  intros n. eapply (triple_bind _ _ _ _ _ (fun _ => True)).
  { induction n as [|n IH]; simpl; [by apply triple_ret|].
    eapply (triple_bind _ _ _ _ _ (fun _ => True)).
    - unfold generate_invite_code. eapply triple_bind; [apply triple_gen_random_uuid|].
      intros. by apply triple_ret.
    - intros c _. eapply triple_bind; [apply IH|]. intros. by apply triple_ret. }
  intros codes _. eapply triple_bind; [apply triple_gen_random_uuid|]. intros k _.
  apply triple_tx_step. intros c now d d' x E. apply nw_other. by eapply mint_invites_keys.
Qed.

Lemma triple_challenge : T (admin_challenge state) (fun _ => True).
Proof.
  unfold admin_challenge. eapply (triple_bind _ _ _ _ _ (fun _ => True)); [by apply triple_lift|].
  intros mgr _. eapply (triple_bind _ _ _ _ _ (fun _ => True)); [|intros; by apply triple_ret].
  unfold issue_challenge_nonce. eapply triple_bind; [apply triple_gen_random_uuid|]. intros r _.
  eapply (triple_bind _ _ _ _ _ (fun _ => True)); [|intros; by apply triple_ret].
  apply triple_elsewhere_keys. intros t d d' x E. unfold sql_issue_challenge in E.
  case_hyp E; [done|]. by injection E as <- _.
Qed.
End lawful.

(** Under any interleaving of network operations the program only makes network
    operations. *)
Definition network_lawful `{Ext} `{Hmac} `{MacJson} `{AuditJson} `{HostNet} (state : AdminState)
    {A} (m : M A) : Prop :=
  triple (fun _ => True) (network_step (ad_key_integrity_secret state) (ad_max_keys state))
    (within (ad_key_integrity_secret state) (ad_max_keys state)) m (fun _ => True).

(** The operator's handlers are steps of the allowlist.  From an allowlist of
    between one and [max_keys] sealed live keys, every handler of the plane,
    whatever its request and whatever the other admins do in between, changes the
    allowlist only by the audited transactions that keep it so: no request can
    lock every administrator out, overfill the list or leave a row without a
    valid code. *)
Theorem admin_handlers_lawful `{Ext} `{Hmac} `{AdminJwt} `{Nostr} `{MacJson} `{AuditJson}
    `{HostNet} `{Bs58} state peer h token nonce k pubkey label count :
  network_lawful state (admin_challenge state) /\
  network_lawful state (admin_verify state peer h token nonce) /\
  network_lawful state (admin_refresh state token) /\
  network_lawful state (admin_logout state h) /\
  network_lawful state (admin_me state h) /\
  network_lawful state (admin_keys_add state h pubkey label) /\
  network_lawful state (admin_keys_list state h) /\
  network_lawful state (admin_keys_revoke state h k) /\
  network_lawful state (admin_keys_rotate state h k pubkey label) /\
  network_lawful state (admin_invites_mint state h count label) /\
  network_lawful state (admin_invites_list state h).
Proof.
  unfold network_lawful. split_and!.
  - apply triple_challenge.
  - apply triple_verify_login.
  - apply triple_refresh_token.
  - apply triple_logout.
  - eapply triple_bind; [apply triple_guarded|]. intros. by apply triple_ret.
  - apply triple_keys_add.
  - eapply triple_bind; [apply triple_guarded|]. intros ctx _.
    eapply triple_bind; [|intros; by apply triple_ret].
    apply (triple_elsewhere_keys _ _ _ _). by intros t d d' x [= <- _].
  - apply triple_keys_revoke.
  - apply triple_keys_rotate.
  - apply triple_mint.
  - eapply triple_bind; [apply triple_guarded|]. intros ctx _.
    eapply triple_bind; [apply (triple_elsewhere_keys _ _ _ _); by intros t d d' x [= <- _]|].
    intros rows _. eapply triple_bind; [apply triple_utc_now|]. intros now _.
    eapply triple_bind; [apply (triple_elsewhere_keys _ _ _ _); by intros t d d' x [= <- _]|].
    intros. by apply triple_ret.
Qed.

(** * No login without a proof *)

Lemma run_stmt_skew {T} on_err (s : Stmt T) w : w_skew (run_stmt on_err s w).1 = w_skew w.
Proof.
  unfold run_stmt, next_slot. by destruct (w_sched w) as [|sl rest]; simpl; repeat case_match.
Qed.

(** A statement of a program that went on, [R] being what the others do. *)
Lemma stmt_then {T} R on_err (s : Stmt T) w w' r :
  sched_ok R (w_sched w) -> run_stmt on_err s w = (w', Ok r) ->
  exists d, steps R (w_db w) d /\ s (w_now w') d = inr (w_db w', r) /\ sched_ok R (w_sched w') /\
    (w_now w <= w_now w')%Z /\ w_skew w' = w_skew w.
Proof.
  intros Hok Hrun. pose proof (run_stmt_skew on_err s w) as Hk. rewrite Hrun in Hk. simpl in Hk.
  apply (run_stmt_Ok _ _ _ _ _ _ Hok) in Hrun as (d & Hs & Hx & Hok' & Hle).
  by exists d.
Qed.

(** After the key was found the login only seals its first use, and opens one
    session: all else it does leaves the challenges and the sessions of the
    administrators alone. *)
Definition apart : Rel := fun _ d d' =>
  challenges d' = challenges d /\ admin_sessions d' = admin_sessions d.

Section login.
Context `{Ext} `{Hmac} `{AdminJwt} `{Nostr} `{MacJson} `{AuditJson} `{HostNet} (state : AdminState).
Context (R : Rel).

(** Between [d] and [d'] exactly one session was opened, for that key, with the
    hash of that token; the others did the rest. *)
Definition session_opened (key : AdminKey) (refresh jti : string) (sid : Uuid) (d d' : Db) : Prop :=
  exists d1 d2 s, steps (either R apart) d d1 /\ steps (either R apart) d2 d' /\
    admin_sessions d1 !! sid = None /\ admin_sessions d2 = <[sid := s]> (admin_sessions d1) /\
    as_admin_key_id s = ak_id key /\ as_pubkey s = ak_pubkey key /\ as_access_jti s = jti /\
    as_refresh_token_hash s = hash_refresh_token refresh (ad_refresh_token_pepper state) /\
    as_revoked_at s = None.

Lemma leads_apart {T} on_err (s : Stmt T) :
  (forall t d d' r, s t d = inr (d', r) -> apart 0%Z d d') -> leads (either R apart) (run_stmt on_err s).
Proof.
  intros Hs. apply leads_stmt. intros t d d' r E. apply (steps_once _ 0%Z). right. by eapply Hs.
Qed.

Lemma activate_apart k secret c now d d' r :
  activate_admin_key_tx k secret c now d = inr (d', r) -> apart 0%Z d d'.
Proof.
  unfold activate_admin_key_tx. rewrite bind_tx_inr. intros (d1 & found & Hf & E).
  unfold find_live_key in Hf. apply tx_stmt_inr in Hf. injection Hf as <- <-.
  destruct (live_key k d) as [key|]; [|by injection E as <- _].
  destruct (is_none (ak_activated_at key)); [|by injection E as <- _].
  apply bind_tx_inr in E as (d2 & at_ & [= <- <-] & E).
  apply bind_tx_inr in E as (d3 & y & Es & [= <- _]).
  unfold store_key in Es. apply tx_stmt_inr in Es. by injection Es as <- _.
Qed.

Lemma leads_first_login key : leads (either R apart) (first_login state key).
Proof.
  unfold first_login. destruct (is_none _); [|apply leads_ret].
  apply leads_bind; [destruct (ak_activation_deadline key); leads_steps|]. intros [|]; [apply leads_lift|].
  apply leads_bind; [|intros; apply leads_ret].
  intros w w' o Hok Hrun. unfold activate_admin_key, run_tx in Hrun. revert Hrun. apply (leads_bind _ _ _); [| |done].
  - apply leads_apart. intros t d d' r E. unfold tx_as_stmt in E.
    destruct (activate_admin_key_tx _ _ _ _ _) as [e|[d2 a]] eqn:Et; injection E as <- <-; [done|].
    by eapply activate_apart.
  - intros [?|?]; leads_steps.
Qed.

Lemma leads_touch_key k : leads (either R apart) (touch_admin_key_last_used k).
Proof. apply leads_apart. by intros t d d' r [= <- _]. Qed.

(** Opening the session: its tokens are made at one moment of the run. *)
Lemma opened_run mgr key ip w w' pair d0 :
  sched_ok (either R apart) (w_sched w) -> steps (either R apart) d0 (w_db w) ->
  open_admin_session state mgr (ak_pubkey key) (ak_id key) ip w = (w', Ok pair) ->
  sched_ok (either R apart) (w_sched w') /\ (w_now w <= w_now w')%Z /\
  forall w0, reaches (either R apart) w' w0 -> exists jti sid now, (w_now w <= now <= w_now w')%Z /\
    create_admin_token_pair mgr (now + w_skew w) jti (ak_pubkey key) sid = Ok pair /\
    session_opened key (ap_refresh_token pair) (ap_access_jti pair) sid d0 (w_db w0).
Proof.
  intros Hok Hst Hrun. unfold open_admin_session in Hrun.
  pose proof (reaches_refl _ w Hok) as Hr.
  walk Hrun Hr as w1 sid E1. destruct Hr as (Hs1 & Hok1 & Hn1 & Hc1 & Hk1).
  apply bind_run_Ok in Hrun as (w2 & now & [= <- <-] & Hrun).
  apply bind_run_Ok in Hrun as (w2 & jti & Hj & Hrun).
  apply bind_run_Ok in Hrun as (w3 & pair' & [-> Hpair]%lift_run_Ok & Hrun).
  apply bind_run_Ok in Hrun as (w3 & opened & [= <- <-] & Hrun).
  apply bind_run_Ok in Hrun as (w3 & s & Hs & [= <- <-]).
  injection Hj as <- <-. unfold create_admin_session_audited in Hs.
  apply bind_run_Ok in Hs as (w4 & a & Ha & Hs). injection Ha as <- <-.
  pose proof Hs as Hn. apply run_tx_inv in Hn as (sl & rest & _ & _ & Hn & _).
  pose proof Hs as Hok'. apply (run_tx_sched (either R apart)) in Hok'; [|done].
  apply (run_tx_at (either R apart)) in Hs as (d & Hd & Htx); [|done]. cbn [w_db w_now] in *.
  unfold create_session_tx in Htx. apply bind_tx_inr in Htx as (d2 & row & Hrow%tx_stmt_inr & Htx).
  apply bind_tx_inr in Htx as (d3 & u & (_ & Hse & _)%append_audit_inr & [= -> _]).
  unfold sql_create_admin_session in Hrow. case_hyp Hrow; [done|]. case_hyp Hrow; [done|].
  injection Hrow as <- <-. simpl in Hn. split; [done|]. split; [lia|].
  intros w0 Hafter. do 2 eexists. exists (w_now w1).
  split; [lia|]. rewrite <- Hk1. split; [exact Hpair|].
  eexists d, (w_db w3), _. split_and!; [|apply Hafter| |rewrite Hse; reflexivity|done..].
  - eapply steps_trans; [exact Hst|]. eapply steps_trans; [exact Hs1|exact Hd].
  - by destruct (admin_sessions d !! _).
Qed.
End login.

(** C22: nobody becomes an administrator without a proof and a key of the list.
    Whatever steps [R] the others take meanwhile, when a login answers its token is, at the moment of the request, an action signed
    for this instance, this login and this nonce by a public key [p]; the nonce was
    then stored, unexpired, and is deleted, and nothing else with it; in what
    the others made of that since, a row of [p] was not revoked, had a valid
    code, and was active or its deadline not yet passed when the login began;
    the tokens answered were made during the run for [p]; and exactly one session, of that row and that
    token, was opened after that. *)
Theorem admin_login_needs_proof `{Ext} `{Hmac} `{AdminJwt} `{Nostr} `{MacJson} `{AuditJson}
    `{HostNet} state R peer h token nonce w w' resp
    (Hothers : sched_ok R (w_sched w))
    (Hrun : admin_verify state peer h token nonce w = (w', Ok resp)) :
  exists p t d0 d1 row k key,
    admin_signer_at state token nonce p (timestamp (w_now w + w_skew w)) /\
    steps R (w_db w) d0 /\ challenges d0 !! nonce = Some row /\
    ch_purpose row = "admin_login" /\ (w_now w <= t < ch_expires_at row)%Z /\
    steps R (d0 <|challenges := delete nonce (challenges d0)|>) d1 /\
    admin_keys d1 !! k = Some key /\ ak_pubkey key = p /\ ak_revoked_at key = None /\
    sealed (ad_key_integrity_secret state) key = true /\
    (forall deadline, ak_activated_at key = None -> ak_activation_deadline key = Some deadline ->
       (w_now w + w_skew w <= deadline)%Z) /\
    (exists mgr jti sid now pair, ad_sessions state = Some mgr /\
       (w_now w <= now <= w_now w')%Z /\
       create_admin_token_pair mgr (now + w_skew w) jti p sid = Ok pair /\
       resp = mkAdminTokenResponse (ap_access_token pair) (ap_refresh_token pair)
                (ap_expires_in pair) /\
       session_opened state R key (ap_refresh_token pair) (ap_access_jti pair) sid d1 (w_db w')).
Proof.
  unfold admin_verify in Hrun.
  apply bind_run_Ok in Hrun as (wa & mgr & [-> Hmgr]%lift_run_Ok & Hrun).
  apply bind_run_Ok in Hrun as (wb & p & Hp & Hrun).
  assert (wb = w /\ admin_signer_at state token nonce p (timestamp (w_now w + w_skew w))) as [-> Hsig].
  { unfold signed_admin, utc_now in Hp. apply bind_run_Ok in Hp as (wx & now & [= <- <-] & Hp).
    apply lift_run_Ok in Hp as [-> Hp]. split; [done|]. unfold admin_signer_at.
    destruct (verify_signed_action _ _ _ _ _ _ _ _ _ _) eqn:E; [|done|done]. by injection Hp as <-. }
  apply bind_run_Ok in Hrun as (w1 & c & Hc & Hrun).
  apply (stmt_then _ _ _ _ _ _ Hothers) in Hc as (d0 & Hs0 & Hc & Hok1 & Hle1 & Hk1).
  destruct c as [c|]; [|done]. cbn [is_none] in Hrun.
  apply consume_Some in Hc as (row & Hrow & Hpur & Hexp & _ & Hd1).
  apply bind_run_Ok in Hrun as (w2 & known & Hk & Hrun). unfold get_active_admin_key in Hk.
  apply bind_run_Ok in Hk as (w3 & found & Hk & [= <- <-]).
  apply (stmt_then _ _ _ _ _ _ Hok1) in Hk as (d2 & Hs2 & [= Hd2 Hf] & Hok2 & Hle2 & Hk2).
  apply bind_run_Ok in Hrun as (wc & key & [-> Hkey]%lift_run_Ok & Hrun). apply ok_or_Ok in Hkey.
  destruct found as [key'|]; [|done]. destruct (sealed _ key') eqn:Hsealed; [|done].
  injection Hkey as ->. apply live_key_of_Some in Hf as (Hpk & Hl & k & Hrowk).
  assert (Hok : sched_ok (either R apart) (w_sched w3)).
  { eapply sched_ok_mono; [|exact Hok2]. by left. }
  apply bind_run_Ok in Hrun as (w4 & u & Hfirst & Hrun).
  pose proof (leads_first_login state R key _ _ _ Hok Hfirst) as Hr4.
  apply bind_run_Ok in Hrun as (w5 & pair & Hopen & Hrun).
  apply bind_run_Ok in Hrun as (w6 & u' & Htouch & [= <- <-]).
  rewrite <- Hpk in Hopen. destruct Hr4 as (Hs4 & Hok4 & Hn4 & _ & Hk4).
  pose proof (opened_run state R mgr key _ _ _ _ _ Hok4 Hs4 Hopen) as (Hok5 & Hn5 & Hopened).
  pose proof (leads_touch_key R _ _ _ _ Hok5 Htouch) as Hr6.
  destruct (Hopened _ Hr6) as (jti & sid & now & Hnow & Hpair & Hse).
  rewrite Hpk, Hk4, Hk2, Hk1 in Hpair. rewrite <- Hd2, Hd1 in *.
  exists p, (w_now w1), d0, d2, row, k, key. split_and!; try done; try lia.
  - unfold is_live in Hl. by destruct (ak_revoked_at key).
  - intros deadline Hna Hdl. unfold first_login in Hfirst. rewrite Hna, Hdl in Hfirst.
    cbn [is_none] in Hfirst. apply bind_run_Ok in Hfirst as (wx & late & Hlate & Hfirst).
    unfold utc_now in Hlate. apply bind_run_Ok in Hlate as (wy & nw & [= <- <-] & [= <- <-]).
    destruct (deadline <? _)%Z eqn:El; [done|]. apply Z.ltb_ge in El. lia.
  - exists mgr, jti, sid, now, pair. split_and!; try done.
    + unfold admin_manager in Hmgr. by apply ok_or_Ok in Hmgr.
    + lia.
    + destruct Hr6 as (_ & _ & ? & _). lia.
Qed.

(** * A revoked key is out *)

(** No live row of the public key. *)
Definition silenced (p : string) (d : Db) : Prop :=
  forall k x, admin_keys d !! k = Some x -> ak_pubkey x = p -> is_Some (ak_revoked_at x).

Lemma silenced_not_live p d : silenced p d -> live_key_of p d = None.
Proof.
  intros Hs. destruct (live_key_of p d) as [x|] eqn:E; [|done].
  apply live_key_of_Some in E as (Hp & Hl & k & Hk). destruct (Hs k x Hk Hp) as [t Ht].
  unfold is_live in Hl. by rewrite Ht in Hl.
Qed.

(** What everybody does afterwards: the list stays well formed and nobody adds
    the key again. *)
Definition not_readmitted (secret p : string) `{Ext} `{Hmac} `{MacJson} : Rel := fun _ d d' =>
  (allowlist_wf secret d -> allowlist_wf secret d') /\ (silenced p d -> silenced p d').

Section revoked.
Context `{Ext} `{Hmac} `{AdminJwt} `{Nostr} `{MacJson} `{AuditJson} `{HostNet} `{Bs58}
  (state : AdminState) (p : string).

Abbreviation secret := (ad_key_integrity_secret state).
Abbreviation R := (not_readmitted (ad_key_integrity_secret state) p).
Abbreviation I := (silenced p).
Abbreviation T := (triple (fun _ => True) R I).

Lemma silenced_stable : stable R I.
Proof. intros t d d' [_ Hs]. exact Hs. Qed.

Lemma not_listed key : was_listed state I p key -> False.
Proof. intros (d & Hd & Hl & _). by rewrite silenced_not_live in Hl. Qed.

Lemma revoke_full_silences a k audit keep c t d d' x :
  allowlist_wf secret d ->
  revoke_admin_key_full_tx a k audit secret keep c t d = inr (d', Revoked x) ->
  silenced (ak_pubkey x) d' /\
  (forall j s, admin_sessions d' !! j = Some s -> as_admin_key_id s = k -> is_Some (as_revoked_at s)).
Proof.
  intros Hwf E.
  apply revoke_full_inr in E as [[_ Hno]|(y & Hy & [= ->] & _ & _ & _ & Hk & Hs)];
    [by destruct (Hno x)| |done].
  apply live_key_Some in Hy as [Hky Hl]. split.
  - intros j z. rewrite Hk. intros [[<- <-]|[Hne Hj]]%lookup_insert_Some Hp; [by eexists|].
    destruct (ak_revoked_at z) eqn:Ez; [by eexists|]. exfalso. apply Hne.
    apply (proj2 Hwf k j y z); try done. unfold is_live. by rewrite Ez.
  - intros j s. rewrite Hs, lookup_fmap. intros (s0 & Hs0 & ->)%fmap_Some Hkid.
    destruct (live_of_key k s0) eqn:El; [by eexists|]. unfold live_of_key in El.
    rewrite bool_decide_eq_true_2 in El by done. simpl in El.
    destruct (as_revoked_at s0); [by eexists|done].
Qed.

Lemma triple_refused {A} (known : option AdminKey) (m : AdminKey -> M A) :
  (forall key, known = Some key -> was_listed state I p key) ->
  T (key ← lift (ok_or known admin_auth_fail); m key) (fun _ => False).
Proof.
  intros Hk. eapply (triple_bind _ _ _ _ _ (fun _ => False)); [|done].
  apply triple_lift. intros key ->%ok_or_Ok. by eapply not_listed, Hk.
Qed.

Lemma triple_refresh_refused token :
  (forall mgr now q sid, ad_sessions state = Some mgr ->
     verify_refresh mgr now token = Ok (q, sid) -> q = p) ->
  T (admin_refresh state token) (fun _ => False).
Proof.
  intros Hp. unfold admin_refresh.
  eapply (triple_bind _ _ _ _ _ (fun mgr => ad_sessions state = Some mgr)).
  { apply triple_lift. unfold admin_manager. intros mgr Hm. by apply ok_or_Ok in Hm. }
  intros mgr Hmgr. eapply triple_bind; [apply triple_utc_now|]. intros clock _.
  eapply (triple_bind _ _ _ _ _ (fun i => verify_refresh mgr clock token = Ok i)).
  { apply triple_lift. by intros i; destruct (verify_refresh mgr clock token); [intros [= <-]|..]. }
  intros [q sid] Hv. rewrite (Hp mgr clock q sid Hmgr Hv).
  eapply triple_bind; [apply triple_activated, silenced_stable|]. intros known Hk.
  apply triple_refused. intros key Hkey. by apply Hk.
Qed.

Lemma triple_login_refused peer h token nonce :
  (forall q, admin_signer state token nonce q -> q = p) ->
  T (admin_verify state peer h token nonce) (fun _ => False).
Proof.
  intros Hp. unfold admin_verify.
  eapply (triple_bind _ _ _ _ _ (fun _ => True)); [by apply triple_lift|]. intros mgr _.
  eapply triple_bind; [apply triple_signed_admin|]. intros q Hq.
  rewrite (Hp q Hq). eapply (triple_bind _ _ _ _ _ (fun _ => True)).
  { apply triple_stmt; [apply silenced_stable|]. intros t d d' c _ E. split; [|done].
    apply (steps_once _ t). assert (Hk : admin_keys d' = admin_keys d).
    { unfold sql_consume_challenge in E. destruct (challenges d !! nonce); [|by injection E as <- _].
      by case_hyp E; injection E as <- _. }
    split; [unfold allowlist_wf|unfold silenced]; by rewrite Hk. }
  intros c _. destruct (is_none c); [by apply triple_lift|].
  eapply triple_bind; [apply triple_active_key, silenced_stable|]. intros known Hk.
  by apply triple_refused.
Qed.
End revoked.

(** C16: a revocation is immediate and complete.  Once an administrator's key has
    been revoked, and until somebody adds the key again, whatever else happens and
    however requests interleave: no request passes the guard as that key, no
    refresh token of it mints an access token, and no login signed by it is
    answered; and every session of the key is revoked with it. *)
Theorem revoked_admin_locked_out `{Ext} `{Hmac} `{AdminJwt} `{Nostr} `{MacJson} `{AuditJson}
    `{HostNet} state k audit keep x w w1 w2
    (Hwf : allowlist_wf (ad_key_integrity_secret state) (w_db w))
    (Hothers : sched_ok (not_readmitted (ad_key_integrity_secret state) (ak_pubkey x)) (w_sched w))
    (Hrev : revoke_admin_key_full k audit (ad_key_integrity_secret state) keep w
            = (w1, Ok (Revoked x)))
    (Hlater : steps (not_readmitted (ad_key_integrity_secret state) (ak_pubkey x))
                (w_db w1) (w_db w2))
    (Hs2 : sched_ok (not_readmitted (ad_key_integrity_secret state) (ak_pubkey x)) (w_sched w2)) :
  (forall j s, admin_sessions (w_db w1) !! j = Some s -> as_admin_key_id s = k ->
     is_Some (as_revoked_at s)) /\
  (forall h w3 ctx, admin_guard state h w2 = (w3, Ok ctx) -> cx_pubkey ctx <> ak_pubkey x) /\
  (forall token w3 o,
     (forall mgr now q sid, ad_sessions state = Some mgr ->
        verify_refresh mgr now token = Ok (q, sid) -> q = ak_pubkey x) ->
     admin_refresh state token w2 = (w3, o) -> is_ok o = false) /\
  (forall peer h token nonce w3 o,
     (forall q, admin_signer state token nonce q -> q = ak_pubkey x) ->
     admin_verify state peer h token nonce w2 = (w3, o) -> is_ok o = false).
Proof.
  unfold revoke_admin_key_full, gen_random_uuid, mbind, M_bind in Hrev.
  apply (run_tx_Ok (not_readmitted (ad_key_integrity_secret state) (ak_pubkey x))) in Hrev
    as (now & d & Hs & Htx); [|exact Hothers].
  assert (Hwf' : allowlist_wf (ad_key_integrity_secret state) d).
  { eapply steps_stable; [|exact Hs|exact Hwf]. intros t d0 d1 [Hk _]. exact Hk. }
  destruct (revoke_full_silences state _ _ _ _ _ _ _ _ _ Hwf' Htx) as [Hsil Hses].
  apply (steps_stable _ _ _ _ (silenced_stable state _) Hlater) in Hsil.
  split; [exact Hses|]. split_and!.
  - intros h w3 ctx Hg Hctx.
    destruct (triple_run _ _ _ _ _ _ _ _ (triple_guard state (fun _ => True) _ _ (silenced_stable state _) h)
      Logic.I Hs2 Hsil Hg) as (_ & _ & Hq).
    destruct (Hq ctx eq_refl) as (key & Hl & _). rewrite Hctx in Hl. by eapply not_listed.
  - intros token w3 o Hp Hr.
    destruct (triple_run _ _ _ _ _ _ _ _ (triple_refresh_refused state _ token Hp)
      Logic.I Hs2 Hsil Hr) as (_ & _ & Hq). destruct o as [a| |]; [by destruct (Hq a)|done|done].
  - intros peer h token nonce w3 o Hp Hr.
    destruct (triple_run _ _ _ _ _ _ _ _ (triple_login_refused state _ peer h token nonce Hp)
      Logic.I Hs2 Hsil Hr) as (_ & _ & Hq). destruct o as [a| |]; [by destruct (Hq a)|done|done].
Qed.

(** * A concrete plane *)

Definition demo_admin_claims : Type :=
  string * ((string * string * string * string * Z * Z) + (string * string * string * Z * Z)).
Definition demo_admin_token (x : demo_admin_claims) : string :=
  "A" ++ pos_to_string (countable.encode x).
Definition demo_admin_parse (t : string) : option demo_admin_claims :=
  s ← RustStr.strip_prefix "A" t; pos_of_string s ≫= countable.decode.

Lemma demo_admin_parse_token x : demo_admin_parse (demo_admin_token x) = Some x.
Proof.
  unfold demo_admin_parse, demo_admin_token. cbn [append RustStr.strip_prefix Ascii.eqb].
  change (pos_of_string (pos_to_string (countable.encode x)) ≫= countable.decode = Some x).
  rewrite pos_round_trip. apply decode_encode.
Qed.

(** A user token is no admin token, and conversely. *)
Lemma demo_admin_parse_user x : demo_admin_parse (demo_token x) = None.
Proof.
  unfold demo_admin_parse, demo_token. by destruct (countable.encode x) as [q|q|].
Qed.
Lemma demo_parse_admin x : demo_parse (demo_admin_token x) = None.
Proof. done. Qed.

Definition admin_access_tuple (c : AdminAccessClaims) :=
  (aac_sub c, aac_aud c, aac_scope c, aac_jti c, aac_iat c, aac_exp c).
Definition admin_refresh_tuple (c : AdminRefreshClaims) :=
  (arc_sub c, arc_aud c, arc_sid c, arc_iat c, arc_exp c).

#[export] Instance demo_admin_jwt : AdminJwt | 1000 := {
  jwt_encode_admin_access k c := inr (demo_admin_token (k, inl (admin_access_tuple c)));
  jwt_encode_admin_refresh k c := inr (demo_admin_token (k, inr (admin_refresh_tuple c)));
  jwt_decode_admin_access k v now t :=
    match demo_admin_parse t with
    | Some (k', inl (sub, aud, sc, jti, iat, exp)) =>
        if (k =? k') && accepts v now aud exp
        then Some (mkAdminAccessClaims sub aud sc jti iat exp) else None
    | _ => None
    end;
  jwt_decode_admin_refresh k v now t :=
    match demo_admin_parse t with
    | Some (k', inr (sub, aud, sid, iat, exp)) =>
        if (k =? k') && accepts v now aud exp
        then Some (mkAdminRefreshClaims sub aud sid iat exp) else None
    | _ => None
    end;
}.

Lemma accepts_aud aud now aud' exp :
  accepts (strict_validation aud) now aud' exp = true -> aud = aud'.
Proof.
  unfold accepts. simpl. rewrite orb_false_r. by intros [E%String.eqb_eq _]%andb_true_iff.
Qed.

#[export] Instance demo_admin_jwt_laws : AdminJwtLaws demo_jwt demo_admin_jwt.
Proof.
  split.
  - intros aud aud' t (k & Hm) (k' & now & Ha).
    cbn [jwt_encode_access jwt_encode_refresh jwt_decode_access jwt_decode_refresh demo_jwt
      jwt_encode_admin_access jwt_encode_admin_refresh jwt_decode_admin_access
      jwt_decode_admin_refresh demo_admin_jwt] in *.
    destruct Hm as [([] & [= <-] & <-)|[([] & [= <-] & <-)|[([] & [= <-] & <-)|([] & [= <-] & <-)]]];
      rewrite ?demo_parse_token, ?demo_admin_parse_token, ?demo_parse_admin,
        ?demo_admin_parse_user in Ha; simpl in Ha;
      destruct Ha as [[? Ha]|[[? Ha]|[[? Ha]|[? Ha]]]]; try done;
      case_hyp Ha; try done; apply andb_true_iff in E as [_ E]; by apply accepts_aud in E.
  - intros k [sub aud sc jti iat exp] t now [= <-] Hle. cbn [jwt_decode_admin_access demo_admin_jwt].
    rewrite demo_admin_parse_token. simpl in *. by rewrite String.eqb_refl, accepts_own.
  - intros k [sub aud sid iat exp] t now [= <-] Hle. cbn [jwt_decode_admin_refresh demo_admin_jwt].
    rewrite demo_admin_parse_token. simpl in *. by rewrite String.eqb_refl, accepts_own.
Qed.

Definition demo_pair_of (pubkey : string) : AdminTokenPair :=
  match create_admin_token_pair (admin_session_manager_new "k") 0 9 pubkey 7 with
  | Ok p => p | _ => mkAdminTokenPair "" "" "" 0
  end.

Lemma admin_token_planes_witness :
  verify_access (admin_session_manager_new "k") MINUTE (ap_access_token (demo_pair_of "aa")) =
  Ok (mkAdminAccessInfo "aa" (ap_access_jti (demo_pair_of "aa"))).
Proof.
  apply (admin_token_planes "k" 0 9 "aa" 7 (demo_pair_of "aa") MINUTE MINUTE);
    [reflexivity|by vm_compute|by vm_compute].
Defined.

#[export] Instance demo_net98 : Net | 1000 := {
  IpAddr := string;
  IpNetwork := string;
  parse_ip s := Some s;
  ip_to_string s := s;
  net_contains n a := n =? a;
}.
#[export] Instance demo_host_net : HostNet | 1000 := { host_network s := s ++ "/32" }.

Definition demo_admin_state : AdminState :=
  mkAdminState demo_net98 (Some (admin_session_manager_new "k")) "https://a/" None "s" "rt" 5 7 [].

(** The signer's key, pending, and a stored nonce. *)
Definition demo_admin_npub : string := hex_encode demo_key.
Definition demo_admin_db : Db :=
  empty_db <|admin_keys := {[ 1%N := resealed "s" (mkAdminKey 1 demo_admin_npub None "admin" 0
      "admin" None (Some (7 * DAY)%Z) None None "") ]}|>
    <|challenges := {[ "n" := mkChallenge "n" "admin_login" None 0 (120 * SECOND) ]}|>.

Definition demo_admin_proof : string :=
  demo_credential [["u"; "https://a/admin/auth/verify"]; ["method"; "POST"]; ["purpose"; "admin_login"];
    ["challenge"; "n"]; ["payload"; request_payload "POST" "/admin/auth/verify" "" []];
    ["instance_id"; admin_instance_id demo_admin_state]] 0.

Definition demo_admin_login : World * outcome AdminTokenResponse :=
  admin_verify demo_admin_state "1.2.3.4" [] demo_admin_proof "n" (quiet_world demo_admin_db 0).

(** Three microseconds past the deadline the same proof is refused. *)
Example demo_late_login :
  (admin_verify demo_admin_state "1.2.3.4" [] demo_admin_proof "n"
     (quiet_world (demo_admin_db <|admin_keys := {[ 1%N := resealed "s" (mkAdminKey 1 demo_admin_npub
        None "admin" 0 "admin" None (Some (-3)%Z) None None "") ]}|>) 0)).2 = Err admin_auth_fail.
Proof. vm_compute. reflexivity. Qed.

Lemma admin_login_needs_proof_witness :
  is_ok demo_admin_login.2 = true /\
  exists p key, admin_signer_at demo_admin_state demo_admin_proof "n" p 0 /\
    admin_keys demo_admin_db !! 1%N = Some key /\ ak_pubkey key = p /\ ak_revoked_at key = None.
Proof.
  assert (Hok : is_ok demo_admin_login.2 = true) by (vm_compute; reflexivity).
  split; [exact Hok|].
  destruct demo_admin_login.2 as [resp|e|] eqn:E; [|discriminate Hok..].
  assert (Hrun : admin_verify demo_admin_state "1.2.3.4" [] demo_admin_proof "n"
    (quiet_world demo_admin_db 0) = (demo_admin_login.1, Ok resp)).
  { rewrite <- E. unfold demo_admin_login. apply surjective_pairing. }
  destruct (admin_login_needs_proof demo_admin_state idle "1.2.3.4" []
    demo_admin_proof "n" (quiet_world demo_admin_db 0) demo_admin_login.1 resp (sched_ok_nil _) Hrun)
    as (p & t & d0 & d1 & row & k & key & Hsig & ->%steps_idle & _ & _ & _ & ->%steps_idle & Hk & Hp & Hr & _).
  exists p, key. split; [exact Hsig|]. split; [|by split].
  assert (Hone : k = 1%N); [|by rewrite <- Hone].
  assert (Hin : is_Some (admin_keys demo_admin_db !! k)) by (exists key; exact Hk).
  unfold demo_admin_db in Hin. cbn [admin_keys set_field] in Hin.
  destruct Hin as [x Hin]. by apply lookup_singleton_Some in Hin as [<- _].
Defined.

(** Two admins; the first revokes the second, who held a session. *)
Definition demo_admin_row (k : Uuid) (pubkey : string) : AdminKey :=
  resealed "s" (mkAdminKey k pubkey None "admin" 0 "admin" (Some 0%Z) None None None "").
Definition demo_admins : Db :=
  empty_db <|admin_keys := {[ 1%N := demo_admin_row 1 "aa"; 2%N := demo_admin_row 2 "bb" ]}|>
    <|admin_sessions := {[ 7%N := mkAdminSession 7 2 "bb" "h" (ap_access_jti (demo_pair_of "bb"))
        None None 0 (8 * HOUR) None ]}|>.

Definition demo_admin_headers : HeaderMap :=
  [("authorization", "Bearer " ++ ap_access_token (demo_pair_of "bb"))].

Definition demo_out : World * outcome RevokeKeyOutcome :=
  revoke_admin_key_full 2 (demo_entry "admin_key_revoked") "s" true (quiet_world demo_admins 0).

Lemma demo_admins_wf : allowlist_wf "s" demo_admins.
Proof.
  assert (Hrows : forall k x, admin_keys demo_admins !! k = Some x ->
    (k = 1%N /\ x = demo_admin_row 1 "aa") \/ (k = 2%N /\ x = demo_admin_row 2 "bb")).
  { intros k x. change (admin_keys demo_admins) with
      (<[1%N := demo_admin_row 1 "aa"]> {[2%N := demo_admin_row 2 "bb"]} : gmap Uuid AdminKey).
    intros Hk. apply lookup_insert_Some in Hk as [[<- <-]|[_ Hk]]; [by left|].
    apply lookup_singleton_Some in Hk as [<- <-]. by right. }
  split.
  - intros k x [[-> ->]|[-> ->]]%Hrows; (split; [done|apply resealed_sealed]).
  - intros k1 k2 x1 x2 [[-> ->]|[-> ->]]%Hrows [[-> ->]|[-> ->]]%Hrows _ _ Hp;
      first [reflexivity|discriminate Hp].
Qed.

Lemma revoked_admin_locked_out_witness :
  is_ok (admin_guard demo_admin_state demo_admin_headers (quiet_world demo_admins 0)).2 = true /\
  exists x, demo_out.2 = Ok (Revoked x) /\ ak_pubkey x = "bb" /\
    forall w ctx, admin_guard demo_admin_state demo_admin_headers demo_out.1 = (w, Ok ctx) ->
      cx_pubkey ctx <> "bb".
Proof.
  split; [vm_compute; reflexivity|].
  assert (Ho : match demo_out.2 with Ok (Revoked x) => ak_pubkey x =? "bb" | _ => false end = true)
    by (vm_compute; reflexivity).
  destruct demo_out.2 as [[x| |]|e|] eqn:E; [|discriminate Ho..].
  apply String.eqb_eq in Ho. exists x. split; [reflexivity|]. split; [exact Ho|].
  assert (Hrun : revoke_admin_key_full 2 (demo_entry "admin_key_revoked")
    (ad_key_integrity_secret demo_admin_state) true (quiet_world demo_admins 0)
    = (demo_out.1, Ok (Revoked x))).
  { rewrite <- E. unfold demo_out. apply surjective_pairing. }
  assert (Hq : w_sched demo_out.1 = []) by (vm_compute; reflexivity).
  destruct (revoked_admin_locked_out demo_admin_state 2 (demo_entry "admin_key_revoked") true x
    (quiet_world demo_admins 0) demo_out.1 demo_out.1 demo_admins_wf (sched_ok_nil _) Hrun
    (steps_refl _ _) (eq_ind_r _ (sched_ok_nil _) Hq)) as (_ & Hg & _).
  intros w ctx Hgo. rewrite <- Ho. exact (Hg demo_admin_headers w ctx Hgo).
Defined.
