(* ===== verification/Settings.v ===== *)
(** The operator's settings: their store ([src/infra/db/operator_settings.rs]),
    the configuration handlers of [src/api/admin.rs] and the configuration that
    [src/main.rs] boots on.

    The running configuration is a cell that handlers load and swap
    ([ArcSwap]): a handler takes what each of its loads gives, and returns what it
    stores. *)

From Stdlib Require Import ZArith Lia Ascii String.
From stdpp Require Import pretty.
From S2P Require Import Prelude RustStr Json Errors Db Effects TipStatus SocialTips Transactions Pepper AuditChain Auth Config Overlay Nip98 Registration AdminKeys AdminApi.

Local Open Scope string_scope.

(** * Canonical JSON *)

(** [Value::String(s).to_string()], the text of a JSON string, and the message of
    a value that does not read as an overlay: [serde_json]'s. *)
Class JsonText := {
  json_string : string -> string;
  overlay_error : Value -> string;
}.

(** What a text says of its string: it is quoted, so it tells where it ends, and
    control characters are escaped. *)
Class JsonTextLaws (J : JsonText) := {
  json_string_prefix : forall s t a b, json_string s ++ a = json_string t ++ b -> s = t /\ a = b;
  json_string_quoted : forall s, exists t, json_string s = String QUOTE_CHAR t;
  json_string_no_sep : forall s, no_sep (json_string s) = true;
}.

(** The entries in the order of their keys. *)
Fixpoint insert_entry {A} (e : string * A) (es : list (string * A)) : list (string * A) :=
  match es with
  | [] => [e]
  | e' :: es' =>
      match String.compare e.1 e'.1 with
      | Gt => e' :: insert_entry e es'
      | _ => e :: es
      end
  end.
Definition sort_entries {A} (es : list (string * A)) : list (string * A) :=
  foldr insert_entry [] es.

Fixpoint canonical_json `{JsonText} (v : Value) : string :=
  match v with
  | VObject kvs =>
      "{" ++ String.concat ","
        ((fun kt => json_string kt.1 ++ ":" ++ kt.2) <$>
           sort_entries (map (fun kv => (fst kv, canonical_json (snd kv))) kvs)) ++ "}"
  | VArray vs => "[" ++ String.concat "," (map canonical_json vs) ++ "]"
  | VNull => "null"
  | VBool b => if b then "true" else "false"
  | VNumber n => pretty n
  | VFloat text => text
  | VString s => json_string s
  end.

(** * The store *)

Section store.
Context `{Ext} `{Hmac} `{AuditJson} `{JsonText}.

Definition settings_text (section : string) (version : i64) (doc : Value) : string :=
  section ++ unit_sep ++ pretty version ++ unit_sep ++ canonical_json doc.

Definition settings_mac (secret section : string) (version : i64) (doc : Value) : string :=
  peppered_hex secret "operator_settings" (settings_text section version doc).

Definition verify_settings_mac (secret : string) (row : OperatorSettingRow) : bool :=
  ct_eq (settings_mac secret (os_section row) (os_version row) (os_doc row)) (os_integrity_mac row).

Definition setting_rows (d : Db) : list OperatorSettingRow := snd <$> map_to_list (operator_settings d).

(** The rows that verify, as one object. *)
Definition merged_rows (secret : string) (rows : list OperatorSettingRow) : list (string * Value) :=
  foldl (fun o row =>
    if negb (verify_settings_mac secret row) then o else obj_insert (os_section row) (os_doc row) o)
    [] rows.

Definition overlay_of_rows (secret : string) (rows : list OperatorSettingRow) : SettingsOverlay :=
  default empty_overlay (dec c_overlay (VObject (merged_rows secret rows))).

Definition load_settings_overlay (secret : string) : M SettingsOverlay :=
  rows ← query (fun _ d => inr (d, setting_rows d));
  mret (overlay_of_rows secret rows).

Definition stale_section (section : string) (expected found : i64) : AppError :=
  Conflict ("settings section '" ++ section ++ "' changed concurrently (expected v"
    ++ pretty expected ++ ", found v" ++ pretty found ++ "); reload and retry").

Definition sql_upsert_setting (row : OperatorSettingRow) : Stmt unit := fun _ d =>
  inr (d <|operator_settings := <[os_section row := row]> (operator_settings d)|>, tt).

(** [updated_by] references [admin_keys]. *)
Definition sql_check_updated_by (updated_by : option Uuid) : Stmt unit := fun _ d =>
  match updated_by with
  | Some k => if is_none (admin_keys d !! k)
              then inl (PgForeignKeyViolation "operator_settings_updated_by_fkey")
              else inr (d, tt)
  | None => inr (d, tt)
  end.

Definition put_setting_tx (k : Uuid) (section : string) (doc : Value) (updated_by : option Uuid)
    (expected_version : option i64) (audit : NewAdminAudit) (secret : string) : Tx i64 :=
  current ← tx_stmt app_error_from_sqlx
    (fun _ d => inr (d, os_version <$> operator_settings d !! section));
  let cur := default 0%Z (current : option i64) in
  match expected_version with
  | Some exp => if negb (cur =? exp)%Z then tx_fail (stale_section section exp cur) else mret tt
  | None => mret tt
  end;;
  let version := (cur + 1)%Z in
  updated_at ← tx_clock;
  _ ← tx_stmt app_error_from_sqlx (sql_check_updated_by updated_by);
  _ ← tx_stmt app_error_from_sqlx (sql_upsert_setting
        (mkOperatorSettingRow section doc version updated_by updated_at
           (settings_mac secret section version doc)));
  _ ← append_admin_audit k audit secret;
  mret version.

Definition put_setting_audited (section : string) (doc : Value) (updated_by : option Uuid)
    (expected_version : option i64) (audit : NewAdminAudit) (secret : string) : M i64 :=
  k ← gen_random_uuid;
  run_tx (put_setting_tx k section doc updated_by expected_version audit secret).

Definition settings_versions : M (gmap string i64) :=
  query (fun _ d => inr (d, os_version <$> operator_settings d)).
End store.

(** * The handlers *)

(** Merge a patch: the entries of objects, recursively, but for its [null]s. *)
Fixpoint json_merge_skip_null (base patch : Value) {struct patch} : Value :=
  match patch with
  | VObject p =>
      match base with
      | VObject b =>
          VObject ((fix go b p :=
            match p with
            | [] => b
            | (k, pv) :: p =>
                go (if is_null pv then b
                    else obj_insert k (json_merge_skip_null (default VNull (obj_get k b)) pv) b) p
            end) b p)
      | _ => patch
      end
  | _ => patch
  end.

(** [value.as_object()]. *)
Definition as_object (v : Value) : list (string * Value) :=
  match v with VObject kvs => kvs | _ => [] end.

(** The fields of a section that a patch gives. *)
Definition touched (fields : Value) : list string :=
  (base.filter (fun kv => is_null kv.2 = false) (as_object fields)).*1.

Definition changed_sections (patch_obj : list (string * Value)) : list string :=
  (base.filter (fun kv => touched kv.2 <> []) patch_obj).*1.

Definition any_restart (patch_obj : list (string * Value)) : bool :=
  existsb (fun kv => existsb (fun f => bool_decide (runtime_class kv.1 f = RestartRequired))
                       (touched kv.2)) patch_obj.

Section config.
Context `{Urls}.

Definition overlay_restart_pending (config_base : Config) (persisted : SettingsOverlay)
    (running : Config) : bool :=
  match apply_overlay config_base persisted with
  | Ok p => negb (value_eqb (enc c_overlay (editable_overlay p))
                    (enc c_overlay (editable_overlay running)))
  | _ => false
  end.

Record PutConfigResponse := mkPutConfigResponse { pr_applied : string; pr_restart_pending : bool }.

(** What a PUT does besides its transactions: the answer, the configuration it
    stores in the cell, and whether it schedules a restart. *)
Record PutResult := mkPutResult {
  pt_response : PutConfigResponse;
  pt_stored : option Config;
  pt_shutdown : bool;
}.

(** The last part of the handler, on the configuration that runs by then. *)
Definition put_apply (config_base running : Config) (patch merged : SettingsOverlay)
    (restart : bool) : outcome PutResult :=
  if restart then
    Ok (mkPutResult (mkPutConfigResponse "restart-required" true) None
      (bool_decide (co_restart_apply_mode (cf_console running) = Auto)))
  else
    hot ← match apply_overlay running patch with
          | Err e => Err (Internal ("hot-swap re-validate failed: " ++ display e))
          | o => o
          end;
    Ok (mkPutResult (mkPutConfigResponse "runtime" (overlay_restart_pending config_base merged hot))
      (Some hot) false).

(** [{"section": section}]. *)
Definition section_details `{JsonText} (section : string) : string :=
  canonical_json (VObject [("section", VString section)]).
End config.

Record AdminConfigResponse := mkAdminConfigResponse {
  cg_effective : SettingsOverlay;
  cg_overlay : SettingsOverlay;
  cg_versions : gmap string i64;
  cg_runtime_class : list (string * RuntimeClass);
  cg_restart_pending : bool;
}.

Section handlers.
Context `{Ext} `{Hmac} `{AdminJwt} `{MacJson} `{AuditJson} `{JsonText} `{Urls}
  (state : AdminState) (config_base : Config).

(** [load n]: what the [n]-th load of the configuration cell gives. *)
Definition admin_config_get (load : nat -> Config) (h : HeaderMap) : M AdminConfigResponse :=
  _ ← admin_guard state h;
  let secret := dm_key_integrity_secret (cf_admin (load 0)) in
  overlay ← load_settings_overlay secret;
  versions ← settings_versions;
  let running := load 1 in
  mret (mkAdminConfigResponse (editable_overlay running) overlay versions
    ((fun sf : string * string => (sf.1 ++ "." ++ sf.2, runtime_class sf.1 sf.2)) <$> EDITABLE_FIELDS)
    (overlay_restart_pending config_base overlay running)).

Definition put_section (ctx : AdminContext) (secret : string) (merged_obj : list (string * Value))
    (expected : gmap string i64) (section : string) : M unit :=
  let doc := default (VObject []) (obj_get section merged_obj) in
  let audit := mkNewAdminAudit "config_updated" "admin" (Some (pubkey_prefix (cx_pubkey ctx)))
    (Some section) (Some (section_details section)) None in
  _ ← put_setting_audited section doc (Some (cx_admin_key_id ctx)) (expected !! section) audit secret;
  mret tt.

Definition admin_config_put (load : nat -> Config) (h : HeaderMap) (patch : SettingsOverlay)
    (expected : gmap string i64) : M PutResult :=
  ctx ← admin_guard state h;
  let secret := dm_key_integrity_secret (cf_admin (load 0)) in
  let patch_json := enc c_overlay patch in
  persisted ← load_settings_overlay secret;
  let merged_json := json_merge_skip_null (enc c_overlay persisted) patch_json in
  merged ← lift (ok_or (dec c_overlay merged_json)
                   (ValidationError ("bad settings: " ++ overlay_error merged_json)));
  _ ← lift (apply_overlay config_base merged);
  let changed := changed_sections (as_object patch_json) in
  if bool_decide (changed = []) then fail (ValidationError "empty config patch")
  else
    _ ← for_each (put_section ctx secret (as_object merged_json) expected) changed;
    lift (put_apply config_base (load 1) patch merged (any_restart (as_object patch_json))).
End handlers.

(** * The start *)

(** The configuration of [main]: the base, and the effective one over it. *)
Definition boot_config `{Ext} `{Hmac} `{JsonText} `{Urls} (env : Env) : M (Config * Config) :=
  config_base ← lift (from_env env);
  let secret := dm_key_integrity_secret (cf_admin config_base) in
  overlay ← (if is_empty secret then mret empty_overlay else load_settings_overlay secret);
  match apply_overlay config_base overlay with
  | Ok effective => mret (config_base, effective)
  | Err _ => mret (config_base, config_base)
  | Panic => lift Panic
  end.
