(* ===== verification/SettingsSafety.v ===== *)
(** What the operator's settings promise: a patch merges field by field, an edit
    that is live leaves alone what was built at the start, a stale edit is refused,
    and whatever the database holds the server starts on a sound configuration. *)

From Stdlib Require Import ZArith Lia Ascii String.
From stdpp Require Import pretty.
From S2P Require Import Prelude RustStr Json Errors Db Effects TipStatus SocialTips Transactions Pepper AuditChain Demo Auth Config Overlay Nip98 RelayPolicy Pow ConfigSafety OverlaySafety Registration AdminKeys AdminSafety AdminApi AdminApiSafety Settings.

Local Open Scope string_scope.

(** * Merging *)

(** The merge of two objects, entry by entry. *)
Definition merge_step (b : list (string * Value)) (kv : string * Value) : list (string * Value) :=
  if is_null kv.2 then b
  else obj_insert kv.1 (json_merge_skip_null (default VNull (obj_get kv.1 b)) kv.2) b.
Definition merge_entries (b p : list (string * Value)) : list (string * Value) := foldl merge_step b p.

Lemma merge_objects b p :
  json_merge_skip_null (VObject b) (VObject p) = VObject (merge_entries b p).
Proof.
  cbn [json_merge_skip_null]. f_equal. revert b.
  induction p as [|[k v] p IH]; intros b; [done|]. cbn. unfold merge_entries, merge_step at 2. simpl.
  destruct (is_null v); apply IH.
Qed.

Lemma merge_get k b p :
  NoDup p.*1 ->
  obj_get k (merge_entries b p) =
  match obj_get k p with
  | Some v => if is_null v then obj_get k b
              else Some (json_merge_skip_null (default VNull (obj_get k b)) v)
  | None => obj_get k b
  end.
Proof.
  revert b. induction p as [|[k' v] p IH]; intros b; [done|].
  rewrite fmap_cons. intros [Hk Hnd]%NoDup_cons. simpl in Hk.
  change (merge_entries b ((k', v) :: p)) with (merge_entries (merge_step b (k', v)) p).
  rewrite IH by done. cbn [obj_get].
  assert (Hnone : obj_get k' p = None).
  { clear -Hk. induction p as [|[k v] p IH]; [done|]. rewrite fmap_cons in Hk.
    apply not_elem_of_cons in Hk as [Hne Hk]. cbn [obj_get].
    destruct (String.eqb_spec k' k) as [->|]; [done|auto]. }
  unfold merge_step. cbn [fst snd]. destruct (String.eqb_spec k k') as [->|Hne].
  - rewrite Hnone. destruct (is_null v); [done|]. by rewrite obj_get_insert, String.eqb_refl.
  - destruct (is_null v); [done|]. rewrite obj_get_insert.
    by apply String.eqb_neq in Hne as ->.
Qed.

(** A given field wins over the one there was. *)
Definition combine {A} (op : A -> A -> A) (o o' : option A) : option A :=
  match o, o' with
  | Some a, Some b => Some (op a b)
  | o, None => o
  | None, o' => o'
  end.
Definition newer {A} (_ b : A) : A := b.
Abbreviation given := (combine newer).

(** How a codec's values merge. *)
Definition merges {A} (c : Codec A) (op : A -> A -> A) (o o' : option A) : Prop :=
  forall a b, o = Some a -> o' = Some b ->
    dec (c_option c) (json_merge_skip_null (enc c a) (enc c b)) = Some (Some (op a b)).

Definition not_object (v : Value) : bool := match v with VObject _ => false | _ => true end.

Lemma merge_scalar base v : not_object v = true -> json_merge_skip_null base v = v.
Proof. by destruct v. Qed.

Lemma merges_scalar {A} (c : Codec A) o o' :
  (forall a, not_object (enc c a) = true) -> option_reads_back c o' -> merges c newer o o'.
Proof.
  intros Hs Hb a b -> ->. rewrite merge_scalar by done. apply (dec_option c (Some b)). done.
Qed.

Lemma field_merge {A} (c : Codec A) op name es es' o o' :
  NoDup es.*1 -> NoDup es'.*1 ->
  (name, enc (c_option c) o) ∈ es -> (name, enc (c_option c) o') ∈ es' ->
  option_reads_back c o -> option_reads_back c o' -> merges c op o o' ->
  field c name (merge_entries (object_of [] es) (object_of [] es')) = Some (combine op o o').
Proof.
  intros Hnd Hnd' Hin Hin' Hb Hb' Hm. unfold field.
  assert (Hget : forall fs x, NoDup fs.*1 -> (name, enc (c_option c) x) ∈ fs ->
            obj_get name (object_of [] fs) = Some (enc (c_option c) x)).
  { intros fs x Hf Hx. rewrite obj_get_object.
    assert (Hp : rev fs ≡ₚ fs) by (symmetry; apply Permutation_rev).
    rewrite (obj_get_elem name (enc (c_option c) x)); [done|by rewrite Hp..]. }
  rewrite merge_get, (Hget es o), (Hget es' o') by
    (done || (rewrite object_of_perm by (by rewrite app_nil_r); by rewrite app_nil_r)).
  destruct o' as [b|].
  - destruct (Hb' b eq_refl) as [_ Hn]. cbn [enc c_option] in *. rewrite Hn. destruct o as [a|]; simpl.
    + by apply Hm.
    + assert (Hv : json_merge_skip_null VNull (enc c b) = enc c b) by (by destruct (enc c b)).
      rewrite Hv. by apply (dec_option c (Some b)).
  - cbn [enc c_option is_null]. destruct o as [a|]; [|done]. by apply (dec_option c (Some a)).
Qed.

(** Read each field of two merged structs. *)
Ltac merge_fields :=
  repeat match goal with
  | |- context [field ?c ?n (merge_entries (object_of [] ?es) (object_of [] ?es'))] =>
      let H := fresh in
      eassert (H : field c n (merge_entries (object_of [] es) (object_of [] es')) = Some _);
        [eapply field_merge;
          [apply (bool_decide_unpack _); vm_compute; exact I
          |apply (bool_decide_unpack _); vm_compute; exact I
          |find_entry|find_entry|auto with codec|auto with codec
          |first [eassumption|apply merges_scalar; [done|auto with codec]]]
        |rewrite H; clear H]
  end; reflexivity.

Definition over_landing (a b : LandingOverlay) : LandingOverlay :=
  mkLandingOverlay (given (lo_enabled a) (lo_enabled b)) (given (lo_title a) (lo_title b))
    (given (lo_expose_version a) (lo_expose_version b))
    (given (lo_expose_chains a) (lo_expose_chains b))
    (given (lo_expose_price_feed a) (lo_expose_price_feed b))
    (given (lo_expose_uptime a) (lo_expose_uptime b))
    (given (lo_stats_enabled a) (lo_stats_enabled b))
    (given (lo_stats_cache_hours a) (lo_stats_cache_hours b))
    (given (lo_stats_min_users a) (lo_stats_min_users b)).

Definition over_retention (a b : RetentionOverlay) : RetentionOverlay :=
  mkRetentionOverlay (given (ro_login_events_days a) (ro_login_events_days b))
    (given (ro_audit_days a) (ro_audit_days b))
    (given (ro_erasure_enabled a) (ro_erasure_enabled b))
    (given (ro_purge_login_events a) (ro_purge_login_events b))
    (given (ro_export_per_day a) (ro_export_per_day b))
    (given (ro_grace_period_hours a) (ro_grace_period_hours b)).

Definition over_restore (a b : RestoreOverlay) : RestoreOverlay :=
  mkRestoreOverlay (given (so_policy a) (so_policy b))
    (given (so_max_depth_days a) (so_max_depth_days b))
    (given (so_pow_free_days a) (so_pow_free_days b))
    (given (so_pow_days_per_bit a) (so_pow_days_per_bit b))
    (given (so_pow_max_bits a) (so_pow_max_bits b)).

Definition over_console (a b : ConsoleOverlay) : ConsoleOverlay :=
  mkConsoleOverlay (given (no_restart_apply_mode a) (no_restart_apply_mode b)).

Definition over_registration (a b : RegistrationOverlay) : RegistrationOverlay :=
  mkRegistrationOverlay (given (go_require_invite a) (go_require_invite b))
    (given (go_gate_mode a) (go_gate_mode b))
    (given (go_require_payment a) (go_require_payment b))
    (given (go_payment_amount a) (go_payment_amount b))
    (given (go_payment_currency a) (go_payment_currency b))
    (given (go_payment_confirmations a) (go_payment_confirmations b))
    (given (go_payment_expires_minutes a) (go_payment_expires_minutes b)).

Definition over_pow (a b : PowOverlay) : PowOverlay :=
  mkPowOverlay (given (po_enabled a) (po_enabled b)) (given (po_required a) (po_required b))
    (given (po_cost a) (po_cost b)).

Definition over_features (a b : FeaturesOverlay) : FeaturesOverlay :=
  mkFeaturesOverlay (given (fo_prices a) (fo_prices b))
    (given (fo_prices_provider a) (fo_prices_provider b))
    (given (fo_prices_interval_secs a) (fo_prices_interval_secs b))
    (given (fo_prices_currency a) (fo_prices_currency b)) (given (fo_tips a) (fo_tips b))
    (given (fo_nostr_identity a) (fo_nostr_identity b))
    (given (fo_grin_relay a) (fo_grin_relay b)) (given (fo_chain_btc a) (fo_chain_btc b))
    (given (fo_chain_ltc a) (fo_chain_ltc b)) (given (fo_chain_xmr a) (fo_chain_xmr b))
    (given (fo_chain_wow a) (fo_chain_wow b)) (given (fo_chain_grin a) (fo_chain_grin b)).

Definition over_relay (a b : RelayOverlay) : RelayOverlay :=
  mkRelayOverlay (given (yo_enabled a) (yo_enabled b)) (given (yo_mode a) (yo_mode b))
    (given (yo_advertised_url a) (yo_advertised_url b))
    (given (yo_write_policy a) (yo_write_policy b))
    (given (yo_inbound_pow_bits a) (yo_inbound_pow_bits b))
    (given (yo_max_event_bytes a) (yo_max_event_bytes b))
    (given (yo_retention_days a) (yo_retention_days b)).

Definition over_premium (a b : PremiumOverlay) : PremiumOverlay :=
  mkPremiumOverlay (given (mo_enabled a) (mo_enabled b)) (given (mo_currency a) (mo_currency b)).

(** The specification of a merge: the patch's fields where it has them. *)
Definition patched (a b : SettingsOverlay) : SettingsOverlay :=
  mkSettingsOverlay (combine over_landing (ov_landing a) (ov_landing b))
    (combine over_retention (ov_retention a) (ov_retention b))
    (combine over_restore (ov_restore a) (ov_restore b))
    (combine over_console (ov_console a) (ov_console b))
    (combine over_registration (ov_registration a) (ov_registration b))
    (combine over_pow (ov_pow a) (ov_pow b))
    (combine over_features (ov_features a) (ov_features b))
    (combine over_relay (ov_relay a) (ov_relay b))
    (combine over_premium (ov_premium a) (ov_premium b)).

Lemma struct_merge {A} names entries (read : _ -> option A) a b r :
  read (merge_entries (object_of [] (entries a)) (object_of [] (entries b))) = Some r ->
  dec (c_struct names entries read)
    (json_merge_skip_null (enc (c_struct names entries read) a) (enc (c_struct names entries read) b))
  = Some r.
Proof.
  intros Hr. cbn [enc dec c_struct]. unfold to_object. rewrite merge_objects.
  unfold struct_of. simpl. by rewrite <- Hr.
Qed.

Lemma merges_struct {A} names entries (read : _ -> option A) op o o' :
  (forall a b, o = Some a -> o' = Some b ->
     read (merge_entries (object_of [] (entries a)) (object_of [] (entries b))) = Some (op a b)) ->
  merges (c_struct names entries read) op o o'.
Proof.
  intros Hr a b Ha Hb. specialize (Hr a b Ha Hb).
  pose proof (struct_merge names entries read a b _ Hr) as Hm.
  cbn [enc c_struct] in *. unfold to_object in *. rewrite merge_objects in *.
  cbn [dec c_option]. by rewrite Hm.
Qed.

(** The sections of two well-typed overlays merge field by field. *)
Record sections_merge (p q : SettingsOverlay) : Prop := {
  sm_landing : merges c_landing over_landing (ov_landing p) (ov_landing q);
  sm_retention : merges c_retention over_retention (ov_retention p) (ov_retention q);
  sm_restore : merges c_restore over_restore (ov_restore p) (ov_restore q);
  sm_console : merges c_console over_console (ov_console p) (ov_console q);
  sm_registration :
    merges c_registration over_registration (ov_registration p) (ov_registration q);
  sm_pow : merges c_pow over_pow (ov_pow p) (ov_pow q);
  sm_features : merges c_features over_features (ov_features p) (ov_features q);
  sm_relay : merges c_relay over_relay (ov_relay p) (ov_relay q);
  sm_premium : merges c_premium over_premium (ov_premium p) (ov_premium q);
}.

Lemma typed_merge p q : overlay_typed p -> overlay_typed q -> sections_merge p q.
Proof.
  intros [Hl Hr Hs Hg Hw Hf Hy] [Hl' Hr' Hs' Hg' Hw' Hf' Hy'].
  split; apply merges_struct; intros a b Ha Hb.
  - destruct (Hl a Ha), (Hl' b Hb). destruct a, b. unfold landing_read. merge_fields.
  - destruct (Hr a Ha) as (?&?&?&?), (Hr' b Hb) as (?&?&?&?).
    destruct a, b. unfold retention_read. merge_fields.
  - destruct (Hs a Ha) as (?&?&?&?), (Hs' b Hb) as (?&?&?&?).
    destruct a, b. unfold restore_read. merge_fields.
  - destruct a, b. unfold console_read. merge_fields.
  - destruct (Hg a Ha), (Hg' b Hb). destruct a, b. unfold registration_read. merge_fields.
  - pose proof (Hw a Ha). pose proof (Hw' b Hb). destruct a, b. unfold pow_read. merge_fields.
  - pose proof (Hf a Ha). pose proof (Hf' b Hb). destruct a, b. unfold features_read. merge_fields.
  - destruct (Hy a Ha) as (?&?&?), (Hy' b Hb) as (?&?&?).
    destruct a, b. unfold relay_read. merge_fields.
  - destruct a, b. unfold premium_read. merge_fields.
Qed.

(** The merge of two overlays, through JSON, is the patched overlay. *)
Lemma patched_back p q :
  overlay_typed p -> overlay_typed q ->
  dec c_overlay (json_merge_skip_null (enc c_overlay p) (enc c_overlay q)) = Some (patched p q).
Proof.
  intros Hp Hq. pose proof (typed_merge p q Hp Hq) as [].
  pose proof (sections_back p Hp) as (?&?&?&?&?&?&?&?&?).
  pose proof (sections_back q Hq) as (?&?&?&?&?&?&?&?&?). clear Hp Hq.
  apply struct_merge. destruct p as [a b c d e f g h i], q as [a1 b1 c1 d1 e1 f1 g1 h1 i1].
  cbn [ov_landing ov_retention ov_restore ov_console ov_registration ov_pow ov_features ov_relay
    ov_premium] in *.
  unfold overlay_read. merge_fields.
Qed.

(** * What is read is typed *)

Lemma field_int_typed lo hi name kvs o :
  field (c_int lo hi) name kvs = Some o -> forall n, o = Some n -> (lo <= n <= hi)%Z.
Proof.
  unfold field. destruct (obj_get name kvs) as [v|]; [|by intros [= <-]].
  destruct v; cbn [dec c_option c_int]; try done; [by intros [= <-]|].
  unfold in_range. intros Hd n' ->.
  destruct ((lo <=? n)%Z && (n <=? hi)%Z) eqn:E; [|done]. injection Hd as <-.
  apply andb_true_iff in E as [?%Z.leb_le ?%Z.leb_le]. done.
Qed.

Lemma field_within bits name kvs o :
  field (c_int 0 (2 ^ bits - 1)) name kvs = Some o -> opt_within bits o.
Proof. intros Hf n Hn. exact (field_int_typed _ _ _ _ _ Hf n Hn). Qed.
Lemma field_i64 name kvs o : field c_i64 name kvs = Some o -> opt_i64 o.
Proof. intros Hf n Hn. exact (field_int_typed _ _ _ _ _ Hf n Hn). Qed.

(** The fields of a struct that was read. *)
Ltac fields_read H :=
  repeat match type of H with
  | mbind _ _ = Some _ =>
      let a := fresh "a" in let E := fresh "E" in apply bind_Some in H as (a & E & H)
  end.

Lemma section_read {A} names entries (read : _ -> option A) P name kvs o :
  (forall kvs a, read kvs = Some a -> P a) ->
  field (c_struct names entries read) name kvs = Some o -> typed_section P o.
Proof.
  intros HP. unfold field. destruct (obj_get name kvs) as [v|]; [|by intros [= <-]].
  intros Hd a ->. assert (Hs : struct_of names read v = Some a).
  { destruct v; cbn [dec c_option c_struct] in Hd; try done;
      apply fmap_Some in Hd as (b & -> & [= ->]); done. }
  unfold struct_of in Hs. apply bind_Some in Hs as (es & _ & Hr). by eapply HP.
Qed.

Lemma overlay_read_typed v ov : dec c_overlay v = Some ov -> overlay_typed ov.
Proof.
  unfold c_overlay. cbn [dec c_struct]. unfold struct_of. intros Hd.
  apply bind_Some in Hd as (kvs & _ & Hd). unfold overlay_read in Hd. fields_read Hd.
  injection Hd as <-.
  split; cbn [ov_landing ov_retention ov_restore ov_registration ov_pow ov_features ov_relay];
    (eapply section_read; [|eassumption]); clear; intros kvs s Hr.
  - unfold landing_read in Hr. fields_read Hr. injection Hr as <-.
    split; [by eapply (field_within 64)|by eapply field_i64].
  - unfold retention_read in Hr. fields_read Hr. injection Hr as <-.
    split_and!; [by eapply (field_within 64)..|by eapply (field_within 32)|by eapply (field_within 64)].
  - unfold restore_read in Hr. fields_read Hr. injection Hr as <-.
    split_and!; by eapply (field_within 32).
  - unfold registration_read in Hr. fields_read Hr. injection Hr as <-.
    split; by eapply (field_within 32).
  - unfold pow_read in Hr. fields_read Hr. injection Hr as <-. by eapply (field_within 64).
  - unfold features_read in Hr. fields_read Hr. injection Hr as <-. by eapply (field_within 64).
  - unfold relay_read in Hr. fields_read Hr. injection Hr as <-.
    split_and!; [by eapply (field_within 8)|by eapply (field_within 64)|by eapply (field_within 32)].
Qed.

(** * Patching in steps *)

Lemma over_given {A B} (f : A -> B) o o' x : over (given o o') f x = over o' f (over o f x).
Proof. by destruct o, o'. Qed.

Lemma put_given {A} (o o' : option A) x : put (given o o') x = put o' (put o x).
Proof. apply over_given. Qed.

Lemma parse_given {A B} (f : A -> outcome B) o o' x y :
  parse_over o f x = Ok y -> parse_over (given o o') f x = parse_over o' f y.
Proof. destruct o, o'; simpl; unfold newer; congruence. Qed.

(** A field that is written as [null] is not given. *)
Lemma null_entry {A} (c : Codec A) name o :
  (forall a, is_null (enc c a) = false) -> is_null (entry c name o).2 = true -> o = None.
Proof. intros Hc. destruct o; simpl; [by rewrite Hc|done]. Qed.

(** A section whose patch gives no field. *)
Definition blank (entries : list (string * Value)) : Prop := Forall (fun kv => is_null kv.2 = true) entries.

Ltac blank_fields H :=
  unfold blank in H;
  repeat (apply Forall_cons in H as [?Hn H]); clear H;
  repeat match goal with
  | Hn : is_null (entry _ _ _).2 = true |- _ => apply null_entry in Hn; [|done]
  end; simpl in *; subst.

Section patching.
Local Arguments put : simpl never.
Local Arguments over : simpl never.

Lemma landing_steps a b x : apply_landing (over_landing a b) x = apply_landing b (apply_landing a x).
Proof. unfold apply_landing. simpl. by rewrite !put_given, over_given. Qed.
Lemma retention_steps a b x :
  apply_retention (over_retention a b) x = apply_retention b (apply_retention a x).
Proof. unfold apply_retention. simpl. by rewrite !put_given. Qed.
Lemma restore_steps a b x y :
  apply_restore a x = Ok y -> apply_restore (over_restore a b) x = apply_restore b y.
Proof.
  unfold apply_restore. simpl. intros (p & Hp & [= <-])%bind_Ok.
  rewrite (parse_given _ _ _ _ _ Hp). simpl. by rewrite !put_given.
Qed.
Lemma console_steps a b x y :
  apply_console a x = Ok y -> apply_console (over_console a b) x = apply_console b y.
Proof.
  unfold apply_console. simpl. intros (p & Hp & [= <-])%bind_Ok.
  by rewrite (parse_given _ _ _ _ _ Hp).
Qed.
Lemma registration_steps a b x y :
  apply_registration a x = Ok y ->
  apply_registration (over_registration a b) x = apply_registration b y.
Proof.
  unfold apply_registration. simpl. intros (p & Hp & [= <-])%bind_Ok.
  rewrite (parse_given _ _ _ _ _ Hp). simpl. by rewrite !put_given, over_given.
Qed.
Lemma pow_steps a b x : apply_pow (over_pow a b) x = apply_pow b (apply_pow a x).
Proof. unfold apply_pow. simpl. by rewrite !put_given. Qed.
Lemma features_steps a b x :
  apply_features (over_features a b) x = apply_features b (apply_features a x).
Proof. unfold apply_features. simpl. by rewrite !put_given, !over_given. Qed.
Lemma relay_steps a b x : apply_relay (over_relay a b) x = apply_relay b (apply_relay a x).
Proof. unfold apply_relay. simpl. by rewrite !put_given, !over_given. Qed.
Lemma premium_steps a b x : apply_premium (over_premium a b) x = apply_premium b (apply_premium a x).
Proof. unfold apply_premium. simpl. by rewrite !put_given, over_given. Qed.

Lemma landing_blank b x : blank (landing_entries b) -> apply_landing b x = x.
Proof. intros Hb. destruct b, x. unfold landing_entries in Hb. blank_fields Hb. done. Qed.
Lemma retention_blank b x : blank (retention_entries b) -> apply_retention b x = x.
Proof. intros Hb. destruct b, x. unfold retention_entries in Hb. blank_fields Hb. done. Qed.
Lemma restore_blank b x : blank (restore_entries b) -> apply_restore b x = Ok x.
Proof. intros Hb. destruct b, x. unfold restore_entries in Hb. blank_fields Hb. done. Qed.
Lemma console_blank b x : blank (console_entries b) -> apply_console b x = Ok x.
Proof. intros Hb. destruct b, x. unfold console_entries in Hb. blank_fields Hb. done. Qed.
Lemma registration_blank b x : blank (registration_entries b) -> apply_registration b x = Ok x.
Proof.
  intros Hb. destruct b, x as [? [] ?]. unfold registration_entries in Hb. blank_fields Hb. done.
Qed.
Lemma pow_blank b x : blank (pow_entries b) -> apply_pow b x = x.
Proof. intros Hb. destruct b, x. unfold pow_entries in Hb. blank_fields Hb. done. Qed.
Lemma features_blank b x : blank (features_entries b) -> apply_features b x = x.
Proof.
  intros Hb. destruct b, x as [[] ? ? ? ? ? ? ? ? ?]. unfold features_entries in Hb.
  blank_fields Hb. done.
Qed.
Lemma relay_blank b x : blank (relay_entries b) -> apply_relay b x = x.
Proof. intros Hb. destruct b, x. unfold relay_entries in Hb. blank_fields Hb. done. Qed.
Lemma premium_blank b x : blank (premium_entries b) -> apply_premium b x = x.
Proof. intros Hb. destruct b, x. unfold premium_entries in Hb. blank_fields Hb. done. Qed.
End patching.

(** A section [p] edited with [q]: their merge, or [p] itself when [q] gives nothing. *)
Definition edited {A} (op : A -> A -> A) (entries : A -> list (string * Value)) (p q r : option A) : Prop :=
  r = combine op p q \/ r = p /\ forall b, q = Some b -> blank (entries b).

Lemma section_edited {A B} op entries (f : A -> B -> B) p q r x :
  (forall a b x, f (op a b) x = f b (f a x)) -> (forall b x, blank (entries b) -> f b x = x) ->
  edited op entries p q r -> section r f x = section q f (section p f x).
Proof.
  intros Hs Hb [->|[-> Hq]].
  - destruct p, q; simpl; auto.
  - destruct q as [b|]; [|done]. simpl. symmetry. by apply Hb, Hq.
Qed.

Lemma section_try_edited {A B} op entries (f : A -> B -> outcome B) p q r x y :
  (forall a b x y, f a x = Ok y -> f (op a b) x = f b y) ->
  (forall b x, blank (entries b) -> f b x = Ok x) ->
  edited op entries p q r -> section_try p f x = Ok y -> section_try r f x = section_try q f y.
Proof.
  intros Hs Hb [->|[-> Hq]].
  - destruct p, q; simpl; auto; congruence.
  - destruct q as [b|]; simpl; [|done]. rewrite (Hb b) by auto. done.
Qed.

Record overlay_edited (p q r : SettingsOverlay) : Prop := {
  ed_landing : edited over_landing landing_entries (ov_landing p) (ov_landing q) (ov_landing r);
  ed_retention :
    edited over_retention retention_entries (ov_retention p) (ov_retention q) (ov_retention r);
  ed_restore : edited over_restore restore_entries (ov_restore p) (ov_restore q) (ov_restore r);
  ed_console : edited over_console console_entries (ov_console p) (ov_console q) (ov_console r);
  ed_registration : edited over_registration registration_entries (ov_registration p)
    (ov_registration q) (ov_registration r);
  ed_pow : edited over_pow pow_entries (ov_pow p) (ov_pow q) (ov_pow r);
  ed_features : edited over_features features_entries (ov_features p) (ov_features q) (ov_features r);
  ed_relay : edited over_relay relay_entries (ov_relay p) (ov_relay q) (ov_relay r);
  ed_premium : edited over_premium premium_entries (ov_premium p) (ov_premium q) (ov_premium r);
}.

Lemma patched_edited p q : overlay_edited p q (patched p q).
Proof. split; by left. Qed.

Section effects.
Context `{Urls}.

(** Editing an overlay and then applying it is applying it and then the edit. *)
Lemma merge_edited c c1 p q r :
  overlay_edited p q r -> merge_overlay c p = Ok c1 -> merge_overlay c r = merge_overlay c1 q.
Proof.
  intros [Hl Hr Hs Hc Hg Hw Hf Hy Hp] Hm. unfold merge_overlay in *. read_out Hm.
  cbn [cf_landing cf_retention cf_restore cf_registration cf_pow cf_features cf_messaging ms_relay
    cf_premium cf_server_host cf_server_port cf_deployment_mode cf_environment cf_database_url
    cf_legacy_database_url cf_tip_share_base cf_auth cf_identity cf_secrets cf_trusted_proxies
    cf_rate_limit cf_cors_allowed_origins cf_chains cf_admin cf_feed cf_console
    ms_nip05_interop_hints ms_nip05_extra_relay_hints].
  rewrite (section_try_edited _ _ _ _ _ _ _ _ restore_steps restore_blank Hs E),
    (section_try_edited _ _ _ _ _ _ _ _ console_steps console_blank Hc E0),
    (section_try_edited _ _ _ _ _ _ _ _ registration_steps registration_blank Hg E1),
    (section_edited _ _ _ _ _ _ (cf_features c) features_steps features_blank Hf),
    (section_edited _ _ _ _ _ _ (cf_pow c) pow_steps pow_blank Hw),
    (section_edited _ _ _ _ _ _ (cf_landing c) landing_steps landing_blank Hl),
    (section_edited _ _ _ _ _ _ (cf_retention c) retention_steps retention_blank Hr),
    (section_edited _ _ _ _ _ _ (ms_relay (cf_messaging c)) relay_steps relay_blank Hy),
    (section_edited _ _ _ _ _ _ (cf_premium c) premium_steps premium_blank Hp).
  done.
Qed.

Lemma apply_edited c c1 p q r :
  overlay_edited p q r -> apply_overlay c p = Ok c1 -> apply_overlay c r = apply_overlay c1 q.
Proof.
  intros He [Hm _]%apply_overlay_Ok. unfold apply_overlay. by rewrite (merge_edited _ _ _ _ _ He Hm).
Qed.
End effects.

(** * What a patch touches *)

Lemma overlay_entries_nodup ov : NoDup (overlay_entries ov).*1.
Proof. apply (bool_decide_unpack _). by vm_compute. Qed.

Lemma overlay_object ov kv :
  kv ∈ as_object (enc c_overlay ov) <-> kv ∈ overlay_entries ov.
Proof.
  cbn [enc c_overlay c_struct]. unfold to_object, as_object.
  change (kv ∈ object_of [] (overlay_entries ov) <-> kv ∈ overlay_entries ov).
  rewrite object_of_perm; rewrite app_nil_r; [done|apply overlay_entries_nodup].
Qed.

Lemma filter_nil {A} (P : A -> Prop) `{!forall x, base.Decision (P x)} xs x :
  base.filter P xs = [] -> x ∈ xs -> ~ P x.
Proof. intros Hf Hx HP. apply (not_elem_of_nil x). rewrite <- Hf. by apply list_elem_of_filter. Qed.

Lemma touched_elem entries f v :
  NoDup entries.*1 -> (f, v) ∈ entries -> is_null v = false -> f ∈ touched (to_object entries).
Proof.
  intros Hnd Hin Hv. unfold touched, to_object, as_object.
  change (f ∈ (base.filter (fun kv => is_null kv.2 = false) (object_of [] entries)).*1).
  apply list_elem_of_fmap. exists (f, v). split; [done|]. apply list_elem_of_filter. split; [done|].
  rewrite object_of_perm; by rewrite app_nil_r.
Qed.

(** The sections of a patch that give no field are not among the changed ones. *)
Lemma unchanged_blank {A} names entries (read : _ -> option A) q name o b :
  NoDup (entries b).*1 ->
  (name, enc (c_option (c_struct names entries read)) o) ∈ overlay_entries q ->
  name ∉ changed_sections (as_object (enc c_overlay q)) -> o = Some b -> blank (entries b).
Proof.
  intros Hnd Hin%overlay_object Hch ->. cbn [enc c_option c_struct] in Hin.
  apply Forall_forall. intros [f v] Hf. destruct (is_null v) eqn:Hv; [done|]. exfalso. apply Hch.
  unfold changed_sections. apply list_elem_of_fmap. eexists (name, _). split; [done|].
  apply list_elem_of_filter. split; [|exact Hin]. intros Ht.
  eapply (not_elem_of_nil f). rewrite <- Ht. by eapply touched_elem.
Qed.

(** A patch without a restart touches no field that needs one. *)
Lemma no_restart_null {A} names entries (read : _ -> option A) q name o b f v :
  NoDup (entries b).*1 ->
  (name, enc (c_option (c_struct names entries read)) o) ∈ overlay_entries q ->
  any_restart (as_object (enc c_overlay q)) = false -> o = Some b ->
  (f, v) ∈ entries b -> runtime_class name f = RestartRequired -> is_null v = true.
Proof.
  intros Hnd Hin%overlay_object Hr -> Hf Hc. destruct (is_null v) eqn:Hv; [done|].
  exfalso. apply not_true_iff_false in Hr. apply Hr. unfold any_restart. apply existsb_exists.
  eexists (name, _). split; [apply list_elem_of_In; exact Hin|]. apply existsb_exists. exists f.
  split; [|by apply bool_decide_eq_true]. apply list_elem_of_In. by eapply touched_elem.
Qed.

Ltac nodup_names := apply (bool_decide_unpack _); vm_compute; exact I.

Lemma no_restart_blank {A} names entries (read : _ -> option A) q name o b :
  NoDup (entries b).*1 -> (forall f, runtime_class name f = RestartRequired) ->
  (name, enc (c_option (c_struct names entries read)) o) ∈ overlay_entries q ->
  any_restart (as_object (enc c_overlay q)) = false -> o = Some b -> blank (entries b).
Proof.
  intros Hnd Hc Hin Hr Ho. apply Forall_forall. intros [f v] Hf. by eapply no_restart_null.
Qed.

Section live.
Context `{Urls}.

(** What the server reads once, when it starts. *)
Definition boot_state (c : Config) : FeatureFlags * RelayConfig * PremiumConfig * bool * bool :=
  (cf_features c, ms_relay (cf_messaging c), cf_premium c, rt_erasure_enabled (cf_retention c),
   pc_require_payment (rg_payment (cf_registration c))).

Lemma live_boot_state c q c' :
  any_restart (as_object (enc c_overlay q)) = false -> apply_overlay c q = Ok c' ->
  boot_state c' = boot_state c.
Proof.
  intros Hr [Hm _]%apply_overlay_Ok. unfold merge_overlay in Hm. read_out Hm.
  unfold boot_state.
  cbn [cf_features cf_messaging ms_relay cf_premium cf_retention cf_registration].
  refine (f_equal2 pair (f_equal2 pair (f_equal2 pair (f_equal2 pair _ _) _) _) _).
  - destruct (ov_features q) as [b|] eqn:Eo; [|done]. apply features_blank.
    eapply (no_restart_blank features_names _ features_read q "features");
      [nodup_names|done| |done|exact Eo]. unfold overlay_entries, entry. find_entry.
  - destruct (ov_relay q) as [b|] eqn:Eo; [|done]. apply relay_blank.
    eapply (no_restart_blank relay_names _ relay_read q "relay");
      [nodup_names|done| |done|exact Eo]. unfold overlay_entries, entry. find_entry.
  - destruct (ov_premium q) as [b|] eqn:Eo; [|done]. apply premium_blank.
    eapply (no_restart_blank premium_names _ premium_read q "premium");
      [nodup_names|done| |done|exact Eo]. unfold overlay_entries, entry. find_entry.
  - destruct (ov_retention q) as [b|] eqn:Eo; [|done]. simpl.
    assert (Hn : is_null (entry c_bool "erasure_enabled" (ro_erasure_enabled b)).2 = true).
    { eapply (no_restart_null retention_names retention_entries retention_read q "retention" _ b "erasure_enabled");
        [nodup_names| |done|exact Eo| |by vm_compute];
        unfold overlay_entries, retention_entries, entry; find_entry. }
    by rewrite (null_entry c_bool _ _ (fun _ => eq_refl) Hn).
  - destruct (ov_registration q) as [b|] eqn:Eo; simpl in *; [|by simplify_eq].
    unfold apply_registration in *. read_out E1. simpl.
    assert (Hn : is_null (entry c_bool "require_payment" (go_require_payment b)).2 = true).
    { eapply (no_restart_null registration_names registration_entries registration_read q "registration" _ b "require_payment");
        [nodup_names| |done|exact Eo| |by vm_compute];
        unfold overlay_entries, registration_entries, entry; find_entry. }
    by rewrite (null_entry c_bool _ _ (fun _ => eq_refl) Hn).
Qed.
End live.

(** * The rows *)

Section rows.
Context `{Ext} `{Hmac} `{JsonText} (secret : string).

(** Each row is at its own section. *)
Definition keyed (d : Db) : Prop :=
  forall s row, operator_settings d !! s = Some row -> os_section row = s.

Lemma merged_rows_object rows :
  merged_rows secret rows =
  object_of [] ((fun row => (os_section row, os_doc row)) <$>
    base.filter (fun row => verify_settings_mac secret row = true) rows).
Proof.
  unfold merged_rows, object_of. generalize (@nil (string * Value)).
  induction rows as [|row rows IH]; intros o; [done|]. cbn [foldl]. rewrite IH, filter_cons.
  case_decide as Hv; [by rewrite Hv|].
  by apply not_true_iff_false in Hv as ->.
Qed.

Lemma obj_get_notin k kvs : k ∉ kvs.*1 -> obj_get k kvs = None.
Proof.
  induction kvs as [|[k' v] kvs IH]; [done|]. rewrite fmap_cons. cbn [obj_get].
  intros [Hne Hk]%not_elem_of_cons. destruct (String.eqb_spec k k') as [->|]; [done|auto].
Qed.

Lemma setting_rows_sections d : keyed d -> NoDup (os_section <$> setting_rows d).
Proof.
  intros Hk. unfold setting_rows. rewrite <- list_fmap_compose.
  assert (Heq : (os_section ∘ snd) <$> map_to_list (operator_settings d)
    = (map_to_list (operator_settings d)).*1).
  { apply list_fmap_ext. intros i [s row] Hl. simpl. apply Hk.
    apply elem_of_map_to_list. by eapply list_elem_of_lookup_2. }
  rewrite Heq. apply NoDup_fst_map_to_list.
Qed.

Lemma setting_rows_elem d row :
  row ∈ setting_rows d <-> exists s, operator_settings d !! s = Some row.
Proof.
  unfold setting_rows. rewrite list_elem_of_fmap. split.
  - intros ([s row'] & -> & Hin). exists s. by apply elem_of_map_to_list.
  - intros [s Hs]. exists (s, row). split; [done|]. by apply elem_of_map_to_list.
Qed.

(** What a section's row holds, if it verifies. *)
Definition verified_doc (d : Db) (s : string) : option Value :=
  row ← operator_settings d !! s;
  if verify_settings_mac secret row then Some (os_doc row) else None.

Lemma obj_get_merged d s :
  keyed d -> obj_get s (merged_rows secret (setting_rows d)) = verified_doc d s.
Proof.
  intros Hk. rewrite merged_rows_object, obj_get_object.
  set (vs := base.filter _ _). set (f := fun row => (os_section row, os_doc row)).
  assert (Hsub : (f <$> vs).*1 = os_section <$> vs) by (by rewrite <- list_fmap_compose).
  assert (Hnd : NoDup (f <$> vs).*1).
  { rewrite Hsub. unfold vs. pose proof (setting_rows_sections d Hk) as Hn. revert Hn.
    generalize (setting_rows d). intros rows. induction rows as [|row rows IH]; [done|].
    rewrite fmap_cons, filter_cons. intros [Hx Hn]%NoDup_cons.
    case_decide; [|auto]. rewrite fmap_cons. apply NoDup_cons. split; [|auto].
    intros (r' & Hr & [_ Hin]%list_elem_of_filter)%list_elem_of_fmap. apply Hx.
    apply list_elem_of_fmap. eauto. }
  assert (Hp : rev (f <$> vs) ≡ₚ f <$> vs) by (symmetry; apply Permutation_rev).
  unfold verified_doc. destruct (operator_settings d !! s) as [row|] eqn:Es; simpl.
  - destruct (verify_settings_mac secret row) eqn:Ev.
    + rewrite (obj_get_elem s (os_doc row)); [done|by rewrite Hp|]. rewrite Hp.
      apply list_elem_of_fmap. exists row. split; [unfold f; by rewrite (Hk s row)|].
      apply list_elem_of_filter. split; [done|]. apply setting_rows_elem. eauto.
    + rewrite obj_get_notin; [done|]. rewrite Hp, Hsub.
      intros (r' & Hr & [Hv [s' Hs']%setting_rows_elem]%list_elem_of_filter)%list_elem_of_fmap.
      pose proof (Hk s' r' Hs'). congruence.
  - rewrite obj_get_notin; [done|]. rewrite Hp, Hsub.
    intros (r' & Hr & [Hv [s' Hs']%setting_rows_elem]%list_elem_of_filter)%list_elem_of_fmap.
    pose proof (Hk s' r' Hs'). congruence.
Qed.

(** Reading an overlay is reading its sections. *)
Lemma dec_object kvs : dec c_overlay (VObject kvs) = overlay_read kvs.
Proof. done. Qed.

Lemma overlay_read_ext kvs kvs' :
  (forall s, s ∈ overlay_names -> obj_get s kvs = obj_get s kvs') ->
  overlay_read kvs = overlay_read kvs'.
Proof.
  intros He. unfold overlay_read, field.
  rewrite (He "landing"), (He "retention"), (He "restore"), (He "console"), (He "registration"),
    (He "pow"), (He "features"), (He "relay"), (He "premium");
    [done|unfold overlay_names; find_entry..].
Qed.
End rows.

(** * One edit *)

(** The steps of the others that leave the settings alone. *)
Definition still : Rel := fun _ d d' => operator_settings d' = operator_settings d.

Lemma steps_still d d' : steps still d d' -> operator_settings d' = operator_settings d.
Proof. induction 1 as [|d1 d2 d3 [t Ht] _ IH]; [done|]. by rewrite IH. Qed.

Lemma stable_still S : stable still (fun d => operator_settings d = S).
Proof. intros t d d' Hs <-. exact Hs. Qed.

Section edits.
Context `{Ext} `{Hmac} `{AuditJson} `{JsonText}.

(** The row an edit writes. *)
Definition edit_row (secret s : string) (doc : Value) (version : i64) (u : option Uuid) (at_ : Time)
  : OperatorSettingRow :=
  mkOperatorSettingRow s doc version u at_ (settings_mac secret s version doc).

Definition version_of (d : Db) (s : string) : i64 := default 0%Z (os_version <$> operator_settings d !! s).

Lemma put_setting_tx_inr k s doc u exp audit secret c now d d' v :
  put_setting_tx k s doc u exp audit secret c now d = inr (d', v) ->
  v = (version_of d s + 1)%Z /\ (forall e, exp = Some e -> version_of d s = e) /\
  operator_settings d' = <[s := edit_row secret s doc v u c]> (operator_settings d).
Proof.
  unfold put_setting_tx. rewrite bind_tx_inr. intros (d1 & cur & Hc & Ht).
  apply tx_stmt_inr in Hc. injection Hc as <- <-. cbv zeta in Ht. fold (version_of d s) in Ht.
  assert (Hexp : forall e, exp = Some e -> version_of d s = e).
  { intros e ->. cbv iota in Ht. destruct (version_of d s =? e)%Z eqn:Ee; [by apply Z.eqb_eq|].
    discriminate Ht. }
  destruct exp as [e|]; [cbv iota in Ht; rewrite <- (Hexp e eq_refl), Z.eqb_refl in Ht|];
    unfold mbind, Tx_bind, mret, Tx_ret, tx_clock, tx_stmt, sql_check_updated_by, sql_upsert_setting,
      append_admin_audit in Ht; cbn in Ht;
    (destruct u as [u|]; [destruct (is_none (admin_keys d !! u)); [discriminate Ht|]|]);
    injection Ht as <- <-; (split; [done|split; done]).
Qed.

Lemma edit_row_verifies secret s doc v u c :
  verify_settings_mac secret (edit_row secret s doc v u c) = true.
Proof. apply String.eqb_refl. Qed.

(** An edit that answered: what it wrote, when the others leave the settings alone. *)
Lemma put_section_Ok ctx secret obj exp s w w' :
  sched_ok still (w_sched w) -> put_section ctx secret obj exp s w = (w', Ok tt) ->
  sched_ok still (w_sched w') /\
  exists v c, operator_settings (w_db w') =
    <[s := edit_row secret s (default (VObject []) (obj_get s obj)) v (Some (cx_admin_key_id ctx)) c]>
      (operator_settings (w_db w)).
Proof.
  intros Hok. unfold put_section. rewrite bind_run_Ok. intros (w1 & v & Hp & [= <-]).
  unfold put_setting_audited in Hp. apply bind_run_Ok in Hp as (w2 & k & [= <- <-] & Ht).
  split; [eapply run_tx_sched; [|exact Ht]; done|].
  eapply (run_tx_Ok still) in Ht as (now & d & Hs%steps_still & Ht); [|done]. simpl in Hs.
  apply put_setting_tx_inr in Ht as (_ & _ & ->). rewrite Hs. eauto.
Qed.

Lemma put_sections_Ok ctx secret obj exp ss w w' :
  sched_ok still (w_sched w) -> for_each (put_section ctx secret obj exp) ss w = (w', Ok tt) ->
  forall s, ((s ∉ ss) /\ operator_settings (w_db w') !! s = operator_settings (w_db w) !! s) \/
    ((s ∈ ss) /\ exists v u c, operator_settings (w_db w') !! s =
       Some (edit_row secret s (default (VObject []) (obj_get s obj)) v u c)).
Proof.
  revert w. induction ss as [|s0 ss IH]; intros w Hok; cbn [for_each].
  { intros [= <-] s. left. split; [apply not_elem_of_nil|done]. }
  rewrite bind_run_Ok. intros (w1 & [] & Hp & Hr) s.
  apply put_section_Ok in Hp as [Hok1 (v & c & Hs1)]; [|done].
  destruct (IH w1 Hok1 Hr s) as [[Hni ->]|[Hin Hrow]].
  - rewrite Hs1. destruct (decide (s = s0)) as [->|Hne].
    + right. split; [apply list_elem_of_here|]. rewrite lookup_insert_eq. eauto.
    + left. split; [by apply not_elem_of_cons|by rewrite lookup_insert_ne].
  - right. split; [by apply list_elem_of_further|done].
Qed.

Lemma put_sections_keyed ctx secret obj exp ss w w' :
  sched_ok still (w_sched w) -> keyed (w_db w) ->
  for_each (put_section ctx secret obj exp) ss w = (w', Ok tt) -> keyed (w_db w').
Proof.
  intros Hok Hk Hr s row Hs.
  destruct (put_sections_Ok ctx secret obj exp ss w w' Hok Hr s) as [[_ Heq]|[_ (v & u & c & Heq)]].
  - rewrite Heq in Hs. by apply Hk.
  - rewrite Heq in Hs. by injection Hs as <-.
Qed.
End edits.

(** * Reading an edit back *)

Section reload.
Context `{Ext} `{Hmac} `{JsonText} (secret : string).

Abbreviation rows d := (merged_rows secret (setting_rows d)).

(** The merge of two overlays, and a section of it. *)
Lemma merged_object p q :
  json_merge_skip_null (enc c_overlay p) (enc c_overlay q) =
  VObject (merge_entries (object_of [] (overlay_entries p)) (object_of [] (overlay_entries q))).
Proof. cbn [enc c_overlay c_struct]. unfold to_object. apply merge_objects. Qed.

(** The edit of [d] that leaves [d']: the changed sections as merged, the others as
    they were. *)
Definition edit_of (p q : SettingsOverlay) (d d' : Db) : Prop := forall s,
  ((s ∉ changed_sections (as_object (enc c_overlay q))) /\
     operator_settings d' !! s = operator_settings d !! s) \/
  ((s ∈ changed_sections (as_object (enc c_overlay q))) /\
     exists v u c, operator_settings d' !! s =
       Some (edit_row secret s (default (VObject []) (obj_get s
         (as_object (json_merge_skip_null (enc c_overlay p) (enc c_overlay q))))) v u c)).

Lemma reload_section {A} names entries (read : _ -> option A) op s p q d d' o o' :
  edit_of p q d d' -> keyed d -> keyed d' -> (forall b, NoDup (entries b).*1) ->
  (s, enc (c_option (c_struct names entries read)) o) ∈ overlay_entries p ->
  (s, enc (c_option (c_struct names entries read)) o') ∈ overlay_entries q ->
  option_reads_back (c_struct names entries read) o ->
  option_reads_back (c_struct names entries read) o' ->
  merges (c_struct names entries read) op o o' ->
  field (c_struct names entries read) s (rows d) = Some o ->
  exists r, field (c_struct names entries read) s (rows d') = Some r /\ edited op entries o o' r.
Proof.
  intros He Hk Hk' Hnd Hin Hin' Hb Hb' Hm Hf.
  destruct (He s) as [[Hch Hs]|[Hch (v & u & c & Hs)]].
  - exists o. split.
    + rewrite <- Hf. unfold field. rewrite !obj_get_merged by done. unfold verified_doc. by rewrite Hs.
    + right. split; [done|]. intros b Hb2. by eapply unchanged_blank.
  - exists (combine op o o'). split; [|by left].
    rewrite <- (field_merge (c_struct names entries read) op s (overlay_entries p) (overlay_entries q) o o')
      by (done || apply overlay_entries_nodup).
    unfold field. rewrite (obj_get_merged secret d') by done. unfold verified_doc. rewrite Hs.
    change (Some ?a ≫= ?k) with (k a). cbv beta. rewrite edit_row_verifies. cbn [edit_row os_doc].
    rewrite merged_object. cbn [as_object].
    assert (Hget : is_Some (obj_get s (merge_entries (object_of [] (overlay_entries p))
                              (object_of [] (overlay_entries q))))).
    { assert (Hg : forall ov x, (s, x) ∈ overlay_entries ov ->
                obj_get s (object_of [] (overlay_entries ov)) = Some x).
      { intros ov x Hx. apply obj_get_elem.
        - rewrite object_of_perm; rewrite app_nil_r; apply overlay_entries_nodup.
        - rewrite object_of_perm; rewrite app_nil_r; [done|apply overlay_entries_nodup]. }
      rewrite merge_get, (Hg q _ Hin'), (Hg p _ Hin).
      - by destruct (is_null _).
      - rewrite object_of_perm; rewrite app_nil_r; apply overlay_entries_nodup. }
    by destruct Hget as [x ->].
Qed.

(** A section that is read back, from the edit and what the rows held. *)
Ltac reload He Hk Hk' :=
  eapply reload_section;
    [exact He|exact Hk|exact Hk'|intros ?; nodup_names
    |unfold overlay_entries, entry; find_entry|unfold overlay_entries, entry; find_entry
    |eassumption|eassumption|eassumption|eassumption].

Lemma reload_edited p q d d' :
  edit_of p q d d' -> keyed d -> keyed d' -> overlay_typed q ->
  dec c_overlay (VObject (rows d)) = Some p ->
  exists r, dec c_overlay (VObject (rows d')) = Some r /\ overlay_edited p q r.
Proof.
  intros He Hk Hk' Hq Hd. pose proof (overlay_read_typed _ _ Hd) as Hp.
  pose proof (typed_merge p q Hp Hq) as [].
  pose proof (sections_back p Hp) as (?&?&?&?&?&?&?&?&?).
  pose proof (sections_back q Hq) as (?&?&?&?&?&?&?&?&?).
  rewrite dec_object in Hd |- *. unfold overlay_read in Hd. fields_read Hd. injection Hd as <-.
  cbn [ov_landing ov_retention ov_restore ov_console ov_registration ov_pow ov_features ov_relay
    ov_premium] in *.
  assert (exists r, field c_landing "landing" (rows d') = Some r /\
    edited over_landing landing_entries a (ov_landing q) r) as (r1 & Hr1 & He1) by reload He Hk Hk'.
  assert (exists r, field c_retention "retention" (rows d') = Some r /\
    edited over_retention retention_entries a0 (ov_retention q) r) as (r2 & Hr2 & He2)
    by reload He Hk Hk'.
  assert (exists r, field c_restore "restore" (rows d') = Some r /\
    edited over_restore restore_entries a1 (ov_restore q) r) as (r3 & Hr3 & He3) by reload He Hk Hk'.
  assert (exists r, field c_console "console" (rows d') = Some r /\
    edited over_console console_entries a2 (ov_console q) r) as (r4 & Hr4 & He4) by reload He Hk Hk'.
  assert (exists r, field c_registration "registration" (rows d') = Some r /\
    edited over_registration registration_entries a3 (ov_registration q) r) as (r5 & Hr5 & He5)
    by reload He Hk Hk'.
  assert (exists r, field c_pow "pow" (rows d') = Some r /\
    edited over_pow pow_entries a4 (ov_pow q) r) as (r6 & Hr6 & He6) by reload He Hk Hk'.
  assert (exists r, field c_features "features" (rows d') = Some r /\
    edited over_features features_entries a5 (ov_features q) r) as (r7 & Hr7 & He7)
    by reload He Hk Hk'.
  assert (exists r, field c_relay "relay" (rows d') = Some r /\
    edited over_relay relay_entries a6 (ov_relay q) r) as (r8 & Hr8 & He8) by reload He Hk Hk'.
  assert (exists r, field c_premium "premium" (rows d') = Some r /\
    edited over_premium premium_entries a7 (ov_premium q) r) as (r9 & Hr9 & He9)
    by reload He Hk Hk'.
  exists (mkSettingsOverlay r1 r2 r3 r4 r5 r6 r7 r8 r9). split; [|by split].
  unfold overlay_read. by rewrite Hr1, Hr2, Hr3, Hr4, Hr5, Hr6, Hr7, Hr8, Hr9.
Qed.
End reload.

(** * The edit and the next start *)

Section programs.
Context `{Ext} `{Hmac} `{AdminJwt} `{MacJson} `{AuditJson} `{JsonText} `{Urls}.

Lemma guard_still state S h :
  triple (fun _ => True) still (fun d => operator_settings d = S) (admin_guard state h) (fun _ => True).
Proof.
  assert (Hq : forall T (s : Stmt T), (forall t d d' r, s t d = inr (d', r) -> d' = d) ->
    triple (fun _ => True) still (fun d => operator_settings d = S) (query s) (fun _ => True)).
  { intros T s Hs. apply triple_read; [apply stable_still|]. intros t d d' r _ E. split; [by eapply Hs|done]. }
  unfold admin_guard, activated_key, get_active_admin_key, find_active_admin_session_by_jti.
  repeat lazymatch goal with
  | |- triple _ _ _ (mbind _ _) _ => apply (triple_bind _ _ _ _ _ (fun _ => True)); [|intros ? _]
  | |- triple _ _ _ (lift _) _ => by apply triple_lift
  | |- triple _ _ _ (mret _) _ => by apply triple_ret
  | |- triple _ _ _ utc_now _ => apply triple_utc_now
  | |- triple _ _ _ (query _) _ => apply Hq; by intros ???? [= <- _]
  end.
Qed.

(** What a load gives, when the others leave the settings alone. *)
Lemma load_still secret w w' ov :
  sched_ok still (w_sched w) -> load_settings_overlay secret w = (w', Ok ov) ->
  sched_ok still (w_sched w') /\ operator_settings (w_db w') = operator_settings (w_db w) /\
  ov = overlay_of_rows secret (setting_rows (w_db w)).
Proof.
  intros Hok. unfold load_settings_overlay. rewrite bind_run_Ok.
  intros (w1 & rs & Hr & [= <- <-]).
  eapply (run_stmt_Ok still) in Hr as (d & Hs%steps_still & [= <- <-] & Hok1 & _); [|done].
  split; [done|]. split; [done|]. unfold setting_rows. by rewrite Hs.
Qed.

Lemma stored_typed secret d : overlay_typed (overlay_of_rows secret (setting_rows d)).
Proof.
  unfold overlay_of_rows. destruct (dec c_overlay _) as [p|] eqn:Ed; simpl.
  - by eapply overlay_read_typed.
  - by split.
Qed.

(** A PUT that answered: what it validated, what it wrote and what it then applied. *)
Lemma put_inv state base load h q exp w w' r p :
  admin_config_put state base load h q exp w = (w', Ok r) ->
  sched_ok still (w_sched w) -> keyed (w_db w) -> overlay_typed q ->
  overlay_of_rows (dm_key_integrity_secret (cf_admin (load 0))) (setting_rows (w_db w)) = p ->
  (exists c, apply_overlay base (patched p q) = Ok c) /\
  edit_of (dm_key_integrity_secret (cf_admin (load 0))) p q (w_db w) (w_db w') /\ keyed (w_db w') /\
  put_apply base (load 1) q (patched p q) (any_restart (as_object (enc c_overlay q))) = Ok r.
Proof.
  intros Hput Hok Hk Hq Hp. unfold admin_config_put in Hput.
  apply bind_run_Ok in Hput as (w1 & ctx & Hg & Hput).
  pose proof (guard_still state (operator_settings (w_db w)) h w I Hok eq_refl) as Ht.
  rewrite Hg in Ht. destruct Ht as (_ & Hok1 & Hs1 & _).
  apply bind_run_Ok in Hput as (w2 & p' & Hl & Hput).
  apply load_still in Hl as (Hok2 & Hs2 & ->); [|done].
  assert (Hrows : setting_rows (w_db w1) = setting_rows (w_db w)) by (unfold setting_rows; by rewrite Hs1).
  rewrite Hrows, Hp in Hput. rewrite patched_back in Hput by (by rewrite <- ?Hp; auto using stored_typed).
  cbn [ok_or] in Hput. apply bind_run_Ok in Hput as (w3 & m & [= <- <-] & Hput).
  apply bind_run_Ok in Hput as (w3 & c' & Ha & Hput).
  assert (w3 = w2 /\ apply_overlay base (patched p q) = Ok c') as [-> Ha'] by (by injection Ha).
  split; [by exists c'|]. destruct (bool_decide _); [done|].
  apply bind_run_Ok in Hput as (w4 & [] & Hf & Hput). injection Hput as <- Hput.
  assert (Hk2 : keyed (w_db w2)) by (intros s row; rewrite Hs2, Hs1; apply Hk).
  split; [|split; [exact (put_sections_keyed _ _ _ _ _ _ _ Hok2 Hk2 Hf)|exact Hput]].
  intros s. pose proof (put_sections_Ok _ _ _ _ _ _ _ Hok2 Hf s) as Hs.
  by rewrite Hs2, Hs1 in Hs.
Qed.

(** The overlay of the next start. *)
Lemma boot_inv env w w' x :
  boot_config env w = (w', Ok x) -> sched_ok still (w_sched w) ->
  exists base, from_env env = Ok base /\ operator_settings (w_db w') = operator_settings (w_db w) /\
  exists ov, ov = (if is_empty (dm_key_integrity_secret (cf_admin base)) then empty_overlay
                   else overlay_of_rows (dm_key_integrity_secret (cf_admin base))
                          (setting_rows (w_db w))) /\
  (x = (base, base) /\ (forall c, apply_overlay base ov <> Ok c) \/
   exists c, apply_overlay base ov = Ok c /\ x = (base, c)).
Proof.
  intros Hb Hok. unfold boot_config in Hb. apply bind_run_Ok in Hb as (w1 & base & He & Hb).
  injection He as <- He. exists base. split; [done|]. cbv zeta in Hb.
  apply bind_run_Ok in Hb as (w2 & ov & Hl & Hb).
  assert (Hdone : w_db w' = w_db w2 /\
    (x = (base, base) /\ (forall c, apply_overlay base ov <> Ok c) \/
     exists c, apply_overlay base ov = Ok c /\ x = (base, c))).
  { destruct (apply_overlay base ov) as [c|e|] eqn:Ea; [| |done]; injection Hb as <- <-;
      (split; [done|]); [right|left]; eauto. }
  destruct Hdone as [-> Hx]. destruct (is_empty _).
  - injection Hl as <- <-. eauto.
  - apply load_still in Hl as (_ & -> & ->); eauto.
Qed.

Lemma apply_empty base : validate base = Ok tt -> apply_overlay base empty_overlay = Ok base.
Proof.
  intros Hv. unfold apply_overlay, merge_overlay. simpl.
  assert (Hb : mkConfig (cf_server_host base) (cf_server_port base) (cf_deployment_mode base)
    (cf_environment base) (cf_database_url base) (cf_legacy_database_url base)
    (cf_tip_share_base base) (cf_auth base) (cf_identity base) (cf_secrets base)
    (cf_trusted_proxies base) (cf_rate_limit base) (cf_cors_allowed_origins base)
    (cf_features base) (cf_chains base) (cf_pow base) (cf_admin base) (cf_landing base)
    (cf_retention base) (cf_restore base) (cf_registration base)
    (mkMessagingConfig (ms_relay (cf_messaging base)) (ms_nip05_interop_hints (cf_messaging base))
       (ms_nip05_extra_relay_hints (cf_messaging base))) (cf_premium base) (cf_feed base)
    (cf_console base) = base).
  { destruct base as [? ? ? ? ? ? ? ? ? ? ? ? ? ? ? ? ? ? ? ? ? [] ? ? ?]. done. }
  rewrite Hb, Hv. done.
Qed.

Lemma bind_settles {A B} (m : outcome A) (k : A -> outcome B) :
  m <> Panic -> (forall a, k a <> Panic) -> (m ≫= k) <> Panic.
Proof. destruct m; simpl; auto. Qed.

Lemma apply_settles c ov : apply_overlay c ov <> Panic.
Proof.
  assert (Hv : forall c, validate c <> Panic).
  { intros c'. by destruct (validate_decides c') as [[? ->]|[? ->]]. }
  unfold apply_overlay, merge_overlay, section_try, over, apply_restore, apply_console,
    apply_registration, parse_over, restore_policy_of, restart_apply_mode_of, gate_mode_of.
  repeat first
    [ apply Hv | done
    | match goal with
      | |- (_ ≫= _) <> Panic => apply bind_settles; [|intros ?]
      | |- context [match ?x with _ => _ end] => destruct x
      end ].
Qed.

Lemma from_env_settles env : from_env env <> Panic.
Proof. by destruct (from_env_decides env) as [[? ->]|[? ->]]. Qed.

(** With nothing stored that verifies, there is nothing to apply. *)
Lemma none_verified secret d :
  keyed d -> (forall s, verified_doc secret d s = None) ->
  overlay_of_rows secret (setting_rows d) = empty_overlay.
Proof.
  intros Hk Hn. unfold overlay_of_rows. rewrite dec_object.
  rewrite (overlay_read_ext _ []); [done|]. intros s _. by rewrite obj_get_merged.
Qed.
End programs.

(** ** Versions *)

(** The versions of the sections only grow. *)
Definition grows : Rel := fun _ d d' => forall s, (version_of d s <= version_of d' s)%Z.

Lemma steps_grow d d' s : steps grows d d' -> (version_of d s <= version_of d' s)%Z.
Proof. induction 1 as [|d1 d2 d3 [t Ht] _ IH]; [done|]. specialize (Ht s). lia. Qed.

Lemma insert_version d d' s row s' :
  operator_settings d' = <[s := row]> (operator_settings d) ->
  version_of d' s' = if decide (s = s') then os_version row else version_of d s'.
Proof.
  intros Hd. unfold version_of. rewrite Hd. case_decide as Hs.
  - subst s'. by rewrite lookup_insert_eq.
  - by rewrite lookup_insert_ne.
Qed.

Section versions.
Context `{Ext} `{Hmac} `{AuditJson} `{JsonText}.

Lemma put_setting_tx_grows k s doc u exp audit secret c now d d' v :
  put_setting_tx k s doc u exp audit secret c now d = inr (d', v) -> grows now d d'.
Proof.
  intros (-> & _ & Hd)%put_setting_tx_inr s'. rewrite (insert_version _ _ _ _ s' Hd).
  case_decide; [subst; simpl; lia|lia].
Qed.

Lemma put_setting_Ok R s doc u exp audit secret w w' v :
  sched_ok R (w_sched w) -> put_setting_audited s doc u exp audit secret w = (w', Ok v) ->
  exists d c, steps R (w_db w) d /\ v = (version_of d s + 1)%Z /\
    (forall e, exp = Some e -> version_of d s = e) /\
    operator_settings (w_db w') = <[s := edit_row secret s doc v u c]> (operator_settings d).
Proof.
  intros Hok. unfold put_setting_audited. rewrite bind_run_Ok. intros (w1 & k & [= <- <-] & Ht).
  eapply (run_tx_Ok R) in Ht as (now & d & Hs & Ht); [|done].
  apply put_setting_tx_inr in Ht as (Hv & He & Hd). eauto 10.
Qed.
End versions.

(** * Theorems *)

(** C30: with nothing pending and nobody else writing, an edit that is saved is not
    lost, and one that is applied live is the one saved.  The premises: the server runs
    on exactly its base and the stored settings (no earlier edit still waits for a
    restart), and nobody else writes the settings while the PUT runs.  Then a PUT that
    answers leaves rows from which every later start on the same environment gives the
    configuration it validated, the running one with the patch applied.  A patch without
    a restart is that configuration from now on, nothing is then pending, and what the
    server reads only at the start (features, relay, premium, the erasure and payment
    switches) is unchanged; any other patch leaves the running configuration alone.
    With an edit pending the PUT validates another configuration than the running
    one, and may persist an edit and then answer an error. *)
Theorem settings_edit_durable
  `{Ext} `{Hmac} `{AdminJwt} `{MacJson} `{AuditJson} `{JsonText} `{Urls}
  (state : AdminState) (env : Env) (base running : Config) (h : HeaderMap)
  (p patch : SettingsOverlay) (expected : gmap string i64) (w w' : World) (r : PutResult)
  (Henv : from_env env = Ok base) (Hadmin : dm_enabled (cf_admin base) = true)
  (Hpatch : overlay_typed patch) (Hsched : sched_ok still (w_sched w)) (Hkeyed : keyed (w_db w))
  (Hstored : dec c_overlay (VObject (merged_rows (dm_key_integrity_secret (cf_admin base))
               (setting_rows (w_db w)))) = Some p)
  (Hrunning : apply_overlay base p = Ok running)
  (Hput : admin_config_put state base (fun _ => running) h patch expected w = (w', Ok r)) :
  exists c, apply_overlay running patch = Ok c /\ effective c /\
    (if any_restart (as_object (enc c_overlay patch))
     then pt_stored r = None /\ pr_restart_pending (pt_response r) = true
     else pt_stored r = Some c /\ pr_restart_pending (pt_response r) = false /\
          boot_state c = boot_state running) /\
    (forall w2 w3 x, operator_settings (w_db w2) = operator_settings (w_db w') ->
       sched_ok still (w_sched w2) -> boot_config env w2 = (w3, Ok x) -> x = (base, c)).
Proof.
  pose proof (loaded_effective env base Henv) as (Hbok & Hbn & Hbt).
  pose proof (overlay_read_typed _ _ Hstored) as Hp.
  destruct (apply_effective base p running Hp Hbn Hbt Hrunning) as (_ & Hrn & Hrt).
  assert (Hsec : cf_admin running = cf_admin base).
  { exact (f_equal cf_admin (apply_veil _ _ _ Hrunning)). }
  eapply (put_inv _ _ _ _ _ _ _ _ _ p) in Hput as ((c & Ha) & He & Hk' & Hput); [|done..|].
  2: { unfold overlay_of_rows. by rewrite Hsec, Hstored. }
  rewrite (apply_edited _ _ _ _ _ (patched_edited p patch) Hrunning) in Ha.
  exists c. split; [done|]. split; [exact (apply_effective _ _ _ Hpatch Hrn Hrt Ha)|]. split.
  - unfold put_apply in Hput. destruct (any_restart _) eqn:Er; [by injection Hput as <-|].
    rewrite Ha in Hput. injection Hput as <-. cbn [pt_stored pt_response pr_restart_pending].
    split; [done|]. split; [|by eapply live_boot_state].
    unfold overlay_restart_pending.
    rewrite (apply_edited _ _ _ _ _ (patched_edited p patch) Hrunning), Ha.
    apply negb_false_iff. by apply value_eqb_eq.
  - intros w2 w3 x Hw2 Hok2 Hb. rewrite Hsec in He.
    destruct (reload_edited _ p patch _ _ He Hkeyed Hk' Hpatch Hstored) as (ov & Hov & Hed).
    apply boot_inv in Hb as (b & Hb & _ & ov' & -> & Hx); [|done].
    rewrite Henv in Hb. injection Hb as <-.
    destruct (is_empty _) eqn:Ee.
    { destruct (ok_admin base Hbok Hadmin) as (_ & [Hlen _] & _).
      apply is_empty_true in Ee. rewrite Ee in Hlen. simpl in Hlen. lia. }
    assert (Hr2 : overlay_of_rows (dm_key_integrity_secret (cf_admin base)) (setting_rows (w_db w2)) = ov).
    { unfold overlay_of_rows, setting_rows in *. by rewrite Hw2, Hov. }
    rewrite Hr2, (apply_edited _ _ _ _ _ Hed Hrunning), Ha in Hx.
    destruct Hx as [[_ Hx]|(c' & [= <-] & ->)]; [by destruct (Hx c)|done].
Qed.

(** Whatever the database holds, the server starts on a sound configuration.
    Under every schedule and every content of the settings, starting never panics,
    and what it starts on is a configuration that validates, which differs from the
    one of the environment in the editable fields at most.  With a valid environment
    and a database that answers it does start; and rows that do not verify under the
    secret count for nothing. *)
Theorem boot_sound `{Ext} `{Hmac} `{JsonText} `{Urls} (env : Env) (w : World) :
  (boot_config env w).2 <> Panic /\
  (forall base c, (boot_config env w).2 = Ok (base, c) ->
     from_env env = Ok base /\ effective c /\ veil c = veil base) /\
  (forall base, from_env env = Ok base -> w_sched w = [] ->
     exists c, (boot_config env w).2 = Ok (base, c)) /\
  (forall base c, sched_ok still (w_sched w) -> keyed (w_db w) ->
     (forall s, verified_doc (dm_key_integrity_secret (cf_admin base)) (w_db w) s = None) ->
     (boot_config env w).2 = Ok (base, c) -> c = base).
Proof.
  split_and!.
  - unfold boot_config, mbind, M_bind, lift. pose proof (from_env_settles env).
    destruct (from_env env) as [base|e|]; [|done..]. simpl.
    destruct (is_empty _).
    + simpl. pose proof (apply_settles base empty_overlay).
      by destruct (apply_overlay base empty_overlay).
    + destruct (load_settings_overlay _ w) as [w1 [ov|e|]] eqn:El; [|done|].
      * pose proof (apply_settles base ov). by destruct (apply_overlay base ov).
      * exfalso. revert El. unfold load_settings_overlay, query, mbind, M_bind, run_stmt.
        destruct (next_slot w) as [sl w0]. by destruct (sl_fault sl).
  - intros base c Hb. unfold boot_config in Hb. destruct (boot_config env w) as [w' o] eqn:E.
    unfold boot_config in E. rewrite E in Hb. simpl in Hb. subst o.
    apply bind_run_Ok in E as (w1 & b & [= <- Hb] & E).
    apply bind_run_Ok in E as (w2 & ov & Hl & E).
    assert (Ht : overlay_typed ov).
    { destruct (is_empty _); [injection Hl as _ <-; by split|].
      unfold load_settings_overlay in Hl. apply bind_run_Ok in Hl as (w3 & rs & _ & [= _ <-]).
      unfold overlay_of_rows. destruct (dec c_overlay _) as [q|] eqn:Ed; simpl;
        [by eapply overlay_read_typed|by split]. }
    pose proof (loaded_effective env b Hb) as (Hok & Hn & Hty).
    destruct (apply_overlay b ov) as [c'|e|] eqn:Ea; [| |done]; injection E as _ <- <-.
    + split; [done|]. split; [by eapply apply_effective|by eapply apply_veil].
    + by split; [|split].
  - intros base Hb Hq. unfold boot_config, mbind, M_bind, lift. rewrite Hb. simpl.
    assert (Hl : exists ov, (if is_empty (dm_key_integrity_secret (cf_admin base))
      then mret empty_overlay else load_settings_overlay (dm_key_integrity_secret (cf_admin base))) w
      = (w, Ok ov)).
    { destruct (is_empty _); [by eexists|]. unfold load_settings_overlay, query, mbind, M_bind.
      rewrite run_stmt_quiet by done. eexists. by destruct w. }
    destruct Hl as [ov ->]. pose proof (apply_settles base ov).
    destruct (apply_overlay base ov); [by eexists..|done].
  - intros base c Hok Hk Hn Hb. destruct (boot_config env w) as [w' o] eqn:E. simpl in Hb. subst o.
    apply boot_inv in E as (b & Hb & _ & ov & -> & Hx); [|done].
    assert (Heff : b = base /\ (c = b \/ exists ov, apply_overlay b ov = Ok c /\ ov = empty_overlay)).
    { destruct Hx as [[[= -> ->] _]|(c' & Ha & [= -> <-])]; [by auto|]. split; [done|]. right.
      destruct (is_empty _); [by eauto|]. rewrite none_verified in Ha by done. eauto. }
    destruct Heff as [-> [->|(ov & Ha & ->)]]; [done|].
    apply from_env_Ok in Hb as [_ Hv]. rewrite apply_empty in Ha by done. by injection Ha as <-.
Qed.

(** No edit is lost to another editor.  Whatever the others do, as long as the
    versions of the sections only grow: an edit is itself such a step; one that names
    a version and is accepted wrote its document, sealed, at the next version; and a
    later edit that names the same version writes nothing, and alone it is answered
    with the conflict. *)
Theorem settings_edit_single_use `{Ext} `{Hmac} `{AuditJson} `{JsonText}
  (s secret : string) (v a : i64) (doc doc' : Value) (u u' : option Uuid)
  (audit audit' : NewAdminAudit) (w w1 w2 : World)
  (Hsched : sched_ok grows (w_sched w))
  (Hfirst : put_setting_audited s doc u (Some v) audit secret w = (w1, Ok a))
  (Hsteps : steps grows (w_db w1) (w_db w2)) (Hsched2 : sched_ok grows (w_sched w2)) :
  steps grows (w_db w) (w_db w1) /\ a = (v + 1)%Z /\ version_of (w_db w1) s = a /\
  verified_doc secret (w_db w1) s = Some doc /\
  (forall b, (put_setting_audited s doc' u' (Some v) audit' secret w2).2 <> Ok b) /\
  (w_sched w2 = [] -> exists w3, w_db w3 = w_db w2 /\
     put_setting_audited s doc' u' (Some v) audit' secret w2
     = (w3, Err (stale_section s v (version_of (w_db w2) s)))).
Proof.
  pose proof Hfirst as Hrun. apply (put_setting_Ok grows) in Hrun as (d & c & Hs & Ha & He & Hd); [|done].
  rewrite (He v eq_refl) in Ha. subst a.
  assert (Hv1 : version_of (w_db w1) s = (v + 1)%Z)
    by (rewrite (insert_version _ _ _ _ s Hd); by rewrite decide_True).
  pose proof (steps_grow _ _ s Hsteps) as Hg. rewrite Hv1 in Hg. split_and!; [|done|done| | |].
  - eapply steps_trans; [exact Hs|]. apply (steps_once _ 0%Z). intros s'.
    rewrite (insert_version _ _ _ _ s' Hd), <- (He v eq_refl). case_decide; [subst; simpl; lia|lia].
  - unfold verified_doc. rewrite Hd, lookup_insert_eq. change (Some ?x ≫= ?k) with (k x).
    cbv beta. by rewrite edit_row_verifies.
  - intros b Hb. destruct (put_setting_audited s doc' u' (Some v) audit' secret w2) as [w3 o] eqn:E.
    simpl in Hb. subst o. apply (put_setting_Ok grows) in E as (d' & _ & Hs' & _ & He' & _); [|done].
    pose proof (steps_grow _ _ s Hs'). specialize (He' v eq_refl). lia.
  - intros Hq. eexists. unfold put_setting_audited, gen_random_uuid.
    unfold mbind at 1, M_bind at 1. rewrite run_tx_quiet by done.
    unfold put_setting_tx.
    assert (Hne : (version_of (w_db w2) s =? v)%Z = false) by (apply Z.eqb_neq; lia).
    unfold mbind, Tx_bind, tx_stmt. cbn. fold (version_of (w_db w2) s). rewrite Hne. cbn.
    split; [|reflexivity]. done.
Qed.

(** * A concrete deployment *)

Fixpoint demo_escape (s : string) : string :=
  match s with
  | EmptyString => EmptyString
  | String c s' =>
      if Ascii.eqb c QUOTE_CHAR || Ascii.eqb c BACKSLASH
      then String BACKSLASH (String c (demo_escape s'))
      else String c (demo_escape s')
  end.

#[export] Instance demo_json_text : JsonText | 1000 := {
  json_string s := String QUOTE_CHAR (demo_escape s ++ String QUOTE_CHAR EmptyString);
  overlay_error _ := "invalid type";
}.

Lemma settings_edit_single_use_witness :
  let edit := put_setting_audited "landing" (VObject []) None (Some 0%Z) (demo_entry "config_updated") "s" in
  is_ok (edit (quiet_world empty_db 0)).2 = true /\
  (forall b, (edit (edit (quiet_world empty_db 0)).1).2 <> Ok b).
Proof.
  intros edit.
  assert (Hok : match (edit (quiet_world empty_db 0)).2 with Ok a => (a =? 1)%Z | _ => false end = true)
    by (vm_compute; reflexivity).
  assert (Hq : w_sched (edit (quiet_world empty_db 0)).1 = []) by (vm_compute; reflexivity).
  destruct (edit (quiet_world empty_db 0)) as [w1 [a|e|]] eqn:E; [|discriminate Hok..].
  split; [reflexivity|].
  exact (proj1 (proj2 (proj2 (proj2 (proj2 (settings_edit_single_use "landing" "s" 0 a (VObject []) (VObject [])
    None None (demo_entry "config_updated") (demo_entry "config_updated") (quiet_world empty_db 0) w1 w1
    (sched_ok_nil _) E (steps_refl _ _) (eq_ind_r (sched_ok grows) (sched_ok_nil _) Hq))))))).
Defined.

(** The demonstration, with the console on and its landing page retitled. *)
Definition demo_admin_env : Env :=
  <["ADMIN_ENABLED" := "true"]> (<["ADMIN_JWT_SECRET" := demo_secret]>
    (<["ADMIN_KEY_INTEGRITY_SECRET" := demo_secret]> demo_env)).

Definition demo_patch : SettingsOverlay :=
  mkSettingsOverlay (Some (mkLandingOverlay None (Some "hello") None None None None None None None))
    None None None None None None None None.

Definition demo_put (c : @Config demo_cfg_net) : World * outcome PutResult :=
  admin_config_put demo_admin_state c (fun _ => c) demo_admin_headers demo_patch
    ∅ (quiet_world demo_admins 0).

(** The demonstration answers, live, and nothing interferes. *)
Definition demo_put_live (o : outcome (@Config demo_cfg_net)) : bool :=
  match o with
  | Ok b =>
      dm_enabled (cf_admin b) && is_ok (demo_put b).2 &&
      negb (any_restart (as_object (enc c_overlay demo_patch))) &&
      match w_sched (demo_put b).1 with [] => true | _ => false end
  | _ => false
  end.

Lemma demo_patch_typed : overlay_typed demo_patch.
Proof. split; intros a [= <-]. split; intros n [=]. Qed.

Lemma demo_admins_keyed : keyed demo_admins.
Proof. intros s row Hs. discriminate Hs. Qed.

Lemma settings_edit_durable_witness :
  exists base r c, from_env demo_admin_env = Ok base /\ (demo_put base).2 = Ok r /\
    apply_overlay base demo_patch = Ok c /\ pt_stored r = Some c /\
    pr_restart_pending (pt_response r) = false /\
    forall w x, boot_config demo_admin_env (demo_put base).1 = (w, Ok x) -> x = (base, c).
Proof.
  assert (Hok : demo_put_live (from_env demo_admin_env) = true) by (vm_compute; reflexivity).
  unfold demo_put_live in Hok.
  destruct (from_env demo_admin_env) as [base|e|] eqn:Eb; [|discriminate Hok..].
  apply andb_true_iff in Hok as [Hok Hs]. apply andb_true_iff in Hok as [Hok Hr].
  apply andb_true_iff in Hok as [Hadm Hok]. apply negb_true_iff in Hr.
  destruct (demo_put base).2 as [r|e|] eqn:Ep; [|discriminate Hok..].
  assert (Hrun : demo_put base = ((demo_put base).1, Ok r))
    by (rewrite <- Ep; apply surjective_pairing).
  destruct (settings_edit_durable demo_admin_state demo_admin_env base base demo_admin_headers
    empty_overlay demo_patch ∅ (quiet_world demo_admins 0) (demo_put base).1 r Eb Hadm
    demo_patch_typed (sched_ok_nil _) demo_admins_keyed eq_refl
    (apply_empty base (proj2 (proj1 (from_env_Ok _ _) Eb))) Hrun)
    as (c & Hc & _ & Hres & Hboot).
  rewrite Hr in Hres. destruct Hres as (Hst & Hp & _).
  exists base, r, c. split; [reflexivity|]. split; [exact Ep|]. split; [exact Hc|].
  split; [exact Hst|]. split; [exact Hp|]. intros w x Hb.
  refine (Hboot (demo_put base).1 w x eq_refl _ Hb).
  destruct (w_sched (demo_put base).1); [exact (sched_ok_nil _)|discriminate Hs].
Defined.
