(* ===== verification/Erasure.v ===== *)
(** Self-service erasure: [src/infra/db/erasure.rs] and [src/api/erasure.rs]. *)

From Stdlib Require Import ZArith Lia Ascii String Strings.Byte.
From S2P Require Import Prelude RustStr Errors Db Effects TipStatus SocialTips Transactions Pepper AuditChain Demo Auth TipApi Nip98 Signatures Challenges Events RelayPolicy Registration Users.

Local Open Scope string_scope.

(** * Statements *)

(** [status IN ('pending', 'confirmed')]. *)
Definition live_request (r : ErasureRequest) : bool :=
  (er_state r =? "pending") || (er_state r =? "confirmed").
Definition live_of (u : Uuid) (r : ErasureRequest) : bool :=
  sql_eq (er_user_id r) u && live_request r.

Definition erasure_rows (d : Db) : list ErasureRequest := snd <$> map_to_list (erasure_requests d).

Definition active_request (u : Uuid) (d : Db) : option ErasureRequest :=
  head (base.filter (fun r => live_of u r = true) (erasure_rows d)).

(** The primary key, the foreign key, one live request per user. *)
Definition sql_insert_erasure (k u : Uuid) (subject_hash : string) (scheduled_for : Time)
  : Stmt ErasureRequest := fun now d =>
  if is_some (erasure_requests d !! k) then inl (PgUniqueViolation "erasure_requests_pkey")
  else if is_some (active_request u d) then inl (PgUniqueViolation "erasure_requests_active_user")
  else if negb (is_user d u) then inl (PgForeignKeyViolation "erasure_requests_user_id_fkey")
  else
    let r := mkErasureRequest k (Some u) subject_hash "pending" now scheduled_for None None None in
    inr (d <|erasure_requests := <[k := r]> (erasure_requests d)|>, r).

(** [UPDATE erasure_requests SET .. WHERE id = $1 AND .. RETURNING ..]. *)
Definition update_erasure (k : Uuid) (wh : ErasureRequest -> bool)
    (set_ : Time -> ErasureRequest -> ErasureRequest) : Stmt (option ErasureRequest) := fun now d =>
  match erasure_requests d !! k with
  | Some r => if wh r then inr (d <|erasure_requests := <[k := set_ now r]> (erasure_requests d)|>,
                                Some (set_ now r))
              else inr (d, None)
  | None => inr (d, None)
  end.

Definition confirm_where (u : Uuid) (r : ErasureRequest) : bool :=
  sql_eq (er_user_id r) u && (er_state r =? "pending").
Definition confirm_set (scheduled_for now : Time) (r : ErasureRequest) : ErasureRequest :=
  r <|er_state := "confirmed"|> <|er_confirmed_at := Some now|> <|er_scheduled_for := scheduled_for|>.
Definition cancel_erasure_set (now : Time) (r : ErasureRequest) : ErasureRequest :=
  r <|er_state := "cancelled"|> <|er_cancelled_at := Some now|>.
Definition complete_set (now : Time) (r : ErasureRequest) : ErasureRequest :=
  r <|er_state := "completed"|> <|er_completed_at := Some now|>.
Definition is_confirmed (r : ErasureRequest) : bool := er_state r =? "confirmed".

Definition is_due (now : Time) (r : ErasureRequest) : bool :=
  is_confirmed r && (er_scheduled_for r <=? now)%Z.
Definition sooner (a b : ErasureRequest) : Prop := (er_scheduled_for a <= er_scheduled_for b)%Z.
#[export] Instance sooner_dec a b : base.Decision (sooner a b).
Proof. unfold sooner. apply _. Defined.

(** The lock the [SELECT .. FOR UPDATE] takes ends with the statement. *)
Definition sql_due_erasures (limit : i64) : Stmt (list ErasureRequest) := fun now d =>
  inr (d, take (Z.to_nat limit)
            (merge_sort sooner (base.filter (fun r => is_due now r = true) (erasure_rows d)))).

Definition of_user (u : Uuid) (e : LoginEvent) : bool := sql_eq (le_user_id e) u.

Definition sql_purge_logins (u : Uuid) : Stmt unit := fun _ d =>
  inr (d <|login_events := base.filter (fun kv => of_user u kv.2 = false) (login_events d)|>, tt).
Definition anonymized (e : LoginEvent) : LoginEvent :=
  e <|le_user_id := None|> <|le_origin := None|> <|le_asset := "redacted"|>.
Definition sql_anonymize_logins (u : Uuid) : Stmt unit := fun _ d =>
  inr (d <|login_events := (fun e => if of_user u e then anonymized e else e) <$> login_events d|>, tt).
Definition sql_scrub_audit (u : Uuid) : Stmt unit := fun _ d =>
  inr (d <|audit_logs := (fun a => if sql_eq (au_user_id a) u then a <|au_user_agent := None|> else a)
                         <$> audit_logs d|>, tt).

Section db.
Context `{Ext} `{Hmac} `{AuditJson}.

Definition active_erasure_request (u : Uuid) : M (option ErasureRequest) :=
  query (fun _ d => inr (d, active_request u d)).

(** [Utc::now() + Duration::hours(n)]. *)
Definition grace_end (clock : Time) (grace_hours : i64) : Time := (clock + grace_hours * HOUR)%Z.

(** The insertion, whose unique violation is a value; other errors pass. *)
Definition insert_erasure_stmt (k u : Uuid) (subject_hash : string) (scheduled_for : Time)
  : Stmt (option ErasureRequest) := fun now d =>
  match sql_insert_erasure k u subject_hash scheduled_for now d with
  | inr (d', r) => inr (d', Some r)
  | inl (PgUniqueViolation _) => inr (d, None)
  | inl e => inl e
  end.

Definition db_request_erasure (u : Uuid) (subject_hash : string) (grace_hours : i64)
  : M ErasureRequest :=
  found ← active_erasure_request u;
  match found with
  | Some existing => mret existing
  | None =>
      clock ← utc_now;
      k ← gen_random_uuid;
      inserted ← query (insert_erasure_stmt k u subject_hash (grace_end clock grace_hours));
      match inserted with
      | Some row => mret row
      | None =>
          winner ← active_erasure_request u;
          lift (ok_or winner (Internal "erasure request race"))
      end
  end.

Definition confirm_erasure_request (k u : Uuid) (grace_hours : i64) : M (option ErasureRequest) :=
  clock ← utc_now;
  query (update_erasure k (confirm_where u) (confirm_set (grace_end clock grace_hours))).

Definition cancel_erasure_request (k u : Uuid) : M (option ErasureRequest) :=
  query (update_erasure k (live_of u) cancel_erasure_set).

Definition due_erasure_requests (limit : i64) : M (list ErasureRequest) :=
  query (sql_due_erasures limit).

Definition erasure_audit (action : string) (k : Uuid) : NewAdminAudit :=
  mkNewAdminAudit action "user" None (Some (uuid_to_string k)) None None.

Definition claim_erasure (k : Uuid) : Tx (option Uuid) :=
  claimed ← tx_stmt app_error_from_sqlx (update_erasure k is_confirmed complete_set);
  mret (claimed ≫= er_user_id).

Definition erase_user (a k : Uuid) (purge_login : bool) (secret : string) (u : Uuid) : Tx bool :=
  _ ← tx_stmt app_error_from_sqlx (if purge_login then sql_purge_logins u
                                  else sql_anonymize_logins u);
  _ ← tx_stmt app_error_from_sqlx (sql_scrub_audit u);
  _ ← tx_stmt app_error_from_sqlx (sql_delete_user u);
  _ ← append_admin_audit a (erasure_audit "account_erasure_completed" k) secret;
  mret true.

Definition execute_erasure_tx (a k : Uuid) (purge_login : bool) (secret : string) : Tx bool :=
  tx_some_or (claim_erasure k) false (erase_user a k purge_login secret).

Definition execute_erasure (k : Uuid) (purge_login : bool) (secret : string) : M bool :=
  a ← gen_random_uuid; run_tx (execute_erasure_tx a k purge_login secret).
End db.

(** * Handlers *)

Definition ERASURE_CHALLENGE_TTL_SECS : i64 := 300.
Definition ERASURE_ACTION_MAX_AGE_SECS : i64 := 120.
Definition PURPOSE_REQUEST : string := "erasure_request".
Definition PURPOSE_CONFIRM : string := "erasure_confirm".
Definition PURPOSE_CANCEL : string := "erasure_cancel".
Definition PURPOSE_EXPORT : string := "erasure_export".

(** What the handlers read of [AppState]. *)
Record ErasureState := mkErasureState {
  ee_enabled : bool;
  ee_grace_period_hours : i64;
  ee_purge_login_events : bool;
  ee_public_api_url : option string;
  ee_integrity_secret : string;
}.

Record StatusResponse := mkStatusResponse { st_status : string; st_scheduled_for : option string }.
Record ExportKey := mkExportKey {
  ek_asset : string; ek_public_key : string; ek_public_spend_key : option string;
  ek_key_type : string }.
Record ExportResponse := mkExportResponse {
  ex_user_id : Uuid; ex_username : option string; ex_nostr_pubkey : option string;
  ex_created_at : string; ex_keys : list ExportKey }.

(** [impl Display for AssetType]. *)
Definition asset_str (a : AssetType) : string :=
  match a with Btc => "btc" | Ltc => "ltc" | Xmr => "xmr" | Wow => "wow" | Grin => "grin" end.

Section api.
Context `{Ext} `{Hmac} `{AuditJson} `{Nostr} (state : ErasureState).

Definition erasure_disabled : AppError := NotFound "erasure is not enabled".
Definition ensure_erasure_enabled : outcome unit :=
  if ee_enabled state then Ok tt else Err erasure_disabled.

Definition erasure_url (path : string) : outcome string :=
  base ← ok_or (ee_public_api_url state) erasure_disabled;
  Ok (trim_end_char "/" base ++ path).

Definition subject_hash (npub : string) : string :=
  hex_encode (sha256 (list_byte_of_string npub)).

(** [Uuid::from_bytes] of the first 16 bytes. *)
Definition synthetic_erasure_id (pubkey : string) : string :=
  let sep := [x1f] in
  let digest := sha256 (list_byte_of_string (ee_integrity_secret state) ++ sep
    ++ list_byte_of_string "erasure-synthetic" ++ sep ++ list_byte_of_string pubkey) in
  uuid_to_string (Z.to_N (be_value (take 16 digest))).

Definition bad_proof : AppError := AuthError "Invalid erasure proof".

Definition prove (token nonce purpose action_path : string) (target : option (string * string))
  : M (string * option User) :=
  url ← lift (erasure_url action_path);
  let payload := descriptor_sha256 (request_descriptor "POST" ("/api/v1" ++ action_path) "" []) in
  clock ← utc_now;
  pubkey ← lift (match verify_signed_action token url "POST" purpose nonce payload target None
                         (timestamp clock) ERASURE_ACTION_MAX_AGE_SECS with
                 | Accepted p => Ok p | Rejected _ => Err bad_proof | Panicked => Panic end);
  consumed ← consume_challenge nonce purpose;
  if is_none consumed then fail bad_proof
  else
    user ← find_user_by_nostr_pubkey pubkey;
    mret (pubkey, user).

Definition erasure_challenge (purpose : string) : M string :=
  _ ← lift ensure_erasure_enabled;
  if negb (existsb (String.eqb purpose) [PURPOSE_REQUEST; PURPOSE_CONFIRM; PURPOSE_CANCEL; PURPOSE_EXPORT])
  then fail (ValidationError "unknown erasure purpose")
  else issue_challenge_nonce purpose None ERASURE_CHALLENGE_TTL_SECS.

(** The audit entry, whose failure is ignored. *)
Definition audit_erasure (action : string) (k : Uuid) : M unit :=
  swallow (record_admin_audit (erasure_audit action k) (ee_integrity_secret state)).

(** The response is the id and [pending]. *)
Definition request_erasure (token nonce : string) : M string :=
  _ ← lift ensure_erasure_enabled;
  proof ← prove token nonce PURPOSE_REQUEST "/account/erasure" None;
  let '(pubkey, user) := (proof : string * option User) in
  match user with
  | Some u =>
      req ← db_request_erasure (u_id u) (subject_hash pubkey) (ee_grace_period_hours state);
      _ ← audit_erasure "account_erasure_requested" (er_id req);
      mret (uuid_to_string (er_id req))
  | None => mret (synthetic_erasure_id pubkey)
  end.

Definition no_such_request : AppError := NotFound "no such erasure request".

Definition confirm_erasure (k : Uuid) (token nonce : string) : M StatusResponse :=
  _ ← lift ensure_erasure_enabled;
  let id_str := uuid_to_string k in
  proof ← prove token nonce PURPOSE_CONFIRM ("/account/erasure/" ++ id_str ++ "/confirm")
            (Some ("erasure_id", id_str));
  user ← lift (ok_or (snd (proof : string * option User)) no_such_request);
  found ← confirm_erasure_request k (u_id user) (ee_grace_period_hours state);
  req ← lift (ok_or found (NotFound "no pending erasure request"));
  _ ← swallow (revoke_all_user_sessions (u_id user));
  _ ← audit_erasure "account_erasure_confirmed" (er_id req);
  mret (mkStatusResponse (er_state req) (Some (to_rfc3339 (er_scheduled_for req)))).

Definition cancel_erasure (k : Uuid) (token nonce : string) : M StatusResponse :=
  _ ← lift ensure_erasure_enabled;
  let id_str := uuid_to_string k in
  proof ← prove token nonce PURPOSE_CANCEL ("/account/erasure/" ++ id_str)
            (Some ("erasure_id", id_str));
  user ← lift (ok_or (snd (proof : string * option User)) no_such_request);
  found ← cancel_erasure_request k (u_id user);
  req ← lift (ok_or found (NotFound "no live erasure request"));
  _ ← audit_erasure "account_erasure_cancelled" (er_id req);
  mret (mkStatusResponse (er_state req) None).

Definition export_account (token nonce : string) : M ExportResponse :=
  _ ← lift ensure_erasure_enabled;
  proof ← prove token nonce PURPOSE_EXPORT "/account/export" None;
  user ← lift (ok_or (snd (proof : string * option User)) bad_proof);
  keys ← get_user_keys (u_id user);
  _ ← audit_erasure "account_exported" (u_id user);
  mret (mkExportResponse (u_id user) (u_username user) (u_nostr_pubkey user)
          (to_rfc3339 (u_created_at user))
          ((fun k => mkExportKey (asset_str (uk_asset k)) (uk_public_key k)
                       (uk_public_spend_key k) (uk_key_type k)) <$> keys)).

(** The loop of the sweep: how many were executed. *)
Fixpoint execute_all (due : list ErasureRequest) (done : u64) : M u64 :=
  match due with
  | [] => mret done
  | req :: rest =>
      r ← attempt (execute_erasure (er_id req) (ee_purge_login_events state)
                     (ee_integrity_secret state));
      execute_all rest (match r with inl true => (done + 1)%Z | _ => done end)
  end.

Definition run_erasure_sweep (batch : i64) : M u64 :=
  due ← due_erasure_requests batch;
  execute_all due 0.
End api.
