(* ===== verification/ErasureSafety.v ===== *)
(** What erasure promises: a request goes through two proofs and a grace period,
    only then is the account deleted, and then nothing names it. *)

From Stdlib Require Import ZArith Lia Ascii String Strings.Byte.
From S2P Require Import Prelude RustStr Errors Db Effects TipStatus SocialTips Transactions Pepper AuditChain Demo Auth TipApi Nip98 Signatures Challenges Events RelayPolicy Registration Users AuthApi AuthSafety Paths Erasure.

Local Open Scope string_scope.

(** * One execution *)

(** No row of the tables a user owns or is named in names [u]. *)
Definition forgotten (u : Uuid) (d : Db) : Prop :=
  users d !! u = None /\
  (forall k s, sessions d !! k = Some s -> s_user_id s <> u) /\
  (forall k x, user_keys d !! k = Some x -> uk_user_id x <> u) /\
  (forall k g, grin_slatepacks d !! k = Some g ->
     g_sender_user_id g <> u /\ g_recipient_user_id g <> Some u) /\
  (forall k r, social_tips d !! k = Some r ->
     sender_user_id r <> u /\ claimed_by_user_id r <> Some u /\ recipient_user_id r <> Some u) /\
  (forall k p, premium_invoices d !! k = Some p -> pr_user_id p <> u) /\
  (forall k c, invite_codes d !! k = Some c -> ic_used_by c <> Some u) /\
  (forall k e, login_events d !! k = Some e -> le_user_id e <> Some u) /\
  (forall k a, audit_logs d !! k = Some a -> au_user_id a <> Some u) /\
  (forall k r, erasure_requests d !! k = Some r -> er_user_id r <> Some u).

Lemma sql_eq_neq {A} `{EqDecision A} (o : option A) v : sql_eq o v = false -> o <> Some v.
Proof. intros Hs ->. unfold sql_eq in Hs. by rewrite bool_decide_eq_true_2 in Hs. Qed.

(** The reference a [SET NULL] leaves is another's. *)
Lemma set_null_lookup {K A} `{Countable K} (m : gmap K A) (ref : A -> option Uuid)
    (f : A -> A) (u : Uuid) k x :
  (forall y, ref (f y) = None) ->
  ((fun y => if sql_eq (ref y) u then f y else y) <$> m) !! k = Some x -> ref x <> Some u.
Proof.
  intros Hf. rewrite lookup_fmap. intros (y & Hy & ->)%fmap_Some.
  destruct (sql_eq (ref y) u) eqn:E; [by rewrite Hf|by apply sql_eq_neq].
Qed.

Definition scrub_user (u : Uuid) (r : ErasureRequest) : ErasureRequest :=
  if sql_eq (er_user_id r) u then r <|er_user_id := None|> else r.

Lemma delete_user_forgets u now d d' x :
  sql_delete_user u now d = inr (d', x) ->
  forgotten u d' /\ users d' = delete u (users d) /\
  erasure_requests d' = scrub_user u <$> erasure_requests d.
Proof.
  unfold sql_delete_user. intros E. case_hyp E; [|done]. injection E as <-.
  split; [|done]. unfold forgotten. simpl. split_and!.
  - apply lookup_delete_eq.
  - intros k s Hs. by apply map_lookup_filter_Some in Hs as [_ ?].
  - intros k y Hk. by apply map_lookup_filter_Some in Hk as [_ ?].
  - intros k g Hg. rewrite lookup_fmap in Hg. apply fmap_Some in Hg as (y & Hy & ->).
    apply map_lookup_filter_Some in Hy as [_ Hy]. simpl in Hy.
    destruct (sql_eq (g_recipient_user_id y) u) eqn:E'; [done|]. split; [done|by apply sql_eq_neq].
  - intros k r Hr. rewrite lookup_omap in Hr. apply bind_Some in Hr as (y & _ & Hy).
    unfold delete_user_row in Hy. destruct (bool_decide (sender_user_id y = u)) eqn:Es; [done|].
    apply bool_decide_eq_false in Es. destruct (mentions_user u y) eqn:Em; injection Hy as <-.
    + unfold touch_updated_at, unlink_user. simpl.
      destruct (sql_eq (claimed_by_user_id y) u) eqn:E2, (sql_eq (recipient_user_id y) u) eqn:E3;
        split_and!; try done; by apply sql_eq_neq.
    + apply orb_false_iff in Em as [E2 E3]. split_and!; [done|by apply sql_eq_neq..].
  - intros k p Hp. by apply map_lookup_filter_Some in Hp as [_ ?].
  - intros k c. by apply (set_null_lookup _ ic_used_by (fun c => c <|ic_used_by := None|>)).
  - intros k e. by apply (set_null_lookup _ le_user_id (fun e => e <|le_user_id := None|>)).
  - intros k a. by apply (set_null_lookup _ au_user_id (fun a => a <|au_user_id := None|>)).
  - intros k r. by apply (set_null_lookup _ er_user_id (fun r => r <|er_user_id := None|>)).
Qed.

Section erasure.
Context `{Ext} `{Hmac} `{AuditJson}.

(** An execution that committed: it claimed a confirmed request of [u]. *)
Definition erased (k u : Uuid) (t : Time) (d d' : Db) : Prop :=
  exists r, erasure_requests d !! k = Some r /\ er_state r = "confirmed" /\ er_user_id r = Some u /\
    forgotten u d' /\ users d' = delete u (users d) /\
    erasure_requests d' = scrub_user u <$> <[k := complete_set t r]> (erasure_requests d).

Lemma purge_inr (b : bool) u now d d' x :
  (if b then sql_purge_logins u else sql_anonymize_logins u) now d = inr (d', x) ->
  users d' = users d /\ erasure_requests d' = erasure_requests d.
Proof. by destruct b; intros [= <- _]. Qed.

Lemma forgotten_frame u d d' l :
  d' = d <|admin_audit_logs := l|> -> forgotten u d -> forgotten u d'.
Proof. by intros ->. Qed.

Lemma execute_inr a k purge secret c t d d' b :
  execute_erasure_tx a k purge secret c t d = inr (d', b) ->
  (b = false /\ d' = d) \/ (b = true /\ exists u, erased k u t d d').
Proof.
  unfold execute_erasure_tx, tx_some_or. intros Htx.
  destruct (claim_erasure k c t d) as [e|[d1 o]] eqn:Ec; [done|].
  destruct o as [u|]; [right|left; by injection Htx as <- <-].
  unfold claim_erasure in Ec. apply bind_tx_inr in Ec as (d2 & claimed & Hcl & [= <- Hu]).
  apply tx_stmt_inr in Hcl. unfold update_erasure in Hcl.
  destruct (erasure_requests d !! k) as [r|] eqn:Hr; [|by injection Hcl as <- <-].
  destruct (is_confirmed r) eqn:Hc; [|by injection Hcl as <- <-]. injection Hcl as Hd2 <-.
  simpl in Hu. apply String.eqb_eq in Hc. unfold erase_user in Htx.
  apply bind_tx_inr in Htx as (d3 & ? & Hp & Htx). apply tx_stmt_inr, purge_inr in Hp as [Hu3 He3].
  apply bind_tx_inr in Htx as (d4 & ? & Hs & Htx). apply tx_stmt_inr in Hs.
  assert (Hd4 : users d4 = users d3 /\ erasure_requests d4 = erasure_requests d3)
    by (by injection Hs as <- _). destruct Hd4 as [Hu4 He4].
  apply bind_tx_inr in Htx as (d5 & ? & Hd & Htx).
  apply tx_stmt_inr, delete_user_forgets in Hd as (Hf & Hu5 & He5).
  apply bind_tx_inr in Htx as (d6 & ? & Ha & [= <- <-]).
  unfold append_admin_audit in Ha. injection Ha as <- _.
  split; [done|]. exists u, r. split; [done|]. split; [done|]. split; [done|].
  split; [exact (forgotten_frame u d5 _ _ eq_refl Hf)|]. split; simpl.
  - by rewrite Hu5, Hu4, Hu3, <- Hd2.
  - by rewrite He5, He4, He3, <- Hd2.
Qed.

(** * The system *)

(** The grace, in hours, and a moment of the server's clock: the confirmations
    considered are those after it. *)
Context (from : Time) (grace : i64).

(** The steps of the requests, and of everything else that neither touches them
    nor deletes users.  A confirmation after [from] schedules past the grace; an
    execution waits for the moment scheduled. *)
Inductive erasure_step : Rel :=
| es_request k u h s t d d' r :
    sql_insert_erasure k u h s t d = inr (d', r) -> erasure_step t d d'
| es_confirm k u s t d d' r : (from + grace * HOUR <= s)%Z ->
    update_erasure k (confirm_where u) (confirm_set s) t d = inr (d', r) -> erasure_step t d d'
| es_cancel k u t d d' r :
    update_erasure k (live_of u) cancel_erasure_set t d = inr (d', r) -> erasure_step t d d'
| es_execute a k purge secret c t d d' b :
    (forall r, erasure_requests d !! k = Some r -> er_state r = "confirmed" ->
       (er_scheduled_for r <= t)%Z) ->
    execute_erasure_tx a k purge secret c t d = inr (d', b) -> erasure_step t d d'
| es_other t d d' : erasure_requests d' = erasure_requests d ->
    (forall u, is_Some (users d !! u) -> is_Some (users d' !! u)) -> erasure_step t d d'.

(** The stages of a request. *)
Definition request_wf (r : ErasureRequest) : Prop :=
  (er_state r = "pending" /\ er_confirmed_at r = None /\ er_cancelled_at r = None /\
     er_completed_at r = None) \/
  (er_state r = "confirmed" /\ is_Some (er_confirmed_at r) /\ er_cancelled_at r = None /\
     er_completed_at r = None) \/
  (er_state r = "cancelled" /\ is_Some (er_cancelled_at r) /\ er_completed_at r = None) \/
  (er_state r = "completed" /\ is_Some (er_confirmed_at r) /\ er_cancelled_at r = None /\
     er_user_id r = None /\ exists t, er_completed_at r = Some t /\ (er_scheduled_for r <= t)%Z).

Definition requests_wf (d : Db) : Prop :=
  (forall k r, erasure_requests d !! k = Some r -> er_id r = k /\ request_wf r) /\
  (forall u k1 k2 r1 r2, erasure_requests d !! k1 = Some r1 -> erasure_requests d !! k2 = Some r2 ->
     live_of u r1 = true -> live_of u r2 = true -> k1 = k2).

Lemma live_of_true u r :
  live_of u r = true <-> er_user_id r = Some u /\ (er_state r = "pending" \/ er_state r = "confirmed").
Proof.
  unfold live_of, live_request, sql_eq. rewrite andb_true_iff, orb_true_iff, !String.eqb_eq.
  destruct (er_user_id r) as [x|]; [|by split; [intros []|intros []]].
  rewrite bool_decide_eq_true. naive_solver.
Qed.

Lemma confirm_where_true u r :
  confirm_where u r = true <-> er_user_id r = Some u /\ er_state r = "pending".
Proof.
  unfold confirm_where, sql_eq. rewrite andb_true_iff, String.eqb_eq.
  destruct (er_user_id r) as [x|]; [|by split; [intros []|intros []]].
  rewrite bool_decide_eq_true. naive_solver.
Qed.

Lemma no_active_request u d :
  active_request u d = None ->
  forall k r, erasure_requests d !! k = Some r -> live_of u r = false.
Proof.
  intros Ha k r Hk. destruct (live_of u r) eqn:Hl; [|done]. exfalso. unfold active_request in Ha.
  assert (Hin : r ∈ base.filter (fun r => live_of u r = true) (erasure_rows d)).
  { apply list_elem_of_filter. split; [done|]. apply list_elem_of_fmap.
    exists (k, r). by rewrite elem_of_map_to_list. }
  destruct (base.filter _ _); [by apply elem_of_nil in Hin|done].
Qed.

(** One row rewritten in place, live only if it was. *)
Lemma requests_wf_replace d d' k r r' :
  requests_wf d -> erasure_requests d !! k = Some r ->
  erasure_requests d' = <[k := r']> (erasure_requests d) ->
  er_id r' = er_id r -> request_wf r' ->
  (forall u, live_of u r' = true -> live_of u r = true) -> requests_wf d'.
Proof.
  intros [Hf Hu] Hk Hd' Hid Hwf Hl. split.
  - intros j x. rewrite Hd'. intros [[<- <-]|[_ Hj]]%lookup_insert_Some; [|by apply Hf].
    by rewrite Hid; split; [apply Hf|].
  - intros u j1 j2 x1 x2. rewrite Hd'.
    intros [[<- <-]|[N1 H1']]%lookup_insert_Some [[<- <-]|[N2 H2']]%lookup_insert_Some L1 L2; [done|..].
    + by apply (Hu u k j2 r x2); auto.
    + by apply (Hu u j1 k x1 r); auto.
    + by apply (Hu u j1 j2 x1 x2).
Qed.

(** The scrubbing of a user keeps the stages. *)
Lemma requests_wf_scrub d d' u :
  requests_wf d -> erasure_requests d' = scrub_user u <$> erasure_requests d -> requests_wf d'.
Proof.
  intros [Hf Hu] Hd'. assert (Hs : forall v x, live_of v (scrub_user u x) = true -> live_of v x = true).
  { intros v x. unfold scrub_user. destruct (sql_eq (er_user_id x) u); [|done].
    rewrite !live_of_true. simpl. by intros [? _]. }
  split.
  - intros j y. rewrite Hd', lookup_fmap. intros (x & Hx & ->)%fmap_Some.
    destruct (Hf j x Hx) as [Hid Hwf]. unfold scrub_user.
    destruct (sql_eq (er_user_id x) u); [|done]. split; [done|].
    destruct Hwf as [Hwf|[Hwf|[Hwf|(? & ? & ? & _ & ?)]]];
      [by left|by right; left|by right; right; left|by right; right; right].
  - intros v j1 j2 y1 y2. rewrite Hd', !lookup_fmap.
    intros (x1 & Hx1 & ->)%fmap_Some (x2 & Hx2 & ->)%fmap_Some L1 L2.
    apply (Hu v j1 j2 x1 x2); auto.
Qed.

Lemma requests_wf_frame d d' :
  erasure_requests d' = erasure_requests d -> requests_wf d -> requests_wf d'.
Proof. intros E. unfold requests_wf. by rewrite E. Qed.

Lemma update_erasure_inr k wh set_ t d d' o :
  update_erasure k wh set_ t d = inr (d', o) ->
  (d' = d /\ o = None) \/
  exists r, erasure_requests d !! k = Some r /\ wh r = true /\ o = Some (set_ t r) /\
    d' = d <|erasure_requests := <[k := set_ t r]> (erasure_requests d)|>.
Proof.
  unfold update_erasure. destruct (erasure_requests d !! k) as [r|] eqn:Hk; [|intros [= <- <-]; by left].
  destruct (wh r) eqn:Hw; intros [= <- <-]; [|by left]. right. by exists r.
Qed.

Lemma insert_erasure_inr k u h s t d d' r :
  sql_insert_erasure k u h s t d = inr (d', r) ->
  erasure_requests d !! k = None /\ active_request u d = None /\
  r = mkErasureRequest k (Some u) h "pending" t s None None None /\
  d' = d <|erasure_requests := <[k := r]> (erasure_requests d)|>.
Proof.
  unfold sql_insert_erasure. intros E. destruct (erasure_requests d !! k) eqn:Hk; [done|].
  destruct (active_request u d) eqn:Ha; [done|]. simpl in E. case_hyp E; [done|].
  by injection E as <- <-.
Qed.

Lemma request_wf_live r : request_wf r -> er_state r = "pending" \/ er_state r = "confirmed" ->
  er_completed_at r = None.
Proof.
  intros [(_&_&_&?)|[(_&_&_&?)|[(E&_)|(E&_)]]] [E'|E']; try done; rewrite E in E'; discriminate.
Qed.

Lemma request_wf_confirmed r : request_wf r -> er_state r = "confirmed" ->
  is_Some (er_confirmed_at r) /\ er_cancelled_at r = None.
Proof.
  intros [(E&_)|[(_&?&?&_)|[(E&_)|(E&_)]]] E'; try done; rewrite E in E'; discriminate.
Qed.

(** A due request completed and its user scrubbed. *)
Lemma requests_wf_completed d d' k u r t :
  requests_wf d -> erasure_requests d !! k = Some r -> er_state r = "confirmed" ->
  er_user_id r = Some u -> (er_scheduled_for r <= t)%Z ->
  erasure_requests d' = scrub_user u <$> <[k := complete_set t r]> (erasure_requests d) ->
  requests_wf d'.
Proof.
  intros [Hf Hu] Hk Hc Hru Hdue He. destruct (Hf k r Hk) as [Hid Hwr].
  destruct (request_wf_confirmed r Hwr Hc) as [Hcf Hcc].
  set (r' := scrub_user u (complete_set t r)).
  assert (Hr' : er_user_id r' = None).
  { unfold r', scrub_user. simpl. rewrite Hru. unfold sql_eq. by rewrite bool_decide_eq_true_2. }
  assert (Hwf' : er_id r' = k /\ request_wf r').
  { unfold r', scrub_user in *. simpl in *. rewrite Hru in *. unfold sql_eq in *.
    rewrite bool_decide_eq_true_2 in * by done. simpl. split; [done|].
    right; right; right. simpl. split_and!; [done..|]. by exists t. }
  apply (requests_wf_replace (d <|erasure_requests := scrub_user u <$> erasure_requests d|>)
           d' k (scrub_user u r) r'); try done.
  - by apply (requests_wf_scrub d _ u).
  - simpl. by rewrite lookup_fmap, Hk.
  - rewrite He. simpl. by rewrite fmap_insert.
  - destruct Hwf' as [-> _]. unfold scrub_user. by destruct (sql_eq _ _).
  - by destruct Hwf'.
  - intros v. rewrite live_of_true, Hr'. by intros [? _].
Qed.

Lemma erasure_step_wf : stable erasure_step requests_wf.
Proof.
  intros t d d' Hs Hwf. pose proof (proj1 Hwf) as Hrow. destruct Hs as
    [k u h s t d d' r Hq|k u s t d d' r _ Hq|k u t d d' r Hq|a k purge secret c t d d' b Hdue Hq
    |t d d' Hq _].
  - apply insert_erasure_inr in Hq as (Hk & Ha & -> & ->). set (r := mkErasureRequest _ _ _ _ _ _ _ _ _).
    assert (Hlive : forall v j y, erasure_requests d !! j = Some y -> live_of v y = true ->
              live_of v r = true -> False).
    { intros v j y Hj Hl. rewrite live_of_true. intros [[= <-] _].
      by rewrite (no_active_request u d Ha j y Hj) in Hl. }
    split; simpl.
    + intros j y [[<- <-]|[_ Hj]]%lookup_insert_Some; [|by apply Hrow].
      split; [done|]. by left.
    + intros v j1 j2 y1 y2 [[<- <-]|[_ H1']]%lookup_insert_Some
        [[<- <-]|[_ H2']]%lookup_insert_Some L1 L2;
        [done|by destruct (Hlive v j2 y2)|by destruct (Hlive v j1 y1)
        |by apply (proj2 Hwf v j1 j2 y1 y2)].
  - apply update_erasure_inr in Hq as [[-> _]|(x & Hk & Hw & _ & ->)]; [done|].
    apply (requests_wf_replace d _ k x (confirm_set s t x)); try done.
    + apply confirm_where_true in Hw as [_ Hp]. right; left. simpl.
      destruct (Hrow k x Hk) as [_ [(_&_&?&?)|[(E&_)|[(E&_)|(E&_)]]]];
        [by eauto|rewrite E in Hp; discriminate..].
    + intros v. rewrite !live_of_true. apply confirm_where_true in Hw as [_ Hp].
      intros [Hv _]. split; [done|by left].
  - apply update_erasure_inr in Hq as [[-> _]|(x & Hk & Hw & _ & ->)]; [done|].
    apply (requests_wf_replace d _ k x (cancel_erasure_set t x)); try done.
    + apply live_of_true in Hw as [_ Hl]. right; right; left. simpl. split_and!; [done|eauto|].
      apply request_wf_live; [|done]. by apply (Hrow k x).
    + intros v. rewrite !live_of_true. simpl. intros [_ [E|E]]; discriminate.
  - apply execute_inr in Hq as [[_ ->]|(_ & u & r & Hk & Hc & Hu & _ & _ & He)]; [done|].
    by apply (requests_wf_completed d d' k u r t); auto.
  - by apply (requests_wf_frame d).
Qed.

(** The last stages. *)
Definition settled (r : ErasureRequest) : Prop :=
  er_state r = "cancelled" \/ er_state r = "completed".

Lemma settled_not_live u r : settled r -> live_of u r = false.
Proof.
  intros Hs. destruct (live_of u r) eqn:E; [|done]. apply live_of_true in E as [_ E].
  destruct Hs as [Hs|Hs], E as [E|E]; rewrite Hs in E; discriminate.
Qed.

Lemma lookup_scrubbed u (m : gmap Uuid ErasureRequest) k r :
  m !! k = Some r -> exists r', (scrub_user u <$> m) !! k = Some r' /\ er_state r' = er_state r.
Proof.
  intros Hk. exists (scrub_user u r). rewrite lookup_fmap, Hk. split; [done|].
  unfold scrub_user. by destruct (sql_eq _ _).
Qed.

Lemma settled_step t d d' k r :
  erasure_step t d d' -> erasure_requests d !! k = Some r -> settled r ->
  exists r', erasure_requests d' !! k = Some r' /\ er_state r' = er_state r.
Proof.
  intros Hs Hk Hset. destruct Hs as
    [k' u h s t d d' r' Hq|k' u s t d d' r' _ Hq|k' u t d d' r' Hq|a k' purge secret c t d d' b _ Hq
    |t d d' Hq _].
  - apply insert_erasure_inr in Hq as (Hk' & _ & _ & ->). exists r. simpl.
    by rewrite lookup_insert_ne by congruence.
  - apply update_erasure_inr in Hq as [[-> _]|(x & Hk' & Hw & _ & ->)]; [by exists r|].
    exists r. simpl. rewrite lookup_insert_ne; [done|]. intros ->.
    assert (x = r) as -> by congruence. apply confirm_where_true in Hw as [Hu Hp].
    pose proof (settled_not_live u r Hset) as E. by rewrite (proj2 (live_of_true u r)) in E by auto.
  - apply update_erasure_inr in Hq as [[-> _]|(x & Hk' & Hw & _ & ->)]; [by exists r|].
    exists r. simpl. rewrite lookup_insert_ne; [done|]. intros ->.
    assert (x = r) as -> by congruence. by rewrite settled_not_live in Hw.
  - apply execute_inr in Hq as [[_ ->]|(_ & u & x & Hk' & Hc & _ & _ & _ & ->)]; [by exists r|].
    apply lookup_scrubbed. rewrite lookup_insert_ne; [done|]. intros ->.
    assert (x = r) as -> by congruence. destruct Hset as [Hset|Hset]; rewrite Hset in Hc; discriminate.
  - exists r. by rewrite Hq.
Qed.

(** An execution of a confirmed request of [u] past its grace. *)
Definition due_erasure (u : Uuid) (t : Time) (d d' : Db) : Prop :=
  exists k r, erasure_requests d !! k = Some r /\ er_state r = "confirmed" /\
    er_user_id r = Some u /\ is_Some (er_confirmed_at r) /\ (er_scheduled_for r <= t)%Z /\
    forgotten u d'.

Lemma deletion_step t d d' u :
  requests_wf d -> erasure_step t d d' -> is_Some (users d !! u) ->
  is_Some (users d' !! u) \/ due_erasure u t d d'.
Proof.
  intros [Hrow _] Hs Hu. destruct Hs as
    [k v h s t d d' r Hq|k v s t d d' r _ Hq|k v t d d' r Hq|a k purge secret c t d d' b Hdue Hq
    |t d d' _ Hq].
  - left. by apply insert_erasure_inr in Hq as (_ & _ & _ & ->).
  - left. by apply update_erasure_inr in Hq as [[-> _]|(x & _ & _ & _ & ->)].
  - left. by apply update_erasure_inr in Hq as [[-> _]|(x & _ & _ & _ & ->)].
  - apply execute_inr in Hq as [[_ ->]|(_ & v & r & Hk & Hc & Hv & Hf & He & _)]; [by left|].
    destruct (decide (u = v)) as [->|N]; [right|left; by rewrite He, lookup_delete_ne].
    exists k, r. split_and!; auto. by apply request_wf_confirmed; [apply (Hrow k)|].
  - left. by apply Hq.
Qed.

(** The requests of [u] that are confirmed leave the grace since [from]. *)
Definition graced (u : Uuid) (d : Db) : Prop := forall k r,
  erasure_requests d !! k = Some r -> er_user_id r = Some u -> er_state r = "confirmed" ->
  (from + grace * HOUR <= er_scheduled_for r)%Z.

Lemma graced_stable u : stable erasure_step (graced u).
Proof.
  intros t d d' Hs Hg. destruct Hs as
    [j v h s t d d' r Hq|j v s t d d' r Hle Hq|j v t d d' r Hq|a j purge secret c t d d' b _ Hq
    |t d d' Hq _].
  - apply insert_erasure_inr in Hq as (_ & _ & -> & ->). intros k x. simpl.
    intros [[<- <-]|[_ Hk]]%lookup_insert_Some; [done|by apply (Hg k x Hk)].
  - apply update_erasure_inr in Hq as [[-> _]|(x & _ & _ & _ & ->)]; [done|]. intros k y. simpl.
    intros [[<- <-]|[_ Hk]]%lookup_insert_Some; [done|by apply (Hg k y Hk)].
  - apply update_erasure_inr in Hq as [[-> _]|(x & _ & _ & _ & ->)]; [done|]. intros k y. simpl.
    intros [[<- <-]|[_ Hk]]%lookup_insert_Some; [done|by apply (Hg k y Hk)].
  - apply execute_inr in Hq as [[_ ->]|(_ & v & x & Hj & _ & _ & _ & _ & He)]; [done|].
    intros k y. rewrite He, lookup_fmap. intros (z & Hz & ->)%fmap_Some.
    apply lookup_insert_Some in Hz as [[<- <-]|[_ Hz]]; unfold scrub_user;
      (destruct (sql_eq _ _); [done|]); [done|by apply (Hg k z Hz)].
  - intros k x. rewrite Hq. apply Hg.
Qed.

(** The path of the requests: where a run of the steps leads. *)
Lemma request_path d0 d :
  requests_wf d0 -> steps erasure_step d0 d ->
  requests_wf d /\
  (forall k r, erasure_requests d0 !! k = Some r -> settled r ->
     exists r', erasure_requests d !! k = Some r' /\ er_state r' = er_state r) /\
  (forall u, is_Some (users d0 !! u) -> users d !! u = None ->
     exists t d1 d2, steps erasure_step d0 d1 /\ due_erasure u t d1 d2 /\ steps erasure_step d2 d /\
       (graced u d0 -> (from + grace * HOUR <= t)%Z)).
Proof.
  intros Hwf Hs. induction Hs as [d|d1 d2 d3 [t Ht] Hs IH].
  - split; [done|]. split; [by eauto|]. intros u [x Hx]. by rewrite Hx.
  - pose proof (erasure_step_wf t d1 d2 Ht Hwf) as Hwf2.
    destruct (IH Hwf2) as (Hwf3 & Hset & Hgone). split; [done|]. split.
    + intros k r Hk Hr. destruct (settled_step t d1 d2 k r Ht Hk Hr) as (r2 & Hk2 & E2).
      destruct (Hset k r2 Hk2) as (r3 & Hk3 & E3); [unfold settled in *; by rewrite E2|].
      exists r3. split; [done|congruence].
    + intros u Hu Hn. destruct (deletion_step t d1 d2 u Hwf Ht Hu) as [Hu2|Hdue].
      * destruct (Hgone u Hu2 Hn) as (t' & d1' & d2' & H1' & H2' & H3' & H4'). exists t', d1', d2'.
        split_and!; [|done|done|].
        { by apply (steps_trans _ d1 d2); [apply (steps_once _ t)|]. }
        intros Hg. exact (H4' (graced_stable u t d1 d2 Ht Hg)).
      * exists t, d1, d2. split_and!; [apply steps_refl|done|done|].
        intros Hg. destruct Hdue as (k & r & Hk & Hc & Hr & _ & Hle & _). specialize (Hg k r Hk Hr Hc). lia.
Qed.

(** * The sweep *)

(** The request was due at [T], or is settled. *)
Definition due_since (T : Time) (k : Uuid) (d : Db) : Prop :=
  exists r, erasure_requests d !! k = Some r /\ er_state r <> "pending" /\
    (er_state r = "confirmed" -> (er_scheduled_for r <= T)%Z).

Lemma due_since_row T k d d' r r' :
  erasure_requests d !! k = Some r -> due_since T k d -> erasure_requests d' !! k = Some r' ->
  er_state r' <> "pending" -> (er_state r' = "confirmed" ->
    er_state r = "confirmed" /\ er_scheduled_for r' = er_scheduled_for r) -> due_since T k d'.
Proof.
  intros Hk (x & Hx & Hp & Hc) Hk' Hp' Hc'. simplify_eq. exists r'. split_and!; [done..|].
  intros E. destruct (Hc' E) as [E1 E2]. rewrite E2. by apply Hc.
Qed.

Lemma due_since_stable T k : stable erasure_step (due_since T k).
Proof.
  intros t d d' Hs Hd. pose proof Hd as (r & Hk & Hp & Hc). destruct Hs as
    [j u h s t d d' r' Hq|j u s t d d' r' _ Hq|j u t d d' r' Hq|a j purge secret c t d d' b _ Hq
    |t d d' Hq _].
  - apply insert_erasure_inr in Hq as (Hj & _ & _ & ->). exists r. simpl.
    by rewrite lookup_insert_ne by congruence.
  - apply update_erasure_inr in Hq as [[-> _]|(x & Hj & Hw & _ & ->)]; [done|].
    apply confirm_where_true in Hw as [_ Hw]. exists r. simpl.
    rewrite lookup_insert_ne; [done|]. by intros ->; simplify_eq.
  - apply update_erasure_inr in Hq as [[-> _]|(x & Hj & Hw & _ & ->)]; [done|].
    destruct (decide (j = k)) as [->|N].
    + apply (due_since_row T k d _ r (cancel_erasure_set t x)); try done; simpl.
      by rewrite lookup_insert_eq.
    + exists r. simpl. by rewrite lookup_insert_ne.
  - apply execute_inr in Hq as [[_ ->]|(_ & u & x & Hj & _ & _ & _ & _ & He)]; [done|].
    destruct (decide (j = k)) as [->|N].
    + apply (due_since_row T k d _ r (scrub_user u (complete_set t x))); try done.
      * by rewrite He, lookup_fmap, lookup_insert_eq.
      * unfold scrub_user. by destruct (sql_eq _ _).
      * unfold scrub_user. by destruct (sql_eq _ _).
    + apply (due_since_row T k d _ r (scrub_user u r)); try done.
      * by rewrite He, lookup_fmap, lookup_insert_ne, Hk by done.
      * unfold scrub_user. by destruct (sql_eq _ _).
      * unfold scrub_user. by destruct (sql_eq _ _).
  - exists r. by rewrite Hq.
Qed.

Lemma execute_steps k purge secret T w w' o :
  sched_ok erasure_step (w_sched w) -> (T <= w_now w)%Z -> due_since T k (w_db w) ->
  execute_erasure k purge secret w = (w', o) ->
  steps erasure_step (w_db w) (w_db w') /\ sched_ok erasure_step (w_sched w') /\ (T <= w_now w')%Z /\
  o <> Panic.
Proof.
  intros Hok HT Hd Hrun.
  cut (steps erasure_step (w_db w) (w_db w') /\ sched_ok erasure_step (w_sched w') /\
       (w_now w <= w_now w')%Z /\ o <> Panic); [intros (?&?&?&?); split_and!; [done|done|lia|done]|].
  unfold execute_erasure, gen_random_uuid, mbind, M_bind in Hrun.
  eapply (run_tx_steps _ (due_since T k)) in Hrun;
    [exact Hrun|apply due_since_stable| |done|done]. cbv beta.
  intros c now d d' b Hnow (r & Hk & _ & Hdue) E. simpl in Hnow.
  apply (steps_once _ now), (es_execute (w_rand w (w_calls w)) k purge secret c now d d' b); [|exact E].
  intros r' Hk' Hc. simplify_eq. specialize (Hdue Hc). lia.
Qed.

Lemma execute_all_steps state due : forall n T w w' o,
  sched_ok erasure_step (w_sched w) -> (T <= w_now w)%Z ->
  Forall (fun r => due_since T (er_id r) (w_db w)) due ->
  execute_all state due n w = (w', o) ->
  steps erasure_step (w_db w) (w_db w') /\
  exists m, o = Ok m /\ (n <= m <= n + Z.of_nat (length due))%Z.
Proof.
  induction due as [|r due IH]; intros n T w w' o Hok HT Hdue Hrun.
  - injection Hrun as <- <-. split; [apply steps_refl|]. exists n. simpl. split; [done|lia].
  - apply Forall_cons in Hdue as [Hr Hdue]. cbn [execute_all] in Hrun.
    unfold attempt, mbind, M_bind in Hrun.
    destruct (execute_erasure _ _ _ w) as [w1 o1] eqn:Ex.
    apply (execute_steps _ _ _ T) in Ex as (Hs & Hok1 & HT1 & Hnp); [|done..].
    assert (Hdue1 : Forall (fun r => due_since T (er_id r) (w_db w1)) due).
    { eapply Forall_impl; [exact Hdue|]. intros x Hx.
      by eapply steps_stable; [apply due_since_stable|exact Hs|]. }
    assert (Hgo : exists n1 o1, execute_all state due n1 w1 = (w', o1) /\ o = o1 /\ (n <= n1 <= n + 1)%Z).
    { destruct o1 as [[]| |]; [..|done]; eexists _, o; (split; [exact Hrun|]); (split; [done|lia]). }
    destruct Hgo as (n1 & o2 & Hgo & -> & Hn1).
    destruct (IH _ T _ _ _ Hok1 HT1 Hdue1 Hgo) as (Hs' & m & -> & Hm).
    split; [by eapply steps_trans|]. exists m. simpl. split; [done|lia].
Qed.

Lemma due_selected limit now d d' l :
  sql_due_erasures limit now d = inr (d', l) ->
  d' = d /\ length l <= Z.to_nat limit /\
  Forall (fun r => exists k, erasure_requests d !! k = Some r /\ is_due now r = true) l.
Proof.
  intros [= <- <-]. split; [done|]. split; [rewrite length_take; lia|].
  apply Forall_forall. intros r Hr.
  assert (Hin : r ∈ merge_sort sooner (base.filter (fun r => is_due now r = true) (erasure_rows d))).
  { rewrite <- (take_drop (Z.to_nat limit)). apply elem_of_app. by left. }
  rewrite (merge_sort_Permutation sooner) in Hin. apply list_elem_of_filter in Hin as [Hd Hin].
  apply list_elem_of_fmap in Hin as ([k x] & -> & Hk). exists k.
  by apply elem_of_map_to_list in Hk.
Qed.

(** The sweep deletes nobody early.  From a database whose requests are well
    staged, whatever else happens to the requests while it runs, what a pass does
    is a sequence of steps of the lifecycle: each execution claims a request that
    is still confirmed and past its grace at that very moment, even when the
    request was cancelled, and the clock moved, after the pass had selected it.
    The pass neither panics nor fails on one request, and counts at most its
    batch. *)
Theorem erasure_sweep_lawful state batch w w' o
    (Hwf : requests_wf (w_db w)) (Hothers : sched_ok erasure_step (w_sched w))
    (Hrun : run_erasure_sweep state batch w = (w', o)) :
  steps erasure_step (w_db w) (w_db w') /\ o <> Panic /\
  (forall n, o = Ok n -> (0 <= n <= Z.max 0 batch)%Z).
Proof.
  unfold run_erasure_sweep, due_erasure_requests, query in Hrun. unfold mbind, M_bind in Hrun.
  assert (Hread : triple (fun _ => True) erasure_step requests_wf
            (run_stmt app_error_from_sqlx (sql_due_erasures batch)) (fun _ => True)).
  { apply triple_read; [apply erasure_step_wf|]. intros t d d' r _ [-> _]%due_selected. done. }
  destruct (run_stmt app_error_from_sqlx (sql_due_erasures batch) w) as [w1 o1] eqn:Eq.
  pose proof (triple_run _ _ _ _ _ _ _ _ Hread I Hothers Hwf Eq) as (Hs & Hwf1 & _).
  destruct o1 as [due|e|].
  - apply (run_stmt_Ok _ _ _ _ _ _ Hothers) in Eq as (d & _ & Hdue & Hok1 & _).
    apply due_selected in Hdue as (<- & Hlen & Hall).
    apply (execute_all_steps state due 0 (w_now w1)) in Hrun as (Hs' & n & -> & Hn);
      [|done..|].
    + split; [by eapply steps_trans|]. split; [done|]. intros n' [= <-]. lia.
    + eapply Forall_impl; [exact Hall|]. intros r (k & Hk & Hd).
      destruct (proj1 Hwf1 k r Hk) as [-> _]. exists r. split; [done|].
      unfold is_due, is_confirmed in Hd. apply andb_true_iff in Hd as [Hc Ht].
      apply String.eqb_eq in Hc. apply Z.leb_le in Ht. split; [|done]. by rewrite Hc.
  - injection Hrun as <- <-. by split_and!.
  - exfalso. revert Eq. unfold run_stmt. destruct (next_slot w) as [sl w0].
    by destruct (sl_fault sl).
Qed.

(** * One execution, exactly *)

(** The user a claim of the request would delete. *)
Definition claimable_by (k : Uuid) (d : Db) : option Uuid :=
  r ← erasure_requests d !! k; if is_confirmed r then er_user_id r else None.

(** No constraint of a tip forbids the deletion. *)
Definition erasable (u : Uuid) (now : Time) (d : Db) : Prop :=
  omap (tip_violation (d <|users := delete u (users d)|>))
    (snd <$> map_to_list (omap (delete_user_row u now) (social_tips d))) = [].

(** What is left of the sign-ins. *)
Definition logins_after (purge : bool) (u : Uuid) (logins : gmap Uuid LoginEvent) :=
  if purge then base.filter (fun kv => of_user u kv.2 = false) logins
  else (fun e => if of_user u e then anonymized e else e) <$> logins.

Lemma delete_user_logins u now d d' x :
  sql_delete_user u now d = inr (d', x) ->
  (forall k e, login_events d !! k = Some e -> le_user_id e <> Some u) ->
  login_events d' = login_events d /\ admin_audit_logs d' = admin_audit_logs d.
Proof.
  unfold sql_delete_user. intros E Hno. case_hyp E; [|done]. injection E as <-. split; [|done].
  simpl. apply map_eq. intros k. rewrite lookup_fmap. destruct (login_events d !! k) as [e|] eqn:Hk; [|done].
  simpl. unfold sql_eq. specialize (Hno k e Hk). destruct (le_user_id e) as [v|]; [|done].
  by rewrite bool_decide_eq_false_2 by congruence.
Qed.

Lemma no_logins_after purge u logins k e :
  logins_after purge u logins !! k = Some e -> le_user_id e <> Some u.
Proof.
  unfold logins_after, of_user. destruct purge.
  - intros [_ Hs]%map_lookup_filter_Some. by apply sql_eq_neq.
  - rewrite lookup_fmap. intros (y & _ & ->)%fmap_Some. destruct (sql_eq (le_user_id y) u) eqn:E;
      [done|by apply sql_eq_neq].
Qed.

Lemma delete_user_decided u now d :
  (erasable u now d -> exists d', sql_delete_user u now d = inr (d', tt)) /\
  (~ erasable u now d -> exists e, sql_delete_user u now d = inl e).
Proof.
  unfold erasable, sql_delete_user. destruct (omap _ _); split; intros; [eauto|done|done|eauto].
Qed.

Lemma execute_tx_claim a k purge secret c now d :
  execute_erasure_tx a k purge secret c now d =
  match claimable_by k d, erasure_requests d !! k with
  | Some u, Some r => erase_user a k purge secret u c now
      (d <|erasure_requests := <[k := complete_set now r]> (erasure_requests d)|>)
  | _, _ => inr (d, false)
  end.
Proof.
  unfold execute_erasure_tx, tx_some_or, claim_erasure, tx_stmt, update_erasure, claimable_by.
  unfold mbind, Tx_bind, option_bind. destruct (erasure_requests d !! k) as [r|]; [|done].
  destruct (is_confirmed r); [|done]. simpl. by destruct (er_user_id r).
Qed.

(** The statements before the deletion. *)
Definition before_delete (purge : bool) (u : Uuid) (d : Db) : Db :=
  d <|login_events := logins_after purge u (login_events d)|>
    <|audit_logs := (fun a => if sql_eq (au_user_id a) u then a <|au_user_agent := None|> else a)
                    <$> audit_logs d|>.

Lemma erase_user_run a k purge secret u c now d :
  erase_user a k purge secret u c now d =
  match sql_delete_user u now (before_delete purge u d) with
  | inl e => inl (app_error_from_sqlx e)
  | inr (d', _) =>
      inr (d' <|admin_audit_logs := (admin_audit_logs d' ++
             [new_audit_row a secret (erasure_audit "account_erasure_completed" k) c
                (admin_audit_logs d')])%list|>, true)
  end.
Proof.
  unfold erase_user, tx_stmt, mbind, Tx_bind, before_delete, logins_after.
  destruct purge; cbn [sql_purge_logins sql_anonymize_logins sql_scrub_audit]; unfold sql_purge_logins,
    sql_anonymize_logins, sql_scrub_audit; by destruct (sql_delete_user u now _) as [e|[d' x]].
Qed.

Lemma erase_user_exact a k purge secret u c now d :
  (~ erasable u now d -> exists e, erase_user a k purge secret u c now d = inl e) /\
  (erasable u now d -> exists d', erase_user a k purge secret u c now d = inr (d', true) /\
     login_events d' = logins_after purge u (login_events d) /\
     admin_audit_logs d' = (admin_audit_logs d ++
       [new_audit_row a secret (erasure_audit "account_erasure_completed" k) c (admin_audit_logs d)])%list).
Proof.
  rewrite erase_user_run. destruct (delete_user_decided u now (before_delete purge u d)) as [Hyes Hno].
  change (erasable u now (before_delete purge u d)) with (erasable u now d) in *. split; intros He.
  - destruct (Hno He) as [e ->]. eauto.
  - destruct (Hyes He) as [d' E]. rewrite E. eexists. split; [done|].
    apply delete_user_logins in E as [El Ea];
      [|intros k' e; simpl; apply no_logins_after]. simpl. by rewrite El, Ea.
Qed.

Lemma link_continues a secret e c rows :
  verify_rows secret rows = true ->
  verify_rows secret (rows ++ [new_audit_row a secret e c rows]) = true.
Proof.
  intros Hv. unfold verify_rows. rewrite verify_app. split; [done|].
  apply verify_cons. split; [|done]. rewrite Z.add_0_l. by apply link_append.
Qed.

(** An execution, alone: if the request is confirmed and its user can be
    deleted, exactly one commit completes the request, deletes the user with
    every row and link that names them, purges or anonymizes their sign-ins, and
    continues the audit chain; if it is not confirmed (pending, cancelled, done,
    unknown) the answer is [false], and if the deletion is forbidden an error,
    and nothing at all has changed. *)
Theorem execute_erasure_exact k purge secret w (Hq : w_sched w = []) :
  let d := w_db w in
  let '(w', o) := execute_erasure k purge secret w in
  match claimable_by k d with
  | None => o = Ok false /\ w_db w' = d
  | Some u =>
      (~ erasable u (w_now w) d -> (exists e, o = Err e) /\ w_db w' = d) /\
      (erasable u (w_now w) d ->
         o = Ok true /\ erased k u (w_now w) d (w_db w') /\
         login_events (w_db w') = logins_after purge u (login_events d) /\
         (verify_rows secret (admin_audit_logs d) = true ->
            verify_rows secret (admin_audit_logs (w_db w')) = true /\
            length (admin_audit_logs (w_db w')) = S (length (admin_audit_logs d))))
  end.
Proof.
  cbv zeta. unfold execute_erasure, gen_random_uuid, mbind, M_bind. set (a := w_rand w _).
  rewrite run_tx_quiet by done. change (w_db (w <|w_calls := S (w_calls w)|>)) with (w_db w).
  change (w_now (w <|w_calls := S (w_calls w)|>)) with (w_now w).
  set (c := (w_now w + _)%Z). rewrite execute_tx_claim.
  destruct (claimable_by k (w_db w)) as [u|] eqn:Hc; [|done].
  destruct (erasure_requests (w_db w) !! k) as [r|] eqn:Hk; [|by unfold claimable_by in Hc; rewrite Hk in Hc].
  set (d1 := (w_db w) <|erasure_requests := _|>).
  destruct (erase_user_exact a k purge secret u c (w_now w) d1) as [Hno Hyes].
  change (erasable u (w_now w) d1) with (erasable u (w_now w) (w_db w)) in *.
  destruct (erase_user a k purge secret u c (w_now w) d1) as [e|[d' b]] eqn:E.
  - split; [by eauto|]. intros Hn. by destruct (Hyes Hn) as (? & ? & _).
  - split; [intros Hn; by destruct (Hno Hn)|]. intros Hn.
    destruct (Hyes Hn) as (d2 & [= <- ->] & Hl & Ha). split; [done|]. split; [|split; [exact Hl|]].
    + assert (Hx : execute_erasure_tx a k purge secret c (w_now w) (w_db w) = inr (d', true))
        by (rewrite execute_tx_claim, Hc, Hk; exact E).
      apply execute_inr in Hx as [[? _]|(_ & v & r' & Hk' & Hrest)]; [done|].
      simplify_eq. assert (v = u) as ->.
      { destruct Hrest as (Hs & Hv & _). revert Hc. unfold claimable_by, mbind, option_bind.
        rewrite Hk. unfold is_confirmed. rewrite Hs. simpl. congruence. }
      by exists r.
    + intros Hv. change (w_db (w <|w_calls := S (w_calls w)|> <|w_db := d'|>)) with d'. rewrite Ha.
      split; [by apply link_continues|]. rewrite length_app. simpl. lia.
Qed.
End erasure.

(** * What the handlers do to the requests *)

Section legal.
Context `{Ext} `{Hmac} `{AuditJson} `{Nostr} (state : ErasureState) (from : Time).

Abbreviation L := (erasure_step from (ee_grace_period_hours state)).

Lemma leads_elsewhere {A} on_err (s : Stmt A) :
  (forall t d d' r, s t d = inr (d', r) ->
     erasure_requests d' = erasure_requests d /\ users d' = users d) -> leads L (run_stmt on_err s).
Proof.
  intros Hs. apply leads_stmt. intros t d d' r E. apply Hs in E as [He Hu].
  apply (steps_once _ t), es_other; [done|]. by rewrite Hu.
Qed.

Lemma leads_audit action k : leads L (audit_erasure state action k).
Proof.
  unfold audit_erasure. apply leads_swallow. unfold record_admin_audit. apply leads_bind; [apply leads_uuid|].
  intros a w w' o Hok Hrun. unfold run_tx in Hrun. revert Hrun. apply (leads_bind _ _ _); [| |done].
  - apply leads_elsewhere. intros t d d' r E. unfold tx_as_stmt, append_admin_audit in E. by injection E as <- _.
  - intros [?|?]; leads_steps.
Qed.

Lemma leads_proof token nonce purpose path target : leads L (prove state token nonce purpose path target).
Proof.
  unfold prove. cbv zeta. apply leads_bind; [apply leads_lift|]. intros url.
  apply leads_bind; [apply leads_utc_now|]. intros clock. apply leads_bind; [apply leads_lift|]. intros pubkey.
  apply leads_bind.
  - apply leads_elsewhere. intros t d d' r E. unfold sql_consume_challenge in E.
    repeat case_hyp E; by injection E as <- _.
  - intros c. destruct (is_none c); [apply leads_lift|]. apply leads_bind; [|intros; apply leads_ret].
    apply leads_read. by intros ? ? ? ? [= <- _].
Qed.

Lemma leads_active u : leads L (active_erasure_request u).
Proof. apply leads_read. by intros ? ? ? ? [= <- _]. Qed.

Lemma leads_request token nonce : leads L (request_erasure state token nonce).
Proof.
  unfold request_erasure. apply leads_bind; [apply leads_lift|]. intros _.
  apply leads_bind; [apply leads_proof|]. intros [pubkey [u|]]; [|apply leads_ret].
  apply leads_bind; [|intros; apply leads_bind; [apply leads_audit|intros; apply leads_ret]].
  unfold db_request_erasure. apply leads_bind; [apply leads_active|]. intros [r|]; [apply leads_ret|].
  apply leads_bind; [apply leads_utc_now|]. intros clock. apply leads_bind; [apply leads_uuid|]. intros k.
  apply leads_bind.
  - apply leads_stmt. intros t d d' o E. unfold insert_erasure_stmt in E.
    destruct (sql_insert_erasure _ _ _ _ t d) as [[]|[d2 r]] eqn:Ei; try done; injection E as <- <-;
      [apply steps_refl|]. apply (steps_once _ t). by eapply es_request.
  - intros [r|]; [apply leads_ret|]. apply leads_bind; [apply leads_active|]. intros. apply leads_lift.
Qed.

Lemma leads_cancel k token nonce : leads L (cancel_erasure state k token nonce).
Proof.
  unfold cancel_erasure. cbv zeta. apply leads_bind; [apply leads_lift|]. intros _.
  apply leads_bind; [apply leads_proof|]. intros p. apply leads_bind; [apply leads_lift|]. intros u.
  apply leads_bind.
  - apply leads_stmt. intros t d d' r E. apply (steps_once _ t). by eapply es_cancel.
  - intros o. apply leads_bind; [apply leads_lift|]. intros r.
    apply leads_bind; [apply leads_audit|]. intros. apply leads_ret.
Qed.

(** A confirmation begun after [from] schedules past the grace. *)
Lemma confirm_leads k token nonce w w' o :
  sched_ok L (w_sched w) -> (from <= w_now w + w_skew w)%Z ->
  confirm_erasure state k token nonce w = (w', o) -> reaches L w w'.
Proof.
  intros Hok Hfrom. unfold confirm_erasure. cbv zeta.
  apply reaches_then; [done|apply leads_lift|]. intros _ w1 _ Hr1.
  apply reaches_then; [apply Hr1|apply leads_proof|]. intros p w2 _ Hr2.
  apply reaches_then; [apply Hr2|apply leads_lift|]. intros u w3 _ Hr3.
  assert (Hr : reaches L w w3) by (eapply reaches_trans; [exact Hr1|by eapply reaches_trans]).
  destruct Hr as (_ & Hok3 & Hn & _ & Hk). unfold confirm_erasure_request.
  intros Hrun. refine (leads_bind L (query (update_erasure k (confirm_where (u_id u))
    (confirm_set (grace_end (w_now w3 + w_skew w3) (ee_grace_period_hours state))))) _ _ _ w3 w' o Hok3 Hrun).
  - apply leads_stmt. intros t d d' r E. apply (steps_once _ t). eapply es_confirm; [|exact E].
    unfold grace_end. lia.
  - intros found. apply leads_bind; [apply leads_lift|]. intros r.
    apply leads_bind; [|intros; apply leads_bind; [apply leads_audit|intros; apply leads_ret]].
    apply leads_swallow, leads_elsewhere. by intros t d d' x [= <- _].
Qed.
End legal.

(** C15: an account is deleted only by its own confirmed request, past its grace.  Whatever
    requests, confirmations, cancellations, passes of the sweep and foreign writes interleave, in
    any order: (i) each of the handlers and the sweep does to the requests a sequence of legal steps, a confirmation that begins after a moment
    [from] of the server's clock being scheduled no sooner than the grace after it, and the sweep
    executing only what is due at that very moment; (ii) so every erasure row stays in one of its four
    stages, a completed one having been confirmed, scheduled no later than it completed, and naming no user any
    more; a user has at most one live request; a cancelled or completed request never
    leaves that state; and a user who disappeared did so in an execution of their own confirmed
    request, due by then, that left no row naming them; not before the end of the grace since
    [from], unless a request of theirs was confirmed before with an earlier schedule. *)
Theorem erasure_lifecycle `{Ext} `{Hmac} `{AuditJson} `{Nostr} state from :
  let L := erasure_step from (ee_grace_period_hours state) in
  (forall w token nonce k batch, sched_ok L (w_sched w) -> requests_wf (w_db w) ->
     (from <= w_now w + w_skew w)%Z ->
     steps L (w_db w) (w_db (request_erasure state token nonce w).1) /\
     steps L (w_db w) (w_db (confirm_erasure state k token nonce w).1) /\
     steps L (w_db w) (w_db (cancel_erasure state k token nonce w).1) /\
     steps L (w_db w) (w_db (run_erasure_sweep state batch w).1)) /\
  (forall d0 d, requests_wf d0 -> steps L d0 d ->
     requests_wf d /\
     (forall k r, erasure_requests d0 !! k = Some r -> settled r ->
        exists r', erasure_requests d !! k = Some r' /\ er_state r' = er_state r) /\
     (forall u, is_Some (users d0 !! u) -> users d !! u = None ->
        exists t d1 d2, steps L d0 d1 /\ due_erasure u t d1 d2 /\ steps L d2 d /\
          (graced from (ee_grace_period_hours state) u d0 ->
           (from + ee_grace_period_hours state * HOUR <= t)%Z))).
Proof.
  cbv zeta. split.
  - intros w token nonce k batch Hok Hwf Hfrom. split_and!.
    + by eapply leads_request; [|apply surjective_pairing].
    + by eapply confirm_leads; [| |apply surjective_pairing].
    + by eapply leads_cancel; [|apply surjective_pairing].
    + by eapply erasure_sweep_lawful; [| |apply surjective_pairing].
  - intros d0 d. apply request_path.
Qed.

(** * Only the account's own key *)

(** The account [v] of [d0] as it was: its row, its requests, its sessions. *)
Definition undisturbed (v : Uuid) (d0 d : Db) : Prop :=
  users_filed d /\ users d !! v = users d0 !! v /\
  (forall k x, er_user_id x = Some v ->
     erasure_requests d !! k = Some x <-> erasure_requests d0 !! k = Some x) /\
  (forall k s, s_user_id s = v -> sessions d !! k = Some s <-> sessions d0 !! k = Some s).

Section own.
Context `{Ext} `{Hmac} `{AuditJson} `{Nostr} (state : ErasureState).
Context (v : Uuid) (d0 : Db) (r : User) (Hr : users d0 !! v = Some r).
Context (G : (nat -> Uuid) -> Prop).

Abbreviation P := (undisturbed v d0).
Abbreviation T := (triple G (keeps P) P).

Lemma undisturbed_frame d d' :
  P d -> users d' = users d -> erasure_requests d' = erasure_requests d ->
  sessions d' = sessions d -> P d'.
Proof. unfold undisturbed, users_filed. by intros ? -> -> ->. Qed.

(** A request row of another user written. *)
Lemma undisturbed_write (d d' : Db) (k : Uuid) (x : ErasureRequest) :
  P d -> (forall y, erasure_requests d !! k = Some y -> er_user_id y <> Some v) ->
  er_user_id x <> Some v -> d' = d <|erasure_requests := <[k := x]> (erasure_requests d)|> -> P d'.
Proof.
  intros (Hf & Hu & He & Hs) Hold Hx ->. split_and!; [done..| |done]. intros j y Hy. simpl.
  rewrite <- He by done. destruct (decide (k = j)) as [->|N].
  - rewrite lookup_insert_eq. split; [by intros [= ->]|]. intros Hj. by destruct (Hold y Hj).
  - by rewrite lookup_insert_ne.
Qed.

Lemma undisturbed_update k u wh set_ t d d' o :
  u <> v -> (forall x, wh x = true -> er_user_id x = Some u) ->
  (forall x, er_user_id (set_ t x) = er_user_id x) ->
  P d -> update_erasure k wh set_ t d = inr (d', o) -> P d'.
Proof.
  intros Hne Hwh Hset HP E.
  apply update_erasure_inr in E as [[-> _]|(x & Hk & Hw & _ & ->)]; [done|].
  apply Hwh in Hw. eapply undisturbed_write; [exact HP| | |done].
  - intros y Hy. assert (y = x) as -> by congruence. rewrite Hw. congruence.
  - rewrite Hset, Hw. congruence.
Qed.

Lemma triple_aside {A} on_err (s : Stmt A) :
  (forall t d d' x, s t d = inr (d', x) ->
     users d' = users d /\ erasure_requests d' = erasure_requests d /\ sessions d' = sessions d) ->
  T (run_stmt on_err s) (fun _ => True).
Proof.
  intros Hs. apply triple_keeps. intros t d d' x HP E. split; [|done].
  apply Hs in E as (? & ? & ?). by eapply undisturbed_frame.
Qed.

Lemma triple_npub npub :
  u_nostr_pubkey r <> Some npub ->
  T (find_user_by_nostr_pubkey npub) (fun o => forall u, o = Some u -> u_id u <> v).
Proof.
  intros Hno. apply triple_keeps. intros t d d' x HP E. injection E as <- <-. split; [done|].
  intros u Hh Hu. apply head_Some_elem_of, list_elem_of_filter in Hh as [Hp Hin].
  apply elem_of_user_rows in Hin as [k Hk]. destruct HP as (Hf & Hv & _).
  assert (u_id u = k) as Hid by (by apply Hf). rewrite <- Hid, Hu, Hv, Hr in Hk.
  injection Hk as <-. unfold is_npub, sql_eq in Hp. destruct (u_nostr_pubkey r); [|done].
  apply bool_decide_eq_true in Hp. congruence.
Qed.

(** The token is a signed action of the purpose, path and target, by [p]. *)
Definition erasure_signer (token nonce purpose path : string) (target : option (string * string))
    (p : string) : Prop :=
  exists now url, erasure_url state path = Ok url /\
    verify_signed_action token url "POST" purpose nonce
      (descriptor_sha256 (request_descriptor "POST" ("/api/v1" ++ path) "" [])) target None now
      ERASURE_ACTION_MAX_AGE_SECS = Accepted p.

Lemma triple_prove token nonce purpose path target :
  (forall p, erasure_signer token nonce purpose path target p -> u_nostr_pubkey r <> Some p) ->
  T (prove state token nonce purpose path target)
    (fun x => forall u, x.2 = Some u -> u_id u <> v).
Proof.
  intros Hno. unfold prove.
  eapply (triple_bind _ _ _ _ _ (fun u => erasure_url state path = Ok u));
    [apply triple_lift; done|]. intros url Hu.
  eapply triple_bind; [apply triple_utc_now|]. intros now _.
  eapply (triple_bind _ _ _ _ _ (erasure_signer token nonce purpose path target)).
  { apply triple_lift. intros p Hp.
    destruct (verify_signed_action _ _ _ _ _ _ _ _ _ _) eqn:E; [|done|done].
    injection Hp as <-. by exists (timestamp now), url. }
  intros p Hp. eapply (triple_bind _ _ _ _ _ (fun _ => True)).
  { apply triple_aside. intros t d d' x E. unfold sql_consume_challenge in E.
    destruct (challenges d !! nonce); [|by injection E as <- _]. by case_hyp E; injection E as <- _. }
  intros c _. destruct (is_none c); [by apply triple_lift|].
  eapply triple_bind; [by apply triple_npub, Hno|]. intros u Hnot. by apply triple_ret.
Qed.

Lemma triple_active u :
  T (active_erasure_request u) (fun _ => True).
Proof. apply triple_aside. intros t d d' x E. by injection E as <- _. Qed.

Lemma triple_audit action k : T (audit_erasure state action k) (fun _ => True).
Proof.
  unfold audit_erasure. eapply triple_swallow; [|done]. unfold record_admin_audit.
  eapply triple_bind; [apply triple_gen_random_uuid|]. intros a _.
  apply (triple_run_tx _ _ _ _ (fun _ => True)); [apply keeps_stable|].
  intros c now d d' x HP E. injection E as <- _. split; [|done].
  apply (steps_once _ now). intros _. by eapply undisturbed_frame.
Qed.

Lemma triple_db_request u h hours : u <> v -> T (db_request_erasure u h hours) (fun _ => True).
Proof.
  intros Hne. unfold db_request_erasure. eapply triple_bind; [apply triple_active|].
  intros [x|] _; [by apply triple_ret|].
  eapply triple_bind; [apply triple_utc_now|]. intros clock _.
  eapply triple_bind; [apply triple_gen_random_uuid|]. intros k _.
  eapply (triple_bind _ _ _ _ _ (fun _ => True)).
  - apply triple_keeps. intros t d d' x HP E. split; [|done]. unfold insert_erasure_stmt in E.
    destruct (sql_insert_erasure k u h _ t d) as [[]|[d1 y]] eqn:Ei; try done;
      [by injection E as <- _|]. injection E as <- _.
    apply insert_erasure_inr in Ei as (Hk & _ & -> & ->).
    eapply undisturbed_write; [exact HP|by rewrite Hk| |done]. simpl. congruence.
  - intros [x|] _; [by apply triple_ret|].
    eapply triple_bind; [apply triple_active|]. intros w _. by apply triple_lift.
Qed.

(** ** The handlers *)

Lemma triple_signed_request token nonce :
  (forall p, erasure_signer token nonce PURPOSE_REQUEST "/account/erasure" None p ->
     u_nostr_pubkey r <> Some p) ->
  T (request_erasure state token nonce) (fun _ => True).
Proof.
  intros Hno. unfold request_erasure.
  eapply (triple_bind _ _ _ _ _ (fun _ => True)); [by apply triple_lift|]. intros _ _.
  eapply triple_bind; [by apply triple_prove|]. intros [pubkey [u|]] Hu; [|by apply triple_ret].
  eapply triple_bind; [by apply triple_db_request, Hu|]. intros req _.
  eapply triple_bind; [apply triple_audit|]. intros _ _. by apply triple_ret.
Qed.

Lemma triple_lift_user (x : string * option User) e :
  (forall u, x.2 = Some u -> u_id u <> v) ->
  T (lift (ok_or x.2 e)) (fun u => u_id u <> v).
Proof. intros Hx. apply triple_lift. intros u Hu%ok_or_Ok. by apply Hx. Qed.

Lemma triple_own_update k (u : User) wh set_ :
  u_id u <> v -> (forall x, wh x = true -> er_user_id x = Some (u_id u)) ->
  (forall t x, er_user_id (set_ t x) = er_user_id x) ->
  T (query (update_erasure k wh set_)) (fun _ => True).
Proof.
  intros Hne Hwh Hset. apply triple_keeps. intros t d d' o HP E. split; [|done].
  eapply (undisturbed_update k (u_id u)); try done.
Qed.

Lemma triple_signed_confirm k token nonce :
  (forall p, erasure_signer token nonce PURPOSE_CONFIRM
       ("/account/erasure/" ++ uuid_to_string k ++ "/confirm")
       (Some ("erasure_id", uuid_to_string k)) p -> u_nostr_pubkey r <> Some p) ->
  T (confirm_erasure state k token nonce) (fun _ => True).
Proof.
  intros Hno. unfold confirm_erasure.
  eapply (triple_bind _ _ _ _ _ (fun _ => True)); [by apply triple_lift|]. intros _ _.
  eapply triple_bind; [by apply triple_prove|]. intros x Hx.
  eapply triple_bind; [by apply triple_lift_user|]. intros u Hu.
  eapply (triple_bind _ _ _ _ _ (fun _ => True)).
  { unfold confirm_erasure_request. eapply triple_bind; [apply triple_utc_now|]. intros clock _.
    apply (triple_own_update k u); [done| |done]. intros y Hy. by apply confirm_where_true in Hy as [-> _]. }
  intros found _. eapply (triple_bind _ _ _ _ _ (fun _ => True)); [by apply triple_lift|]. intros req _.
  eapply (triple_bind _ _ _ _ _ (fun _ => True)).
  { eapply (triple_swallow _ _ _ _ (fun _ => True)); [|done]. apply triple_keeps.
    intros t d d' n (Hf & Hv & He & Hs) E. injection E as <- _. split; [|done].
    split_and!; [done..|]. intros j s Hsv. simpl. rewrite lookup_fmap, <- Hs by done.
    split; [|intros Hj; rewrite Hj; simpl].
    - intros (y & Hy & Heq)%fmap_Some. destruct (revocable (u_id u) y) eqn:Ey; [|congruence].
      exfalso. unfold revocable in Ey. apply andb_true_iff in Ey as [Ey%bool_decide_eq_true _].
      rewrite Heq in Hsv. simpl in Hsv. congruence.
    - unfold revocable. rewrite bool_decide_eq_false_2 by congruence. done. }
  intros _ _. eapply triple_bind; [apply triple_audit|]. intros _ _. by apply triple_ret.
Qed.

Lemma triple_signed_cancel k token nonce :
  (forall p, erasure_signer token nonce PURPOSE_CANCEL ("/account/erasure/" ++ uuid_to_string k)
       (Some ("erasure_id", uuid_to_string k)) p -> u_nostr_pubkey r <> Some p) ->
  T (cancel_erasure state k token nonce) (fun _ => True).
Proof.
  intros Hno. unfold cancel_erasure.
  eapply (triple_bind _ _ _ _ _ (fun _ => True)); [by apply triple_lift|]. intros _ _.
  eapply triple_bind; [by apply triple_prove|]. intros x Hx.
  eapply triple_bind; [by apply triple_lift_user|]. intros u Hu.
  eapply (triple_bind _ _ _ _ _ (fun _ => True)).
  { apply (triple_own_update k u); [done| |done]. intros y Hy. by apply live_of_true in Hy as [-> _]. }
  intros found _. eapply (triple_bind _ _ _ _ _ (fun _ => True)); [by apply triple_lift|]. intros req _.
  eapply triple_bind; [apply triple_audit|]. intros _ _. by apply triple_ret.
Qed.

Lemma triple_export token nonce :
  (forall p, erasure_signer token nonce PURPOSE_EXPORT "/account/export" None p ->
     u_nostr_pubkey r <> Some p) ->
  T (export_account state token nonce) (fun resp => ex_user_id resp <> v).
Proof.
  intros Hno. unfold export_account.
  eapply (triple_bind _ _ _ _ _ (fun _ => True)); [by apply triple_lift|]. intros _ _.
  eapply triple_bind; [by apply triple_prove|]. intros x Hx.
  eapply triple_bind; [by apply triple_lift_user|]. intros u Hu.
  eapply (triple_bind _ _ _ _ _ (fun _ => True)).
  { apply triple_aside. intros t d d' y E. by injection E as <- _. }
  intros keys _. eapply triple_bind; [apply triple_audit|]. intros _ _. by apply triple_ret.
Qed.
End own.

(** A handler leaves [v] undisturbed, and answers with others. *)
Definition leaves_alone {A} (v : Uuid) (w : World) (m : M A) (others : A -> Prop) : Prop :=
  forall w' o, m w = (w', o) ->
    undisturbed v (w_db w) (w_db w') /\ (forall a, o = Ok a -> others a).

(** An account is erased, spared and exported by its own npub alone.  A
    request, a confirmation, a cancellation or an export that is not a signed
    action of that very purpose, path, nonce and erasure id by the account's npub
    leaves the account's row, its erasure requests and its sessions exactly as
    they were, and never exports it, whatever else runs in between. *)
Theorem erasure_needs_signer `{Ext} `{Hmac} `{AuditJson} `{Nostr} state k token nonce v r w
    (Hfiled : users_filed (w_db w)) (Hr : users (w_db w) !! v = Some r)
    (Hothers : sched_ok (keeps (undisturbed v (w_db w))) (w_sched w)) :
  let other purpose path target := forall p,
    erasure_signer state token nonce purpose path target p -> u_nostr_pubkey r <> Some p in
  let id := uuid_to_string k in
  (other PURPOSE_REQUEST "/account/erasure" None ->
     leaves_alone v w (request_erasure state token nonce) (fun _ => True)) /\
  (other PURPOSE_CONFIRM ("/account/erasure/" ++ id ++ "/confirm") (Some ("erasure_id", id)) ->
     leaves_alone v w (confirm_erasure state k token nonce) (fun _ => True)) /\
  (other PURPOSE_CANCEL ("/account/erasure/" ++ id) (Some ("erasure_id", id)) ->
     leaves_alone v w (cancel_erasure state k token nonce) (fun _ => True)) /\
  (other PURPOSE_EXPORT "/account/export" None ->
     leaves_alone v w (export_account state token nonce) (fun resp => ex_user_id resp <> v)).
Proof.
  cbv zeta. assert (Hstart : undisturbed v (w_db w) (w_db w)) by (split_and!; done).
  assert (Hgo : forall A (m : M A) Q,
    triple (fun _ => True) (keeps (undisturbed v (w_db w))) (undisturbed v (w_db w)) m Q ->
    leaves_alone v w m Q).
  { intros A m Q Hm w' o Hrun.
    destruct (triple_run _ _ _ _ _ _ _ _ Hm I Hothers Hstart Hrun) as (_ & Hu & Ho). by split. }
  split_and!; intros Hno; apply Hgo.
  - by eapply triple_signed_request.
  - by eapply triple_signed_confirm.
  - by eapply triple_signed_cancel.
  - by eapply triple_export.
Qed.

(** * A concrete account *)

Definition demo_leaver : User :=
  mkUser 7 None None (Some (hex_encode demo_key)) None None None None 0 0 None None.
Definition demo_leaving : Db :=
  demo_accounts <|users := {[ 7%N := demo_leaver; 1%N := demo_alice ]}|>
    <|login_events := {[ 5%N := mkLoginEvent 5 (Some 7%N) "btc" "extension" (Some "o") None 0 ]}|>.

(** Requested, then confirmed with a grace of an hour. *)
Definition demo_due : Time := (2 + HOUR)%Z.
Definition demo_confirmed : Db :=
  demo_leaving <|erasure_requests :=
    {[ 3%N := mkErasureRequest 3 (Some 7%N) "h" "confirmed" 1 demo_due (Some 2%Z) None None ]}|>.

(** The hard execution, past the grace. *)
Definition demo_executed : Db :=
  match execute_erasure_tx 9 3 false "s" demo_due demo_due demo_confirmed with
  | inr (d, _) => d
  | inl _ => demo_confirmed
  end.

Lemma demo_confirmed_reached : steps (erasure_step 2 1) demo_leaving demo_confirmed.
Proof.
  destruct (sql_insert_erasure 3 7 "h" 5 1%Z demo_leaving) as [e|[d1 x]] eqn:E1;
    [vm_compute in E1; discriminate|].
  destruct (update_erasure 3 (confirm_where 7) (confirm_set demo_due) 2%Z d1) as [e|[d2 y]] eqn:E2;
    [injection E1 as <- <-; vm_compute in E2; discriminate|].
  assert (Hd2 : demo_confirmed = d2).
  { injection E1 as <- <-. injection E2 as <- _. reflexivity. }
  rewrite Hd2. eapply steps_trans.
  - apply (steps_once _ 1%Z). eapply es_request. exact E1.
  - apply (steps_once _ 2%Z). eapply es_confirm; [|exact E2]. unfold demo_due. lia.
Qed.

Lemma demo_executed_step : erasure_step 2 1 demo_due demo_confirmed demo_executed.
Proof.
  destruct (execute_erasure_tx 9 3 false "s" demo_due demo_due demo_confirmed) as [e|[d x]] eqn:E;
    [vm_compute in E; discriminate|].
  assert (Hd : demo_executed = d) by (unfold demo_executed; by rewrite E). rewrite Hd.
  eapply es_execute; [|exact E]. intros r Hr _. simpl in Hr.
  apply lookup_singleton_Some in Hr as [_ <-]. simpl. lia.
Qed.

Lemma demo_none : requests_wf demo_leaving.
Proof.
  split; [intros k r Hk|intros u k1 k2 r1 r2 H1]; simpl in *; by rewrite lookup_empty in *.
Qed.

Definition demo_erasure_state : ErasureState := mkErasureState true 1 true (Some "https://x/") "s".

Lemma erasure_lifecycle_witness :
  users demo_executed !! 7%N = None /\
  steps (erasure_step 2 1) demo_confirmed
    (w_db (run_erasure_sweep demo_erasure_state 10 (quiet_world demo_confirmed demo_due)).1) /\
  exists t d1 d2, steps (erasure_step 2 1) demo_leaving d1 /\ due_erasure 7 t d1 d2 /\
    steps (erasure_step 2 1) d2 demo_executed /\ (2 + HOUR <= t)%Z.
Proof.
  assert (Hgone : users demo_executed !! 7%N = None) by (vm_compute; reflexivity).
  split; [exact Hgone|]. destruct (erasure_lifecycle demo_erasure_state 2) as [Hrun Hpath].
  change (ee_grace_period_hours demo_erasure_state) with 1%Z in *. split.
  - refine (proj2 (proj2 (proj2 (Hrun (quiet_world demo_confirmed demo_due) "" "" 3%N 10%Z (sched_ok_nil _) _ _)))).
    + exact (steps_stable _ _ _ _ (erasure_step_wf 2 1) demo_confirmed_reached demo_none).
    + unfold demo_due. simpl. unfold HOUR, MINUTE, SECOND. lia.
  - destruct (Hpath demo_leaving demo_executed demo_none) as (_ & _ & H).
    + eapply steps_trans; [exact demo_confirmed_reached|].
      apply (steps_once _ demo_due). exact demo_executed_step.
    + destruct (H 7%N) as (t & d1 & d2 & H1 & H2 & H3 & H4); [by exists demo_leaver|exact Hgone|].
      exists t, d1, d2. split; [exact H1|]. split; [exact H2|]. split; [exact H3|].
      rewrite Z.mul_1_l in H4. apply H4. intros k r Hk. simpl in Hk. by rewrite lookup_empty in Hk.
Defined.

Definition demo_sweep : World * outcome u64 :=
  run_erasure_sweep demo_erasure_state 10 (quiet_world demo_confirmed demo_due).

Lemma demo_confirmed_wf : requests_wf demo_confirmed.
Proof. exact (steps_stable _ _ _ _ (erasure_step_wf 2 1) demo_confirmed_reached demo_none). Qed.

Lemma erasure_sweep_lawful_witness :
  demo_sweep.2 = Ok 1%Z /\ (0 <= 1 <= Z.max 0 10)%Z.
Proof.
  assert (Hok : demo_sweep.2 = Ok 1%Z) by (vm_compute; reflexivity). split; [exact Hok|].
  destruct (erasure_sweep_lawful 2 1 demo_erasure_state 10 (quiet_world demo_confirmed demo_due)
              demo_sweep.1 demo_sweep.2 demo_confirmed_wf (sched_ok_nil _) (surjective_pairing _))
    as (_ & _ & H).
  exact (H 1%Z Hok).
Defined.

Definition demo_early : World * outcome u64 :=
  run_erasure_sweep demo_erasure_state 10 (quiet_world demo_confirmed (demo_due - 1)).

(** Within the grace nothing is selected. *)
Example demo_early_keeps :
  demo_early.2 = Ok 0%Z /\ users (w_db demo_early.1) !! 7%N = Some demo_leaver.
Proof. by vm_compute. Qed.

Lemma execute_erasure_exact_witness :
  exists o, (execute_erasure 3 false "s" (quiet_world demo_confirmed demo_due)).2 = o /\ o = Ok true.
Proof.
  pose proof (execute_erasure_exact 3 false "s" (quiet_world demo_confirmed demo_due) eq_refl) as H.
  cbv zeta in H. destruct (execute_erasure 3 false "s" _) as [w' o].
  change (claimable_by 3 (w_db (quiet_world demo_confirmed demo_due))) with (Some 7%N) in H.
  exists o. split; [reflexivity|]. destruct H as [_ Hyes].
  destruct Hyes as [Ho _]; [vm_compute; reflexivity|exact Ho].
Defined.

(** Alice's request, which the npub of another account tries to cancel. *)
Definition demo_cancel_db : Db :=
  demo_leaving <|erasure_requests :=
      {[ 3%N := mkErasureRequest 3 (Some 1%N) "h" "pending" 0 12 None None None ]}|>
    <|challenges := {[ "n" := mkChallenge "n" PURPOSE_CANCEL None 0 300000000 ]}|>.

Definition demo_cancel_token : string :=
  demo_credential (demo_action_tags "https://x/account/erasure/11" "POST" PURPOSE_CANCEL "n"
     (request_payload "POST" "/api/v1/account/erasure/11" "" []) ++ [["erasure_id"; "11"]])%list 0.

Definition demo_cancel : World * outcome StatusResponse :=
  cancel_erasure demo_erasure_state 3 demo_cancel_token "n" (quiet_world demo_cancel_db 0).

Lemma erasure_needs_signer_witness :
  demo_cancel.2 = Err (NotFound "no live erasure request") /\
  undisturbed 1 demo_cancel_db (w_db demo_cancel.1).
Proof.
  split; [vm_compute; reflexivity|].
  assert (Hfiled : users_filed demo_cancel_db).
  { intros k u Hk. simpl in Hk. apply lookup_insert_Some in Hk as [[<- <-]|[_ Hk]]; [reflexivity|].
    apply lookup_singleton_Some in Hk as [<- <-]. reflexivity. }
  destruct (erasure_needs_signer demo_erasure_state 3 demo_cancel_token "n" 1 demo_alice
    (quiet_world demo_cancel_db 0) Hfiled eq_refl (sched_ok_nil _)) as (_ & _ & Hc & _).
  assert (Hrun : cancel_erasure demo_erasure_state 3 demo_cancel_token "n"
    (quiet_world demo_cancel_db 0) = (demo_cancel.1, demo_cancel.2))
    by (unfold demo_cancel; apply surjective_pairing).
  exact (proj1 (Hc ltac:(intros; discriminate) _ _ Hrun)).
Defined.
