(* ===== verification/UsersApi.v ===== *)
(** [src/api/users.rs] and [src/api/nip05.rs]: the handle and the published keys of a
    user, and the directory that resolves them. *)

From Stdlib Require Import ZArith Lia Ascii String Strings.Byte.
From stdpp Require Import pretty.
From S2P Require Import Prelude RustStr Errors Db Effects TipStatus SocialTips Transactions Pepper AuditChain Demo Auth Config TipApi Slatepack Nip98 Signatures Challenges Events RelayPolicy Pow Registration Premium Users AuthApi Erasure.

Local Open Scope string_scope.

(** * Handles *)

Definition RESERVED_USERNAMES : list string :=
  ["admin"; "administrator"; "root"; "support"; "help"; "smirk"; "smirkcash"; "official";
   "mod"; "moderator"; "system"; "security"; "team"; "staff"; "billing"; "payment";
   "payments"; "wallet"; "info"; "contact"; "abuse"; "noreply"; "api"; "www"; "satoshi"].

(** [validate_username] of [users.rs]: the checks of the function of that name in
    [auth.rs], written out again in the source, and then the reserved names. *)
Definition validate_handle (username : string) : outcome unit :=
  _ ← validate_username username;
  if bool_decide (username ∈ RESERVED_USERNAMES)
  then Err (Conflict "That username is not available")
  else Ok tt.

(** * Rows of keys *)

Definition KEY_TYPE_PRIMARY : string := "primary".
Definition KEY_TYPE_SLATEPACK : string := "slatepack".
Definition KEY_TYPE_ENC : string := "enc".
Definition ALLOWED_KEY_TYPES : list string := [KEY_TYPE_PRIMARY; KEY_TYPE_ENC; KEY_TYPE_SLATEPACK].

Definition is_grin_slatepack_address (value : string) : bool :=
  let v := trim value in starts_with "grin1" v || starts_with "tgrin1" v.

Definition key_type_for (a : AssetType) (public_key : string) : string :=
  match a with
  | Grin => if is_grin_slatepack_address public_key then KEY_TYPE_SLATEPACK else KEY_TYPE_PRIMARY
  | _ => KEY_TYPE_PRIMARY
  end.

(** [ALLOWED_KEY_TYPES.join(sep)]. *)
Fixpoint join (sep : string) (l : list string) : string :=
  match l with
  | [] => ""
  | [x] => x
  | x :: l => x ++ sep ++ join sep l
  end.

Definition address_as_primary : AppError := ValidationError "A Grin slatepack address cannot be registered as the primary key:              primary holds the key that signs, which is a different derivation.".

Definition resolve_key_type (a : AssetType) (public_key : string) (requested : option string)
  : outcome string :=
  match presented requested with
  | None => Ok (key_type_for a public_key)
  | Some requested =>
      resolved ← ok_or (find (fun allowed => eq_ignore_ascii_case allowed requested) ALLOWED_KEY_TYPES)
        (ValidationError ("Unknown key_type: " ++ requested ++ " (expected one of "
                          ++ join ", " ALLOWED_KEY_TYPES ++ ")"));
      if (resolved =? KEY_TYPE_PRIMARY) && is_grin_slatepack_address public_key
      then Err address_as_primary
      else Ok resolved
  end.

Definition key_type_for_tip (a : AssetType) : string :=
  match a with
  | Btc | Ltc => KEY_TYPE_PRIMARY
  | Xmr | Wow => KEY_TYPE_ENC
  | Grin => KEY_TYPE_SLATEPACK
  end.

(** * Requests and responses *)

Record UserKeyInfo := mkUserKeyInfo {
  ki_asset : string; ki_public_key : string; ki_public_spend_key : option string }.

Definition key_info (key : UserKey) : UserKeyInfo :=
  mkUserKeyInfo (asset_str (uk_asset key)) (uk_public_key key) (uk_public_spend_key key).

Record PublicKeysInfo := mkPublicKeysInfo {
  pk_btc : option string; pk_ltc : option string; pk_xmr : option string;
  pk_wow : option string; pk_grin : option string }.

Record LookupUsernameResponse := mkLookupUsernameResponse {
  lu_registered : bool;
  lu_user_id : option string;
  lu_username : option string;
  lu_public_keys : option PublicKeysInfo;
  lu_tip_keys : option PublicKeysInfo;
}.

Record RegisterKeyRequest := mkRegisterKeyRequest {
  rk_asset : string;
  rk_public_key : string;
  rk_public_spend_key : option string;
  rk_key_type : option string;
}.

(** [|asset, key_type| keys.iter().find(..)]. *)
Definition pick (keys : list UserKey) (a : AssetType) (key_type : string) : option string :=
  uk_public_key <$> find (fun k => bool_decide (uk_asset k = a) && (uk_key_type k =? key_type)) keys.

Definition key_for (keys : list UserKey) (a : AssetType) : option string :=
  match a with
  | Grin =>
      match pick keys Grin KEY_TYPE_SLATEPACK with
      | Some k => Some k
      | None =>
          v ← pick keys Grin KEY_TYPE_PRIMARY;
          if is_grin_slatepack_address v then Some v else None
      end
  | _ => pick keys a KEY_TYPE_PRIMARY
  end.

Definition tip_key_for (keys : list UserKey) (a : AssetType) : option string :=
  if key_type_for_tip a =? KEY_TYPE_ENC then pick keys a KEY_TYPE_ENC else key_for keys a.

Definition all_assets (f : AssetType -> option string) : PublicKeysInfo :=
  mkPublicKeysInfo (f Btc) (f Ltc) (f Xmr) (f Wow) (f Grin).

Definition unregistered : LookupUsernameResponse :=
  mkLookupUsernameResponse false None None None None.

(** * Handlers *)

Section handlers.
Context `{Ext} `{Jwt} (sm : SessionManager).

Definition api_set_username (h : HeaderMap) (requested : string) : M string :=
  user_id ← extract_user_id_from_token sm h;
  let username := to_lowercase requested in
  _ ← lift (validate_handle username);
  _ ← set_username user_id username;
  mret username.

Definition api_get_my_username (h : HeaderMap) : M (option string) :=
  user_id ← extract_user_id_from_token sm h;
  known ← get_user_by_id user_id;
  user ← lift (ok_or known (AuthError "Invalid or expired token"));
  mret (u_username user).

Definition api_lookup_username (name : string) : M LookupUsernameResponse :=
  found ← get_user_by_username (to_lowercase name);
  match found with
  | None => mret unregistered
  | Some user =>
      keys ← get_user_keys (u_id user);
      mret (mkLookupUsernameResponse true (Some (uuid_to_string (u_id user))) (u_username user)
              (Some (all_assets (key_for keys))) (Some (all_assets (tip_key_for keys))))
  end.

Definition api_register_key (h : HeaderMap) (req : RegisterKeyRequest) : M UserKeyInfo :=
  user_id ← extract_user_id_from_token sm h;
  a ← lift (parse_asset (rk_asset req));
  key_type ← lift (resolve_key_type a (rk_public_key req) (rk_key_type req));
  key ← upsert_user_key (mkNewUserKey user_id a (rk_public_key req) (rk_public_spend_key req) key_type);
  mret (key_info key).

Definition api_get_user_keys (user_id : Uuid) : M (list UserKeyInfo) :=
  keys ← get_user_keys user_id;
  mret (key_info <$> keys).

Definition api_get_user_key_for_asset (user_id : Uuid) (asset : string) : M UserKeyInfo :=
  a ← lift (parse_asset asset);
  found ← get_user_key user_id a;
  key ← lift (ok_or found (NotFound "User has no key for this asset"));
  mret (key_info key).
End handlers.

(** * The NIP-05 directory *)

Definition INTEROP_RELAY_HINTS : list string := ["wss://relay.damus.io"; "wss://nos.lol"].

(** [if !hints.iter().any(|h| h == x) { hints.push(x) }]. *)
Definition push_new (hints : list string) (x : string) : list string :=
  if bool_decide (x ∈ hints) then hints else (hints ++ [x])%list.

Definition relay_hints (m : MessagingConfig) : list string :=
  let r := ms_relay m in
  let hints := if rl_enabled r && negb (is_empty (trim (rl_advertised_url r)))
               then [rl_advertised_url r] else [] in
  let hints := if ms_nip05_interop_hints m then foldl push_new hints INTEROP_RELAY_HINTS else hints in
  foldl (fun hints extra => let extra := trim extra in
           if is_empty extra then hints else push_new hints extra)
    hints (ms_nip05_extra_relay_hints m).

Record WellKnownResponse := mkWellKnownResponse {
  wk_names : gmap string string; wk_relays : gmap string (list string) }.

Definition well_known_nostr `{Ext} (m : MessagingConfig) (name : option string) : M WellKnownResponse :=
  match name with
  | None => mret (mkWellKnownResponse ∅ ∅)
  | Some raw =>
      let name := to_lowercase raw in
      found ← get_user_by_username name;
      mret match found ≫= u_nostr_pubkey with
           | Some pubkey => mkWellKnownResponse {[ name := pubkey ]} {[ pubkey := relay_hints m ]}
           | None => mkWellKnownResponse ∅ ∅
           end
  end.
