(* ===== verification/UsersSafety.v ===== *)
(** What the users API promises: an edit touches its own account only, a published
    key lands in the row it belongs to, a handle is claimed exactly when it is free,
    and a lookup names the keys of the account that holds the handle. *)

From Stdlib Require Import ZArith Lia Ascii String Strings.Byte.
From stdpp Require Import pretty.
From S2P Require Import Prelude RustStr Errors Db Effects TipStatus SocialTips Transactions Pepper AuditChain Demo Auth Config TipApi Slatepack Nip98 Signatures Challenges Events RelayPolicy Pow Registration Premium Users AuthApi AuthSafety Erasure UsersApi.

Local Open Scope string_scope.

(** * Rows of keys *)

(** The statements that write keys. *)
Inductive key_step `{Ext} `{Hmac} : Rel :=
| ks_upsert k n t d d' x : sql_upsert_user_key k n t d = inr (d', x) -> key_step t d d'
| ks_register pep uid ids inv pay n keys c t d d' u :
    registration_tx pep uid ids inv pay n keys c t d = inr (d', u) -> key_step t d d'
| ks_delete u a t d d' :
    d' = d <|user_keys := delete (u, a, "primary") (user_keys d)|> -> key_step t d d'
| ks_delete_user u t d d' : sql_delete_user u t d = inr (d', tt) -> key_step t d d'
| ks_other t d d' : user_keys d' = user_keys d -> key_step t d d'.

Lemma key_step_filed `{Ext} `{Hmac} : stable key_step keys_filed.
Proof.
  intros t d d' Hs Hf. destruct Hs as [k n t d d' x E|pep uid ids inv pay n keys c t d d' u E
    |u a t d d' ->|u t d d' E|t d d' E].
  - by eapply upsert_key_filed.
  - by eapply registration_filed.
  - intros u' a' ty k. simpl. intros [_ Hl]%lookup_delete_Some. by apply Hf.
  - unfold sql_delete_user in E. case_hyp E; [|done]. injection E as <-.
    intros u' a' ty k. simpl. intros [Hl _]%map_lookup_filter_Some. by apply Hf.
  - by eapply keys_filed_eq.
Qed.

(** * Types of keys *)

(** A type asked for or chosen is one of the three, and an address of Grin never
    takes the place of the key that signs. *)
Lemma resolve_key_type_sound a pk req t :
  resolve_key_type a pk req = Ok t ->
  t ∈ ALLOWED_KEY_TYPES /\
  (t = KEY_TYPE_PRIMARY -> is_grin_slatepack_address pk = true -> a <> Grin) /\
  (presented req = None -> t = key_type_for a pk).
Proof.
  unfold resolve_key_type. destruct (presented req) as [r|].
  - intros Hres. apply bind_Ok in Hres as (x & Hx & Hr). apply ok_or_Ok in Hx. apply find_some in Hx as [Hin _].
    apply list_elem_of_In in Hin. destruct (_ && _) eqn:E; [done|]. injection Hr as <-.
    split_and!; [done| |done]. intros -> Ha. by rewrite Ha, String.eqb_refl in E.
  - intros [= <-]. split_and!; [|intros Ht Ha ->; simpl in Ht; by rewrite Ha in Ht|done].
    unfold key_type_for, ALLOWED_KEY_TYPES. destruct a; try destruct (is_grin_slatepack_address pk); set_solver.
Qed.

Lemma find_unique {A} (p : A -> bool) l x :
  x ∈ l -> p x = true -> (forall y, y ∈ l -> p y = true -> y = x) -> find p l = Some x.
Proof.
  intros Hin Hp Huniq. destruct (find p l) as [y|] eqn:E.
  - apply find_some in E as [Hy%list_elem_of_In Hpy]. by rewrite (Huniq y Hy Hpy).
  - apply list_elem_of_In in Hin. by rewrite (find_none p l E x Hin) in Hp.
Qed.

(** The keys a handler reads of a user. *)
Definition keys_of (d : Db) (u : Uuid) : list UserKey :=
  merge_sort asset_le (snd <$> base.filter (fun kv => uk_user_id kv.2 = u) (map_to_list (user_keys d))).

Lemma elem_of_keys_of d u k :
  keys_filed d -> k ∈ keys_of d u <-> exists a t, user_keys d !! (u, a, t) = Some k.
Proof.
  intros Hf. unfold keys_of. rewrite merge_sort_Permutation, list_elem_of_fmap. split.
  - intros ([[[u' a] t] k'] & -> & [Hu Hin%elem_of_map_to_list]%list_elem_of_filter). simpl in *.
    exists a, t. destruct (Hf _ _ _ _ Hin) as (E & _). congruence.
  - intros (a & t & Hl). exists ((u, a, t), k). split; [done|].
    apply list_elem_of_filter. split; [by apply (Hf _ _ _ _ Hl)|by apply elem_of_map_to_list].
Qed.

(** Picking by type reads the one row of that asset and type. *)
Lemma pick_exact d u a t :
  keys_filed d -> pick (keys_of d u) a t = uk_public_key <$> user_keys d !! (u, a, t).
Proof.
  intros Hf. unfold pick. destruct (user_keys d !! (u, a, t)) as [k|] eqn:Hk.
  - erewrite find_unique; [reflexivity|apply elem_of_keys_of; by eauto| |].
    + apply Hf in Hk as (_ & -> & ->). by rewrite bool_decide_eq_true_2, String.eqb_refl.
    + intros y (a' & t' & Hy)%elem_of_keys_of [Ha Ht%String.eqb_eq]%andb_true_iff; [|done].
      apply bool_decide_eq_true in Ha. destruct (Hf _ _ _ _ Hy) as (_ & E1 & E2). congruence.
  - destruct (find _ _) as [y|] eqn:E; [|done]. exfalso.
    apply find_some in E as [Hin%list_elem_of_In [Ha Ht%String.eqb_eq]%andb_true_iff].
    apply bool_decide_eq_true in Ha. apply elem_of_keys_of in Hin as (a' & t' & Hy); [|done].
    destruct (Hf _ _ _ _ Hy) as (_ & E1 & E2). congruence.
Qed.

(** * Edits *)

Section edits.
Context `{Ext} `{Hmac} `{Jwt} `{Nostr} `{Curves} `{Altcha} `{Net} `{Chrono} (state : AuthState).
Context (v : Uuid) (d0 : Db) (r : User) (Hr : users d0 !! v = Some r).
Context (G : (nat -> Uuid) -> Prop).

Abbreviation sm := (at_sessions state).
Abbreviation P := (untouched v d0).
Abbreviation T := (triple G (keeps P) P).

Lemma triple_other_bearer h : ~ bearer_of state v h -> T (extract_user_id_from_token sm h) (fun u => u <> v).
Proof.
  intros Hno. eapply triple_weaken; [apply triple_bearer|].
  intros u (tok & now & info & Ht & Hi & Hu) ->. apply Hno. by exists tok, now, info.
Qed.

Lemma triple_set_username h name :
  ~ bearer_of state v h -> T (api_set_username sm h name) (fun _ => True).
Proof.
  intros Hno. unfold api_set_username.
  eapply triple_bind; [by apply triple_other_bearer|]. intros u Hu.
  eapply (triple_bind _ _ _ _ _ (fun _ => True)); [by apply triple_lift|]. intros _ _.
  eapply (triple_bind _ _ _ _ _ (fun _ => True)); [|intros; by apply triple_ret].
  apply triple_keeps. intros t d d' x HP E. split; [|done]. unfold fetch_one in E.
  destruct (update_user _ _ t d) as [e|[d1 [u1|]]] eqn:Hup; [done| |done]. injection E as <- _.
  by eapply update_user_untouched in Hup as [HP' _].
Qed.

Lemma triple_register_key h req :
  ~ bearer_of state v h -> T (api_register_key sm h req) (fun _ => True).
Proof.
  intros Hno. unfold api_register_key.
  eapply triple_bind; [by apply triple_other_bearer|]. intros u Hu.
  eapply (triple_bind _ _ _ _ _ (fun _ => True)); [by apply triple_lift|]. intros a _.
  eapply (triple_bind _ _ _ _ _ (fun _ => True)); [by apply triple_lift|]. intros ty _.
  eapply (triple_bind _ _ _ _ _ (fun _ => True)); [|intros; by apply triple_ret].
  unfold upsert_user_key. eapply triple_bind; [apply triple_gen_random_uuid|]. intros k _.
  apply triple_keeps. intros t d d' x HP E. split; [|done].
  exact (upsert_key_untouched v d0 k (mkNewUserKey u a _ _ ty) t d d' x Hu HP E).
Qed.
End edits.

(** An edit of a profile touches its own account only.  Under another account's
    bearer token, whatever interleaves, setting a username and registering a key
    leave the account's row and keys as they were and open no session on it; and the
    one row of keys that a registration writes is the caller's, of the asset named
    and of an allowed type, which for an address of Grin is never the key that
    signs. *)
Theorem profile_edits_own `{Ext} `{Hmac} `{Jwt} `{Nostr} `{Curves} `{Altcha} `{Net} `{Chrono}
    state h name req v r w
    (Hfiled : filed (w_db w)) (Hr : users (w_db w) !! v = Some r)
    (Hothers : sched_ok (keeps (untouched v (w_db w))) (w_sched w)) :
  (~ bearer_of state v h ->
     spares v w (api_set_username (at_sessions state) h name) (fun _ => True) /\
     spares v w (api_register_key (at_sessions state) h req) (fun _ => True)) /\
  (forall w' info, api_register_key (at_sessions state) h req w = (w', Ok info) ->
     exists u a t d key, bearer_of state u h /\ parse_asset (rk_asset req) = Ok a /\
       resolve_key_type a (rk_public_key req) (rk_key_type req) = Ok t /\
       t ∈ ALLOWED_KEY_TYPES /\
       (a = Grin -> is_grin_slatepack_address (rk_public_key req) = true -> t <> KEY_TYPE_PRIMARY) /\
       steps (keeps (untouched v (w_db w))) (w_db w) d /\
       w_db w' = d <|user_keys := <[(u, a, t) := key]> (user_keys d)|> /\
       uk_public_key key = rk_public_key req /\ uk_public_spend_key key = rk_public_spend_key req /\
       info = key_info key).
Proof.
  split.
  - intros Hno. split; eapply spares_triple; try done.
    + by eapply triple_set_username.
    + by eapply triple_register_key.
  - intros w' info Hrun. unfold api_register_key in Hrun.
    apply bind_run_Ok in Hrun as (w1 & u & Hu & Hrun).
    assert (Hstart : untouched v (w_db w) (w_db w)) by (split_and!; eauto).
    pose proof (triple_bearer state v (w_db w) (fun _ => True) h w I Hothers Hstart) as Hb.
    rewrite Hu in Hb. destruct Hb as (Hst1 & Hok1 & _ & _ & _ & Hb). specialize (Hb u eq_refl).
    apply bind_run_Ok in Hrun as (w2 & a & [-> Ha]%lift_run_Ok & Hrun).
    apply bind_run_Ok in Hrun as (w3 & t & [-> Ht]%lift_run_Ok & Hrun).
    apply bind_run_Ok in Hrun as (w4 & key & Hkey & [= <- <-]).
    unfold upsert_user_key, gen_random_uuid in Hkey.
    apply bind_run_Ok in Hkey as (w5 & k & [= <- <-] & Hkey).
    eapply run_stmt_Ok in Hkey as (d & Hst2 & E & _); [|exact Hok1]. simpl in Hst2.
    unfold sql_upsert_user_key in E. case_hyp E; [done|]. injection E as <- Ekey.
    pose proof (resolve_key_type_sound _ _ _ _ Ht) as (Hin & Hg & _).
    exists u, a, t, d, key. subst key. split_and!; try done.
    + intros -> Hp ->. by apply Hg.
    + by eapply steps_trans.
    + by destruct (user_keys d !! _).
    + by destruct (user_keys d !! _).
Qed.

(** * Lookups *)

(** The key of an asset in an answer. *)
Definition key_of (p : PublicKeysInfo) (a : AssetType) : option string :=
  match a with Btc => pk_btc p | Ltc => pk_ltc p | Xmr => pk_xmr p | Wow => pk_wow p | Grin => pk_grin p end.

Lemma key_of_all_assets f a : key_of (all_assets f) a = f a.
Proof. by destruct a. Qed.

(** What a sender should pay, and seal a tip to, from the rows of the account. *)
Definition payable (row : string -> option string) (a : AssetType) : option string :=
  match a with
  | Grin =>
      match row "slatepack", row "primary" with
      | Some k, _ => Some k
      | None, Some k => if is_grin_slatepack_address k then Some k else None
      | None, None => None
      end
  | _ => row "primary"
  end.

Definition sealable (row : string -> option string) (a : AssetType) : option string :=
  match a with Xmr | Wow => row "enc" | _ => payable row a end.

(** Users and keys are filed under their ids. *)
Definition rows_filed (d : Db) : Prop := users_filed d /\ keys_filed d.

(** C10: a lookup names the keys of the account that holds the handle.  Whatever steps [R] the
    others take meanwhile, there is a moment of the run at which the handle was looked up: it
    answers that nobody holds the handle exactly when no account of that moment does, and
    otherwise it is about an account of that moment that does, by its id, and names for each
    asset the row to pay and the row to seal a tip to as they are when it answers: for Monero
    and Wownero the latter is the encryption key or nothing, never the key that identifies the
    wallet. *)
Theorem lookup_exact `{Ext} (R : Rel) name w w' resp
    (Hfiled : rows_filed (w_db w)) (Hstable : stable R rows_filed) (Hothers : sched_ok R (w_sched w))
    (Hrun : api_lookup_username name w = (w', Ok resp)) :
  let holds (u : User) := u_username u = Some (to_lowercase name) in
  exists d, steps R (w_db w) d /\ steps R d (w_db w') /\
    ((forall k u, users d !! k = Some u -> ~ holds u) /\ resp = unregistered \/
     exists k u pub tip, users d !! k = Some u /\ holds u /\
       resp = mkLookupUsernameResponse true (Some (uuid_to_string k))
                (Some (to_lowercase name)) (Some pub) (Some tip) /\
       forall a, let row t := uk_public_key <$> user_keys (w_db w') !! (k, a, t) in
         key_of pub a = payable row a /\ key_of tip a = sealable row a).
Proof.
  intros holds. unfold api_lookup_username in Hrun.
  apply bind_run_Ok in Hrun as (w1 & found & Hf & Hrun). unfold get_user_by_username, query in Hf.
  eapply run_stmt_Ok in Hf as (d1 & Hst1 & E1 & Hok1 & _); [|exact Hothers].
  injection E1 as Ed1 Ef. subst d1. exists (w_db w1).
  assert (Hf1 : rows_filed (w_db w1)) by (by eapply steps_stable).
  destruct (head _) as [[k x]|] eqn:Hh; simpl in Ef; subst found.
  2: { injection Hrun as <- <-. split_and!; [done|apply steps_refl|]. left. split; [|done].
       intros k u Hu Hname. apply head_None in Hh. apply elem_of_map_to_list in Hu.
       apply (not_elem_of_nil (k, u)). rewrite <- Hh, list_elem_of_filter. by split. }
  apply head_Some_elem_of, list_elem_of_filter in Hh as [Hname Hin%elem_of_map_to_list]. simpl in Hname.
  apply bind_run_Ok in Hrun as (w2 & keys & Hq & [= <- <-]). unfold get_user_keys, query in Hq.
  eapply run_stmt_Ok in Hq as (d2 & Hst2 & E2 & _); [|exact Hok1]. injection E2 as Ed2 <-.
  fold (keys_of d2 (u_id x)). subst d2. rewrite (proj1 Hf1 _ _ Hin).
  split_and!; [done..|]. right.
  assert (Hwf : keys_filed (w_db w2)) by (eapply (steps_stable R rows_filed); done).
  exists k, x. do 2 eexists. rewrite Hname. split_and!; [done|done|reflexivity|].
  intros a row. rewrite !key_of_all_assets.
  assert (Hpick : forall a' t, pick (keys_of (w_db w2) k) a' t
            = uk_public_key <$> user_keys (w_db w2) !! (k, a', t)) by (intros; by apply pick_exact).
  unfold key_for, tip_key_for, row. destruct a; simpl; rewrite ?Hpick; try done;
    unfold KEY_TYPE_SLATEPACK, KEY_TYPE_PRIMARY;
    by destruct (user_keys (w_db w2) !! (_, Grin, "slatepack")), (user_keys (w_db w2) !! (_, Grin, "primary")).
Qed.

(** * Handles *)

(** Nobody else holds the handle. *)
Definition handle_free (d : Db) (u : Uuid) (name : string) : Prop :=
  forall k x, users d !! k = Some x -> u_username x = Some name -> k = u.

Lemma taken_by_other_spec d u col s :
  users_filed d ->
  taken_by_other d u col (Some s) = true <->
  exists k x, users d !! k = Some x /\ k <> u /\ col x = Some s.
Proof.
  intros Hf. unfold taken_by_other. rewrite existsb_exists. setoid_rewrite <- list_elem_of_In.
  setoid_rewrite elem_of_user_rows. split.
  - intros (x & [k Hk] & [Hne%negb_true_iff Hs]%andb_true_iff). apply bool_decide_eq_false in Hne.
    exists k, x. rewrite (Hf _ _ Hk) in Hne. split_and!; [done..|]. unfold sql_eq in Hs.
    destruct (col x); [|done]. by apply bool_decide_eq_true in Hs as ->.
  - intros (k & x & Hk & Hne & Hs). exists x. split; [by exists k|]. rewrite (Hf _ _ Hk).
    unfold sql_eq. rewrite Hs, bool_decide_eq_false_2, bool_decide_eq_true_2 by done. done.
Qed.

(** Renaming conflicts on the handle only. *)
Lemma rename_conflict d u x name now :
  users_wf d -> users d !! u = Some x ->
  update_conflict d (set_username_to (Some name) now x) =
  if taken_by_other d u u_username (Some name) then Some (PgUniqueViolation "users_username_key") else None.
Proof.
  intros (Hid & _ & H2 & H3 & H4) Hx. unfold update_conflict.
  change (u_id (set_username_to (Some name) now x)) with (u_id x). rewrite (Hid _ _ Hx). simpl u_username.
  assert (Hno : forall col, unique_column d col -> taken_by_other d u col (col x) = false).
  { intros col Hu. destruct (col x) as [s|] eqn:Ec; [|done].
    apply not_true_iff_false. intros (k & y & Hk & Hne & Hs)%taken_by_other_spec; [|done].
    apply Hne. by eapply Hu. }
  destruct (taken_by_other d u u_username _); [done|].
  change (u_pubkey_hash (set_username_to (Some name) now x)) with (u_pubkey_hash x).
  change (u_nostr_pubkey (set_username_to (Some name) now x)) with (u_nostr_pubkey x).
  change (u_seed_fingerprint (set_username_to (Some name) now x)) with (u_seed_fingerprint x).
  by rewrite !Hno.
Qed.

(** A handle is claimed exactly when it is well formed, not reserved and held by
    nobody else; then the caller's row carries it, lower-cased, and the rest of the
    store is as it was.  A reserved handle and a taken one get the same answer, and
    every refusal leaves the store as it was. *)
Theorem username_claim_exact `{Ext} `{Jwt} sm h requested w w1 u x
    (Hquiet : w_sched w = []) (Hwf : users_wf (w_db w))
    (Hu : extract_user_id_from_token sm h w = (w1, Ok u)) (Hx : users (w_db w) !! u = Some x) :
  let name := to_lowercase requested in let d := w_db w in
  let '(w', o) := api_set_username sm h requested w in
  match validate_username name with
  | Ok _ =>
      ((name ∉ RESERVED_USERNAMES) /\ handle_free (w_db w) u name /\ o = Ok name /\
       w_db w' = d <|users := <[u := set_username_to (Some name) (w_now w) x]> (users d)|>) \/
      (((name ∈ RESERVED_USERNAMES) \/ ~ handle_free (w_db w) u name) /\
       o = Err (Conflict "That username is not available") /\ w_db w' = w_db w)
  | Err e => o = Err e /\ w_db w' = w_db w
  | Panic => False
  end.
Proof.
  intros name d. subst d. destruct (read_only_run _ _ _ _ (read_only_bearer sm h) Hquiet Hu) as (Ed & Eq & En).
  unfold api_set_username. unfold mbind at 1, M_bind at 1. rewrite Hu. fold name. unfold validate_handle.
  assert (Hnp : validate_username name <> Panic)
    by (unfold validate_username; by repeat case_match).
  destruct (validate_username name) as [[]|e|]; [|done|done].
  unfold mbind at 1, M_bind at 1, lift. simpl.
  destruct (bool_decide_reflect (name ∈ RESERVED_USERNAMES)) as [Hin|Hin]; [right; auto|].
  unfold mbind, M_bind, set_username, update_username. rewrite run_stmt_quiet by done.
  unfold fetch_one, update_user. rewrite Ed, Hx, En, (rename_conflict _ u) by done.
  destruct (taken_by_other _ u u_username _) eqn:Et.
  - right. split_and!; [|done|done]. right. intros Hfree.
    apply (taken_by_other_spec _ u) in Et as (k & y & Hk & Hne & Hy); [|exact (proj1 Hwf)]. by apply Hne, (Hfree k y Hk Hy).
  - left. split_and!; [done| |done|done]. intros k y Hk Hy. apply dec_stable. intros Hne.
    apply not_true_iff_false in Et. apply Et. apply taken_by_other_spec; [exact (proj1 Hwf)|]. by exists k, y.
Qed.

(** * Concrete requests *)

(** User 1 is signed in; user 2 is Alice, with a Monero identity key and a Grin
    address. *)
Definition demo_profiles : Db :=
  demo_session_db
    <|users := {[ 1%N := mkUser 1 None None None None None None None 0 0 None None;
                  2%N := mkUser 2 (Some "alice") None None None None None None 0 0 None None ]}|>
    <|user_keys := {[ (2%N, Xmr, "primary") := mkUserKey 11 2 Xmr "spend" None "primary" 0 0;
                      (2%N, Grin, "slatepack") := mkUserKey 12 2 Grin "grin1abc" None "slatepack" 0 0 ]}|>.

Lemma demo_profiles_keys : keys_filed demo_profiles.
Proof.
  intros u a t k Hk. simpl in Hk. apply lookup_insert_Some in Hk as [[[= <- <- <-] <-]|[_ Hk]]; [done|].
  by apply lookup_singleton_Some in Hk as [[= <- <- <-] <-].
Qed.

Lemma demo_profiles_wf : users_wf demo_profiles.
Proof.
  assert (Hall : forall k u, users demo_profiles !! k = Some u ->
    (k = 1%N /\ u = mkUser 1 None None None None None None None 0 0 None None) \/
    (k = 2%N /\ u = mkUser 2 (Some "alice") None None None None None None 0 0 None None)).
  { intros k u Hk. simpl in Hk. apply lookup_insert_Some in Hk as [[<- <-]|[_ Hk]]; [by left|].
    apply lookup_singleton_Some in Hk as [<- <-]. by right. }
  split; [by intros k u [[-> ->]|[-> ->]]%Hall|].
  split_and!; intros k1 k2 u1 u2 s [[-> ->]|[-> ->]]%Hall [[-> ->]|[-> ->]]%Hall; simpl; congruence.
Qed.

Lemma demo_bearer u : bearer_of demo_auth_state u demo_headers -> u = 1%N.
Proof.
  intros (tok & now & info & Ht & Hi & <-). change (at_sessions demo_auth_state) with demo_sm in Hi.
  assert (tok = access_token demo_pair) as -> by (vm_compute in Ht; by injection Ht as <-).
  assert (Et : access_token demo_pair = demo_token ("secret",
    inl (uuid_to_string 1%N, ACCESS_AUD, 0%Z, timestamp (24 * HOUR), "web",
         Some (uuid_to_string 7%N)))) by reflexivity.
  unfold verify_access_token in Hi. cbn [jwt_decode_access demo_jwt] in Hi. rewrite Et, demo_parse_token in Hi.
  destruct (_ && _); [|discriminate Hi]. vm_compute in Hi. by injection Hi as <-.
Qed.

Definition demo_enc : RegisterKeyRequest := mkRegisterKeyRequest "xmr" "opaque" None (Some " ENC ").

#[local] Abbreviation demo_edit := (api_register_key demo_sm demo_headers demo_enc (quiet_world demo_profiles HOUR)).

Lemma profile_edits_own_witness :
  is_ok demo_edit.2 = true /\ untouched 2 demo_profiles (w_db demo_edit.1).
Proof.
  split; [by vm_compute|].
  destruct (profile_edits_own demo_auth_state demo_headers "bob" demo_enc 2
    (mkUser 2 (Some "alice") None None None None None None 0 0 None None)
    (quiet_world demo_profiles HOUR)) as [H _].
  - refine (conj (proj1 demo_profiles_wf) (conj demo_profiles_keys _)).
    intros k s Hk. simpl in Hk. apply lookup_singleton_Some in Hk as [<- <-]. reflexivity.
  - reflexivity.
  - apply sched_ok_nil.
  - destruct H as [_ H]; [by intros ?%demo_bearer|].
    destruct demo_edit as [w' o] eqn:E. by destruct (H w' o E).
Defined.

Lemma demo_uuid u u' : uuid_to_string u = uuid_to_string u' -> u = u'.
Proof. intros H%(f_equal uuid_parse_str). rewrite !uuid_round_trip in H. congruence. Qed.

#[local] Abbreviation demo_lookup := (api_lookup_username "Alice" (quiet_world demo_profiles HOUR)).

(** Alice can be paid in Monero, and in Grin; a tip can be sealed to her in Grin
    only. *)
Lemma lookup_exact_witness :
  exists pub tip resp, demo_lookup.2 = Ok resp /\ lu_public_keys resp = Some pub /\
    lu_tip_keys resp = Some tip /\ key_of pub Xmr = Some "spend" /\ key_of tip Xmr = None /\
    key_of tip Grin = Some "grin1abc".
Proof.
  destruct demo_lookup as [w' [resp|e|]] eqn:E; [|by vm_compute in E|by vm_compute in E].
  assert (Hdb : w_db w' = demo_profiles) by (vm_compute in E; by injection E as <- _).
  assert (Hr : lu_registered resp = true) by (vm_compute in E; by injection E as _ <-).
  assert (Hid : lu_user_id resp = Some (uuid_to_string 2)) by (vm_compute in E; by injection E as _ <-).
  assert (Hf : rows_filed demo_profiles) by exact (conj (proj1 demo_profiles_wf) demo_profiles_keys).
  assert (Hs : stable (fun _ d d' => d = d') rows_filed) by (by intros ? d ? ->).
  destruct (lookup_exact (fun _ d d' => d = d') "Alice" (quiet_world demo_profiles HOUR) w' resp
    Hf Hs (sched_ok_nil _) E) as (d & _ & _ & [[_ ->]|(k & u & pub & tip & _ & _ & -> & Hrows)]); [done|].
  exists pub, tip. eexists. split_and!; [reflexivity..| | |].
  all: assert (k = 2%N) as Hu by (by apply demo_uuid; injection Hid).
  all: rewrite Hdb, Hu in Hrows.
  - by destruct (Hrows Xmr) as [-> _].
  - by destruct (Hrows Xmr) as [_ ->].
  - by destruct (Hrows Grin) as [_ ->].
Defined.

#[local] Abbreviation demo_claim name := (api_set_username demo_sm demo_headers name (quiet_world demo_profiles HOUR)).

(** "Bob" is free, "alice" is taken and "admin" reserved. *)
Lemma username_claim_exact_witness :
  (demo_claim "Bob").2 = Ok "bob" /\
  (demo_claim "alice").2 = Err (Conflict "That username is not available") /\
  (demo_claim "admin").2 = Err (Conflict "That username is not available").
Proof.
  pose proof (fun name w1 Hu => username_claim_exact demo_sm demo_headers name
    (quiet_world demo_profiles HOUR) w1 1%N (mkUser 1 None None None None None None None 0 0 None None)
    eq_refl demo_profiles_wf Hu eq_refl) as H.
  assert (exists w1, extract_user_id_from_token demo_sm demo_headers (quiet_world demo_profiles HOUR) = (w1, Ok 1%N))
    as [w1 Hu] by (eexists; vm_compute; reflexivity).
  split_and!.
  - specialize (H "Bob" w1 Hu). cbv zeta in H. destruct (demo_claim "Bob") as [w' o].
    simpl in H |- *. destruct H as [(_ & _ & -> & _)|([H|H] & _)]; [done| |].
    + exfalso. revert H. apply (bool_decide_eq_false_1 ("bob" ∈ RESERVED_USERNAMES)). by vm_compute.
    + exfalso. apply H. intros k x Hk Hx. simpl in Hk.
      apply lookup_insert_Some in Hk as [[<- <-]|[_ Hk]]; [done|].
      by apply lookup_singleton_Some in Hk as [<- <-].
  - specialize (H "alice" w1 Hu). cbv zeta in H. destruct (demo_claim "alice") as [w' o].
    simpl in H |- *. destruct H as [(_ & H & _)|(_ & -> & _)]; [|done].
    exfalso. by apply (N.neq_succ_diag_l 1), (H 2%N _ eq_refl eq_refl).
  - specialize (H "admin" w1 Hu). cbv zeta in H. destruct (demo_claim "admin") as [w' o].
    simpl in H |- *. destruct H as [(H & _)|(_ & -> & _)]; [|done].
    exfalso. apply H, (bool_decide_eq_true_1 _). by vm_compute.
Defined.

(** Registration does not know the reserved names. *)
Lemma reserved_names_register :
  validate_username "admin" = Ok tt /\ is_ok (validate_handle "admin") = false.
Proof. by vm_compute. Qed.

(** An address in capitals, as bech32 allows, is taken for a key that signs. *)
Lemma capital_address_is_primary :
  key_type_for Grin "GRIN1QQV9HLXPAZDVS0ZT" = KEY_TYPE_PRIMARY.
Proof. by vm_compute. Qed.
