(* ===== verification/Website.v ===== *)
(** Sign-in on a website: [src/api/website.rs], the challenges of
    [src/core/session.rs] and the directory of the legacy instance,
    [src/infra/legacy_directory.rs]. *)

From Stdlib Require Import ZArith Lia Ascii String Strings.Byte.
From stdpp Require Import pretty.
From S2P Require Import Prelude RustStr Errors Db Effects TipStatus SocialTips Transactions Pepper AuditChain Demo Auth Config TipApi Slatepack Nip98 Signatures Challenges Events RelayPolicy Pow Registration Premium Users AuthApi Erasure UsersApi.

Local Open Scope string_scope.

(** * Challenges *)

(** [WebChallenge::new]. *)
Definition web_challenge_new (origin nonce : string) (now : Time) : WebChallenge :=
  mkWebChallenge nonce now origin (now + 5 * MINUTE)%Z.

Definition is_expired (now : Time) (c : WebChallenge) : bool := (wc_expires_at c <? now)%Z.

Definition message (c : WebChallenge) : string :=
  "Smirk Authentication Challenge" ++ LF ++ "Nonce: " ++ wc_nonce c ++ LF ++ "Origin: "
  ++ wc_origin c ++ LF ++ "Timestamp: " ++ pretty (timestamp (wc_created_at c)).

(** The accesses to [state.web_challenges], each under its lock. *)
Definition store_web_challenge (id : string) (c : WebChallenge) (_ : Time) (d : Db) : Db * unit :=
  (d <|web_challenges := <[id := c]> (web_challenges d)|>, tt).

Definition take_web_challenge (id : string) (_ : Time) (d : Db) : Db * option WebChallenge :=
  (d <|web_challenges := delete id (web_challenges d)|>, web_challenges d !! id).

(** The periodic [retain] of [main.rs]. *)
Definition purge_web_challenges (clock : Time) (_ : Time) (d : Db) : Db * unit :=
  (d <|web_challenges := filter (fun kv => is_expired clock kv.2 = false) (web_challenges d)|>, tt).

(** * The legacy directory *)

Record LegacyKey := mkLegacyKey {
  lk_asset : string; lk_public_key : string; lk_public_spend_key : option string }.

Record LegacyIdentity := mkLegacyIdentity {
  li_username : option string; li_keys : list LegacyKey }.

(** The two tables read, as the legacy instance has them. *)
Record LegacyTables := mkLegacyTables {
  lt_users : list (Uuid * option string);
  lt_keys : list (Uuid * LegacyKey);
}.

(** A pool answers a query on the tables of that moment, or fails. *)
Definition LegacyPool : Type := nat -> PgError + LegacyTables.
Definition LegacyDirectory : Type := option LegacyPool.

Definition legacy_disabled : LegacyDirectory := None.

Definition legacy_connect (open : string -> option LegacyPool) (database_url : option string)
  : LegacyDirectory :=
  match database_url with
  | Some url => if is_empty (trim url) then legacy_disabled else open url
  | None => legacy_disabled
  end.

Definition legacy_is_enabled (l : LegacyDirectory) : bool := is_some l.

Definition legacy_key_for (i : LegacyIdentity) (asset : string) : option LegacyKey :=
  find (fun k => lk_asset k =? asset) (li_keys i).

Definition legacy_query `{Ext} {A} (pool : LegacyPool) (f : LegacyTables -> A) : M A :=
  upstream (fun n => match pool n with
                     | inr t => Ok (f t)
                     | inl e => Err (app_error_from_sqlx e)
                     end).

(** [FROM users u JOIN user_keys k ON k.user_id = u.id WHERE ..]: the first row. *)
Definition legacy_owner (asset public_key : string) (t : LegacyTables) : option (Uuid * option string) :=
  head (u ← lt_users t;
        k ← lt_keys t;
        if bool_decide (k.1 = u.1) && (lk_asset k.2 =? asset) && (lk_public_key k.2 =? public_key)
        then [u] else []).

Definition find_by_proven_key `{Ext} (l : LegacyDirectory) (asset public_key : string)
  : M (option LegacyIdentity) :=
  match l with
  | None => mret None
  | Some pool =>
      owner ← legacy_query pool (legacy_owner asset public_key);
      match owner with
      | None => mret None
      | Some (user_id, username) =>
          keys ← legacy_query pool (fun t =>
            snd <$> base.filter (fun k => k.1 = user_id) (lt_keys t));
          mret (Some (mkLegacyIdentity username keys))
      end
  end.

(** * Requests and responses *)

Record WebsiteChallengeResponse := mkWebsiteChallengeResponse {
  wr_challenge : string; wr_challenge_id : string; wr_expires_at : string }.

Record AssetSignature := mkAssetSignature {
  as_asset : string; as_signature : string; as_public_key : string }.

Record WebsiteVerifyRequest := mkWebsiteVerifyRequest {
  wv_challenge_id : string; wv_signature : AssetSignature }.

Definition bad_challenge : AppError := AuthError "Invalid or expired challenge".
Definition unmatched_key : AppError := AuthError "We could not match this coin's key to a Smirk account on this server. Unlock your Smirk wallet once so it publishes its keys here, then try again with this or another coin.".

Definition verify_asset_signature `{Ext} `{Nostr} `{Curves} (a : AssetType)
    (msg signature public_key : string) : outcome unit :=
  match a with
  | Btc | Ltc => verify_bitcoin_signature msg signature public_key
  | Xmr | Wow | Grin => verify_ed25519_signature msg signature public_key
  end.

(** * Handlers *)

Section handlers.
Context `{Ext} `{Hmac} `{Jwt} `{Nostr} `{Curves} `{Altcha} `{Net} `{Chrono}.
Context (state : AuthState) (legacy : LegacyDirectory).

Abbreviation pep := (at_identity_pepper state).

Definition website_challenge (origin : string) : M WebsiteChallengeResponse :=
  if is_empty origin || negb (starts_with "http" origin)
  then fail (ValidationError "Invalid origin")
  else
    now ← utc_now;
    r ← gen_random_uuid;
    let challenge := web_challenge_new origin (nonce_of r) now in
    let challenge_id := wc_nonce challenge in
    _ ← in_memory (store_web_challenge challenge_id challenge);
    mret (mkWebsiteChallengeResponse (message challenge) challenge_id
            (to_rfc3339 (wc_expires_at challenge))).

Definition import_key (user : User) (key : LegacyKey) : M unit :=
  match parse_asset (lk_asset key) with
  | Ok key_asset =>
      held ← get_user_by_asset_pubkey key_asset (lk_public_key key);
      match held with
      | Some _ => mret tt
      | None =>
          _ ← upsert_user_key (mkNewUserKey (u_id user) key_asset (lk_public_key key)
                (lk_public_spend_key key) (key_type_for key_asset (lk_public_key key)));
          mret tt
      end
  | _ => mret tt
  end.

Definition import_legacy_identity (legacy_id : LegacyIdentity) : M User :=
  username ← (match to_lowercase <$> li_username legacy_id with
              | Some name =>
                  held ← get_user_by_username name;
                  mret (if held is Some _ then None else Some name)
              | None => mret None
              end);
  user ← create_user pep (mkNewUser username None None None None None None);
  _ ← for_each (import_key user) (li_keys legacy_id);
  mret user.

(** The account of a key whose control was proven. *)
Definition resolve_proven_key (a : AssetType) (public_key : string) : M (option User) :=
  found ← get_user_by_asset_pubkey a public_key;
  match found with
  | Some user => mret (Some user)
  | None =>
      if bool_decide (a = Btc) then get_user_by_pubkey_hash pep (hash_public_key public_key)
      else mret None
  end.

Definition website_verify (peer : IpAddr) (h : HeaderMap) (req : WebsiteVerifyRequest)
  : M AuthResponse :=
  let ip := ip_to_string (client_ip (at_trusted_proxies state) h peer) in
  found ← in_memory (take_web_challenge (wv_challenge_id req));
  challenge ← lift (ok_or found bad_challenge);
  now ← utc_now;
  if is_expired now challenge then fail bad_challenge
  else
    let sg := wv_signature req in
    a ← lift (parse_asset (as_asset sg));
    _ ← lift (verify_asset_signature a (message challenge) (as_signature sg) (as_public_key sg));
    resolved ← resolve_proven_key a (as_public_key sg);
    resolved ← (match resolved with
                | Some user => mret (Some user)
                | None =>
                    known ← find_by_proven_key legacy (asset_str a) (as_public_key sg);
                    match known with
                    | Some owner => Some <$> import_legacy_identity owner
                    | None => mret None
                    end
                end);
    user ← lift (ok_or resolved unmatched_key);
    pair ← issue_session state (u_id user) Web "Web Browser";
    _ ← swallow (record_login_event (Some (u_id user)) (asset_str a) (platform_as_str Web)
          (Some (wc_origin challenge)) (Some ip));
    _ ← swallow (update_user_last_seen (u_id user));
    mret (mkAuthResponse (access_token pair) (refresh_token pair) (expires_in pair)
            (user_info user) false).
End handlers.
