(* ===== verification/WebsiteSafety.v ===== *)
(** What website sign-in promises: a challenge is honoured once and only while it is
    fresh, and an account is entered only with a signature of a key of its own.  A
    key is "of an account" when the account says so: the concrete runs show what that
    does to the sign-in of somebody else, and what an import leaves half done. *)

From Stdlib Require Import ZArith Lia Ascii String Strings.Byte.
From stdpp Require Import pretty.
From S2P Require Import Prelude RustStr Errors Db Effects TipStatus SocialTips Transactions Pepper AuditChain Demo Auth Config TipApi Slatepack Nip98 Signatures Challenges Events RelayPolicy Pow Registration Premium Users AuthApi AuthSafety Erasure UsersApi UsersSafety Website.

Local Open Scope string_scope.

(** * Challenges *)

Definition web_gone (id : string) (d : Db) : Prop := web_challenges d !! id = None.

(** The steps of the system on the challenges, the nonce [id] not being drawn again
    (32 random bytes). *)
Inductive web_step (id : string) : Rel :=
| wb_store n c t d d' :
    n <> id -> store_web_challenge n c t d = (d', tt) -> web_step id t d d'
| wb_take n t d d' r : take_web_challenge n t d = (d', r) -> web_step id t d d'
| wb_purge clock t d d' : purge_web_challenges clock t d = (d', tt) -> web_step id t d d'
| wb_other t d d' : web_challenges d' = web_challenges d -> web_step id t d d'.

Lemma web_gone_stable id : stable (web_step id) (web_gone id).
Proof.
  intros t d d' Hs Hg. unfold web_gone in *. destruct Hs as
    [n c t d d' Hne [= <-]|n t d d' r [= <- _]|clock t d d' [= <-]|t d d' ->]; simpl.
  - by rewrite lookup_insert_ne.
  - destruct (decide (n = id)) as [->|?]; [apply lookup_delete_eq|by rewrite lookup_delete_ne].
  - by apply map_lookup_filter_None_2; left.
  - done.
Qed.

(** A step on the shared memory, under the interference of a schedule. *)
Lemma in_memory_run {R} Rl (f : Time -> Db -> Db * R) w :
  sched_ok Rl (w_sched w) ->
  exists w' d r, in_memory f w = (w', Ok r) /\ steps Rl (w_db w) d /\ f (w_now w') d = (w_db w', r) /\
    sched_ok Rl (w_sched w') /\ (w_now w <= w_now w')%Z /\ w_skew w' = w_skew w.
Proof.
  intros Hok. unfold in_memory, next_slot. unfold sched_ok in *.
  destruct (w_sched w) as [|sl rest] eqn:Es; simpl.
  - destruct (f _ _) as [d r] eqn:E. eexists _, (w_db w), r.
    split_and!; [reflexivity|apply steps_refl|exact E|simpl; by rewrite Es|simpl; lia|done].
  - apply Forall_cons in Hok as [Hsl Hrest]. destruct (f _ _) as [d r] eqn:E.
    eexists _, (sl_env sl (w_now w + Z.of_N (sl_dt sl))%Z (w_db w)), r.
    split_and!; [reflexivity|apply Hsl|exact E|exact Hrest|simpl; lia|done].
Qed.

(** A statement that leaves the challenges alone. *)
Definition off_challenges {A} (s : Stmt A) : Prop :=
  forall t d d' x, s t d = inr (d', x) -> web_challenges d' = web_challenges d.

Section single_use.
Context `{Ext} `{Hmac} `{Jwt} `{Nostr} `{Curves} `{Altcha} `{Net} `{Chrono}.
Context (state : AuthState) (legacy : LegacyDirectory) (id : string).
Context (G : (nat -> Uuid) -> Prop).

Abbreviation T := (triple G (web_step id) (web_gone id)).

Lemma triple_off {A} on_err (s : Stmt A) : off_challenges s -> T (run_stmt on_err s) (fun _ => True).
Proof.
  intros Hs. apply triple_stmt; [apply web_gone_stable|]. intros t d d' x _ E. split; [|done].
  apply (steps_once _ t). apply wb_other. by eapply Hs.
Qed.

Lemma off_read {A} (f : Time -> Db -> A) : off_challenges (fun t d => inr (d, f t d)).
Proof. by intros t d d' x [= <- _]. Qed.

Lemma off_insert_user k n : off_challenges (sql_insert_user k n).
Proof. intros t d d' x E. unfold sql_insert_user in E. case_hyp E; [done|]. by injection E as <- _. Qed.

Lemma off_upsert_key k n : off_challenges (sql_upsert_user_key k n).
Proof. intros t d d' x E. unfold sql_upsert_user_key in E. case_hyp E; [done|]. by injection E as <- _. Qed.

Lemma off_create_session n : off_challenges (sql_create_session n).
Proof.
  intros t d d' x E. unfold sql_create_session in E. repeat (case_hyp E; try done). by injection E as <- _.
Qed.

Lemma off_login_event k u a p o : off_challenges (sql_record_login_event k u a p o).
Proof.
  intros t d d' x E. unfold sql_record_login_event in E. repeat (case_hyp E; [done|]). by injection E as <- _.
Qed.

Lemma off_last_seen u : off_challenges (sql_update_last_seen u).
Proof. by intros t d d' x [= <- _]. Qed.

Lemma triple_any_lift {A} (o : outcome A) : T (lift o) (fun _ => True).
Proof. by apply triple_lift. Qed.

Lemma triple_import legacy_id : T (import_legacy_identity state legacy_id) (fun _ => True).
Proof.
  unfold import_legacy_identity. eapply (triple_bind _ _ _ _ _ (fun _ => True)).
  { destruct (to_lowercase <$> li_username legacy_id); [|by apply triple_ret].
    eapply triple_bind; [apply triple_off, off_read|]. intros. by apply triple_ret. }
  intros name _. eapply (triple_bind _ _ _ _ _ (fun _ => True)).
  { unfold create_user. eapply triple_bind; [apply triple_gen_random_uuid|]. intros k _.
    apply triple_off, off_insert_user. }
  intros user _. eapply (triple_bind _ _ _ _ _ (fun _ => True)); [|intros; by apply triple_ret].
  induction (li_keys legacy_id) as [|key keys IH]; simpl; [by apply triple_ret|].
  eapply (triple_bind _ _ _ _ _ (fun _ => True)); [|intros; apply IH].
  unfold import_key. destruct (parse_asset _); try (by apply triple_ret).
  eapply triple_bind; [apply triple_off, off_read|]. intros [|] _; [by apply triple_ret|].
  eapply (triple_bind _ _ _ _ _ (fun _ => True)); [|intros; by apply triple_ret].
  unfold upsert_user_key. eapply triple_bind; [apply triple_gen_random_uuid|]. intros k _.
  apply triple_off, off_upsert_key.
Qed.

Lemma triple_resolve_gone a pk : T (resolve_proven_key state a pk) (fun _ => True).
Proof.
  unfold resolve_proven_key. eapply triple_bind; [apply triple_off, off_read|]. intros [u|] _; [by apply triple_ret|].
  destruct (bool_decide _); [apply triple_off, off_read|by apply triple_ret].
Qed.

Lemma triple_legacy_gone a pk : T (find_by_proven_key legacy a pk) (fun _ => True).
Proof.
  unfold find_by_proven_key, legacy_query. destruct legacy as [pool|]; [|by apply triple_ret].
  eapply triple_bind; [apply triple_upstream_any|]. intros [[u name]|] _; [|by apply triple_ret].
  eapply triple_bind; [apply triple_upstream_any|]. intros keys _. by apply triple_ret.
Qed.

Lemma triple_session_gone u p dev : T (issue_session state u p dev) (fun _ => True).
Proof.
  unfold issue_session.
  eapply triple_bind; [apply triple_gen_random_uuid|]. intros sid _.
  eapply triple_bind; [apply triple_utc_now|]. intros now _.
  eapply triple_bind; [apply triple_any_lift|]. intros pair _.
  eapply triple_bind; [apply triple_utc_now|]. intros ex _.
  eapply (triple_bind _ _ _ _ _ (fun _ => True)); [|intros; by apply triple_ret].
  apply triple_off, off_create_session.
Qed.
End single_use.

Section verify.
Context `{Ext} `{Hmac} `{Jwt} `{Nostr} `{Curves} `{Altcha} `{Net} `{Chrono}.
Context (state : AuthState) (legacy : LegacyDirectory).

(** The key of an asset signed a text: ECDSA over Bitcoin's double hash of it, or
    Ed25519. *)
Definition key_signed (a : AssetType) (msg signature public_key : string) : Prop :=
  exists pk sg, hex_decode public_key = Some pk /\
  match a with
  | Btc | Ltc => exists key s, key_from_sec1 pk = Some key /\ base64_decode signature = Some sg /\
      length sg = 65 /\ ecdsa_sig_from_slice (drop 1 sg) = Some s /\
      verify_prehash key (bitcoin_message_hash msg) s = true
  | Xmr | Wow | Grin => exists key, length pk = 32 /\ ed25519_key pk = Some key /\
      hex_decode signature = Some sg /\ length sg = 64 /\
      ed25519_verify key (list_byte_of_string msg) sg = true
  end.

Lemma verified_bitcoin msg sg pk : verify_bitcoin_signature msg sg pk = Ok tt -> key_signed Btc msg sg pk.
Proof.
  intros Hv%(proj1 (bitcoin_signature_exact _ _ _)).
  destruct Hv as (kb & key & sb & s & Hkb & ?). exists kb, sb. split; [done|]. by exists key, s.
Qed.

Lemma verified_ed25519 msg sg pk : verify_ed25519_signature msg sg pk = Ok tt -> key_signed Xmr msg sg pk.
Proof.
  unfold verify_ed25519_signature. intros Hv.
  apply bind_Ok in Hv as (pkb & Hpk%ok_or_Ok & Hv). apply bind_Ok in Hv as (pka & Hpka%ok_or_Ok & Hv).
  apply bind_Ok in Hv as (key & Hkey%ok_or_Ok & Hv). apply bind_Ok in Hv as (sgb & Hsg%ok_or_Ok & Hv).
  apply bind_Ok in Hv as (sga & Hsga%ok_or_Ok & Hv). case_hyp Hv; [|done].
  case_hyp Hpka; [|done]. injection Hpka as <-. case_hyp Hsga; [|done]. injection Hsga as <-.
  exists pkb, sgb. split; [done|]. exists key. split_and!; try done; by apply Nat.eqb_eq.
Qed.

Lemma verified_signed a msg sg pk : verify_asset_signature a msg sg pk = Ok tt -> key_signed a msg sg pk.
Proof. destruct a; first [apply verified_bitcoin|apply verified_ed25519]. Qed.

(** What the request signs. *)
Definition signs (req : WebsiteVerifyRequest) (c : WebChallenge) (a : AssetType) : Prop :=
  let sg := wv_signature req in
  parse_asset (as_asset sg) = Ok a /\ key_signed a (message c) (as_signature sg) (as_public_key sg).

(** A verification after its challenge was taken. *)
Definition verify_taken (peer : IpAddr) (h : HeaderMap) (req : WebsiteVerifyRequest)
    (c : WebChallenge) : M AuthResponse :=
  now ← utc_now;
  if is_expired now c then fail bad_challenge
  else
    let sg := wv_signature req in
    a ← lift (parse_asset (as_asset sg));
    _ ← lift (verify_asset_signature a (message c) (as_signature sg) (as_public_key sg));
    resolved ← resolve_proven_key state a (as_public_key sg);
    resolved ← (match resolved with
                | Some user => mret (Some user)
                | None =>
                    known ← find_by_proven_key legacy (asset_str a) (as_public_key sg);
                    match known with
                    | Some owner => Some <$> import_legacy_identity state owner
                    | None => mret None
                    end
                end);
    user ← lift (ok_or resolved unmatched_key);
    pair ← issue_session state (u_id user) Web "Web Browser";
    _ ← swallow (record_login_event (Some (u_id user)) (asset_str a) (platform_as_str Web)
          (Some (wc_origin c))
          (Some (ip_to_string (client_ip (at_trusted_proxies state) h peer))));
    _ ← swallow (update_user_last_seen (u_id user));
    mret (mkAuthResponse (access_token pair) (refresh_token pair) (expires_in pair)
            (user_info user) false).

Lemma website_verify_run peer h req w w1 found :
  in_memory (take_web_challenge (wv_challenge_id req)) w = (w1, Ok found) ->
  website_verify state legacy peer h req w =
  match found with Some c => verify_taken peer h req c w1 | None => (w1, Err bad_challenge) end.
Proof.
  intros Htake. unfold website_verify. unfold mbind at 1, M_bind at 1. rewrite Htake.
  by destruct found.
Qed.

Lemma verify_taken_signed peer h req c w w' resp :
  verify_taken peer h req c w = (w', Ok resp) ->
  (w_now w + w_skew w <= wc_expires_at c)%Z /\ exists a, signs req c a.
Proof.
  unfold verify_taken. intros Hrun. apply bind_run_Ok in Hrun as (w1 & now & [= <- <-] & Hrun).
  unfold is_expired in Hrun. destruct (Z.ltb_spec (wc_expires_at c) (w_now w + w_skew w)); [done|].
  split; [lia|]. cbv zeta in Hrun.
  apply bind_run_Ok in Hrun as (w2 & a & [-> Ha]%lift_run_Ok & Hrun).
  apply bind_run_Ok in Hrun as (w3 & [] & [-> Hs%verified_signed]%lift_run_Ok & _). by exists a.
Qed.

Lemma triple_taken_gone id G peer h req c :
  triple G (web_step id) (web_gone id) (verify_taken peer h req c) (fun _ => True).
Proof.
  unfold verify_taken. eapply triple_bind; [apply triple_utc_now|]. intros now _.
  destruct (is_expired now c); [apply triple_any_lift|]. cbv zeta.
  eapply triple_bind; [apply triple_any_lift|]. intros a _.
  eapply triple_bind; [apply triple_any_lift|]. intros [] _.
  eapply triple_bind; [apply triple_resolve_gone|]. intros resolved _.
  eapply (triple_bind _ _ _ _ _ (fun _ => True)).
  { destruct resolved; [by apply triple_ret|].
    eapply triple_bind; [apply triple_legacy_gone|]. intros [owner|] _; [|by apply triple_ret].
    eapply triple_fmap; [apply triple_import|done]. }
  intros o _. eapply triple_bind; [apply triple_any_lift|]. intros user _.
  eapply triple_bind; [apply triple_session_gone|]. intros pair _.
  eapply (triple_bind _ _ _ _ _ (fun _ => True)).
  { eapply (triple_swallow _ _ _ _ _ (fun _ => True)); [|done]. unfold record_login_event.
    eapply triple_bind; [apply triple_gen_random_uuid|]. intros k _. apply triple_off, off_login_event. }
  intros _ _. eapply (triple_bind _ _ _ _ _ (fun _ => True)).
  { eapply (triple_swallow _ _ _ _ _ (fun _ => True)); [|done]. apply triple_off, off_last_seen. }
  intros _ _. by apply triple_ret.
Qed.
End verify.

(** C9: a challenge is honoured once, and while it is fresh.  However the requests
    overlap, a verification leaves no challenge under the id it named; one that finds
    none is refused; and one that answers took the challenge that was stored there,
    before its expiry, with a valid signature over its message
    under the key given.  So of all verifications that name one challenge at most one
    is answered, and a failed one uses it up. *)
Theorem web_challenge_single_use `{Ext} `{Hmac} `{Jwt} `{Nostr} `{Curves} `{Altcha} `{Net} `{Chrono}
    state legacy peer h req w w' o
    (Hothers : sched_ok (web_step (wv_challenge_id req)) (w_sched w))
    (Hrun : website_verify state legacy peer h req w = (w', o)) :
  let id := wv_challenge_id req in
  web_gone id (w_db w') /\
  (web_gone id (w_db w) -> o = Err bad_challenge) /\
  (forall resp, o = Ok resp -> exists d c, steps (web_step id) (w_db w) d /\
     web_challenges d !! id = Some c /\ (w_now w + w_skew w <= wc_expires_at c)%Z /\
     exists a, signs req c a).
Proof.
  intros id. destruct (in_memory_run (web_step id) (take_web_challenge id) w Hothers)
    as (w1 & d & found & Htake & Hst & Hd & Hok & Hle & Hskew).
  rewrite (website_verify_run _ _ _ _ _ _ _ _ Htake) in Hrun. injection Hd as Hd <-.
  assert (Hg1 : web_gone id (w_db w1)) by (unfold web_gone; rewrite <- Hd; apply lookup_delete_eq).
  destruct (web_challenges d !! id) as [c|] eqn:Ec.
  - split_and!.
    + by destruct (triple_run _ _ _ _ _ _ _ _ (triple_taken_gone state legacy id (fun _ => True) peer h req c)
        I Hok Hg1 Hrun) as (_ & Hg & _).
    + intros Hg0. pose proof (steps_stable _ _ _ _ (web_gone_stable id) Hst Hg0) as Hg.
      unfold web_gone in Hg. congruence.
    + intros resp ->. apply verify_taken_signed in Hrun as [Hle' Hs]. exists d, c.
      split_and!; [done|done|lia|done].
  - injection Hrun as <- <-. split_and!; [done|done|by intros resp [=]].
Qed.

(** * Whose account *)

Section accounts.
Context `{Ext} `{Hmac} `{Jwt} `{Nostr} `{Curves} `{Altcha} `{Net} `{Chrono}.
Context (state : AuthState) (legacy : LegacyDirectory).
Context (v : Uuid) (d0 : Db) (r : User) (Hr : users d0 !! v = Some r).
Context (G : (nat -> Uuid) -> Prop).

Abbreviation P := (untouched v d0).
Abbreviation T := (triple G (keeps P) P).

(** The account is found under a key: it signs with it, or, for Bitcoin, it is
    known by its hash. *)
Definition known_by (a : AssetType) (pk : string) : Prop :=
  (exists k, user_keys d0 !! (v, a, "primary") = Some k /\ uk_public_key k = pk) \/
  (a = Btc /\ u_pubkey_hash r = Some (pepper (at_identity_pepper state) "pubkey_hash" (hash_public_key pk))).

Lemma triple_by_asset_key a pk :
  T (get_user_by_asset_pubkey a pk)
    (fun o => forall u, o = Some u -> u_id u = v ->
       exists k, user_keys d0 !! (v, a, "primary") = Some k /\ uk_public_key k = pk).
Proof.
  apply triple_keeps. intros t d d' x HP E. injection E as <- <-. split; [done|].
  intros u Hu Hid. apply head_Some_elem_of, list_elem_of_omap in Hu as (k & Hin & Hk).
  case_hyp Hk; [|done]. apply andb_true_iff in E as [[Ha Hp%String.eqb_eq]%andb_true_iff Hty%String.eqb_eq].
  apply bool_decide_eq_true in Ha. apply list_elem_of_fmap in Hin as ([[[x a'] t'] k'] & -> & Hin).
  apply elem_of_map_to_list in Hin. simpl in *.
  destruct (untouched_keys v d0 d HP _ _ _ _ Hin) as (Ex & Ea & Et).
  pose proof (untouched_id v d0 d _ u HP Hk) as Hu'. 
  exists k'. split; [|done]. destruct HP as (_ & _ & Hkeys & _). rewrite <- Hkeys. congruence.
Qed.

Lemma triple_resolve a pk :
  ~ known_by a pk -> T (resolve_proven_key state a pk) (fun o => forall u, o = Some u -> u_id u <> v).
Proof.
  intros Hno. unfold resolve_proven_key. eapply triple_bind; [apply triple_by_asset_key|]. intros [u|] Hu.
  - apply triple_ret. intros ? [= <-] Hid. apply Hno. left. by apply (Hu u).
  - destruct (bool_decide_reflect (a = Btc)) as [->|]; [|by apply triple_ret].
    eapply triple_by_pubkey_hash; [exact Hr|]. intros Heq. apply Hno. by right.
Qed.

Lemma triple_import_other legacy_id : T (import_legacy_identity state legacy_id) (fun u => u_id u <> v).
Proof.
  unfold import_legacy_identity. eapply (triple_bind _ _ _ _ _ (fun _ => True)).
  { destruct (to_lowercase <$> li_username legacy_id); [|by apply triple_ret].
    eapply (triple_bind _ _ _ _ _ (fun _ => True)); [|intros; by apply triple_ret].
    apply triple_elsewhere. intros t d d' x E. by injection E as <- _. }
  intros name _. eapply triple_bind; [by eapply triple_create_user|]. intros user Hne.
  eapply (triple_bind _ _ _ _ _ (fun _ => True)); [|intros; by apply triple_ret].
  induction (li_keys legacy_id) as [|key keys IH]; simpl; [by apply triple_ret|].
  eapply (triple_bind _ _ _ _ _ (fun _ => True)); [|intros; apply IH].
  unfold import_key. destruct (parse_asset _); try (by apply triple_ret).
  eapply triple_bind; [apply triple_by_asset_key|]. intros [|] _; [by apply triple_ret|].
  eapply (triple_bind _ _ _ _ _ (fun _ => True)); [|intros; by apply triple_ret].
  unfold upsert_user_key. eapply triple_bind; [apply triple_gen_random_uuid|]. intros k _.
  apply triple_keeps. intros t d d' x HP E. split; [|done].
  exact (upsert_key_untouched v d0 k (mkNewUserKey (u_id user) _ _ _ _) t d d' x Hne HP E).
Qed.

Lemma triple_legacy_other a pk : T (find_by_proven_key legacy a pk) (fun _ => True).
Proof.
  unfold find_by_proven_key, legacy_query. destruct legacy as [pool|]; [|by apply triple_ret].
  eapply triple_bind; [apply triple_upstream_any|]. intros [[u name]|] _; [|by apply triple_ret].
  eapply triple_bind; [apply triple_upstream_any|]. intros keys _. by apply triple_ret.
Qed.

Lemma triple_taken peer h req c :
  (forall a, signs req c a -> ~ known_by a (as_public_key (wv_signature req))) ->
  T (verify_taken state legacy peer h req c) (not_theirs v).
Proof.
  intros Hno. unfold verify_taken. eapply triple_bind; [apply triple_utc_now|]. intros now _.
  destruct (is_expired now c); [by apply triple_lift|]. cbv zeta.
  eapply (triple_bind _ _ _ _ _ (fun a => parse_asset _ = Ok a)); [by apply triple_lift|]. intros a Ha.
  eapply (triple_bind _ _ _ _ _ (fun _ => signs req c a)).
  { apply triple_lift. intros [] Hs%verified_signed. by split. }
  intros [] Hs%Hno. eapply triple_bind; [by apply triple_resolve|]. intros resolved Hres.
  eapply (triple_bind _ _ _ _ _ (fun o => forall u, o = Some u -> u_id u <> v)).
  { destruct resolved; [by apply triple_ret|].
    eapply triple_bind; [apply triple_legacy_other|]. intros [owner|] _; [|by apply triple_ret].
    eapply triple_fmap; [apply triple_import_other|]. by intros u Hu ? [= <-]. }
  intros o Ho. eapply (triple_bind _ _ _ _ _ (fun u => u_id u <> v)).
  { apply triple_lift. intros u ->%ok_or_Ok. by apply Ho. }
  intros user Hne. eapply triple_bind; [by apply triple_issue_session|]. intros pair _.
  eapply (triple_bind _ _ _ _ _ (fun _ => True)).
  { eapply triple_swallow; [apply triple_login_event|done]. }
  intros _ _. eapply (triple_bind _ _ _ _ _ (fun _ => True)).
  { eapply triple_swallow; [by apply triple_last_seen|done]. }
  intros _ _. by apply triple_ret.
Qed.
End accounts.

(** C8: an account is entered only with a signature by a key the account is known by.
    Unless the request signs the message of some challenge with a key that the
    account holds in the row of that asset (or, for Bitcoin, that hashes to its
    identity), verifying it leaves the account's row and keys as they were, opens,
    changes and ends no session of it and does not answer with it, whatever runs in
    between that itself leaves the account alone, and whatever the legacy instance
    knows. *)
Theorem website_login_needs_key `{Ext} `{Hmac} `{Jwt} `{Nostr} `{Curves} `{Altcha} `{Net} `{Chrono}
    state legacy peer h req v r w
    (Hfiled : filed (w_db w)) (Hr : users (w_db w) !! v = Some r)
    (Hothers : sched_ok (keeps (untouched v (w_db w))) (w_sched w))
    (Hno : forall c a, signs req c a -> ~ known_by state v (w_db w) r a (as_public_key (wv_signature req))) :
  spares v w (website_verify state legacy peer h req) (not_theirs v).
Proof.
  eapply spares_triple; try done. unfold website_verify.
  eapply (triple_bind _ _ _ _ _ (fun _ => True)).
  { apply (triple_keeps_memory _ _ _ (fun _ => True)). intros t d d' x HP [= <- _]. split; [|done].
    by eapply untouched_frame. }
  intros found _. eapply (triple_bind _ _ _ _ _ (fun _ => True)); [by apply triple_lift|].
  intros c _. apply (triple_taken state legacy v (w_db w) r Hr). intros a. apply Hno.
Qed.

(** * Concrete sign-ins *)

Definition demo_web_challenge : WebChallenge := web_challenge_new "https://smirk.cash" "n0" 0.

(** The key of somebody, and what it signs. *)
Definition demo_key (name : string) : list byte := take 32 (list_byte_of_string name ++ replicate 32 x00)%list.
Definition demo_pk (name : string) : string := hex_encode (demo_key name).
Definition demo_ed25519 (name msg : string) : string :=
  hex_encode (take 64 (demo_key name ++ rev (list_byte_of_string msg) ++ replicate 64 x00))%list.

(** Somebody signs the stored challenge with the Monero key. *)
Definition demo_signin (name : string) : WebsiteVerifyRequest :=
  mkWebsiteVerifyRequest "n0" (mkAssetSignature "xmr"
    (demo_ed25519 name (message demo_web_challenge)) (demo_pk name)).

(** User 1 is Mallory, signed in elsewhere; user 3 is Alice; both have registered
    their Monero keys, and a challenge waits. *)
Definition demo_site : Db :=
  demo_session_db
    <|users := {[ 1%N := mkUser 1 None None None None None None None 0 0 None None;
                  3%N := mkUser 3 (Some "alice") None None None None None None 0 0 None None ]}|>
    <|user_keys := {[ (1%N, Xmr, "primary") := mkUserKey 10 1 Xmr (demo_pk "mallory") None "primary" 0 0;
                      (3%N, Xmr, "primary") := mkUserKey 11 3 Xmr (demo_pk "alice") None "primary" 0 0 ]}|>
    <|web_challenges := {[ "n0" := demo_web_challenge ]}|>.

#[local] Abbreviation sign_in l d name :=
  (website_verify demo_auth_state l "1.2.3.4" [] (demo_signin name) (quiet_world d MINUTE)).

Definition answered_id (o : outcome AuthResponse) : option Uuid :=
  match o with Ok r => Some (ui_id (ar_user r)) | _ => None end.

(** Each is answered with their own account. *)
Example demo_sign_ins :
  answered_id (sign_in legacy_disabled demo_site "alice").2 = Some 3%N /\
  answered_id (sign_in legacy_disabled demo_site "mallory").2 = Some 1%N /\
  answered_id (sign_in legacy_disabled demo_site "bob").2 = None.
Proof. by vm_compute. Qed.

Lemma demo_site_filed : filed demo_site.
Proof.
  split_and!.
  - intros k u Hk. simpl in Hk. apply lookup_insert_Some in Hk as [[<- <-]|[_ Hk]]; [done|].
    by apply lookup_singleton_Some in Hk as [<- <-].
  - intros u a t k Hk. simpl in Hk. apply lookup_insert_Some in Hk as [[[= <- <- <-] <-]|[_ Hk]]; [done|].
    by apply lookup_singleton_Some in Hk as [[= <- <- <-] <-].
  - intros k s Hk. simpl in Hk. by apply lookup_singleton_Some in Hk as [<- <-].
Qed.

#[local] Abbreviation mallory_in := (sign_in legacy_disabled demo_site "mallory").

(** Mallory's sign-in leaves Alice alone. *)
Lemma website_login_needs_key_witness :
  answered_id mallory_in.2 = Some 1%N /\ untouched 3 demo_site (w_db mallory_in.1).
Proof.
  split; [by vm_compute|].
  destruct mallory_in as [w' o] eqn:E.
  refine (proj1 (website_login_needs_key demo_auth_state legacy_disabled "1.2.3.4" [] (demo_signin "mallory")
    3 (mkUser 3 (Some "alice") None None None None None None 0 0 None None) (quiet_world demo_site MINUTE)
    demo_site_filed eq_refl (sched_ok_nil _) _ w' o E)).
  intros c a _ [(k & Hk & Hpk)|[_ Hh]]; [|discriminate].
  simpl in Hk. apply lookup_insert_Some in Hk as [[Hk _]|[_ Hk]]; [discriminate Hk|].
  apply lookup_singleton_Some in Hk as [_ <-].
  assert (bool_decide (demo_pk "alice" = demo_pk "mallory") = true) as Hb by (by apply bool_decide_eq_true_2).
  vm_compute in Hb. discriminate.
Defined.

(** The same request again finds no challenge. *)
Lemma web_challenge_single_use_witness :
  exists w1 o1, mallory_in = (w1, o1) /\ answered_id o1 = Some 1%N /\
    (sign_in legacy_disabled (w_db w1) "mallory").2 = Err bad_challenge.
Proof.
  assert (Ha : answered_id mallory_in.2 = Some 1%N) by (by vm_compute).
  destruct mallory_in as [w1 o1] eqn:E1. exists w1, o1. split; [done|]. split; [exact Ha|].
  destruct (web_challenge_single_use demo_auth_state legacy_disabled "1.2.3.4" [] (demo_signin "mallory")
    (quiet_world demo_site MINUTE) w1 o1 (sched_ok_nil _) E1) as [Hg _].
  destruct (sign_in legacy_disabled (w_db w1) "mallory") as [w' o] eqn:E.
  destruct (web_challenge_single_use demo_auth_state legacy_disabled "1.2.3.4" [] (demo_signin "mallory")
    (quiet_world (w_db w1) MINUTE) w' o (sched_ok_nil _) E) as (_ & H & _).
  exact (H Hg).
Defined.

(** A key is registered without any proof, and by any number of accounts.  Mallory
    publishes Alice's key as her own; which of the two rows a lookup meets first the
    table does not say, and when it is Mallory's, Alice signs in to Mallory's
    account. *)
Definition demo_claimed : Db :=
  w_db (api_register_key demo_sm demo_headers (mkRegisterKeyRequest "xmr" (demo_pk "alice") None None)
          (quiet_world demo_site HOUR)).1.
Example unproven_key_misleads_sign_in :
  answered_id (sign_in legacy_disabled demo_claimed "alice").2 = Some 1%N.
Proof. by vm_compute. Qed.

(** The legacy instance knows Bob.  His import creates the account and then writes
    its keys one by one: when the database fails in between, the account that holds
    the handle has no key, no later sign-in finds it, and the next one makes another
    account without the handle. *)
Definition demo_legacy : LegacyDirectory :=
  Some (fun _ => inr (mkLegacyTables [(5%N, Some "Bob")] [(5%N, mkLegacyKey "xmr" (demo_pk "bob") None)])).

Definition failing : Slot := mkSlot (fun _ d => d) 0 (FailBefore (PgOther "connection lost")).

Definition demo_half_import : World * outcome AuthResponse :=
  let w := quiet_world demo_site MINUTE in
  website_verify demo_auth_state demo_legacy "1.2.3.4" [] (demo_signin "bob")
    (w <|w_sched := [quiet_slot; quiet_slot; quiet_slot; quiet_slot; failing]|>).

Definition demo_second_import : World * outcome AuthResponse :=
  let d := w_db demo_half_import.1 in
  website_verify demo_auth_state demo_legacy "1.2.3.4" [] (demo_signin "bob")
    (mkWorld (d <|web_challenges := {[ "n0" := demo_web_challenge ]}|>) MINUTE 0 [] 50
       (w_rand demo_half_import.1) []).

Example half_import_strands_handle :
  is_ok demo_half_import.2 = false /\
  ("bob" ∈ omap u_username (user_rows (w_db demo_half_import.1))) /\
  match demo_second_import.2 with Ok r => ui_username (ar_user r) = None | _ => False end.
Proof.
  split_and!; [by vm_compute| |by vm_compute].
  apply (bool_decide_eq_true_1 _). by vm_compute.
Qed.
