(* ===== verification/Grin.v ===== *)
(** [src/infra/grin/]: the client of a Grin wallet and node.

    The owner API of the wallet is an encrypted channel over a session; the cached
    token and the session are threaded through the calls as [GrinState], a call of
    another task between two of its accesses is not modelled.  HTTP, the text of JSON,
    the curve, AES-256-GCM and base64 are parameters. *)

From Stdlib Require Import ZArith Lia Ascii String Strings.Byte.
From stdpp Require Import pretty.
From S2P Require Import Prelude RustStr Json Errors Db Effects LwsTypes Http Chains Config Lws Electrum Demo Nip98 Signatures.

Local Open Scope string_scope.

Definition MAX_GRIN_BODY_BYTES : Z := (16 * 1024 * 1024)%Z.

(** * Third-party code *)

(** Requests at the [n]-th call (a URL, a user and password, a body), texts to and
    from JSON, the ephemeral secret of the [n]-th call by what it gives (its
    compressed public key, the shared x-coordinate with a key), AES-256-GCM (key,
    nonce, data) and standard base64. *)
Class GrinNet := {
  grin_post : string -> option (string * string) -> Value -> nat -> HttpReply;
  grin_get : string -> nat -> HttpReply;
  grin_from_str : string -> option Value;
  grin_to_string : Value -> string;
  grin_from_utf8 : list Byte.byte -> option string;
  ephemeral_public : nat -> list Byte.byte;   (* compressed, of the [n]-th secret *)
  ecdh_shared : nat -> list Byte.byte -> option (list Byte.byte);
  aes_encrypt : list Byte.byte -> list Byte.byte -> list Byte.byte -> option (list Byte.byte);
  aes_decrypt : list Byte.byte -> list Byte.byte -> list Byte.byte -> option (list Byte.byte);
  base64_encode_std : list Byte.byte -> string;
  base64_decode_std : string -> option (list Byte.byte);
}.

Class GrinNetLaws (N : GrinNet) := {
  aes_round_trip : forall key nonce plain sealed, aes_encrypt key nonce plain = Some sealed ->
    aes_decrypt key nonce sealed = Some plain;
  base64_std_round_trip : forall bs, base64_decode_std (base64_encode_std bs) = Some bs;
  text_is_utf8 : forall v, grin_from_utf8 (list_byte_of_string (grin_to_string v)) = Some (grin_to_string v);
}.

(** * Envelopes *)

Definition grin_request (method : string) (params : list Value) : Value :=
  obj [("jsonrpc", VString "2.0"); ("id", VNumber 1); ("method", VString method); ("params", VArray params)].

(** [enum GrinOk]: the tag is the key of an object of one entry. *)
Inductive GrinOk (A : Type) := GOk (a : A) | GErr (v : Value).
Arguments GOk {A}.
Arguments GErr {A}.

Definition read_grin_ok {A} (read : Reader A) : Reader (GrinOk A) := fun v =>
  match v with
  | VObject [(k, v)] =>
      if k =? "Ok" then GOk <$> read v else if k =? "Err" then Some (GErr v) else None
  | _ => None
  end.

Record RpcEnvelope (A : Type) := mkRpcEnvelope {
  ev_result : option (GrinOk A);
  ev_error : option i64;
}.
Arguments mkRpcEnvelope {A}.
Arguments ev_result {A}.
Arguments ev_error {A}.

Definition read_envelope {A} (read : Reader A) : Reader (RpcEnvelope A) :=
  r_struct ["result"; "error"] (fun kvs =>
    r ← optional (read_grin_ok read) "result" kvs;
    e ← optional (r_struct ["code"] (required (dec c_i64) "code")) "error" kvs;
    Some (mkRpcEnvelope r e)).

Definition envelope_into_result {A} (env : RpcEnvelope A) (what : string) : outcome A :=
  match ev_error env with
  | Some code => Err (NodeError (what ++ " error " ++ pretty code))
  | None =>
      match ev_result env with
      | Some (GOk a) => Ok a
      | Some (GErr _) => Err (NodeError (what ++ " returned an error"))
      | None => Err (NodeError (what ++ ": empty result"))
      end
  end.

(** * The secure channel *)

Record SecureSession := mkSecureSession { shared_key : list Byte.byte; nonce_counter : u64 }.
Record EncryptedParts := mkEncryptedParts { ep_nonce : string; ep_body_enc : string }.

Definition read_encrypted_parts : Reader EncryptedParts :=
  r_struct ["nonce"; "body_enc"] (fun kvs =>
    n ← required r_string "nonce" kvs; b ← required r_string "body_enc" kvs;
    Some (mkEncryptedParts n b)).

(** [x.to_be_bytes()] of a [u64]. *)
Definition be_bytes (x : u64) : list Byte.byte := rev (le_bytes 8 x).

Definition nonce_bytes (counter : u64) : list Byte.byte := (repeat Byte.x00 4 ++ be_bytes counter)%list.

Definition u64_checked_succ (x : u64) : option u64 := u64_checked_add x 1.

Section channel.
Context `{Ext} `{Http} `{GrinNet}.

(** The session always comes back, its counter advanced unless it is exhausted. *)
Definition encrypt (session : SecureSession) (plaintext : string) : SecureSession * outcome EncryptedParts :=
  let counter := nonce_counter session in
  match u64_checked_succ counter with
  | None => (session, Err (NodeError "grin nonce counter exhausted"))
  | Some next =>
      (mkSecureSession (shared_key session) next,
       ciphertext ← ok_or (aes_encrypt (shared_key session) (nonce_bytes counter) (list_byte_of_string plaintext))
         (NodeError "grin: encryption failed");
       Ok (mkEncryptedParts (hex_encode (nonce_bytes counter)) (base64_encode_std ciphertext)))
  end.

Definition decrypt (session : SecureSession) (nonce_hex body_enc_b64 : string) : outcome string :=
  nonce ← ok_or (hex_decode nonce_hex) (NodeError "grin: invalid nonce hex");
  if negb (length nonce =? 12)%nat then Err (NodeError "grin: invalid nonce length")
  else
    ciphertext ← ok_or (base64_decode_std body_enc_b64) (NodeError "grin: invalid ciphertext");
    plaintext ← ok_or (aes_decrypt (shared_key session) nonce ciphertext) (NodeError "grin: decryption failed");
    ok_or (grin_from_utf8 plaintext) (NodeError "grin: non-UTF8 response").

(** * The client *)

(** [struct GrinClient], without what its locks guard. *)
Record GrinWallet := mkGrinWallet {
  gw_owner_api_url : string;
  gw_owner_api_secret : string;
  gw_wallet_password : string;
  gw_node_api_url : string;
  gw_node_api_user : string;
  gw_node_api_pass : string;
  gw_node_foreign_api_url : string;
  gw_node_foreign_api_secret : string;
}.

Definition grin_new (cfg : GrinConfig) : GrinWallet :=
  mkGrinWallet (gn_owner_api_url cfg) (gn_owner_api_secret cfg) (gn_wallet_password cfg)
    (gn_node_api_url cfg) (gn_node_api_user cfg) (gn_node_api_pass cfg)
    (gn_node_foreign_api_url cfg) (gn_node_foreign_api_secret cfg).

Record GrinState := mkGrinState {
  gs_session_token : option string;
  gs_secure_session : option SecureSession;
}.
#[export] Instance eta_GrinState : Eta GrinState := fun s =>
  mkGrinState (gs_session_token s) (gs_secure_session s).

(** A call with the client's state, which an error leaves as it is by then. *)
Definition G (A : Type) : Type := GrinState -> M (GrinState * (A + AppError)).

Definition g_ret {A} (a : A) : G A := fun st => mret (st, inl a).
Definition g_bind {A B} (m : G A) (f : A -> G B) : G B := fun st w =>
  match m st w with
  | (w', Ok (st', inl a)) => f a st' w'
  | (w', Ok (st', inr e)) => (w', Ok (st', inr e))
  | (w', Err e) => (w', Err e)
  | (w', Panic) => (w', Panic)
  end.

#[local] Notation "x <-- m ;; k" := (g_bind m (fun x => k)) (at level 100, m at next level, right associativity).

Definition g_fail {A} (e : AppError) : G A := fun st => mret (st, inr e).
(** A step that leaves the state alone. *)
Definition g_run {A} (m : M A) : G A := fun st => r ← attempt m; mret (st, r).
Definition g_lift {A} (o : outcome A) : G A := g_run (lift o).
Definition g_attempt {A} (m : G A) : G (A + AppError) := fun st =>
  r ← m st; mret (r.1, inl r.2).

(** ** Posting *)

Definition grin_read_capped (chunks : list (option (list Byte.byte))) : outcome (list Byte.byte) :=
  read_capped_with (NodeError "grin read failed") (NodeError "grin response exceeded size limit")
    MAX_GRIN_BODY_BYTES [] chunks.

Definition capped (reply : HttpReply) : outcome (list Byte.byte) :=
  match reply with
  | HttpFailed e => Err (NodeError ("grin request failed: " ++ e))
  | HttpResponse status chunks =>
      if is_success status then grin_read_capped chunks
      else Err (NodeError ("grin HTTP " ++ pretty status))
  end.

Definition post_capped (url : string) (auth : option (string * string)) (body : Value)
  : M (list Byte.byte) := fun w =>
  (w <|w_calls := S (w_calls w)|> <|w_sent := (w_sent w ++ [(url, body)])%list|>,
   capped (grin_post url auth body (w_calls w))).

(** ** The node *)

Definition node_result {A} (read : Reader A) (bytes : list Byte.byte) : outcome A :=
  env ← ok_or (json_from_slice bytes ≫= read_envelope read) (NodeError "grin node: invalid response");
  envelope_into_result env "grin node".

Definition node_result_optional {A} (read : Reader A) (bytes : list Byte.byte) : outcome (option A) :=
  env ← ok_or (json_from_slice bytes ≫= read_envelope read) (NodeError "grin node: invalid response");
  match ev_error env with
  | Some code => Err (NodeError ("grin node error " ++ pretty code))
  | None =>
      match ev_result env with
      | Some (GOk a) => Ok (Some a)
      | Some (GErr _) => Ok None
      | None => Err (NodeError "grin node: empty result")
      end
  end.

Definition node_rpc {A} (url : string) (auth : option (string * string)) (method : string)
    (params : list Value) (read : Reader A) : M A :=
  bytes ← post_capped url auth (grin_request method params); lift (node_result read bytes).

Definition node_rpc_optional {A} (url : string) (auth : option (string * string)) (method : string)
    (params : list Value) (read : Reader A) : M (option A) :=
  bytes ← post_capped url auth (grin_request method params); lift (node_result_optional read bytes).

Section wallet.
Context (c : GrinWallet).

Definition owner_auth : option (string * string) := Some ("grin", gw_owner_api_secret c).

Definition init_body (n : nat) : Value :=
  obj [("jsonrpc", VString "2.0"); ("id", VNumber 1); ("method", VString "init_secure_api");
       ("params", obj [("ecdh_pubkey", VString (hex_encode (ephemeral_public n)))])].

(** What the answer to [init_secure_api] makes of the [n]-th secret. *)
Definition handshake (n : nat) (bytes : list Byte.byte) : outcome SecureSession :=
  env ← ok_or (json_from_slice bytes ≫= read_envelope r_string)
    (NodeError "grin init_secure_api: invalid response");
  match ev_error env with
  | Some code => Err (NodeError ("grin init_secure_api error " ++ pretty code))
  | None =>
      match ev_result env with
      | Some (GOk server_pubkey_hex) =>
          server_pubkey ← ok_or (hex_decode server_pubkey_hex) (NodeError "grin: invalid server pubkey hex");
          key ← ok_or (ecdh_shared n server_pubkey) (NodeError "grin: invalid server pubkey");
          Ok (mkSecureSession key 0)
      | _ => Err (NodeError "grin init_secure_api: no result")
      end
  end.

Definition ensure_session : G unit := fun st =>
  match gs_secure_session st with
  | Some _ => mret (st, inl tt)
  | None =>
      n ← (fun w => (w, Ok (w_calls w)));
      r ← attempt (bytes ← post_capped (gw_owner_api_url c) owner_auth (init_body n);
                   lift (handshake n bytes));
      match r with
      | inl session => mret (st <|gs_secure_session := Some session|>, inl tt)
      | inr e => mret (st, inr e)
      end
  end.

Definition session_missing : AppError := NodeError "grin secure session missing".

(** The request, sealed under the session of the state. *)
Definition seal (method : string) (params : list Value) : G EncryptedParts := fun st =>
  match gs_secure_session st with
  | None => mret (st, inr session_missing)
  | Some session =>
      let '(session, parts) := encrypt session (grin_to_string (grin_request method params)) in
      r ← attempt (lift parts);
      mret (st <|gs_secure_session := Some session|>, r)
  end.

Definition sealed_body (parts : EncryptedParts) : Value :=
  obj [("jsonrpc", VString "2.0"); ("id", VNumber 1); ("method", VString "encrypted_request_v3");
       ("params", obj [("nonce", VString (ep_nonce parts)); ("body_enc", VString (ep_body_enc parts))])].

Definition SESSION_EXPIRED : i64 := (-32001)%Z.

(** The answer to a sealed request, opened under the session of the moment. *)
Definition unseal (parts : EncryptedParts) : G string := fun st =>
  match gs_secure_session st with
  | None => mret (st, inr session_missing)
  | Some session => g_lift (decrypt session (ep_nonce parts) (ep_body_enc parts)) st
  end.

Definition drop_session {A} (e : AppError) : G A := fun st =>
  mret (st <|gs_secure_session := None|>, inr e).

Definition owner_rpc {A} (method : string) (params : list Value) (read : Reader A) : G A :=
  _ <-- ensure_session;;
  encrypted <-- seal method params;;
  bytes <-- g_run (post_capped (gw_owner_api_url c) owner_auth (sealed_body encrypted));;
  outer <-- g_lift (ok_or (json_from_slice bytes ≫= read_envelope read_encrypted_parts)
                      (NodeError "grin owner API: invalid response"));;
  match ev_error outer with
  | Some code =>
      if (code =? SESSION_EXPIRED)%Z
      then drop_session (NodeError "grin secure session expired, retry")
      else g_fail (NodeError ("grin owner API error " ++ pretty code))
  | None =>
      match ev_result outer with
      | Some (GOk parts) =>
          decrypted <-- unseal parts;;
          inner <-- g_lift (ok_or (grin_from_str decrypted ≫= read_envelope read)
                              (NodeError "grin wallet: invalid response"));;
          g_lift (envelope_into_result inner "grin wallet")
      | _ => g_fail (NodeError "grin owner API: no result")
      end
  end.

(** ** Views *)

Record ViewOutput := mkViewOutput {
  vw_commit : string;
  vw_value : u64;
  vw_height : u64;
  vw_mmr_index : u64;
  vw_is_coinbase : bool;
  vw_lock_height : u64;
}.

Record ViewWallet := mkViewWallet {
  vw_rewind_hash : string;
  vw_output_result : list ViewOutput;
  vw_total_balance : u64;
  vw_last_pmmr_index : u64;
}.

Definition read_view_output : Reader ViewOutput :=
  r_struct ["commit"; "value"; "height"; "mmr_index"; "is_coinbase"; "lock_height"] (fun kvs =>
    co ← required r_string "commit" kvs; v ← required r_u64 "value" kvs;
    h ← required r_u64 "height" kvs; m ← required r_u64 "mmr_index" kvs;
    cb ← defaulted false r_bool "is_coinbase" kvs; l ← defaulted 0%Z r_u64 "lock_height" kvs;
    Some (mkViewOutput co v h m cb l)).

Definition read_view_wallet : Reader ViewWallet :=
  r_struct ["rewind_hash"; "output_result"; "total_balance"; "last_pmmr_index"] (fun kvs =>
    r ← required r_string "rewind_hash" kvs;
    o ← defaulted [] (r_list read_view_output) "output_result" kvs;
    t ← required r_u64 "total_balance" kvs; l ← required r_u64 "last_pmmr_index" kvs;
    Some (mkViewWallet r o t l)).

(** [confirmations] of an output of a view, which [Chains.v] has by value and height. *)
Definition view_confirmations (o : ViewOutput) (tip_height : u64) : u64 :=
  view_output_confirmations (mkViewWalletOutputResult (vw_value o) (vw_height o)) tip_height.

(** ** The owner API *)

Definition open_wallet : G string := fun st =>
  match gs_session_token st with
  | Some token => mret (st, inl token)
  | None =>
      r ← owner_rpc "open_wallet" [VNull; VString (gw_wallet_password c)] r_string st;
      match r.2 with
      | inl token => mret (r.1 <|gs_session_token := Some token|>, inl token)
      | inr e => mret (r.1, inr e)
      end
  end.

Definition opt_number (o : option u64) : Value := match o with Some n => VNumber n | None => VNull end.

Definition scan_attempt (rewind_hash : string) (start_height : option u64) : G ViewWallet :=
  token <-- open_wallet;;
  owner_rpc "scan_rewind_hash" [VString token; VString rewind_hash; opt_number start_height] read_view_wallet.

Definition drop_token : G unit := fun st => mret (st <|gs_session_token := None|>, inl tt).

Definition scan_rewind_hash (rewind_hash : string) (start_height : option u64) : G ViewWallet :=
  r <-- g_attempt (scan_attempt rewind_hash start_height);;
  match r with
  | inl view => g_ret view
  | inr _ => _ <-- drop_token;; scan_attempt rewind_hash start_height
  end.

(** ** The node's APIs *)

Record GrinStatus := mkGrinStatus { sta_height : u64; sta_sync_status : string }.

Definition read_status : Reader GrinStatus :=
  r_struct ["tip"; "sync_status"] (fun kvs =>
    h ← required (r_struct ["height"] (required r_u64 "height")) "tip" kvs;
    s ← defaulted "" r_string "sync_status" kvs; Some (mkGrinStatus h s)).

Definition get_status : M GrinStatus :=
  node_rpc (gw_node_api_url c) (Some (gw_node_api_user c, gw_node_api_pass c)) "get_status" [] read_status.
Definition grin_get_height : M u64 := s ← get_status; mret (sta_height s).

Definition foreign_auth : option (string * string) :=
  if is_empty (gw_node_foreign_api_secret c) then None
  else Some ("grin", gw_node_foreign_api_secret c).

Definition read_output_info : Reader GrinOutputInfo :=
  r_struct ["commit"; "block_height"; "mmr_index"] (fun kvs =>
    co ← required r_string "commit" kvs; h ← optional r_u64 "block_height" kvs;
    m ← defaulted 0%Z r_u64 "mmr_index" kvs; Some (mkGrinOutputInfo co h m)).

Definition grin_get_outputs (commits : list string) : M (list GrinOutputInfo) :=
  match commits with
  | [] => mret []
  | _ => node_rpc (gw_node_foreign_api_url c) foreign_auth "get_outputs"
           [strings commits; VNull; VNull; VBool false; VBool false] (r_list read_output_info)
  end.

(** [GrinKernelInfo], of which only the height is read. *)
Definition read_kernel_info : Reader u64 := r_struct ["height"] (required r_u64 "height").

Definition grin_get_kernel (excess : string) : M (option u64) :=
  kernel ← node_rpc_optional (gw_node_foreign_api_url c) foreign_auth "get_kernel"
    [VString excess; VNull; VNull] (r_option read_kernel_info);
  mret (mjoin kernel).

Definition grin_broadcast (tx : Value) : M unit :=
  _ ← node_rpc (gw_node_foreign_api_url c) foreign_auth "push_transaction" [tx; VBool false] Some;
  mret tt.

(** The client the workers of the tips use. *)
Definition node_answer {A} (url : string) (auth : option (string * string)) (method : string)
    (params : list Value) (result : list Byte.byte -> outcome A) (n : nat) : outcome A :=
  bytes ← capped (grin_post url auth (grin_request method params) n); result bytes.

Definition outcome_map {A B} (f : A -> B) (o : outcome A) : outcome B :=
  match o with Ok a => Ok (f a) | Err e => Err e | Panic => Panic end.

Definition grin_client : GrinClient :=
  mkGrinClient
    (fun n => outcome_map sta_height (node_answer (gw_node_api_url c)
       (Some (gw_node_api_user c, gw_node_api_pass c)) "get_status" [] (node_result read_status) n))
    (fun commits n => node_answer (gw_node_foreign_api_url c) foreign_auth "get_outputs"
       [strings commits; VNull; VNull; VBool false; VBool false] (node_result (r_list read_output_info)) n)
    (fun excess n => outcome_map mjoin (node_answer (gw_node_foreign_api_url c) foreign_auth "get_kernel"
       [VString excess; VNull; VNull] (node_result_optional (r_option read_kernel_info)) n)).
End wallet.
End channel.
