(* ===== verification/GrinApi.v ===== *)
(** The wallet's Grin handlers, [src/api/wallet/grin.rs], and the client of a Grin
    light-wallet server they prefer, [src/infra/grin_lws/].

    A handler that scans takes the state of the wallet client and gives it back. *)

From Stdlib Require Import ZArith Lia Ascii String Strings.Byte.
From stdpp Require Import pretty.
From S2P Require Import Prelude RustStr Json Errors Db Effects TipStatus SocialTips Demo LwsTypes Http Chains Config Lws Electrum Auth Signatures Pow WalletCn Users Grin.

Local Open Scope string_scope.

(** * The light-wallet server *)

Definition MAX_GRIN_LWS_BODY_BYTES : Z := (8 * 1024 * 1024)%Z.

Record GrinLwsClient := mkGrinLwsClient {
  gc_user_url : string; gc_admin_url : option string; gc_admin_key : string }.

Definition grin_lws_new (cfg : GrinLwsConfig) : GrinLwsClient :=
  mkGrinLwsClient (gl_url cfg) (gl_admin_url cfg) (gl_admin_key cfg).

Definition register_body (rewind_hash : string) (start_height : option u64) : Value :=
  obj (("rewind_hash", VString rewind_hash)
       :: match start_height with Some h => [("start_height", VNumber h)] | None => [] end).
Definition rewind_hash_body (rewind_hash : string) : Value := obj [("rewind_hash", VString rewind_hash)].

Record GrinLwsRegister := mkGrinLwsRegister {
  gg_registered : bool; gg_new_account : bool; gg_scan_height : u64; gg_start_height : u64 }.
Record GrinLwsBalance := mkGrinLwsBalance {
  gb_total : u64; gb_unlocked : u64; gb_count : u64; gb_scanned_height : u64; gb_blockchain_height : u64 }.
Record GrinLwsUnspentOut := mkGrinLwsUnspentOut {
  go_commit : string; go_value : u64; go_height : u64; go_mmr_index : u64; go_is_coinbase : bool;
  go_lock_height : u64; go_spendable : bool; go_key_id : option string; go_n_child : option u32 }.
Record GrinLwsUnspentOuts := mkGrinLwsUnspentOuts {
  gu_outputs : list GrinLwsUnspentOut; gu_blockchain_height : u64 }.

Definition read_register : Reader GrinLwsRegister :=
  r_struct ["registered"; "new_account"; "scan_height"; "start_height"] (fun kvs =>
    r ← required r_bool "registered" kvs; n ← required r_bool "new_account" kvs;
    s ← required r_u64 "scan_height" kvs; h ← required r_u64 "start_height" kvs;
    Some (mkGrinLwsRegister r n s h)).

Definition read_grin_balance : Reader GrinLwsBalance :=
  r_struct ["total"; "unlocked"; "count"; "scanned_height"; "blockchain_height"] (fun kvs =>
    t ← required r_u64 "total" kvs; u ← required r_u64 "unlocked" kvs; c ← required r_u64 "count" kvs;
    s ← required r_u64 "scanned_height" kvs; b ← required r_u64 "blockchain_height" kvs;
    Some (mkGrinLwsBalance t u c s b)).

Definition read_grin_unspent_out : Reader GrinLwsUnspentOut :=
  r_struct ["commit"; "value"; "height"; "mmr_index"; "is_coinbase"; "lock_height"; "spendable";
            "key_id"; "n_child"] (fun kvs =>
    c ← required r_string "commit" kvs; v ← required r_u64 "value" kvs; h ← required r_u64 "height" kvs;
    m ← required r_u64 "mmr_index" kvs; cb ← required r_bool "is_coinbase" kvs;
    l ← required r_u64 "lock_height" kvs; s ← required r_bool "spendable" kvs;
    k ← optional r_string "key_id" kvs; n ← optional (dec c_u32) "n_child" kvs;
    Some (mkGrinLwsUnspentOut c v h m cb l s k n)).

Definition read_grin_unspent_outs : Reader GrinLwsUnspentOuts :=
  r_struct ["outputs"; "blockchain_height"] (fun kvs =>
    o ← defaulted [] (r_list read_grin_unspent_out) "outputs" kvs;
    b ← required r_u64 "blockchain_height" kvs;
    Some (mkGrinLwsUnspentOuts o b)).

Section lws.
Context `{Http} `{GrinNet} (c : GrinLwsClient).

Definition gc_err (label detail : string) : AppError := NodeError ("grin-lws " ++ label ++ ": " ++ detail).

Definition gc_read_capped (chunks : list (option (list Byte.byte))) : outcome (list Byte.byte) :=
  read_capped_with (NodeError "grin-lws read failed") (NodeError "grin-lws response exceeded size limit")
    MAX_GRIN_LWS_BODY_BYTES [] chunks.

(** What both kinds of request make of a reply. *)
Definition gc_reply {R} (label : string) (read : Reader R) (reply : HttpReply) : outcome R :=
  match reply with
  | HttpFailed e => Err (NodeError ("grin-lws " ++ label ++ " request failed: " ++ e))
  | HttpResponse status chunks =>
      if negb (is_success status)
      then Err (NodeError ("grin-lws " ++ label ++ " failed (HTTP " ++ pretty status ++ ")"))
      else
        bytes ← gc_read_capped chunks;
        ok_or (json_from_slice bytes ≫= read) (gc_err label "invalid response")
  end.

Definition gc_post_json {R} (path label : string) (body : Value) (read : Reader R) : M R :=
  reply ← send (gc_user_url c ++ path) body; lift (gc_reply label read reply).

Definition gc_get_json {R} (path label : string) (read : Reader R) : M R :=
  upstream (fun n => gc_reply label read (grin_get (gc_user_url c ++ path) n)).

Definition gc_register (rewind_hash : string) (start_height : option u64) : M GrinLwsRegister :=
  gc_post_json "/register" "register" (register_body rewind_hash start_height) read_register.
Definition gc_get_balance (rewind_hash : string) : M GrinLwsBalance :=
  gc_post_json "/get_balance" "get_balance" (rewind_hash_body rewind_hash) read_grin_balance.
Definition gc_get_unspent_outs (rewind_hash : string) : M GrinLwsUnspentOuts :=
  gc_post_json "/get_unspent_outs" "get_unspent_outs" (rewind_hash_body rewind_hash) read_grin_unspent_outs.
Definition gc_get_height : M u64 :=
  gc_get_json "/height" "height" (r_struct ["height"] (required r_u64 "height")).
Definition gc_health_check : M unit := _ ← gc_get_height; mret tt.
End lws.

(** * Requests and responses *)

Definition SYNC_MARGIN : u64 := 2.

Record GrinScanRequest := mkGrinScanRequest {
  sq_rewind_hash : string; sq_start_height : option u64; sq_restore_pow_nonce : option u64 }.

Record GrinOutput := mkGrinOutput {
  ou_commit : string; ou_value : u64; ou_height : u64; ou_mmr_index : u64; ou_is_coinbase : bool;
  ou_lock_height : u64; ou_key_id : option string; ou_n_child : option u32; ou_spendable : option bool }.

Record GrinScanResponse := mkGrinScanResponse {
  sr_outputs : list GrinOutput; sr_total_balance : u64; sr_last_pmmr_index : u64;
  sr_scanned_height : option u64; sr_blockchain_height : option u64 }.

Record GrinAddressUserResponse := mkGrinAddressUserResponse {
  gx_registered : bool; gx_user_id : option string; gx_npub : option string }.

Definition output_dto (o : ViewOutput) : GrinOutput :=
  mkGrinOutput (vw_commit o) (vw_value o) (vw_height o) (vw_mmr_index o) (vw_is_coinbase o)
    (vw_lock_height o) None None None.

Definition output_dto_lws (o : GrinLwsUnspentOut) : GrinOutput :=
  mkGrinOutput (go_commit o) (go_value o) (go_height o) (go_mmr_index o) (go_is_coinbase o)
    (go_lock_height o) (go_key_id o) (go_n_child o) (Some (go_spendable o)).

Definition view_response (view : ViewWallet) : GrinScanResponse :=
  mkGrinScanResponse (output_dto <$> vw_output_result view) (vw_total_balance view)
    (vw_last_pmmr_index view) None None.

(** [.max().unwrap_or(0)] of unsigned numbers. *)
Definition max_or_zero (l : list u64) : u64 := foldr Z.max 0%Z l.

Definition lws_response (bal : GrinLwsBalance) (outs : GrinLwsUnspentOuts) : GrinScanResponse :=
  mkGrinScanResponse (output_dto_lws <$> gu_outputs outs) (gb_total bal)
    (max_or_zero (go_mmr_index <$> gu_outputs outs))
    (Some (gb_scanned_height bal)) (Some (gb_blockchain_height bal)).

(** * Handlers *)

Record GrinApiState := mkGrinApiState {
  ga_sessions : SessionManager;
  ga_restore : RestoreConfig;
  ga_grin : option GrinWallet;
  ga_grin_lws : option GrinLwsClient;
}.

Section handlers.
Context `{Ext} `{Jwt} `{Http} `{GrinNet} (state : GrinApiState).

Definition grin_wallet : outcome GrinWallet :=
  ok_or (ga_grin state) (ValidationError "grin support is not enabled on this server").

Definition grin_tip : M u64 :=
  preferred ← (match ga_grin_lws state with
               | Some lws => h ← attempt (gc_get_height lws); mret (match h with inl h => Some h | inr _ => None end)
               | None => mret None
               end);
  match preferred with
  | Some h => mret h
  | None => client ← lift grin_wallet; grin_get_height client
  end.

Definition scan_via_grin_lws (lws : GrinLwsClient) (rewind_hash : string) (start_height : u64)
  : M (option GrinScanResponse) :=
  _ ← gc_register lws rewind_hash (Some start_height);
  bal ← gc_get_balance lws rewind_hash;
  if (u64_saturating_add (gb_scanned_height bal) SYNC_MARGIN <? gb_blockchain_height bal)%Z
  then mret None
  else
    outs ← gc_get_unspent_outs lws rewind_hash;
    mret (Some (lws_response bal outs)).

(** Who may scan, and from where: the part of [scan] before a path is chosen. *)
Definition scan_gate (h : HeaderMap) (req : GrinScanRequest) : M u64 :=
  _ ← extract_user_id_from_token (ga_sessions state) h;
  _ ← lift (validate_hex64 (sq_rewind_hash req) "rewind_hash");
  tip ← grin_tip;
  let start_height := default (min_start_height (ga_restore state) "grin" tip) (sq_start_height req) in
  _ ← lift (enforce (ga_restore state) "grin" start_height tip);
  _ ← lift (enforce_restore_pow (ga_restore state) "grin" (sq_rewind_hash req) start_height tip
              (sq_restore_pow_nonce req));
  mret start_height.

Definition grin_scan (h : HeaderMap) (req : GrinScanRequest) (st : GrinState)
  : M (GrinState * (GrinScanResponse + AppError)) :=
  start_height ← scan_gate h req;
  preferred ← (match ga_grin_lws state with
               | Some lws =>
                   r ← attempt (scan_via_grin_lws lws (sq_rewind_hash req) start_height);
                   mret (match r with inl (Some resp) => Some resp | _ => None end)
               | None => mret None
               end);
  match preferred with
  | Some resp => mret (st, inl resp)
  | None =>
      client ← lift grin_wallet;
      r ← scan_rewind_hash client (sq_rewind_hash req) (Some start_height) st;
      mret (match r with
            | (st, inl view) => (st, inl (view_response view))
            | (st, inr e) => (st, inr e)
            end)
  end.

Definition grin_height (h : HeaderMap) : M u64 :=
  _ ← extract_user_id_from_token (ga_sessions state) h;
  grin_tip.

Definition grin_broadcast_tx (h : HeaderMap) (tx : Value) : M unit :=
  _ ← extract_user_id_from_token (ga_sessions state) h;
  client ← lift grin_wallet;
  grin_broadcast client tx.

Definition address_user (h : HeaderMap) (addr : string) : M GrinAddressUserResponse :=
  _ ← extract_user_id_from_token (ga_sessions state) h;
  found ← find_user_by_grin_address addr;
  mret match found with
       | None => mkGrinAddressUserResponse false None None
       | Some user =>
           mkGrinAddressUserResponse true (Some (uuid_to_string (u_id user))) (u_nostr_pubkey user)
       end.
End handlers.
