(* ===== verification/GrinSafety.v ===== *)
(** What the Grin client and handlers promise: no nonce is used twice under a session
    key, what is sealed opens, and a scan is answered only past its gate and by a
    source that may be believed.  The concrete runs show what the light-wallet path
    takes on trust. *)

From Stdlib Require Import ZArith Lia Ascii String Strings.Byte.
From stdpp Require Import pretty.
From S2P Require Import Prelude RustStr Json Errors Db Effects TipStatus SocialTips Demo LwsTypes Http Chains Config Lws Electrum Auth Nip98 Signatures Pow WalletCn Users Grin GrinApi.

Local Open Scope string_scope.

(** * Nonces *)

(** The nonce a posted body carries, and whether the body opens a session. *)
Definition body_nonce (v : Value) : option string :=
  match v with
  | VObject kvs =>
      match obj_get "params" kvs with
      | Some (VObject ps) => match obj_get "nonce" ps with Some (VString n) => Some n | _ => None end
      | _ => None
      end
  | _ => None
  end.
Definition opens_session (v : Value) : bool :=
  match v with
  | VObject kvs => match obj_get "method" kvs with Some (VString m) => m =? "init_secure_api" | _ => false end
  | _ => false
  end.

(** The nonces used since the last handshake, or none when one came twice. *)
Fixpoint track (used : list string) (log : list Value) : option (list string) :=
  match log with
  | [] => Some used
  | v :: log =>
      match body_nonce v with
      | Some n => if bool_decide (n ∈ used) then None else track (n :: used) log
      | None => track (if opens_session v then [] else used) log
      end
  end.

Lemma track_app used l1 l2 : track used (l1 ++ l2) = track used l1 ≫= fun u => track u l2.
Proof.
  revert used. induction l1 as [|v l1 IH]; intros used; [done|]. simpl.
  destruct (body_nonce v); [destruct (bool_decide _); [done|]|]; apply IH.
Qed.

Section nonces.
Context {E : Ext} {L : ExtLaws E} `{Http} `{GrinNet} (c : GrinWallet).

Definition nonce_hex (k : u64) : string := hex_encode (nonce_bytes k).

Lemma nonce_hex_inj k k' : in_u64 k -> in_u64 k' -> nonce_hex k = nonce_hex k' -> k = k'.
Proof.
  unfold nonce_hex, nonce_bytes, be_bytes, in_u64, U64_MAX. intros Hk Hk' Heq%(f_equal hex_decode).
  rewrite !hex_round_trip in Heq. apply (inj Some), app_inv_head, (f_equal (@rev byte)) in Heq.
  rewrite !rev_involutive in Heq. apply (le_bytes_inj 8); [..|exact Heq]; change (256 ^ Z.of_nat 8)%Z with (2 ^ 64)%Z; lia.
Qed.

(** The nonces used lie below the counter of the session. *)
Definition below (used : list string) (o : option SecureSession) : Prop :=
  match o with
  | None => True
  | Some s => in_u64 (nonce_counter s) /\
      forall n, n ∈ used -> exists k, (0 <= k < nonce_counter s)%Z /\ n = nonce_hex k
  end.

(** A program that, from a counter above the nonces used, posts fresh ones only and
    leaves the counter above them. *)
Definition disciplined {A} (m : G A) : Prop := forall st w used w' o,
  below used (gs_secure_session st) -> m st w = (w', o) ->
  exists log used', w_sent w' = (w_sent w ++ log)%list /\ track used (snd <$> log) = Some used' /\
    forall st' r, o = Ok (st', r) -> below used' (gs_secure_session st').

(** A program that posts nothing and leaves the session alone. *)
Lemma disciplined_still {A} (m : G A) :
  (forall st w w' o, m st w = (w', o) -> w_sent w' = w_sent w /\
     forall st' r, o = Ok (st', r) -> gs_secure_session st' = gs_secure_session st \/ gs_secure_session st' = None) ->
  disciplined m.
Proof.
  intros Hm st w used w' o Hb Hrun. apply Hm in Hrun as [Hs Ho]. exists [], used. rewrite app_nil_r.
  split_and!; [done|done|]. intros st' r [->| ->]%Ho; [done|exact I].
Qed.

Lemma disciplined_bind {A B} (m : G A) (f : A -> G B) :
  disciplined m -> (forall a, disciplined (f a)) -> disciplined (g_bind m f).
Proof.
  intros Hm Hf st w used w' o Hb Hrun. unfold g_bind in Hrun. destruct (m st w) as [w1 o1] eqn:E1.
  destruct (Hm st w used w1 o1 Hb E1) as (l1 & u1 & Hs1 & Ht1 & Hb1).
  destruct o1 as [[st1 [a|e]]|e|]; try (injection Hrun as <- <-; exists l1, u1; by split_and!; try done; intros ?? [= <- <-]; eapply Hb1).
  destruct (Hf a st1 w1 u1 w' o (Hb1 _ _ eq_refl) Hrun) as (l2 & u2 & Hs2 & Ht2 & Hb2).
  exists (l1 ++ l2)%list, u2. rewrite Hs2, Hs1, app_assoc, fmap_app, track_app, Ht1. by split_and!.
Qed.

Lemma disciplined_run {A} (m : M A) :
  (forall w, w_sent (m w).1 = w_sent w) -> disciplined (g_run m).
Proof.
  intros Hm. apply disciplined_still. intros st w w' o Hrun. unfold g_run, mbind, M_bind, attempt in Hrun.
  specialize (Hm w). destruct (m w) as [w1 [a|e|]]; injection Hrun as <- <-; split; try done;
    intros st' r [= <- <-]; by left.
Qed.

Lemma disciplined_lift {A} (o : outcome A) : disciplined (g_lift o).
Proof. by apply disciplined_run. Qed.

Lemma disciplined_ret {A} (a : A) : disciplined (g_ret a).
Proof. apply disciplined_still. intros st w w' o [= <- <-]. split; [done|]. intros st' r [= <- <-]. by left. Qed.

Lemma disciplined_fail {A} e : disciplined (g_fail (A := A) e).
Proof. apply disciplined_still. intros st w w' o [= <- <-]. split; [done|]. intros st' r [= <- <-]. by left. Qed.

Lemma disciplined_attempt {A} (m : G A) : disciplined m -> disciplined (g_attempt m).
Proof.
  intros Hm st w used w' o Hb Hrun. unfold g_attempt, mbind, M_bind in Hrun.
  destruct (m st w) as [w1 o1] eqn:E1. destruct (Hm st w used w1 o1 Hb E1) as (l & u & Hs & Ht & Hb').
  destruct o1 as [[st1 r1]|e|]; injection Hrun as <- <-; exists l, u; split_and!; try done.
  intros st' r [= <- <-]. by eapply Hb'.
Qed.

Lemma post_sent url auth body w : w_sent (post_capped url auth body w).1 = (w_sent w ++ [(url, body)])%list.
Proof. done. Qed.

(** A handshake forgets the nonces of the session before. *)
Lemma disciplined_ensure : disciplined (ensure_session c).
Proof.
  intros st w used w' o Hb Hrun. unfold ensure_session in Hrun.
  destruct (gs_secure_session st) as [s|] eqn:Es.
  { injection Hrun as <- <-. exists [], used. rewrite app_nil_r. split_and!; try done.
    intros st' r [= <- <-]. by rewrite Es. }
  unfold mbind, M_bind, attempt in Hrun. unfold post_capped in Hrun. cbv beta iota zeta in Hrun.
  exists [(gw_owner_api_url c, init_body (w_calls w))], [].
  assert (Hlog : track used (snd <$> [(gw_owner_api_url c, init_body (w_calls w))]) = Some []) by reflexivity.
  destruct (capped _) as [bytes|e|]; cbv beta iota zeta in Hrun.
  - unfold lift in Hrun. cbv beta iota zeta in Hrun.
    destruct (handshake _ _) as [session|e|] eqn:Eh; injection Hrun as <- <-; split_and!; try done;
      intros st' r [= <- <-]; simpl; [|by rewrite Es].
    unfold handshake in Eh. apply bind_Ok in Eh as (env & _ & Eh). destruct (ev_error env); [done|].
    destruct (ev_result env) as [[hexs|]|]; try done. apply bind_Ok in Eh as (pk & _ & Eh).
    apply bind_Ok in Eh as (key & _ & [= <-]). split; [unfold in_u64, U64_MAX; simpl; lia|].
    by intros n Hn%not_elem_of_nil.
  - injection Hrun as <- <-. split_and!; try done. intros st' r [= <- <-]. simpl. by rewrite Es.
  - injection Hrun as <- <-. by split_and!.
Qed.

Lemma encrypt_nonce session plaintext session' parts :
  encrypt session plaintext = (session', Ok parts) ->
  ep_nonce parts = nonce_hex (nonce_counter session) /\ nonce_counter session' = (nonce_counter session + 1)%Z /\
  (nonce_counter session + 1 <= U64_MAX)%Z /\ shared_key session' = shared_key session.
Proof.
  unfold encrypt, u64_checked_succ, u64_checked_add. intros Hr.
  destruct (Z.leb_spec (nonce_counter session + 1) U64_MAX); [|done]. injection Hr as <- Hr.
  apply bind_Ok in Hr as (ct & _ & [= <-]). by split_and!.
Qed.

(** An attempt to seal never lowers the counter or changes the key. *)
Lemma encrypt_below used session plaintext session' o :
  encrypt session plaintext = (session', o) -> below used (Some session) -> below used (Some session').
Proof.
  unfold encrypt, u64_checked_succ, u64_checked_add. intros Hr [Hin Hb].
  destruct (Z.leb_spec (nonce_counter session + 1) U64_MAX); injection Hr as <- _; [|by split].
  split; [unfold in_u64 in *; simpl; lia|]. intros n Hn. destruct (Hb n Hn) as (k & Hk & ->).
  exists k. split; [simpl; lia|done].
Qed.

(** A sealed request is posted under a nonce above all the ones used. *)
Lemma disciplined_sealed {A} method params (k : list byte -> G A) :
  (forall bytes, disciplined (k bytes)) ->
  disciplined (g_bind (seal method params) (fun e =>
    g_bind (g_run (post_capped (gw_owner_api_url c) (owner_auth c) (sealed_body e))) k)).
Proof.
  intros Hk st w used w' o Hb Hrun. unfold g_bind at 1, seal in Hrun.
  destruct (gs_secure_session st) as [session|] eqn:Es.
  2: { injection Hrun as <- <-. exists [], used. rewrite app_nil_r. split_and!; try done.
       intros st' r [= <- <-]. by rewrite Es. }
  destruct (encrypt session _) as [session' parts] eqn:Ee.
  pose proof (encrypt_below used _ _ _ _ Ee Hb) as Hb'. unfold mbind, M_bind, attempt, lift in Hrun.
  destruct parts as [parts|e|]; cbv beta iota zeta in Hrun.
  2: { injection Hrun as <- <-. exists [], used. rewrite app_nil_r. split_and!; try done. by intros st' r [= <- <-]. }
  2: { injection Hrun as <- <-. exists [], used. rewrite app_nil_r. by split_and!. }
  apply encrypt_nonce in Ee as (Hn & Hc & Hmax & _).
  assert (Hfresh : ep_nonce parts ∉ used).
  { rewrite Hn. intros Hin. destruct Hb as [Hin64 Hb]. destruct (Hb _ Hin) as (k' & Hk' & Heq).
    apply nonce_hex_inj in Heq; unfold in_u64 in *; lia. }
  unfold g_bind at 1, g_run, mbind, M_bind, attempt, post_capped, mret, M_ret in Hrun. cbv beta iota zeta in Hrun.
  set (log1 := [(gw_owner_api_url c, sealed_body parts)]).
  assert (Ht1 : track used (snd <$> log1) = Some (ep_nonce parts :: used)).
  { assert (Hbn : body_nonce (sealed_body parts) = Some (ep_nonce parts)) by reflexivity.
    change (snd <$> log1) with [sealed_body parts]. unfold track. by rewrite Hbn, bool_decide_eq_false_2. }
  assert (Hb1 : below (ep_nonce parts :: used) (Some session')).
  { destruct Hb' as [H64 Hb']. split; [done|]. intros n [->|Hn']%elem_of_cons; [|by apply Hb'].
    exists (nonce_counter session). split; [destruct Hb as [[? ?] _]; lia|done]. }
  destruct (capped _) as [bytes|e|]; cbv beta iota zeta in Hrun.
  - eapply Hk in Hrun as (l2 & u2 & Hs2 & Ht2 & Hb2); [|exact Hb1].
    exists (log1 ++ l2)%list, u2. rewrite Hs2, fmap_app, track_app, Ht1. split_and!; [|done|done].
    simpl. by rewrite <- app_assoc.
  - injection Hrun as <- <-. exists log1, (ep_nonce parts :: used). split_and!; [done|done|]. by intros st' r [= <- <-].
  - injection Hrun as <- <-. exists log1, (ep_nonce parts :: used). by split_and!.
Qed.

Lemma disciplined_owner_rpc {A} method params (read : Reader A) : disciplined (owner_rpc c method params read).
Proof.
  unfold owner_rpc. apply disciplined_bind; [apply disciplined_ensure|]. intros _.
  apply disciplined_sealed. intros bytes. apply disciplined_bind; [apply disciplined_lift|]. intros outer.
  destruct (ev_error outer) as [code|].
  { destruct (code =? SESSION_EXPIRED)%Z; [|apply disciplined_fail]. apply disciplined_still.
    intros st w w' o [= <- <-]. split; [done|]. intros st' r [= <- <-]. by right. }
  destruct (ev_result outer) as [[parts|]|]; try apply disciplined_fail.
  apply disciplined_bind.
  { apply disciplined_still. intros st w w' o Hrun. unfold unseal in Hrun.
    destruct (gs_secure_session st) as [s|] eqn:Es.
    - unfold g_lift, g_run, mbind, M_bind, attempt, lift in Hrun.
      destruct (decrypt _ _ _); injection Hrun as <- <-; split; try done; intros st' r [= <- <-]; by left.
    - injection Hrun as <- <-. split; [done|]. intros st' r [= <- <-]. by right. }
  intros decrypted. apply disciplined_bind; [apply disciplined_lift|]. intros inner. apply disciplined_lift.
Qed.

Lemma disciplined_open : disciplined (open_wallet c).
Proof.
  intros st w used w' o Hb Hrun. unfold open_wallet in Hrun. destruct (gs_session_token st) as [t|].
  { injection Hrun as <- <-. exists [], used. rewrite app_nil_r. by split_and!; try done; intros st' r [= <- <-]. }
  unfold mbind, M_bind in Hrun.
  destruct (owner_rpc _ _ _ _ st w) as [w1 o1] eqn:E1.
  destruct (disciplined_owner_rpc _ _ _ st w used w1 o1 Hb E1) as (l & u & Hs & Ht & Hb').
  destruct o1 as [[st1 [a|e]]|e|]; injection Hrun as <- <-; exists l, u; split_and!; try done;
    intros st' r [= <- <-]; exact (Hb' _ _ eq_refl).
Qed.

Lemma disciplined_scan rewind_hash start : disciplined (scan_rewind_hash c rewind_hash start).
Proof.
  assert (Ha : disciplined (scan_attempt c rewind_hash start))
    by (apply disciplined_bind; [apply disciplined_open|intros; apply disciplined_owner_rpc]).
  unfold scan_rewind_hash. apply disciplined_bind; [by apply disciplined_attempt|].
  intros [view|e]; [apply disciplined_ret|]. apply disciplined_bind; [|done].
  apply disciplined_still. intros st w w' o [= <- <-]. split; [done|]. intros st' r [= <- <-]. by left.
Qed.

(** A run of scans. *)
Fixpoint scans (reqs : list (string * option u64)) : G unit :=
  match reqs with
  | [] => g_ret tt
  | (rh, start) :: reqs => g_bind (g_attempt (scan_rewind_hash c rh start)) (fun _ => scans reqs)
  end.
End nonces.

(** C11: no nonce is used twice under a session key.  Whatever the wallet answers to any
    sequence of scans of a new client, with the handshakes, the openings of the
    wallet, the retries and the expiries they lead to, between two handshakes every
    sealed body that is posted carries another nonce. *)
Theorem nonces_never_repeat {E : Ext} {L : ExtLaws E} `{Http} `{GrinNet} c reqs w w' o
    (Hrun : scans c reqs (mkGrinState None None) w = (w', o)) :
  exists log, w_sent w' = (w_sent w ++ log)%list /\ is_Some (track [] (snd <$> log)).
Proof.
  assert (Hd : disciplined (scans c reqs)).
  { clear Hrun. induction reqs as [|[rh start] reqs IH]; [apply disciplined_ret|].
    apply disciplined_bind; [|intros _; exact IH]. apply disciplined_attempt, disciplined_scan. }
  destruct (Hd (mkGrinState None None) w [] w' o I Hrun) as (log & used & Hs & Ht & _). eauto.
Qed.

(** * Sealing *)

Section seals.
Context {E : Ext} {L : ExtLaws E} `{Http} {N : GrinNet} {NL : GrinNetLaws N}.

Lemma nonce_length k : length (nonce_bytes k) = 12.
Proof. unfold nonce_bytes, be_bytes. by rewrite length_app, length_rev, length_le_bytes. Qed.

(** A sealed request opens to its text under the session left behind. *)
Lemma seal_opens session v session' parts :
  encrypt session (grin_to_string v) = (session', Ok parts) ->
  decrypt session' (ep_nonce parts) (ep_body_enc parts) = Ok (grin_to_string v).
Proof.
  intros Hr. pose proof (encrypt_nonce _ _ _ _ Hr) as (_ & _ & _ & Hk).
  unfold encrypt in Hr. destruct (u64_checked_succ _); [|done]. injection Hr as _ Hr.
  apply bind_Ok in Hr as (ct & Ha%ok_or_Ok & [= <-]).
  unfold decrypt, ep_nonce, ep_body_enc. rewrite hex_round_trip, Hk, base64_std_round_trip.
  apply bind_Ok. eexists. split; [done|]. rewrite nonce_length. simpl negb. cbv iota.
  apply bind_Ok. eexists. split; [done|]. rewrite (aes_round_trip _ _ _ _ Ha).
  apply bind_Ok. eexists. split; [done|]. by rewrite text_is_utf8.
Qed.
End seals.

(** * Scans *)

Section scan.
Context `{Ext} `{Jwt} `{Http} `{GrinNet} (state : GrinApiState).

(** What a scan from a height must have passed. *)
Definition passed_gate (h : HeaderMap) (req : GrinScanRequest) (w : World) (start tip : u64) : Prop :=
  (exists user, (extract_user_id_from_token (ga_sessions state) h w).2 = Ok user) /\
  validate_hex64 (sq_rewind_hash req) "rewind_hash" = Ok tt /\
  (exists wt, (grin_tip state wt).2 = Ok tip) /\
  start = default (min_start_height (ga_restore state) "grin" tip) (sq_start_height req) /\
  enforce (ga_restore state) "grin" start tip = Ok tt /\
  enforce_restore_pow (ga_restore state) "grin" (sq_rewind_hash req) start tip (sq_restore_pow_nonce req) = Ok tt.

Lemma scan_gate_passed h req w w' start :
  scan_gate state h req w = (w', Ok start) -> exists tip, passed_gate h req w start tip.
Proof.
  unfold scan_gate. intros Hrun. apply bind_run_Ok in Hrun as (w1 & user & Hu & Hrun).
  apply bind_run_Ok in Hrun as (w2 & [] & [-> Hv]%lift_run_Ok & Hrun).
  apply bind_run_Ok in Hrun as (w3 & tip & Ht & Hrun). cbv zeta in Hrun.
  apply bind_run_Ok in Hrun as (w4 & [] & [-> He]%lift_run_Ok & Hrun).
  apply bind_run_Ok in Hrun as (w5 & [] & [-> Hp]%lift_run_Ok & [= <- <-]).
  exists tip. split_and!; try done; [exists user; by rewrite Hu|exists w1; by rewrite Ht].
Qed.

Lemma required_u64 name kvs x : required r_u64 name kvs = Some x -> in_u64 x.
Proof.
  unfold required, r_u64, c_u64, in_u64. intros Hr. apply bind_Some in Hr as ([v|] & _ & Hr); [|done].
  simpl in Hr. destruct v; try done. unfold in_range in Hr.
  destruct (Z.leb_spec 0 n), (Z.leb_spec n U64_MAX); naive_solver lia.
Qed.

Lemma balance_in_range lws rh w bal :
  (gc_get_balance lws rh w).2 = Ok bal -> in_u64 (gb_scanned_height bal).
Proof.
  unfold gc_get_balance, gc_post_json, send. intros Hr. unfold mbind, M_bind, lift, snd in Hr.
  unfold gc_reply in Hr. destruct (http_post _ _ _) as [e|status chunks]; [done|].
  destruct (negb (is_success status)); [done|]. apply bind_Ok in Hr as (bytes & _ & Hr%ok_or_Ok).
  apply bind_Some in Hr as (v & _ & Hr). apply bind_Some in Hr as (kvs & _ & Hr).
  repeat (apply bind_Some in Hr as (? & ?Hf & Hr)). injection Hr as <-. by eapply required_u64.
Qed.

(** What the light-wallet server answered: a balance up to the tip it reports. *)
Definition served (lws : GrinLwsClient) (req : GrinScanRequest) (start : u64) (resp : GrinScanResponse) : Prop :=
  exists bal outs wr wb wo,
    is_ok (gc_register lws (sq_rewind_hash req) (Some start) wr).2 = true /\
    (gc_get_balance lws (sq_rewind_hash req) wb).2 = Ok bal /\
    (gc_get_unspent_outs lws (sq_rewind_hash req) wo).2 = Ok outs /\
    (gb_blockchain_height bal <= gb_scanned_height bal + SYNC_MARGIN)%Z /\
    resp = lws_response bal outs.

Lemma scan_via_served lws req start w w' resp :
  scan_via_grin_lws lws (sq_rewind_hash req) start w = (w', Ok (Some resp)) -> served lws req start resp.
Proof.
  unfold scan_via_grin_lws. intros Hrun. apply bind_run_Ok in Hrun as (w1 & reg & Hreg & Hrun).
  apply bind_run_Ok in Hrun as (w2 & bal & Hb & Hrun).
  destruct (Z.ltb_spec (u64_saturating_add (gb_scanned_height bal) SYNC_MARGIN) (gb_blockchain_height bal)); [done|].
  apply bind_run_Ok in Hrun as (w3 & outs & Ho & [= <- <-]).
  exists bal, outs, w, w1, w2. rewrite Hreg, Hb, Ho. split_and!; try done.
  pose proof (balance_in_range lws (sq_rewind_hash req) w1 bal) as Hr. rewrite Hb in Hr. specialize (Hr eq_refl).
  unfold u64_saturating_add, clamp, in_u64, SYNC_MARGIN in *. lia.
Qed.
End scan.

(** C12: a scan is answered past its gate and by a source that may be believed.  When a scan
    answers with outputs, its caller was authenticated, the view credential was well
    formed, and the height the scan started from, which is the deepest the policy
    allows when the request leaves it out, passed the depth policy and the price
    against a tip that was read.  The answer is the light-wallet server's own balance
    and outputs, after it registered the credential and reported a scan to within two
    blocks of the tip it knows, and then the wallet's state is left alone; or it is
    the wallet's scan from exactly that height. *)
Theorem scan_gated_and_sourced `{Ext} `{Jwt} `{Http} `{GrinNet} state h req st w w' st' resp
    (Hrun : grin_scan state h req st w = (w', Ok (st', inl resp))) :
  exists start tip, passed_gate state h req w start tip /\
    ((exists lws, ga_grin_lws state = Some lws /\ served lws req start resp /\ st' = st) \/
     (exists client view w1, ga_grin state = Some client /\ resp = view_response view /\
        scan_rewind_hash client (sq_rewind_hash req) (Some start) st w1 = (w', Ok (st', inl view)))).
Proof.
  unfold grin_scan in Hrun. apply bind_run_Ok in Hrun as (w1 & start & Hg & Hrun).
  apply scan_gate_passed in Hg as [tip Hg]. exists start, tip. split; [done|].
  apply bind_run_Ok in Hrun as (w2 & preferred & Hp & Hrun). destruct preferred as [served_resp|].
  - injection Hrun as <- <- <-. left. destruct (ga_grin_lws state) as [lws|]; [|done].
    exists lws. split; [done|]. split; [|done]. apply bind_run_Ok in Hp as (w3 & r & Hr & [= <- Hr']).
    unfold attempt in Hr. destruct (scan_via_grin_lws _ _ _ w1) as [w4 [[r0|]|e|]] eqn:Es; simplify_eq/=.
    by eapply scan_via_served.
  - right. apply bind_run_Ok in Hrun as (w3 & client & [-> Hc%ok_or_Ok]%lift_run_Ok & Hrun).
    apply bind_run_Ok in Hrun as (w4 & [st2 [view|e]] & Hs & Hrun); injection Hrun; intros; simplify_eq.
    by exists client, view, w2.
Qed.

(** * Concrete runs *)

Definition from_script (script : list (option Value)) (n : nat) : HttpReply :=
  match script !! n with
  | Some (Some _) => HttpResponse 200 [match Byte.of_nat n with Some b => Some [b] | None => None end]
  | _ => HttpFailed "timed out"
  end.

(** The servers answer the [n]-th call by the [n]-th entry of a script. *)
Definition scripted (script : list (option Value)) : Http := {|
  http_post _ _ := from_script script;
  json_from_slice bs := match bs with [b] => default None (script !! Byte.to_nat b) | _ => None end;
|}.

(** A channel that seals nothing; the texts inside it are numbered. *)
Definition demo_channel (script inner : list (option Value)) : GrinNet := {|
  grin_post _ _ _ := from_script script;
  grin_get _ := from_script script;
  grin_from_str s := match list_byte_of_string s with [b] => default None (inner !! Byte.to_nat b) | _ => None end;
  grin_to_string _ := "text";
  grin_from_utf8 bs := Some (string_of_list_byte bs);
  ephemeral_public n := match Byte.of_nat n with Some b => [b] | None => [] end;
  ecdh_shared n peer := Some (match Byte.of_nat n with Some b => b :: peer | None => peer end);
  aes_encrypt _ _ plain := Some plain;
  aes_decrypt _ _ sealed := Some sealed;
  base64_encode_std bs := string_of_list_byte bs;
  base64_decode_std s := Some (list_byte_of_string s);
|}.

#[export] Instance demo_channel_laws script inner : GrinNetLaws (demo_channel script inner).
Proof.
  split; simpl.
  - by intros key nonce plain sealed [= <-].
  - intros bs. by rewrite list_byte_of_string_of_list_byte.
  - intros v. by rewrite string_of_list_byte_of_string.
Qed.

Definition grin_ok (v : Value) : Value := obj [("result", obj [("Ok", v)])].
Definition sealed_answer (text : string) : Value :=
  grin_ok (obj [("nonce", VString "000000000000000000000000"); ("body_enc", VString text)]).
Definition demo_output (height : u64) : Value :=
  obj [("commit", VString "08c1"); ("value", VNumber 5); ("height", VNumber height); ("mmr_index", VNumber 77);
       ("is_coinbase", VBool false); ("lock_height", VNumber 0)].
Definition demo_rewind_hash : string := "5b5b5b5b5b5b5b5b5b5b5b5b5b5b5b5b5b5b5b5b5b5b5b5b5b5b5b5b5b5b5b5b".

(** A scan whose session expires after the wallet was opened: a handshake, the opening
    and a sealed scan, twice. *)
Definition expiring_script : list (option Value) :=
  [Some (grin_ok (VString "02")); Some (sealed_answer (String "000"%char ""));
   Some (obj [("error", obj [("code", VNumber (-32001))])]);
   Some (grin_ok (VString "02")); Some (sealed_answer (String "000"%char ""));
   Some (sealed_answer (String "001"%char ""))].
Definition expiring_inner : list (option Value) :=
  [Some (grin_ok (VString "token"));
   Some (grin_ok (obj [("rewind_hash", VString demo_rewind_hash); ("output_result", VArray [demo_output 900]);
     ("total_balance", VNumber 5); ("last_pmmr_index", VNumber 77)]))].
Definition demo_owner : GrinWallet := mkGrinWallet "https://owner" "s" "pw" "https://node" "u" "p" "https://foreign" "".

#[local] Abbreviation demo_scans :=
  (scans (H := scripted expiring_script) (H0 := demo_channel expiring_script expiring_inner) demo_owner
    [(demo_rewind_hash, Some 5%Z)] (mkGrinState None None) (quiet_world empty_db 0)).

Lemma nonces_never_repeat_witness :
  length (w_sent demo_scans.1) = 6 /\ is_Some (track [] (snd <$> w_sent demo_scans.1)).
Proof.
  assert (Hl : length (w_sent demo_scans.1) = 6) by (by vm_compute).
  destruct demo_scans as [w' o] eqn:E. split; [exact Hl|].
  destruct (nonces_never_repeat (H := scripted expiring_script) (H0 := demo_channel expiring_script expiring_inner)
    demo_owner [(demo_rewind_hash, Some 5%Z)] (quiet_world empty_db 0) w' o E) as (log & Hs & Ht).
  simpl fst. rewrite Hs. exact Ht.
Defined.

(** An account the light-wallet server has scanned from 999000 is restored from 990000. *)
Definition shallow_script : list (option Value) :=
  [Some (obj [("height", VNumber 1000000)]);
   Some (obj [("registered", VBool true); ("new_account", VBool false); ("scan_height", VNumber 1000000);
              ("start_height", VNumber 999000)]);
   Some (obj [("total", VNumber 5); ("unlocked", VNumber 5); ("count", VNumber 1);
              ("scanned_height", VNumber 999999); ("blockchain_height", VNumber 1000000)]);
   Some (obj [("outputs", VArray [obj [("commit", VString "08c1"); ("value", VNumber 5); ("height", VNumber 999500);
                ("mmr_index", VNumber 77); ("is_coinbase", VBool false); ("lock_height", VNumber 0);
                ("spendable", VBool true)]]);
              ("blockchain_height", VNumber 1000000)])].
Definition demo_grin_state : GrinApiState :=
  mkGrinApiState demo_sm (mkRestoreConfig Bounded 30 7 10 20) (Some demo_owner)
    (Some (mkGrinLwsClient "https://grin-lws" None "")).
Definition demo_scan_req : GrinScanRequest := mkGrinScanRequest demo_rewind_hash (Some 990000%Z) None.

#[local] Abbreviation demo_shallow :=
  (grin_scan (H1 := scripted shallow_script) (H2 := demo_channel shallow_script []) demo_grin_state demo_headers
    demo_scan_req (mkGrinState None None) (quiet_world demo_session_db HOUR)).

Definition answered_scan (o : outcome (GrinState * (GrinScanResponse + AppError))) : option GrinScanResponse :=
  match o with Ok (_, inl resp) => Some resp | _ => None end.

Lemma scan_gated_and_sourced_witness :
  exists resp tip, answered_scan demo_shallow.2 = Some resp /\
    passed_gate (H1 := scripted shallow_script) (H2 := demo_channel shallow_script []) demo_grin_state demo_headers
      demo_scan_req (quiet_world demo_session_db HOUR) 990000 tip.
Proof.
  assert (Ha : match answered_scan demo_shallow.2 with Some _ => true | None => false end = true) by (by vm_compute).
  destruct demo_shallow as [w' [[st' [resp|e]]|e|]] eqn:E; try discriminate Ha.
  destruct (scan_gated_and_sourced (H1 := scripted shallow_script) (H2 := demo_channel shallow_script [])
    demo_grin_state demo_headers demo_scan_req (mkGrinState None None) (quiet_world demo_session_db HOUR)
    w' st' resp E) as (start & tip & Hg & _).
  exists resp, tip. split; [done|]. destruct Hg as (Hu & Hv & Ht & Hs & Hg). simpl in Hs. subst start.
  by split_and!; try apply Hg.
Defined.

(** The server answers that the account is not new and is scanned from 999000; what it
    answers is not looked at, and the restore from 990000 is answered as scanned to
    the tip, without anything between the two heights. *)
Example deep_restore_answered_shallow :
  match answered_scan demo_shallow.2 with
  | Some resp => (sr_total_balance resp, sr_scanned_height resp, ou_height <$> sr_outputs resp)
                 = (5, Some 999999, [999500])%Z
  | None => False
  end.
Proof. by vm_compute. Qed.
