(* ===== verification/Verify.v ===== *)
(** [src/api/verify.rs]: the delegated settlement verification of a peer instance.

    The chains are the clients of [UtxoApi.v], [Lws.v] and [Grin.v].  A run that scans
    takes the state of the Grin client and gives it back. *)

From Stdlib Require Import ZArith Lia Ascii String.
From stdpp Require Import pretty.
From S2P Require Import Prelude RustStr Json Errors Db Effects TipStatus LwsTypes Http Chains Config TipApi Lws WalletCn Electrum UtxoApi Grin.

Local Open Scope string_scope.

(** * Requests and answers *)

Definition NOT_FOUND : string := "not_found".
Definition NOT_CONFIRMED : string := "not_confirmed".
Definition AMOUNT_TOO_LOW : string := "amount_too_low".
Definition DESTINATION_MISMATCH : string := "destination_mismatch".

Record VerifyRequest := mkVerifyRequest {
  vr_coin : string; vr_family : string; vr_network : string; vr_tx_ref : string; vr_amount : string;
  vr_destination : string; vr_dest_address : option string; vr_expected_sender : string;
  vr_ref_id : option string; vr_view_key : option string }.

Record VerifyResponse := mkVerifyResponse {
  vs_verified : bool; vs_sender : option string; vs_amount : option string; vs_reason : option string }.

Definition verified (amount : u64) (sender : option string) : VerifyResponse :=
  mkVerifyResponse true sender (Some (pretty amount)) None.
Definition failed (reason : string) : VerifyResponse := mkVerifyResponse false None None (Some reason).

(** * Clients and decisions *)

Record VerifyState := mkVerifyState {
  vf_btc : option UtxoServer; vf_ltc : option UtxoServer;
  vf_xmr : option CnClient; vf_wow : option CnClient; vf_grin : option GrinWallet }.

Definition not_enabled (coin : string) : AppError := ValidationError (coin ++ " not enabled").

Definition verify_electrum_for (state : VerifyState) (coin : string) : outcome UtxoServer :=
  client ←
    (if coin =? "btc" then Ok (vf_btc state)
     else if coin =? "ltc" then Ok (vf_ltc state)
     else Err (ValidationError ("Invalid UTXO coin: " ++ coin ++ " (expected btc or ltc)")));
  ok_or client (not_enabled coin).

Definition verify_lws_for (state : VerifyState) (coin : string) : outcome CnClient :=
  client ←
    (if coin =? "xmr" then Ok (vf_xmr state)
     else if coin =? "wow" then Ok (vf_wow state)
     else Err (ValidationError ("Invalid CryptoNote coin: " ++ coin ++ " (expected xmr or wow)")));
  ok_or client (not_enabled coin).

Definition grin_for (state : VerifyState) (coin : string) : outcome GrinWallet :=
  if negb (coin =? "grin") then Err (ValidationError ("Invalid Grin coin: " ++ coin ++ " (expected grin)"))
  else ok_or (vf_grin state) (not_enabled coin).

(** What is observed, or the reason it does not do. *)
Definition utxo_amount_outcome (paid_to_dest expected : u64) : u64 + string :=
  if (paid_to_dest =? 0)%Z then inr DESTINATION_MISMATCH
  else if (paid_to_dest <? expected)%Z then inr AMOUNT_TOO_LOW
  else inl paid_to_dest.

Definition grin_amount_outcome (value confs needed expected : u64) : u64 + string :=
  if (confs <? needed)%Z then inr NOT_CONFIRMED
  else if (value <? expected)%Z then inr AMOUNT_TOO_LOW
  else inl value.

Definition amount_verdict (o : u64 + string) : VerifyResponse :=
  match o with inl observed => verified observed None | inr r => failed r end.

(** [confirmations_for_asset(coin).max(0) as u64]. *)
Definition needed_confirmations (coin : string) : u64 := Z.max 0 (confirmations_for_asset coin).

(** * Families *)

Section families.
Context `{Ext} `{Addresses} `{Http} `{GrinNet} (state : VerifyState).

Definition verify_utxo (coin : string) (req : VerifyRequest) (expected : u64) : M VerifyResponse :=
  electrum ← lift (verify_electrum_for state coin);
  match vr_dest_address req with
  | None => mret (failed DESTINATION_MISMATCH)
  | Some dest_address =>
      _ ← lift (validate_hex (vr_tx_ref req) "tx_ref" 64);
      history ← sv_get_history electrum dest_address;
      match find (fun e => he_tx_hash e =? vr_tx_ref req) history with
      | None => mret (failed NOT_FOUND)
      | Some entry =>
          if (he_height entry <=? 0)%Z then mret (failed NOT_CONFIRMED)
          else
            tx ← upstream (us_transaction electrum (vr_tx_ref req));
            paid_to_dest ← lift (total_received_at tx dest_address);
            mret (amount_verdict (utxo_amount_outcome paid_to_dest expected))
      end
  end.

Definition verify_cryptonote (coin : string) (req : VerifyRequest) (expected : u64) : M VerifyResponse :=
  lws ← lift (verify_lws_for state coin);
  match vr_view_key req with
  | None => mret (failed NOT_FOUND)
  | Some view_key =>
      match vr_dest_address req with
      | None => mret (failed DESTINATION_MISMATCH)
      | Some dest_address =>
          _ ← lift (validate_hex (vr_tx_ref req) "tx_ref" 64);
          _ ← lift (validate_view_key view_key);
          _ ← lift (validate_cn_address dest_address);
          txs ← get_address_txs (lws_client lws) dest_address view_key;
          match find (fun t => at_hash t =? vr_tx_ref req) (ar_transactions txs) with
          | None => mret (failed NOT_FOUND)
          | Some tx =>
              if at_mempool tx || (at_height tx =? 0)%Z then mret (failed NOT_CONFIRMED)
              else
                confs ← get_transaction_confirmations (lws_client lws) (vr_tx_ref req);
                if match confs with Some n => (needed_confirmations coin <=? n)%Z | None => false end
                then
                  if (at_total_received tx <? expected)%Z then mret (failed AMOUNT_TOO_LOW)
                  else mret (verified (at_total_received tx) None)
                else mret (failed NOT_CONFIRMED)
          end
      end
  end.

Definition verify_grin_output (coin : string) (req : VerifyRequest) (expected : u64) (st : GrinState)
  : M (GrinState * (VerifyResponse + AppError)) :=
  grin ← lift (grin_for state coin);
  match vr_view_key req with
  | None => mret (st, inl (failed NOT_FOUND))
  | Some rewind_hash =>
      _ ← lift (validate_hex (vr_tx_ref req) "tx_ref" 66);
      _ ← lift (validate_hex64 rewind_hash "view_key");
      r ← scan_rewind_hash grin rewind_hash None st;
      match r with
      | (st, inr e) => mret (st, inr e)
      | (st, inl view) =>
          match find (fun o => eq_ignore_ascii_case (vw_commit o) (vr_tx_ref req)) (vw_output_result view) with
          | None => mret (st, inl (failed NOT_FOUND))
          | Some output =>
              tip ← attempt (grin_get_height grin);
              match tip with
              | inr e => mret (st, inr e)
              | inl tip =>
                  mret (st, inl (amount_verdict (grin_amount_outcome (vw_value output) (view_confirmations output tip)
                                            (needed_confirmations coin) expected)))
              end
          end
      end
  end.

(** * The handler *)

Definition verify_handler (req : VerifyRequest) (st : GrinState) : M (GrinState * (VerifyResponse + AppError)) :=
  let coin := to_lowercase (vr_coin req) in
  let family := to_lowercase (vr_family req) in
  expected ← lift (ok_or (parse_int 0 U64_MAX (vr_amount req)) (ValidationError "amount must be a base-unit integer"));
  if family =? "utxo" then resp ← verify_utxo coin req expected; mret (st, inl resp)
  else if family =? "cryptonote" then resp ← verify_cryptonote coin req expected; mret (st, inl resp)
  else if family =? "grin" then verify_grin_output coin req expected st
  else fail (ValidationError ("unknown settlement family: " ++ family)).

Definition delegated_verify_enabled (env : Env) : bool := env_flag_enabled env "FEATURE_DELEGATED_VERIFY".

(** The route, [None] when it is not mounted. *)
Definition verify_routes (env : Env) : option (VerifyRequest -> GrinState -> M (GrinState * (VerifyResponse + AppError))) :=
  if delegated_verify_enabled env then Some verify_handler else None.
End families.
