(* ===== verification/VerifySafety.v ===== *)
(** What the delegated verification promises: a payment is reported verified only when
    the chain shows it to the request, and a refusal is for something the request leaves out or
    for what the servers answered it.  The concrete runs show how a spelling in capitals hides a
    payment. *)

From Stdlib Require Import ZArith Lia Ascii String.
From Stdlib Require Import SpecFloat.
From stdpp Require Import pretty.
From S2P Require Import Prelude RustStr Json Errors Db Effects TipStatus Demo LwsTypes Http Chains Config TipApi Lws WalletCn Electrum UtxoApi UtxoSafety Grin GrinApi GrinSafety Verify.

Local Open Scope string_scope.

Section verify.
Context `{Ext} `{Addresses} `{Http} `{GrinNet} (state : VerifyState).

(** * What the chains show

    [w] is the world the handler runs in: what the servers answered is what they answered to its
    own calls, in their order. *)

Context (w : World) (st : GrinState).

(** The server's history of the address, searched for the transaction. *)
Definition listed (s : UtxoServer) (dest tx_ref : string) (found : option ElectrumHistoryEntry) : Prop :=
  exists sh history, address_to_scripthash (us_network s) dest = Ok sh /\
    us_history s sh (w_calls w) = Ok history /\
    match found with
    | None => forall e, e ∈ history -> he_tx_hash e <> tx_ref
    | Some e => e ∈ history /\ he_tx_hash e = tx_ref
    end.

(** What the transaction pays the address, as a server gave it: the exact sum of its outputs
    there. *)
Definition pays_at (s : UtxoServer) (dest tx_ref : string) (n : u64) : Prop :=
  exists tx sats, us_transaction s tx_ref (S (w_calls w)) = Ok tx /\
    Forall2 sats_of (paid_to dest (tx_vout tx)) sats /\ n = Zsum sats.

(** The light-wallet server's list of the address, searched for the transaction. *)
Definition seen (c : CnClient) (dest view_key tx_ref : string) (found : option AddressTx) (w1 : World) : Prop :=
  exists txs, get_address_txs (lws_client c) dest view_key w = (w1, Ok txs) /\
    match found with
    | None => forall t, t ∈ ar_transactions txs -> at_hash t <> tx_ref
    | Some t => t ∈ ar_transactions txs /\ at_hash t = tx_ref
    end.

(** The depths of the coins that count them. *)
Definition depth_of (coin : string) : Z := if coin =? "wow" then 4%Z else 10%Z.

(** The output lies that deep under the tip. *)
Definition deep (o : ViewOutput) (tip : u64) (depth : Z) : Prop :=
  vw_height o <> 0%Z /\ (vw_height o <= tip /\ depth <= tip - vw_height o + 1)%Z.

(** The depth the daemon gave next. *)
Definition buried (w1 : World) (c : CnClient) (tx_ref : string) (confs : option u64) : Prop :=
  (get_transaction_confirmations (lws_client c) tx_ref w1).2 = Ok confs.

(** A scan of the whole chain, searched for the commitment. *)
Definition recognized (g : GrinWallet) (rewind_hash commit : string) (found : option ViewOutput) (w1 : World) : Prop :=
  exists st' view, scan_rewind_hash g rewind_hash None st w = (w1, Ok (st', inl view)) /\
    match found with
    | None => forall o, o ∈ vw_output_result view -> eq_ignore_ascii_case (vw_commit o) commit = false
    | Some o => o ∈ vw_output_result view /\ eq_ignore_ascii_case (vw_commit o) commit = true
    end.

Definition tip_read (w1 : World) (g : GrinWallet) (tip : u64) : Prop := (grin_get_height g w1).2 = Ok tip.

(** * What may be answered *)

Inductive utxo_says (coin : string) (req : VerifyRequest) (expected : u64) : VerifyResponse -> Prop :=
  | utxo_no_destination s : verify_electrum_for state coin = Ok s -> vr_dest_address req = None ->
      utxo_says coin req expected (failed DESTINATION_MISMATCH)
  | utxo_unlisted s dest : verify_electrum_for state coin = Ok s -> vr_dest_address req = Some dest ->
      listed s dest (vr_tx_ref req) None -> utxo_says coin req expected (failed NOT_FOUND)
  | utxo_pending s dest e : verify_electrum_for state coin = Ok s -> vr_dest_address req = Some dest ->
      listed s dest (vr_tx_ref req) (Some e) -> (he_height e <= 0)%Z ->
      utxo_says coin req expected (failed NOT_CONFIRMED)
  | utxo_elsewhere s dest e : verify_electrum_for state coin = Ok s -> vr_dest_address req = Some dest ->
      listed s dest (vr_tx_ref req) (Some e) -> (0 < he_height e)%Z -> pays_at s dest (vr_tx_ref req) 0 ->
      utxo_says coin req expected (failed DESTINATION_MISMATCH)
  | utxo_short s dest e n : verify_electrum_for state coin = Ok s -> vr_dest_address req = Some dest ->
      listed s dest (vr_tx_ref req) (Some e) -> (0 < he_height e)%Z -> pays_at s dest (vr_tx_ref req) n ->
      (0 < n < expected)%Z -> utxo_says coin req expected (failed AMOUNT_TOO_LOW)
  | utxo_paid s dest e n : verify_electrum_for state coin = Ok s -> vr_dest_address req = Some dest ->
      listed s dest (vr_tx_ref req) (Some e) -> (0 < he_height e)%Z -> pays_at s dest (vr_tx_ref req) n ->
      (0 < n)%Z -> (expected <= n)%Z -> utxo_says coin req expected (verified n None).

Inductive cryptonote_says (coin : string) (req : VerifyRequest) (expected : u64) : VerifyResponse -> Prop :=
  | cn_no_credential c : verify_lws_for state coin = Ok c -> vr_view_key req = None ->
      cryptonote_says coin req expected (failed NOT_FOUND)
  | cn_no_destination c key : verify_lws_for state coin = Ok c -> vr_view_key req = Some key ->
      vr_dest_address req = None ->
      cryptonote_says coin req expected (failed DESTINATION_MISMATCH)
  | cn_unseen w1 c key dest : verify_lws_for state coin = Ok c -> vr_view_key req = Some key ->
      vr_dest_address req = Some dest -> seen c dest key (vr_tx_ref req) None w1 ->
      cryptonote_says coin req expected (failed NOT_FOUND)
  | cn_pending w1 c key dest t : verify_lws_for state coin = Ok c -> vr_view_key req = Some key ->
      vr_dest_address req = Some dest -> seen c dest key (vr_tx_ref req) (Some t) w1 ->
      at_mempool t = true \/ at_height t = 0%Z -> cryptonote_says coin req expected (failed NOT_CONFIRMED)
  | cn_shallow w1 c key dest t confs : verify_lws_for state coin = Ok c -> vr_view_key req = Some key ->
      vr_dest_address req = Some dest -> seen c dest key (vr_tx_ref req) (Some t) w1 ->
      at_mempool t = false -> at_height t <> 0%Z ->
      buried w1 c (vr_tx_ref req) confs -> (forall n, confs = Some n -> n < depth_of coin)%Z ->
      cryptonote_says coin req expected (failed NOT_CONFIRMED)
  | cn_short w1 c key dest t n : verify_lws_for state coin = Ok c -> vr_view_key req = Some key ->
      vr_dest_address req = Some dest -> seen c dest key (vr_tx_ref req) (Some t) w1 ->
      at_mempool t = false -> at_height t <> 0%Z ->
      buried w1 c (vr_tx_ref req) (Some n) -> (depth_of coin <= n)%Z ->
      (at_total_received t < expected)%Z -> cryptonote_says coin req expected (failed AMOUNT_TOO_LOW)
  | cn_paid w1 c key dest t n : verify_lws_for state coin = Ok c -> vr_view_key req = Some key ->
      vr_dest_address req = Some dest -> seen c dest key (vr_tx_ref req) (Some t) w1 ->
      at_mempool t = false -> at_height t <> 0%Z ->
      buried w1 c (vr_tx_ref req) (Some n) -> (depth_of coin <= n)%Z ->
      (expected <= at_total_received t)%Z -> cryptonote_says coin req expected (verified (at_total_received t) None).

Inductive grin_says (coin : string) (req : VerifyRequest) (expected : u64) : VerifyResponse -> Prop :=
  | grin_no_credential g : grin_for state coin = Ok g -> vr_view_key req = None ->
      grin_says coin req expected (failed NOT_FOUND)
  | grin_unseen w1 g key : grin_for state coin = Ok g -> vr_view_key req = Some key ->
      recognized g key (vr_tx_ref req) None w1 -> grin_says coin req expected (failed NOT_FOUND)
  | grin_shallow w1 g key o tip : grin_for state coin = Ok g -> vr_view_key req = Some key ->
      recognized g key (vr_tx_ref req) (Some o) w1 -> tip_read w1 g tip ->
      ~ deep o tip (depth_of coin) ->
      grin_says coin req expected (failed NOT_CONFIRMED)
  | grin_short w1 g key o tip : grin_for state coin = Ok g -> vr_view_key req = Some key ->
      recognized g key (vr_tx_ref req) (Some o) w1 -> tip_read w1 g tip ->
      deep o tip (depth_of coin) -> (vw_value o < expected)%Z ->
      grin_says coin req expected (failed AMOUNT_TOO_LOW)
  | grin_paid w1 g key o tip : grin_for state coin = Ok g -> vr_view_key req = Some key ->
      recognized g key (vr_tx_ref req) (Some o) w1 -> tip_read w1 g tip ->
      deep o tip (depth_of coin) -> (expected <= vw_value o)%Z ->
      grin_says coin req expected (verified (vw_value o) None).
#[local] Hint Constructors utxo_says cryptonote_says grin_says : core.

(** * The handler answers nothing else *)

(** What a search by a key found, and what it did not. *)
Lemma find_by {A} (p : A -> bool) l :
  match find p l with Some x => x ∈ l /\ p x = true | None => forall x, x ∈ l -> p x = false end.
Proof.
  destruct (find p l) as [x|] eqn:E.
  - apply find_some in E as [Hin Hp]. by rewrite list_elem_of_In.
  - intros x Hx%list_elem_of_In. by eapply find_none.
Qed.

Lemma find_key {A} (key : A -> string) v l :
  match find (fun x => key x =? v) l with
  | Some x => x ∈ l /\ key x = v
  | None => forall x, x ∈ l -> key x <> v
  end.
Proof.
  pose proof (find_by (fun x => key x =? v) l) as Hf. destruct (find _ l).
  - destruct Hf as [? ?%String.eqb_eq]. by split.
  - intros x Hx%Hf. by apply String.eqb_neq.
Qed.

Lemma cryptonote_depth coin c :
  verify_lws_for state coin = Ok c -> needed_confirmations coin = depth_of coin.
Proof.
  unfold verify_lws_for. destruct (String.eqb_spec coin "xmr") as [->|_]; [done|].
  by destruct (String.eqb_spec coin "wow") as [->|_].
Qed.

Lemma grin_depth coin g :
  grin_for state coin = Ok g -> needed_confirmations coin = 10%Z /\ depth_of coin = 10%Z.
Proof. unfold grin_for. by destruct (String.eqb_spec coin "grin") as [->|_]. Qed.

Lemma deep_view o tip : deep o tip 10 <-> (10 <= view_confirmations o tip)%Z.
Proof.
  unfold deep, view_confirmations, view_output_confirmations. simpl.
  destruct (Z.eqb_spec (vw_height o) 0); simpl; [lia|].
  destruct (Z.ltb_spec tip (vw_height o)); [lia|].
  unfold u64_saturating_add, u64_saturating_sub, clamp. int_lia.
Qed.

Lemma verify_utxo_says coin req expected w' resp :
  verify_utxo state coin req expected w = (w', Ok resp) -> utxo_says coin req expected resp.
Proof.
  unfold verify_utxo. intros (w1 & s & [-> Hs]%lift_run_Ok & Hrun)%bind_run_Ok.
  destruct (vr_dest_address req) as [dest|] eqn:Hd; [|injection Hrun as <- <-; eauto].
  apply bind_run_Ok in Hrun as (w2 & [] & [-> _]%lift_run_Ok & Hrun).
  apply bind_run_Ok in Hrun as (w3 & history & Hq & Hrun). unfold sv_get_history, by_scripthash in Hq.
  apply bind_run_Ok in Hq as (w2 & sh & [-> Hsh]%lift_run_Ok & [= Hw3 Hq]).
  assert (Hl : listed s dest (vr_tx_ref req) (find (fun e => he_tx_hash e =? vr_tx_ref req) history))
    by (exists sh, history; split_and!; [done..|apply find_key]).
  destruct (find _ history) as [e|].
  2: { injection Hrun as <- <-. eauto. }
  destruct (Z.leb_spec (he_height e) 0); [injection Hrun as <- <-; eauto|].
  apply bind_run_Ok in Hrun as (w4 & tx & [= _ Htx] & Hrun).
  apply bind_run_Ok in Hrun as (w5 & n & [-> Hn]%lift_run_Ok & [= <- <-]).
  assert (Hp : pays_at s dest (vr_tx_ref req) n).
  { apply total_received_exact in Hn as (ss & ? & _ & -> & _). exists tx, ss. by rewrite <- Hw3 in Htx. }
  apply total_received_at_bound in Hn. unfold in_u64 in Hn.
  unfold utxo_amount_outcome. destruct (Z.eqb_spec n 0) as [->|]; [eauto|].
  destruct (Z.ltb_spec n expected); simpl; [eapply utxo_short|eapply utxo_paid]; eauto with lia.
Qed.

Lemma verify_cryptonote_says coin req expected w' resp :
  verify_cryptonote state coin req expected w = (w', Ok resp) -> cryptonote_says coin req expected resp.
Proof.
  unfold verify_cryptonote. intros (w1 & c & [-> Hc]%lift_run_Ok & Hrun)%bind_run_Ok.
  destruct (vr_view_key req) as [key|] eqn:Hk; [|injection Hrun as <- <-; eauto].
  destruct (vr_dest_address req) as [dest|] eqn:Hd; [|injection Hrun as <- <-; eauto].
  do 3 (apply bind_run_Ok in Hrun as (? & [] & [-> _]%lift_run_Ok & Hrun)).
  apply bind_run_Ok in Hrun as (w3 & txs & Htxs & Hrun).
  assert (Hs : seen c dest key (vr_tx_ref req) (find (fun t => at_hash t =? vr_tx_ref req) (ar_transactions txs)) w3)
    by (exists txs; rewrite Htxs; split; [done|apply find_key]).
  destruct (find _ _) as [t|].
  2: { injection Hrun as <- <-. eauto. }
  destruct (at_mempool t || (at_height t =? 0)%Z) eqn:Ep.
  { injection Hrun as <- <-. apply orb_true_iff in Ep as [?|?%Z.eqb_eq]; eauto. }
  apply orb_false_iff in Ep as [Hm Hh%Z.eqb_neq].
  apply bind_run_Ok in Hrun as (w4 & confs & Hconfs & Hrun).
  assert (Hb : buried w3 c (vr_tx_ref req) confs) by (unfold buried; by rewrite Hconfs).
  destruct confs as [n|]; [|injection Hrun as <- <-; eapply cn_shallow; eauto; done].
  rewrite (cryptonote_depth coin c Hc) in Hrun. destruct (Z.leb_spec (depth_of coin) n).
  - destruct (Z.ltb_spec (at_total_received t) expected); injection Hrun as <- <-; eauto.
  - injection Hrun as <- <-. eapply cn_shallow; eauto. by intros ? [= <-].
Qed.

Lemma verify_grin_says coin req expected w' st' resp :
  verify_grin_output state coin req expected st w = (w', Ok (st', inl resp)) -> grin_says coin req expected resp.
Proof.
  unfold verify_grin_output. intros (w1 & g & [-> Hg]%lift_run_Ok & Hrun)%bind_run_Ok.
  destruct (vr_view_key req) as [key|] eqn:Hk; [|injection Hrun as <- <- <-; eauto].
  do 2 (apply bind_run_Ok in Hrun as (? & [] & [-> _]%lift_run_Ok & Hrun)).
  apply bind_run_Ok in Hrun as (w3 & [st1 [view|e]] & Hscan & Hrun); [|done].
  assert (Hr : recognized g key (vr_tx_ref req)
      (find (fun o => eq_ignore_ascii_case (vw_commit o) (vr_tx_ref req)) (vw_output_result view)) w3)
    by (exists st1, view; rewrite Hscan; split; [done|apply find_by]).
  destruct (find _ _) as [o|].
  2: { injection Hrun as <- <- <-. eauto. }
  apply bind_run_Ok in Hrun as (w4 & tip & Ht & Hrun).
  unfold attempt in Ht. destruct (grin_get_height g w3) as [w5 [t|e|]] eqn:Eh; simplify_eq/=; try done.
  assert (Htip : tip_read w3 g t) by (unfold tip_read; by rewrite Eh).
  injection Hrun as <- <- <-. unfold grin_amount_outcome.
  destruct (grin_depth _ _ Hg) as [-> Hd]. pose proof (deep_view o t) as Hdeep. rewrite <- Hd in Hdeep at 1.
  destruct (Z.ltb_spec (view_confirmations o t) 10) as [Hlt|Hge].
  { eapply grin_shallow; eauto. rewrite Hdeep. lia. }
  apply Hdeep in Hge. destruct (Z.ltb_spec (vw_value o) expected); simpl; eauto.
Qed.
End verify.

(** * Verifying changes nothing here *)

Section quiet.
Context `{Ext} `{Http} `{GrinNet} (c : GrinWallet).

Definition g_free {A} (m : G A) : Prop := forall st, db_free (m st).

Lemma g_free_bind {A B} (m : G A) (f : A -> G B) : g_free m -> (forall a, g_free (f a)) -> g_free (g_bind m f).
Proof.
  intros Hm Hf st w. specialize (Hm st w). unfold g_bind. destruct (m st w) as [w1 [[st1 [a|e]]|e|]]; try done.
  destruct (Hf a st1 w1) as (? & ? & ?). simpl in *. destruct_and!. split_and!; congruence.
Qed.

Lemma g_free_run {A} (m : M A) : db_free m -> g_free (g_run m).
Proof. intros Hm st. unfold g_run. by db_free_steps. Qed.

Lemma g_free_ret {A} (a : A) : g_free (g_ret a).
Proof. intros st. apply db_free_ret. Qed.

Lemma g_free_fail {A} e : g_free (g_fail (A := A) e).
Proof. intros st. apply db_free_ret. Qed.

Lemma db_free_post url auth body : db_free (post_capped url auth body).
Proof. done. Qed.
#[local] Hint Resolve db_free_post g_free_ret g_free_fail : core.

Lemma g_free_owner_rpc {A} method params (read : Reader A) : g_free (owner_rpc c method params read).
Proof.
  unfold owner_rpc. apply g_free_bind.
  { intros st. unfold ensure_session. destruct (gs_secure_session st); [by db_free_steps|].
    apply db_free_bind; [done|]. intros n. by db_free_steps. }
  intros _. apply g_free_bind.
  { intros st. unfold seal. destruct (gs_secure_session st) as [s|]; [|by db_free_steps].
    destruct (encrypt s _) as [s' parts]. by db_free_steps. }
  intros parts. apply g_free_bind; [by apply g_free_run|]. intros bytes.
  apply g_free_bind; [by apply g_free_run|]. intros outer. destruct (ev_error outer).
  { destruct (_ =? _)%Z; [|done]. intros st. apply db_free_ret. }
  destruct (ev_result outer) as [[p|]|]; try done. apply g_free_bind.
  { intros st. unfold unseal. destruct (gs_secure_session st); [by apply g_free_run|apply db_free_ret]. }
  intros d. apply g_free_bind; [by apply g_free_run|]. intros inner. by apply g_free_run.
Qed.

Lemma g_free_scan rewind_hash start : g_free (scan_rewind_hash c rewind_hash start).
Proof.
  assert (Ha : g_free (scan_attempt c rewind_hash start)).
  { apply g_free_bind; [|intros; apply g_free_owner_rpc]. intros st. unfold open_wallet.
    destruct (gs_session_token st); [apply db_free_ret|]. apply db_free_bind; [apply g_free_owner_rpc|].
    intros [? []]; apply db_free_ret. }
  apply g_free_bind.
  { intros st. unfold g_attempt. apply db_free_bind; [apply Ha|]. intros r. apply db_free_ret. }
  intros [view|e]; [done|]. apply g_free_bind; [|done]. intros st. apply db_free_ret.
Qed.

Lemma db_free_by_scripthash `{Addresses} {A} s (query : string -> nat -> outcome A) a : db_free (by_scripthash s query a).
Proof. unfold by_scripthash. by db_free_steps. Qed.

Lemma db_free_address_txs l a k : db_free (get_address_txs l a k).
Proof. unfold get_address_txs. by db_free_steps. Qed.

Lemma db_free_confirmations l txid : db_free (get_transaction_confirmations l txid).
Proof.
  unfold get_transaction_confirmations, get_blockchain_height. destruct (is_empty _); [by db_free_steps|].
  apply db_free_bind; [by db_free_steps|]. intros h. apply db_free_bind; [done|]. intros resp.
  destruct (negb _); [done|]. by destruct (dx_txs resp) as [[]|].
Qed.

Lemma db_free_grin_height : db_free (grin_get_height c).
Proof. unfold grin_get_height, get_status, node_rpc. by db_free_steps. Qed.
End quiet.

Lemma db_free_verify_handler `{Ext} `{Addresses} `{Http} `{GrinNet} state req st :
  db_free (verify_handler state req st).
Proof.
  assert (Hgh := db_free_grin_height). assert (Hgs := g_free_scan).
  assert (Hsh := fun s => db_free_by_scripthash s (us_history s)).
  assert (Hat := db_free_address_txs). assert (Hco := db_free_confirmations).
  unfold verify_handler, verify_utxo, verify_cryptonote, verify_grin_output, sv_get_history, g_free in *.
  apply db_free_bind; [done|]. intros expected. by db_free_steps.
Qed.

(** C13: what the delegated verification answers is what the chain showed this request.  For
    every request and every behaviour of the servers, an answer of the endpoint, verified or
    not, is one the specification of its family allows: verified with the observed
    amount only when, asked by this very run, the servers listed the payment under the id and
    the address as the request spells them, confirmed to the depth of the coin, of at least the
    amount asked for; refused only when the request leaves out the address or the key that its
    family needs, or for the reason that the servers' answers to this run give for that
    spelling (a payment spelt otherwise by the servers is refused too:
    [capitals_hide_payment]), so an upstream that fails is never reported as a refusal.  And
    this unauthenticated endpoint leaves the database of the instance alone. *)
Theorem verification_honest `{Ext} `{Addresses} `{Http} `{GrinNet} state req st w w' st' resp
    (Hrun : verify_handler state req st w = (w', Ok (st', inl resp))) :
  w_db w' = w_db w /\
  exists expected, parse_int 0 U64_MAX (vr_amount req) = Some expected /\
    (vs_verified resp = true -> exists n, resp = verified n None /\ (expected <= n)%Z) /\
    let coin := to_lowercase (vr_coin req) in
    let family := to_lowercase (vr_family req) in
    (family = "utxo" /\ utxo_says state w coin req expected resp \/
     family = "cryptonote" /\ cryptonote_says state w coin req expected resp \/
     family = "grin" /\ grin_says state w st coin req expected resp).
Proof.
  pose proof (db_free_verify_handler state req st w) as (Hdb & _ & _). rewrite Hrun in Hdb. split; [exact Hdb|].
  unfold verify_handler in Hrun.
  apply bind_run_Ok in Hrun as (w1 & expected & [-> He%ok_or_Ok]%lift_run_Ok & Hrun).
  exists expected. split; [done|].
  destruct (String.eqb_spec (to_lowercase (vr_family req)) "utxo") as [Hf|_].
  { apply bind_run_Ok in Hrun as (w2 & r & Hr%verify_utxo_says & [= <- <- <-]).
    split; [|by left]. destruct Hr; try discriminate; eauto. }
  destruct (String.eqb_spec (to_lowercase (vr_family req)) "cryptonote") as [Hf|_].
  { apply bind_run_Ok in Hrun as (w2 & r & Hr%verify_cryptonote_says & [= <- <- <-]).
    split; [|by right; left]. destruct Hr; try discriminate; eauto. }
  destruct (String.eqb_spec (to_lowercase (vr_family req)) "grin") as [Hf|_]; [|done].
  apply verify_grin_says in Hrun as Hr. split; [|by right; right]. destruct Hr; try discriminate; eauto.
Qed.

(** * Concrete runs *)

(** Bech32 allows an address in small letters or in capitals. *)
Definition bech32_demo : Addresses := {|
  segwit_decode a := if (a =? "bc1qdemo") || (a =? "BC1QDEMO") then Some ("bc", 0%Z, demo_program) else None;
  bs58_decode _ := None;
|}.
Definition demo_verify_state : VerifyState := mkVerifyState (Some demo_server) None None None None.
Definition demo_verify_req (tx_ref dest : string) : VerifyRequest :=
  mkVerifyRequest "btc" "UTXO" "btc-mainnet" tx_ref "40000000" "pay_recipient" (Some dest) "" None None.

#[local] Abbreviation demo_verify tx_ref dest :=
  (verify_handler (H0 := bech32_demo) (H1 := scripted []) (H2 := demo_channel [] []) demo_verify_state
    (demo_verify_req tx_ref dest) (mkGrinState None None) (quiet_world empty_db 0)).

Definition answer_of (o : outcome (GrinState * (VerifyResponse + AppError))) : option VerifyResponse :=
  match o with Ok (_, inl resp) => Some resp | _ => None end.

Lemma verification_honest_witness :
  exists resp, answer_of (demo_verify "aa" "bc1qdemo").2 = Some resp /\ vs_verified resp = true /\
    exists n, resp = verified n None /\ (40000000 <= n)%Z.
Proof.
  assert (Ha : match answer_of (demo_verify "aa" "bc1qdemo").2 with Some r => vs_verified r | None => false end = true)
    by (by vm_compute).
  destruct (demo_verify "aa" "bc1qdemo") as [w' [[st' [resp|e]]|e|]] eqn:E; try discriminate Ha.
  destruct (verification_honest (H0 := bech32_demo) (H1 := scripted []) (H2 := demo_channel [] []) demo_verify_state
    (demo_verify_req "aa" "bc1qdemo") (mkGrinState None None) (quiet_world empty_db 0) w' st' resp E)
    as (_ & expected & He & Hv & _).
  exists resp. split; [done|]. split; [exact Ha|]. assert (expected = 40000000%Z) as -> by (vm_compute in He; congruence).
  exact (Hv Ha).
Defined.

(** The same payment, its transaction named in capitals, which the validation of the
    request allows, is not found; and its destination in capitals, which the server is
    asked about, is not the one the transaction pays. *)
Example capitals_hide_payment :
  vs_reason <$> answer_of (demo_verify "AA" "bc1qdemo").2 = Some (Some NOT_FOUND) /\
  vs_reason <$> answer_of (demo_verify "aa" "BC1QDEMO").2 = Some (Some DESTINATION_MISMATCH).
Proof. by vm_compute. Qed.
