(* ===== verification/Prices.v ===== *)
(** [src/infra/prices.rs], [src/api/prices.rs] and the refresh task of [src/main.rs]:
    the fiat price feed.

    A price is an IEEE binary64 value; its text is parsed with correct rounding, as
    [str::parse] does.  The float literals of JSON are a parameter, and so is HTTP. *)

From Stdlib Require Import ZArith Lia Ascii String.
From Stdlib Require Import SpecFloat.
From stdpp Require Import pretty.
From S2P Require Import Prelude RustStr Json Errors Db Effects LwsTypes Http Chains Config Lws Electrum.

Local Open Scope string_scope.

(** * Floats *)

Definition f64_add : f64 -> f64 -> f64 := SFadd 53 1024.
Definition f64_div : f64 -> f64 -> f64 := SFdiv 53 1024.
Definition f64_zero : f64 := S754_zero false.
Definition f64_of_int (n : Z) : f64 := binary_normalize 53 1024 n 0 false.

(** [m * 10^e], correctly rounded. *)
Definition decimal_f64 (m e : Z) : f64 :=
  match m with
  | Zpos p => if (0 <=? e)%Z then f64_of_int (m * 10 ^ e)
              else f64_div (S754_finite false p 0) (S754_finite false (Z.to_pos (10 ^ (- e))) 0)
  | _ => f64_zero
  end.

(** The digits at the head of a text: how many, their value, the rest. *)
Fixpoint take_digits (count acc : Z) (s : string) : Z * Z * string :=
  match s with
  | String c s' => if is_ascii_digit c then take_digits (count + 1) (acc * 10 + (Z.of_nat (code c) - 48)) s'
                   else (count, acc, s)
  | EmptyString => (count, acc, s)
  end.

(** The exponent that ends a number, 0 when there is none. *)
Definition parse_exponent (s : string) : option Z :=
  match s with
  | EmptyString => Some 0%Z
  | String c s' =>
      if Ascii.eqb (ascii_lower c) "e" then
        match s' with
        | String d s'' =>
            if Ascii.eqb d "-" then Z.opp <$> parse_digits s''
            else if Ascii.eqb d "+" then parse_digits s'' else parse_digits s'
        | EmptyString => None
        end
      else None
  end.

(** Digits with a point among them and an exponent, without a sign. *)
Definition parse_decimal (s : string) : option f64 :=
  let '(n1, whole, r1) := take_digits 0 0 s in
  let '(n2, m, r2) :=
    match r1 with
    | String c r => if Ascii.eqb c "." then take_digits 0 whole r else (0%Z, whole, r1)
    | EmptyString => (0%Z, whole, r1)
    end in
  if (n1 + n2 =? 0)%Z then None
  else e ← parse_exponent r2; Some (decimal_f64 m (e - n2)).

Definition parse_unsigned_f64 (s : string) : option f64 :=
  let l := to_lowercase s in
  if (l =? "inf") || (l =? "infinity") then Some (S754_infinity false)
  else if l =? "nan" then Some S754_nan
  else parse_decimal s.

(** [s.parse::<f64>().ok()]. *)
Definition parse_f64 (s : string) : option f64 :=
  match s with
  | String c s' =>
      if Ascii.eqb c "-" then SFopp <$> parse_unsigned_f64 s'
      else if Ascii.eqb c "+" then parse_unsigned_f64 s' else parse_unsigned_f64 s
  | EmptyString => None
  end.

(** * Feeds *)

Definition COIN_IDS : list (string * string) :=
  [("btc", "bitcoin"); ("ltc", "litecoin"); ("xmr", "monero"); ("wow", "wownero"); ("grin", "grin")].
Definition KRAKEN_PAIRS : list (string * string) :=
  [("btc", "XXBTZUSD"); ("ltc", "XLTCZUSD"); ("xmr", "XXMRZUSD")].
Definition MAX_PRICE_BODY_BYTES : Z := (256 * 1024)%Z.
Definition MIN_INTERVAL_SECS : u64 := 60%Z.
Definition COINGECKO_URL : string := "https://api.coingecko.com/api/v3/simple/price".
Definition KRAKEN_URL : string := "https://api.kraken.com/0/public/Ticker".
Definition NONLOGS_URL : string := "https://api.nonlogs.io/api/markets".
Definition NEROSWAP_URL : string := "https://prices.neroswap.com/v1/prices".

Abbreviation Quotes := (gmap string f64).

Record PriceSnapshot := mkPriceSnapshot {
  ps_currency : string; ps_prices : Quotes; ps_updated_at : option Time }.
Definition empty_snapshot (currency : string) : PriceSnapshot := mkPriceSnapshot currency ∅ None.

Record PriceClient := mkPriceClient {
  pl_provider : string; pl_currency : string; pl_feeds : list (string * string) }.

Definition assoc (sym : string) (l : list (string * string)) : option (string * string) :=
  find (fun e => e.1 =? sym) l.

Definition price_client_new (provider currency : string) (assets : list string) : PriceClient :=
  mkPriceClient provider currency (omap (fun a => assoc a COIN_IDS) assets).

Definition feeds_empty (c : PriceClient) : bool := match pl_feeds c with [] => true | _ => false end.

(** A GET with its query at the [n]-th call, and the float literals of JSON. *)
Class PriceNet := {
  price_get : string -> list (string * string) -> nat -> HttpReply;
  json_float : string -> f64;
}.

Section feeds.
Context `{Http} `{PriceNet}.

Definition price_request (url : string) (query : list (string * string)) : M HttpReply :=
  upstream (fun n => Ok (price_get url query n)).

Definition price_read_capped (chunks : list (option (list Byte.byte))) : outcome (list Byte.byte) :=
  read_capped_with (NodeError "price read failed") (NodeError "price response exceeded size limit")
    MAX_PRICE_BODY_BYTES [] chunks.

Definition read_price : Reader f64 := fun v =>
  match v with VNumber n => Some (f64_of_int n) | VFloat t => Some (json_float t) | _ => None end.

(** A [HashMap] from JSON: the last of two entries under a key stays. *)
Definition r_map {A} (read : Reader A) : Reader (gmap string A) := fun v =>
  match v with
  | VObject kvs =>
      entries ← mapM (fun kv => a ← read kv.2; Some (kv.1, a)) kvs;
      Some (foldl (fun m e => <[e.1 := e.2]> m) ∅ entries)
  | _ => None
  end.

Definition is_quote (p : f64) : bool := f64_is_finite p && f64_is_positive p.

(** ** Nonlogs *)

Record NonlogsMarket := mkNonlogsMarket { nm_last_price : option string }.

Definition read_markets : Reader (gmap string NonlogsMarket) :=
  r_struct ["markets"] (required (r_map (r_struct ["last_price"] (fun kvs =>
    p ← optional r_string "last_price" kvs; Some (mkNonlogsMarket p)))) "markets").

Definition market_price (markets : gmap string NonlogsMarket) (pair : string) : option f64 :=
  m ← markets !! pair; t ← nm_last_price m; p ← parse_f64 t;
  if f64_is_positive p then Some p else None.

Definition nonlogs_usd_price (markets : gmap string NonlogsMarket) (sym : string) (btc_usd : f64) : option f64 :=
  let up := to_uppercase sym in
  let sources := (match market_price markets (up ++ "-BTC") with Some btc => [f64_mul btc btc_usd] | None => [] end
                  ++ match market_price markets (up ++ "-USDT") with Some usdt => [usdt] | None => [] end)%list in
  match sources with
  | [] => None
  | _ => Some (f64_div (foldl f64_add f64_zero sources) (f64_of_int (Z.of_nat (length sources))))
  end.

Definition nonlogs_quotes (markets : gmap string NonlogsMarket) (btc_usd : f64) : Quotes :=
  foldl (fun out sym => match nonlogs_usd_price markets sym btc_usd with
                        | Some p => <[sym := p]> out | None => out end) ∅ ["wow"; "grin"].

(** What a reply of the markets gives, nothing when anything fails. *)
Definition nonlogs_reply (btc_usd : f64) (reply : HttpReply) : option Quotes :=
  match reply with
  | HttpFailed _ => None
  | HttpResponse status chunks =>
      if negb (is_success status) then None
      else match price_read_capped chunks with
           | Ok bytes => markets ← json_from_slice bytes ≫= read_markets; Some (nonlogs_quotes markets btc_usd)
           | _ => None
           end
  end.

Definition fetch_nonlogs (btc_usd : option f64) : M (option Quotes) :=
  match btc_usd with
  | None => mret None
  | Some btc_usd => reply ← price_request NONLOGS_URL []; mret (nonlogs_reply btc_usd reply)
  end.

(** ** Kraken *)

Definition read_kraken : Reader (list string * option (gmap string (list string))) :=
  r_struct ["error"; "result"] (fun kvs =>
    e ← defaulted [] (r_list r_string) "error" kvs;
    r ← optional (r_map (r_struct ["c"] (required (r_list r_string) "c"))) "result" kvs;
    Some (e, r)).

Definition kraken_price (result : gmap string (list string)) (pair : string) : option f64 :=
  c ← result !! pair; t ← head c; p ← parse_f64 t; if is_quote p then Some p else None.

Definition kraken_quotes (pairs : list (string * string)) (bytes : list Byte.byte) : Quotes :=
  match json_from_slice bytes ≫= read_kraken with
  | Some ([], Some result) =>
      foldl (fun out e => match kraken_price result e.2 with Some p => <[e.1 := p]> out | None => out end) ∅ pairs
  | _ => ∅
  end.

(** Only a body that cannot be read is an error. *)
Definition kraken_reply (pairs : list (string * string)) (reply : HttpReply) : outcome Quotes :=
  match reply with
  | HttpFailed _ => Ok ∅
  | HttpResponse status chunks =>
      if is_success status then bytes ← price_read_capped chunks; Ok (kraken_quotes pairs bytes) else Ok ∅
  end.

Definition quotes_sym (c : PriceClient) (sym : string) : bool := existsb (fun e => e.1 =? sym) (pl_feeds c).

Definition fetch_kraken_nonlogs (c : PriceClient) : M Quotes :=
  let pairs := omap (fun e => assoc e.1 KRAKEN_PAIRS) (pl_feeds c) in
  out ← (match pairs with
         | [] => mret ∅
         | _ => reply ← price_request KRAKEN_URL [("pair", String.concat "," (snd <$> pairs))];
                lift (kraken_reply pairs reply)
         end);
  if existsb (fun e => (e.1 =? "wow") || (e.1 =? "grin")) (pl_feeds c) then
    np ← fetch_nonlogs (out !! "btc");
    mret (match np with
          | Some np => base.filter (fun e => quotes_sym c e.1 = true) np ∪ out
          | None => out
          end)
  else mret out.

(** ** CoinGecko and the oracle *)

Definition success_bytes (reply : HttpReply) : outcome (list Byte.byte) :=
  match reply with
  | HttpFailed _ => Err (NodeError "price fetch failed")
  | HttpResponse status chunks =>
      if negb (is_success status) then Err (NodeError ("price provider returned HTTP " ++ pretty status))
      else price_read_capped chunks
  end.

Definition invalid_response : AppError := NodeError "invalid price response".

Definition coingecko_quotes (c : PriceClient) (raw : gmap string (gmap string f64)) : Quotes :=
  foldl (fun out e =>
    match m ← raw !! e.2; m !! pl_currency c with
    | Some price => if f64_is_finite price && SFleb f64_zero price then <[e.1 := price]> out else out
    | None => out
    end) ∅ (pl_feeds c).

Definition fetch_coingecko (c : PriceClient) : M Quotes :=
  reply ← price_request COINGECKO_URL
    [("ids", String.concat "," (snd <$> pl_feeds c)); ("vs_currencies", pl_currency c)];
  lift (bytes ← success_bytes reply;
        raw ← ok_or (json_from_slice bytes ≫= r_map (r_map read_price)) invalid_response;
        Ok (coingecko_quotes c raw)).

Definition oracle_price (rates : gmap string f64) (sym : string) : option f64 :=
  p ← rates !! sym; if is_quote p then Some p else None.

(** The prices the oracle has, and the assets it misses, in order. *)
Definition oracle_quotes (c : PriceClient) (rates : gmap string f64) : Quotes * list string :=
  foldl (fun '(out, missing) e =>
    match oracle_price rates (to_uppercase e.1) with
    | Some p => (<[e.1 := p]> out, missing)
    | None => (out, missing ++ [e.1])%list
    end) (∅, []) (pl_feeds c).

Definition add_missing (nonlogs : Quotes) (out : Quotes) (missing : list string) : Quotes :=
  foldl (fun out a => match nonlogs !! a with Some p => <[a := p]> out | None => out end) out missing.

Definition fetch_neroswap (c : PriceClient) : M Quotes :=
  reply ← price_request NEROSWAP_URL [];
  rates ← lift (bytes ← success_bytes reply;
                ok_or (json_from_slice bytes ≫= r_struct ["rates"] (required (r_map read_price) "rates"))
                  invalid_response);
  let '(out, missing) := oracle_quotes c rates in
  match missing with
  | [] => mret out
  | _ => np ← fetch_nonlogs (oracle_price rates "BTC");
         mret (match np with Some np => add_missing np out missing | None => out end)
  end.

Definition fetch (c : PriceClient) : M Quotes :=
  if feeds_empty c then mret ∅
  else if pl_provider c =? "neroswap" then fetch_neroswap c
  else if pl_provider c =? "coingecko" then fetch_coingecko c
  else if pl_provider c =? "kraken" then fetch_kraken_nonlogs c
  else fail (ConfigError ("unsupported prices provider: " ++ pl_provider c)).

(** * The refresh task *)

Definition refresh_interval (configured_secs : u64) : Z := Z.max configured_secs MIN_INTERVAL_SECS.

(** One tick. *)
Definition price_refresh (c : PriceClient) (snap : PriceSnapshot) : M PriceSnapshot :=
  r ← attempt (fetch c);
  match r with
  | inl prices => now ← utc_now; mret (mkPriceSnapshot (ps_currency snap) prices (Some now))
  | inr _ => mret snap
  end.

(** The ticks of the task, each at a time the clock has by then. *)
Fixpoint price_refreshes (c : PriceClient) (ticks : list Time) (snap : PriceSnapshot) : M PriceSnapshot :=
  match ticks with
  | [] => mret snap
  | t :: ticks =>
      snap ← (fun w => price_refresh c snap (w <|w_now := t|>));
      price_refreshes c ticks snap
  end.

(** The client of the task that [main] spawns, if any. *)
Definition price_task (f : FeatureFlags) : option PriceClient :=
  if negb (ff_prices f) then None
  else let c := price_client_new (ff_prices_provider f) (ff_prices_currency f) (ff_prices_assets f) in
       if feeds_empty c then None else Some c.
End feeds.

(** * The handler *)

Record PricesResponse := mkPricesResponse {
  pr_currency : string; pr_prices : Quotes; pr_updated_at : option string }.

Definition prices `{Ext} (f : FeatureFlags) (snap : PriceSnapshot) : outcome PricesResponse :=
  if negb (ff_prices f) then Err (NotFound "price feed is not enabled on this server")
  else Ok (mkPricesResponse (ps_currency snap) (ps_prices snap) (to_rfc3339 <$> ps_updated_at snap)).
