(* ===== verification/PricesSafety.v ===== *)
(** What the price feed promises: whatever the providers answer, a snapshot quotes
    only the configured assets, at prices that are numbers and not negative.  The
    concrete runs show where it departs from what its documentation says. *)

From Stdlib Require Import ZArith Lia Ascii String.
From Stdlib Require Import SpecFloat.
From S2P Require Import Prelude RustStr Json Errors Db Effects Demo LwsTypes Http Chains Config Lws Electrum Prices.

Local Open Scope string_scope.

(** * Signs *)

(** A number without a sign, perhaps infinite. *)
Definition unsigned (x : f64) : Prop :=
  match x with S754_zero s | S754_infinity s | S754_finite s _ _ => s = false | S754_nan => False end.

Lemma positive_unsigned x : f64_is_positive x = true -> unsigned x.
Proof. unfold f64_is_positive, SFltb. by destruct x as [[]|[]| |[] m e]. Qed.

Lemma nonneg_unsigned x : f64_is_finite x = true -> SFleb f64_zero x = true -> unsigned x \/ x = S754_zero true.
Proof. unfold SFleb. destruct x as [[]|[]| |[] m e]; simpl; auto; done. Qed.

Section rounding.
Local Open Scope Z_scope.

Lemma shr_1_nonneg r : 0 <= shr_m r -> 0 <= shr_m (shr_1 r).
Proof. destruct r as [[|[]|[]] ? ?]; simpl; lia. Qed.

Lemma iter_shr_nonneg p r : 0 <= shr_m r -> 0 <= shr_m (SpecFloat.iter_pos shr_1 p r).
Proof. revert r. induction p; intros r Hr; simpl; auto using shr_1_nonneg. Qed.

Lemma shr_fexp_nonneg m e l : 0 <= m -> 0 <= shr_m (shr_fexp 53 1024 m e l).1.
Proof.
  intros Hm. unfold shr_fexp, shr. assert (Hr : 0 <= shr_m (shr_record_of_loc m l)) by (by destruct l as [|[]]).
  destruct (_ - e); simpl; auto using iter_shr_nonneg.
Qed.

Lemma round_nonneg m l : 0 <= m -> 0 <= round_nearest_even m l.
Proof. intros Hm. destruct l as [|[]]; simpl; [lia| |lia..]. destruct (Z.even m); lia. Qed.

Lemma binary_round_aux_unsigned m e l : 0 <= m -> unsigned (binary_round_aux 53 1024 false m e l).
Proof.
  intros Hm. unfold binary_round_aux. pose proof (shr_fexp_nonneg m e l Hm) as H1.
  destruct (shr_fexp 53 1024 m e l) as [r1 e1]. simpl in H1.
  pose proof (shr_fexp_nonneg _ e1 loc_Exact (round_nonneg _ (loc_of_shr_record r1) H1)) as H2.
  destruct (shr_fexp 53 1024 _ e1 loc_Exact) as [r2 e2]. simpl in H2.
  destruct (shr_m r2); [done| |lia]. by destruct (e2 <=? _).
Qed.

Lemma binary_normalize_unsigned m e : 0 <= m -> unsigned (binary_normalize 53 1024 m e false).
Proof.
  intros Hm. destruct m as [|p|p]; [done| |lia]. unfold binary_normalize, binary_round.
  destruct (shl_align _ _ _) as [mz ez]. by apply binary_round_aux_unsigned.
Qed.
End rounding.

Lemma mul_unsigned x y : f64_is_positive x = true -> f64_is_positive y = true -> unsigned (f64_mul x y).
Proof.
  unfold f64_is_positive, SFltb. destruct x as [[]|[]| |[] m e], y as [[]|[]| |[] m' e']; try done.
  intros _ _. unfold f64_mul, SFmul. by apply binary_round_aux_unsigned.
Qed.

Lemma add_unsigned x y : unsigned x -> unsigned y -> unsigned (f64_add x y).
Proof.
  destruct x as [sx|sx| |sx m e], y as [sy|sy| |sy m' e']; simpl; intros Hx Hy; subst; try done.
  unfold f64_add, SFadd. by apply binary_normalize_unsigned.
Qed.

Lemma div_unsigned x p e : unsigned x -> unsigned (f64_div x (S754_finite false p e)).
Proof.
  destruct x as [sx|sx| |sx m e']; simpl; intros Hx; subst; try done.
  unfold f64_div, SFdiv. destruct (SFdiv_core_binary 53 1024 (Zpos m) e' (Zpos p) e) as [[q eq] l] eqn:E.
  apply binary_round_aux_unsigned. unfold SFdiv_core_binary in E.
  destruct (Z.div_eucl _ _) as [q' r'] eqn:Ed. injection E as <- _ _.
  match type of Ed with Z.div_eucl ?a _ = _ => assert (Ha : (0 <= a)%Z); [|pose proof (Z.div_pos a (Zpos p) Ha eq_refl) as Hq] end.
  { destruct (_ - _)%Z; [lia|apply Z.shiftl_nonneg; lia|lia]. }
  unfold Z.div in Hq. by rewrite Ed in Hq.
Qed.

(** * Quotes *)

(** The price of a market and its conversion. *)
Lemma market_price_positive markets pair p : market_price markets pair = Some p -> f64_is_positive p = true.
Proof. unfold market_price. intros (m & _ & (t & _ & (q & _ & Hp)%bind_Some)%bind_Some)%bind_Some. by destruct (f64_is_positive q) eqn:E; simplify_eq/=. Qed.

Lemma nonlogs_price_unsigned markets sym btc p :
  f64_is_positive btc = true -> nonlogs_usd_price markets sym btc = Some p -> unsigned p.
Proof.
  intros Hb. unfold nonlogs_usd_price.
  assert (Hone : exists q e, f64_of_int (Z.of_nat 1) = S754_finite false q e) by (by vm_compute; eauto).
  assert (Htwo : exists q e, f64_of_int (Z.of_nat 2) = S754_finite false q e) by (by vm_compute; eauto).
  destruct Hone as (q1 & e1 & H1), Htwo as (q2 & e2 & H2).
  destruct (market_price _ (_ ++ "-BTC")) as [b|] eqn:Eb, (market_price _ (_ ++ "-USDT")) as [u|] eqn:Eu;
    cbn [app foldl length]; rewrite ?H1, ?H2; intros Hp; apply (inj Some) in Hp as <- || done;
    repeat match goal with H : market_price _ _ = Some _ |- _ => apply market_price_positive in H end;
    apply div_unsigned; repeat apply add_unsigned; auto using mul_unsigned, positive_unsigned; done.
Qed.

Section quotes.
Context `{Http} `{PriceNet} (c : PriceClient).

(** A price that may be quoted: of a configured asset, a number, not negative, and
    finite where the asset is not one that is averaged over the markets. *)
Definition quote_ok (a : string) (p : f64) : Prop :=
  quotes_sym c a = true /\ SFleb f64_zero p = true /\
  (pl_provider c = "coingecko" \/ a ∉ ["wow"; "grin"] -> f64_is_finite p = true).
Definition quotes_ok (q : Quotes) : Prop := map_Forall quote_ok q.

Lemma unsigned_nonneg x : unsigned x -> SFleb f64_zero x = true.
Proof. destruct x as [s|s| |s m e]; simpl; intros Hx; subst; done. Qed.

Lemma is_quote_ok p : is_quote p = true -> SFleb f64_zero p = true /\ f64_is_finite p = true.
Proof. unfold is_quote. intros [Hf Hp]%andb_true_iff. split; [|done]. by apply unsigned_nonneg, positive_unsigned. Qed.

Lemma foldl_quotes {A} (g : Quotes -> A -> Quotes) (P : string -> f64 -> Prop) l out :
  (forall out x, x ∈ l -> map_Forall P out -> map_Forall P (g out x)) ->
  map_Forall P out -> map_Forall P (foldl g out l).
Proof.
  revert out. induction l as [|x l IH]; intros out Hg Ho; [done|]. simpl. apply IH.
  - intros out' y Hy. apply Hg. by right.
  - apply Hg; [by left|done].
Qed.

Lemma feed_quoted e : e ∈ pl_feeds c -> quotes_sym c e.1 = true.
Proof.
  intros He. unfold quotes_sym. apply existsb_exists. exists e. split; [by apply list_elem_of_In|apply String.eqb_refl].
Qed.

Lemma quoted_of q a p : quote_ok a p -> quotes_ok q -> quotes_ok (<[a := p]> q).
Proof. intros Hp Hq. by apply map_Forall_insert_2. Qed.
#[local] Hint Resolve quoted_of feed_quoted : core.

(** The averaged prices are of wow and grin, and not negative. *)
Definition averaged (a : string) (p : f64) : Prop := a ∈ ["wow"; "grin"] /\ SFleb f64_zero p = true.

Lemma nonlogs_averaged btc reply np :
  f64_is_positive btc = true -> nonlogs_reply btc reply = Some np -> map_Forall averaged np.
Proof.
  intros Hb. unfold nonlogs_reply. destruct reply as [e|status chunks]; [done|].
  destruct (negb _); [done|]. destruct (price_read_capped chunks) as [bytes|e|]; [|done..].
  intros (markets & _ & [= <-])%bind_Some. unfold nonlogs_quotes. apply foldl_quotes; [|apply map_Forall_empty].
  intros out sym Hs Ho. destruct (nonlogs_usd_price _ _ _) as [p|] eqn:Ep; [|done].
  apply map_Forall_insert_2; [|done]. split; [done|]. by eapply unsigned_nonneg, nonlogs_price_unsigned.
Qed.

Lemma fetch_nonlogs_averaged btc w w' np :
  (forall b, btc = Some b -> f64_is_positive b = true) ->
  fetch_nonlogs btc w = (w', Ok (Some np)) -> map_Forall averaged np.
Proof.
  unfold fetch_nonlogs. destruct btc as [b|]; [|done]. intros Hb (w1 & r & _ & [= _ Hr])%bind_run_Ok.
  by eapply nonlogs_averaged; [apply Hb|].
Qed.

Lemma averaged_ok a p : pl_provider c <> "coingecko" -> quotes_sym c a = true -> averaged a p -> quote_ok a p.
Proof. intros Hc Hq [Ha Hp]. split_and!; [done..|]. intros [?|?]; done. Qed.

Lemma assoc_Some sym l e : assoc sym l = Some e -> e ∈ l /\ e.1 = sym.
Proof. unfold assoc. intros [He Hs%String.eqb_eq]%find_some. by rewrite list_elem_of_In. Qed.

Lemma kraken_ok reply q :
  pl_provider c <> "coingecko" ->
  kraken_reply (omap (fun e : string * string => assoc e.1 KRAKEN_PAIRS) (pl_feeds c)) reply = Ok q ->
  quotes_ok q /\ forall b, q !! "btc" = Some b -> f64_is_positive b = true.
Proof.
  intros Hc. set (P := fun a p => quote_ok a p /\ f64_is_positive p = true).
  assert (Hempty : quotes_ok ∅ /\ forall b : f64, (∅ : Quotes) !! "btc" = Some b -> f64_is_positive b = true)
    by (split; [apply map_Forall_empty|done]).
  unfold kraken_reply. destruct reply as [e|status chunks]; [by intros [= <-]|].
  destruct (is_success status); [|by intros [= <-]]. intros (bytes & _ & [= <-])%bind_Ok.
  unfold kraken_quotes. destruct (json_from_slice bytes ≫= read_kraken) as [[[|] [result|]]|]; try done.
  assert (HP : map_Forall P (foldl (fun (out : Quotes) (e : string * string) => match kraken_price result e.2 with
      Some p => <[e.1 := p]> out | None => out end) ∅ (omap (fun e : string * string => assoc e.1 KRAKEN_PAIRS) (pl_feeds c)))).
  { apply foldl_quotes; [|apply map_Forall_empty]. intros out e (f & Hf & [_ Hs]%assoc_Some)%list_elem_of_omap Ho.
    destruct (kraken_price result e.2) as [p|] eqn:Ep; [|done]. apply map_Forall_insert_2; [|done].
    unfold kraken_price in Ep. apply bind_Some in Ep as (cl & _ & Ep). apply bind_Some in Ep as (t & _ & Ep).
    apply bind_Some in Ep as (p' & _ & Ep). destruct (is_quote p') eqn:Eq; [|done]. injection Ep as ->.
    pose proof (is_quote_ok _ Eq) as [Hn Hfin]. split; [|by apply andb_true_iff in Eq as [_ ?]].
    split_and!; [rewrite Hs; auto|done|done]. }
  split; [intros a p Hp; apply (HP a p Hp)|]. intros b Hb. apply (HP _ _ Hb).
Qed.

Lemma fetch_kraken_ok w w' q :
  pl_provider c <> "coingecko" -> fetch_kraken_nonlogs c w = (w', Ok q) -> quotes_ok q.
Proof.
  intros Hc. unfold fetch_kraken_nonlogs. intros (w1 & out & Hout & Hrun)%bind_run_Ok.
  assert (Ho : quotes_ok out /\ forall b, out !! "btc" = Some b -> f64_is_positive b = true).
  { destruct (omap _ (pl_feeds c)) as [|pr prs] eqn:Ep.
    - injection Hout as <- <-. split; [apply map_Forall_empty|done].
    - apply bind_run_Ok in Hout as (w2 & r & _ & [_ Hr]%lift_run_Ok). rewrite <- Ep in Hr.
      by eapply kraken_ok. }
  destruct Ho as [Ho Hb]. destruct (existsb _ _); [|by injection Hrun as <- <-].
  apply bind_run_Ok in Hrun as (w2 & np & Hnp & [= <- <-]). destruct np as [np|]; [|done].
  pose proof (fetch_nonlogs_averaged _ _ _ _ Hb Hnp) as Ha.
  apply map_Forall_union_2; [|done]. intros a p [Hp Hs]%map_lookup_filter_Some.
  apply averaged_ok; [done|done|by apply (Ha a p)].
Qed.

Lemma fetch_coingecko_ok w w' q : fetch_coingecko c w = (w', Ok q) -> quotes_ok q.
Proof.
  unfold fetch_coingecko. intros (w1 & r & _ & [_ Hr]%lift_run_Ok)%bind_run_Ok.
  apply bind_Ok in Hr as (bytes & _ & Hr). apply bind_Ok in Hr as (raw & _ & [= <-]).
  unfold coingecko_quotes. apply foldl_quotes; [|apply map_Forall_empty]. intros out e He Ho.
  destruct (raw !! e.2 ≫= _) as [p|]; [|done].
  destruct (f64_is_finite p && SFleb f64_zero p) eqn:Ep; [|done]. apply andb_true_iff in Ep as [Hf Hn].
  apply quoted_of; [|done]. split_and!; auto.
Qed.

Lemma oracle_price_ok rates sym p :
  oracle_price rates sym = Some p -> f64_is_positive p = true /\ SFleb f64_zero p = true /\ f64_is_finite p = true.
Proof.
  unfold oracle_price. intros (p' & _ & Hp)%bind_Some. destruct (is_quote p') eqn:E; [|done].
  injection Hp as ->. split; [by apply andb_true_iff in E as [_ ?]|by apply is_quote_ok].
Qed.

Lemma oracle_quotes_ok rates :
  quotes_ok (oracle_quotes c rates).1 /\ Forall (fun a => quotes_sym c a = true) (oracle_quotes c rates).2.
Proof.
  unfold oracle_quotes.
  assert (Hgen : forall l acc, (forall e, e ∈ l -> quotes_sym c e.1 = true) ->
    quotes_ok acc.1 /\ Forall (fun a => quotes_sym c a = true) acc.2 ->
    let r := foldl (fun '(out, missing) (e : string * string) =>
      match oracle_price rates (to_uppercase e.1) with
      | Some p => (<[e.1 := p]> out, missing) | None => (out, missing ++ [e.1])%list end) acc l in
    quotes_ok r.1 /\ Forall (fun a => quotes_sym c a = true) r.2).
  { induction l as [|e l IH]; intros [out missing] Hl [Ho Hm]; [done|]. cbn [foldl]. apply IH.
    - intros e' He'. apply Hl. by right.
    - destruct (oracle_price _ _) as [p|] eqn:Ep; simpl in *; (split; [|try done]).
      + apply oracle_price_ok in Ep as (_ & ? & ?). apply quoted_of; [|done].
        split_and!; [apply Hl; by left|done|done].
      + done.
      + apply Forall_app. split; [done|]. constructor; [|done]. apply Hl. by left. }
  apply Hgen; [auto|]. split; [apply map_Forall_empty|done].
Qed.

Lemma fetch_neroswap_ok w w' q :
  pl_provider c <> "coingecko" -> fetch_neroswap c w = (w', Ok q) -> quotes_ok q.
Proof.
  intros Hc. unfold fetch_neroswap. intros (w1 & r & _ & Hrun)%bind_run_Ok.
  apply bind_run_Ok in Hrun as (w2 & rates & _ & Hrun).
  destruct (oracle_quotes_ok rates) as [Ho Hm]. destruct (oracle_quotes c rates) as [out missing]. simpl in Ho, Hm.
  destruct missing as [|m ms]; [by injection Hrun as <- <-|]. remember (m :: ms) as missing eqn:Em; clear Em.
  apply bind_run_Ok in Hrun as (w3 & np & Hnp & [= <- <-]). destruct np as [np|]; [|done].
  assert (Ha : map_Forall averaged np).
  { eapply fetch_nonlogs_averaged; [|exact Hnp]. intros b Hb. by destruct (oracle_price_ok _ _ _ Hb). }
  unfold add_missing. apply foldl_quotes; [|exact Ho]. intros out' a Hin Ho'.
  destruct (np !! a) as [p|] eqn:Ep; [|done]. apply quoted_of; [|done].
  apply averaged_ok; [done| |by apply (Ha a p)]. rewrite Forall_forall in Hm. by apply Hm.
Qed.

Lemma fetch_ok w w' q : fetch c w = (w', Ok q) -> quotes_ok q.
Proof.
  unfold fetch. destruct (feeds_empty c); [intros [= <- <-]; apply map_Forall_empty|].
  destruct (String.eqb_spec (pl_provider c) "neroswap") as [E|_]; [apply fetch_neroswap_ok; by rewrite E|].
  destruct (String.eqb_spec (pl_provider c) "coingecko") as [E|_]; [apply fetch_coingecko_ok|].
  destruct (String.eqb_spec (pl_provider c) "kraken") as [E|_]; [|done]. apply fetch_kraken_ok. by rewrite E.
Qed.
End quotes.

Section refreshes.
Context `{Http} `{PriceNet} (c : PriceClient).

(** What a snapshot of the feed may be. *)
Definition snapshot_ok (currency : string) (snap : PriceSnapshot) : Prop :=
  ps_currency snap = currency /\ quotes_ok c (ps_prices snap) /\
  (ps_updated_at snap = None -> ps_prices snap = ∅).

Lemma fetch_no_panic w : (fetch c w).2 <> Panic.
Proof.
  assert (Hcap : forall chunks, price_read_capped chunks <> Panic).
  { unfold price_read_capped. intros chunks. generalize (@nil Byte.byte).
    induction chunks as [|[ch|] chunks IH]; intros buf; cbn [read_capped_with]; [done| |done]. by case_match. }
  assert (Hbytes : forall r, success_bytes r <> Panic) by (intros [e|s ch]; simpl; [done|]; by destruct (negb _)).
  assert (Hor : forall A (o : option A) e, ok_or o e <> Panic) by (by intros A [a|]).
  assert (Hnon : forall b w, (fetch_nonlogs b w).2 <> Panic) by (by intros [b|] w1).
  unfold fetch. destruct (feeds_empty c); [done|].
  repeat match goal with |- ((if ?b then _ else _) _).2 <> _ => destruct b end.
  - unfold fetch_neroswap, price_request, upstream, mbind, M_bind, lift. cbv beta iota zeta.
    specialize (Hbytes (price_get NEROSWAP_URL [] (w_calls w))). destruct (success_bytes _) as [bytes|e|]; simpl; try done.
    destruct (ok_or _ _) as [rates|e|] eqn:Er; [|done|by destruct (Hor _ _ _ Er)].
    destruct (oracle_quotes c rates) as [out [|m ms]]; [done|].
    specialize (Hnon (oracle_price rates "BTC") (w <|w_calls := S (w_calls w)|>)).
    by destruct (fetch_nonlogs _ _) as [w1 [[np|]|e|]].
  - unfold fetch_coingecko, price_request, upstream, mbind, M_bind, lift. cbv beta iota zeta. simpl.
    set (r := price_get _ _ _). specialize (Hbytes r). destruct (success_bytes r) as [bytes|e|]; simpl; try done.
    by destruct (ok_or _ _) as [|?|] eqn:Er; [..|destruct (Hor _ _ _ Er)].
  - unfold fetch_kraken_nonlogs. assert (Hk : forall ps r, kraken_reply ps r <> Panic).
    { intros ps [e|s ch]; simpl; [done|]. destruct (is_success s); [|done]. specialize (Hcap ch).
      by destruct (price_read_capped ch). }
    unfold mbind at 1, M_bind. destruct (omap _ _) as [|p ps] eqn:Ep.
    + cbn [mret M_ret]. destruct (existsb _ _); [|done]. unfold mbind, M_bind.
      match goal with |- context [fetch_nonlogs ?b ?w] => specialize (Hnon b w); by destruct (fetch_nonlogs b w) as [w1 [[np|]|e|]] end.
    + unfold price_request, upstream, mbind, M_bind, lift. cbv beta iota zeta.
      match goal with |- context [kraken_reply ?ps ?r] => specialize (Hk ps r); destruct (kraken_reply ps r) as [out|e|] end; try done.
      destruct (existsb _ _); [|done].
      match goal with |- context [fetch_nonlogs ?b ?w] => specialize (Hnon b w); by destruct (fetch_nonlogs b w) as [w1 [[np|]|e|]] end.
  - done.
Qed.

(** A tick always gives a snapshot: the quotes it fetched, or the last one. *)
Lemma price_refresh_ok currency snap w :
  snapshot_ok currency snap ->
  exists w' snap', price_refresh c snap w = (w', Ok snap') /\ snapshot_ok currency snap'.
Proof.
  intros (Hc & Hq & Hu). unfold price_refresh, mbind, M_bind, attempt. pose proof (fetch_no_panic w) as Hp.
  destruct (fetch c w) as [w1 [q|e|]] eqn:Ef; [| |done].
  - apply fetch_ok in Ef. exists w1. eexists. split; [done|]. by split_and!.
  - exists w1, snap. by split_and!.
Qed.
End refreshes.

(** The feed quotes what is configured, at prices.  However often the task refreshes,
    and whatever the providers, the oracle and the markets answer or fail to, every
    refresh gives a snapshot: in the configured currency, of configured assets only,
    at prices that are numbers and not negative, finite but for those averaged over
    the markets; and without quotes as long as it has no date. *)
Theorem quotes_sound `{Http} `{PriceNet} provider currency assets ticks w :
  let c := price_client_new provider currency assets in
  exists w' snap, price_refreshes c ticks (empty_snapshot currency) w = (w', Ok snap) /\
    snapshot_ok c currency snap /\
    forall a p, ps_prices snap !! a = Some p -> a ∈ assets.
Proof.
  intros c.
  assert (Hgen : forall ticks snap w, snapshot_ok c currency snap ->
    exists w' snap', price_refreshes c ticks snap w = (w', Ok snap') /\ snapshot_ok c currency snap').
  { clear ticks w. intros ticks. induction ticks as [|t ticks IH]; intros snap w Hs; [by exists w, snap|].
    cbn [price_refreshes]. unfold mbind, M_bind. set (w0 := w <|w_now := t|>).
    destruct (price_refresh_ok c currency snap w0 Hs) as (w1 & s1 & E & Hs1).
    destruct (IH s1 w1 Hs1) as (w2 & s2 & E2 & Hs2). exists w2, s2. by rewrite E, E2. }
  destruct (Hgen ticks (empty_snapshot currency) w) as (w' & snap & E & Hs).
  { split_and!; [done|apply map_Forall_empty|done]. }
  exists w', snap. split; [done|]. split; [done|].
  - destruct Hs as (_ & Hq & _). intros a p Ha. destruct (Hq a p Ha) as (Hsym & _). unfold quotes_sym in Hsym.
    apply existsb_exists in Hsym as ([s i] & Hin%list_elem_of_In & Heq%String.eqb_eq). simpl in Heq. subst s.
    unfold c, price_client_new in Hin. cbn [pl_feeds] in Hin.
    apply list_elem_of_omap in Hin as (a' & Ha' & [_ Heq]%assoc_Some). simpl in Heq. by subst a'.
Qed.

(** * Concrete runs *)

(** Texts of numbers: a half, a tenth (rounded), what is not a number. *)
Example texts_parse :
  parse_f64 "0.5" = Some (S754_finite false 4503599627370496 (-53)) /\
  parse_f64 "1e-1" = Some (S754_finite false 7205759403792794 (-56)) /\
  parse_f64 "+Inf" = Some (S754_infinity false) /\ parse_f64 "1e" = None /\ parse_f64 "." = None.
Proof. by vm_compute. Qed.

Definition demo_prices (script : list (option Value)) : PriceNet := {|
  price_get _ _ n :=
    match script !! n with
    | Some (Some _) => HttpResponse 200 [match Byte.of_nat n with Some b => Some [b] | None => None end]
    | _ => HttpFailed "timed out"
    end;
  json_float _ := S754_nan;
|}.
Definition demo_price_json (script : list (option Value)) : Http := {|
  http_post _ _ _ := HttpFailed "timed out";
  json_from_slice bs := match bs with [b] => default None (script !! Byte.to_nat b) | _ => None end;
|}.
Definition demo_refreshes (provider currency : string) (assets : list string) (script : list (option Value))
    (ticks : list Time) : outcome PriceSnapshot :=
  (price_refreshes (H := demo_price_json script) (H0 := demo_prices script)
     (price_client_new provider currency assets) ticks (empty_snapshot currency) (quiet_world empty_db 0)).2.

Definition quoted (a : string) (o : outcome PriceSnapshot) : option f64 :=
  match o with Ok snap => ps_prices snap !! a | _ => None end.
Definition dated (o : outcome PriceSnapshot) : bool :=
  match o with Ok snap => match ps_updated_at snap with Some _ => true | None => false end | _ => false end.

(** A refresh that fails is documented to keep the last quotes; with Kraken, the first
    refresh quotes bitcoin and the second, which does not reach the server, replaces
    the quotes by none and dates them. *)
Definition kraken_script : list (option Value) :=
  [Some (obj [("error", VArray []); ("result", obj [("XXBTZUSD", obj [("c", VArray [VString "64000.0"; VString "1"])])])]);
   None].
Example kraken_outage_blanks :
  quoted "btc" (demo_refreshes "kraken" "usd" ["btc"] kraken_script [0]%Z) = Some (f64_of_int 64000) /\
  quoted "btc" (demo_refreshes "kraken" "usd" ["btc"] kraken_script [0; 60]%Z) = None /\
  dated (demo_refreshes "kraken" "usd" ["btc"] kraken_script [0; 60]%Z) = true.
Proof. by vm_compute. Qed.

(** The oracle and Kraken quote dollars only, whatever the currency; the validation of
    the configuration accepts any supported one with them. *)
Definition demo_flags (provider currency : string) : FeatureFlags :=
  mkFeatureFlags (mkChainFlags true true true true true) true provider 60 ["btc"] currency false false false false.
Definition oracle_script : list (option Value) := [Some (obj [("rates", obj [("BTC", VNumber 64000)])])].
Example dollars_served_as_euros :
  validate_prices (demo_flags "neroswap" "eur") = Ok tt /\
  (match demo_refreshes "neroswap" "eur" ["btc"] oracle_script [0%Z] with
   | Ok snap => (ps_currency snap, ps_prices snap !! "btc") | _ => ("", None) end) = ("eur", Some (f64_of_int 64000)).
Proof. by vm_compute. Qed.

(** A price that is not finite is documented to be skipped; one of the markets is not. *)
Definition infinite_script : list (option Value) :=
  [Some (obj [("rates", obj [("BTC", VNumber 64000)])]);
   Some (obj [("markets", obj [("WOW-USDT", obj [("last_price", VString "inf")])])])].
Example infinite_price_quoted :
  quoted "wow" (demo_refreshes "neroswap" "usd" ["wow"] infinite_script [0%Z]) = Some (S754_infinity false).
Proof. by vm_compute. Qed.
