(* ===== verification/BtcPay.v ===== *)
(** [src/infra/payment/btcpay.rs] with the construction in [src/infra/payment/mod.rs]:
    the BTCPay-compatible adapter behind [PaymentProvider] of [Premium.v].

    HTTP with its [Authorization] header and the percent-encoding of a path segment
    are parameters. *)

From Stdlib Require Import ZArith Lia Ascii String Strings.Byte.
From stdpp Require Import pretty.
From S2P Require Import Prelude RustStr Json Errors Db Effects LwsTypes Http Auth Config Lws Premium.

Local Open Scope string_scope.

Definition MAX_PAY_BODY_BYTES : Z := (1024 * 1024)%Z.

(** A POST and a GET with a token at the [n]-th call, and [urlencoding::encode]. *)
Class PayNet := {
  pay_post : string -> string -> Value -> nat -> HttpReply;
  pay_get : string -> string -> nat -> HttpReply;
  url_encode : string -> string;
}.

(** An encoded segment holds no character that ends one. *)
Class PayNetLaws (N : PayNet) := {
  url_encode_segment : forall s, all_chars (fun c => negb (Ascii.eqb c "/") && negb (Ascii.eqb c "?")
    && negb (Ascii.eqb c "#")) (url_encode s) = true;
}.

Record BtcPayProvider := mkBtcPayProvider {
  by_kind : string; by_exact_confirmations : bool; by_base_url : string; by_store_id : string; by_api_key : string }.

Definition btcpay_build (kind : string) (exact_confirmations : bool) (url store_id api_key : string) : BtcPayProvider :=
  mkBtcPayProvider kind exact_confirmations (trim_end_char "/" url) store_id api_key.

Definition btcpay_new (cfg : PaymentConfig) : BtcPayProvider :=
  btcpay_build "btcpay" false (pc_provider_url cfg) (pc_store_id cfg) (pc_api_key cfg).

Definition checkout_rail (rail : PaymentRailConfig) : BtcPayProvider :=
  btcpay_build (ra_kind rail) true (ra_provider_url rail) (ra_store_id rail) (ra_api_key rail).

(** * Requests and answers *)

Definition checkout_body (p : BtcPayProvider) (req : InvoiceRequest) : Value :=
  obj (("speedPolicy", VString (speed_policy (ir_confirmations req)))
       :: ("expirationMinutes", VNumber (ir_expires_minutes req))
       :: if by_exact_confirmations p then [("confirmationsRequired", VNumber (ir_confirmations req))] else []).

Definition create_body (p : BtcPayProvider) (req : InvoiceRequest) : Value :=
  obj [("amount", VString (ir_amount req)); ("currency", VString (ir_currency req));
       ("metadata", obj [("smirkBind", VString (ir_bind req))]); ("checkout", checkout_body p req)].

(** [m.get("smirkBind").and_then(as_str)]: of two entries under the key the last stays. *)
Definition metadata_bind (metadata : option Value) : option string :=
  match metadata with
  | Some (VObject kvs) => match obj_get "smirkBind" (rev kvs) with Some (VString s) => Some s | _ => None end
  | _ => None
  end.

Definition read_invoice_resp : Reader BtcPayInvoiceResp :=
  r_struct ["id"; "status"; "checkoutLink"; "address"; "metadata"] (fun kvs =>
    i ← required r_string "id" kvs; s ← defaulted "" r_string "status" kvs;
    l ← optional r_string "checkoutLink" kvs; a ← optional r_string "address" kvs;
    m ← optional Some "metadata" kvs;
    Some (mkBtcPayInvoiceResp i s l a (metadata_bind m))).

Definition pay_err (label detail : string) : AppError :=
  NodeError ("payment processor " ++ label ++ ": " ++ detail).

Definition pay_read_capped (chunks : list (option (list Byte.byte))) : outcome (list Byte.byte) :=
  read_capped_with (NodeError "payment processor read failed")
    (NodeError "payment processor response exceeded size limit") MAX_PAY_BODY_BYTES [] chunks.

Section adapter.
Context `{Http} `{PayNet}.

Definition pay_parse {R} (label : string) (read : Reader R) (reply : HttpReply) : outcome R :=
  match reply with
  | HttpFailed _ => Err (pay_err label "request failed")
  | HttpResponse status chunks =>
      if negb (is_success status)
      then Err (NodeError ("payment processor " ++ label ++ " failed (HTTP " ++ pretty status ++ ")"))
      else
        bytes ← pay_read_capped chunks;
        ok_or (json_from_slice bytes ≫= read) (pay_err label "invalid response")
  end.

Definition invoices_url (p : BtcPayProvider) : string :=
  by_base_url p ++ "/api/v1/stores/" ++ by_store_id p ++ "/invoices".

Definition create_invoice (p : BtcPayProvider) (req : InvoiceRequest) (n : nat) : outcome Invoice :=
  resp ← pay_parse "create_invoice" read_invoice_resp
    (pay_post (invoices_url p) ("token " ++ by_api_key p) (create_body p req) n);
  Ok (to_invoice resp).

Definition get_invoice (p : BtcPayProvider) (id : string) (n : nat) : outcome Invoice :=
  resp ← pay_parse "get_invoice" read_invoice_resp
    (pay_get (invoices_url p ++ "/" ++ url_encode id) ("token " ++ by_api_key p) n);
  Ok (to_invoice resp).

Definition btcpay_provider (p : BtcPayProvider) : PaymentProvider :=
  mkPaymentProvider (by_kind p) (create_invoice p) (get_invoice p).

(** * Construction *)

Definition provider_from_config `{Net} (cfg : Config) : outcome (option PaymentProvider) :=
  let p := rg_payment (cf_registration cfg) in
  if negb (pc_require_payment p) && negb (pm_enabled (cf_premium cfg)) then Ok None
  else if pc_provider p =? "btcpay" then Ok (Some (btcpay_provider (btcpay_new p)))
  else Err (ConfigError ("unsupported payment provider: " ++ pc_provider p)).

Definition rails_from_config `{Net} (cfg : Config) (primary : option PaymentProvider) : list PaymentRail :=
  if negb (pm_enabled (cf_premium cfg)) then []
  else (match primary with
        | Some p => [mkPaymentRail p (pm_primary_assets (cf_premium cfg))]
        | None => []
        end
        ++ ((fun rail => mkPaymentRail (btcpay_provider (checkout_rail rail)) [ra_asset rail])
              <$> pm_rails (cf_premium cfg)))%list.

(** * The contract *)

(** An invoice is reported settled only on the word of the processor, in a successful
    answer of at most a megabyte to a request for that invoice of that store. *)
Lemma settled_on_processors_word p id n inv :
  pp_get_invoice (btcpay_provider p) id n = Ok inv -> iv_status inv = InvSettled ->
  exists status chunks bytes v resp,
    pay_get (invoices_url p ++ "/" ++ url_encode id) ("token " ++ by_api_key p) n = HttpResponse status chunks /\
    is_success status = true /\ (Z.of_nat (length bytes) <= MAX_PAY_BODY_BYTES)%Z /\
    json_from_slice bytes = Some v /\ read_invoice_resp v = Some resp /\
    bp_status resp ∈ ["Settled"; "Complete"; "Confirmed"] /\ iv_id inv = bp_id resp.
Proof.
  cbn [pp_get_invoice btcpay_provider]. unfold get_invoice, pay_parse. intros (resp & Hr & [= <-])%bind_Ok Hs.
  destruct (pay_get _ _ n) as [e|status chunks]; [done|]. destruct (is_success status) eqn:Es; [|done].
  apply bind_Ok in Hr as (bytes & Hb & Hr%ok_or_Ok). apply bind_Some in Hr as (v & Hv & Hr).
  apply read_capped_spec in Hb as (cs & _ & _ & Hl); [|unfold MAX_PAY_BODY_BYTES; simpl; lia].
  exists status, chunks, bytes, v, resp. split_and!; try done.
  unfold to_invoice, iv_status, map_status in Hs.
  destruct (String.eqb_spec (bp_status resp) "Settled") as [->|]; [by left|].
  destruct (String.eqb_spec (bp_status resp) "Complete") as [->|]; [by right; left|].
  destruct (String.eqb_spec (bp_status resp) "Confirmed") as [->|]; [by right; right; left|].
  simpl in Hs. by repeat case_match.
Qed.

(** The id of an invoice does not leave its segment of the request's path. *)
Lemma invoice_url_confined {L : PayNetLaws _} id : all_chars (fun c => negb (Ascii.eqb c "/")) (url_encode id) = true.
Proof.
  pose proof (url_encode_segment id) as Hs. revert Hs. induction (url_encode id) as [|c s IH]; [done|]. simpl.
  intros [Hc Hs]%andb_true_iff. rewrite !andb_true_iff in Hc. apply andb_true_iff. split; [apply Hc|auto].
Qed.
End adapter.

(** The speed policies wait for 0, 1, 2 and 6 confirmations; a request for three, four
    or five is documented to round up and waits for two. *)
Definition policy_confirmations (policy : string) : Z :=
  if policy =? "HighSpeed" then 0 else if policy =? "MediumSpeed" then 1
  else if policy =? "LowMediumSpeed" then 2 else 6.
Example policy_rounds_down : policy_confirmations (speed_policy 5) = 2%Z /\ policy_confirmations (speed_policy 10) = 6%Z.
Proof. done. Qed.
