(* ===== verification/Capabilities.v ===== *)
(** [src/api/capabilities.rs], the chain clients of [src/infra/chains.rs] and the
    features view of [src/api/admin.rs]: what an instance says it serves.

    The text of a URL's host and the version of the crate are parameters. *)

From Stdlib Require Import ZArith Lia Ascii String.
From S2P Require Import Prelude RustStr Json Errors Db Effects Demo LwsTypes Http Chains Auth Config TipApi Slatepack Lws WalletCn Electrum UtxoApi RelayPolicy Premium Grin GrinApi BtcPay Prices Pepper AdminKeys AdminApi ConfigSafety PricesSafety.

Local Open Scope string_scope.

Definition CAPABILITIES_CONTRACT_VERSION : Z := 1.
Definition SUPPORTED_NIPS : list Z := [1; 17; 44; 59]%Z.

(** [Url::host_str] and [CARGO_PKG_VERSION]. *)
Class CapNet `{Urls} := { url_host_str : Url -> option string; cargo_pkg_version : string }.

(** * Chain clients *)

(** [ChainClients], each with the state it starts in. *)
Record ApiClients := mkApiClients {
  ac_btc : option (UtxoClient * ElState);
  ac_ltc : option (UtxoClient * ElState);
  ac_xmr : option CnClient;
  ac_wow : option CnClient;
  ac_grin : option GrinWallet;
  ac_grin_lws : option GrinLwsClient;
}.

(** [flag.then(f).transpose()?]. *)
Definition when_on {A} (flag : bool) (m : outcome A) : outcome (option A) :=
  if flag then a ← m; Ok (Some a) else Ok None.

Definition chains_from_config `{Net} (cfg : Config) : outcome ApiClients :=
  let flags := ff_chains (cf_features cfg) in
  let ch := cf_chains cfg in
  btc ← when_on (cg_btc flags) (electrum_bitcoin (ch_btc ch));
  ltc ← when_on (cg_ltc flags) (electrum_litecoin (ch_ltc ch));
  xmr ← when_on (cg_xmr flags) (Ok (cn_new Monero (ch_xmr ch)));
  wow ← when_on (cg_wow flags) (Ok (cn_new Wownero (ch_wow ch)));
  grin ← when_on (cg_grin flags) (Ok (grin_new (ch_grin ch)));
  grin_lws ← when_on (cg_grin flags && negb (is_empty (trim (gl_url (ch_grin_lws ch)))))
               (Ok (grin_lws_new (ch_grin_lws ch)));
  Ok (mkApiClients btc ltc xmr wow grin grin_lws).

(** * The projection *)

Record ChainCapability := mkChainCapability { cc_enabled : bool; cc_network : option string }.
Record ChainCapabilities := mkChainCapabilities {
  cx_btc : ChainCapability; cx_ltc : ChainCapability; cx_xmr : ChainCapability;
  cx_wow : ChainCapability; cx_grin : ChainCapability }.
Record FeatureCapabilities := mkFeatureCapabilities {
  fc_grin_relay : bool; fc_grin_lws : bool; fc_prices : bool; fc_nostr_identity : bool;
  fc_nostr_native_auth : bool; fc_nostr_relay : bool; fc_premium_relay : bool; fc_feed : bool;
  fc_tips : bool; fc_targeted_tips : bool; fc_xmr_subaddr_provisioning : bool; fc_utxo_multi_address : bool }.
Record MessagingCapability := mkMessagingCapability {
  mc_relay_url : string; mc_write_policy : string; mc_inbound_pow_bits : Z; mc_supported_nips : list Z }.
Record PremiumRailInfo := mkPremiumRailInfo { ri_id : string; ri_assets : list string }.
Record PremiumCapability := mkPremiumCapability {
  qc_currency : string; qc_plans : list (string * i32 * string); qc_relay_url : string; qc_rails : list PremiumRailInfo }.
Record FeedCapability := mkFeedCapability {
  ec_relay_url : string; ec_show_owner : bool; ec_show_premium : bool; ec_owner_npub : option string;
  ec_allowlist_npubs : list string; ec_extra_relays : list string }.
Record RestoreCapability := mkRestoreCapability {
  rp_policy : string; rp_max_depth_days : option u32; rp_pow_free_days : u32; rp_pow_days_per_bit : u32;
  rp_pow_max_bits : u32 }.
Record RegistrationCapability := mkRegistrationCapability {
  gc_invite_required : bool; gc_pow_required : bool; gc_payment_required : bool;
  gc_payment_amount : option string; gc_payment_currency : option string; gc_registration_mode : string }.
Record CapabilitiesResponse := mkCapabilitiesResponse {
  cp_version : string; cp_contract_version : Z; cp_nip05_domain : option string; cp_chains : ChainCapabilities;
  cp_features : FeatureCapabilities; cp_restore : RestoreCapability; cp_registration : RegistrationCapability;
  cp_messaging : option MessagingCapability; cp_premium : option PremiumCapability; cp_feed : option FeedCapability }.

Section projection.
Context `{Net} (config : Config).

Definition utxo_serviceable (on : bool) (c : UtxoConfig) : bool :=
  on && (is_some (ux_electrum_primary c) || match ux_electrum_fallbacks c with [] => false | _ => true end).

Definition chain_serviceable (asset : string) : bool :=
  let f := ff_chains (cf_features config) in
  let c := cf_chains config in
  if asset =? "btc" then utxo_serviceable (cg_btc f) (ch_btc c)
  else if asset =? "ltc" then utxo_serviceable (cg_ltc f) (ch_ltc c)
  else if asset =? "xmr" then cg_xmr f && negb (is_empty (lw_lws_admin_key (ch_xmr c)))
  else if asset =? "wow" then cg_wow f && negb (is_empty (lw_lws_admin_key (ch_wow c)))
  else if asset =? "grin" then cg_grin f && negb (is_empty (gn_owner_api_secret (ch_grin c)))
  else false.

Definition grin_lws_serviceable : bool :=
  chain_serviceable "grin" && negb (is_empty (trim (gl_url (ch_grin_lws (cf_chains config))))).

Definition relay_advertised : bool :=
  let r := ms_relay (cf_messaging config) in rl_enabled r && negb (is_empty (trim (rl_advertised_url r))).
Definition premium_advertised : bool := pm_enabled (cf_premium config) && relay_advertised.
Definition feed_advertised : bool := fd_enabled (cf_feed config) && relay_advertised.

Definition all_chains : list string := ["btc"; "ltc"; "xmr"; "wow"; "grin"].

Definition tips_advertised : bool :=
  ff_tips (cf_features config) && is_some (cf_tip_share_base config) && existsb chain_serviceable all_chains.

Definition premium_rails : list PremiumRailInfo :=
  mkPremiumRailInfo (pc_provider (rg_payment (cf_registration config))) (pm_primary_assets (cf_premium config))
    :: ((fun r => mkPremiumRailInfo (ra_kind r) [ra_asset r]) <$> pm_rails (cf_premium config)).

(** [b.then(f)]. *)
Definition when {A} (b : bool) (a : A) : option A := if b then Some a else None.

Definition nostr_advertised : bool :=
  ff_nostr_identity (cf_features config) && is_some (id_public_api_url (cf_identity config)).

Definition feature_capabilities (env : Env) : FeatureCapabilities :=
  let f := cf_features config in
  mkFeatureCapabilities (ff_grin_relay f) grin_lws_serviceable (ff_prices f) nostr_advertised nostr_advertised
    relay_advertised premium_advertised feed_advertised tips_advertised
    (tips_advertised && ff_targeted_tips f)
    (subaddr_provisioning_enabled env && (chain_serviceable "xmr" || chain_serviceable "wow"))
    (utxo_multi_enabled env && (chain_serviceable "btc" || chain_serviceable "ltc")).

Definition chain_capabilities : ChainCapabilities :=
  let utxo asset c := mkChainCapability (chain_serviceable asset) (Some (ux_network c)) in
  let plain asset := mkChainCapability (chain_serviceable asset) None in
  mkChainCapabilities (utxo "btc" (ch_btc (cf_chains config))) (utxo "ltc" (ch_ltc (cf_chains config)))
    (plain "xmr") (plain "wow") (plain "grin").

Definition restore_capability : RestoreCapability :=
  let r := cf_restore config in
  mkRestoreCapability (restore_policy_as_str (rc_policy r))
    (match rc_policy r with Bounded => Some (rc_max_depth_days r) | _ => None end)
    (rc_pow_free_days r) (rc_pow_days_per_bit r) (rc_pow_max_bits r).

Definition registration_capability : RegistrationCapability :=
  let g := cf_registration config in
  let p := rg_payment g in
  mkRegistrationCapability (rg_require_invite g) (pow_enabled (cf_pow config) && pow_required (cf_pow config))
    (pc_require_payment p) (when (pc_require_payment p) (pc_amount p))
    (when (pc_require_payment p) (pc_currency p)) (gate_mode_as_str (rg_gate_mode g)).

Definition messaging_capability : option MessagingCapability :=
  let r := ms_relay (cf_messaging config) in
  when relay_advertised
    (mkMessagingCapability (rl_advertised_url r) (rl_write_policy r) (rl_inbound_pow_bits r) SUPPORTED_NIPS).

Definition premium_capability : option PremiumCapability :=
  let p := cf_premium config in
  when premium_advertised
    (mkPremiumCapability (pm_currency p)
       ((fun plan => (plan_id plan, plan_days plan, plan_amount plan)) <$> pm_plans p)
       (rl_advertised_url (ms_relay (cf_messaging config))) premium_rails).

Definition feed_capability : option FeedCapability :=
  let f := cf_feed config in
  when feed_advertised
    (mkFeedCapability (rl_advertised_url (ms_relay (cf_messaging config))) (fd_show_owner f) (fd_show_premium f)
       (when (negb (is_empty (fd_owner_npub f))) (fd_owner_npub f)) (fd_allowlist_npubs f) (fd_extra_relays f)).
End projection.

Section capabilities.
Context `{CapNet} (env : Env).

Definition nip05_domain (config : Config) : option string :=
  match id_nip05_domain (cf_identity config) with
  | Some d => Some d
  | None =>
      match id_public_api_url (cf_identity config) with
      | Some url =>
          match url_parse url with
          | Some u =>
              match url_host_str u with
              | Some h => let h := to_lowercase h in Some (default h (RustStr.strip_prefix "api." h))
              | None => None
              end
          | None => None
          end
      | None => None
      end
  end.

Definition effective_capabilities (config : Config) : CapabilitiesResponse :=
  mkCapabilitiesResponse cargo_pkg_version CAPABILITIES_CONTRACT_VERSION (nip05_domain config)
    (chain_capabilities config) (feature_capabilities config env) (restore_capability config)
    (registration_capability config) (messaging_capability config) (premium_capability config)
    (feed_capability config).

(** * The admin's view *)

Record Downgrade := mkDowngrade { dg_feature : string; dg_reason : string }.

Definition note (on eff : bool) (feature reason : string) : list Downgrade :=
  if on && negb eff then [mkDowngrade feature reason] else [].

(** What [admin_features] answers past the guard. *)
Definition downgrades (config : Config) : list Downgrade :=
  let c := ff_chains (cf_features config) in
  let e := chain_capabilities config in
  (note (cg_btc c) (cc_enabled (cx_btc e)) "btc" "BTC_ELECTRUM_URL/fallbacks unset"
   ++ note (cg_ltc c) (cc_enabled (cx_ltc e)) "ltc" "LTC_ELECTRUM_URL/fallbacks unset"
   ++ note (cg_xmr c) (cc_enabled (cx_xmr e)) "xmr" "XMR_LWS_ADMIN_KEY unset"
   ++ note (cg_wow c) (cc_enabled (cx_wow e)) "wow" "WOW_LWS_ADMIN_KEY unset"
   ++ note (cg_grin c) (cc_enabled (cx_grin e)) "grin" "GRIN_OWNER_API_SECRET unset"
   ++ note (ff_nostr_identity (cf_features config)) (nostr_advertised config) "nostr_identity" "PUBLIC_API_URL unset")%list.

Definition admin_features `{Ext} `{AdminJwt} `{Hmac} `{MacJson} (state : AdminState) (config : Config) (h : HeaderMap)
  : M (CapabilitiesResponse * list Downgrade) :=
  _ ← admin_guard state h;
  mret (effective_capabilities config, downgrades config).
End capabilities.

(** * What is advertised is served *)

(** The client of an asset. *)
Definition client_of (c : ApiClients) (asset : string) : bool :=
  if asset =? "btc" then is_some (ac_btc c) else if asset =? "ltc" then is_some (ac_ltc c)
  else if asset =? "xmr" then is_some (ac_xmr c) else if asset =? "wow" then is_some (ac_wow c)
  else if asset =? "grin" then is_some (ac_grin c) else false.

Definition has_server (o : option (UtxoClient * ElState)) : Prop :=
  exists c st, o = Some (c, st) /\ (is_Some (uc_primary c) \/ uc_fallbacks c <> []).

Lemma when_on_Ok {A} flag (m : outcome A) o :
  when_on flag m = Ok o -> (flag = true /\ exists a, m = Ok a /\ o = Some a) \/ (flag = false /\ o = None).
Proof. unfold when_on. destruct flag; [|by intros [= <-]; right]. intros (a & Ha & [= <-])%bind_Ok. left. eauto. Qed.

Lemma collect_ok_cons {A B} (f : A -> outcome B) l bs : collect_ok f l = Ok bs -> l <> [] -> bs <> [].
Proof.
  destruct l as [|a l]; [done|]. simpl. intros (b & _ & (bs' & _ & [= <-])%bind_Ok)%bind_Ok. done.
Qed.

Lemma electrum_new_serves n cfg c st :
  electrum_new n cfg = Ok (c, st) ->
  is_some (ux_electrum_primary cfg) || match ux_electrum_fallbacks cfg with [] => false | _ => true end = true ->
  has_server (Some (c, st)).
Proof.
  unfold electrum_new. intros (p & Hp & (fb & Hfb & [= <- <-])%bind_Ok)%bind_Ok Hs.
  eexists _, _. split; [done|]. cbn [uc_primary uc_fallbacks]. apply orb_true_iff in Hs as [Hs|Hs].
  - left. destruct (ux_electrum_primary cfg); [|done]. apply bind_Ok in Hp as (u & _ & [= <-]). by eexists.
  - right. apply (collect_ok_cons _ _ _ Hfb). by destruct (ux_electrum_fallbacks cfg).
Qed.

Lemma utxo_when_on flag cfg new client :
  (forall r, new cfg = Ok r -> exists n, electrum_new n cfg = Ok r) ->
  when_on flag (new cfg) = Ok client -> utxo_serviceable flag cfg = true -> has_server client.
Proof.
  intros Hnew [(_ & [c st] & Hc & ->)|(-> & ->)]%when_on_Ok Hs; [|done].
  apply andb_true_iff in Hs as [_ Hs]. apply Hnew in Hc as [n Hc]. by eapply electrum_new_serves.
Qed.

Lemma plain_when_on {A} flag (a : A) client : when_on flag (Ok a) = Ok client -> flag = true -> client = Some a.
Proof. by intros [(_ & a' & [= <-] & ->)|(-> & ->)]%when_on_Ok. Qed.

Lemma bitcoin_new cfg r : electrum_bitcoin cfg = Ok r -> exists n, electrum_new n cfg = Ok r.
Proof. unfold electrum_bitcoin. intros (n & _ & Hr)%bind_Ok. eauto. Qed.
Lemma litecoin_new cfg r : electrum_litecoin cfg = Ok r -> exists n, electrum_new n cfg = Ok r.
Proof. unfold electrum_litecoin. intros (n & _ & Hr)%bind_Ok. eauto. Qed.

Section served.
Context `{CapNet} `{Ext} `{Http} `{PayNet} `{Bech32}.

(** The rails advertised are the rails built, in their order. *)
Lemma rails_mirrored config primary :
  provider_from_config config = Ok primary -> pm_enabled (cf_premium config) = true ->
  (fun r => (ri_id r, ri_assets r)) <$> premium_rails config
  = (fun r => (rail_kind r, rail_assets r)) <$> rails_from_config config primary.
Proof.
  unfold provider_from_config, rails_from_config. intros Hp Hm. rewrite Hm, andb_false_r in Hp. rewrite Hm.
  destruct (String.eqb_spec (pc_provider (rg_payment (cf_registration config))) "btcpay") as [E|]; [|done].
  injection Hp as <-. unfold premium_rails. rewrite E. cbn [negb fmap list_fmap app]. f_equal.
  induction (pm_rails (cf_premium config)) as [|r rs IH]; [done|]. cbn. by f_equal.
Qed.

(** The Nostr relay and what stands on it. *)
Definition relay_served (config : Config) (caps : CapabilitiesResponse) : Prop :=
  let f := cp_features caps in
  let r := ms_relay (cf_messaging config) in
  (fc_nostr_relay f = true <-> rl_enabled r = true /\ trim (rl_advertised_url r) <> "") /\
  (fc_nostr_relay f = true -> forall built, relay_from_config r = Ok built ->
     exists provider, built = Some provider /\ np_advertised_url provider = rl_advertised_url r) /\
  (fc_premium_relay f = true <-> pm_enabled (cf_premium config) = true /\ fc_nostr_relay f = true) /\
  (fc_feed f = true <-> fd_enabled (cf_feed config) = true /\ fc_nostr_relay f = true) /\
  mc_relay_url <$> cp_messaging caps = (if fc_nostr_relay f then Some (rl_advertised_url r) else None) /\
  qc_relay_url <$> cp_premium caps = (if fc_premium_relay f then Some (rl_advertised_url r) else None) /\
  ec_relay_url <$> cp_feed caps = (if fc_feed f then Some (rl_advertised_url r) else None).

Lemma relay_is_served env config : relay_served config (effective_capabilities env config).
Proof.
  unfold relay_served. cbn [cp_features cp_messaging cp_premium cp_feed effective_capabilities fc_nostr_relay
    fc_premium_relay fc_feed feature_capabilities]. split_and!.
  - unfold relay_advertised. rewrite andb_true_iff, negb_true_iff. split; intros [He Hu]; (split; [done|]).
    + intros E. by rewrite E in Hu.
    + by destruct (trim _).
  - unfold relay_advertised. intros [He _]%andb_true_iff built. unfold relay_from_config. rewrite He. cbn [negb].
    intros (policy & _ & Hb)%bind_Ok. destruct (_ || _); [|done]. injection Hb as <-. by eexists.
  - apply andb_true_iff.
  - apply andb_true_iff.
  - unfold messaging_capability, when. by destruct (relay_advertised config).
  - unfold premium_capability, when. by destruct (premium_advertised config).
  - unfold feed_capability, when. by destruct (feed_advertised config).
Qed.

(** C32: what an instance advertises it serves.  For every configuration its chain clients
    can be built from: an advertised chain has its client, with a server to ask where it
    is a UTXO chain; the scan server, the batch queries, the subaddresses and the tips
    are advertised only with a chain they need and the switch their routes and
    handlers look at; the Grin relay exactly when its handlers are switched on; Nostr
    identity and sign-in exactly with their switch and the base URL the signatures name; the
    price feed exactly when its handler answers; the Nostr relay exactly when one is enabled with a URL, and
    then one is built with that URL; the premium relay and the feed exactly
    with their switch and that relay; the sections of the three are there exactly with
    the feature, and name that relay; and the ways to pay for premium are,
    in order, the rails an invoice is selected from, of which there is a first. *)
Theorem advertised_is_served env config clients
    (Hclients : chains_from_config config = Ok clients) :
  let caps := effective_capabilities env config in
  let f := cp_features caps in
  (cc_enabled (cx_btc (cp_chains caps)) = true -> has_server (ac_btc clients)) /\
  (cc_enabled (cx_ltc (cp_chains caps)) = true -> has_server (ac_ltc clients)) /\
  (cc_enabled (cx_xmr (cp_chains caps)) = true -> ac_xmr clients = Some (cn_new Monero (ch_xmr (cf_chains config)))) /\
  (cc_enabled (cx_wow (cp_chains caps)) = true -> ac_wow clients = Some (cn_new Wownero (ch_wow (cf_chains config)))) /\
  (cc_enabled (cx_grin (cp_chains caps)) = true -> ac_grin clients = Some (grin_new (ch_grin (cf_chains config)))) /\
  (fc_grin_lws f = true -> ac_grin_lws clients = Some (grin_lws_new (ch_grin_lws (cf_chains config)))) /\
  (fc_tips f = true -> ff_tips (cf_features config) = true /\ is_Some (cf_tip_share_base config) /\
     exists asset, client_of clients asset = true) /\
  (fc_targeted_tips f = true -> fc_tips f = true /\ ff_targeted_tips (cf_features config) = true) /\
  (fc_xmr_subaddr_provisioning f = true -> subaddr_provisioning_enabled env = true /\
     (is_Some (ac_xmr clients) \/ is_Some (ac_wow clients))) /\
  (fc_utxo_multi_address f = true -> utxo_multi_enabled env = true /\
     (has_server (ac_btc clients) \/ has_server (ac_ltc clients))) /\
  (fc_grin_relay f = true <-> Slatepack.ensure_enabled (ff_grin_relay (cf_features config)) = Ok tt) /\
  (forall b, b = fc_nostr_identity f \/ b = fc_nostr_native_auth f ->
     b = true <-> ff_nostr_identity (cf_features config) = true /\ is_Some (id_public_api_url (cf_identity config))) /\
  (fc_prices f = true <-> forall snap, is_ok (prices (cf_features config) snap) = true) /\
  relay_served config caps /\
  (forall primary q, provider_from_config config = Ok primary -> cp_premium caps = Some q ->
     let rails := rails_from_config config primary in
     (fun r => (ri_id r, ri_assets r)) <$> qc_rails q = (fun r => (rail_kind r, rail_assets r)) <$> rails /\
     is_Some (select rails None)).
Proof.
  unfold chains_from_config in Hclients.
  apply bind_Ok in Hclients as (btc & Hbtc & Hclients). apply bind_Ok in Hclients as (ltc & Hltc & Hclients).
  apply bind_Ok in Hclients as (xmr & Hxmr & Hclients). apply bind_Ok in Hclients as (wow & Hwow & Hclients).
  apply bind_Ok in Hclients as (grin & Hgrin & Hclients). apply bind_Ok in Hclients as (lws & Hlws & [= <-]).
  pose proof (utxo_when_on _ _ _ _ (bitcoin_new _) Hbtc) as Bbtc.
  pose proof (utxo_when_on _ _ _ _ (litecoin_new _) Hltc) as Bltc.
  pose proof (plain_when_on _ _ _ Hxmr) as Bxmr. pose proof (plain_when_on _ _ _ Hwow) as Bwow.
  pose proof (plain_when_on _ _ _ Hgrin) as Bgrin. pose proof (plain_when_on _ _ _ Hlws) as Blws.
  assert (Sbtc : chain_serviceable config "btc" = true -> has_server btc) by exact Bbtc.
  assert (Sltc : chain_serviceable config "ltc" = true -> has_server ltc) by exact Bltc.
  assert (Sxmr : chain_serviceable config "xmr" = true -> xmr = Some _) by (intros [Hx _]%andb_true_iff; by apply Bxmr).
  assert (Swow : chain_serviceable config "wow" = true -> wow = Some _) by (intros [Hx _]%andb_true_iff; by apply Bwow).
  assert (Sgrin : chain_serviceable config "grin" = true -> grin = Some _) by (intros [Hx _]%andb_true_iff; by apply Bgrin).
  cbn [cp_features cp_chains cp_premium effective_capabilities fc_grin_lws fc_tips fc_targeted_tips fc_prices
    fc_xmr_subaddr_provisioning fc_utxo_multi_address fc_nostr_native_auth feature_capabilities
    chain_capabilities cx_btc cx_ltc cx_xmr cx_wow cx_grin cc_enabled ac_btc ac_ltc ac_xmr ac_wow ac_grin ac_grin_lws].
  repeat match goal with |- _ /\ _ => split end.
  - exact Sbtc.
  - exact Sltc.
  - exact Sxmr.
  - exact Swow.
  - exact Sgrin.
  - unfold grin_lws_serviceable. intros [[Hg _]%andb_true_iff Hu]%andb_true_iff. apply Blws. by rewrite Hg.
  - unfold tips_advertised. intros [[Ht Hb]%andb_true_iff Hs]%andb_true_iff.
    split; [done|]. split; [by destruct (cf_tip_share_base config)|].
    apply existsb_exists in Hs as (asset & Hin%list_elem_of_In & Hs). exists asset. unfold client_of.
    repeat (apply elem_of_cons in Hin as [->|Hin]); [| | | | |by apply not_elem_of_nil in Hin]; cbn.
    + by destruct (Sbtc Hs) as (? & ? & -> & _).
    + by destruct (Sltc Hs) as (? & ? & -> & _).
    + by rewrite (Sxmr Hs).
    + by rewrite (Swow Hs).
    + by rewrite (Sgrin Hs).
  - by intros [? ?]%andb_true_iff.
  - intros [He [Hx|Hw]%orb_true_iff]%andb_true_iff; (split; [done|]);
      [left; rewrite (Sxmr Hx)|right; rewrite (Swow Hw)]; by eexists.
  - intros [He [Hx|Hw]%orb_true_iff]%andb_true_iff; (split; [done|]); [left; by apply Sbtc|right; by apply Sltc].
  - change (fc_grin_relay (feature_capabilities config env)) with (ff_grin_relay (cf_features config)).
    unfold Slatepack.ensure_enabled. by destruct (ff_grin_relay _).
  - intros b Hb.
    assert (b = nostr_advertised config) as -> by (by destruct Hb). unfold nostr_advertised.
    rewrite andb_true_iff. destruct (id_public_api_url (cf_identity config)); [by split; intros []|].
    split; [by intros []|]. by intros [_ []].
  - change (fc_prices (feature_capabilities config env)) with (ff_prices (cf_features config)).
    unfold prices. destruct (ff_prices (cf_features config)); [done|]. split; [done|].
    intros Hp. by specialize (Hp (empty_snapshot "USD")).
  - apply (relay_is_served env config).
  - intros primary q Hprim Hq. unfold premium_capability, when in Hq.
    destruct (premium_advertised config) eqn:Ea; [|done]. injection Hq as <-. cbn [qc_rails].
    apply andb_true_iff in Ea as [Hm _]. pose proof (rails_mirrored config primary Hprim Hm) as Hr.
    split; [exact Hr|]. destruct (rails_from_config config primary); [discriminate Hr|by eexists].
Qed.
End served.

(** The two instances of the projection agree: a chain the operator enabled is either
    advertised or listed as a downgrade, never both. *)
Lemma downgrades_exact `{Net} config feature :
  feature ∈ all_chains ->
  feature ∈ (dg_feature <$> downgrades config) <->
  (let c := ff_chains (cf_features config) in
   (if feature =? "btc" then cg_btc c else if feature =? "ltc" then cg_ltc c else if feature =? "xmr" then cg_xmr c
    else if feature =? "wow" then cg_wow c else cg_grin c) = true) /\ chain_serviceable config feature = false.
Proof.
  assert (Hnote : forall on eff f r x, x ∈ (dg_feature <$> note on eff f r) <-> on = true /\ eff = false /\ x = f).
  { intros on eff f r x. unfold note. destruct on, eff; cbn; rewrite ?elem_of_cons, ?elem_of_nil; intuition congruence. }
  intros Hf. unfold downgrades. rewrite !fmap_app, !elem_of_app, !Hnote.
  repeat (apply elem_of_cons in Hf as [->|Hf]); [| | | | |by apply not_elem_of_nil in Hf];
    cbn [chain_capabilities cx_btc cx_ltc cx_xmr cx_wow cx_grin cc_enabled]; simpl (_ =? _);
    cbv iota; intuition congruence.
Qed.

(** * A concrete deployment *)

#[local] Instance demo_cap_net : CapNet := {
  url_host_str u := Some u;
  cargo_pkg_version := "0.3.0";
}.
#[local] Instance demo_pay_net : PayNet := {
  pay_post _ _ _ _ := HttpFailed "down";
  pay_get _ _ _ := HttpFailed "down";
  url_encode _ := "";
}.
#[local] Instance demo_plain_entries : Bech32 := { bech32_decode _ := None }.
#[local] Instance demo_no_http : Http := demo_price_json [].

Definition demo_clients : outcome ApiClients := config ← from_env demo_env; chains_from_config config.

Lemma advertised_is_served_witness :
  exists config clients, from_env demo_env = Ok config /\ chains_from_config config = Ok clients /\
    has_server (ac_btc clients) /\
    forall primary, provider_from_config config = Ok primary -> is_Some (select (rails_from_config config primary) None).
Proof.
  assert (Hok : match from_env demo_env with
    | Ok c => is_ok (chains_from_config c) && chain_serviceable c "btc" && premium_advertised c | _ => false end = true)
    by (vm_compute; reflexivity).
  destruct (from_env demo_env) as [config|e|] eqn:Ec; [|discriminate Hok..].
  apply andb_true_iff in Hok as [Hok Hp]. apply andb_true_iff in Hok as [Hok Hb].
  destruct (chains_from_config config) as [clients|e|] eqn:El; [|discriminate Hok..].
  exists config, clients.
  destruct (advertised_is_served ∅ config clients El) as (Hbtc & _ & _ & _ & _ & _ & _ & _ & _ & _ & _ & _ & _ & _ & Hprem).
  split; [done|]. split; [done|]. split; [exact (Hbtc Hb)|].
  intros primary Hprim. eapply (fun q H => proj2 (Hprem primary q Hprim H)).
  unfold effective_capabilities, cp_premium, premium_capability, when. rewrite Hp. reflexivity.
Defined.
