(* ===== verification/Landing.v ===== *)
(** [src/api/landing.rs]: the public landing page and its read model.

    The cache of the statistics is threaded through the requests; its clock is the
    process' monotonic one. *)

From Stdlib Require Import ZArith Lia Ascii String.
From S2P Require Import Prelude RustStr Json Errors Db Effects Demo SocialTips Auth Config Pow Users Capabilities.

Local Open Scope string_scope.

Record PriceFeedInfo := mkPriceFeedInfo { pf_enabled : bool }.
Record Software := mkSoftware { sw_name : string; sw_version : option string }.
Record StatsInfo := mkStatsInfo { sx_any_handles : bool; sx_handles_at_least : option i64 }.
Record ServerInfo := mkServerInfo {
  sv_software : Software; sv_status : string; sv_title : option string; sv_chains : option (list string);
  sv_price_feed : option PriceFeedInfo; sv_up : option bool; sv_stats : option StatsInfo }.

(** * The projection *)

(** The first two components of the version. *)
Definition coarse_version_of (v : string) : string :=
  match splitn_char 3 "." v with
  | major :: minor :: _ => major ++ "." ++ minor
  | _ => v
  end.

Definition enabled_chain_symbols `{Net} (config : Config) : list string :=
  base.filter (fun sym => chain_serviceable config sym = true) all_chains.

Definition build_server_info `{CapNet} (config : Config) : ServerInfo :=
  let l := cf_landing config in
  mkServerInfo
    (mkSoftware "smirk-backend-core" (when (ld_expose_version l) (coarse_version_of cargo_pkg_version)))
    "ok" (ld_title l) (when (ld_expose_chains l) (enabled_chain_symbols config))
    (when (ld_expose_price_feed l) (mkPriceFeedInfo (ff_prices (cf_features config))))
    (when (ld_expose_uptime l) true) None.

(** * Statistics *)

Definition MIN_STATS_CACHE : Z := (3600 * SECOND)%Z.

Definition bucket_step (n : i64) : i64 :=
  if (n <? 1000)%Z then 10%Z else if (n <? 10000)%Z then 100%Z else 1000%Z.
Definition bucket_floor (n : i64) : i64 := (n - n mod bucket_step n)%Z.

Definition stats_ttl (l : LandingConfig) : Z :=
  Z.max (u64_saturating_mul (ld_stats_cache_hours l) 3600 * SECOND) MIN_STATS_CACHE.

Abbreviation StatsCache := (option (Time * StatsInfo)).

Definition stats_of (l : LandingConfig) (handles : i64) : StatsInfo :=
  mkStatsInfo (0 <? handles)%Z
    (if (ld_stats_min_users l <=? handles)%Z && (0 <? bucket_floor handles)%Z then Some (bucket_floor handles) else None).

Definition instant_now : M Time := fun w => (w, Ok (w_now w)).

Definition stats_block `{Ext} (l : LandingConfig) (cache : StatsCache) : M (StatsCache * option StatsInfo) :=
  now ← instant_now;
  match match cache with Some (t, info) => if (now - t <? stats_ttl l)%Z then Some info else None | None => None end with
  | Some info => mret (cache, Some info)
  | None =>
      r ← attempt get_handle_count;
      match r with
      | inr _ => mret (cache, None)
      | inl handles =>
          now ← instant_now;
          let info := stats_of l handles in
          mret (Some (now, info), Some info)
      end
  end.

(** * Handlers *)

(** [None] is the bare 404. *)
Definition server_info `{CapNet} `{Ext} (config : Config) (cache : StatsCache) : M (StatsCache * option ServerInfo) :=
  let l := cf_landing config in
  if negb (ld_enabled l) then mret (cache, None)
  else if ld_stats_enabled l then
    r ← stats_block l cache;
    let i := build_server_info config in
    mret (r.1, Some (mkServerInfo (sv_software i) (sv_status i) (sv_title i) (sv_chains i) (sv_price_feed i) (sv_up i) r.2))
  else mret (cache, Some (build_server_info config)).

Definition html_escape_char (c : ascii) : string :=
  if Ascii.eqb c "&" then "&amp;"
  else if Ascii.eqb c "<" then "&lt;"
  else if Ascii.eqb c ">" then "&gt;"
  else if (code c =? 34)%nat then "&quot;"
  else if Ascii.eqb c "'" then "&#x27;"
  else String c "".

Fixpoint html_escape (s : string) : string :=
  match s with EmptyString => "" | String c s => html_escape_char c ++ html_escape s end.

Definition dquote : string := String (ascii_of_nat 34) "".

Definition page (t : string) : string :=
  "<!doctype html><html lang=" ++ dquote ++ "en" ++ dquote ++ "><head><meta charset=" ++ dquote ++ "utf-8"
  ++ dquote ++ "><title>" ++ t ++ "</title></head><body><h1>" ++ t ++ "</h1><p>status: ok</p></body></html>".

Definition root `{Net} (config : Config) : option string :=
  let l := cf_landing config in
  if negb (ld_enabled l) then None
  else Some (page (html_escape (default "smirk-backend-core" (ld_title l)))).

(** * What the page gives away *)

(** The published number is a floor, and coarse: a multiple of ten that is within one
    bucket of the count, not above it, and larger for more handles only. *)
Lemma bucket_floor_spec n :
  (0 <= n)%Z ->
  (bucket_floor n <= n < bucket_floor n + bucket_step n)%Z /\ (bucket_floor n mod 10 = 0)%Z /\ (0 <= bucket_floor n)%Z.
Proof.
  intros Hn. unfold bucket_floor. assert (Hs : bucket_step n ∈ [10; 100; 1000]%Z).
  { unfold bucket_step. destruct (n <? 1000)%Z; [by left|]. destruct (n <? 10000)%Z; [by right; left|by right; right; left]. }
  assert (Hd : exists k, bucket_step n = (10 * k)%Z /\ (0 < k)%Z).
  { repeat (apply elem_of_cons in Hs as [->|Hs]); [by exists 1%Z|by exists 10%Z|by exists 100%Z|by apply not_elem_of_nil in Hs]. }
  destruct Hd as (k & Hk & Hpos). rewrite Hk.
  pose proof (Z.mod_pos_bound n (10 * k) ltac:(lia)). pose proof (Z.div_mod n (10 * k) ltac:(lia)).
  assert (Heq : (n - n mod (10 * k) = 10 * (k * (n / (10 * k))))%Z) by lia.
  assert (0 <= n / (10 * k))%Z by (apply Z.div_pos; lia).
  split; [lia|]. rewrite Heq. split; [rewrite Z.mul_comm; apply Z.mod_mul; lia|nia].
Qed.

Lemma bucket_floor_mono n n' : (0 <= n <= n')%Z -> (bucket_floor n <= bucket_floor n')%Z.
Proof.
  intros [Hn Hle]. destruct (bucket_floor_spec n' ltac:(lia)) as ([Hl Hu] & _ & _).
  destruct (bucket_floor_spec n Hn) as ([Hl' _] & _ & _). unfold bucket_floor, bucket_step in *.
  destruct (Z.ltb_spec n 1000), (Z.ltb_spec n' 1000), (Z.ltb_spec n 10000), (Z.ltb_spec n' 10000); try lia.
  all: pose proof (Z.div_mod n 10 ltac:(lia)); pose proof (Z.div_mod n' 10 ltac:(lia));
    pose proof (Z.div_mod n 100 ltac:(lia)); pose proof (Z.div_mod n' 100 ltac:(lia));
    pose proof (Z.div_mod n 1000 ltac:(lia)); pose proof (Z.div_mod n' 1000 ltac:(lia));
    pose proof (Z.div_le_mono n n' 10 ltac:(lia) Hle); pose proof (Z.div_le_mono n n' 100 ltac:(lia) Hle);
    pose proof (Z.div_le_mono n n' 1000 ltac:(lia) Hle);
    pose proof (Z.div_le_mono 1000 n' 100 ltac:(lia)); pose proof (Z.div_le_mono 10000 n' 1000 ltac:(lia));
    pose proof (Z.mod_pos_bound n 10 ltac:(lia)); pose proof (Z.mod_pos_bound n 100 ltac:(lia)); lia.
Qed.

(** What may be published of a count. *)
Definition discreet (l : LandingConfig) (handles : i64) (info : StatsInfo) : Prop :=
  sx_any_handles info = (0 <? handles)%Z /\
  forall b, sx_handles_at_least info = Some b ->
    (ld_stats_min_users l <= handles)%Z /\ (0 < b <= handles)%Z /\ (b mod 10 = 0)%Z /\ (handles < b + bucket_step handles)%Z.

Lemma stats_discreet l handles : (0 <= handles)%Z -> discreet l handles (stats_of l handles).
Proof.
  intros Hh. split; [done|]. intros b. unfold stats_of. cbn [sx_handles_at_least].
  destruct (_ && _) eqn:E; [|done]. intros [= <-]. apply andb_true_iff in E as [Hm%Z.leb_le Hb%Z.ltb_lt].
  destruct (bucket_floor_spec handles Hh) as ([? ?] & ? & ?). split_and!; lia.
Qed.

Lemma count_users_nonneg `{Ext} w w' n : get_handle_count w = (w', Ok n) -> (0 <= n)%Z.
Proof.
  unfold get_handle_count, query, run_stmt. destruct (next_slot w) as [sl w0]. unfold count_users.
  intros Hr. destruct (sl_fault sl); try done. injection Hr as _ <-. lia.
Qed.

(** The public statistics narrow nobody down.  Whatever happens to the database
    meanwhile, a block that is published is the cached one while it is young, or what
    is published of the count read: whether there is a handle at all, and, from the
    operator's floor on, a multiple of ten not above the count and within one bucket
    of it; and a number is replaced only once it has been held for an hour, whatever
    the configuration says. *)
Theorem stats_held_and_coarse `{Ext} l cache w w' cache' info
    (Hrun : stats_block l cache w = (w', Ok (cache', Some info))) :
  (exists t, cache = Some (t, info) /\ cache' = cache /\ w_db w' = w_db w) \/
  (exists handles, (get_handle_count w).2 = Ok handles /\ discreet l handles info /\
     cache' = Some (w_now w', info) /\ forall t i, cache = Some (t, i) -> (HOUR <= w_now w - t)%Z).
Proof.
  unfold stats_block in Hrun. apply bind_run_Ok in Hrun as (w1 & now & [= <- <-] & Hrun).
  assert (Hfresh : forall o, (forall t i, cache = Some (t, i) -> (HOUR <= w_now w - t)%Z) ->
    (r ← attempt get_handle_count;
     match r with
     | inr _ => mret (cache, None)
     | inl handles => now ← instant_now; mret (Some (now, stats_of l handles), Some (stats_of l handles))
     end) w = (w', o) -> o = Ok (cache', Some info) ->
    exists handles, (get_handle_count w).2 = Ok handles /\ discreet l handles info /\
      cache' = Some (w_now w', info) /\ forall t i, cache = Some (t, i) -> (HOUR <= w_now w - t)%Z).
  { intros o Hold Hr ->. apply bind_run_Ok in Hr as (w2 & r & Hr & Hk). unfold attempt in Hr.
    destruct (get_handle_count w) as [w3 [n|e|]] eqn:Eg; simplify_eq/=.
    injection Hk as <- <- <-. apply count_users_nonneg in Eg. exists n. split_and!; [done|by apply stats_discreet|done|done]. }
  destruct cache as [[t i]|]; [|right; by eapply Hfresh].
  destruct (Z.ltb_spec (w_now w - t) (stats_ttl l)); [injection Hrun as <- <- <-; left; eauto|].
  right. eapply Hfresh; [|exact Hrun|done]. intros t' i' [= <- <-].
  unfold stats_ttl, MIN_STATS_CACHE in *. unfold HOUR, MINUTE. lia.
Qed.

(** ** The page *)

(** A title cannot leave its element or the quotes around it. *)
Lemma html_escape_safe s :
  all_chars (fun c => negb (Ascii.eqb c "<") && negb (Ascii.eqb c ">") && negb (code c =? 34)%nat
    && negb (Ascii.eqb c "'")) (html_escape s) = true.
Proof.
  induction s as [|c s IH]; [done|]. cbn [html_escape]. unfold html_escape_char.
  destruct (Ascii.eqb c "&") eqn:E1; [exact IH|]. destruct (Ascii.eqb c "<") eqn:E2; [exact IH|].
  destruct (Ascii.eqb c ">") eqn:E3; [exact IH|]. destruct (code c =? 34)%nat eqn:E4; [exact IH|].
  destruct (Ascii.eqb c "'") eqn:E5; [exact IH|].
  change (String c "" ++ html_escape s) with (String c (html_escape s)). cbn [all_chars]. by rewrite E2, E3, E4, E5.
Qed.

Lemma code_dquote c : code c = 34 -> c = ascii_of_nat 34.
Proof. unfold code. intros Hc. by rewrite <- (ascii_nat_embedding c), Hc. Qed.

(** Two titles are shown alike only when they are the same. *)
Lemma html_escape_inj s t : html_escape s = html_escape t -> s = t.
Proof.
  assert (Hstart : forall c, exists r, html_escape_char c = String (if negb (Ascii.eqb c "&") && negb (Ascii.eqb c "<")
      && negb (Ascii.eqb c ">") && negb (code c =? 34)%nat && negb (Ascii.eqb c "'") then c else "&"%char) r).
  { intros c. unfold html_escape_char. destruct (Ascii.eqb c "&"), (Ascii.eqb c "<"), (Ascii.eqb c ">"),
      (code c =? 34)%nat, (Ascii.eqb c "'"); eexists; reflexivity. }
  revert t. induction s as [|c s IH]; intros [|d t]; [done|..].
  - cbn [html_escape]. by destruct (Hstart d) as [r ->].
  - cbn [html_escape]. by destruct (Hstart c) as [r ->].
  - cbn [html_escape]. unfold html_escape_char.
    destruct (Ascii.eqb_spec c "&") as [->|Hc1]; [|destruct (Ascii.eqb_spec c "<") as [->|Hc2];
      [|destruct (Ascii.eqb_spec c ">") as [->|Hc3]; [|destruct (Nat.eqb_spec (code c) 34) as [->%code_dquote|Hc4];
      [|destruct (Ascii.eqb_spec c "'") as [->|Hc5]]]]];
    (destruct (Ascii.eqb_spec d "&") as [->|Hd1]; [|destruct (Ascii.eqb_spec d "<") as [->|Hd2];
      [|destruct (Ascii.eqb_spec d ">") as [->|Hd3]; [|destruct (Nat.eqb_spec (code d) 34) as [->%code_dquote|Hd4];
      [|destruct (Ascii.eqb_spec d "'") as [->|Hd5]]]]]);
    simpl; intros [=]; subst; try done; f_equal; auto.
Qed.

(** * A concrete instance *)

Definition demo_landing : LandingConfig := mkLandingConfig true (Some "<b>Smirk</b>") false true false false true 0 25.

Definition demo_published : World * outcome (StatsCache * option StatsInfo) :=
  stats_block demo_landing (Some (0, mkStatsInfo true (Some 20)))%Z (quiet_world empty_db (2 * HOUR)).

(** A block of two hours ago is computed again, although the configuration holds it
    for none. *)
Lemma stats_held_and_coarse_witness :
  exists info, demo_published.2 = Ok (Some (2 * HOUR, info)%Z, Some info) /\ discreet demo_landing 0 info.
Proof.
  assert (Hp : match demo_published.2 with Ok (_, Some i) => negb (sx_any_handles i) | _ => false end = true)
    by (vm_compute; reflexivity).
  destruct demo_published as [w' [[cache' [info|]]|e|]] eqn:E; try discriminate Hp.
  destruct (stats_held_and_coarse demo_landing _ _ w' cache' info E) as [(t & [= _ <-] & _)|(n & Hn & Hd & -> & _)];
    [discriminate Hp|].
  exists info. vm_compute in Hn. injection Hn as <-. split; [|exact Hd].
  assert (Hw : w_now w' = (2 * HOUR)%Z).
  { change w' with (w', Ok (Some (w_now w', info), Some info)).1. rewrite <- E. reflexivity. }
  rewrite <- Hw. reflexivity.
Defined.
