(* ===== verification/Cli.v ===== *)
(** [src/bin/smirk-admin.rs]: the operator's break-glass tool.  It works on the
    tables directly, next to the server.

    A command is a program over the shell it runs in (what it prints, the files it
    writes) and the world of [Effects.v].  The environment, the file system's
    refusals, the entropy of the OS, the Schnorr keys of [k256] and the database of
    the old instance are the class [Host]. *)

From Stdlib Require Import ZArith Lia Ascii String Strings.Byte.
From stdpp Require Import pretty.
From S2P Require Import Prelude RustStr Errors Db Effects TipStatus SocialTips Transactions Pepper AuditChain Config TipApi Registration Premium Users AuthApi AdminKeys UsersApi.

Local Open Scope string_scope.

(** * The shell *)

Record Shell := mkShell {
  sh_out : list string;                    (* what was printed, in order *)
  sh_err : list string;
  sh_files : gmap string (string * N) }.   (* by path: the contents, the mode *)

#[export] Instance eta_Shell : Eta Shell := fun s => mkShell (sh_out s) (sh_err s) (sh_files s).

(** A row of the old instance's [users]. *)
Record LegacyRow := mkLegacyRow {
  lr_id : Uuid; lr_created_at : Time; lr_username : option string; lr_pubkey_hash : option string;
  lr_nostr_pubkey : option string; lr_seed_fingerprint : option string;
  lr_wallet_birthday : option Time; lr_xmr_start_height : option i64;
  lr_wow_start_height : option i64 }.

Class Host := {
  env_file_mode : option N;                     (* of [.env]; [None] when there is none *)
  env_var : string -> option string;            (* after [.env] is read *)
  connect_error : string -> option string;      (* why a pool does not open on the URL *)
  draw_seed : nat -> list Byte.byte;            (* the draws of [OsRng], 32 bytes each *)
  x_only_key : list Byte.byte -> option (list Byte.byte);   (* the key, of a valid seed *)
  valid_draw : nat;
  open_error : string -> option string;         (* why a path cannot be created *)
  write_error : string -> option (nat * string);  (* the bytes that went out, and why no more *)
  legacy_users : string -> list LegacyRow + string;       (* the old table, by URL *)
}.

(** Some draw is a valid key: all but a 2^-128 of them are. *)
Class HostLaws (H : Host) := { some_draw_valid : is_Some (x_only_key (draw_seed valid_draw)) }.

Inductive exit (A : Type) : Type :=
| Done (a : A)
| Failed (msg : string)   (* [Err(msg)], which [main] prints *)
| Crashed.                (* a panic *)
Arguments Done {A} a.
Arguments Failed {A} msg.
Arguments Crashed {A}.

Definition C (A : Type) : Type := Shell * World -> (Shell * World) * exit A.

#[export] Instance C_ret : MRet C := fun A a s => (s, Done a).
#[export] Instance C_bind : MBind C := fun A B f m s =>
  match m s with
  | (s', Done a) => f a s'
  | (s', Failed e) => (s', Failed e)
  | (s', Crashed) => (s', Crashed)
  end.

Definition fail_with {A} (e : string) : C A := fun s => (s, Failed e).
Definition crash {A} : C A := fun s => (s, Crashed).
Definition println (line : string) : C unit := fun '(sh, w) =>
  ((sh <|sh_out := (sh_out sh ++ [line])%list|>, w), Done tt).
Definition eprintln (line : string) : C unit := fun '(sh, w) =>
  ((sh <|sh_err := (sh_err sh ++ [line])%list|>, w), Done tt).

(** [.map_err(|e| f(e.to_string()))] of a method of the store. *)
Definition db_as {A} (f : string -> string) (m : M A) : C A := fun '(sh, w) =>
  match m w with
  | (w', Ok a) => ((sh, w'), Done a)
  | (w', Err e) => ((sh, w'), Failed (f (display e)))
  | (w', Panic) => ((sh, w'), Crashed)
  end.
Definition db {A} : M A -> C A := db_as (fun e => e).

(** [match m.await { Ok(a) => .., Err(e) => .. }]. *)
Definition outcome_of {A} (m : C A) : C (A + string) := fun s =>
  match m s with
  | (s', Done a) => (s', Done (inl a))
  | (s', Failed e) => (s', Done (inr e))
  | (s', Crashed) => (s', Crashed)
  end.

(** [o.ok_or_else(|| e)?]. *)
Definition some_or {A} (o : option A) (e : string) : C A :=
  match o with Some a => mret a | None => fail_with e end.

Fixpoint c_for_each {A} (f : A -> C unit) (xs : list A) : C unit :=
  match xs with
  | [] => mret tt
  | x :: xs' => _ ← f x; c_for_each f xs'
  end.

(** [n += 1] of a [u32]. *)
Definition incr (n : u32) : C u32 := if (n =? 2 ^ 32 - 1)%Z then crash else mret (n + 1)%Z.

(** [&s[..n]] where [n] is at most the length: it panics inside a character. *)
Definition is_char_boundary (n : nat) (s : string) : bool :=
  match String.get n s with
  | Some c => negb ((128 <=? code c)%nat && (code c <? 192)%nat)
  | None => true
  end.
Definition prefix8 (s : string) : C string :=
  let n := Nat.min 8 (len s) in
  if is_char_boundary n s then mret (substring 0 n s) else crash.

(** * Flags *)

Fixpoint flag (args : list string) (name : string) : option string :=
  match args with
  | [] => None
  | a :: rest => if a =? name then head rest else flag rest name
  end.
Definition has_flag (args : list string) (name : string) : bool := bool_decide (name ∈ args).
Definition require_flag (args : list string) (name : string) : C string :=
  some_or (flag args name) ("missing required " ++ name).

Definition pubkey_char (c : ascii) : bool :=
  is_ascii_digit c || ((97 <=? code c)%nat && (code c <=? 102)%nat).
Definition validate_pubkey (pubkey : string) : C string :=
  let pk := to_lowercase pubkey in
  if (len pk =? 64)%nat && all_chars pubkey_char pk then mret pk
  else fail_with "pubkey must be 64 lowercase hex chars".

Definition cli_audit (action : string) (target : option string) : NewAdminAudit :=
  mkNewAdminAudit action "cli" None target None None.

Section cli.
Context `{Ext} `{Hmac} `{MacJson} `{AuditJson} `{Bs58} `{Host}.

Definition parse_uuid (s : string) : C Uuid := some_or (uuid_parse_str s) ("invalid uuid: " ++ s).

(** [{:o}]. *)
Definition octal3 (n : N) : string :=
  let d k := String (ascii_of_N (48 + N.land (N.shiftr n k) 7)) EmptyString in
  d 6%N ++ d 3%N ++ d 0%N.

(** The mode is printed by its low nine bits, without leading zeros. *)
Definition strip_zeros (s : string) : string :=
  match trim_start_char "0" s with EmptyString => "0" | s' => s' end.

Definition preflight_env_perms : C unit :=
  match env_file_mode with
  | Some mode =>
      if (N.land mode 63 =? 0)%N then mret tt
      else fail_with (".env is group/other-accessible (mode "
                     ++ strip_zeros (octal3 (N.land mode 511)) ++ "); chmod 600 it first")
  | None => mret tt
  end.

(** * Commands on the allowlist *)

Definition setup_cmd (secret : string) (args : list string) : C unit :=
  raw ← require_flag args "--pubkey";
  pubkey ← validate_pubkey raw;
  _ ← db (bootstrap_admin pubkey secret);
  _ ← println ("bootstrapped: active admin " ++ pubkey);
  println "setup latched (locked); the network admin plane is now usable".

Definition reset_setup_cmd (secret : string) (args : list string) : C unit :=
  if negb (has_flag args "--i-understand")
  then fail_with "reset-setup re-opens first-run setup; existing admin keys are preserved. Re-run with --i-understand to confirm"
  else
    _ ← db (reset_setup secret);
    println "setup reset to uninitialized (existing admin keys preserved)".

Definition key_state (k : AdminKey) : string :=
  if is_some (ak_revoked_at k) then "revoked"
  else if is_none (ak_activated_at k) then "pending" else "active ".

Definition key_line (k : AdminKey) : string :=
  uuid_to_string (ak_id k) ++ "  " ++ ak_pubkey k ++ "  " ++ key_state k ++ "  added "
    ++ to_rfc3339 (ak_created_at k).

Definition list_keys : C unit :=
  keys ← db list_admin_keys;
  match keys with
  | [] => println "(no admin keys)"
  | _ => c_for_each (fun k => println (key_line k)) keys
  end.

Definition cli_key (pubkey : string) (label : option string) : NewAdminKey :=
  mkNewAdminKey pubkey label "admin" "cli" None.

Definition add_key (secret : string) (args : list string) : C unit :=
  raw ← require_flag args "--pubkey";
  pubkey ← validate_pubkey raw;
  out ← db (create_admin_key_audited (cli_key pubkey (flag args "--label"))
              (cli_audit "admin_key_added" (Some pubkey)) secret I64_MAX);
  match out with
  | Created k =>
      _ ← println ("added pending admin key " ++ uuid_to_string (ak_id k) ++ " (" ++ ak_pubkey k ++ ")");
      println "it activates on its holder's first login"
  | CapReached => fail_with "unexpected: cap reached"
  end.

Definition revoke_by_cli (secret : string) (id : Uuid) : M RevokeKeyOutcome :=
  revoke_admin_key_full id (cli_audit "admin_key_revoked" (Some (uuid_to_string id))) secret false.

Definition revoke_key (secret : string) (args : list string) : C unit :=
  raw ← require_flag args "--id";
  id ← parse_uuid raw;
  out ← db (revoke_by_cli secret id);
  match out with
  | Revoked _ => println ("revoked admin key " ++ uuid_to_string id ++ " (and its sessions)")
  | KeyNotFound => fail_with "key not found or already revoked"
  | WouldEmptyAllowlist => crash
  end.

(** The loop of [--revoke-all], over the list as it was read. *)
Fixpoint revoke_others (secret : string) (kept : Uuid) (keys : list AdminKey) (revoked : u32) : C u32 :=
  match keys with
  | [] => mret revoked
  | k :: rest =>
      if is_some (ak_revoked_at k) || bool_decide (ak_id k = kept)
      then revoke_others secret kept rest revoked
      else
        out ← db (revoke_by_cli secret (ak_id k));
        match out with
        | Revoked _ => n ← incr revoked; revoke_others secret kept rest n
        | _ => revoke_others secret kept rest revoked
        end
  end.

Definition replace_key (secret : string) (args : list string) : C unit :=
  raw_old ← require_flag args "--old";
  old ← parse_uuid raw_old;
  raw ← require_flag args "--pubkey";
  pubkey ← validate_pubkey raw;
  let revoke_all := has_flag args "--revoke-all" in
  found ← db (rotate_admin_key old (cli_key pubkey (flag args "--label"))
                (cli_audit "admin_key_rotated" (Some (uuid_to_string old))) secret);
  created ← some_or found "old key not found or already revoked";
  _ ← println ("replaced " ++ uuid_to_string old ++ " -> new pending key "
                 ++ uuid_to_string (ak_id created) ++ " (" ++ ak_pubkey created ++ ")");
  _ ← (if revoke_all then
         keys ← db list_admin_keys;
         revoked ← revoke_others secret (ak_id created) keys 0;
         println ("--revoke-all: revoked " ++ pretty revoked ++ " other live key(s)")
       else mret tt);
  println "the new key activates on its holder's first login".

(** * A new administrator's wallet *)

(** The [loop] over the draws; [n] bounds them. *)
Fixpoint first_key (n i : nat) : option (list Byte.byte * list Byte.byte) :=
  match x_only_key (draw_seed i) with
  | Some pub => Some (draw_seed i, pub)
  | None => match n with O => None | S n => first_key n (S i) end
  end.

(** [OpenOptions .. .create_new(true).mode(0o600).open(path)], the two writes and the
    [sync_all]: an error while writing leaves what went out. *)
Definition create_new_file (path contents : string) : C unit := fun '(sh, w) =>
  let at_ s := sh <|sh_files := <[path := (s, 384%N)]> (sh_files sh)|> in
  if is_some (sh_files sh !! path) then ((sh, w), Failed "File exists (os error 17)")
  else match open_error path with
  | Some e => ((sh, w), Failed e)
  | None =>
      match write_error path with
      | Some (n, e) => ((at_ (substring 0 n contents), w), Failed e)
      | None => ((at_ contents, w), Done tt)
      end
  end.

Definition create_admin_wallet (secret : string) (args : list string) : C unit :=
  out ← require_flag args "--out";
  match first_key valid_draw 0 with
  | None => crash
  | Some (seed, pub) =>
      let pubkey := hex_encode pub in
      written ← outcome_of (create_new_file out (hex_encode seed ++ LF));
      match written with
      | inr e => fail_with ("write secret to " ++ out ++ ": " ++ e)
      | inl _ =>
          r ← db (create_admin_key_bootstrapping (cli_key pubkey (Some "cli-generated"))
                    (cli_audit "admin_wallet_created" (Some pubkey)) secret I64_MAX);
          match r with
          | (CapReached, _) => fail_with "unexpected: cap reached"
          | (Created _, latched) =>
              _ ← println ("generated admin key; secret written to " ++ out ++ " (mode 0600)");
              _ ← println ("pubkey: " ++ pubkey);
              if latched : bool then
                _ ← println "fresh instance bootstrapped: setup latched (locked) — no `setup` needed";
                _ ← println "import the secret into your NIP-98 signer and log in to activate.";
                println "if you lose this secret before that first login, recover by re-running `create-admin-wallet` (adds a fresh key), then `revoke-key` the stale one"
              else
                _ ← println "instance already bootstrapped: added a pending admin key";
                println "import the secret into your NIP-98 signer; it activates on first login"
          end
      end
  end.

(** * Invites and the doctor *)

Fixpoint mint_codes (n : nat) (label : option string) : C unit :=
  match n with
  | O => mret tt
  | S n =>
      code ← db generate_invite_code;
      _ ← db_as (fun e => "insert invite: " ++ e) (insert_invite_code (hash_invite_code code) label);
      _ ← println code;
      mint_codes n label
  end.

Definition mint_invite_cmd (args : list string) : C unit :=
  asked ← match flag args "--count" with
          | Some s => some_or (parse_u32 s) "--count must be a number"
          | None => mret 1%Z
          end;
  let count := clamp 1 1000 asked in
  let label := flag args "--label" in
  _ ← eprintln ("Minting " ++ pretty count ++ " single-use invite code(s)"
                  ++ default "" ((fun l => " [" ++ l ++ "]") <$> label) ++ ":");
  _ ← mint_codes (Z.to_nat count) label;
  eprintln (LF ++ "Distribute now — only the hash is stored; raw codes are not recoverable.").

(** [SELECT 1]. *)
Definition health_check : M bool := query (fun _ d => inr (d, true)).

Definition health : C string :=
  r ← outcome_of (db health_check);
  mret (match r with inl _ => "OK" | inr _ => "UNREACHABLE" end).

Definition doctor (secret : string) : C unit :=
  h ← health;
  _ ← println ("database: " ++ h);
  live ← db count_live_admin_keys;
  _ ← println ("live admin keys: " ++ pretty live);
  _ ← (if (live =? 0)%Z
       then println "  WARNING: no live admin keys — run create-admin-wallet or add-key"
       else mret tt);
  chain_ok ← db (verify_admin_audit_chain secret);
  _ ← println ("admin audit chain: " ++ (if chain_ok : bool then "OK"
                 else "BROKEN (tampered, or wrong ADMIN_KEY_INTEGRITY_SECRET)"));
  if negb chain_ok then fail_with "audit chain verification failed" else mret tt.
End cli.

(** * The import of the old instance's users *)

Record LegacyUser := mkLegacyUser {
  lu_username : option string; lu_pubkey_hash : string; lu_nostr_pubkey : option string;
  lu_seed_fingerprint : option string; lu_wallet_birthday : option Time;
  lu_xmr_start_height : option i64; lu_wow_start_height : option i64 }.

Inductive ImportOutcome :=
| ImportCreated (username_dropped nostr_dropped : bool)
| Skipped.

(** [.. WHERE pubkey_hash IS NOT NULL ORDER BY created_at, id LIMIT n]. *)
Definition lr_before (a b : LegacyRow) : Prop :=
  (lr_created_at a < lr_created_at b)%Z \/
  (lr_created_at a = lr_created_at b /\ (lr_id a <= lr_id b)%N).
#[export] Instance lr_before_dec a b : Decision (lr_before a b).
Proof. unfold lr_before. apply _. Defined.

Definition legacy_user (r : LegacyRow) : option LegacyUser :=
  (fun pkh => mkLegacyUser (lr_username r) pkh (lr_nostr_pubkey r) (lr_seed_fingerprint r)
     (lr_wallet_birthday r) (lr_xmr_start_height r) (lr_wow_start_height r)) <$> lr_pubkey_hash r.

Definition select_legacy (limit : option Z) (rows : list LegacyRow) : list LegacyUser :=
  let all := omap legacy_user (merge_sort lr_before rows) in
  match limit with Some n => take (Z.to_nat n) all | None => all end.

(** [o.as_deref().map(|s| s.trim().to_lowercase()).filter(|s| !s.is_empty())]. *)
Definition normalized (o : option string) : option string :=
  non_empty ((fun s => to_lowercase (trim s)) <$> o).

Record Tally := mkTally {
  ty_created : u32; ty_skipped : u32; ty_username_dropped : u32; ty_nostr_dropped : u32;
  ty_errors : u32 }.

Section import.
Context `{Ext} `{Hmac} `{Host}.

(** The target of the import: the tables under the identity pepper of the server. *)
Variable identity_pepper : string.

Definition legacy_label (u : LegacyUser) : C string :=
  match normalized (lu_username u) with
  | Some s => mret s
  | None => p ← prefix8 (lu_pubkey_hash u); mret ("pk:" ++ p ++ "…")
  end.

Definition identity_present (u : LegacyUser) : C bool :=
  by_key ← db (get_user_by_pubkey_hash identity_pepper (lu_pubkey_hash u));
  if is_some by_key then mret true
  else match lu_seed_fingerprint u with
  | Some fp =>
      by_fp ← db (get_user_by_seed_fingerprint identity_pepper fp);
      mret (is_some by_fp)
  | None => mret false
  end.

Definition new_user (u : LegacyUser) (username npub : option string) : NewUser :=
  mkNewUser username (Some (lu_pubkey_hash u)) npub (lu_wallet_birthday u) (lu_seed_fingerprint u)
    (lu_xmr_start_height u) (lu_wow_start_height u).

(** The handle the row is imported with, and whether it was dropped. *)
Definition import_username (u : LegacyUser) : C (option string * bool) :=
  match normalized (lu_username u) with
  | None => mret (None, false)
  | Some name =>
      taken ← (if is_ok (validate_handle name)
               then found ← db (get_user_by_username name); mret (is_some found)
               else mret true);
      if taken : bool then
        _ ← println ("  username " ++ debug_str name ++ " invalid/reserved/taken -> importing without it");
        mret (None, true)
      else mret (Some name, false)
  end.

Definition import_npub (u : LegacyUser) : C (option string * bool) :=
  match normalized (lu_nostr_pubkey u) with
  | None => mret (None, false)
  | Some npub =>
      found ← db (find_user_by_nostr_pubkey npub);
      if is_some found then
        p ← prefix8 npub;
        _ ← println ("  nostr_pubkey " ++ p ++ "… already linked on target -> importing without it");
        mret (None, true)
      else mret (Some npub, false)
  end.

(** The creation, and what is made of its failure. *)
Definition import_create (u : LegacyUser) (username npub : option string) (ud nd : bool)
  : C ImportOutcome :=
  r ← outcome_of (db (create_user identity_pepper (new_user u username npub)));
  match r with
  | inl _ => mret (ImportCreated ud nd)
  | inr e =>
      present ← identity_present u;
      if present : bool then mret Skipped
      else if is_some username || is_some npub then
        _ ← db (create_user identity_pepper (new_user u None None));
        mret (ImportCreated (ud || is_some username) (nd || is_some npub))
      else fail_with e
  end.

(** The checks and the writes of a row that the run has not met before. *)
Definition import_new (commit : bool) (u : LegacyUser) : C ImportOutcome :=
  present ← identity_present u;
  if present : bool then mret Skipped
  else
    name ← import_username u;
    npub ← import_npub u;
    if negb commit then mret (ImportCreated name.2 npub.2)
    else import_create u name.1 npub.1 name.2 npub.2.

(** [seen.insert(..)] of the two names of the row: the set, and whether both were new. *)
Definition note_seen (seen : gset string) (u : LegacyUser) : gset string * bool :=
  let pk := "pk:" ++ lu_pubkey_hash u in
  if bool_decide (pk ∈ seen) then (seen, false)
  else
    let seen' := {[pk]} ∪ seen in
    match lu_seed_fingerprint u with
    | Some fp =>
        if bool_decide ("fp:" ++ fp ∈ seen') then (seen', false)
        else ({["fp:" ++ fp]} ∪ seen', true)
    | None => (seen', true)
    end.

Definition import_one (commit : bool) (seen : gset string) (u : LegacyUser)
  : C (ImportOutcome + string) * gset string :=
  let '(seen', fresh) := note_seen seen u in
  ((if fresh then outcome_of (import_new commit u) else mret (inl Skipped)), seen').

(** One turn of the loop. *)
Definition tally_one (commit : bool) (u : LegacyUser) (r : ImportOutcome + string) (t : Tally)
  : C Tally :=
  match r with
  | inl Skipped =>
      n ← incr (ty_skipped t);
      mret (mkTally (ty_created t) n (ty_username_dropped t) (ty_nostr_dropped t) (ty_errors t))
  | inl (ImportCreated ud nd) =>
      n ← incr (ty_created t);
      nu ← (if ud then incr (ty_username_dropped t) else mret (ty_username_dropped t));
      nn ← (if nd then incr (ty_nostr_dropped t) else mret (ty_nostr_dropped t));
      label ← legacy_label u;
      _ ← println ("  " ++ (if commit then "imported" else "would import") ++ ": " ++ label);
      mret (mkTally n (ty_skipped t) nu nn (ty_errors t))
  | inr e =>
      n ← incr (ty_errors t);
      label ← legacy_label u;
      _ ← eprintln ("  ERROR importing " ++ label ++ ": " ++ e);
      mret (mkTally (ty_created t) (ty_skipped t) (ty_username_dropped t) (ty_nostr_dropped t) n)
  end.

Fixpoint import_all (commit : bool) (seen : gset string) (us : list LegacyUser) (t : Tally)
  : C Tally :=
  match us with
  | [] => mret t
  | u :: rest =>
      let '(run_one, seen') := import_one commit seen u in
      r ← run_one;
      t' ← tally_one commit u r t;
      import_all commit seen' rest t'
  end.

Definition summary_line (commit : bool) (t : Tally) : string :=
  "summary: " ++ (if commit then "imported" else "would-import") ++ "=" ++ pretty (ty_created t)
    ++ " skipped(already present)=" ++ pretty (ty_skipped t)
    ++ " username-dropped=" ++ pretty (ty_username_dropped t)
    ++ " nostr-dropped=" ++ pretty (ty_nostr_dropped t) ++ " errors=" ++ pretty (ty_errors t).
End import.

Section run.
Context `{Ext} `{Hmac} `{MacJson} `{AuditJson} `{Bs58} `{Host}.

(** What is done with the rows that were read, and said about it. *)
Definition import_rows (pepper : string) (commit : bool) (legacy : list LegacyUser) : C unit :=
  _ ← println ("legacy users read : " ++ pretty (Z.of_nat (length legacy)));
  _ ← println ("mode              : " ++ (if commit then "COMMIT (writing to this v0.3 DB)"
                 else "DRY-RUN (no writes; pass --commit to apply)"));
  _ ← println "";
  t ← import_all pepper commit ∅ legacy (mkTally 0 0 0 0 0);
  _ ← println "";
  _ ← println (summary_line commit t);
  if negb commit then println "dry-run only — re-run with --commit to apply." else mret tt.

Definition migrate_legacy (args : list string) : C unit :=
  source_url ← require_flag args "--source-url";
  let commit := has_flag args "--commit" in
  limit ← match flag args "--limit" with
          | Some s => n ← some_or (parse_usize s) "--limit must be a whole number"; mret (Some n)
          | None => mret None
          end;
  pepper ← some_or (env_var "SEED_FINGERPRINT_PEPPER")
             "SEED_FINGERPRINT_PEPPER must be set (run with the v0.3 server's .env)";
  if (len pepper <? 32)%nat then fail_with "SEED_FINGERPRINT_PEPPER must be at least 32 bytes"
  else
    _ ← match connect_error source_url with
        | Some e => fail_with ("connect source (legacy) db: " ++ e)
        | None => mret tt
        end;
    rows ← match legacy_users source_url with
           | inl rows => mret rows
           | inr e => fail_with ("read legacy users: " ++ e)
           end;
    import_rows pepper commit (select_legacy limit rows).

Definition USAGE : string := "smirk-admin — break-glass admin CLI

USAGE:
    smirk-admin <COMMAND> [FLAGS]

COMMANDS:
    setup               --pubkey <64hex>          (first-run: seed the admin + latch)
    reset-setup         --i-understand
    list-keys
    add-key             --pubkey <64hex> [--label <s>]
    revoke-key          --id <uuid>
    replace-key         --old <uuid> --pubkey <64hex> [--revoke-all]
    create-admin-wallet --out <path>              (generate a key + bootstrap a fresh instance)
    mint-invite         [--count <n>] [--label <s>]  (registration invite codes)
    migrate-legacy      --source-url <pg-url> [--commit] [--limit <n>]
                                                 (import v0.2.x user identity into this v0.3 DB,
                                                  joined on seed_fingerprint; dry-run unless --commit)
    doctor
".

(** The command named, once the tool has its secret and its database. *)
Definition dispatch (secret cmd : string) (rest : list string) : C unit :=
  if cmd =? "setup" then setup_cmd secret rest
  else if cmd =? "reset-setup" then reset_setup_cmd secret rest
  else if cmd =? "list-keys" then list_keys
  else if cmd =? "add-key" then add_key secret rest
  else if cmd =? "revoke-key" then revoke_key secret rest
  else if cmd =? "replace-key" then replace_key secret rest
  else if cmd =? "create-admin-wallet" then create_admin_wallet secret rest
  else if cmd =? "mint-invite" then mint_invite_cmd rest
  else if cmd =? "migrate-legacy" then migrate_legacy rest
  else if cmd =? "doctor" then doctor secret
  else if (cmd =? "-h") || (cmd =? "--help") || (cmd =? "help") then println USAGE
  else fail_with ("unknown command " ++ debug_str cmd ++ LF ++ LF ++ USAGE).

Definition run (args : list string) : C unit :=
  match args with
  | [] => println USAGE
  | cmd :: rest =>
      _ ← preflight_env_perms;
      secret ← some_or (env_var "ADMIN_KEY_INTEGRITY_SECRET") "ADMIN_KEY_INTEGRITY_SECRET must be set";
      if (len secret <? 32)%nat then fail_with "ADMIN_KEY_INTEGRITY_SECRET must be at least 32 bytes"
      else
        url ← some_or (env_var "DATABASE_URL") "DATABASE_URL must be set";
        _ ← match connect_error url with
            | Some e => fail_with ("connect database: " ++ e)
            | None => mret tt
            end;
        dispatch secret cmd rest
  end.

(** [main]: the error on the terminal, and the exit status. *)
Definition cli_main (args : list string) (s : Shell * World) : (Shell * World) * exit bool :=
  match run args s with
  | (s', Done _) => (s', Done true)
  | (s', Failed e) => ((eprintln ("error: " ++ e) s').1, Done false)
  | (s', Crashed) => (s', Crashed)
  end.
End run.
