(* ===== verification/CliSafety.v ===== *)
(** What the operator's tool promises: the books it leaves behind whatever interleaves,
    the recovery of a compromised allowlist, and the import of the old instance. *)

From Stdlib Require Import ZArith Lia Ascii String Strings.Byte.
From stdpp Require Import pretty.
From S2P Require Import Prelude RustStr Errors Db Effects TipStatus SocialTips Transactions Pepper AuditChain Demo Config TipApi RelayPolicy Registration Premium Users AuthApi AdminKeys AdminSafety AdminApi AdminApiSafety UsersApi Cli.

Local Open Scope string_scope.

(** * Following a command *)

Lemma c_bind_done {A B} (m : C A) (k : A -> C B) s s' b :
  (m ≫= k) s = (s', Done b) <-> exists s1 a, m s = (s1, Done a) /\ k a s1 = (s', Done b).
Proof. unfold mbind, C_bind. destruct (m s) as [s1 [a|e|]]; naive_solver. Qed.

Lemma db_as_done {A} f (m : M A) sh w s' a :
  db_as f m (sh, w) = (s', Done a) <-> exists w', m w = (w', Ok a) /\ s' = (sh, w').
Proof. unfold db_as. destruct (m w) as [w' [x|e|]]; naive_solver. Qed.

Lemma some_or_done {A} (o : option A) e s s' a :
  some_or o e s = (s', Done a) <-> s' = s /\ o = Some a.
Proof. unfold some_or, mret, C_ret, fail_with. destruct o; naive_solver. Qed.

Lemma validate_pubkey_done raw s s' pk :
  validate_pubkey raw s = (s', Done pk) -> s' = s /\ pk = to_lowercase raw.
Proof. unfold validate_pubkey. destruct (_ && _); [|done]. by intros [= <- <-]. Qed.

(** * What every command keeps *)

Section keeps.
Context (P : Db -> Prop).

(** Under a schedule of steps that keep [P], the command keeps it. *)
Definition c_keeps {A} (m : C A) : Prop := forall sh w,
  sched_ok (keeps P) (w_sched w) -> P (w_db w) ->
  let '((_, w'), _) := m (sh, w) in sched_ok (keeps P) (w_sched w') /\ P (w_db w').

Lemma c_keeps_ret {A} (a : A) : c_keeps (mret a).
Proof. by intros sh w. Qed.
Lemma c_keeps_fail {A} e : c_keeps (fail_with (A := A) e).
Proof. by intros sh w. Qed.
Lemma c_keeps_crash {A} : c_keeps (crash (A := A)).
Proof. by intros sh w. Qed.
Lemma c_keeps_println s : c_keeps (println s).
Proof. intros sh w. by split. Qed.
Lemma c_keeps_eprintln s : c_keeps (eprintln s).
Proof. intros sh w. by split. Qed.
Lemma c_keeps_some_or {A} (o : option A) e : c_keeps (some_or o e).
Proof. destruct o; [apply c_keeps_ret|apply c_keeps_fail]. Qed.

Lemma c_keeps_bind {A B} (m : C A) (k : A -> C B) :
  c_keeps m -> (forall a, c_keeps (k a)) -> c_keeps (m ≫= k).
Proof.
  intros Hm Hk sh w Hs HP. specialize (Hm sh w Hs HP). unfold mbind, C_bind.
  destruct (m (sh, w)) as [[sh1 w1] [a|e|]]; [|done..]. destruct Hm as [Hs1 HP1].
  exact (Hk a sh1 w1 Hs1 HP1).
Qed.

(** A binding of a known value. *)
Lemma c_keeps_known {A B} (a : A) e (k : A -> C B) : c_keeps (k a) -> c_keeps (some_or (Some a) e ≫= k).
Proof. done. Qed.

Lemma c_keeps_outcome_of {A} (m : C A) : c_keeps m -> c_keeps (outcome_of m).
Proof.
  intros Hm sh w Hs HP. specialize (Hm sh w Hs HP). unfold outcome_of.
  by destruct (m (sh, w)) as [[sh1 w1] [a|e|]].
Qed.

Lemma c_keeps_db {A} f (m : M A) Q :
  triple (fun _ => True) (keeps P) P m Q -> c_keeps (db_as f m).
Proof.
  intros Hm sh w Hs HP. specialize (Hm w I Hs HP). unfold db_as.
  destruct (m w) as [w' [a|e|]]; naive_solver.
Qed.

Lemma c_keeps_for_each {A} (f : A -> C unit) xs : (forall x, c_keeps (f x)) -> c_keeps (c_for_each f xs).
Proof.
  intros Hf. induction xs as [|x xs IH]; simpl; [apply c_keeps_ret|].
  apply c_keeps_bind; [apply Hf|done].
Qed.

Lemma c_keeps_incr n : c_keeps (incr n).
Proof. unfold incr. destruct (_ =? _)%Z; [apply c_keeps_crash|apply c_keeps_ret]. Qed.
Lemma c_keeps_prefix8 s : c_keeps (prefix8 s).
Proof. unfold prefix8. destruct (is_char_boundary _ _); [apply c_keeps_ret|apply c_keeps_crash]. Qed.
Lemma c_keeps_pubkey s : c_keeps (validate_pubkey s).
Proof. unfold validate_pubkey. destruct (_ && _); [apply c_keeps_ret|apply c_keeps_fail]. Qed.
Lemma c_keeps_file `{Host} path contents : c_keeps (create_new_file path contents).
Proof.
  intros sh w Hs HP. unfold create_new_file. repeat case_match; by simplify_eq.
Qed.

(** Statements and transactions that keep [P] by themselves. *)
Definition tx_keeps {A} (t : Tx A) : Prop := forall c now d d' a,
  P d -> t c now d = inr (d', a) -> P d'.

Lemma tx_keeps_ret {A} (a : A) : tx_keeps (mret a).
Proof. by intros c now d d' b HP [= <- _]. Qed.
Lemma tx_keeps_fail {A} e : tx_keeps (tx_fail (A := A) e).
Proof. by intros c now d d' b HP. Qed.
Lemma tx_keeps_clock : tx_keeps tx_clock.
Proof. by intros c now d d' b HP [= <- _]. Qed.
Lemma tx_keeps_bind {A B} (t : Tx A) (k : A -> Tx B) :
  tx_keeps t -> (forall a, tx_keeps (k a)) -> tx_keeps (t ≫= k).
Proof.
  intros Ht Hk c now d d' b HP (d1 & a & E1 & E2)%bind_tx_inr.
  eapply Hk; [|exact E2]. by eapply Ht.
Qed.

Lemma triple_tx_keeps `{Ext} {A} (t : Tx A) G :
  tx_keeps t -> triple G (keeps P) P (run_tx t) (fun _ => True).
Proof.
  intros Ht. apply triple_run_tx; [apply keeps_stable|].
  intros c now d d' a HP E. split; [|done]. apply (steps_once _ now). intros _. by eapply Ht.
Qed.

Lemma triple_query_read `{Ext} {A} G (f : Time -> Db -> A) :
  triple G (keeps P) P (query (fun now d => inr (d, f now d))) (fun _ => True).
Proof. apply triple_read; [apply keeps_stable|]. by intros t d d' r _ [= <- _]. Qed.
End keeps.

(** Follow a command through its binds and cases. *)
Ltac c_follow :=
  lazymatch goal with
  | |- c_keeps _ (mret _) => apply c_keeps_ret
  | |- c_keeps _ (fail_with _) => apply c_keeps_fail
  | |- c_keeps _ crash => apply c_keeps_crash
  | |- c_keeps _ (println _) => apply c_keeps_println
  | |- c_keeps _ (eprintln _) => apply c_keeps_eprintln
  | |- c_keeps _ (some_or _ _) => apply c_keeps_some_or
  | |- c_keeps _ (require_flag _ _) => apply c_keeps_some_or
  | |- c_keeps _ (parse_uuid _) => apply c_keeps_some_or
  | |- c_keeps _ (incr _) => apply c_keeps_incr
  | |- c_keeps _ (prefix8 _) => apply c_keeps_prefix8
  | |- c_keeps _ (validate_pubkey _) => apply c_keeps_pubkey
  | |- c_keeps _ (create_new_file _ _) => apply c_keeps_file
  | |- c_keeps _ (outcome_of _) => apply c_keeps_outcome_of; c_follow
  | |- c_keeps _ (c_for_each _ _) => apply c_keeps_for_each; intros ?; c_follow
  | |- c_keeps _ (mbind _ _) => apply c_keeps_bind; [c_follow|intros ?; c_follow]
  | |- c_keeps _ (match ?x with _ => _ end) => destruct x; c_follow
  | |- _ => try solve [eauto with smirk]
  end.

(** * The books *)

Section books.
Context `{Ext} `{Hmac} `{MacJson} {J : AuditJson} `{Bs58} `{Host} (secret : string).

(** The trail verifies and the users are well typed. *)
Definition trail_and_users (d : Db) : Prop :=
  verify_rows secret (admin_audit_logs d) = true /\ users_wf d.

Definition books (d : Db) : Prop := allowlist_wf secret d /\ trail_and_users d.

Lemma append_verifies k c entry rows :
  verify_rows secret rows = true ->
  verify_rows secret (rows ++ [new_audit_row k secret entry c rows]) = true.
Proof.
  intros Hv. unfold verify_rows. apply verify_app. split; [done|].
  apply verify_cons. split; [|done]. by apply link_append.
Qed.

Lemma tx_trail_append k audit : tx_keeps trail_and_users (append_audit k audit secret).
Proof.
  unfold append_audit. apply tx_keeps_bind; [|intros; apply tx_keeps_ret].
  intros c now d d' row [Hv Hu] [= <- _]. split; [by apply append_verifies|].
  by eapply users_wf_eq.
Qed.

(** A statement that writes neither the trail nor the users. *)
Lemma tx_trail_stmt {A} on_err (s : Stmt A) :
  (forall now d d' a, s now d = inr (d', a) ->
     admin_audit_logs d' = admin_audit_logs d /\ users d' = users d) ->
  tx_keeps trail_and_users (tx_stmt on_err s).
Proof.
  intros Hs c now d d' a [Hv Hu] E%tx_stmt_inr. apply Hs in E as [El Eu].
  split; [by rewrite El|]. by eapply users_wf_eq.
Qed.

Lemma tx_trail_insert k input : tx_keeps trail_and_users (insert_admin_key k input secret).
Proof.
  unfold insert_admin_key. apply tx_keeps_bind; [apply tx_keeps_clock|]. intros at_.
  apply tx_trail_stmt. intros now d d' a. unfold sql_insert_key. repeat case_match; try done.
  by intros [= <- _].
Qed.

Lemma tx_trail_read {A} (f : Db -> A) :
  tx_keeps trail_and_users (tx_stmt app_error_from_sqlx (fun _ d => inr (d, f d))).
Proof. apply tx_trail_stmt. by intros now d d' a [= <- _]. Qed.

Lemma tx_trail_store key : tx_keeps trail_and_users (store_key secret key).
Proof. apply tx_trail_stmt. by intros now d d' a [= <- _]. Qed.

Lemma tx_trail_latch row : tx_keeps trail_and_users (set_latch row).
Proof. apply tx_trail_stmt. by intros now d d' a [= <- _]. Qed.

Lemma tx_trail_sessions k : tx_keeps trail_and_users (revoke_sessions_of k).
Proof.
  unfold revoke_sessions_of. apply tx_keeps_bind; [|intros; apply tx_keeps_ret].
  apply tx_trail_stmt. by intros now d d' a [= <- _].
Qed.

Lemma tx_books_from {A} (t : Tx A) :
  tx_keeps trail_and_users t -> tx_keeps (allowlist_wf secret) t -> tx_keeps books t.
Proof.
  intros Ht Ha c now d d' a [Hw Hr] E. split; [by eapply Ha|by eapply Ht].
Qed.

(** ** The transactions of the tool *)

Ltac tx_trail :=
  repeat first
    [ apply tx_keeps_ret | apply tx_keeps_fail | apply tx_keeps_clock | apply tx_trail_append
    | apply tx_trail_insert | apply tx_trail_read | apply tx_trail_store | apply tx_trail_latch
    | apply tx_trail_sessions | apply tx_keeps_bind; [|intros ?]
    | case_match ].

Lemma create_books k a input audit m : tx_keeps books (create_admin_key_tx k a input audit secret m).
Proof.
  apply tx_books_from; [unfold create_admin_key_tx; tx_trail|].
  intros c now d d' o Hwf E. unfold create_admin_key_tx in E.
  apply bind_tx_inr in E as (d1 & n & [-> ->]%live_key_count_inr & E).
  case_hyp E; [by injection E as <- _|].
  apply bind_tx_inr in E as (d2 & key & (Hwf' & _)%insert_admin_key_inr & E); [|done].
  apply bind_tx_inr in E as (d3 & ? & (Ek & _)%append_audit_inr & [= <- _]).
  by apply (wf_same_keys secret _ _ Ek).
Qed.

Lemma revoke_books a k audit keep : tx_keeps books (revoke_admin_key_full_tx a k audit secret keep).
Proof.
  apply tx_books_from; [unfold revoke_admin_key_full_tx; tx_trail|].
  intros c now d d' o Hwf E. apply revoke_full_inr in E as [[-> _]|(x & _ & _ & _ & Hwf' & _)]; done.
Qed.

(** What a rotation that found its key did. *)
Lemma rotate_inr a k old input audit c now d d' o :
  rotate_admin_key_tx a k old input audit secret c now d = inr (d', o) -> allowlist_wf secret d ->
  match o with
  | None => d' = d
  | Some key => exists x, live_key old d = Some x /\ key = new_admin_key k input secret c /\
      allowlist_wf secret d' /\
      admin_keys d' = <[k := key]> (<[old := resealed secret (x <|ak_revoked_at := Some c|>)]> (admin_keys d)) /\
      admin_sessions d' = (fun s => if live_of_key old s then s <|as_revoked_at := Some now|> else s)
                          <$> admin_sessions d
  end.
Proof.
  intros E Hwf. unfold rotate_admin_key_tx in E.
  apply bind_tx_inr in E as (d1 & found & [-> ->]%find_live_key_inr & E).
  destruct (live_key old d) as [x|] eqn:Hx; [|by injection E as <- <-].
  apply bind_tx_inr in E as (d2 & at_ & [= <- <-] & E).
  apply bind_tx_inr in E as (d3 & r & [-> _]%store_key_inr & E).
  apply bind_tx_inr in E as (d4 & ? & (Ek4 & _ & Es4)%revoke_sessions_inr & E).
  apply bind_tx_inr in E as (d5 & key & Hi & E).
  apply bind_tx_inr in E as (d6 & ? & (Ek6 & Es6 & _)%append_audit_inr & [= <- <-]).
  apply live_key_Some in Hx as Hx'. destruct Hx' as [Hk Hl].
  destruct (store_wf secret d old x (x <|ak_revoked_at := Some c|>) Hwf Hk Hl) as [Hwf' _]; [done..|].
  unfold insert_admin_key in Hi. apply bind_tx_inr in Hi as (d7 & ? & [= <- <-] & Hi).
  apply tx_stmt_inr in Hi.
  destruct (insert_key_inr secret _ _ _ _ _ Hi) as (-> & Hwf5 & _ & Ek5 & Es5 & _);
    [done|apply resealed_sealed|by apply (wf_same_keys secret _ _ Ek4)|].
  exists x. split_and!; [done|done| | |].
  - by apply (wf_same_keys secret _ _ Ek6).
  - rewrite Ek6, Ek5, Ek4. unfold put_key. simpl. by rewrite (proj1 (proj1 Hwf _ _ Hk)).
  - by rewrite Es6, Es5, Es4.
Qed.

Lemma rotate_books a k old input audit :
  tx_keeps books (rotate_admin_key_tx a k old input audit secret).
Proof.
  apply tx_books_from; [unfold rotate_admin_key_tx; tx_trail|].
  intros c now d d' o Hwf E. apply rotate_inr in E; [|done].
  destruct o; [by destruct E as (? & _ & _ & ? & _)|by subst].
Qed.

Lemma bootstrap_books k a pubkey : tx_keeps books (bootstrap_admin_tx k a pubkey secret).
Proof.
  apply tx_books_from.
  { unfold bootstrap_admin_tx. tx_trail. apply tx_trail_stmt. intros now d d' x. unfold sql_insert_key.
    repeat case_match; try done. by intros [= <- _]. }
  intros c now d d' o Hwf E. unfold bootstrap_admin_tx in E.
  apply bind_tx_inr in E as (d1 & n & [-> ->]%live_key_count_inr & E). case_hyp E; [done|].
  apply bind_tx_inr in E as (d2 & at_ & [= <- <-] & E).
  apply bind_tx_inr in E as (d3 & key & Hi%tx_stmt_inr & E).
  destruct (insert_key_inr secret _ _ _ _ _ Hi) as (_ & Hwf3 & _); [done|apply resealed_sealed|done|].
  apply bind_tx_inr in E as (d4 & ? & (_ & Ek4)%set_latch_inr & (Ek5 & _)%append_audit_inr).
  apply (wf_same_keys secret _ _ Ek5). by apply (wf_same_keys secret _ _ Ek4).
Qed.

Lemma bootstrapping_books k a input audit m :
  tx_keeps books (bootstrapping_tx k a input audit secret m).
Proof.
  apply tx_books_from; [unfold bootstrapping_tx; tx_trail|].
  intros c now d d' o Hwf E. unfold bootstrapping_tx in E.
  apply bind_tx_inr in E as (d1 & cfg & Hc%tx_stmt_inr & E). injection Hc as <- <-.
  case_hyp E; [done|].
  apply bind_tx_inr in E as (d2 & n & [-> ->]%live_key_count_inr & E).
  case_hyp E; [by injection E as <- _|].
  apply bind_tx_inr in E as (d3 & key & (Hwf' & _)%insert_admin_key_inr & E); [|done].
  apply bind_tx_inr in E as (d4 & at_ & [= <- <-] & E).
  apply bind_tx_inr in E as (d5 & ? & Hl & E).
  apply bind_tx_inr in E as (d6 & ? & (Ek6 & _)%append_audit_inr & [= <- _]).
  apply (wf_same_keys secret _ _ Ek6).
  destruct (bool_decide (setup_state_of secret (server_config d) = Locked)).
  - by injection Hl as <- _.
  - apply set_latch_inr in Hl as [_ Ek5]. by apply (wf_same_keys secret _ _ Ek5).
Qed.

Lemma reset_books : tx_keeps books (reset_setup_tx secret).
Proof.
  apply tx_books_from; [apply tx_trail_latch|].
  intros c now d d' o Hwf E. unfold reset_setup_tx in E. apply (set_latch_inr _ c) in E as [_ Ek].
  by apply (wf_same_keys secret _ _ Ek).
Qed.

(** A statement that leaves the allowlist and the trail alone, and the users well typed. *)
Lemma triple_books_stmt {A} G on_err (s : Stmt A) :
  (forall now d d' a, s now d = inr (d', a) -> admin_keys d' = admin_keys d /\
     admin_audit_logs d' = admin_audit_logs d /\ (users_wf d -> users_wf d')) ->
  triple G (keeps books) books (run_stmt on_err s) (fun _ => True).
Proof.
  intros Hs. apply triple_keeps. intros now d d' r (Hw & Hv & Hu) E.
  apply Hs in E as (Ek & El & Hu'). split; [|done]. split; [by apply (wf_same_keys secret _ _ Ek)|].
  split; [by rewrite El|auto].
Qed.

(** ** The commands *)

Local Abbreviation keeps_books m := (c_keeps books m).

Lemma books_read {A} (f : Time -> Db -> A) g :
  keeps_books (db_as g (query (fun now d => inr (d, f now d)))).
Proof. eapply c_keeps_db, triple_query_read. Qed.

Lemma books_tx {A} (t : Tx A) : tx_keeps books t -> keeps_books (db (run_tx t)).
Proof. intros Ht. eapply c_keeps_db, (triple_tx_keeps _ _ _ Ht). Qed.

Lemma books_list : keeps_books (db list_admin_keys).
Proof. unfold db, list_admin_keys. apply (books_read (fun _ d => merge_sort ak_newer (key_rows d))). Qed.

(** An identifier, then a program of it. *)
Lemma books_uuid {A} g (k : Uuid -> M A) :
  (forall i, keeps_books (db_as g (k i))) -> keeps_books (db_as g (i ← gen_random_uuid; k i)).
Proof.
  intros Hk sh w Hs HP. pose (w1 := w <|w_calls := S (w_calls w)|>).
  exact (Hk (w_rand w (w_calls w)) sh w1 Hs HP).
Qed.

Lemma books_revoke id : keeps_books (db (revoke_by_cli secret id)).
Proof. apply books_uuid. intros a. apply books_tx, revoke_books. Qed.

Lemma books_revoke_others kept keys n : keeps_books (revoke_others secret kept keys n).
Proof.
  revert n. induction keys as [|k keys IH]; intros n; simpl; [apply c_keeps_ret|].
  destruct (_ || _); [done|]. apply c_keeps_bind; [apply books_revoke|].
  intros []; [|done..]. apply c_keeps_bind; [apply c_keeps_incr|done].
Qed.

Lemma books_setup args : keeps_books (setup_cmd secret args).
Proof.
  unfold setup_cmd. c_follow. apply books_uuid. intros k. apply books_uuid. intros b.
  apply books_tx, bootstrap_books.
Qed.

Lemma books_reset args : keeps_books (reset_setup_cmd secret args).
Proof. unfold reset_setup_cmd. c_follow. apply books_tx, reset_books. Qed.

Lemma books_list_keys : keeps_books list_keys.
Proof. unfold list_keys. c_follow. apply books_list. Qed.

Lemma books_add_key args : keeps_books (add_key secret args).
Proof.
  unfold add_key. c_follow. apply books_uuid. intros k. apply books_uuid. intros b.
  apply books_tx, create_books.
Qed.

Lemma books_revoke_key args : keeps_books (revoke_key secret args).
Proof. unfold revoke_key. c_follow. apply books_revoke. Qed.

Lemma books_replace_key args : keeps_books (replace_key secret args).
Proof.
  unfold replace_key. cbv zeta. c_follow.
  - apply books_uuid. intros k. apply books_uuid. intros b. apply books_tx, rotate_books.
  - apply books_list.
  - apply books_revoke_others.
Qed.

Lemma books_wallet args : keeps_books (create_admin_wallet secret args).
Proof.
  unfold create_admin_wallet. c_follow. apply books_uuid. intros k. apply books_uuid. intros b.
  apply books_tx, bootstrapping_books.
Qed.

Lemma books_mint n label : keeps_books (mint_codes n label).
Proof.
  induction n as [|n IH]; simpl; c_follow.
  - apply books_uuid. intros i. by eapply c_keeps_db, (triple_ret _ _ _ _ (fun _ => True)).
  - eapply c_keeps_db, triple_books_stmt. intros now d d' [] E. unfold sql_insert_invite_code in E.
    destruct (invite_codes d !! _); [done|]. injection E as <-. by split_and!.
Qed.

Lemma books_mint_invite args : keeps_books (mint_invite_cmd args).
Proof. unfold mint_invite_cmd. cbv zeta. c_follow. apply books_mint. Qed.

Lemma books_doctor : keeps_books (doctor secret).
Proof.
  unfold doctor, health. c_follow.
  - eapply (books_read (fun _ _ => true)).
  - eapply (books_read (fun _ d => live_count d)).
  - eapply c_keeps_db, triple_bind; [apply (triple_query_read _ _ (fun _ d => admin_audit_logs d))|].
    intros rows _. by apply (triple_ret _ _ _ _ (fun _ => True)).
Qed.

Lemma books_find p g : keeps_books (db_as g (query (find_user p))).
Proof. apply (books_read (fun _ d => head (base.filter (fun u => p u = true) (user_rows d)))). Qed.

Lemma books_create pep n : keeps_books (db (create_user pep n)).
Proof.
  apply books_uuid. intros k. eapply c_keeps_db, triple_books_stmt. intros now d d' u E.
  split; [|split; [|by eapply insert_user_wf]]; unfold sql_insert_user in E; case_match; try done;
    by injection E as <- _.
Qed.

Lemma books_present pep u : keeps_books (identity_present pep u).
Proof. unfold identity_present. c_follow; apply books_find. Qed.

Lemma books_username u : keeps_books (import_username u).
Proof. unfold import_username. c_follow. unfold db, get_user_by_username. eapply books_read. Qed.

Lemma books_import_new pep commit u : keeps_books (import_new pep commit u).
Proof.
  unfold import_new, import_npub, import_create. c_follow;
    first [apply books_present|apply books_username|apply books_create|apply books_find].
Qed.

Lemma books_tally commit u r t : keeps_books (tally_one commit u r t).
Proof. unfold tally_one, legacy_label. c_follow. Qed.

Lemma books_import_all pep commit seen us t : keeps_books (import_all pep commit seen us t).
Proof.
  revert seen t. induction us as [|u us IH]; intros seen t; simpl; [apply c_keeps_ret|].
  unfold import_one. destruct (note_seen seen u) as [seen' fresh].
  apply c_keeps_bind; [|intros r; apply c_keeps_bind; [apply books_tally|intros; apply IH]].
  destruct fresh; [|apply c_keeps_ret]. apply c_keeps_outcome_of, books_import_new.
Qed.

Lemma books_migrate args : keeps_books (migrate_legacy args).
Proof. unfold migrate_legacy, import_rows. cbv zeta. c_follow. apply books_import_all. Qed.

Lemma books_dispatch cmd args : keeps_books (dispatch secret cmd args).
Proof.
  unfold dispatch. repeat (case_match; [|]);
    eauto using books_setup, books_reset, books_list_keys, books_add_key, books_revoke_key,
      books_replace_key, books_wallet, books_mint_invite, books_migrate, books_doctor.
  - apply c_keeps_println.
  - apply c_keeps_fail.
Qed.
End books.

(** C26: the tool keeps the operator's books.  Whatever is typed, and whatever the rest of
    the system does meanwhile that keeps them too, every row of the allowlist still carries
    a code that verifies under the tool's secret, with at most one live row per key, the
    trail of the administration verifies and the users are well typed, when the command is
    over, failed or panicked. *)
Theorem cli_keeps_books `{Ext} `{Hmac} `{MacJson} `{AuditJson} `{Bs58} `{Host} secret args sh w sh' w' r
    (Hsecret : env_var "ADMIN_KEY_INTEGRITY_SECRET" = Some secret)
    (Hsched : sched_ok (keeps (books secret)) (w_sched w)) (Hbooks : books secret (w_db w))
    (Hrun : cli_main args (sh, w) = ((sh', w'), r)) :
  books secret (w_db w').
Proof.
  assert (Hk : c_keeps (books secret) (run args)).
  { unfold run. destruct args as [|cmd rest]; [apply c_keeps_println|].
    rewrite Hsecret. apply c_keeps_bind; [unfold preflight_env_perms; c_follow|intros _].
    apply c_keeps_known. c_follow. apply books_dispatch. }
  specialize (Hk sh w Hsched Hbooks). unfold cli_main in Hrun.
  destruct (run args (sh, w)) as [[sh1 w1] [a|e|]]; simpl in Hrun;
    simplify_eq; by destruct Hk.
Qed.

(** * Recovery *)

Section recovery.
Context `{Ext} `{Hmac} `{MacJson} `{AuditJson} `{Host} (secret : string).

(** No session of the key is live. *)
Definition sessions_dead (k : Uuid) (d : Db) : Prop := forall i s,
  admin_sessions d !! i = Some s -> as_admin_key_id s = k -> is_Some (as_revoked_at s).

(** A step that revokes: the key is not live afterwards, neither are its sessions, and
    nothing comes back to life. *)
Record revoking (k : Uuid) (d d' : Db) : Prop := mkRevoking {
  rv_wf : allowlist_wf secret d';
  rv_gone : live_key k d' = None;
  rv_sessions : is_Some (live_key k d) -> sessions_dead k d';
  rv_others : forall j, j <> k -> live_key j d' = live_key j d;
  rv_dead : forall j, sessions_dead j d -> sessions_dead j d' }.

Lemma live_key_insert d d' k x j :
  admin_keys d' = <[k := x]> (admin_keys d) ->
  live_key j d' = if decide (j = k) then (if is_none (ak_revoked_at x) then Some x else None)
                  else live_key j d.
Proof.
  intros E. unfold live_key. rewrite E. destruct (decide (j = k)) as [->|Hne].
  - by rewrite lookup_insert_eq.
  - by rewrite lookup_insert_ne by done.
Qed.

Lemma sessions_revoked d d' k now j :
  admin_sessions d' = (fun s => if live_of_key k s then s <|as_revoked_at := Some now|> else s)
                      <$> admin_sessions d ->
  (sessions_dead j d -> sessions_dead j d') /\ sessions_dead k d'.
Proof.
  intros E. split; [intros Hd|]; intros i s; rewrite E; intros Hs%lookup_fmap_Some Hk;
    destruct Hs as (s0 & <- & Hs0); unfold live_of_key in *; destruct (_ && _) eqn:El; simpl in *; eauto.
  rewrite Hk, bool_decide_eq_true_2 in El by done. simpl in El.
  destruct (as_revoked_at s0); [eauto|done].
Qed.

Lemma revoke_by_cli_alone id w w' o :
  w_sched w = [] -> allowlist_wf secret (w_db w) -> revoke_by_cli secret id w = (w', Ok o) ->
  w_sched w' = [] /\ revoking id (w_db w) (w_db w').
Proof.
  intros Hq Hwf. unfold revoke_by_cli, revoke_admin_key_full, mbind, M_bind. cbn [gen_random_uuid].
  rewrite run_tx_quiet by done. simpl. destruct (revoke_admin_key_full_tx _ _ _ _ _ _ _ _) as [|[d' x]] eqn:E; [done|].
  intros [= <- <-]. simpl. split; [done|].
  pose proof E as Hr. apply revoke_full_inr in Hr; [|done].
  destruct Hr as [[-> Hno]|(key & Hk & _ & _ & Hwf' & _ & Ek & Es)].
  - assert (Hn : live_key id (w_db w) = None).
    { unfold revoke_admin_key_full_tx in E.
      apply bind_tx_inr in E as (d1 & n & [-> ->]%live_key_count_inr & E). simpl in E.
      apply bind_tx_inr in E as (d2 & found & [-> ->]%find_live_key_inr & E).
      destruct (live_key id (w_db w)) as [key|]; [|done]. exfalso.
      apply bind_tx_inr in E as (d3 & at_ & _ & E). apply bind_tx_inr in E as (d4 & r & _ & E).
      apply bind_tx_inr in E as (d5 & ? & _ & E). apply bind_tx_inr in E as (d6 & ? & _ & [= _ <-]).
      by eapply Hno. }
    constructor; try done. rewrite Hn. by intros [].
  - constructor; [done| | | |].
    + rewrite (live_key_insert _ _ _ _ id Ek), decide_True by done. done.
    + intros _. by apply (sessions_revoked _ _ _ _ id Es).
    + intros j Hj. by rewrite (live_key_insert _ _ _ _ j Ek), decide_False.
    + intros j. by apply (sessions_revoked _ _ _ _ j Es).
Qed.

(** The loop revokes every key of the list that was live when the list was read, but the
    one kept. *)
Lemma revoke_others_alone kept keys n sh w s' m :
  w_sched w = [] -> allowlist_wf secret (w_db w) ->
  revoke_others secret kept keys n (sh, w) = (s', Done m) ->
  w_sched s'.2 = [] /\ allowlist_wf secret (w_db s'.2) /\
  live_key kept (w_db s'.2) = live_key kept (w_db w) /\
  (forall j, live_key j (w_db w) = None -> live_key j (w_db s'.2) = None) /\
  (forall j, sessions_dead j (w_db w) -> sessions_dead j (w_db s'.2)) /\
  (forall key, key ∈ keys -> ak_revoked_at key = None -> ak_id key <> kept ->
     live_key (ak_id key) (w_db s'.2) = None /\
     (is_Some (live_key (ak_id key) (w_db w)) -> sessions_dead (ak_id key) (w_db s'.2))).
Proof.
  revert n sh w. induction keys as [|k keys IH]; intros n sh w Hq Hwf Hrun; simpl in Hrun.
  { injection Hrun as <- <-. split_and!; [done..|]. intros key Hin. by apply elem_of_nil in Hin. }
  destruct (is_some (ak_revoked_at k) || bool_decide (ak_id k = kept)) eqn:Eskip.
  - apply IH in Hrun as (? & ? & ? & ? & ? & Hkeys); [|done..]. split_and!; [done..|].
    intros key [->|Hin]%elem_of_cons Hr Hne; [|by apply Hkeys].
    apply orb_true_iff in Eskip as [E|E]; [by rewrite Hr in E|by apply bool_decide_eq_true in E].
  - apply orb_false_iff in Eskip as [_ Hne%bool_decide_eq_false].
    apply c_bind_done in Hrun as (s1 & out & Hdb & Hrun). apply db_as_done in Hdb as (w1 & Hrev & ->).
    destruct (revoke_by_cli_alone _ _ _ _ Hq Hwf Hrev) as [Hq1 [Hwf1 Hgone Hses Hoth Hdead]].
    assert (Hrest : exists n', revoke_others secret kept keys n' (sh, w1) = (s', Done m)).
    { destruct out; [|by eexists..]. apply c_bind_done in Hrun as (s2 & n' & Hinc & Hrun).
      unfold incr in Hinc. case_hyp Hinc; [done|]. injection Hinc as <- <-. by eexists. }
    destruct Hrest as [n' Hrest]. apply IH in Hrest as (? & ? & Hkept & Hnone & Hd & Hkeys); [|done..].
    split_and!; [done|done|rewrite Hkept; by apply Hoth| | |].
    + intros j Hj. apply Hnone. destruct (decide (j = ak_id k)) as [->|]; [done|by rewrite Hoth].
    + auto.
    + intros key [->|Hin]%elem_of_cons Hr Hk.
      * split; [by apply Hnone|]. intros Hs. by apply Hd, Hses.
      * split; [by apply Hkeys|]. intros Hs.
        destruct (decide (ak_id key = ak_id k)) as [E|Hdiff].
        -- rewrite E in *. by apply Hd, Hses.
        -- apply Hkeys; [done..|]. by rewrite Hoth.
Qed.
End recovery.

Lemma println_done line s s' u : println line s = (s', Done u) -> s'.2 = s.2.
Proof. destruct s as [sh w]. by intros [= <- _]. Qed.

(** A [--revoke-all] that succeeded, alone: the rotation, then the loop over the keys that
    were there. *)
Lemma replace_all_alone `{Ext} `{Hmac} `{MacJson} `{AuditJson} `{Host} secret args sh w s' :
  w_sched w = [] -> has_flag args "--revoke-all" = true ->
  replace_key secret args (sh, w) = (s', Done tt) ->
  exists raw old key d1 n sh1 w1 s2,
    flag args "--pubkey" = Some raw /\
    rotate_admin_key_tx (w_rand w (S (w_calls w))) (w_rand w (w_calls w)) old
      (cli_key (to_lowercase raw) (flag args "--label"))
      (cli_audit "admin_key_rotated" (Some (uuid_to_string old))) secret
      (w_now w + w_skew w)%Z (w_now w) (w_db w) = inr (d1, Some key) /\
    w_sched w1 = [] /\ w_db w1 = d1 /\
    revoke_others secret (ak_id key) (merge_sort ak_newer (key_rows d1)) 0 (sh1, w1) = (s2, Done n) /\
    w_db s'.2 = w_db s2.2.
Proof.
  intros Hq Hall Hrun. unfold replace_key in Hrun. cbv zeta in Hrun.
  apply c_bind_done in Hrun as (s1 & raw_old & [-> _]%some_or_done & Hrun).
  apply c_bind_done in Hrun as (s2 & old & [-> _]%some_or_done & Hrun).
  apply c_bind_done in Hrun as (s3 & raw & [-> Hraw]%some_or_done & Hrun).
  apply c_bind_done in Hrun as (s4 & pubkey & [-> ->]%validate_pubkey_done & Hrun).
  apply c_bind_done in Hrun as (s5 & found & Hdb & Hrun).
  apply db_as_done in Hdb as (w1 & Hrot & ->).
  apply c_bind_done in Hrun as (s6 & key & [-> ->]%some_or_done & Hrun).
  apply c_bind_done in Hrun as (s7 & [] & Hp1%println_done & Hrun). simpl in Hp1.
  rewrite Hall in Hrun. apply c_bind_done in Hrun as (s8 & [] & Hloop & Hp2%println_done).
  apply c_bind_done in Hloop as (s9 & keys & Hlist & Hloop). destruct s7 as [sh7 w7]. simpl in Hp1. subst w7.
  apply db_as_done in Hlist as (w2 & Hlist & ->).
  apply c_bind_done in Hloop as (s10 & n & Hothers & Hp3%println_done). rewrite Hp2, Hp3.
  revert Hrot. unfold rotate_admin_key, mbind, M_bind. cbn [gen_random_uuid].
  rewrite run_tx_quiet by done. simpl.
  destruct (rotate_admin_key_tx _ _ _ _ _ _ _ _ _) as [|[d1 o]] eqn:E; [done|]. intros [= <- ->].
  revert Hlist. unfold list_admin_keys, query. rewrite run_stmt_quiet by done. simpl.
  intros [= <- <-]. do 8 eexists. split_and!; [exact Hraw|exact E| | |exact Hothers|done]; done.
Qed.

(** C25: after [replace-key --revoke-all] the one live key is the new one.  When the command
    succeeds, run alone, the allowlist has exactly one live row: that of the key given, under
    a code that verifies, waiting for its holder's first login; and no session of a key that
    was live before it is left. *)
Theorem recovery_leaves_one_key `{Ext} `{Hmac} `{MacJson} `{AuditJson} `{Host} secret args sh w s'
    (Hq : w_sched w = []) (Hwf : allowlist_wf secret (w_db w))
    (Hall : has_flag args "--revoke-all" = true)
    (Hrun : replace_key secret args (sh, w) = (s', Done tt)) :
  exists key, live_key (ak_id key) (w_db s'.2) = Some key /\
    (forall k x, admin_keys (w_db s'.2) !! k = Some x -> ak_revoked_at x = None -> x = key) /\
    to_lowercase <$> flag args "--pubkey" = Some (ak_pubkey key) /\
    sealed secret key = true /\ ak_activated_at key = None /\
    (forall i s, admin_sessions (w_db s'.2) !! i = Some s ->
       as_admin_key_id s <> ak_id key -> is_Some (live_key (as_admin_key_id s) (w_db w)) ->
       is_Some (as_revoked_at s)).
Proof.
  apply replace_all_alone in Hrun
    as (raw & old & key & d1 & n & sh1 & w1 & s2 & Hraw & E & Hq1 & <- & Hothers & ->); [|done..].
  apply rotate_inr in E as (x & Hold & Hkey & Hwf1 & Ek & Es); [|done].
  set (k := w_rand w (w_calls w)) in *. set (d1 := w_db w1) in *.
  assert (Hid : ak_id key = k) by (by rewrite Hkey).
  apply (revoke_others_alone secret) in Hothers as (_ & _ & Hkept & Hnone & Hdead & Hkeys); [|done..].
  fold d1 in Hkept, Hnone, Hdead, Hkeys. rewrite Hid in *.
  assert (Hlive1 : live_key k d1 = Some key).
  { unfold live_key. rewrite Ek, lookup_insert_eq. simpl. by rewrite Hkey. }
  assert (Hrow : forall j y, live_key j d1 = Some y -> j <> k ->
    live_key j (w_db s2.2) = None /\ sessions_dead j (w_db s2.2)).
  { intros j y Hj Hne. pose proof Hj as [Hjk Hjl]%live_key_Some.
    destruct (proj1 Hwf1 j y Hjk) as [Hyj _].
    destruct (Hkeys y) as [Hg Hs]; [|unfold is_live in Hjl; by destruct (ak_revoked_at y)|congruence|].
    - rewrite merge_sort_Permutation. apply list_elem_of_fmap. exists (j, y).
      by rewrite elem_of_map_to_list.
    - rewrite Hyj in *. split; [done|]. apply Hs. by rewrite Hj. }
  exists key. rewrite Hid. split_and!; [by rewrite Hkept| | | |by rewrite Hkey|].
  - intros j y Hj Hr. assert (Hl : live_key j (w_db s2.2) = Some y)
      by (apply live_key_Some; unfold is_live; by rewrite Hr).
    destruct (decide (j = k)) as [->|Hne]; [congruence|].
    destruct (live_key j d1) as [z|] eqn:Ej; [|by rewrite Hnone in Hl].
    destruct (Hrow j z Ej Hne) as [Hg _]. congruence.
  - rewrite Hraw, Hkey. done.
  - rewrite Hkey. apply resealed_sealed.
  - intros i s Hs Hne Hwas. destruct (decide (as_admin_key_id s = old)) as [Eo|Hno].
    + eapply (Hdead old); [|exact Hs|done]. by apply (sessions_revoked (w_db w) d1 old (w_now w) old).
    + destruct Hwas as [y Hy]. eapply (Hrow (as_admin_key_id s) y); [|done|exact Hs|done].
      unfold live_key in *. rewrite Ek, lookup_insert_ne, lookup_insert_ne by congruence. done.
Qed.

(** * A new wallet *)

(** The loop over the draws ends, on a valid key. *)
Lemma first_key_found {Ho : Host} {L : HostLaws Ho} :
  exists seed pub, first_key valid_draw 0 = Some (seed, pub) /\ x_only_key seed = Some pub.
Proof.
  assert (Hgo : forall n i, is_Some (x_only_key (draw_seed (i + n))) ->
    exists seed pub, first_key n i = Some (seed, pub) /\ x_only_key seed = Some pub).
  { induction n as [|n IH]; intros i Hs; simpl; destruct (x_only_key (draw_seed i)) as [pub|] eqn:E; eauto.
    - rewrite Nat.add_0_r, E in Hs. by destruct Hs.
    - apply IH. by rewrite Nat.add_succ_comm. }
  apply (Hgo valid_draw 0), some_draw_valid.
Qed.

(** A file that is there is left as it is, and no key is registered for it. *)
Lemma wallet_never_clobbers `{Ext} `{Hmac} `{MacJson} `{AuditJson} `{Host} secret args sh w path old :
  flag args "--out" = Some path -> sh_files sh !! path = Some old ->
  is_Some (first_key valid_draw 0) ->
  create_admin_wallet secret args (sh, w) =
    ((sh, w), Failed ("write secret to " ++ path ++ ": File exists (os error 17)")).
Proof.
  intros Hf Hold [[seed pub] Hk]. unfold create_admin_wallet, require_flag, mbind, C_bind.
  rewrite Hf. simpl. rewrite Hk. unfold outcome_of, create_new_file. by rewrite Hold.
Qed.

(** * Concrete runs *)

Definition demo_tool_secret : string := "0123456789abcdef0123456789abcdef".

Definition demo_legacy (k : Uuid) (name : option string) (pkh : string) (npub fp : option string)
  : LegacyRow := mkLegacyRow k (Z.of_N k) name (Some pkh) npub fp None None None.

#[export] Instance demo_host : Host | 1000 := {
  env_file_mode := Some 384%N;
  env_var _ := Some demo_tool_secret;
  connect_error _ := None;
  draw_seed n := [byte_of_ascii (ascii_of_nat n)];
  x_only_key s := match s with [x00] => None | _ => Some s end;
  valid_draw := 1;
  open_error _ := None;
  write_error _ := None;
  legacy_users url :=
    if url =? "pg://old" then inl
      [ demo_legacy 3 (Some "admin") "p3" (Some "np1") (Some "f3");
        demo_legacy 1 (Some " Bob ") "p1" None (Some "f2");
        demo_legacy 2 None "p2" None (Some "f2");
        demo_legacy 4 (Some "bob") "p4" None None ]
    else if url =? "pg://rotated" then inl
      [ demo_legacy 1 None "q1" None (Some "g1"); demo_legacy 2 None "q2" None (Some "g1");
        demo_legacy 3 None "q2" None (Some "g2") ]
    else inr "no such database" }.

#[export] Instance demo_host_laws : HostLaws demo_host.
Proof. split. by eexists. Qed.

#[export] Instance demo_bs58 : Bs58 | 1000 := { bs58_encode := string_of_list_byte }.

Definition demo_shell : Shell := mkShell [] [] ∅.
Definition demo_pk : string := "AAAAAAAAAAAAAAAAAAAAAAAAAAAAAAAAaaaaaaaaaaaaaaaaaaaaaaaaaaaaaaaa".

Definition demo_setup : (Shell * World) * exit bool :=
  cli_main ["setup"; "--pubkey"; demo_pk] (demo_shell, quiet_world empty_db 0).

Lemma demo_empty_books : books demo_tool_secret empty_db.
Proof. by split; [split|]. Qed.

Lemma cli_keeps_books_witness :
  demo_setup.2 = Done true /\ live_count (w_db demo_setup.1.2) = 1%Z /\
  books demo_tool_secret (w_db demo_setup.1.2).
Proof.
  split; [by vm_compute|]. split; [by vm_compute|].
  destruct demo_setup as [[sh w] r] eqn:E.
  exact (cli_keeps_books demo_tool_secret _ demo_shell (quiet_world empty_db 0) sh w r eq_refl
    (sched_ok_nil _) demo_empty_books E).
Defined.

Definition demo_replace_args : list string :=
  ["--old"; uuid_to_string 1; "--pubkey"; demo_pk; "--revoke-all"].
Definition demo_replaced : (Shell * World) * exit unit :=
  replace_key "s" demo_replace_args (demo_shell, quiet_world demo_admins 0).

Lemma recovery_leaves_one_key_witness :
  live_count (w_db demo_replaced.1.2) = 1%Z /\
  exists key, ak_pubkey key = to_lowercase demo_pk /\ live_key (ak_id key) (w_db demo_replaced.1.2) = Some key /\
    forall k x, admin_keys (w_db demo_replaced.1.2) !! k = Some x -> ak_revoked_at x = None -> x = key.
Proof.
  split; [by vm_compute|].
  assert (Hd : match demo_replaced.2 with Done tt => true | _ => false end = true) by (by vm_compute).
  destruct demo_replaced as [s' [[]|e|]] eqn:E; [|discriminate Hd..].
  destruct (recovery_leaves_one_key "s" demo_replace_args demo_shell (quiet_world demo_admins 0) s'
    eq_refl demo_admins_wf eq_refl E) as (key & Hlive & Hone & Hpk & _).
  exists key. split_and!; [|exact Hlive|exact Hone].
  assert (Hf : to_lowercase <$> flag demo_replace_args "--pubkey" = Some (to_lowercase demo_pk)) by reflexivity.
  rewrite Hf in Hpk. by injection Hpk.
Defined.

(** Minting invites, and reopening the set-up, change the tables and leave no trace in the
    trail. *)
Definition demo_minted : (Shell * World) * exit bool :=
  cli_main ["mint-invite"; "--count"; "2"] demo_setup.1.
Definition demo_reopened : (Shell * World) * exit bool :=
  cli_main ["reset-setup"; "--i-understand"] demo_setup.1.

Example unaudited_mutations :
  length (admin_audit_logs (w_db demo_setup.1.2)) = 1 /\
  length (admin_audit_logs (w_db demo_minted.1.2)) = 1 /\ size (invite_codes (w_db demo_minted.1.2)) = 2 /\
  length (admin_audit_logs (w_db demo_reopened.1.2)) = 1 /\
  setup demo_tool_secret (w_db demo_setup.1.2) = Locked /\
  setup demo_tool_secret (w_db demo_reopened.1.2) = Uninitialized.
Proof. by vm_compute. Qed.

(** The secret is written before the key is registered: if the tables then fail, the file
    stays, no key has it, and the command refuses the path from then on. *)
Definition demo_down : World :=
  mkWorld empty_db 0 0 [mkSlot (fun _ d => d) 0 (FailBefore (PgOther "down"))] 0 (fun n => N.of_nat (100 + n)) [].
Definition demo_orphan : (Shell * World) * exit bool :=
  cli_main ["create-admin-wallet"; "--out"; "key"] (demo_shell, demo_down).

Example orphaned_secret :
  demo_orphan.2 = Done false /\ is_some (sh_files demo_orphan.1.1 !! "key") = true /\
  live_count (w_db demo_orphan.1.2) = 0%Z /\
  (cli_main ["create-admin-wallet"; "--out"; "key"] demo_orphan.1).2 = Done false.
Proof. by vm_compute. Qed.
