(* ===== verification/MigrationSafety.v ===== *)
(** The import of the old instance's users, by the operator's tool: it only adds, it can be
    run again, and a dry run writes nothing. *)

From Stdlib Require Import ZArith Lia Ascii String Strings.Byte.
From stdpp Require Import pretty.
From S2P Require Import Prelude RustStr Errors Db Effects TipStatus SocialTips Transactions Pepper AuditChain Demo Config TipApi RelayPolicy Registration Premium Users AuthApi AdminKeys AdminSafety UsersApi Cli CliSafety.

Local Open Scope string_scope.

(** * Alone *)

Lemma query_alone `{Ext} {A} (f : Time -> Db -> A) w :
  w_sched w = [] -> query (fun now d => inr (d, f now d)) w = (w, Ok (f (w_now w) (w_db w))).
Proof. intros Hq. unfold query. rewrite run_stmt_quiet by done. by destruct w. Qed.

Lemma head_filter_some {A} (p : A -> bool) l :
  is_some (head (base.filter (fun x => p x = true) l)) = existsb p l.
Proof.
  induction l as [|x l IH]; [done|]. rewrite filter_cons. simpl.
  by destruct (p x) eqn:E; [rewrite decide_True by done|rewrite decide_False by done].
Qed.

Lemma head_username_some name (l : list (Uuid * User)) :
  is_some (snd <$> head (base.filter (fun kv => u_username kv.2 = Some name) l))
  = existsb (fun u => sql_eq (u_username u) name) (snd <$> l).
Proof.
  induction l as [|[k x] l IH]; [done|]. rewrite filter_cons. cbn [snd fmap list_fmap existsb].
  unfold sql_eq at 1. destruct (decide (u_username x = Some name)) as [E|E]; simpl.
  - rewrite E. by rewrite bool_decide_eq_true_2.
  - destruct (u_username x) as [v|]; [|exact IH].
    rewrite bool_decide_eq_false_2; [exact IH|congruence].
Qed.

Section migration.
Context `{Ext} `{Hmac} `{Host} (pep : string).

(** The identity of the row is on the target: its key hash, or its fingerprint. *)
Definition held (d : Db) (u : LegacyUser) : bool :=
  existsb (fun x => sql_eq (u_pubkey_hash x) (pepper pep "pubkey_hash" (lu_pubkey_hash u))) (user_rows d)
  || match lu_seed_fingerprint u with
     | Some fp => existsb (fun x => sql_eq (u_seed_fingerprint x) (pepper pep "seed_fingerprint" fp)) (user_rows d)
     | None => false
     end.

Lemma identity_present_alone u sh w :
  w_sched w = [] -> identity_present pep u (sh, w) = ((sh, w), Done (held (w_db w) u)).
Proof.
  intros Hq. unfold identity_present, db, db_as, get_user_by_pubkey_hash, get_user_by_seed_fingerprint,
    sql_get_user_by_pubkey_hash, sql_get_user_by_seed_fingerprint, find_user, held, mbind, C_bind.
  rewrite query_alone, head_filter_some by done. destruct (existsb _ _); [done|]. simpl.
  destruct (lu_seed_fingerprint u) as [fp|]; [|done].
  by rewrite query_alone, head_filter_some.
Qed.

(** What the import of a handle and of a Nostr key decide, on the database [d]. *)
Definition name_ok (d : Db) (u : LegacyUser) (o : option string) : Prop :=
  o = None \/ exists name, o = Some name /\ normalized (lu_username u) = Some name /\
    validate_handle name = Ok tt /\ taken d u_username (Some name) = false.
Definition npub_ok (d : Db) (u : LegacyUser) (o : option string) : Prop :=
  o = None \/ exists npub, o = Some npub /\ normalized (lu_nostr_pubkey u) = Some npub /\
    taken d u_nostr_pubkey (Some npub) = false.

Lemma import_username_alone u sh w :
  w_sched w = [] -> exists sh' o b, import_username u (sh, w) = ((sh', w), Done (o, b)) /\
    name_ok (w_db w) u o.
Proof.
  intros Hq. unfold import_username. destruct (normalized (lu_username u)) as [name|] eqn:En.
  2: { do 3 eexists. split; [reflexivity|by left]. }
  destruct (validate_handle name) as [[]|e|] eqn:Ev; simpl.
  - unfold db, db_as, get_user_by_username, sql_get_user_by_username, mbind, C_bind.
    rewrite query_alone by done.
    rewrite (head_username_some name). fold (user_rows (w_db w)).
    destruct (existsb _ (user_rows (w_db w))) eqn:Et; do 3 eexists; (split; [reflexivity|]); [by left|].
    right. by exists name.
  - do 3 eexists. split; [reflexivity|by left].
  - do 3 eexists. split; [reflexivity|by left].
Qed.

Lemma import_npub_alone u sh w s' r :
  w_sched w = [] -> import_npub u (sh, w) = (s', r) ->
  s'.2 = w /\ match r with
              | Done (o, _) => npub_ok (w_db w) u o
              | Failed _ => False
              | Crashed => True
              end.
Proof.
  intros Hq. unfold import_npub. destruct (normalized (lu_nostr_pubkey u)) as [npub|] eqn:En.
  2: { intros [= <- <-]. split; [done|by left]. }
  unfold db, db_as, find_user_by_nostr_pubkey, sql_find_user_by_nostr_pubkey, find_user, mbind, C_bind.
  rewrite query_alone, head_filter_some by done. fold (taken (w_db w) u_nostr_pubkey (Some npub)).
  destruct (existsb _ _) eqn:Et.
  - unfold prefix8. destruct (is_char_boundary _ _); intros [= <- <-]; (split; [done|]); [by left|done].
  - intros [= <- <-]. split; [done|]. right. exists npub. split_and!; try done.
Qed.

(** ** What an import adds *)

(** The row that [u] is imported as. *)
Definition imported_as (now : Time) (u : LegacyUser) (k : Uuid) (x : User) : Prop :=
  exists name npub, x = new_user_row k (peppered pep (new_user u name npub)) now /\
    (name = None \/ exists n, name = Some n /\ normalized (lu_username u) = Some n /\
       validate_handle n = Ok tt) /\
    (npub = None \/ npub = normalized (lu_nostr_pubkey u)).

(** The identifiers still to be drawn are new. *)
Definition fresh_ids (w : World) : Prop :=
  (forall n, w_calls w <= n -> users (w_db w) !! w_rand w n = None) /\
  (forall n m, w_rand w n = w_rand w m -> n = m).

(** From [w] to [w'] only imports of the rows [us] happened, alone. *)
Record extends (us : list LegacyUser) (w w' : World) : Prop := mkExtends {
  ex_sched : w_sched w' = [];
  ex_now : w_now w' = w_now w;
  ex_users : users (w_db w) ⊆ users (w_db w');
  ex_rest : w_db w' = (w_db w) <|users := users (w_db w')|>;
  ex_fresh : fresh_ids w';
  ex_rows : forall k x, users (w_db w') !! k = Some x ->
    users (w_db w) !! k = Some x \/ exists u, u ∈ us /\ imported_as (w_now w) u k x }.

Lemma extends_refl us w : w_sched w = [] -> fresh_ids w -> extends us w w.
Proof. intros Hq Hf. constructor; try done; [by destruct (w_db w)|auto]. Qed.

Lemma extends_trans us us' w1 w2 w3 :
  extends us w1 w2 -> extends us' w2 w3 -> extends (us ++ us') w1 w3.
Proof.
  intros [Q1 N1 U1 D1 F1 R1] [Q2 N2 U2 D2 F2 R2]. constructor; [done|congruence|by etrans| |done|].
  - rewrite D2, D1. by destruct (w_db w1).
  - intros k x Hx. apply R2 in Hx as [Hx|(u & Hu & Hi)].
    + apply R1 in Hx as [Hx|(u & Hu & Hi)]; [by left|]. right. exists u. rewrite elem_of_app. eauto.
    + right. exists u. rewrite elem_of_app, <- N1. eauto.
Qed.

Lemma held_mono d d' u : users d ⊆ users d' -> held d u = true -> held d' u = true.
Proof.
  intros Hsub.
  assert (Hmono : forall p, existsb p (user_rows d) = true -> existsb p (user_rows d') = true).
  { intros p (x & Hx%list_elem_of_In & Hp)%existsb_exists. apply existsb_exists. exists x.
    split; [|done]. apply list_elem_of_In. apply elem_of_user_rows in Hx as [k Hk].
    apply elem_of_user_rows. exists k. by eapply lookup_weaken. }
  unfold held. rewrite !orb_true_iff. intros [E|E]; [left; by apply Hmono|right].
  destruct (lu_seed_fingerprint u); [by apply Hmono|done].
Qed.

Lemma not_held_free d u :
  held d u = false ->
  taken d u_pubkey_hash (pepper pep "pubkey_hash" <$> Some (lu_pubkey_hash u)) = false /\
  taken d u_seed_fingerprint (pepper pep "seed_fingerprint" <$> lu_seed_fingerprint u) = false.
Proof.
  unfold held. intros [E1 E2]%orb_false_iff. split; [exact E1|].
  destruct (lu_seed_fingerprint u); [exact E2|done].
Qed.

(** The creation of a row that is not there, with a free handle and key, succeeds. *)
Lemma create_alone u name npub w :
  w_sched w = [] -> fresh_ids w -> held (w_db w) u = false ->
  name_ok (w_db w) u name -> npub_ok (w_db w) u npub ->
  exists w' x, create_user pep (new_user u name npub) w = (w', Ok x) /\ extends [u] w w' /\
    held (w_db w') u = true.
Proof.
  intros Hq Hfresh Hnh Hn Hp. pose proof Hfresh as [Hf Hinj].
  destruct (not_held_free _ _ Hnh) as [Hpk Hfp].
  set (k := w_rand w (w_calls w)). set (n := peppered pep (new_user u name npub)).
  assert (Hnone : taken (w_db w) u_username name = false)
    by (destruct Hn as [->|(? & -> & _ & _ & ?)]; done).
  assert (Hnp : taken (w_db w) u_nostr_pubkey npub = false)
    by (destruct Hp as [->|(? & -> & _ & ?)]; done).
  assert (Hc : user_conflict (w_db w) k n = None).
  { assert (Hk : users (w_db w) !! k = None) by (by apply Hf).
    unfold user_conflict. rewrite Hk.
    change (nu_username n) with name. change (nu_nostr_pubkey n) with npub.
    change (nu_pubkey_hash n) with (pepper pep "pubkey_hash" <$> Some (lu_pubkey_hash u)).
    change (nu_seed_fingerprint n) with (pepper pep "seed_fingerprint" <$> lu_seed_fingerprint u).
    by rewrite Hnone, Hpk, Hnp, Hfp. }
  set (x := new_user_row k n (w_now w)).
  set (d' := (w_db w) <|users := <[k := x]> (users (w_db w))|>).
  exists (w <|w_calls := S (w_calls w)|> <|w_db := d'|>), x. split_and!.
  - unfold create_user, mbind, M_bind. cbn [gen_random_uuid]. unfold query.
    rewrite run_stmt_quiet by done. simpl. unfold sql_insert_user. fold k n.
    by rewrite Hc.
  - constructor; simpl; try done.
    + apply insert_subseteq, Hf. done.
    + split; simpl; [|done]. intros m Hm. rewrite lookup_insert_ne; [apply Hf; lia|].
      intros E. apply Hinj in E. lia.
    + intros j y [[<- <-]|[_ Hj]]%lookup_insert_Some; [right|by left].
      exists u. split; [set_solver|]. exists name, npub. split_and!; [done| |].
      * destruct Hn as [->|(? & -> & ? & ? & _)]; [by left|right]. eauto.
      * destruct Hp as [->|(? & -> & -> & _)]; [by left|by right].
  - unfold held. apply orb_true_iff. left. apply existsb_exists. exists x. split.
    + apply list_elem_of_In, elem_of_user_rows. exists k. simpl. by rewrite lookup_insert_eq.
    + unfold sql_eq. simpl. by apply bool_decide_eq_true_2.
Qed.

Lemma import_new_alone u sh w s' r :
  w_sched w = [] -> fresh_ids w -> import_new pep true u (sh, w) = (s', r) ->
  extends [u] w s'.2 /\ match r with
    | Done _ => held (w_db s'.2) u = true
    | Failed _ => False
    | Crashed => True
    end.
Proof.
  intros Hq Hf. unfold import_new. unfold mbind at 1, C_bind at 1.
  rewrite identity_present_alone by done. destruct (held (w_db w) u) eqn:Hh.
  { intros [= <- <-]. split; [by apply extends_refl|done]. }
  destruct (import_username_alone u sh w Hq) as (sh1 & o & b & Hu & Hn).
  unfold mbind at 1, C_bind at 1. rewrite Hu. unfold mbind at 1, C_bind at 1.
  destruct (import_npub u (sh1, w)) as [[sh2 w2] q] eqn:Enp.
  apply import_npub_alone in Enp as [Ew Hq2]; [|done]. simpl in Ew. subst w2.
  destruct q as [[o2 b2]|e|]; [|done|].
  2: { intros [= <- <-]. split; [by apply extends_refl|done]. }
  destruct (create_alone u o o2 w Hq Hf Hh Hn Hq2) as (w' & x & Hcr & Hext & Hheld).
  simpl. unfold import_create, outcome_of, db, db_as. unfold mbind, C_bind. rewrite Hcr.
  by intros [= <- <-].
Qed.

(** ** The loop *)

(** The rows that the run has not met before, by key hash or fingerprint. *)
Fixpoint fresh_rows (seen : gset string) (us : list LegacyUser) : list LegacyUser :=
  match us with
  | [] => []
  | u :: rest =>
      let '(seen', fresh) := note_seen seen u in
      if fresh then u :: fresh_rows seen' rest else fresh_rows seen' rest
  end.

Lemma incr_done n s s' m : incr n s = (s', Done m) -> s' = s /\ m = (n + 1)%Z.
Proof. unfold incr. destruct (_ =? _)%Z; [done|]. by intros [= <- <-]. Qed.

Lemma legacy_label_done u s s' l : legacy_label u s = (s', Done l) -> s' = s.
Proof.
  unfold legacy_label, prefix8. destruct (normalized _); [by intros [= <- _]|].
  intros (s1 & p & Hp & Hr)%c_bind_done. destruct (is_char_boundary _ _); [|done].
  injection Hp as <- _. by injection Hr as <- _.
Qed.

Lemma tally_one_done commit u r t s s' t' :
  tally_one commit u r t s = (s', Done t') ->
  s'.2 = s.2 /\ (forall o, r = inl o -> ty_errors t' = ty_errors t).
Proof.
  destruct r as [[ud nd|]|e]; simpl.
  - intros (s1 & n & [-> _]%incr_done & Hr)%c_bind_done.
    apply c_bind_done in Hr as (s2 & nu & Hu & Hr).
    assert (s2 = s) as -> by (destruct ud; [by apply incr_done in Hu as []|by injection Hu]).
    apply c_bind_done in Hr as (s3 & nn & Hn & Hr).
    assert (s3 = s) as -> by (destruct nd; [by apply incr_done in Hn as []|by injection Hn]).
    apply c_bind_done in Hr as (s4 & l & ->%legacy_label_done & Hr).
    apply c_bind_done in Hr as (s5 & [] & Hp%println_done & [= <- <-]). by split.
  - intros (s1 & n & [-> _]%incr_done & [= <- <-])%c_bind_done. by split.
  - intros (s1 & n & [-> _]%incr_done & Hr)%c_bind_done.
    apply c_bind_done in Hr as (s4 & l & ->%legacy_label_done & Hr).
    apply c_bind_done in Hr as (s5 & [] & Hp & [= <- <-]).
    split; [|done]. destruct s. by injection Hp as <-.
Qed.

Lemma import_all_adds us seen t sh w s' t' :
  w_sched w = [] -> fresh_ids w -> import_all pep true seen us t (sh, w) = (s', Done t') ->
  extends us w s'.2 /\ ty_errors t' = ty_errors t /\
  Forall (fun u => held (w_db s'.2) u = true) (fresh_rows seen us).
Proof.
  revert seen t sh w. induction us as [|u us IH]; intros seen t sh w Hq Hf Hrun; simpl in Hrun.
  { injection Hrun as <- <-. split; [by apply extends_refl|]. by split. }
  unfold import_one in Hrun. simpl. destruct (note_seen seen u) as [seen' fresh].
  apply c_bind_done in Hrun as (s1 & r & H1' & Hrun). apply c_bind_done in Hrun as (s2 & t2 & Ht & Hrun).
  assert (Hone : extends [u] w s1.2 /\ (exists o, r = inl o) /\
            (fresh = true -> held (w_db s1.2) u = true)).
  { destruct fresh; [|injection H1' as <- <-; split; [by apply extends_refl|split; [eauto|done]]].
    unfold outcome_of in H1'. destruct (import_new pep true u (sh, w)) as [s3 [o|e|]] eqn:E;
      apply import_new_alone in E as [Hext Ho]; try done; injection H1' as <- <-; eauto. }
  destruct Hone as (Hext & [o ->] & Hheld). apply tally_one_done in Ht as [Hw Herr].
  destruct s2 as [sh2 w2]. simpl in Hw. subst w2.
  apply IH in Hrun as (Hext2 & Herr2 & Hall); [|apply Hext|apply Hext].
  split; [exact (extends_trans _ _ _ _ _ Hext Hext2)|]. split; [by rewrite Herr2, (Herr o)|].
  destruct fresh; [|done]. constructor; [|done].
  eapply held_mono; [apply Hext2|auto].
Qed.

(** A run over rows that are all there, or repeated, does nothing. *)
Lemma import_all_again commit us seen t sh w :
  w_sched w = [] -> Forall (fun u => held (w_db w) u = true) (fresh_rows seen us) ->
  (0 <= ty_skipped t)%Z -> (ty_skipped t + Z.of_nat (length us) < 2 ^ 32)%Z ->
  import_all pep commit seen us t (sh, w) =
  ((sh, w), Done (mkTally (ty_created t) (ty_skipped t + Z.of_nat (length us))
     (ty_username_dropped t) (ty_nostr_dropped t) (ty_errors t))).
Proof.
  intros Hq. revert seen t. induction us as [|u us IH]; intros seen t Hall H0' Hlt; simpl.
  { rewrite Z.add_0_r. by destruct t. }
  cbn [length fresh_rows] in Hall, Hlt. rewrite Nat2Z.inj_succ in Hlt. unfold import_one. destruct (note_seen seen u) as [seen' fresh].
  assert (Hone : (if fresh then outcome_of (import_new pep commit u) else mret (inl Skipped)) (sh, w)
                 = ((sh, w), Done (inl Skipped))).
  { destruct fresh; [|done]. inversion Hall as [|? ? Hu _]; subst. unfold outcome_of, import_new.
    unfold mbind, C_bind. rewrite identity_present_alone, Hu by done. done. }
  assert (Hrest : Forall (fun u => held (w_db w) u = true) (fresh_rows seen' us))
    by (destruct fresh; [by inversion Hall|done]).
  unfold mbind, C_bind. rewrite Hone. simpl. unfold incr.
  destruct (ty_skipped t =? 2 ^ 32 - 1)%Z eqn:Eo; [apply Z.eqb_eq in Eo; lia|]. simpl.
  assert (Hs : (ty_skipped t + 1 + Z.of_nat (length us) = ty_skipped t + Z.of_nat (S (length us)))%Z) by lia.
  rewrite IH; [|done|cbn [ty_skipped]; lia..]. cbn [ty_skipped ty_created ty_username_dropped ty_nostr_dropped ty_errors].
  by rewrite Hs.
Qed.
End migration.

(** What a command reads before it imports does not depend on the tables. *)
Lemma migrate_plan `{Ext} `{Hmac} `{Host} args s s' u :
  migrate_legacy args s = (s', Done u) ->
  exists pep url rows, flag args "--source-url" = Some url /\
    env_var "SEED_FINGERPRINT_PEPPER" = Some pep /\ legacy_users url = inl rows /\
    forall s2, migrate_legacy args s2 =
      import_rows pep (has_flag args "--commit") (select_legacy (flag args "--limit" ≫= parse_usize) rows) s2.
Proof.
  intros Hrun. unfold migrate_legacy, require_flag in *. cbv zeta in *.
  apply c_bind_done in Hrun as (s1 & url & [-> Hurl]%some_or_done & Hrun). rewrite Hurl.
  apply c_bind_done in Hrun as (s1 & limit & Ho & Hrun).
  assert (Hlim : s1 = s /\ limit = (flag args "--limit" ≫= parse_usize) /\ forall s2,
            (match flag args "--limit" with
             | Some x => n ← some_or (parse_usize x) "--limit must be a whole number"; mret (Some n)
             | None => mret None
             end : C (option Z)) s2 = (s2, Done limit)).
  { destruct (flag args "--limit"); [|by injection Ho as <- <-].
    apply c_bind_done in Ho as (s3 & n & [-> Hn]%some_or_done & [= <- <-]). simpl. rewrite Hn.
    by split_and!. }
  destruct Hlim as (-> & -> & Hlim).
  apply c_bind_done in Hrun as (s1' & pep & [-> Hpep]%some_or_done & Hrun). rewrite Hpep.
  destruct (len pep <? 32)%nat eqn:El; [done|].
  destruct (connect_error url) eqn:Ec; [done|]. destruct (legacy_users url) as [rows|] eqn:Er; [|done].
  exists pep, url, rows. split_and!; [done..|]. intros s2.
  unfold mbind at 1, C_bind at 1. cbn [some_or mret C_ret].
  unfold mbind at 1, C_bind at 1. rewrite Hlim.
  unfold mbind at 1, C_bind at 1. cbn [some_or mret C_ret]. by rewrite El, Ec, Er.
Qed.

Lemma import_rows_done `{Ext} `{Hmac} `{Host} pep commit us s s' u :
  import_rows pep commit us s = (s', Done u) ->
  exists sh1 s2 t, import_all pep commit ∅ us (mkTally 0 0 0 0 0) (sh1, s.2) = (s2, Done t) /\ s'.2 = s2.2.
Proof.
  unfold import_rows. intros Hrun.
  apply c_bind_done in Hrun as (s1 & [] & Hp1%println_done & Hrun).
  apply c_bind_done in Hrun as (s2 & [] & Hp2%println_done & Hrun).
  apply c_bind_done in Hrun as (s3 & [] & Hp3%println_done & Hrun).
  apply c_bind_done in Hrun as (s4 & t & Hall & Hrun).
  apply c_bind_done in Hrun as (s5 & [] & Hp5%println_done & Hrun).
  apply c_bind_done in Hrun as (s6 & [] & Hp6%println_done & Hrun).
  destruct s3 as [sh3 w3]. simpl in Hp3.
  exists sh3, s4, t. split; [by rewrite <- Hp1, <- Hp2, <- Hp3|]. rewrite <- Hp5, <- Hp6.
  destruct commit; simpl in Hrun; [by injection Hrun as <-|by apply println_done in Hrun].
Qed.

Lemma length_omap_le {A B} (f : A -> option B) l : length (omap f l) <= length l.
Proof.
  induction l as [|x l IH]; [done|].
  change (omap f (x :: l)) with (match f x with Some y => y :: omap f l | None => omap f l end).
  destruct (f x); cbn [length]; lia.
Qed.

(** C27: the import only adds, loses no row it met, and can be run again.  Run alone with
    [--commit] to its end, it leaves every account and every other table as it was; the
    accounts it adds are rows of the source under this instance's pepper, each with its
    normalised handle, valid, or none; every row whose key and fingerprint it had not met
    before is there; and running it again changes nothing and reports every row as skipped. *)
Theorem migration_idempotent `{Ext} `{Hmac} `{Host} args sh w s' pep url rows
    (Hq : w_sched w = []) (Hfresh : fresh_ids w)
    (Hcommit : has_flag args "--commit" = true)
    (Hpep : env_var "SEED_FINGERPRINT_PEPPER" = Some pep)
    (Hurl : flag args "--source-url" = Some url) (Hrows : legacy_users url = inl rows)
    (Hsize : (Z.of_nat (length rows) < 2 ^ 32)%Z)
    (Hrun : migrate_legacy args (sh, w) = (s', Done tt)) :
  let us := select_legacy (flag args "--limit" ≫= parse_usize) rows in
  (forall k x, users (w_db w) !! k = Some x -> users (w_db s'.2) !! k = Some x) /\
  w_db s'.2 = (w_db w) <|users := users (w_db s'.2)|> /\
  (forall k x, users (w_db s'.2) !! k = Some x ->
     users (w_db w) !! k = Some x \/ exists u, u ∈ us /\ imported_as pep (w_now w) u k x) /\
  (forall u, u ∈ fresh_rows ∅ us -> held pep (w_db s'.2) u = true) /\
  (forall sh2, exists sh3, migrate_legacy args (sh2, s'.2) = ((sh3, s'.2), Done tt) /\
     last (sh_out sh3) = Some (summary_line true (mkTally 0 (Z.of_nat (length us)) 0 0 0))).
Proof.
  destruct (migrate_plan _ _ _ _ Hrun) as (pep' & url' & rows' & Hu & Hp & Hr & Hplan).
  assert (pep' = pep) as -> by congruence. assert (url' = url) as -> by congruence.
  assert (rows' = rows) as -> by congruence. intros us. fold us in Hplan.
  assert (Hlen : (Z.of_nat (length us) < 2 ^ 32)%Z).
  { assert (length us <= length rows); [|lia]. unfold us, select_legacy.
    pose proof (length_omap_le legacy_user (merge_sort lr_before rows)) as Hle.
    rewrite (Permutation_length (merge_sort_Permutation lr_before rows)) in Hle.
    destruct (flag args _ ≫= parse_usize); rewrite ?length_take; lia. }
  rewrite Hplan, Hcommit in Hrun.
  apply import_rows_done in Hrun as (sh1 & s2 & t & Hall & ->). simpl in Hall.
  apply import_all_adds in Hall as ([Q1 _ U1 D1 _ R1] & _ & Hheld); [|done..].
  split_and!; [intros k x Hk; by eapply lookup_weaken|done|done|by apply Forall_forall|].
  intros sh2. rewrite Hplan, Hcommit. unfold import_rows. eexists. split.
  - unfold mbind, C_bind. cbn [println]. rewrite import_all_again by (try done; simpl; lia).
    reflexivity.
  - simpl. rewrite last_snoc. done.
Qed.

(** * A dry run *)

Section dry.
Context `{Ext} `{Hmac} `{Host} (P : Db -> Prop).

Lemma dry_read {A} (f : Time -> Db -> A) : c_keeps P (db (query (fun now d => inr (d, f now d)))).
Proof. eapply c_keeps_db, triple_query_read. Qed.

Lemma dry_find p : c_keeps P (db (query (find_user p))).
Proof. apply (dry_read (fun _ d => head (base.filter (fun u => p u = true) (user_rows d)))). Qed.

Lemma dry_import_new pep u : c_keeps P (import_new pep false u).
Proof.
  unfold import_new, import_npub, import_username, identity_present. simpl. c_follow;
    first [apply dry_find|unfold get_user_by_username; eapply dry_read|idtac].
Qed.

Lemma dry_import_all pep seen us t : c_keeps P (import_all pep false seen us t).
Proof.
  revert seen t. induction us as [|u us IH]; intros seen t; simpl; [apply c_keeps_ret|].
  unfold import_one. destruct (note_seen seen u) as [seen' fresh].
  apply c_keeps_bind; [|intros r; apply c_keeps_bind; [|intros; apply IH]].
  - destruct fresh; [apply c_keeps_outcome_of, dry_import_new|apply c_keeps_ret].
  - unfold tally_one, legacy_label. c_follow.
Qed.

(** Without [--commit] the import keeps whatever the rest of the system keeps: it writes
    nothing. *)
Lemma dry_run_writes_nothing args :
  has_flag args "--commit" = false -> c_keeps P (migrate_legacy args).
Proof.
  intros Hdry. unfold migrate_legacy, import_rows. cbv zeta. rewrite Hdry. c_follow.
  apply dry_import_all.
Qed.
End dry.

(** * Concrete runs *)

Definition demo_migrate_args : list string := ["--source-url"; "pg://old"; "--commit"].
Definition demo_migrated : (Shell * World) * exit unit :=
  migrate_legacy demo_migrate_args (demo_shell, quiet_world demo_users_db 0).

Lemma demo_target_fresh : fresh_ids (quiet_world demo_users_db 0).
Proof.
  split.
  - intros n _. change (w_rand (quiet_world demo_users_db 0) n) with (N.of_nat (100 + n)).
    unfold demo_users_db. simpl. rewrite lookup_insert_ne, lookup_singleton_ne by lia. done.
  - intros n m E. change (N.of_nat (100 + n) = N.of_nat (100 + m)) in E. lia.
Qed.

Lemma migration_idempotent_witness :
  size (users (w_db demo_migrated.1.2)) = 5 /\
  exists sh3, migrate_legacy demo_migrate_args (demo_shell, demo_migrated.1.2)
                = ((sh3, demo_migrated.1.2), Done tt) /\
    last (sh_out sh3) = Some (summary_line true (mkTally 0 4 0 0 0)).
Proof.
  split; [by vm_compute|].
  assert (Hd : match demo_migrated.2 with Done tt => true | _ => false end = true) by (by vm_compute).
  destruct demo_migrated as [s' [[]|e|]] eqn:E; [|discriminate Hd..].
  assert (Hpep : env_var "SEED_FINGERPRINT_PEPPER" = Some demo_tool_secret) by reflexivity.
  destruct (legacy_users "pg://old") as [rows|] eqn:Hrows; [|discriminate Hrows].
  assert (Hlen : length rows = 4) by (by injection Hrows as <-).
  destruct (migration_idempotent demo_migrate_args demo_shell (quiet_world demo_users_db 0) s'
    demo_tool_secret "pg://old" rows eq_refl demo_target_fresh eq_refl Hpep eq_refl Hrows)
    as (_ & _ & _ & _ & Hagain); [by rewrite Hlen|exact E|].
  destruct (Hagain demo_shell) as (sh3 & Hrun & Hsaid). exists sh3. split; [exact Hrun|].
  rewrite Hsaid. by injection Hrows as <-.
Defined.

(** What a dry run announces is not what the run does: two rows of one name. *)
Definition says (line : string) (r : (Shell * World) * exit unit) : bool :=
  bool_decide (line ∈ sh_out r.1.1).
Example dry_run_miscounts :
  says (summary_line true (mkTally 3 1 2 1 0)) demo_migrated = true /\
  says (summary_line false (mkTally 3 1 1 1 0))
    (migrate_legacy ["--source-url"; "pg://old"] (demo_shell, quiet_world demo_users_db 0)) = true.
Proof. by vm_compute. Qed.

(** A row skipped as a repetition still claims its key: the next row of that key, with a
    fingerprint that nobody has, is skipped as present and never imported. *)
Definition demo_rotated : (Shell * World) * exit unit :=
  migrate_legacy ["--source-url"; "pg://rotated"; "--commit"] (demo_shell, quiet_world empty_db 0).
Example rotated_row_lost :
  says (summary_line true (mkTally 1 2 0 0 0)) demo_rotated = true /\
  held demo_tool_secret (w_db demo_rotated.1.2) (mkLegacyUser None "q2" None (Some "g2") None None None) = false.
Proof. by vm_compute. Qed.
