(* ===== verification/Boot.v ===== *)
(** The start of the server, [src/main.rs]: the configuration, the clients built from it,
    the bootstrap latch, the background tasks and the listeners.

    The start is a program over the monad of [Cli.v]; an error ends the process with its
    text.  Opening pools, migrating, binding sockets and parsing socket addresses are the
    class [Start]. *)

From Stdlib Require Import ZArith Lia Ascii String.
From stdpp Require Import pretty.
From S2P Require Import Prelude RustStr Json Errors Db Effects Http TipStatus SocialTips Transactions Pepper AuditChain Auth Config Overlay RelayPolicy Registration Premium Electrum AdminKeys Settings Website Prices BtcPay Capabilities Cli.

Local Open Scope string_scope.

Class Start := {
  db_connect : string -> option string;         (* why the pool does not open *)
  db_migrate : option string;                   (* why the migrations fail *)
  legacy_open : string -> option LegacyPool;
  socket_addr_from_str : string -> option string;   (* [SocketAddr::from_str], as text *)
  listen : string -> option string;             (* why the address cannot be bound *)
}.

(** The tasks that [main] spawns. *)
Inductive Task :=
| PurgeWebChallenges | ExpireSlatepacks | ExpireChallenges | ErasureSweep | RetentionSweep
| PriceRefresh | TipConfirmation | SweepReconcile | SweepReorg | TipDraftGc | TipLifecycleGc.

#[export] Instance Task_eq_dec : EqDecision Task.
Proof. solve_decision. Defined.

Section boot.
Context `{Ext} `{Hmac} `{MacJson} `{AuditJson} `{JsonText} `{Urls} `{Bech32} `{Http} `{PayNet} `{Start}.

(** The state shared with the handlers, the tasks with their periods in seconds, and the
    addresses listened on. *)
Record Started := mkStarted {
  sd_config_base : Config; sd_config : Config; sd_chains : ApiClients;
  sd_payment : option PaymentProvider; sd_payment_rails : list PaymentRail;
  sd_relay : option NostrRelayProvider; sd_legacy : LegacyDirectory;
  sd_tasks : list (Task * Z); sd_admin : option string; sd_admission : option string;
  sd_public : string }.

(** [f()?] of a constructor. *)
Definition construct {A} (o : outcome A) : C A := db (lift o).

Definition tampered_at_boot : string :=
  "server_config bootstrap latch MAC invalid (tamper or restore-to-pre-bootstrap); run `smirk-admin reset-setup --i-understand` if this is intentional".

Definition boot_latch (secret : string) : C unit :=
  st ← db (read_setup_state secret);
  match st with
  | Fresh =>
      has_users ← db has_any_users;
      adopt ← (if has_users : bool then mret true else db has_any_admin_keys);
      db (init_server_config secret adopt)
  | Uninitialized | Locked => mret tt
  | Tampered => fail_with tampered_at_boot
  end.

Definition tasks_of (cfg : Config) : list (Task * Z) :=
  let f := cf_features cfg in
  ([(PurgeWebChallenges, 120)]
   ++ (if ff_grin_relay f then [(ExpireSlatepacks, 3600)] else [])
   ++ [(ExpireChallenges, 600)]
   ++ (if rt_erasure_enabled (cf_retention cfg) then [(ErasureSweep, 3600)] else [])
   ++ [(RetentionSweep, 300)]
   ++ (if is_some (price_task f) then [(PriceRefresh, refresh_interval (ff_prices_interval_secs f))] else [])
   ++ (if ff_tips f
       then [(TipConfirmation, 60); (SweepReconcile, 60); (SweepReorg, 300); (TipDraftGc, 3600);
             (TipLifecycleGc, 300)]
       else []))%Z%list.

Definition bind_admin (cfg : Config) : C (option string) :=
  let a := cf_admin cfg in
  if dm_enabled a then
    if negb (binds_loopback (dm_bind a)) && negb (dm_allow_public_bind a)
    then fail_with ("ADMIN_BIND " ++ dm_bind a ++ " is not loopback; set ADMIN_ALLOW_PUBLIC_BIND=true to override (and front it with Tor client-auth / a trusted proxy)")
    else match listen (dm_bind a) with
    | Some e => fail_with e
    | None => mret (Some (dm_bind a))
    end
  else mret None.

(** The admission service in front of a relay that does not admit everything. *)
Definition bind_admission (cfg : Config) (relay : option NostrRelayProvider) : C (option string) :=
  match relay with
  | Some p =>
      if bool_decide (np_policy p = Open) then mret None
      else
        let addr := rl_admission_bind (ms_relay (cf_messaging cfg)) in
        match socket_addr_from_str addr with
        | Some a => mret (Some a)
        | None => fail_with "invalid RELAY_ADMISSION_BIND: invalid socket address syntax"
        end
  | None => mret None
  end.

Definition server_addr (cfg : Config) : string := cf_server_host cfg ++ ":" ++ pretty (cf_server_port cfg).

(** [main], up to the loop that serves. *)
Definition boot (env : Env) : C Started :=
  base0 ← construct (from_env env);
  _ ← match db_connect (cf_database_url base0) with Some e => fail_with e | None => mret tt end;
  _ ← match db_migrate with Some e => fail_with e | None => mret tt end;
  cfgs ← db (boot_config env);
  let '(config_base, config) := cfgs in
  chains ← construct (chains_from_config config);
  payment ← construct (provider_from_config config);
  let payment_rails := rails_from_config config payment in
  relay ← construct (relay_from_config (ms_relay (cf_messaging config)));
  _ ← (if dm_enabled (cf_admin config)
       then boot_latch (dm_key_integrity_secret (cf_admin config)) else mret tt);
  let legacy := legacy_connect legacy_open (cf_legacy_database_url config_base) in
  admin ← bind_admin config;
  admission ← bind_admission config relay;
  _ ← match listen (server_addr config) with Some e => fail_with e | None => mret tt end;
  mret (mkStarted config_base config chains payment payment_rails relay legacy (tasks_of config)
          admin admission (server_addr config)).
End boot.
