(* ===== verification/BootSafety.v ===== *)
(** What the start of the server promises: the posture it starts in, exactly when it
    refuses, and the adoption of an instance that has no latch. *)

From Stdlib Require Import ZArith Lia Ascii String.
From stdpp Require Import pretty.
From S2P Require Import Prelude RustStr Json Errors Db Effects Http Demo TipStatus SocialTips Transactions Pepper AuditChain Auth Config Overlay Nip98 RelayPolicy Registration Premium Users Electrum AdminKeys AdminSafety AdminApi AdminApiSafety Settings ConfigSafety OverlaySafety SettingsSafety Website Prices BtcPay Capabilities Cli CliSafety Boot.

Local Open Scope string_scope.

Lemma db_ok {A} (m : M A) sh w s' a :
  db m (sh, w) = (s', Done a) -> m w = (s'.2, Ok a).
Proof. intros (w' & Hm & ->)%db_as_done. done. Qed.

Lemma built_done {A} (o : outcome A) s s' a :
  construct o s = (s', Done a) <-> s' = s /\ o = Ok a.
Proof. destruct s as [sh w]. unfold construct, db, db_as, lift. destruct o; naive_solver. Qed.

Lemma refuse_done (o : option string) (s s' : Shell * World) u :
  (match o with Some e => fail_with e | None => mret tt end : C unit) s = (s', Done u) <-> s' = s /\ o = None.
Proof. unfold fail_with, mret, C_ret. destruct o, u; naive_solver. Qed.

(** The relay that admits only some needs the admission service. *)
Definition gated (relay : option NostrRelayProvider) : bool :=
  match relay with Some p => negb (bool_decide (np_policy p = Open)) | None => false end.

Section posture.
Context `{Ext} `{Hmac} `{MacJson} `{AuditJson} `{JsonText} `{Urls} `{Bech32} `{Http} `{PayNet} `{Start}.

Definition admin_bind_allowed (c : Config) : bool :=
  binds_loopback (dm_bind (cf_admin c)) || dm_allow_public_bind (cf_admin c).

Lemma bind_admin_done c s s' o :
  bind_admin c s = (s', Done o) <->
  s' = s /\ (if dm_enabled (cf_admin c)
             then o = Some (dm_bind (cf_admin c)) /\ admin_bind_allowed c = true /\
                  listen (dm_bind (cf_admin c)) = None
             else o = None).
Proof.
  unfold bind_admin, admin_bind_allowed, fail_with, mret, C_ret. destruct (dm_enabled (cf_admin c)); [|naive_solver].
  destruct (binds_loopback _), (dm_allow_public_bind _); simpl; try naive_solver;
    destruct (listen _); naive_solver.
Qed.

Lemma bind_admission_done c relay s s' o :
  bind_admission c relay s = (s', Done o) <->
  s' = s /\ (if gated relay
             then is_Some o /\ socket_addr_from_str (rl_admission_bind (ms_relay (cf_messaging c))) = o
             else o = None).
Proof.
  unfold bind_admission, gated, fail_with, mret, C_ret. destruct relay as [p|]; [|naive_solver].
  destruct (bool_decide (np_policy p = Open)); simpl; [naive_solver|].
  destruct (socket_addr_from_str _); [naive_solver|]. split; [done|]. intros (-> & [x Hx] & <-). done.
Qed.

(** What a start that succeeded went through. *)
Lemma boot_done env sh w s' st :
  boot env (sh, w) = (s', Done st) ->
  exists w1 s2, boot_config env w = (w1, Ok (sd_config_base st, sd_config st)) /\
    let c := sd_config st in
    chains_from_config c = Ok (sd_chains st) /\ provider_from_config c = Ok (sd_payment st) /\
    sd_payment_rails st = rails_from_config c (sd_payment st) /\
    relay_from_config (ms_relay (cf_messaging c)) = Ok (sd_relay st) /\
    sd_tasks st = tasks_of c /\
    (if dm_enabled (cf_admin c)
     then boot_latch (dm_key_integrity_secret (cf_admin c)) (sh, w1) = (s2, Done tt) else s2 = (sh, w1)) /\
    bind_admin c s2 = (s2, Done (sd_admin st)) /\
    bind_admission c (sd_relay st) s2 = (s2, Done (sd_admission st)) /\ s' = s2.
Proof.
  unfold boot. intros Hrun.
  apply c_bind_done in Hrun as (s1 & base0 & [-> _]%built_done & Hrun).
  apply c_bind_done in Hrun as (s1 & [] & [-> _]%refuse_done & Hrun).
  apply c_bind_done in Hrun as (s1 & [] & [-> _]%refuse_done & Hrun).
  apply c_bind_done in Hrun as (s1 & [base c] & Hc & Hrun). apply db_as_done in Hc as (w1 & Hc & ->).
  apply c_bind_done in Hrun as (s1 & chains & [-> Hch]%built_done & Hrun).
  apply c_bind_done in Hrun as (s1 & payment & [-> Hpay]%built_done & Hrun). cbv zeta in Hrun.
  apply c_bind_done in Hrun as (s1 & relay & [-> Hrel]%built_done & Hrun).
  apply c_bind_done in Hrun as (s2 & [] & Hlatch & Hrun).
  apply c_bind_done in Hrun as (s3 & admin & Had & Hrun). pose proof Had as Had'. apply bind_admin_done in Had' as [-> _].
  apply c_bind_done in Hrun as (s3 & adm & Hadm & Hrun). pose proof Hadm as Hadm'.
  apply bind_admission_done in Hadm' as [-> _].
  apply c_bind_done in Hrun as (s3 & [] & [-> _]%refuse_done & [= <- <-]).
  exists w1, s2. split; [done|]. cbv zeta. simpl. split_and!; try done.
  destruct (dm_enabled (cf_admin c)); [done|by injection Hlatch].
Qed.

(** ** The latch *)

Section latch.
Variable secret : string.

Definition latched (d : Db) : Prop := exists row, server_config d = Some row /\ verify_latch secret row = true.
Definition untampered (d : Db) : Prop := server_config d = None \/ latched d.

(** What the other writers of the latch do: they tamper with nothing, and remove nothing. *)
Definition latch_lawful : Rel := fun _ d d' =>
  (untampered d -> untampered d') /\ (latched d -> latched d').

Lemma lawful_steps d d' : steps latch_lawful d d' ->
  (untampered d -> untampered d') /\ (latched d -> latched d').
Proof.
  intros Hs. induction Hs as [d|d d1 d' [t [Hu Hl]] _ [IHu IHl]]; [done|]. split; auto.
Qed.

Lemma locked_latched at_ now : verify_latch secret (locked_row secret at_ now) = true.
Proof. unfold verify_latch, ct_eq. by apply String.eqb_eq. Qed.
Lemma uninitialized_latched now : verify_latch secret (uninitialized_row secret now) = true.
Proof. unfold verify_latch, ct_eq. by apply String.eqb_eq. Qed.

Lemma latched_setup d : latched d -> setup secret d = Locked \/ setup secret d = Uninitialized.
Proof.
  intros (row & Hr & Hv). unfold setup, setup_state_of. rewrite Hr, Hv. simpl.
  destruct (_ =? _); auto.
Qed.

(** A query that only reads, under lawful steps. *)
Lemma read_then {A} (f : Db -> A) w w' r :
  sched_ok latch_lawful (w_sched w) -> query (fun _ d => inr (d, f d)) w = (w', Ok r) ->
  steps latch_lawful (w_db w) (w_db w') /\ r = f (w_db w') /\ sched_ok latch_lawful (w_sched w').
Proof.
  intros Hok Hr. apply (run_stmt_Ok latch_lawful) in Hr as (d & Hs & [= <- <-] & Hok' & _); [|done].
  by split_and!.
Qed.

Lemma boot_latch_latched sh w s' :
  sched_ok latch_lawful (w_sched w) -> boot_latch secret (sh, w) = (s', Done tt) -> latched (w_db s'.2).
Proof.
  intros Hok Hrun. unfold boot_latch in Hrun.
  apply c_bind_done in Hrun as (s1 & st & Hst & Hrun). apply db_as_done in Hst as (w1 & Hst & ->).
  unfold read_setup_state in Hst. apply bind_run_Ok in Hst as (w2 & row & Hq & [= <- <-]).
  apply (read_then server_config) in Hq as (_ & -> & Hok1); [|done].
  assert (Hkeep : setup_state_of secret (server_config (w_db w2)) <> Fresh ->
    setup_state_of secret (server_config (w_db w2)) <> Tampered -> latched (w_db w2)).
  { unfold setup_state_of, latched. destruct (server_config (w_db w2)) as [r|]; [|done].
    destruct (verify_latch secret r) eqn:Ev; [eauto|done]. }
  destruct (setup_state_of secret (server_config (w_db w2))) eqn:Es.
  - assert (Hu : untampered (w_db w2)).
    { left. unfold setup_state_of in Es. destruct (server_config (w_db w2)); [|done].
      destruct (negb _); [done|]. by destruct (_ =? _). }
    apply c_bind_done in Hrun as (s2 & has & Hhas & Hrun). apply db_as_done in Hhas as (w3 & Hhas & ->).
    apply (read_then (fun d => negb (bool_decide (users d = ∅)))) in Hhas as (Hs3 & _ & Hok3); [|done].
    apply c_bind_done in Hrun as (s3 & adopt & Had & Hrun).
    assert (Ha : exists w4, s3 = (sh, w4) /\ steps latch_lawful (w_db w3) (w_db w4) /\
              sched_ok latch_lawful (w_sched w4)).
    { destruct has; [injection Had as <- _; exists w3; split_and!; try done; apply steps_refl|].
      apply db_as_done in Had as (w4 & Had & ->).
      apply (read_then (fun d => negb (bool_decide (admin_keys d = ∅)))) in Had as (? & _ & ?); [eauto|done]. }
    destruct Ha as (w4 & -> & Hs4 & Hok4). apply db_as_done in Hrun as (w5 & Hinit & ->). simpl.
    unfold init_server_config in Hinit. apply bind_run_Ok in Hinit as (w6 & clock & [= <- <-] & Hinit).
    apply (run_stmt_Ok latch_lawful) in Hinit as (d & Hs5 & [= Hd] & _); [|done].
    assert (Hud : untampered d).
    { apply (lawful_steps _ _ Hs5), (lawful_steps _ _ Hs4), (lawful_steps _ _ Hs3), Hu. }
    rewrite <- Hd. destruct Hud as [Hn|(row & Hr & Hv)].
    + rewrite Hn. unfold latched. destruct adopt; simpl; eexists; (split; [done|]);
        [apply locked_latched|apply uninitialized_latched].
    + rewrite Hr. by exists row.
  - injection Hrun as <-. by apply Hkeep.
  - injection Hrun as <-. by apply Hkeep.
  - done.
Qed.
End latch.

(** Loading the settings leaves a lawful schedule. *)
Lemma boot_config_sched (R : Rel) env w w1 x :
  sched_ok R (w_sched w) -> boot_config env w = (w1, Ok x) -> sched_ok R (w_sched w1).
Proof.
  intros Hok Hb. unfold boot_config in Hb. apply bind_run_Ok in Hb as (w2 & base & [= <- _] & Hb).
  cbv zeta in Hb. apply bind_run_Ok in Hb as (w3 & ov & Hl & Hb).
  assert (w1 = w3) as -> by (destruct (apply_overlay base ov); [by injection Hb|by injection Hb|done]).
  destruct (is_empty _); [by injection Hl as <- _|].
  unfold load_settings_overlay in Hl. apply bind_run_Ok in Hl as (w4 & rs & Hq & [= <- _]).
  by apply (run_stmt_Ok R) in Hq as (_ & _ & _ & ? & _).
Qed.

(** The policy of a relay that was built is the configured one. *)
Lemma relay_policy_of r p : relay_from_config r = Ok (Some p) ->
  rl_enabled r = true /\ policy_parse (rl_write_policy r) = Some (np_policy p).
Proof.
  unfold relay_from_config. destruct (rl_enabled r); [|done]. simpl.
  destruct (policy_parse (rl_write_policy r)) as [q|]; [|done]. simpl. destruct (_ || _); [|done].
  by intros [= <-].
Qed.

Lemma tip_tasks c task :
  task ∈ [TipConfirmation; SweepReconcile; SweepReorg; TipDraftGc; TipLifecycleGc] ->
  task ∈ (tasks_of c).*1 <-> ff_tips (cf_features c) = true.
Proof.
  intros Htask. unfold tasks_of. destruct (ff_tips (cf_features c)), (ff_grin_relay (cf_features c)),
    (rt_erasure_enabled (cf_retention c)), (is_some (price_task (cf_features c))); cbn -[refresh_interval]; set_solver.
Qed.

(** What the settings leave is the environment's configuration with a sound edit. *)
Lemma boot_config_effective env w base c :
  (boot_config env w).2 = Ok (base, c) -> from_env env = Ok base /\ effective c.
Proof.
  intros Hb. destruct (boot_config env w) as [w' o] eqn:E. simpl in Hb. subst o.
  unfold boot_config in E. apply bind_run_Ok in E as (w1 & b & [= <- Hb] & E).
  cbv zeta in E. apply bind_run_Ok in E as (w2 & ov & Hl & E).
  assert (Ht : overlay_typed ov).
  { destruct (is_empty _); [injection Hl as _ <-; by split|].
    unfold load_settings_overlay in Hl. apply bind_run_Ok in Hl as (w3 & rs & _ & [= _ <-]).
    unfold overlay_of_rows. destruct (dec c_overlay _) as [q|] eqn:Ed; simpl;
      [by eapply overlay_read_typed|by split]. }
  pose proof (loaded_effective env b Hb) as He. pose proof He as (_ & Hn & Hty).
  destruct (apply_overlay b ov) as [c'|e|] eqn:Ea; [| |done]; injection E as _ <- <-;
    (split; [done|]); [by eapply apply_effective|done].
Qed.

(** A gated relay is fronted on loopback, unless the operator allows otherwise. *)
Lemma gated_on_loopback c relay :
  config_ok c -> relay_from_config (ms_relay (cf_messaging c)) = Ok relay -> gated relay = true ->
  rl_admission_allow_public (ms_relay (cf_messaging c)) = true \/
  binds_loopback (rl_admission_bind (ms_relay (cf_messaging c))) = true.
Proof.
  intros Hok Hr Hg. destruct relay as [p|]; [|done].
  apply relay_policy_of in Hr as [Hen Hp]. simpl in Hg.
  destruct (rl_admission_allow_public _) eqn:Ea; [by left|right].
  destruct (ok_relay c Hok Hen) as [_ _ _ _ Hbind].
  destruct Hbind as [_ Hb]; [intros E; rewrite E in Hp; injection Hp as Hp; by rewrite <- Hp in Hg|].
  destruct (Hb Ea) as (a & addrs & Ht & Hall). unfold binds_loopback. rewrite Ht.
  apply andb_true_iff. split; [done|]. apply forallb_forall. intros x Hx%list_elem_of_In.
  rewrite Forall_forall in Hall. by apply Hall.
Qed.
End posture.

(** C28: the posture the server starts in.  Under every schedule, whatever the settings table
    holds, a server that has started runs on a configuration that validates; listens for its
    administrators exactly when they are enabled, and then on loopback unless the operator
    opted out, over a latch that verifies, as long as nobody tampers with it meanwhile; fronts a
    relay that does not admit everything, and only such a one, with the admission service, on
    loopback unless the operator opted out; and runs the workers on tips exactly when tips
    are on. *)
Theorem start_posture `{Ext} `{Hmac} `{MacJson} `{AuditJson} `{JsonText} `{Urls} `{Bech32} `{Http}
    `{PayNet} `{Start} env sh w s' st
    (Hrun : boot env (sh, w) = (s', Done st)) :
  let c := sd_config st in
  from_env env = Ok (sd_config_base st) /\ config_ok c /\
  (sd_admin st = if dm_enabled (cf_admin c) then Some (dm_bind (cf_admin c)) else None) /\
  (is_Some (sd_admin st) ->
     binds_loopback (dm_bind (cf_admin c)) = true \/ dm_allow_public_bind (cf_admin c) = true) /\
  (let secret := dm_key_integrity_secret (cf_admin c) in
   is_Some (sd_admin st) -> sched_ok (latch_lawful secret) (w_sched w) ->
   setup secret (w_db s'.2) = Locked \/ setup secret (w_db s'.2) = Uninitialized) /\
  (is_Some (sd_admission st) <-> exists p, sd_relay st = Some p /\ np_policy p <> Open) /\
  (is_Some (sd_admission st) ->
     rl_admission_allow_public (ms_relay (cf_messaging c)) = true \/
     binds_loopback (rl_admission_bind (ms_relay (cf_messaging c))) = true) /\
  (forall task, task ∈ [TipConfirmation; SweepReconcile; SweepReorg; TipDraftGc; TipLifecycleGc] ->
     task ∈ (sd_tasks st).*1 <-> ff_tips (cf_features c) = true).
Proof.
  apply boot_done in Hrun as (w1 & s2 & Hc & Hch & Hpay & _ & Hrel & Ht & Hlatch & Had & Hadm & ->).
  intros c. fold c in Hch, Hpay, Hrel, Ht, Hlatch, Had, Hadm.
  assert (Hcfg : from_env env = Ok (sd_config_base st) /\ config_ok c).
  { destruct (boot_config_effective env w (sd_config_base st) c) as (? & [? _]); [by rewrite Hc|done]. }
  destruct Hcfg as [Henv Hok].
  apply bind_admin_done in Had as [_ Had]. apply bind_admission_done in Hadm as [_ Hadm].
  assert (Hg : gated (sd_relay st) = true <-> exists p, sd_relay st = Some p /\ np_policy p <> Open).
  { unfold gated. destruct (sd_relay st) as [p|]; [|split; [done|by intros (? & ? & _)]].
    rewrite negb_true_iff, bool_decide_eq_false. naive_solver. }
  split; [exact Henv|]. split; [exact Hok|]. split; [by destruct (dm_enabled (cf_admin c)); naive_solver|].
  split; [|split; [|split; [|split]]].
  - intros Hs. destruct (dm_enabled (cf_admin c)); [|rewrite Had in Hs; by destruct Hs].
    destruct Had as (_ & Hb & _). by apply orb_true_iff in Hb.
  - intros secret Hs Hsched. destruct (dm_enabled (cf_admin c)); [|rewrite Had in Hs; by destruct Hs].
    apply (latched_setup secret). eapply boot_latch_latched; [|exact Hlatch].
    by eapply boot_config_sched.
  - rewrite <- Hg. destruct (gated (sd_relay st)); [naive_solver|]. rewrite Hadm. split; [by intros []|done].
  - intros Hs. apply (gated_on_loopback c (sd_relay st)); [done..|].
    destruct (gated (sd_relay st)); [done|]. rewrite Hadm in Hs. by destruct Hs.
  - intros task Htask. rewrite Ht. by apply tip_tasks.
Qed.

(** * When it refuses *)

Section refusals.
Context `{Ext} `{Hmac} `{MacJson} `{AuditJson} `{JsonText} `{Urls} `{Bech32} `{Http} `{PayNet} `{Start}.

(** The latch the start leaves, alone: an instance without one is adopted as bootstrapped
    when it has an account or an administrator's key. *)
Definition adopted (secret : string) (w : World) : ServerConfig :=
  if negb (bool_decide (users (w_db w) = ∅)) || negb (bool_decide (admin_keys (w_db w) = ∅))
  then locked_row secret (w_now w + w_skew w)%Z (w_now w)
  else uninitialized_row secret (w_now w).

Lemma query_still {A} (f : Db -> A) w :
  w_sched w = [] -> query (fun _ d => inr (d, f d)) w = (w, Ok (f (w_db w))).
Proof. intros Hq. unfold query. rewrite run_stmt_quiet by done. by destruct w. Qed.

Lemma boot_latch_alone secret sh w :
  w_sched w = [] ->
  boot_latch secret (sh, w) =
    match setup secret (w_db w) with
    | Fresh => ((sh, w <|w_db := (w_db w) <|server_config := Some (adopted secret w)|>|>), Done tt)
    | Tampered => ((sh, w), Failed tampered_at_boot)
    | _ => ((sh, w), Done tt)
    end.
Proof.
  intros Hq. unfold boot_latch, db, db_as, read_setup_state, has_any_users, has_any_admin_keys,
    init_server_config, mbind, C_bind, M_bind.
  rewrite query_still by done. cbn [mret M_ret]. unfold setup.
  destruct (setup_state_of secret (server_config (w_db w))) eqn:Es; [|done..].
  assert (Hn : server_config (w_db w) = None).
  { unfold setup_state_of in Es. destruct (server_config (w_db w)); [|done].
    destruct (negb _); [done|]. by destruct (_ =? _). }
  rewrite query_still by done. unfold adopted.
  destruct (negb (bool_decide (users (w_db w) = ∅))); simpl; [|rewrite query_still by done];
    cbn [utc_now]; unfold query; rewrite run_stmt_quiet by done; simpl; rewrite Hn; [done|].
  by destruct (negb (bool_decide (admin_keys (w_db w) = ∅))).
Qed.

Lemma boot_config_alone env w base :
  w_sched w = [] -> from_env env = Ok base -> exists c, boot_config env w = (w, Ok (base, c)).
Proof.
  intros Hq Hb. unfold boot_config, mbind, M_bind, lift. rewrite Hb. cbv zeta.
  assert (Hl : exists ov, (if is_empty (dm_key_integrity_secret (cf_admin base))
    then mret empty_overlay else load_settings_overlay (dm_key_integrity_secret (cf_admin base))) w
    = (w, Ok ov)).
  { destruct (is_empty _); [by eexists|]. unfold load_settings_overlay, query, mbind, M_bind.
    rewrite run_stmt_quiet by done. eexists. by destruct w. }
  destruct Hl as [ov ->]. pose proof (apply_settles base ov). destruct (apply_overlay base ov); [by eexists..|done].
Qed.

(** A configuration that validates has its processor and its relay. *)
Lemma valid_builds c :
  config_ok c -> is_ok (provider_from_config c) = true /\
    is_ok (relay_from_config (ms_relay (cf_messaging c))) = true.
Proof.
  intros Hok. split.
  - unfold provider_from_config.
    destruct (pc_require_payment (rg_payment (cf_registration c))) eqn:Ep,
      (pm_enabled (cf_premium c)) eqn:Em; simpl; [..|done].
    + rewrite (wired_provider _ _ (ok_payment c Hok Ep)). done.
    + rewrite (wired_provider _ _ (ok_payment c Hok Ep)). done.
    + destruct (premium_processor _ _ _ _ (ok_premium c Hok Em)) as (-> & _). done.
  - unfold relay_from_config. destruct (rl_enabled (ms_relay (cf_messaging c))) eqn:En; [|done].
    destruct (ok_relay c Hok En) as [Hm _ [p Hp] _ _]. rewrite Hp. simpl.
    assert ((rl_mode (ms_relay (cf_messaging c)) =? "bundled")
      || (rl_mode (ms_relay (cf_messaging c)) =? "external") = true) as ->
      by (destruct Hm as [-> | ->]; done). done.
Qed.

(** What a configuration still needs, beyond validating. *)
Record startable (c : Config) (d : Db) : Prop := mkStartable {
  st_chains : is_ok (chains_from_config c) = true;
  st_latch : dm_enabled (cf_admin c) = true -> setup (dm_key_integrity_secret (cf_admin c)) d <> Tampered;
  st_admin : dm_enabled (cf_admin c) = true -> admin_bind_allowed c = true;
  st_admission : forall relay, relay_from_config (ms_relay (cf_messaging c)) = Ok relay ->
    gated relay = true -> is_Some (socket_addr_from_str (rl_admission_bind (ms_relay (cf_messaging c)))) }.

Lemma boot_alone env sh w base c chains payment relay :
  w_sched w = [] -> from_env env = Ok base -> boot_config env w = (w, Ok (base, c)) ->
  db_connect (cf_database_url base) = None -> db_migrate = None -> (forall a, listen a = None) ->
  chains_from_config c = Ok chains -> provider_from_config c = Ok payment ->
  relay_from_config (ms_relay (cf_messaging c)) = Ok relay -> startable c (w_db w) ->
  exists s' st, boot env (sh, w) = (s', Done st).
Proof.
  intros Hq Hb Hc Hconn Hmig Hlisten Hch Hpay Hrel [_ Hlatch Hadmin Hadm].
  assert (Hl : exists s2, (if dm_enabled (cf_admin c)
    then boot_latch (dm_key_integrity_secret (cf_admin c)) else mret tt) (sh, w) = (s2, Done tt)).
  { destruct (dm_enabled (cf_admin c)); [|by eexists]. rewrite boot_latch_alone by done.
    destruct (setup _ _) eqn:Es; [by eexists..|by destruct Hlatch]. }
  destruct Hl as [s2 Hl].
  assert (Ha : exists o, bind_admin c s2 = (s2, Done o)).
  { destruct (dm_enabled (cf_admin c)) eqn:Ed.
    - exists (Some (dm_bind (cf_admin c))). apply bind_admin_done. rewrite Ed. eauto.
    - exists None. apply bind_admin_done. by rewrite Ed. }
  destruct Ha as [admin Ha].
  assert (Hd : exists o, bind_admission c relay s2 = (s2, Done o)).
  { destruct (gated relay) eqn:Eg.
    - exists (socket_addr_from_str (rl_admission_bind (ms_relay (cf_messaging c)))).
      apply bind_admission_done. rewrite Eg. split_and!; [done| |done]. by apply (Hadm relay).
    - exists None. apply bind_admission_done. by rewrite Eg. }
  destruct Hd as [adm Hd]. do 2 eexists. unfold boot.
  apply c_bind_done. do 2 eexists. split; [apply built_done; by split|].
  apply c_bind_done. do 2 eexists. split; [apply (refuse_done _ _ _ tt); by split|].
  apply c_bind_done. do 2 eexists. split; [apply (refuse_done _ _ _ tt); by split|].
  apply c_bind_done. do 2 eexists. split; [apply db_as_done; by eexists|]. cbv beta iota zeta.
  apply c_bind_done. do 2 eexists. split; [apply built_done; by split|].
  apply c_bind_done. do 2 eexists. split; [apply built_done; by split|].
  apply c_bind_done. do 2 eexists. split; [apply built_done; by split|].
  apply c_bind_done. do 2 eexists. split; [exact Hl|].
  apply c_bind_done. do 2 eexists. split; [exact Ha|].
  apply c_bind_done. do 2 eexists. split; [exact Hd|].
  apply c_bind_done. do 2 eexists. split; [apply (refuse_done _ _ _ tt); by split|]. reflexivity.
Qed.
End refusals.

(** C29: when the server refuses to start.  Alone, with an environment that loads and the
    database and the sockets at hand, it starts exactly when, of the configuration that the
    settings give, the enabled UTXO chains have networks and servers that parse, the latch does not
    read tampered and the administrators' address may be bound, and the admission address of
    a gated relay is a socket address: the payment processor and the relay of a
    configuration that validates are always built. *)
Theorem start_exact `{Ext} `{Hmac} `{MacJson} `{AuditJson} `{JsonText} `{Urls} `{Bech32} `{Http}
    `{PayNet} `{Start} env sh w base
    (Hq : w_sched w = []) (Hbase : from_env env = Ok base)
    (Hconn : db_connect (cf_database_url base) = None) (Hmig : db_migrate = None)
    (Hlisten : forall a, listen a = None) :
  exists c, (boot_config env w).2 = Ok (base, c) /\ effective c /\
    ((exists s' st, boot env (sh, w) = (s', Done st)) <-> startable c (w_db w)).
Proof.
  destruct (boot_config_alone env w base Hq Hbase) as [c Hc]. exists c. rewrite Hc.
  destruct (boot_config_effective env w base c) as [_ Heff]; [by rewrite Hc|].
  split; [done|]. split; [done|]. pose proof (valid_builds c (proj1 Heff)) as [Hp Hr]. split.
  - intros (s' & st & Hrun).
    apply boot_done in Hrun as (w1 & s2 & Hc' & Hch & _ & _ & Hrel & _ & Hlatch & Had & Hadm & _).
    rewrite Hc in Hc'. injection Hc' as <- _ Ec. rewrite <- Ec in Hch, Hrel, Hlatch, Had, Hadm.
    apply bind_admin_done in Had as [_ Had]. apply bind_admission_done in Hadm as [_ Hadm]. constructor.
    + by rewrite Hch.
    + intros Hd. rewrite Hd, boot_latch_alone in Hlatch by done. by destruct (setup _ _).
    + intros Hd. rewrite Hd in Had. by destruct Had as (_ & ? & _).
    + intros relay Hrel' Hg. rewrite Hrel in Hrel'. injection Hrel' as Hrel'. rewrite Hrel', Hg in Hadm.
      destruct Hadm as [Hs ->]. exact Hs.
  - intros Hst. pose proof (st_chains _ _ Hst) as Hch.
    destruct (chains_from_config c) as [chains|e|] eqn:Ech; [|discriminate Hch..].
    destruct (provider_from_config c) as [payment|e|] eqn:Epay; [|discriminate Hp..].
    destruct (relay_from_config (ms_relay (cf_messaging c))) as [relay|e|] eqn:Erel; [|discriminate Hr..].
    eapply boot_alone; try done.
Qed.

(** * Concrete runs *)

#[local] Existing Instances demo_no_http demo_pay_net demo_cfg_net.
#[local] Instance demo_no_bech32 : Bech32 := { bech32_decode _ := None }.

(** A resolver that knows the name of this host. *)
#[local] Instance demo_resolver : Urls := {
  Url := string;
  url_parse s := if contains "://" s then Some s else None;
  url_scheme s := before_colon s;
  url_host s := Some (HostDomain s);
  network_from_str s := if contains "/" s then Some s else None;
  network_from_ip ip := ip;
  ip_is_loopback ip := ip =? "127.0.0.1";
  to_socket_addrs s := Some [if before_colon s =? "localhost" then "127.0.0.1" else before_colon s];
}.

#[local] Instance demo_start : Start := {
  db_connect _ := None;
  db_migrate := None;
  legacy_open _ := None;
  socket_addr_from_str s := if before_colon s =? "127.0.0.1" then Some s else None;
  listen _ := None;
}.

Definition demo_boot (env : Env) (d : Db) : (Shell * World) * exit Started :=
  boot env (mkShell [] [] ∅, quiet_world d 0).

Definition exit_done {A} (r : exit A) : bool := match r with Done _ => true | _ => false end.

Lemma start_posture_witness :
  exists st, (demo_boot demo_admin_env empty_db).2 = Done st /\ is_Some (sd_admin st) /\
    is_Some (sd_admission st) /\ binds_loopback (dm_bind (cf_admin (sd_config st))) = true.
Proof.
  assert (Hd : match (demo_boot demo_admin_env empty_db).2 with
    | Done st => is_some (sd_admin st) && is_some (sd_admission st)
                 && negb (dm_allow_public_bind (cf_admin (sd_config st)))
    | _ => false end = true) by (vm_compute; reflexivity).
  destruct (demo_boot demo_admin_env empty_db) as [s' [st|e|]] eqn:E; simpl in Hd; [|discriminate Hd..].
  destruct (start_posture demo_admin_env _ _ s' st E) as (_ & _ & _ & Hbind & _).
  apply andb_true_iff in Hd as [Hd Hp]. apply andb_true_iff in Hd as [Ha Hm]. apply negb_true_iff in Hp.
  assert (Hs : is_Some (sd_admin st)) by (destruct (sd_admin st); [by eexists|discriminate Ha]).
  exists st. split; [reflexivity|]. split; [exact Hs|].
  split; [destruct (sd_admission st); [by eexists|discriminate Hm]|].
  destruct (Hbind Hs) as [Hb|Hb]; [exact Hb|]. rewrite Hb in Hp. discriminate Hp.
Defined.

(** The base of the demonstration with a name for the admission address. *)
Definition demo_named_env : Env := <["RELAY_ADMISSION_BIND" := "localhost:8090"]> demo_admin_env.

(** It loads, so it validates, and the server does not start on it. *)
Lemma start_exact_witness :
  is_ok (from_env demo_named_env) = true /\
  forall s' st, demo_boot demo_named_env empty_db <> (s', Done st).
Proof.
  assert (Hok : is_ok (from_env demo_named_env) = true) by (vm_compute; reflexivity).
  split; [exact Hok|]. destruct (from_env demo_named_env) as [base|e|] eqn:Eb; [|discriminate Hok..].
  assert (Hconn : db_connect (cf_database_url base) = None) by reflexivity.
  assert (Hmig : db_migrate = None) by reflexivity.
  assert (Hl : forall a, listen a = None) by reflexivity.
  destruct (start_exact demo_named_env (mkShell [] [] ∅) (quiet_world empty_db 0) base eq_refl Eb
    Hconn Hmig Hl) as (c & Hc & _ & Hiff).
  intros s' st Hrun. assert (Hst : startable c empty_db) by (apply Hiff; by exists s', st).
  assert (Hr : match (boot_config demo_named_env (quiet_world empty_db 0)).2 with
    | Ok (_, c) => match relay_from_config (ms_relay (cf_messaging c)) with
                   | Ok relay => gated relay && is_none (socket_addr_from_str (rl_admission_bind (ms_relay (cf_messaging c))))
                   | _ => false end
    | _ => false end = true) by (vm_compute; reflexivity).
  rewrite Hc in Hr. destruct (relay_from_config (ms_relay (cf_messaging c))) as [relay|e|] eqn:Er; [|discriminate Hr..].
  apply andb_true_iff in Hr as [Hg Hn]. destruct (st_admission _ _ Hst relay Er Hg) as [a Ha].
  rewrite Ha in Hn. discriminate Hn.
Defined.

(** An edit of the operator that validates, is stored, and keeps the server from starting
    again: it enables a chain whose network, which nothing has checked while the chain was off,
    does not exist. *)
Definition demo_typo_env : Env := <["LTC_NETWORK" := "main"]>
  (<["LTC_ELECTRUM_URL" := "ssl://ltc.smirk.cash:50002"]> demo_admin_env).
Definition demo_enable_ltc : SettingsOverlay :=
  mkSettingsOverlay None None None None None None
    (Some (mkFeaturesOverlay None None None None None None None None (Some true) None None None)) None None.
Definition demo_typo_put : World * outcome PutResult :=
  match from_env demo_typo_env with
  | Ok c => admin_config_put demo_admin_state c (fun _ => c) demo_admin_headers demo_enable_ltc
              ∅ (quiet_world demo_admins 0)
  | _ => (quiet_world demo_admins 0, Panic)
  end.

Example stored_edit_stops_the_server :
  exit_done (demo_boot demo_typo_env demo_admins).2 = true /\
  is_ok demo_typo_put.2 = true /\
  exit_done (demo_boot demo_typo_env (w_db demo_typo_put.1)).2 = false.
Proof. vm_compute. by split_and!. Qed.
